(* ===== verification/_CoqProject ===== *)
-Q . S2P
Prelude.v
CommonHash.v
DspState.v
DspTables.v
DspStacks.v
DspImem.v
DspAnalyzer.v
DspCore.v
DspAccel.v
DspHW.v
DspCC.v
DspIntUtil.v
DspArithmetic.v
DspMultiplier.v
DspBranch.v
DspLoadStore.v
DspMisc.v
DspFrame.v
DspExtOps.v
DspIntTables.v
DspInterpreter.v
DspInit.v
Memmap.v
PpcCache.v
PpcState.v
PpcInteger.v
PpcSystem.v
PpcFpu.v
PpcFloat.v
PpcFpArith.v
PpcConvert.v
PpcEstimates.v
PpcBat.v
PpcTlb.v
PpcMmu.v
PpcAccess.v
PpcLoadStore.v
PpcPaired.v
PpcQuantize.v
StdHeap.v
CoreTiming.v
PpcSpr.v
PpcTimers.v
PpcBranch.v
PpcKeeps.v
PpcTables.v
PpcRun.v
PpcSteps.v
