(* ===== verification/Prelude.v ===== *)
(** * Verified core of Faster Melee (Dolphin): overview and prelude

    The repository is a fork of the GameCube and Wii emulator Dolphin; its own
    code is under [Source/Core]. This development models, from the C++ sources,
    two processors of the console with what they run on, and proves what makes
    them correct: the DSP's low level emulation, complete, and the main
    processor (PowerPC) as its interpreter runs it, from the fetch of an
    instruction through address translation and the caches to the last handler of
    its opcode tables; the event scheduler that drives them, the timers, and the
    memory below them.

    ** Reading guide

    A C++ integer is a [Z] with the conversions [u8] .. [s64] of this file where
    the source converts or wraps. A struct is a record with one [set_] or [put_]
    function per field, a handler is a definition of the source's name. The DSP's
    handlers are programs of a state monad ([DspState.M]), because most of them
    read and write registers whose accesses have side effects; the PowerPC's are
    functions from state to state; those that can fault return an option, and what
    reaches virtual memory is a program of the monad [PpcTlb.M], whose outcomes are
    [Done], [Fault] and [Loops].
    [None] (in [PpcTlb.M], [Fault]) stands for a fault of the host (a null pointer, an index outside an
    array) or for missing fuel, which the theorems exclude.

    ** The DSP: files [Dsp*], [CommonHash]  (Core/DSP, Core/HW/DSPLLE, Core/HW/DSP.cpp)

    - [DspState] (DSPCore.h): register file, machine, invariant [wf].
    - [DspTables] (DSPTables.cpp), [DspIntTables] (DSPIntTables.cpp): the templates
      and the dispatch; [decoding_agrees]: both decode every word alike.
    - [DspStacks], [DspImem]: the stacks behind st0..st3 ([stack_lifo]), program memory.
    - [DspAnalyzer] (DSPAnalyzer.cpp): [analyze_correct], what the code flags mean.
    - [DspCore], [DspInit] (DSPCore.cpp): reset, exceptions, initialisation.
    - [DspAccel] (DSPAccelerator.cpp), [DspHW] (DSPHWInterface.cpp, DSPMemoryMap.cpp):
      sample decoding, mailboxes, registers, DMA.
    - [DspCC], [DspIntUtil], [DspArithmetic], [DspMultiplier], [DspBranch],
      [DspLoadStore], [DspMisc], [DspExtOps] (DSPInt*.cpp): every instruction.
    - [DspFrame]: what instructions leave alone. [DspInterpreter]
      (DSPInterpreter.cpp): a step, the run loops, the control register.

    An instruction runs its extension first, whose register writes wait in a log
    ([DspExtOps]) until the main operation is done: [instruction_in_parallel].
    [reachable_ready] is the invariant of every state the DSP, its host and the
    main processor can reach; [run_cycles_spec] makes the run loops iterations of
    [Step]; [hardware_loop], [exception_return] and [call_return] compose
    [DspBranch] with [DspStacks] and [DspCore].

    ** The main processor: files [Ppc*], [Memmap]  (Core/PowerPC, Core/HW/Memmap.cpp)

    - [Memmap] (Memmap.cpp, Common/Swap.h): physical memory; [big_endian_memory].
    - [PpcCache] (PPCCache.cpp): the instruction cache on top of [Memmap];
      [icache_refines_map] (the lookup tables, tags and valid bits are a partial map
      from lines to bytes), [icache_transparent] (a coherent cache reads what memory
      holds), [recent_lines_stay] (the replacement policy).
    - [PpcState] (PowerPC.h, PowerPC.cpp, Gekko.h): registers, the 64-bit encoding of
      the condition register ([condition_register]), exceptions.
    - [PpcInteger] (Interpreter_Integer.cpp): [sums_exact], [rotates_exact],
      [values_exact] cover every additive, rotate, shift, multiply and divide handler.
    - [PpcSystem] (Interpreter_SystemRegisters.cpp): [condition_moves], [condition_logic].
    - [PpcBranch] (Interpreter_Branch.cpp): [branches], [compare_then_branch],
      [exception_delivery], [interrupt_and_return].
    - [PpcBat] (MMU.h, MMU.cpp): the tables of the block address translation;
      [bat_tables]: they answer as a search of the registers does.
    - [PpcTlb] (MMU.cpp): the record [Mmu] of the whole processor with its memory, the
      page table and the TLBs. [translation_is_page_walk]: with TLBs that agree with
      the page table, translation is the architecture's search and the TLBs go on
      agreeing; [tlbie_restores]: that agreement after the page table is edited.
    - [PpcMmu] (MMU.cpp): loads, stores, fetches. [virtual_memory]: a load
      returns what a store put, across pages too; [failed_access]: exceptions;
      [access_safe]: no access reaches outside the emulated memories;
      [load_across_end]: the one load that never ends.
    - [PpcAccess], [PpcKeeps]: what an access, and every handler, keeps of the
      registers, for any relation that admits what they may do.
    - [PpcLoadStore] (Interpreter_LoadStore.cpp): [load_after_store],
      [multiple_words], [reservation]; [access_fails]: a failed access changes no
      register the instruction names.
    - [PpcFpu] (Interpreter_FPUtils.h, Common/FloatUtils.h): floating point registers
      as bits, moves and [float_compare]. [PpcFloat]: the host's arithmetic, rounded
      once. [PpcFpArith] (Interpreter_FloatingPoint.cpp, Interpreter_Paired.cpp):
      [arithmetic_nearest], [invalid_operations]. [PpcConvert]:
      [conversion_to_integer]. [PpcEstimates]: [estimates_accurate].
    - [PpcPaired], [PpcQuantize] (Interpreter_LoadStorePaired.cpp):
      [quantised_values], [quantised_copy].
    - [PpcTimers] (SystemTimers.cpp): [decrementer], [time_base]. [PpcSpr]
      (Interpreter_SystemRegisters.cpp): [spr_reads_back], [user_mode_registers],
      [tables_stay_current].
    - [PpcTables] (Interpreter_Tables.cpp, PPCTables.cpp): [decoding].
    - [PpcRun] (Interpreter.cpp): a step, a block, a slice, the run loop. [PpcSteps]
      composes all of the above: [faulting_access] (from the fetch of a load or store
      that fails to its handler), [fpu_disabled], [registers_in_range] (the invariant
      [wf] of every run), [idle_loop_yields].

    ** Time: [StdHeap], [CoreTiming]  (Core/CoreTiming.cpp)

    [StdHeap] is the interface of the heap algorithms of the C++ library (a class with
    the standard's laws) and an implementation; [CoreTiming] is proved against
    the interface. [events_in_order]: [Advance] ends and runs the due events once, in
    order. [no_event_missed]: no event is due before the processor's downcount runs
    out. The branches of [PpcBranch] act on [CoreTiming.State], because idle loops skip
    time, and [Advance] checks the processor's external exceptions.

    ** Fuel and bounds

    Recursion that is not structural takes fuel. [DspExtOps.apply_from] gets the size of
    the log's array, [DspInterpreter.run_cycles_loop] one more than the
    cycles (each instruction costs one at least), [CommonHash.adler_blocks] the length
    of the data, [DspAnalyzer]'s sweep the length of the range, the sifts of [StdHeap]
    the length of the heap; in each case the theorems are about the function at that
    fuel. [CoreTiming.Advance] takes its fuel as an argument, and [events_in_order]
    says that more rounds than due events suffice, when callbacks schedule in the future
    only. A load that crosses a page gets one more than its bytes, and
    what is left when it runs out is the outcome [Loops], which [virtual_memory] and
    [load_across_end] tell apart. A string load counts 256 bytes, more than its
    8-bit counter; a mantissa is normalised in at most 52 shifts; a quotient is computed
    with 120 bits more than the divisor has and a sticky bit, more than a rounding
    looks at. The run loop of [PpcRun] has no bound in the source, and takes the
    numbers of slices, blocks and steps as arguments: [registers_in_range] holds for
    all of them, [idle_loop_yields] from two on. Times stay below [TIME_LIMIT] (2^62 cycles, centuries of emulated time).

    ** Parameters

    Code that is not modelled and that the modelled code calls is a parameter: the
    accelerator's memory and interrupt ([DspAccel.AcceleratorHost]), the callbacks of
    events, the debugger's read of virtual memory in the search for idle loops
    ([PpcBranch.bcx]), the C++ heap algorithms; behind the loads and stores, the
    devices and the video backend ([PpcMmu.MmuHost], with laws in
    [PpcMmu.MmuHostLaws]) and the watchpoints ([PpcBat.Update]); behind the special
    purpose registers and cache instructions, the gather pipe, the recompiler and
    the answers of the user ([PpcSpr.SprHost], [PpcLoadStore.LoadStoreHost]); whether the
    host can flush denormals ([PpcFpArith.FpuHost]); around the run loop,
    the replacement of library functions, the run state and the breakpoints
    ([PpcRun.RunHost]).

    ** Not modelled

    Logging, the capture of DSP traffic, savestates (DoState) and everything whose only
    effect is on the host's screen or files. In the modelled parts: the vectorised DMA
    copies and the breakpoint loop RunCyclesDebug of the DSP, its run states and thread
    (DSPCore_RunCycles), the Wii's branch of ReadARAM, the end of main memory for DMA;
    the overclocking factor, bSyncGPUOnSkipIdleHack, event registration; the mapping of
    memory into the host's address space and MMIO; of the PowerPC, the statistics, the
    trace and the GDB stub.
    The JITs emit machine code. Other subsystems (video, audio, discs, IOS, network,
    user interface) drive host devices.

    Left for later: the memory card's block allocation, the Action Replay codes and
    the containers of Common. *)

From Stdlib Require Export ZArith Lia Bool Btauto.
From stdpp Require Export base list gmap.

Open Scope Z_scope.

(** ** Machine integers

    A C++ integer is a [Z]; [wrapu w] is the conversion to the unsigned type
    of [w] bits and [wraps w] the conversion to the signed one (two's
    complement, which every supported compiler implements). *)

Definition wrapu (w v : Z) : Z := v mod 2 ^ w.
Definition wraps (w v : Z) : Z := (v + 2 ^ (w - 1)) mod 2 ^ w - 2 ^ (w - 1).

Declare Scope cint_scope.
Delimit Scope cint_scope with cint.
Open Scope cint_scope.

Abbreviation u8 := (wrapu 8).
Abbreviation u16 := (wrapu 16).
Abbreviation u32 := (wrapu 32).
Abbreviation u64 := (wrapu 64).
Abbreviation s8 := (wraps 8).
Abbreviation s16 := (wraps 16).
Abbreviation s32 := (wraps 32).
Abbreviation s64 := (wraps 64).

Notation "a .& b" := (Z.land a b) (at level 43, left associativity) : cint_scope.
Notation "a .| b" := (Z.lor a b) (at level 45, left associativity) : cint_scope.
Notation "a .^ b" := (Z.lxor a b) (at level 44, left associativity) : cint_scope.
Notation "a .<< b" := (Z.shiftl a b) (at level 42, left associativity) : cint_scope.
Notation "a .>> b" := (Z.shiftr a b) (at level 42, left associativity) : cint_scope.
Notation ".~ a" := (Z.lnot a) (at level 35, right associativity) : cint_scope.

(** [a] fits an unsigned integer of [w] bits. *)
Definition inu (w a : Z) : Prop := 0 <= a < 2 ^ w.
(** [a] fits a signed integer of [w] bits. *)
Definition ins (w a : Z) : Prop := - 2 ^ (w - 1) <= a < 2 ^ (w - 1).

#[export] Instance inu_dec w a : Decision (inu w a).
Proof. unfold inu. apply _. Defined.
#[export] Instance ins_dec w a : Decision (ins w a).
Proof. unfold ins. apply _. Defined.

(** C's truth value of [x & mask]. *)
Definition flag (x mask : Z) : bool := negb (Z.land x mask =? 0).

(** ** Bit fields: the 16-bit members of a union over a wider integer *)

Definition fld16 (lo v : Z) : Z := u16 (v .>> lo).
Definition set_fld16 (lo x v : Z) : Z :=
  (v .& .~ (0xffff .<< lo)) .| (u16 x .<< lo).

(** ** Arrays

    A small array is a [list Z] read and written at an index; a large one is a
    finite map in which an absent cell holds zero. *)

Definition zget (l : list Z) (i : Z) : Z := nth (Z.to_nat i) l 0.
Definition zset (l : list Z) (i v : Z) : list Z := <[Z.to_nat i := v]> l.

Definition mget {K} `{Countable K} (m : gmap K Z) (a : K) : Z := default 0 (m !! a).
Definition mset {K} `{Countable K} (m : gmap K Z) (a : K) (v : Z) : gmap K Z := <[a := v]> m.

Arguments wrapu : simpl never.
Arguments wraps : simpl never.
Arguments fld16 : simpl never.
Arguments set_fld16 : simpl never.
Arguments zget : simpl never.
Arguments zset : simpl never.
Arguments mget : simpl never.
Arguments mset : simpl never.

(** Every cell of the map fits [w] bits. *)
Definition mem_ok {K} `{Countable K} (w : Z) (m : gmap K Z) : Prop :=
  forall a v, m !! a = Some v -> inu w v.

(** ** Hint databases

    [cint] closes range side conditions, [wf] closes preservation of the state
    invariant (both are extended by the component files), [bits] rewrites
    [Z.testbit] of every operation the sources use. *)

Create HintDb cint.
Create HintDb wf discriminated.
#[export] Hint Constants Opaque : wf.
Create Rewrite HintDb bits.
Create Rewrite HintDb flags.

(** ** Wrapping *)

Lemma pow2_pos w : 0 <= w -> 0 < 2 ^ w.
Proof. intros. apply Z.pow_pos_nonneg; lia. Qed.

Lemma wrapu_range w v : 0 <= w -> inu w (wrapu w v).
Proof. intros. unfold inu, wrapu. apply Z.mod_pos_bound, pow2_pos. lia. Qed.

Lemma pow2_half w : 0 < w -> 2 ^ w = 2 * 2 ^ (w - 1).
Proof. intros. rewrite <- Z.pow_succ_r by lia. f_equal. lia. Qed.

Lemma wraps_range w v : 0 < w -> ins w (wraps w v).
Proof.
  intros. unfold ins, wraps.
  pose proof (Z.mod_pos_bound (v + 2 ^ (w - 1)) (2 ^ w) (pow2_pos w ltac:(lia))).
  pose proof (pow2_half w). lia.
Qed.

Lemma wrapu_id w v : inu w v -> wrapu w v = v.
Proof. intros. unfold wrapu. apply Z.mod_small. exact H. Qed.

Lemma wraps_id w v : 0 < w -> ins w v -> wraps w v = v.
Proof.
  unfold ins, wraps. intros. pose proof (pow2_half w).
  rewrite Z.mod_small by lia. lia.
Qed.

Lemma wrapu_idem w v : 0 <= w -> wrapu w (wrapu w v) = wrapu w v.
Proof. intros. apply wrapu_id, wrapu_range. lia. Qed.

(** Conversions only look at the low bits. *)
Lemma wrapu_eq_mod w a b : a mod 2 ^ w = b mod 2 ^ w -> wrapu w a = wrapu w b.
Proof. done. Qed.

Lemma wraps_eq_mod w a b : a mod 2 ^ w = b mod 2 ^ w -> wraps w a = wraps w b.
Proof.
  intros H. unfold wraps. f_equal.
  rewrite <- (Zplus_mod_idemp_l a), H, Zplus_mod_idemp_l. reflexivity.
Qed.

Lemma wrapu_mod_le w w' v : 0 <= w <= w' -> (wrapu w' v) mod 2 ^ w = v mod 2 ^ w.
Proof.
  intros. unfold wrapu.
  apply Z.mod_mod_divide.
  exists (2 ^ (w' - w)). rewrite <- Z.pow_add_r by lia. f_equal. lia.
Qed.

Lemma wraps_mod_le w w' v : 0 <= w <= w' -> 0 < w' -> (wraps w' v) mod 2 ^ w = v mod 2 ^ w.
Proof.
  intros. unfold wraps.
  assert (E : exists k, 2 ^ w' = k * 2 ^ w).
  { exists (2 ^ (w' - w)). rewrite <- Z.pow_add_r by lia. f_equal. lia. }
  destruct E as [k E].
  rewrite (Z.mod_eq (v + 2 ^ (w' - 1)) (2 ^ w')) by (pose proof (pow2_pos w'); lia).
  replace (v + 2 ^ (w' - 1) - 2 ^ w' * ((v + 2 ^ (w' - 1)) / 2 ^ w') - 2 ^ (w' - 1))
    with (v + (- (k * ((v + 2 ^ (w' - 1)) / 2 ^ w'))) * 2 ^ w) by (rewrite E; ring).
  apply Z_mod_plus_full.
Qed.

(** A signed conversion differs from its argument by a multiple of [2 ^ w]. *)
Lemma wraps_mod w v : 0 < w -> (wraps w v) mod 2 ^ w = v mod 2 ^ w.
Proof. intros. apply wraps_mod_le; lia. Qed.

Lemma wraps_wraps_le w w' v : 0 < w <= w' -> wraps w (wraps w' v) = wraps w v.
Proof. intros. apply wraps_eq_mod, wraps_mod_le; lia. Qed.

Lemma wraps_wrapu_le w w' v : 0 < w <= w' -> wraps w (wrapu w' v) = wraps w v.
Proof. intros. apply wraps_eq_mod, wrapu_mod_le; lia. Qed.

Lemma wrapu_wraps_le w w' v : 0 < w <= w' -> wrapu w (wraps w' v) = wrapu w v.
Proof. intros. apply wrapu_eq_mod, wraps_mod_le; lia. Qed.

Lemma wrapu_wrapu_le w w' v : 0 <= w <= w' -> wrapu w (wrapu w' v) = wrapu w v.
Proof. intros. apply wrapu_eq_mod, wrapu_mod_le; lia. Qed.

(** The sign of a signed conversion of an unsigned value. *)
Lemma wraps_unsigned w v :
  0 < w -> inu w v -> wraps w v = if v <? 2 ^ (w - 1) then v else v - 2 ^ w.
Proof.
  unfold inu, wraps. intros. pose proof (pow2_half w).
  destruct (Z.ltb_spec v (2 ^ (w - 1))).
  - rewrite Z.mod_small by lia. lia.
  - rewrite <- (Z_mod_plus_full _ (-1)), Z.mod_small by lia. lia.
Qed.

Lemma wrapu_signed w v : 0 < w -> ins w v -> wrapu w v = if v <? 0 then v + 2 ^ w else v.
Proof.
  unfold ins, wrapu. intros. pose proof (pow2_half w).
  destruct (Z.ltb_spec v 0).
  - rewrite <- (Z_mod_plus_full _ 1), Z.mod_small by lia. lia.
  - apply Z.mod_small. lia.
Qed.

#[export] Hint Resolve wrapu_range wraps_range : cint.
#[export] Hint Extern 2 (_ <= _)%Z => lia : cint.
#[export] Hint Extern 2 (_ < _)%Z => lia : cint.
#[export] Hint Extern 2 (_ <= _ <= _)%Z => lia : cint.

(** ** Bits *)

Lemma testbit_wrapu w v i :
  0 <= w -> Z.testbit (wrapu w v) i = (i <? w) && Z.testbit v i.
Proof.
  intros Hw. unfold wrapu. destruct (Z.ltb_spec i w); cbn [andb].
  - destruct (Z.ltb_spec i 0).
    + rewrite !Z.testbit_neg_r by lia. done.
    + apply Z.mod_pow2_bits_low. lia.
  - apply Z.mod_pow2_bits_high. lia.
Qed.

Lemma testbit_inu_high w v i : 0 <= w -> inu w v -> w <= i -> Z.testbit v i = false.
Proof.
  intros Hw Hv Hi. rewrite <- (wrapu_id w v Hv), testbit_wrapu by lia.
  destruct (Z.ltb_spec i w); [lia | done].
Qed.

Lemma inu_testbit w v :
  0 <= w -> (forall i, w <= i -> Z.testbit v i = false) -> inu w v.
Proof.
  intros Hw H. replace v with (wrapu w v).
  - apply wrapu_range. lia.
  - apply Z.bits_inj'. intros i Hi. rewrite testbit_wrapu by lia.
    destruct (Z.ltb_spec i w); [done | symmetry; apply H; lia].
Qed.

Lemma testbit_shiftl' a n m : Z.testbit (a .<< n) m = (0 <=? m) && Z.testbit a (m - n).
Proof.
  destruct (Z.leb_spec 0 m); [apply Z.shiftl_spec; lia | apply Z.testbit_neg_r; lia].
Qed.

Lemma testbit_shiftr' a n m : Z.testbit (a .>> n) m = (0 <=? m) && Z.testbit a (m + n).
Proof.
  destruct (Z.leb_spec 0 m); [apply Z.shiftr_spec; lia | apply Z.testbit_neg_r; lia].
Qed.

Lemma testbit_lnot' a m : Z.testbit (.~ a) m = (0 <=? m) && negb (Z.testbit a m).
Proof.
  destruct (Z.leb_spec 0 m); [apply Z.lnot_spec; lia | apply Z.testbit_neg_r; lia].
Qed.

Lemma testbit_ffff m : Z.testbit 0xffff m = (0 <=? m) && (m <? 16).
Proof.
  change 0xffff with (Z.ones 16). destruct (Z.leb_spec 0 m).
  - rewrite Z.testbit_ones_nonneg by lia. done.
  - apply Z.testbit_neg_r. lia.
Qed.

#[export] Hint Rewrite Z.land_spec Z.lor_spec Z.lxor_spec testbit_shiftl' testbit_shiftr'
  testbit_lnot' testbit_ffff Z.testbit_0_l : bits.
#[export] Hint Rewrite testbit_wrapu using lia : bits.

(** Case split on every comparison in the goal, dropping the impossible ones. *)
Ltac split_cmps :=
  repeat match goal with
  | |- context [?a <? ?b] => destruct (Z.ltb_spec a b); try (exfalso; lia)
  | |- context [?a <=? ?b] => destruct (Z.leb_spec a b); try (exfalso; lia)
  end.

(** Close a bit out of range or below zero. *)
Ltac kill_neg_bits :=
  repeat match goal with
  | |- context [Z.testbit ?a ?i] => rewrite (Z.testbit_neg_r a i) by lia
  end.

(** Prove an equation between bit expressions bit by bit. *)
Ltac bitwise :=
  apply Z.bits_inj'; let i := fresh "i" in let Hi := fresh "Hi" in intros i Hi;
  autorewrite with bits; split_cmps; cbn [andb orb xorb negb]; kill_neg_bits;
  rewrite ?andb_true_r, ?andb_false_r, ?orb_false_r, ?orb_true_r; cbn [andb orb xorb negb];
  try reflexivity; try btauto; try (f_equal; f_equal; lia).

Lemma fld16_range lo v : inu 16 (fld16 lo v).
Proof. apply wrapu_range. lia. Qed.

Lemma fld16_set_same lo x v : 0 <= lo -> fld16 lo (set_fld16 lo x v) = u16 x.
Proof.
  intros. unfold fld16, set_fld16. bitwise.
Qed.

Lemma fld16_set_other lo lo' x v :
  0 <= lo -> 0 <= lo' -> lo + 16 <= lo' \/ lo' + 16 <= lo ->
  fld16 lo (set_fld16 lo' x v) = fld16 lo v.
Proof. intros. unfold fld16, set_fld16. bitwise. Qed.

Lemma set_fld16_range lo w x v :
  0 <= lo -> lo + 16 <= w -> inu w v -> inu w (set_fld16 lo x v).
Proof.
  intros Hlo Hw Hv. apply inu_testbit; [lia |]. intros i Hi.
  unfold set_fld16. autorewrite with bits.
  rewrite (testbit_inu_high w v i) by (lia || done). split_cmps. done.
Qed.

#[export] Hint Resolve fld16_range set_fld16_range : cint.

(** The low half of a wider value is determined by its fields. *)
Lemma mod_40_fields v : v mod 2 ^ 40 = fld16 32 v mod 2 ^ 8 * 2 ^ 32 + fld16 16 v * 2 ^ 16 + fld16 0 v.
Proof.
  unfold fld16, wrapu. rewrite !Z.shiftr_div_pow2 by lia.
  change (2 ^ 0) with 1. Z.to_euclidean_division_equations. lia.
Qed.

Lemma land_le_r a b : 0 <= b -> (a .& b) <= b.
Proof.
  intros Hb. pose proof (Z.sub_land_same_l b a) as H. rewrite Z.land_comm.
  assert (0 <= b .& .~ a) by (apply Z.land_nonneg; auto). lia.
Qed.

(** The bits from the [n]-th on, in place. *)
Lemma land_top w n x : 0 <= n <= w -> inu w x -> x .& (Z.ones (w - n) .<< n) = x / 2 ^ n * 2 ^ n.
Proof.
  intros Hn Hx. rewrite <- Z.shiftr_div_pow2, <- Z.shiftl_mul_pow2 by lia. apply Z.bits_inj'. intros i Hi.
  rewrite Z.land_spec, !testbit_shiftl', testbit_shiftr', Z.testbit_ones by lia.
  destruct (Z.leb_spec 0 i); [| lia]. cbn [andb]. destruct (Z.leb_spec 0 (i - n)); [| apply andb_false_r]. cbn [andb].
  destruct (Z.ltb_spec (i - n) (w - n)); [rewrite andb_true_r; f_equal; lia |].
  rewrite andb_false_r. symmetry. replace (i - n + n) with i by lia. apply (testbit_inu_high w); (done || lia).
Qed.

(** C's test of a single bit. *)
Lemma flag_testbit x k : 0 <= k -> flag x (2 ^ k) = Z.testbit x k.
Proof.
  intros Hk. unfold flag. destruct (Z.testbit x k) eqn:E.
  - apply negb_true_iff, Z.eqb_neq. intros H.
    assert (Z.testbit (x .& 2 ^ k) k = false) as H' by (rewrite H; apply Z.testbit_0_l).
    rewrite Z.land_spec, E, Z.pow2_bits_true in H' by lia. done.
  - apply negb_false_iff, Z.eqb_eq. apply Z.bits_inj'. intros i Hi.
    rewrite Z.land_spec, Z.testbit_0_l. destruct (decide (i = k)) as [-> | Hne].
    + rewrite E. done.
    + rewrite Z.pow2_bits_false by lia. apply andb_false_r.
Qed.

Lemma testbit_bit k i : 0 <= k -> Z.testbit (1 .<< k) i = (i =? k).
Proof.
  intros. rewrite Z.shiftl_mul_pow2, Z.mul_1_l, Z.pow2_bits_eqb by lia. apply Z.eqb_sym.
Qed.

Lemma flag_pow2 m t : 0 <= t -> flag m (1 .<< t) = Z.testbit m t.
Proof. intros. rewrite Z.shiftl_mul_pow2, Z.mul_1_l by done. apply flag_testbit. done. Qed.

Lemma inu_land_l w a b : 0 <= w -> inu w a -> inu w (a .& b).
Proof.
  intros Hw Ha. apply inu_testbit; [done |]. intros i Hi. rewrite Z.land_spec, (testbit_inu_high w) by done. done.
Qed.

Lemma inu_lor w a b : 0 <= w -> inu w a -> inu w b -> inu w (a .| b).
Proof.
  intros Hw Ha Hb. apply inu_testbit; [done |]. intros i Hi. rewrite Z.lor_spec, !(testbit_inu_high w) by done. done.
Qed.

(** Bits joined without overlap are a sum. *)
Lemma lor_shift_add a b n : 0 <= n -> 0 <= b < 2 ^ n -> (a .<< n) .| b = a * 2 ^ n + b.
Proof.
  intros Hn Hb. rewrite <- Z.shiftl_mul_pow2 by done.
  rewrite Z.add_nocarry_lxor, Z.lxor_lor; [done | |];
    (apply Z.bits_inj'; intros i Hi; rewrite Z.land_spec, testbit_shiftl', Z.testbit_0_l;
     destruct (Z.ltb_spec i n);
     [ rewrite (Z.testbit_neg_r a) by lia; rewrite andb_false_r; done
     | rewrite (testbit_inu_high n b) by (lia || done); apply andb_false_r ]).
Qed.

(** ** Carries

    The exclusive or of a sum with its operands is the vector of carries: bit
    [k] is set when the low [k] bits overflow. *)

Lemma testbit_xorb_carry a b c k :
  0 <= k -> 0 <= c <= 1 ->
  Z.testbit ((a + b + c) .^ a .^ b) k = (2 ^ k <=? a mod 2 ^ k + b mod 2 ^ k + c).
Proof.
  intros Hk Hc. pose proof (pow2_pos k Hk) as Hp. rewrite !Z.lxor_spec.
  rewrite !Z.testbit_odd, !Z.shiftr_div_pow2 by lia.
  set (m := 2 ^ k) in *. set (r := a mod m + b mod m + c).
  assert (Hr : 0 <= r < 2 * m).
  { subst r. pose proof (Z.mod_pos_bound a m Hp). pose proof (Z.mod_pos_bound b m Hp). lia. }
  assert (E : (a + b + c) / m = a / m + b / m + r / m).
  { rewrite (Z.div_mod a m) at 1 by lia. rewrite (Z.div_mod b m) at 1 by lia.
    replace (m * (a / m) + a mod m + (m * (b / m) + b mod m) + c)
      with (r + (a / m + b / m) * m) by (subst r; ring).
    rewrite Z.div_add by (clear - Hp; lia). ring. }
  rewrite E, !Z.odd_add. clearbody r m. clear E. destruct (Z.leb_spec m r) as [C | C].
  - rewrite <- (Z.div_unique_pos r m 1 (r - m)) by lia.
    destruct (Z.odd (a / m)), (Z.odd (b / m)); reflexivity.
  - rewrite (Z.div_small r m) by lia. destruct (Z.odd (a / m)), (Z.odd (b / m)); reflexivity.
Qed.

(** ** Arrays of machine integers *)

(** [n] cells of [w] bits. *)
Definition arr_ok (n : nat) (w : Z) (l : list Z) : Prop := length l = n /\ Forall (inu w) l.
Arguments arr_ok n%_nat w%_Z l.

Lemma arr_ok_zset n w l i v : arr_ok n w l -> inu w v -> arr_ok n w (zset l i v).
Proof.
  intros [Hl Hf] Hv. split; unfold zset.
  - rewrite length_insert. done.
  - apply Forall_insert; done.
Qed.

Lemma arr_ok_zget n w l i : 0 <= w -> arr_ok n w l -> inu w (zget l i).
Proof.
  intros Hw [_ Hf]. unfold zget.
  destruct (nth_in_or_default (Z.to_nat i) l 0) as [Hin | ->].
  - rewrite Forall_forall in Hf. apply Hf, list_elem_of_In, Hin.
  - unfold inu. pose proof (pow2_pos w Hw). lia.
Qed.

Lemma mem_ok_mset {K} `{Countable K} w (m : gmap K Z) a v :
  mem_ok w m -> inu w v -> mem_ok w (mset m a v).
Proof.
  intros Hm Hv b x. unfold mset. rewrite lookup_insert. case_decide.
  - intros [= <-]. done.
  - apply Hm.
Qed.

Lemma mem_ok_mget {K} `{Countable K} w (m : gmap K Z) a :
  0 <= w -> mem_ok w m -> inu w (mget m a).
Proof.
  intros Hw Hm. unfold mget. destruct (m !! a) eqn:E; cbn.
  - eapply Hm, E.
  - unfold inu. pose proof (pow2_pos w Hw). lia.
Qed.

Lemma zget_zset_same n w l i v : arr_ok n w l -> 0 <= i < Z.of_nat n -> zget (zset l i v) i = v.
Proof.
  intros [Hl _] Hi. unfold zget, zset. rewrite nth_lookup.
  rewrite list_lookup_insert_eq by lia. done.
Qed.

Lemma zget_zset_other l i j v : 0 <= i -> 0 <= j -> i <> j -> zget (zset l i v) j = zget l j.
Proof.
  intros. unfold zget, zset. rewrite !nth_lookup. rewrite list_lookup_insert_ne by lia. done.
Qed.

Lemma zset_zset l i v v' : zset (zset l i v) i v' = zset l i v'.
Proof. unfold zset. apply list_insert_insert_eq. Qed.

Lemma zset_zget n w l i : arr_ok n w l -> 0 <= i < Z.of_nat n -> zset l i (zget l i) = l.
Proof.
  intros [Hl _] Hi. unfold zset, zget. apply list_insert_id. rewrite nth_lookup.
  destruct (l !! Z.to_nat i) eqn:E; [done |]. apply lookup_ge_None in E. lia.
Qed.

Lemma mget_mset_same {K} `{Countable K} (m : gmap K Z) a v : mget (mset m a v) a = v.
Proof. unfold mget, mset. rewrite lookup_insert_eq. done. Qed.

Lemma mget_mset_other {K} `{Countable K} (m : gmap K Z) a b v :
  a <> b -> mget (mset m a v) b = mget m b.
Proof. intros. unfold mget, mset. rewrite lookup_insert_ne by done. done. Qed.

#[export] Hint Resolve arr_ok_zset arr_ok_zget mem_ok_mset mem_ok_mget : cint.

(** Close a range goal: a truncation or a value read from a well-formed part. *)
Ltac range :=
  first [ assumption | apply wrapu_range; lia | apply wraps_range; lia | eauto with cint
        | (unfold inu, ins in *; lia) ].
