(* ===== verification/CommonHash.v ===== *)
(** The checksum that identifies the DSP's ROMs ([Common/Hash.cpp],
    [HashAdler32]): the blockwise routine with deferred reductions, and the proof
    that it computes the Adler-32 checksum without a 32-bit overflow. *)

From S2P Require Import Prelude.
Open Scope Z_scope.

Definition MOD_ADLER : Z := 65521.
(** The bytes summed between two reductions. *)
Definition ADLER_BLOCK : nat := Z.to_nat 5550.

(** [a += *data++; b += a;] on [u32]. *)
Definition adler_byte (ab : Z * Z) (byte : Z) : Z * Z :=
  let a := u32 (fst ab + byte) in
  let b := u32 (snd ab + a) in
  (a, b).

(** [(x & 0xffff) + (x >> 16) * (65536 - MOD_ADLER)] *)
Definition adler_reduce (x : Z) : Z := u32 ((x .& 0xffff) + (x .>> 16) * (65536 - MOD_ADLER)).

(** [while (len)]: one block per round. *)
Fixpoint adler_blocks (fuel : nat) (data : list Z) (ab : Z * Z) : option (Z * Z) :=
  match data, fuel with
  | [], _ => Some ab
  | _, O => None
  | _, S fuel' =>
    let ab' := fold_left adler_byte (take ADLER_BLOCK data) ab in
    adler_blocks fuel' (drop ADLER_BLOCK data) (adler_reduce (fst ab'), adler_reduce (snd ab'))
  end.

(** Every round consumes a byte, so [length data] rounds suffice. *)
Definition HashAdler32 (data : list Z) : option Z :=
  match adler_blocks (length data) data (1, 0) with
  | None => None
  | Some (a, b) =>
    let a := if MOD_ADLER <=? a then u32 (a - MOD_ADLER) else a in
    let b := adler_reduce b in
    let b := if MOD_ADLER <=? b then u32 (b - MOD_ADLER) else b in
    Some (u32 (b .<< 16) .| a)
  end.

(** ** Specification *)

(** The two running sums modulo 65521. *)
Definition adler_sums (data : list Z) : Z * Z :=
  fold_left (fun ab byte =>
    let a := (fst ab + byte) mod MOD_ADLER in (a, (snd ab + a) mod MOD_ADLER)) data (1, 0).

Definition adler32 (data : list Z) : Z := let '(a, b) := adler_sums data in b * 2 ^ 16 + a.

(** Two pairs of sums agree modulo 65521. *)
Definition congruent (x y : Z * Z) : Prop :=
  fst x mod MOD_ADLER = fst y mod MOD_ADLER /\ snd x mod MOD_ADLER = snd y mod MOD_ADLER.

(** The reference sums, from any start. *)
Definition ref_byte (ab : Z * Z) (byte : Z) : Z * Z :=
  let a := (fst ab + byte) mod MOD_ADLER in (a, (snd ab + a) mod MOD_ADLER).

Lemma ref_byte_range ab byte :
  0 <= fst (ref_byte ab byte) < MOD_ADLER /\ 0 <= snd (ref_byte ab byte) < MOD_ADLER.
Proof. split; apply Z.mod_pos_bound; reflexivity. Qed.

(** One block: no sum overflows, and the congruence is kept. *)
Lemma block_sums l : forall a b y,
  Forall (inu 8) l -> 0 <= a -> 0 <= b -> congruent (a, b) y ->
  a + 255 * Z.of_nat (length l) < 2 ^ 32 ->
  2 * b + 2 * Z.of_nat (length l) * a + 255 * (Z.of_nat (length l) * (Z.of_nat (length l) + 1)) < 2 ^ 33 ->
  let ab := fold_left adler_byte l (a, b) in
  congruent ab (fold_left ref_byte l y) /\
  0 <= fst ab <= a + 255 * Z.of_nat (length l) /\
  0 <= snd ab < 2 ^ 32.
Proof.
  induction l as [| d l IH]; intros a b y Hl Ha Hb Hc H1 H2; cbn [fold_left].
  - cbn [length] in *. split; [done |]. cbn. lia.
  - apply List.Forall_cons_iff in Hl as [Hd Hl]. unfold inu in Hd. cbn [length] in *.
    rewrite Nat2Z.inj_succ in *. set (n := Z.of_nat (length l)) in *.
    assert (Hn : 0 <= n) by lia. unfold Z.succ in *.
    assert (Hab : 2 * (b + (a + d)) < 2 ^ 33).
    { assert (0 <= n * a) by nia. assert (0 <= n * n) by nia. nia. }
    assert (E1 : adler_byte (a, b) d = (a + d, b + (a + d))).
    { unfold adler_byte. cbn [fst snd]. rewrite (wrapu_id 32 (a + d)) by (unfold inu; lia).
      rewrite wrapu_id by (unfold inu; lia). done. }
    rewrite E1.
    specialize (IH (a + d) (b + (a + d)) (ref_byte y d) Hl ltac:(lia) ltac:(lia)).
    destruct IH as (I1 & I2 & I3).
    + destruct Hc as [C1 C2]. cbn [fst snd] in C1, C2. unfold congruent, ref_byte. cbn [fst snd].
      rewrite !Z.mod_mod by done.
      assert (E : (a + d) mod MOD_ADLER = (fst y + d) mod MOD_ADLER).
      { rewrite (Z.add_mod a), C1, <- Z.add_mod by done. done. }
      split; [exact E |]. rewrite Z.add_mod_idemp_r by done.
      rewrite (Z.add_mod b), C2, E, <- Z.add_mod by done. done.
    + nia.
    + nia.
    + split; [exact I1 |]. split; [lia | exact I3].
Qed.

(** A reduction keeps the sum modulo 65521 and bounds it. *)
Lemma reduce_spec x : 0 <= x < 2 ^ 32 ->
  adler_reduce x = x mod 2 ^ 16 + x / 2 ^ 16 * 15 /\
  adler_reduce x mod MOD_ADLER = x mod MOD_ADLER.
Proof.
  intros Hx. assert (E : adler_reduce x = x mod 2 ^ 16 + x / 2 ^ 16 * 15).
  { unfold adler_reduce, MOD_ADLER. change 0xffff with (Z.ones 16).
    rewrite Z.land_ones, Z.shiftr_div_pow2 by lia. change (65536 - 65521) with 15.
    apply wrapu_id. unfold inu. Z.to_euclidean_division_equations. lia. }
  split; [exact E |]. rewrite E. unfold MOD_ADLER.
  replace (x mod 2 ^ 16 + x / 2 ^ 16 * 15) with (x + (- (x / 2 ^ 16)) * 65521).
  - apply Z_mod_plus_full.
  - change (2 ^ 16) with 65536. Z.to_euclidean_division_equations. lia.
Qed.

Lemma split16 x : exists q r, x / 2 ^ 16 = q /\ x mod 2 ^ 16 = r /\ x = 65536 * q + r /\ 0 <= r < 65536.
Proof.
  exists (x / 2 ^ 16), (x mod 2 ^ 16). pose proof (Z.div_mod x (2 ^ 16) ltac:(lia)).
  pose proof (Z.mod_pos_bound x (2 ^ 16) eq_refl). split_and!; lia.
Qed.

(** What holds at the start of each round. *)
Definition sums_bounded (ab : Z * Z) : Prop := 0 <= fst ab <= 0x1013a /\ 0 <= snd ab <= 0xffff0.

Lemma round_sums l ab y :
  Forall (inu 8) l -> (length l <= ADLER_BLOCK)%nat -> sums_bounded ab -> congruent ab y ->
  let ab' := fold_left adler_byte l ab in
  let ab2 := (adler_reduce (fst ab'), adler_reduce (snd ab')) in
  sums_bounded ab2 /\ congruent ab2 (fold_left ref_byte l y).
Proof.
  intros Hl Hlen [Ha Hb] Hc ab' ab2. destruct ab as [a b]. cbn [fst snd] in Ha, Hb.
  assert (Hn : 0 <= Z.of_nat (length l) <= 5550) by (unfold ADLER_BLOCK in Hlen; lia).
  destruct (block_sums l a b y Hl ltac:(lia) ltac:(lia) Hc) as ([C1 C2] & B1 & B2); [lia | nia |].
  fold ab' in C1, C2, B1, B2.
  destruct (reduce_spec (fst ab') ltac:(lia)) as [E1 M1]. destruct (reduce_spec (snd ab') B2) as [E2 M2].
  split.
  - unfold sums_bounded, ab2. cbn [fst snd]. rewrite E1, E2. split.
    + destruct (split16 (fst ab')) as (q & r & -> & -> & Hx & Hr). lia.
    + destruct (split16 (snd ab')) as (q & r & -> & -> & Hx & Hr). lia.
  - unfold congruent, ab2. cbn [fst snd]. rewrite M1, M2. done.
Qed.

Lemma blocks_sums fuel : forall data ab y,
  (length data <= fuel)%nat -> Forall (inu 8) data -> sums_bounded ab -> congruent ab y ->
  exists ab', adler_blocks fuel data ab = Some ab' /\ sums_bounded ab' /\
    congruent ab' (fold_left ref_byte data y).
Proof.
  induction fuel as [| fuel IH]; intros data ab y Hf Hd Hs Hc.
  - destruct data as [| d data]; [| cbn in Hf; lia]. exists ab. done.
  - destruct data as [| d data]; [exists ab; done |].
    change (adler_blocks (S fuel) (d :: data) ab) with
      (let ab' := fold_left adler_byte (take ADLER_BLOCK (d :: data)) ab in
       adler_blocks fuel (drop ADLER_BLOCK (d :: data)) (adler_reduce (fst ab'), adler_reduce (snd ab'))).
    cbv zeta. remember (d :: data) as l eqn:El.
    pose proof (Forall_take _ ADLER_BLOCK _ Hd) as Ht. pose proof (Forall_drop _ ADLER_BLOCK _ Hd) as Hr.
    destruct (round_sums (take ADLER_BLOCK l) ab y Ht) as [S1 C1]; [rewrite length_take; lia | done | done |].
    assert (El2 : fold_left ref_byte l y =
      fold_left ref_byte (drop ADLER_BLOCK l) (fold_left ref_byte (take ADLER_BLOCK l) y))
      by (rewrite <- fold_left_app, take_drop; done).
    rewrite El2. apply IH; try done.
    rewrite length_drop. assert (0 < ADLER_BLOCK)%nat by (unfold ADLER_BLOCK; lia).
    subst l. cbn [length] in *. lia.
Qed.

Lemma reduce_small x : 0 <= x < 2 * MOD_ADLER ->
  (if MOD_ADLER <=? x then u32 (x - MOD_ADLER) else x) = x mod MOD_ADLER.
Proof.
  unfold MOD_ADLER. intros Hx. destruct (Z.leb_spec 65521 x).
  - rewrite wrapu_id by (unfold inu; lia). apply (Z.mod_unique_pos _ _ 1); lia.
  - symmetry. apply Z.mod_small. lia.
Qed.

Lemma ref_sums_reduced data : forall y,
  0 <= fst y < MOD_ADLER -> 0 <= snd y < MOD_ADLER ->
  0 <= fst (fold_left ref_byte data y) < MOD_ADLER /\ 0 <= snd (fold_left ref_byte data y) < MOD_ADLER.
Proof.
  induction data as [| d data IH]; intros y H1 H2; [done |]. cbn [fold_left].
  destruct (ref_byte_range y d). apply IH; done.
Qed.

(** The routine against the reference sums. *)
Lemma HashAdler32_sums data :
  Forall (inu 8) data -> HashAdler32 data = Some (adler32 data).
Proof.
  intros Hd. unfold HashAdler32.
  destruct (blocks_sums (length data) data (1, 0) (1, 0)) as ([a b] & E & [Ha Hb] & [C1 C2]);
    [done | done | unfold sums_bounded; cbn; lia | done |].
  rewrite E. cbn [fst snd] in *.
  destruct (ref_sums_reduced data (1, 0)) as [R1 R2]; [unfold MOD_ADLER; cbn; lia .. |].
  destruct (reduce_spec b ltac:(lia)) as [Eb Mb].
  assert (Hb2 : 0 <= adler_reduce b < 2 * MOD_ADLER).
  { rewrite Eb. unfold MOD_ADLER. destruct (split16 b) as (q & s & -> & -> & Hx & Hr). lia. }
  rewrite (reduce_small (adler_reduce b)) by exact Hb2.
  rewrite (reduce_small a), C1, Mb, C2 by (unfold MOD_ADLER; lia).
  unfold adler32, adler_sums. change (fold_left _ data (1, 0)) with (fold_left ref_byte data (1, 0)).
  destruct (fold_left ref_byte data (1, 0)) as [x y]. cbn [fst snd] in *. unfold MOD_ADLER in *.
  rewrite (Z.mod_small x), (Z.mod_small y) by lia. f_equal.
  rewrite wrapu_id by (rewrite Z.shiftl_mul_pow2 by lia; unfold inu; lia).
  apply lor_shift_add; lia.
Qed.

(** [HashAdler32] is the Adler-32 checksum of its bytes, for every length:
    deferring the reductions to the end of each block of 5550 bytes never
    overflows 32 bits, the two final subtractions are enough, and the loop
    terminates. *)
Theorem HashAdler32_correct data :
  Forall (inu 8) data -> HashAdler32 data = Some (adler32 data).
Proof. apply HashAdler32_sums. Qed.

Lemma HashAdler32_correct_witness :
  HashAdler32 [0x57; 0x69; 0x6b; 0x69; 0x70; 0x65; 0x64; 0x69; 0x61] = Some 0x11E60398.
Proof.
  rewrite HashAdler32_correct; [reflexivity |]. repeat constructor; discriminate.
Defined.
