(* ===== verification/DspState.v ===== *)
(** The state of the DSP core ([Core/DSP/DSPCore.h]): the constants of the
    hardware, the register file [DSP_Regs] with its unions, the machine [SDSP]
    together with the globals of the interpreter, the effect monad in which
    every operation is written, and the well-formedness invariant with the
    lemmas that preserve it. *)

From S2P Require Import Prelude.

(** ** Constants *)

Definition DSP_IRAM_BYTE_SIZE : Z := 0x2000.
Definition DSP_IRAM_SIZE : Z := 0x1000.
Definition DSP_IRAM_MASK : Z := 0x0fff.
Definition DSP_IROM_MASK : Z := 0x0fff.
Definition DSP_DRAM_BYTE_SIZE : Z := 0x2000.
Definition DSP_DRAM_SIZE : Z := 0x1000.
Definition DSP_DRAM_MASK : Z := 0x0fff.
Definition DSP_COEF_MASK : Z := 0x7ff.
Definition DSP_RESET_VECTOR : Z := 0x8000.
Definition DSP_STACK_DEPTH : Z := 0x20.
Definition DSP_STACK_MASK : Z := 0x1f.
Definition DSP_CR_IMEM : Z := 2.
Definition DSP_CR_DMEM : Z := 0.
Definition DSP_CR_TO_CPU : Z := 1.
Definition DSP_CR_FROM_CPU : Z := 0.

(** Register numbers. *)
Definition DSP_REG_AR0 : Z := 0x00.
Definition DSP_REG_AR3 : Z := 0x03.
Definition DSP_REG_IX0 : Z := 0x04.
Definition DSP_REG_WR0 : Z := 0x08.
Definition DSP_REG_ST0 : Z := 0x0c.
Definition DSP_REG_ACH0 : Z := 0x10.
Definition DSP_REG_ACH1 : Z := 0x11.
Definition DSP_REG_CR : Z := 0x12.
Definition DSP_REG_SR : Z := 0x13.
Definition DSP_REG_PRODL : Z := 0x14.
Definition DSP_REG_PRODM : Z := 0x15.
Definition DSP_REG_PRODH : Z := 0x16.
Definition DSP_REG_PRODM2 : Z := 0x17.
Definition DSP_REG_AXL0 : Z := 0x18.
Definition DSP_REG_AXL1 : Z := 0x19.
Definition DSP_REG_AXH0 : Z := 0x1a.
Definition DSP_REG_AXH1 : Z := 0x1b.
Definition DSP_REG_ACL0 : Z := 0x1c.
Definition DSP_REG_ACL1 : Z := 0x1d.
Definition DSP_REG_ACM0 : Z := 0x1e.
Definition DSP_REG_ACM1 : Z := 0x1f.

(** Hardware registers. *)
Definition DSP_COEF_A1_0 : Z := 0xa0.
Definition DSP_DSCR : Z := 0xc9.
Definition DSP_DSPA : Z := 0xcd.
Definition DSP_DSBL : Z := 0xcb.
Definition DSP_DSMAH : Z := 0xce.
Definition DSP_DSMAL : Z := 0xcf.
Definition DSP_FORMAT : Z := 0xd1.
Definition DSP_ACDATA1 : Z := 0xd3.
Definition DSP_ACSAH : Z := 0xd4.
Definition DSP_ACSAL : Z := 0xd5.
Definition DSP_ACEAH : Z := 0xd6.
Definition DSP_ACEAL : Z := 0xd7.
Definition DSP_ACCAH : Z := 0xd8.
Definition DSP_ACCAL : Z := 0xd9.
Definition DSP_PRED_SCALE : Z := 0xda.
Definition DSP_YN1 : Z := 0xdb.
Definition DSP_YN2 : Z := 0xdc.
Definition DSP_ACCELERATOR : Z := 0xdd.
Definition DSP_GAIN : Z := 0xde.
Definition DSP_AMDM : Z := 0xef.
Definition DSP_DIRQ : Z := 0xfb.
Definition DSP_DMBH : Z := 0xfc.
Definition DSP_DMBL : Z := 0xfd.
Definition DSP_CMBH : Z := 0xfe.
Definition DSP_CMBL : Z := 0xff.

(** Bits of the control register shared with the CPU. *)
Definition CR_EXTERNAL_INT : Z := 0x0002.
Definition CR_HALT : Z := 0x0004.
Definition CR_INIT : Z := 0x0400.

(** Bits of the status register. *)
Definition SR_CARRY : Z := 0x0001.
Definition SR_OVERFLOW : Z := 0x0002.
Definition SR_ARITH_ZERO : Z := 0x0004.
Definition SR_SIGN : Z := 0x0008.
Definition SR_OVER_S32 : Z := 0x0010.
Definition SR_TOP2BITS : Z := 0x0020.
Definition SR_LOGIC_ZERO : Z := 0x0040.
Definition SR_OVERFLOW_STICKY : Z := 0x0080.
Definition SR_INT_ENABLE : Z := 0x0200.
Definition SR_EXT_INT_ENABLE : Z := 0x0800.
Definition SR_MUL_MODIFY : Z := 0x2000.
Definition SR_40_MODE_BIT : Z := 0x4000.
Definition SR_MUL_UNSIGNED : Z := 0x8000.
Definition SR_CMP_MASK : Z := 0x3f.

(** ** Enumerations *)

Inductive StackRegister := Call | Data | LoopAddress | LoopCounter.

(** [static_cast<size_t>(stack_reg)] *)
Definition stack_index (r : StackRegister) : Z :=
  match r with Call => 0 | Data => 1 | LoopAddress => 2 | LoopCounter => 3 end.

Inductive ExceptionType :=
  | StackOverflow | EXP_2 | EXP_3 | EXP_4 | AcceleratorOverflow | EXP_6 | ExternalInterrupt.

Definition exception_number (e : ExceptionType) : Z :=
  match e with
  | StackOverflow => 1 | EXP_2 => 2 | EXP_3 => 3 | EXP_4 => 4
  | AcceleratorOverflow => 5 | EXP_6 => 6 | ExternalInterrupt => 7
  end.

Inductive Mailbox := MAILBOX_CPU | MAILBOX_DSP.

#[export] Instance StackRegister_eq_dec : EqDecision StackRegister.
Proof. solve_decision. Defined.
#[export] Instance ExceptionType_eq_dec : EqDecision ExceptionType.
Proof. solve_decision. Defined.
#[export] Instance Mailbox_eq_dec : EqDecision Mailbox.
Proof. solve_decision. Defined.

(** ** The register file

    [prod], [ax[i]] and [ac[i]] are unions of an integer [val] with its 16-bit
    members; on the little-endian hosts the emulator runs on, member number
    [n] is bits [16n .. 16n+15].  The top 16 bits of [ac[i].val] belong to no
    member. *)

Record DSP_Regs := mkRegs {
  r_ar : list Z; r_ix : list Z; r_wr : list Z; r_st : list Z;
  r_cr : Z; r_sr : Z;
  r_prod : Z;      (* u64 val *)
  r_ax : list Z;   (* u32 val *)
  r_ac : list Z    (* u64 val *)
}.

(** The accelerator's registers ([Core/DSP/DSPAccelerator.h]). *)
Record Accelerator := mkAccelerator {
  m_start_address : Z; m_end_address : Z; m_current_address : Z;
  m_sample_format : Z; m_yn1 : Z; m_yn2 : Z; m_pred_scale : Z;
  m_reads_stopped : bool
}.

Definition WRITEBACK_LOG_SIZE : Z := 5.

(** The machine: [SDSP g_dsp], the globals the interpreter keeps beside it
    (the write-back log, [g_init_hax], the analyzer's [code_flags]), the
    auxiliary RAM behind the host interface and the number of interrupt
    requests sent to the CPU. *)
Record SDSP := mkSDSP {
  r : DSP_Regs;
  pc : Z;
  cr : Z;
  reg_stack_ptr : list Z;
  exceptions : Z;
  external_interrupt_waiting : bool;
  reg_stack : gmap (Z * Z) Z;
  iram_crc : Z;
  step_counter : Z;
  mbox : list Z;
  ifx_regs : gmap Z Z;
  accelerator : Accelerator;
  iram : gmap Z Z; dram : gmap Z Z; irom : gmap Z Z; coef : gmap Z Z;
  cpu_ram : gmap Z Z;
  g_init_hax : bool;
  writeBackLog : list Z; writeBackLogIdx : list Z;
  code_flags : gmap Z Z;
  aram : gmap Z Z;
  host_interrupts : nat
}.

(** ** Field updates *)

Definition set_r_ar x (g : DSP_Regs) : DSP_Regs :=
  mkRegs x (r_ix g) (r_wr g) (r_st g) (r_cr g) (r_sr g) (r_prod g) (r_ax g) (r_ac g).
Definition set_r_ix x (g : DSP_Regs) : DSP_Regs :=
  mkRegs (r_ar g) x (r_wr g) (r_st g) (r_cr g) (r_sr g) (r_prod g) (r_ax g) (r_ac g).
Definition set_r_wr x (g : DSP_Regs) : DSP_Regs :=
  mkRegs (r_ar g) (r_ix g) x (r_st g) (r_cr g) (r_sr g) (r_prod g) (r_ax g) (r_ac g).
Definition set_r_st x (g : DSP_Regs) : DSP_Regs :=
  mkRegs (r_ar g) (r_ix g) (r_wr g) x (r_cr g) (r_sr g) (r_prod g) (r_ax g) (r_ac g).
Definition set_r_cr x (g : DSP_Regs) : DSP_Regs :=
  mkRegs (r_ar g) (r_ix g) (r_wr g) (r_st g) x (r_sr g) (r_prod g) (r_ax g) (r_ac g).
Definition set_r_sr x (g : DSP_Regs) : DSP_Regs :=
  mkRegs (r_ar g) (r_ix g) (r_wr g) (r_st g) (r_cr g) x (r_prod g) (r_ax g) (r_ac g).
Definition set_r_prod x (g : DSP_Regs) : DSP_Regs :=
  mkRegs (r_ar g) (r_ix g) (r_wr g) (r_st g) (r_cr g) (r_sr g) x (r_ax g) (r_ac g).
Definition set_r_ax x (g : DSP_Regs) : DSP_Regs :=
  mkRegs (r_ar g) (r_ix g) (r_wr g) (r_st g) (r_cr g) (r_sr g) (r_prod g) x (r_ac g).
Definition set_r_ac x (g : DSP_Regs) : DSP_Regs :=
  mkRegs (r_ar g) (r_ix g) (r_wr g) (r_st g) (r_cr g) (r_sr g) (r_prod g) (r_ax g) x.

Definition set_m_start_address x (a : Accelerator) : Accelerator :=
  mkAccelerator x (m_end_address a) (m_current_address a) (m_sample_format a) (m_yn1 a) (m_yn2
    a) (m_pred_scale a) (m_reads_stopped a).
Definition set_m_end_address x (a : Accelerator) : Accelerator :=
  mkAccelerator (m_start_address a) x (m_current_address a) (m_sample_format a) (m_yn1 a)
    (m_yn2 a) (m_pred_scale a) (m_reads_stopped a).
Definition set_m_current_address x (a : Accelerator) : Accelerator :=
  mkAccelerator (m_start_address a) (m_end_address a) x (m_sample_format a) (m_yn1 a) (m_yn2 a)
    (m_pred_scale a) (m_reads_stopped a).
Definition set_m_sample_format x (a : Accelerator) : Accelerator :=
  mkAccelerator (m_start_address a) (m_end_address a) (m_current_address a) x (m_yn1 a) (m_yn2
    a) (m_pred_scale a) (m_reads_stopped a).
Definition set_m_yn1 x (a : Accelerator) : Accelerator :=
  mkAccelerator (m_start_address a) (m_end_address a) (m_current_address a) (m_sample_format a)
    x (m_yn2 a) (m_pred_scale a) (m_reads_stopped a).
Definition set_m_yn2 x (a : Accelerator) : Accelerator :=
  mkAccelerator (m_start_address a) (m_end_address a) (m_current_address a) (m_sample_format a)
    (m_yn1 a) x (m_pred_scale a) (m_reads_stopped a).
Definition set_m_pred_scale x (a : Accelerator) : Accelerator :=
  mkAccelerator (m_start_address a) (m_end_address a) (m_current_address a) (m_sample_format a)
    (m_yn1 a) (m_yn2 a) x (m_reads_stopped a).
Definition set_m_reads_stopped x (a : Accelerator) : Accelerator :=
  mkAccelerator (m_start_address a) (m_end_address a) (m_current_address a) (m_sample_format a)
    (m_yn1 a) (m_yn2 a) (m_pred_scale a) x.

Definition set_r x (s : SDSP) : SDSP :=
  mkSDSP x (pc s) (cr s) (reg_stack_ptr s) (exceptions s) (external_interrupt_waiting s)
    (reg_stack s) (iram_crc s) (step_counter s) (mbox s) (ifx_regs s) (accelerator s) (iram s)
    (dram s) (irom s) (coef s) (cpu_ram s) (g_init_hax s) (writeBackLog s) (writeBackLogIdx s)
    (code_flags s) (aram s) (host_interrupts s).
Definition set_pc x (s : SDSP) : SDSP :=
  mkSDSP (r s) x (cr s) (reg_stack_ptr s) (exceptions s) (external_interrupt_waiting s)
    (reg_stack s) (iram_crc s) (step_counter s) (mbox s) (ifx_regs s) (accelerator s) (iram s)
    (dram s) (irom s) (coef s) (cpu_ram s) (g_init_hax s) (writeBackLog s) (writeBackLogIdx s)
    (code_flags s) (aram s) (host_interrupts s).
Definition set_cr x (s : SDSP) : SDSP :=
  mkSDSP (r s) (pc s) x (reg_stack_ptr s) (exceptions s) (external_interrupt_waiting s)
    (reg_stack s) (iram_crc s) (step_counter s) (mbox s) (ifx_regs s) (accelerator s) (iram s)
    (dram s) (irom s) (coef s) (cpu_ram s) (g_init_hax s) (writeBackLog s) (writeBackLogIdx s)
    (code_flags s) (aram s) (host_interrupts s).
Definition set_reg_stack_ptr x (s : SDSP) : SDSP :=
  mkSDSP (r s) (pc s) (cr s) x (exceptions s) (external_interrupt_waiting s) (reg_stack s)
    (iram_crc s) (step_counter s) (mbox s) (ifx_regs s) (accelerator s) (iram s) (dram s) (irom
    s) (coef s) (cpu_ram s) (g_init_hax s) (writeBackLog s) (writeBackLogIdx s) (code_flags s)
    (aram s) (host_interrupts s).
Definition set_exceptions x (s : SDSP) : SDSP :=
  mkSDSP (r s) (pc s) (cr s) (reg_stack_ptr s) x (external_interrupt_waiting s) (reg_stack s)
    (iram_crc s) (step_counter s) (mbox s) (ifx_regs s) (accelerator s) (iram s) (dram s) (irom
    s) (coef s) (cpu_ram s) (g_init_hax s) (writeBackLog s) (writeBackLogIdx s) (code_flags s)
    (aram s) (host_interrupts s).
Definition set_external_interrupt_waiting x (s : SDSP) : SDSP :=
  mkSDSP (r s) (pc s) (cr s) (reg_stack_ptr s) (exceptions s) x (reg_stack s) (iram_crc s)
    (step_counter s) (mbox s) (ifx_regs s) (accelerator s) (iram s) (dram s) (irom s) (coef s)
    (cpu_ram s) (g_init_hax s) (writeBackLog s) (writeBackLogIdx s) (code_flags s) (aram s)
    (host_interrupts s).
Definition set_reg_stack x (s : SDSP) : SDSP :=
  mkSDSP (r s) (pc s) (cr s) (reg_stack_ptr s) (exceptions s) (external_interrupt_waiting s) x
    (iram_crc s) (step_counter s) (mbox s) (ifx_regs s) (accelerator s) (iram s) (dram s) (irom
    s) (coef s) (cpu_ram s) (g_init_hax s) (writeBackLog s) (writeBackLogIdx s) (code_flags s)
    (aram s) (host_interrupts s).
Definition set_iram_crc x (s : SDSP) : SDSP :=
  mkSDSP (r s) (pc s) (cr s) (reg_stack_ptr s) (exceptions s) (external_interrupt_waiting s)
    (reg_stack s) x (step_counter s) (mbox s) (ifx_regs s) (accelerator s) (iram s) (dram s)
    (irom s) (coef s) (cpu_ram s) (g_init_hax s) (writeBackLog s) (writeBackLogIdx s)
    (code_flags s) (aram s) (host_interrupts s).
Definition set_step_counter x (s : SDSP) : SDSP :=
  mkSDSP (r s) (pc s) (cr s) (reg_stack_ptr s) (exceptions s) (external_interrupt_waiting s)
    (reg_stack s) (iram_crc s) x (mbox s) (ifx_regs s) (accelerator s) (iram s) (dram s) (irom
    s) (coef s) (cpu_ram s) (g_init_hax s) (writeBackLog s) (writeBackLogIdx s) (code_flags s)
    (aram s) (host_interrupts s).
Definition set_mbox x (s : SDSP) : SDSP :=
  mkSDSP (r s) (pc s) (cr s) (reg_stack_ptr s) (exceptions s) (external_interrupt_waiting s)
    (reg_stack s) (iram_crc s) (step_counter s) x (ifx_regs s) (accelerator s) (iram s) (dram
    s) (irom s) (coef s) (cpu_ram s) (g_init_hax s) (writeBackLog s) (writeBackLogIdx s)
    (code_flags s) (aram s) (host_interrupts s).
Definition set_ifx_regs x (s : SDSP) : SDSP :=
  mkSDSP (r s) (pc s) (cr s) (reg_stack_ptr s) (exceptions s) (external_interrupt_waiting s)
    (reg_stack s) (iram_crc s) (step_counter s) (mbox s) x (accelerator s) (iram s) (dram s)
    (irom s) (coef s) (cpu_ram s) (g_init_hax s) (writeBackLog s) (writeBackLogIdx s)
    (code_flags s) (aram s) (host_interrupts s).
Definition set_accelerator x (s : SDSP) : SDSP :=
  mkSDSP (r s) (pc s) (cr s) (reg_stack_ptr s) (exceptions s) (external_interrupt_waiting s)
    (reg_stack s) (iram_crc s) (step_counter s) (mbox s) (ifx_regs s) x (iram s) (dram s) (irom
    s) (coef s) (cpu_ram s) (g_init_hax s) (writeBackLog s) (writeBackLogIdx s) (code_flags s)
    (aram s) (host_interrupts s).
Definition set_iram x (s : SDSP) : SDSP :=
  mkSDSP (r s) (pc s) (cr s) (reg_stack_ptr s) (exceptions s) (external_interrupt_waiting s)
    (reg_stack s) (iram_crc s) (step_counter s) (mbox s) (ifx_regs s) (accelerator s) x (dram
    s) (irom s) (coef s) (cpu_ram s) (g_init_hax s) (writeBackLog s) (writeBackLogIdx s)
    (code_flags s) (aram s) (host_interrupts s).
Definition set_dram x (s : SDSP) : SDSP :=
  mkSDSP (r s) (pc s) (cr s) (reg_stack_ptr s) (exceptions s) (external_interrupt_waiting s)
    (reg_stack s) (iram_crc s) (step_counter s) (mbox s) (ifx_regs s) (accelerator s) (iram s)
    x (irom s) (coef s) (cpu_ram s) (g_init_hax s) (writeBackLog s) (writeBackLogIdx s)
    (code_flags s) (aram s) (host_interrupts s).
Definition set_irom x (s : SDSP) : SDSP :=
  mkSDSP (r s) (pc s) (cr s) (reg_stack_ptr s) (exceptions s) (external_interrupt_waiting s)
    (reg_stack s) (iram_crc s) (step_counter s) (mbox s) (ifx_regs s) (accelerator s) (iram s)
    (dram s) x (coef s) (cpu_ram s) (g_init_hax s) (writeBackLog s) (writeBackLogIdx s)
    (code_flags s) (aram s) (host_interrupts s).
Definition set_coef x (s : SDSP) : SDSP :=
  mkSDSP (r s) (pc s) (cr s) (reg_stack_ptr s) (exceptions s) (external_interrupt_waiting s)
    (reg_stack s) (iram_crc s) (step_counter s) (mbox s) (ifx_regs s) (accelerator s) (iram s)
    (dram s) (irom s) x (cpu_ram s) (g_init_hax s) (writeBackLog s) (writeBackLogIdx s)
    (code_flags s) (aram s) (host_interrupts s).
Definition set_cpu_ram x (s : SDSP) : SDSP :=
  mkSDSP (r s) (pc s) (cr s) (reg_stack_ptr s) (exceptions s) (external_interrupt_waiting s)
    (reg_stack s) (iram_crc s) (step_counter s) (mbox s) (ifx_regs s) (accelerator s) (iram s)
    (dram s) (irom s) (coef s) x (g_init_hax s) (writeBackLog s) (writeBackLogIdx s)
    (code_flags s) (aram s) (host_interrupts s).
Definition set_g_init_hax x (s : SDSP) : SDSP :=
  mkSDSP (r s) (pc s) (cr s) (reg_stack_ptr s) (exceptions s) (external_interrupt_waiting s)
    (reg_stack s) (iram_crc s) (step_counter s) (mbox s) (ifx_regs s) (accelerator s) (iram s)
    (dram s) (irom s) (coef s) (cpu_ram s) x (writeBackLog s) (writeBackLogIdx s) (code_flags
    s) (aram s) (host_interrupts s).
Definition set_writeBackLog x (s : SDSP) : SDSP :=
  mkSDSP (r s) (pc s) (cr s) (reg_stack_ptr s) (exceptions s) (external_interrupt_waiting s)
    (reg_stack s) (iram_crc s) (step_counter s) (mbox s) (ifx_regs s) (accelerator s) (iram s)
    (dram s) (irom s) (coef s) (cpu_ram s) (g_init_hax s) x (writeBackLogIdx s) (code_flags s)
    (aram s) (host_interrupts s).
Definition set_writeBackLogIdx x (s : SDSP) : SDSP :=
  mkSDSP (r s) (pc s) (cr s) (reg_stack_ptr s) (exceptions s) (external_interrupt_waiting s)
    (reg_stack s) (iram_crc s) (step_counter s) (mbox s) (ifx_regs s) (accelerator s) (iram s)
    (dram s) (irom s) (coef s) (cpu_ram s) (g_init_hax s) (writeBackLog s) x (code_flags s)
    (aram s) (host_interrupts s).
Definition set_code_flags x (s : SDSP) : SDSP :=
  mkSDSP (r s) (pc s) (cr s) (reg_stack_ptr s) (exceptions s) (external_interrupt_waiting s)
    (reg_stack s) (iram_crc s) (step_counter s) (mbox s) (ifx_regs s) (accelerator s) (iram s)
    (dram s) (irom s) (coef s) (cpu_ram s) (g_init_hax s) (writeBackLog s) (writeBackLogIdx s)
    x (aram s) (host_interrupts s).
Definition set_aram x (s : SDSP) : SDSP :=
  mkSDSP (r s) (pc s) (cr s) (reg_stack_ptr s) (exceptions s) (external_interrupt_waiting s)
    (reg_stack s) (iram_crc s) (step_counter s) (mbox s) (ifx_regs s) (accelerator s) (iram s)
    (dram s) (irom s) (coef s) (cpu_ram s) (g_init_hax s) (writeBackLog s) (writeBackLogIdx s)
    (code_flags s) x (host_interrupts s).
Definition set_host_interrupts x (s : SDSP) : SDSP :=
  mkSDSP (r s) (pc s) (cr s) (reg_stack_ptr s) (exceptions s) (external_interrupt_waiting s)
    (reg_stack s) (iram_crc s) (step_counter s) (mbox s) (ifx_regs s) (accelerator s) (iram s)
    (dram s) (irom s) (coef s) (cpu_ram s) (g_init_hax s) (writeBackLog s) (writeBackLogIdx s)
    (code_flags s) (aram s) x.

Definition upd_r (f : DSP_Regs -> DSP_Regs) (s : SDSP) : SDSP := set_r (f (r s)) s.

(** ** Effects

    An operation reads and writes the machine; [exit(0)] ends the process and
    an access outside an array is undefined behaviour, so both are outcomes. *)

Inductive outcome (A : Type) :=
  | Done (a : A) (s : SDSP)
  | Exited
  | OutOfBounds.
Arguments Done {A} a s.
Arguments Exited {A}.
Arguments OutOfBounds {A}.

Definition M (A : Type) : Type := SDSP -> outcome A.

#[export] Instance M_ret : MRet M := fun A a s => Done a s.
#[export] Instance M_bind : MBind M := fun A B k m s =>
  match m s with
  | Done a s' => k a s'
  | Exited => Exited
  | OutOfBounds => OutOfBounds
  end.

Definition gets {A} (f : SDSP -> A) : M A := fun s => Done (f s) s.
Definition modify (f : SDSP -> SDSP) : M unit := fun s => Done tt (f s).
Definition exit0 {A} : M A := fun _ => Exited.
Definition out_of_bounds {A} : M A := fun _ => OutOfBounds.
(** [if (b) m] *)
Definition when (b : bool) (m : M unit) : M unit := if b then m else mret tt.

(** ** Members of the unions *)

Definition ac_l (g : DSP_Regs) (i : Z) : Z := fld16 0 (zget (r_ac g) i).
Definition ac_m (g : DSP_Regs) (i : Z) : Z := fld16 16 (zget (r_ac g) i).
Definition ac_h (g : DSP_Regs) (i : Z) : Z := fld16 32 (zget (r_ac g) i).
Definition ax_l (g : DSP_Regs) (i : Z) : Z := fld16 0 (zget (r_ax g) i).
Definition ax_h (g : DSP_Regs) (i : Z) : Z := fld16 16 (zget (r_ax g) i).
Definition prod_l (g : DSP_Regs) : Z := fld16 0 (r_prod g).
Definition prod_m (g : DSP_Regs) : Z := fld16 16 (r_prod g).
Definition prod_h (g : DSP_Regs) : Z := fld16 32 (r_prod g).
Definition prod_m2 (g : DSP_Regs) : Z := fld16 48 (r_prod g).

(** Assignments; each converts its value to the width of the destination. *)
Definition put_ar (i v : Z) (g : DSP_Regs) := set_r_ar (zset (r_ar g) i (u16 v)) g.
Definition put_ix (i v : Z) (g : DSP_Regs) := set_r_ix (zset (r_ix g) i (u16 v)) g.
Definition put_wr (i v : Z) (g : DSP_Regs) := set_r_wr (zset (r_wr g) i (u16 v)) g.
Definition put_st (i v : Z) (g : DSP_Regs) := set_r_st (zset (r_st g) i (u16 v)) g.
Definition put_rcr (v : Z) (g : DSP_Regs) := set_r_cr (u16 v) g.
Definition put_sr (v : Z) (g : DSP_Regs) := set_r_sr (u16 v) g.
Definition put_prod (v : Z) (g : DSP_Regs) := set_r_prod (u64 v) g.
Definition put_prod_fld (lo v : Z) (g : DSP_Regs) :=
  set_r_prod (set_fld16 lo v (r_prod g)) g.
Definition put_ax_fld (i lo v : Z) (g : DSP_Regs) :=
  set_r_ax (zset (r_ax g) i (set_fld16 lo v (zget (r_ax g) i))) g.
Definition put_ac (i v : Z) (g : DSP_Regs) := set_r_ac (zset (r_ac g) i (u64 v)) g.
Definition put_ac_fld (i lo v : Z) (g : DSP_Regs) :=
  set_r_ac (zset (r_ac g) i (set_fld16 lo v (zget (r_ac g) i))) g.

Definition put_pc (v : Z) (s : SDSP) := set_pc (u16 v) s.
Definition put_cr (v : Z) (s : SDSP) := set_cr (u16 v) s.
Definition put_exceptions (v : Z) (s : SDSP) := set_exceptions (u8 v) s.

(** Operations on the register file. *)
Definition regs : M DSP_Regs := gets r.
Definition upd_regs (f : DSP_Regs -> DSP_Regs) : M unit := modify (upd_r f).

(** [(opc >> n) & 1] *)
Definition bit (opc n : Z) : Z := (opc .>> n) .& 1.

(** ** Well-formed machines *)

Record wf_regs (g : DSP_Regs) : Prop := {
  wf_ar : arr_ok 4 16 (r_ar g); wf_ix : arr_ok 4 16 (r_ix g);
  wf_wr : arr_ok 4 16 (r_wr g); wf_st : arr_ok 4 16 (r_st g);
  wf_rcr : inu 16 (r_cr g); wf_sr : inu 16 (r_sr g);
  wf_prod : inu 64 (r_prod g);
  wf_ax : arr_ok 2 32 (r_ax g); wf_ac : arr_ok 2 64 (r_ac g)
}.

Record wf_accel (a : Accelerator) : Prop := {
  wf_start : inu 30 (m_start_address a); wf_end : inu 30 (m_end_address a);
  wf_current : inu 32 (m_current_address a);
  wf_format : inu 16 (m_sample_format a);
  wf_yn1 : ins 16 (m_yn1 a); wf_yn2 : ins 16 (m_yn2 a);
  wf_pred : inu 16 (m_pred_scale a)
}.

(** A register number of the write-back log, or its end marker. *)
Definition backlog_idx_ok (i : Z) : Prop := i = -1 \/ 0 <= i < 32.

Record wf (s : SDSP) : Prop := {
  wf_r : wf_regs (r s);
  wf_pc : inu 16 (pc s); wf_cr : inu 16 (cr s);
  wf_ptr : arr_ok 4 5 (reg_stack_ptr s);
  wf_exceptions : inu 8 (exceptions s);
  wf_stack : mem_ok 16 (reg_stack s);
  wf_crc : inu 32 (iram_crc s); wf_steps : inu 64 (step_counter s);
  wf_mbox : arr_ok 2 32 (mbox s);
  wf_ifx : mem_ok 16 (ifx_regs s);
  wf_acc : wf_accel (accelerator s);
  wf_iram : mem_ok 16 (iram s); wf_dram : mem_ok 16 (dram s);
  wf_irom : mem_ok 16 (irom s); wf_coef : mem_ok 16 (coef s);
  wf_cpu_ram : mem_ok 8 (cpu_ram s); wf_aram : mem_ok 8 (aram s);
  wf_log : arr_ok 5 16 (writeBackLog s);
  wf_idx_len : length (writeBackLogIdx s) = 5%nat;
  wf_idx : Forall backlog_idx_ok (writeBackLogIdx s);
  wf_idx_end : zget (writeBackLogIdx s) 4 = -1;
  wf_flags : mem_ok 8 (code_flags s)
}.

(** [safe m]: from a well-formed machine [m] completes in a well-formed one.
    [keeps m]: the same, when it completes at all. *)
Definition safe {A} (m : M A) : Prop :=
  forall s, wf s -> exists a s', m s = Done a s' /\ wf s'.
Definition keeps {A} (m : M A) : Prop :=
  forall s, wf s -> match m s with Done _ s' => wf s' | _ => True end.

(** ** Running programs *)

Lemma run_bind {A B} (m : M A) (k : A -> M B) s :
  (x ← m; k x) s = match m s with
                   | Done a s' => k a s' | Exited => Exited | OutOfBounds => OutOfBounds
                   end.
Proof. reflexivity. Qed.

Lemma run_ret {A} (a : A) s : (mret a : M A) s = Done a s.
Proof. reflexivity. Qed.
Lemma run_gets {A} (f : SDSP -> A) s : gets f s = Done (f s) s.
Proof. reflexivity. Qed.
Lemma run_modify f s : modify f s = Done tt (f s).
Proof. reflexivity. Qed.
Lemma run_regs s : regs s = Done (r s) s.
Proof. reflexivity. Qed.
Lemma run_upd_regs f s : upd_regs f s = Done tt (upd_r f s).
Proof. reflexivity. Qed.
Lemma run_if {A} (b : bool) (m1 m2 : M A) s : (if b then m1 else m2) s = if b then m1 s else m2 s.
Proof. destruct b; reflexivity. Qed.
Lemma run_when b m s : when b m s = if b then m s else Done tt s.
Proof. destruct b; reflexivity. Qed.

Create Rewrite HintDb run.
#[export] Hint Rewrite @run_bind @run_ret @run_gets run_modify run_regs run_upd_regs @run_if
  run_when : run.

(** Execute a program symbolically. *)
Ltac run := repeat (autorewrite with run; cbv beta iota zeta).

Lemma safe_keeps {A} (m : M A) : safe m -> keeps m.
Proof. intros H s Hs. destruct (H s Hs) as (a & s' & -> & ?). done. Qed.

Lemma safe_ret {A} (a : A) : safe (mret a : M A).
Proof. intros s Hs. exists a, s. done. Qed.

Lemma safe_gets {A} (f : SDSP -> A) : safe (gets f).
Proof. intros s Hs. exists (f s), s. done. Qed.

Lemma safe_modify f : (forall s, wf s -> wf (f s)) -> safe (modify f).
Proof. intros H s Hs. exists tt, (f s). split; [done | auto]. Qed.

Lemma safe_bind {A B} (m : M A) (k : A -> M B) :
  safe m -> (forall a, safe (k a)) -> safe (x ← m; k x).
Proof.
  intros Hm Hk s Hs. destruct (Hm s Hs) as (a & s' & E & Hs').
  rewrite run_bind, E. apply Hk. done.
Qed.

Lemma safe_if {A} (b : bool) (m1 m2 : M A) : safe m1 -> safe m2 -> safe (if b then m1 else m2).
Proof. destruct b; auto. Qed.

Lemma safe_when b m : safe m -> safe (when b m).
Proof. intros. apply safe_if; [done | apply safe_ret]. Qed.

Lemma keeps_bind {A B} (m : M A) (k : A -> M B) :
  keeps m -> (forall a, keeps (k a)) -> keeps (x ← m; k x).
Proof.
  intros Hm Hk s Hs. specialize (Hm s Hs). rewrite run_bind.
  destruct (m s) as [a s' | |]; [apply Hk, Hm | done | done].
Qed.

Lemma keeps_if {A} (b : bool) (m1 m2 : M A) :
  keeps m1 -> keeps m2 -> keeps (if b then m1 else m2).
Proof. destruct b; auto. Qed.

Lemma keeps_when b m : keeps m -> keeps (when b m).
Proof. intros. apply keeps_if; [done | apply safe_keeps, safe_ret]. Qed.

Lemma keeps_exit {A} : keeps (exit0 (A := A)).
Proof. done. Qed.

Lemma keeps_oob {A} : keeps (out_of_bounds (A := A)).
Proof. done. Qed.

(** ** Preservation by the assignments *)

(** Open a well-formedness hypothesis and rebuild it for an updated machine. *)
Ltac wf_update H := destruct H; constructor; cbn; try assumption; range.

Lemma wf_set_r g s : wf s -> wf_regs g -> wf (set_r g s).
Proof. intros [] Hg. constructor; assumption. Qed.

Lemma wf_upd_r f s : (forall g, wf_regs g -> wf_regs (f g)) -> wf s -> wf (upd_r f s).
Proof. intros Hf Hs. apply wf_set_r; [done |]. apply Hf, Hs. Qed.

Lemma wf_put_ar i v g : wf_regs g -> wf_regs (put_ar i v g).
Proof. intros H. wf_update H. Qed.
Lemma wf_put_ix i v g : wf_regs g -> wf_regs (put_ix i v g).
Proof. intros H. wf_update H. Qed.
Lemma wf_put_wr i v g : wf_regs g -> wf_regs (put_wr i v g).
Proof. intros H. wf_update H. Qed.
Lemma wf_put_st i v g : wf_regs g -> wf_regs (put_st i v g).
Proof. intros H. wf_update H. Qed.
Lemma wf_put_rcr v g : wf_regs g -> wf_regs (put_rcr v g).
Proof. intros H. wf_update H. Qed.
Lemma wf_put_sr v g : wf_regs g -> wf_regs (put_sr v g).
Proof. intros H. wf_update H. Qed.
Lemma wf_put_prod v g : wf_regs g -> wf_regs (put_prod v g).
Proof. intros H. wf_update H. Qed.
Lemma wf_put_ac i v g : wf_regs g -> wf_regs (put_ac i v g).
Proof. intros H. wf_update H. Qed.

Lemma wf_put_prod_fld lo v g :
  0 <= lo <= 48 -> wf_regs g -> wf_regs (put_prod_fld lo v g).
Proof. intros Hlo H. destruct H; constructor; cbn; try assumption. apply set_fld16_range; (lia || done). Qed.

Lemma wf_put_ax_fld i lo v g :
  0 <= lo <= 16 -> wf_regs g -> wf_regs (put_ax_fld i lo v g).
Proof.
  intros Hlo H. destruct H; constructor; cbn; try assumption.
  apply arr_ok_zset; [done |]. apply set_fld16_range; [lia | lia | range].
Qed.

Lemma wf_put_ac_fld i lo v g :
  0 <= lo <= 48 -> wf_regs g -> wf_regs (put_ac_fld i lo v g).
Proof.
  intros Hlo H. destruct H; constructor; cbn; try assumption.
  apply arr_ok_zset; [done |]. apply set_fld16_range; [lia | lia | range].
Qed.

Lemma wf_put_pc v s : wf s -> wf (put_pc v s).
Proof. intros H. wf_update H. Qed.
Lemma wf_put_cr v s : wf s -> wf (put_cr v s).
Proof. intros H. wf_update H. Qed.
Lemma wf_put_exceptions v s : wf s -> wf (put_exceptions v s).
Proof. intros H. wf_update H. Qed.

#[export] Hint Resolve wf_set_r wf_upd_r wf_put_ar wf_put_ix wf_put_wr wf_put_st wf_put_rcr
  wf_put_sr wf_put_prod wf_put_ac wf_put_pc wf_put_cr wf_put_exceptions : wf.
#[export] Hint Extern 2 (wf_regs (put_prod_fld _ _ _)) => apply wf_put_prod_fld; [lia |] : wf.
#[export] Hint Extern 2 (wf_regs (put_ax_fld _ _ _ _)) => apply wf_put_ax_fld; [lia |] : wf.
#[export] Hint Extern 2 (wf_regs (put_ac_fld _ _ _ _)) => apply wf_put_ac_fld; [lia |] : wf.

(** Walk through a program built from safe parts. The [wf] database holds the
    lemmas [safe_op] of the operations already verified. *)
Ltac safe_step :=
  match goal with
  | |- safe (mret _) => apply safe_ret
  | |- safe (gets _) => apply safe_gets
  | |- safe regs => apply safe_gets
  | |- safe (modify _) => apply safe_modify; intros
  | |- safe (upd_regs _) => apply safe_modify; intros; apply wf_upd_r; [intros | assumption]
  | |- safe (when _ _) => apply safe_when
  | |- safe (if _ then _ else _) => apply safe_if
  | |- safe (match ?x with _ => _ end) => destruct x
  | |- safe (mbind _ _) => apply safe_bind; [| intros]
  | |- safe _ => solve [eauto with wf]
  | |- wf_regs (if ?b then _ else _) => destruct b
  | |- wf_regs _ => solve [eauto 8 with wf]
  | |- wf _ => solve [eauto 8 with wf]
  end.
Ltac safe_auto := repeat safe_step.

Ltac keeps_step :=
  match goal with
  | |- keeps (mbind _ _) => apply keeps_bind; [| intros]
  | |- keeps (when _ _) => apply keeps_when
  | |- keeps (if _ then _ else _) => apply keeps_if
  | |- keeps exit0 => apply keeps_exit
  | |- keeps out_of_bounds => apply keeps_oob
  | |- keeps (match ?x with _ => _ end) => destruct x
  | |- keeps _ => solve [eauto with wf]
  | |- keeps _ => apply safe_keeps; solve [safe_auto]
  end.
Ltac keeps_auto := repeat keeps_step.

(** ** Framing

    [stable R m]: whenever [m] completes, the machines before and after are
    related by the preorder [R] (typically: they agree on some parts). *)

Definition stable {A} (R : SDSP -> SDSP -> Prop) (m : M A) : Prop :=
  forall s a s', m s = Done a s' -> R s s'.

Create HintDb frame.

Section Stable.
Context (R : SDSP -> SDSP -> Prop) {HR : PreOrder R}.

Lemma stable_ret {A} (a : A) : stable R (mret a : M A).
Proof using HR. intros s a' s' E. rewrite run_ret in E. injection E as _ <-. reflexivity. Qed.
Lemma stable_gets {A} (f : SDSP -> A) : stable R (gets f).
Proof using HR. intros s a' s' E. injection E as _ <-. reflexivity. Qed.
Lemma stable_modify f : (forall s, R s (f s)) -> stable R (modify f).
Proof using Type. intros Hf s a' s' E. injection E as _ <-. apply Hf. Qed.
Lemma stable_bind {A B} (m : M A) (k : A -> M B) :
  stable R m -> (forall a, stable R (k a)) -> stable R (x ← m; k x).
Proof using HR.
  intros Hm Hk s b s' E. rewrite run_bind in E. destruct (m s) as [a s1 | |] eqn:E1; [| done | done].
  transitivity s1; [eapply Hm, E1 | eapply Hk, E].
Qed.
Lemma stable_if {A} (b : bool) (m1 m2 : M A) :
  stable R m1 -> stable R m2 -> stable R (if b then m1 else m2).
Proof using Type. destruct b; auto. Qed.
Lemma stable_when b m : stable R m -> stable R (when b m).
Proof using HR. intros. apply stable_if; [done | apply stable_ret]. Qed.
Lemma stable_oob {A} : stable R (out_of_bounds (A := A)).
Proof using Type. intros s a s' E. discriminate E. Qed.
End Stable.

Ltac head_of t := lazymatch t with ?f _ => head_of f | _ => t end.

(** Walk through a program, unfolding operations without a lemma of their own;
    [leaf] proves [R s (f s)] for an assignment [f]. *)
Ltac stable_step leaf :=
  lazymatch goal with
  | |- stable _ (mret _) => apply stable_ret; exact _
  | |- stable _ (gets _) => apply stable_gets; exact _
  | |- stable _ regs => apply stable_gets; exact _
  | |- stable _ (modify _) => apply stable_modify; intros; leaf
  | |- stable _ (upd_regs _) => apply stable_modify; intros; leaf
  | |- stable _ (when _ _) => apply stable_when; [exact _ |]
  | |- stable _ (if _ then _ else _) => apply stable_if
  | |- stable _ (match ?x with _ => _ end) => destruct x
  | |- stable _ (mbind _ _) => apply stable_bind; [exact _ | | intros]
  | |- stable _ out_of_bounds => apply stable_oob
  | |- stable _ (let _ := _ in _) => cbv zeta
  | |- stable _ ?m =>
    first [ solve [auto with frame nocore]
          | let h := head_of m in unfold h ]
  end.
Ltac stable_auto leaf := repeat (stable_step leaf).

(** ** A concrete machine

    Every register and memory zero, the write-back log empty: the machine
    before [DSPCore_Init], on which theorems are instantiated. *)
Definition dsp0 : SDSP :=
  mkSDSP (mkRegs [0;0;0;0] [0;0;0;0] [0;0;0;0] [0;0;0;0] 0 0 0 [0;0] [0;0])
    0 0 [0;0;0;0] 0 false ∅ 0 0 [0;0] ∅ (mkAccelerator 0 0 0 0 0 0 0 false)
    ∅ ∅ ∅ ∅ ∅ false [0;0;0;0;0] [-1;-1;-1;-1;-1] ∅ ∅ 0.

Lemma wf_dsp0 : wf dsp0.
Proof.
  assert (forall K (E : EqDecision K) (C : Countable K) w, mem_ok w (∅ : gmap K Z))
    by (intros ? ? ? ? ? ? H; rewrite lookup_empty in H; done).
  constructor; cbn; auto;
    repeat first [ solve [unfold inu, ins, backlog_idx_ok; cbn; lia] | reflexivity | constructor ].
Qed.
#[export] Hint Resolve wf_dsp0 : wf.
