(* ===== verification/DspTables.v ===== *)
(** The opcode tables of the DSP ([Core/DSP/DSPTables.cpp]): the templates that
    describe each instruction to the assembler, the disassembler, the analyzer
    and the interpreter, the lookup by opcode and by name, and the dispatch
    arrays [InitInstructionTable] fills.  Different templates
    overlap in no instruction word, so that the order of the search is
    irrelevant. *)

From Stdlib Require Import String.
From S2P Require Import Prelude.
Open Scope string_scope.
Open Scope list_scope.
Open Scope Z_scope.

(** ** Parameter types *)

Definition P_VAL : Z := 0x0001.
Definition P_IMM : Z := 0x0002.
Definition P_MEM : Z := 0x0003.
Definition P_ADDR_I : Z := 0x0005.
Definition P_REG : Z := 0x8000.
Definition P_REG04 : Z := P_REG .| 0x0400.
Definition P_REG18 : Z := P_REG .| 0x1800.
Definition P_REGM18 : Z := P_REG .| 0x1810.
Definition P_REG19 : Z := P_REG .| 0x1900.
Definition P_REGM19 : Z := P_REG .| 0x1910.
Definition P_REG1A : Z := P_REG .| 0x1a80.
Definition P_ACCL : Z := P_REG .| 0x1c00.
Definition P_REG1C : Z := P_REG .| 0x1c10.
Definition P_ACCM : Z := P_REG .| 0x1e00.
Definition P_ACCM_D : Z := P_REG .| 0x1e80.
Definition P_ACC : Z := P_REG .| 0x2000.
Definition P_ACC_D : Z := P_REG .| 0x2080.
Definition P_AX : Z := P_REG .| 0x2200.
Definition P_REF : Z := P_REG .| 0x4000.
Definition P_PRG : Z := P_REF .| P_REG.

Record param2_t := prm { type : Z; psize : Z; loc : Z; lshift : Z; mask : Z }.

Record DSPOPCTemplate := op {
  name : string; opcode : Z; opcode_mask : Z;
  size : Z; param_count : Z; params : list param2_t;
  extended : bool; branch : bool; uncond_branch : bool; reads_pc : bool; updates_sr : bool
}.

(** ** The tables *)

Definition s_opcodes_control : list DSPOPCTemplate := [
  op "NOP" 0x0000 0xfffc 1 0 [] false false false false false;
  op "DAR" 0x0004 0xfffc 1 1 [prm P_REG 1 0 0 0x0003] false false false false false;
  op "IAR" 0x0008 0xfffc 1 1 [prm P_REG 1 0 0 0x0003] false false false false false;
  op "SUBARN" 0x000c 0xfffc 1 1 [prm P_REG 1 0 0 0x0003] false false false false false;
  op "ADDARN" 0x0010 0xfff0 1 2 [prm P_REG 1 0 0 0x0003; prm P_REG04 1 0 2 0x000c] false false
    false false false;
  op "HALT" 0x0021 0xffff 1 0 [] false true true false false;
  op "RETGE" 0x02d0 0xffff 1 0 [] false true false true false;
  op "RETL" 0x02d1 0xffff 1 0 [] false true false true false;
  op "RETG" 0x02d2 0xffff 1 0 [] false true false true false;
  op "RETLE" 0x02d3 0xffff 1 0 [] false true false true false;
  op "RETNZ" 0x02d4 0xffff 1 0 [] false true false true false;
  op "RETZ" 0x02d5 0xffff 1 0 [] false true false true false;
  op "RETNC" 0x02d6 0xffff 1 0 [] false true false true false;
  op "RETC" 0x02d7 0xffff 1 0 [] false true false true false;
  op "RETx8" 0x02d8 0xffff 1 0 [] false true false true false;
  op "RETx9" 0x02d9 0xffff 1 0 [] false true false true false;
  op "RETxA" 0x02da 0xffff 1 0 [] false true false true false;
  op "RETxB" 0x02db 0xffff 1 0 [] false true false true false;
  op "RETLNZ" 0x02dc 0xffff 1 0 [] false true false true false;
  op "RETLZ" 0x02dd 0xffff 1 0 [] false true false true false;
  op "RETO" 0x02de 0xffff 1 0 [] false true false true false;
  op "RET" 0x02df 0xffff 1 0 [] false true true false false;
  op "RTI" 0x02ff 0xffff 1 0 [] false true true false false;
  op "CALLGE" 0x02b0 0xffff 2 1 [prm P_ADDR_I 2 1 0 0xffff] false true false true false;
  op "CALLL" 0x02b1 0xffff 2 1 [prm P_ADDR_I 2 1 0 0xffff] false true false true false;
  op "CALLG" 0x02b2 0xffff 2 1 [prm P_ADDR_I 2 1 0 0xffff] false true false true false;
  op "CALLLE" 0x02b3 0xffff 2 1 [prm P_ADDR_I 2 1 0 0xffff] false true false true false;
  op "CALLNZ" 0x02b4 0xffff 2 1 [prm P_ADDR_I 2 1 0 0xffff] false true false true false;
  op "CALLZ" 0x02b5 0xffff 2 1 [prm P_ADDR_I 2 1 0 0xffff] false true false true false;
  op "CALLNC" 0x02b6 0xffff 2 1 [prm P_ADDR_I 2 1 0 0xffff] false true false true false;
  op "CALLC" 0x02b7 0xffff 2 1 [prm P_ADDR_I 2 1 0 0xffff] false true false true false;
  op "CALLx8" 0x02b8 0xffff 2 1 [prm P_ADDR_I 2 1 0 0xffff] false true false true false;
  op "CALLx9" 0x02b9 0xffff 2 1 [prm P_ADDR_I 2 1 0 0xffff] false true false true false;
  op "CALLxA" 0x02ba 0xffff 2 1 [prm P_ADDR_I 2 1 0 0xffff] false true false true false;
  op "CALLxB" 0x02bb 0xffff 2 1 [prm P_ADDR_I 2 1 0 0xffff] false true false true false;
  op "CALLLNZ" 0x02bc 0xffff 2 1 [prm P_ADDR_I 2 1 0 0xffff] false true false true false;
  op "CALLLZ" 0x02bd 0xffff 2 1 [prm P_ADDR_I 2 1 0 0xffff] false true false true false;
  op "CALLO" 0x02be 0xffff 2 1 [prm P_ADDR_I 2 1 0 0xffff] false true false true false;
  op "CALL" 0x02bf 0xffff 2 1 [prm P_ADDR_I 2 1 0 0xffff] false true true true false;
  op "IFGE" 0x0270 0xffff 1 0 [] false true false true false;
  op "IFL" 0x0271 0xffff 1 0 [] false true false true false;
  op "IFG" 0x0272 0xffff 1 0 [] false true false true false;
  op "IFLE" 0x0273 0xffff 1 0 [] false true false true false;
  op "IFNZ" 0x0274 0xffff 1 0 [] false true false true false;
  op "IFZ" 0x0275 0xffff 1 0 [] false true false true false;
  op "IFNC" 0x0276 0xffff 1 0 [] false true false true false;
  op "IFC" 0x0277 0xffff 1 0 [] false true false true false;
  op "IFx8" 0x0278 0xffff 1 0 [] false true false true false;
  op "IFx9" 0x0279 0xffff 1 0 [] false true false true false;
  op "IFxA" 0x027a 0xffff 1 0 [] false true false true false;
  op "IFxB" 0x027b 0xffff 1 0 [] false true false true false;
  op "IFLNZ" 0x027c 0xffff 1 0 [] false true false true false;
  op "IFLZ" 0x027d 0xffff 1 0 [] false true false true false;
  op "IFO" 0x027e 0xffff 1 0 [] false true false true false;
  op "IF" 0x027f 0xffff 1 0 [] false true true true false;
  op "JGE" 0x0290 0xffff 2 1 [prm P_ADDR_I 2 1 0 0xffff] false true false true false;
  op "JL" 0x0291 0xffff 2 1 [prm P_ADDR_I 2 1 0 0xffff] false true false true false;
  op "JG" 0x0292 0xffff 2 1 [prm P_ADDR_I 2 1 0 0xffff] false true false true false;
  op "JLE" 0x0293 0xffff 2 1 [prm P_ADDR_I 2 1 0 0xffff] false true false true false;
  op "JNZ" 0x0294 0xffff 2 1 [prm P_ADDR_I 2 1 0 0xffff] false true false true false;
  op "JZ" 0x0295 0xffff 2 1 [prm P_ADDR_I 2 1 0 0xffff] false true false true false;
  op "JNC" 0x0296 0xffff 2 1 [prm P_ADDR_I 2 1 0 0xffff] false true false true false;
  op "JC" 0x0297 0xffff 2 1 [prm P_ADDR_I 2 1 0 0xffff] false true false true false;
  op "JMPx8" 0x0298 0xffff 2 1 [prm P_ADDR_I 2 1 0 0xffff] false true false true false;
  op "JMPx9" 0x0299 0xffff 2 1 [prm P_ADDR_I 2 1 0 0xffff] false true false true false;
  op "JMPxA" 0x029a 0xffff 2 1 [prm P_ADDR_I 2 1 0 0xffff] false true false true false;
  op "JMPxB" 0x029b 0xffff 2 1 [prm P_ADDR_I 2 1 0 0xffff] false true false true false;
  op "JLNZ" 0x029c 0xffff 2 1 [prm P_ADDR_I 2 1 0 0xffff] false true false true false;
  op "JLZ" 0x029d 0xffff 2 1 [prm P_ADDR_I 2 1 0 0xffff] false true false true false;
  op "JO" 0x029e 0xffff 2 1 [prm P_ADDR_I 2 1 0 0xffff] false true false true false;
  op "JMP" 0x029f 0xffff 2 1 [prm P_ADDR_I 2 1 0 0xffff] false true true true false;
  op "JRGE" 0x1700 0xff1f 1 1 [prm P_REG 1 0 5 0x00e0] false true false false false;
  op "JRL" 0x1701 0xff1f 1 1 [prm P_REG 1 0 5 0x00e0] false true false false false;
  op "JRG" 0x1702 0xff1f 1 1 [prm P_REG 1 0 5 0x00e0] false true false false false;
  op "JRLE" 0x1703 0xff1f 1 1 [prm P_REG 1 0 5 0x00e0] false true false false false;
  op "JRNZ" 0x1704 0xff1f 1 1 [prm P_REG 1 0 5 0x00e0] false true false false false;
  op "JRZ" 0x1705 0xff1f 1 1 [prm P_REG 1 0 5 0x00e0] false true false false false;
  op "JRNC" 0x1706 0xff1f 1 1 [prm P_REG 1 0 5 0x00e0] false true false false false;
  op "JRC" 0x1707 0xff1f 1 1 [prm P_REG 1 0 5 0x00e0] false true false false false;
  op "JMPRx8" 0x1708 0xff1f 1 1 [prm P_REG 1 0 5 0x00e0] false true false false false;
  op "JMPRx9" 0x1709 0xff1f 1 1 [prm P_REG 1 0 5 0x00e0] false true false false false;
  op "JMPRxA" 0x170a 0xff1f 1 1 [prm P_REG 1 0 5 0x00e0] false true false false false;
  op "JMPRxB" 0x170b 0xff1f 1 1 [prm P_REG 1 0 5 0x00e0] false true false false false;
  op "JRLNZ" 0x170c 0xff1f 1 1 [prm P_REG 1 0 5 0x00e0] false true false false false;
  op "JRLZ" 0x170d 0xff1f 1 1 [prm P_REG 1 0 5 0x00e0] false true false false false;
  op "JRO" 0x170e 0xff1f 1 1 [prm P_REG 1 0 5 0x00e0] false true false false false;
  op "JMPR" 0x170f 0xff1f 1 1 [prm P_REG 1 0 5 0x00e0] false true true false false;
  op "CALLRGE" 0x1710 0xff1f 1 1 [prm P_REG 1 0 5 0x00e0] false true false true false;
  op "CALLRL" 0x1711 0xff1f 1 1 [prm P_REG 1 0 5 0x00e0] false true false true false;
  op "CALLRG" 0x1712 0xff1f 1 1 [prm P_REG 1 0 5 0x00e0] false true false true false;
  op "CALLRLE" 0x1713 0xff1f 1 1 [prm P_REG 1 0 5 0x00e0] false true false true false;
  op "CALLRNZ" 0x1714 0xff1f 1 1 [prm P_REG 1 0 5 0x00e0] false true false true false;
  op "CALLRZ" 0x1715 0xff1f 1 1 [prm P_REG 1 0 5 0x00e0] false true false true false;
  op "CALLRNC" 0x1716 0xff1f 1 1 [prm P_REG 1 0 5 0x00e0] false true false true false;
  op "CALLRC" 0x1717 0xff1f 1 1 [prm P_REG 1 0 5 0x00e0] false true false true false;
  op "CALLRx8" 0x1718 0xff1f 1 1 [prm P_REG 1 0 5 0x00e0] false true false true false;
  op "CALLRx9" 0x1719 0xff1f 1 1 [prm P_REG 1 0 5 0x00e0] false true false true false;
  op "CALLRxA" 0x171a 0xff1f 1 1 [prm P_REG 1 0 5 0x00e0] false true false true false;
  op "CALLRxB" 0x171b 0xff1f 1 1 [prm P_REG 1 0 5 0x00e0] false true false true false;
  op "CALLRLNZ" 0x171c 0xff1f 1 1 [prm P_REG 1 0 5 0x00e0] false true false true false;
  op "CALLRLZ" 0x171d 0xff1f 1 1 [prm P_REG 1 0 5 0x00e0] false true false true false;
  op "CALLRO" 0x171e 0xff1f 1 1 [prm P_REG 1 0 5 0x00e0] false true false true false;
  op "CALLR" 0x171f 0xff1f 1 1 [prm P_REG 1 0 5 0x00e0] false true true true false
].

Definition s_opcodes_data : list DSPOPCTemplate := [
  op "SBCLR" 0x1200 0xff00 1 1 [prm P_IMM 1 0 0 0x0007] false false false false false;
  op "SBSET" 0x1300 0xff00 1 1 [prm P_IMM 1 0 0 0x0007] false false false false false;
  op "LSL" 0x1400 0xfec0 1 2 [prm P_ACC 1 0 8 0x0100; prm P_IMM 1 0 0 0x003f] false false false
    false true;
  op "LSR" 0x1440 0xfec0 1 2 [prm P_ACC 1 0 8 0x0100; prm P_IMM 1 0 0 0x003f] false false false
    false true;
  op "ASL" 0x1480 0xfec0 1 2 [prm P_ACC 1 0 8 0x0100; prm P_IMM 1 0 0 0x003f] false false false
    false true;
  op "ASR" 0x14c0 0xfec0 1 2 [prm P_ACC 1 0 8 0x0100; prm P_IMM 1 0 0 0x003f] false false false
    false true;
  op "LSRN" 0x02ca 0xffff 1 0 [] false false false false true;
  op "ASRN" 0x02cb 0xffff 1 0 [] false false false false true;
  op "LRI" 0x0080 0xffe0 2 2 [prm P_REG 1 0 0 0x001f; prm P_IMM 2 1 0 0xffff] false false false
    true false;
  op "LR" 0x00c0 0xffe0 2 2 [prm P_REG 1 0 0 0x001f; prm P_MEM 2 1 0 0xffff] false false false
    true false;
  op "SR" 0x00e0 0xffe0 2 2 [prm P_MEM 2 1 0 0xffff; prm P_REG 1 0 0 0x001f] false false false
    true false;
  op "MRR" 0x1c00 0xfc00 1 2 [prm P_REG 1 0 5 0x03e0; prm P_REG 1 0 0 0x001f] false false false
    false false;
  op "SI" 0x1600 0xff00 2 2 [prm P_MEM 1 0 0 0x00ff; prm P_IMM 2 1 0 0xffff] false false false
    true false;
  op "ADDIS" 0x0400 0xfe00 1 2 [prm P_ACCM 1 0 8 0x0100; prm P_IMM 1 0 0 0x00ff] false false
    false false true;
  op "CMPIS" 0x0600 0xfe00 1 2 [prm P_ACCM 1 0 8 0x0100; prm P_IMM 1 0 0 0x00ff] false false
    false false true;
  op "LRIS" 0x0800 0xf800 1 2 [prm P_REG18 1 0 8 0x0700; prm P_IMM 1 0 0 0x00ff] false false
    false false true;
  op "ADDI" 0x0200 0xfeff 2 2 [prm P_ACCM 1 0 8 0x0100; prm P_IMM 2 1 0 0xffff] false false
    false true true;
  op "XORI" 0x0220 0xfeff 2 2 [prm P_ACCM 1 0 8 0x0100; prm P_IMM 2 1 0 0xffff] false false
    false true true;
  op "ANDI" 0x0240 0xfeff 2 2 [prm P_ACCM 1 0 8 0x0100; prm P_IMM 2 1 0 0xffff] false false
    false true true;
  op "ORI" 0x0260 0xfeff 2 2 [prm P_ACCM 1 0 8 0x0100; prm P_IMM 2 1 0 0xffff] false false false
    true true;
  op "CMPI" 0x0280 0xfeff 2 2 [prm P_ACCM 1 0 8 0x0100; prm P_IMM 2 1 0 0xffff] false false
    false true true;
  op "ANDF" 0x02a0 0xfeff 2 2 [prm P_ACCM 1 0 8 0x0100; prm P_IMM 2 1 0 0xffff] false false
    false true true;
  op "ANDCF" 0x02c0 0xfeff 2 2 [prm P_ACCM 1 0 8 0x0100; prm P_IMM 2 1 0 0xffff] false false
    false true true;
  op "ILRR" 0x0210 0xfefc 1 2 [prm P_ACCM 1 0 8 0x0100; prm P_PRG 1 0 0 0x0003] false false
    false false false;
  op "ILRRD" 0x0214 0xfefc 1 2 [prm P_ACCM 1 0 8 0x0100; prm P_PRG 1 0 0 0x0003] false false
    false false false;
  op "ILRRI" 0x0218 0xfefc 1 2 [prm P_ACCM 1 0 8 0x0100; prm P_PRG 1 0 0 0x0003] false false
    false false false;
  op "ILRRN" 0x021c 0xfefc 1 2 [prm P_ACCM 1 0 8 0x0100; prm P_PRG 1 0 0 0x0003] false false
    false false false;
  op "LOOP" 0x0040 0xffe0 1 1 [prm P_REG 1 0 0 0x001f] false true true true false;
  op "BLOOP" 0x0060 0xffe0 2 2 [prm P_REG 1 0 0 0x001f; prm P_ADDR_I 2 1 0 0xffff] false true
    true true false;
  op "LOOPI" 0x1000 0xff00 1 1 [prm P_IMM 1 0 0 0x00ff] false true true true false;
  op "BLOOPI" 0x1100 0xff00 2 2 [prm P_IMM 1 0 0 0x00ff; prm P_ADDR_I 2 1 0 0xffff] false true
    true true false;
  op "LRR" 0x1800 0xff80 1 2 [prm P_REG 1 0 0 0x001f; prm P_PRG 1 0 5 0x0060] false false false
    false false;
  op "LRRD" 0x1880 0xff80 1 2 [prm P_REG 1 0 0 0x001f; prm P_PRG 1 0 5 0x0060] false false false
    false false;
  op "LRRI" 0x1900 0xff80 1 2 [prm P_REG 1 0 0 0x001f; prm P_PRG 1 0 5 0x0060] false false false
    false false;
  op "LRRN" 0x1980 0xff80 1 2 [prm P_REG 1 0 0 0x001f; prm P_PRG 1 0 5 0x0060] false false false
    false false;
  op "SRR" 0x1a00 0xff80 1 2 [prm P_PRG 1 0 5 0x0060; prm P_REG 1 0 0 0x001f] false false false
    false false;
  op "SRRD" 0x1a80 0xff80 1 2 [prm P_PRG 1 0 5 0x0060; prm P_REG 1 0 0 0x001f] false false false
    false false;
  op "SRRI" 0x1b00 0xff80 1 2 [prm P_PRG 1 0 5 0x0060; prm P_REG 1 0 0 0x001f] false false false
    false false;
  op "SRRN" 0x1b80 0xff80 1 2 [prm P_PRG 1 0 5 0x0060; prm P_REG 1 0 0 0x001f] false false false
    false false;
  op "LRS" 0x2000 0xf800 1 2 [prm P_REG18 1 0 8 0x0700; prm P_MEM 1 0 0 0x00ff] false false
    false false false;
  op "SRS" 0x2800 0xf800 1 2 [prm P_MEM 1 0 0 0x00ff; prm P_REG18 1 0 8 0x0700] false false
    false false false
].

Definition s_opcodes_extended : list DSPOPCTemplate := [
  op "XORR" 0x3000 0xfc80 1 2 [prm P_ACCM 1 0 8 0x0100; prm P_REG1A 1 0 9 0x0200] true false
    false false true;
  op "ANDR" 0x3400 0xfc80 1 2 [prm P_ACCM 1 0 8 0x0100; prm P_REG1A 1 0 9 0x0200] true false
    false false true;
  op "ORR" 0x3800 0xfc80 1 2 [prm P_ACCM 1 0 8 0x0100; prm P_REG1A 1 0 9 0x0200] true false
    false false true;
  op "ANDC" 0x3c00 0xfe80 1 2 [prm P_ACCM 1 0 8 0x0100; prm P_ACCM_D 1 0 8 0x0100] true false
    false false true;
  op "ORC" 0x3e00 0xfe80 1 2 [prm P_ACCM 1 0 8 0x0100; prm P_ACCM_D 1 0 8 0x0100] true false
    false false true;
  op "XORC" 0x3080 0xfe80 1 2 [prm P_ACCM 1 0 8 0x0100; prm P_ACCM_D 1 0 8 0x0100] true false
    false false true;
  op "NOT" 0x3280 0xfe80 1 1 [prm P_ACCM 1 0 8 0x0100] true false false false true;
  op "LSRNRX" 0x3480 0xfc80 1 2 [prm P_ACC 1 0 8 0x0100; prm P_REG1A 1 0 9 0x0200] true false
    false false true;
  op "ASRNRX" 0x3880 0xfc80 1 2 [prm P_ACC 1 0 8 0x0100; prm P_REG1A 1 0 9 0x0200] true false
    false false true;
  op "LSRNR" 0x3c80 0xfe80 1 2 [prm P_ACC 1 0 8 0x0100; prm P_ACCM_D 1 0 8 0x0100] true false
    false false true;
  op "ASRNR" 0x3e80 0xfe80 1 2 [prm P_ACC 1 0 8 0x0100; prm P_ACCM_D 1 0 8 0x0100] true false
    false false true;
  op "ADDR" 0x4000 0xf800 1 2 [prm P_ACC 1 0 8 0x0100; prm P_REG18 1 0 9 0x0600] true false
    false false true;
  op "ADDAX" 0x4800 0xfc00 1 2 [prm P_ACC 1 0 8 0x0100; prm P_AX 1 0 9 0x0200] true false false
    false true;
  op "ADD" 0x4c00 0xfe00 1 2 [prm P_ACC 1 0 8 0x0100; prm P_ACC_D 1 0 8 0x0100] true false false
    false true;
  op "ADDP" 0x4e00 0xfe00 1 1 [prm P_ACC 1 0 8 0x0100] true false false false true;
  op "SUBR" 0x5000 0xf800 1 2 [prm P_ACC 1 0 8 0x0100; prm P_REG18 1 0 9 0x0600] true false
    false false true;
  op "SUBAX" 0x5800 0xfc00 1 2 [prm P_ACC 1 0 8 0x0100; prm P_AX 1 0 9 0x0200] true false false
    false true;
  op "SUB" 0x5c00 0xfe00 1 2 [prm P_ACC 1 0 8 0x0100; prm P_ACC_D 1 0 8 0x0100] true false false
    false true;
  op "SUBP" 0x5e00 0xfe00 1 1 [prm P_ACC 1 0 8 0x0100] true false false false true;
  op "MOVR" 0x6000 0xf800 1 2 [prm P_ACC 1 0 8 0x0100; prm P_REG18 1 0 9 0x0600] true false
    false false true;
  op "MOVAX" 0x6800 0xfc00 1 2 [prm P_ACC 1 0 8 0x0100; prm P_AX 1 0 9 0x0200] true false false
    false true;
  op "MOV" 0x6c00 0xfe00 1 2 [prm P_ACC 1 0 8 0x0100; prm P_ACC_D 1 0 8 0x0100] true false false
    false true;
  op "MOVP" 0x6e00 0xfe00 1 1 [prm P_ACC 1 0 8 0x0100] true false false false true;
  op "ADDAXL" 0x7000 0xfc00 1 2 [prm P_ACC 1 0 8 0x0100; prm P_REG18 1 0 9 0x0200] true false
    false false true;
  op "INCM" 0x7400 0xfe00 1 1 [prm P_ACCM 1 0 8 0x0100] true false false false true;
  op "INC" 0x7600 0xfe00 1 1 [prm P_ACC 1 0 8 0x0100] true false false false true;
  op "DECM" 0x7800 0xfe00 1 1 [prm P_ACCM 1 0 8 0x0100] true false false false true;
  op "DEC" 0x7a00 0xfe00 1 1 [prm P_ACC 1 0 8 0x0100] true false false false true;
  op "NEG" 0x7c00 0xfe00 1 1 [prm P_ACC 1 0 8 0x0100] true false false false true;
  op "MOVNP" 0x7e00 0xfe00 1 1 [prm P_ACC 1 0 8 0x0100] true false false false true;
  op "NX" 0x8000 0xf700 1 0 [] true false false false false;
  op "CLR" 0x8100 0xf700 1 1 [prm P_ACC 1 0 11 0x0800] true false false false true;
  op "CMP" 0x8200 0xff00 1 0 [] true false false false true;
  op "MULAXH" 0x8300 0xff00 1 0 [] true false false false true;
  op "CLRP" 0x8400 0xff00 1 0 [] true false false false true;
  op "TSTPROD" 0x8500 0xff00 1 0 [] true false false false true;
  op "TSTAXH" 0x8600 0xfe00 1 1 [prm P_REG1A 1 0 8 0x0100] true false false false true;
  op "M2" 0x8a00 0xff00 1 0 [] true false false false false;
  op "M0" 0x8b00 0xff00 1 0 [] true false false false false;
  op "CLR15" 0x8c00 0xff00 1 0 [] true false false false false;
  op "SET15" 0x8d00 0xff00 1 0 [] true false false false false;
  op "SET16" 0x8e00 0xff00 1 0 [] true false false false false;
  op "SET40" 0x8f00 0xff00 1 0 [] true false false false false;
  op "MUL" 0x9000 0xf700 1 2 [prm P_REG18 1 0 11 0x0800; prm P_REG1A 1 0 11 0x0800] true false
    false false true;
  op "ASR16" 0x9100 0xf700 1 1 [prm P_ACC 1 0 11 0x0800] true false false false true;
  op "MULMVZ" 0x9200 0xf600 1 3 [prm P_REG18 1 0 11 0x0800; prm P_REG1A 1 0 11 0x0800; prm P_ACC
    1 0 8 0x0100] true false false false true;
  op "MULAC" 0x9400 0xf600 1 3 [prm P_REG18 1 0 11 0x0800; prm P_REG1A 1 0 11 0x0800; prm P_ACC
    1 0 8 0x0100] true false false false true;
  op "MULMV" 0x9600 0xf600 1 3 [prm P_REG18 1 0 11 0x0800; prm P_REG1A 1 0 11 0x0800; prm P_ACC
    1 0 8 0x0100] true false false false true;
  op "MULX" 0xa000 0xe700 1 2 [prm P_REGM18 1 0 11 0x1000; prm P_REGM19 1 0 10 0x0800] true
    false false false true;
  op "ABS" 0xa100 0xf700 1 1 [prm P_ACC 1 0 11 0x0800] true false false false true;
  op "MULXMVZ" 0xa200 0xe600 1 3 [prm P_REGM18 1 0 11 0x1000; prm P_REGM19 1 0 10 0x0800; prm
    P_ACC 1 0 8 0x0100] true false false false true;
  op "MULXAC" 0xa400 0xe600 1 3 [prm P_REGM18 1 0 11 0x1000; prm P_REGM19 1 0 10 0x0800; prm
    P_ACC 1 0 8 0x0100] true false false false true;
  op "MULXMV" 0xa600 0xe600 1 3 [prm P_REGM18 1 0 11 0x1000; prm P_REGM19 1 0 10 0x0800; prm
    P_ACC 1 0 8 0x0100] true false false false true;
  op "TST" 0xb100 0xf700 1 1 [prm P_ACC 1 0 11 0x0800] true false false false true;
  op "MULC" 0xc000 0xe700 1 2 [prm P_ACCM 1 0 12 0x1000; prm P_REG1A 1 0 11 0x0800] true false
    false false true;
  op "CMPAR" 0xc100 0xe700 1 2 [prm P_ACC 1 0 11 0x0800; prm P_REG1A 1 0 12 0x1000] true false
    false false true;
  op "MULCMVZ" 0xc200 0xe600 1 3 [prm P_ACCM 1 0 12 0x1000; prm P_REG1A 1 0 11 0x0800; prm P_ACC
    1 0 8 0x0100] true false false false true;
  op "MULCAC" 0xc400 0xe600 1 3 [prm P_ACCM 1 0 12 0x1000; prm P_REG1A 1 0 11 0x0800; prm P_ACC
    1 0 8 0x0100] true false false false true;
  op "MULCMV" 0xc600 0xe600 1 3 [prm P_ACCM 1 0 12 0x1000; prm P_REG1A 1 0 11 0x0800; prm P_ACC
    1 0 8 0x0100] true false false false true;
  op "MADDX" 0xe000 0xfc00 1 2 [prm P_REGM18 1 0 8 0x0200; prm P_REGM19 1 0 7 0x0100] true false
    false false true;
  op "MSUBX" 0xe400 0xfc00 1 2 [prm P_REGM18 1 0 8 0x0200; prm P_REGM19 1 0 7 0x0100] true false
    false false true;
  op "MADDC" 0xe800 0xfc00 1 2 [prm P_ACCM 1 0 9 0x0200; prm P_REG19 1 0 7 0x0100] true false
    false false true;
  op "MSUBC" 0xec00 0xfc00 1 2 [prm P_ACCM 1 0 9 0x0200; prm P_REG19 1 0 7 0x0100] true false
    false false true;
  op "LSL16" 0xf000 0xfe00 1 1 [prm P_ACC 1 0 8 0x0100] true false false false true;
  op "MADD" 0xf200 0xfe00 1 2 [prm P_REG18 1 0 8 0x0100; prm P_REG1A 1 0 8 0x0100] true false
    false false true;
  op "LSR16" 0xf400 0xfe00 1 1 [prm P_ACC 1 0 8 0x0100] true false false false true;
  op "MSUB" 0xf600 0xfe00 1 2 [prm P_REG18 1 0 8 0x0100; prm P_REG1A 1 0 8 0x0100] true false
    false false true;
  op "ADDPAXZ" 0xf800 0xfc00 1 2 [prm P_ACC 1 0 9 0x0200; prm P_AX 1 0 8 0x0100] true false
    false false true;
  op "CLRL" 0xfc00 0xfe00 1 1 [prm P_ACCL 1 0 11 0x0800] true false false false true;
  op "MOVPZ" 0xfe00 0xfe00 1 1 [prm P_ACC 1 0 8 0x0100] true false false false true
].

Definition s_opcodes : list DSPOPCTemplate :=
  s_opcodes_control ++ s_opcodes_data ++ s_opcodes_extended.

Definition cw : DSPOPCTemplate :=
  op "CW" 0x0000 0x0000 1 1 [prm P_VAL 2 0 0 0xffff] false false false false false.

Definition s_opcodes_ext : list DSPOPCTemplate := [
  op "XXX" 0x0000 0x00fc 1 1 [prm P_VAL 1 0 0 0x00ff] false false false false false;
  op "DR" 0x0004 0x00fc 1 1 [prm P_REG 1 0 0 0x0003] false false false false false;
  op "IR" 0x0008 0x00fc 1 1 [prm P_REG 1 0 0 0x0003] false false false false false;
  op "NR" 0x000c 0x00fc 1 1 [prm P_REG 1 0 0 0x0003] false false false false false;
  op "MV" 0x0010 0x00f0 1 2 [prm P_REG18 1 0 2 0x000c; prm P_REG1C 1 0 0 0x0003] false false
    false false false;
  op "S" 0x0020 0x00e4 1 2 [prm P_PRG 1 0 0 0x0003; prm P_REG1C 1 0 3 0x0018] false false false
    false false;
  op "SN" 0x0024 0x00e4 1 2 [prm P_PRG 1 0 0 0x0003; prm P_REG1C 1 0 3 0x0018] false false false
    false false;
  op "L" 0x0040 0x00c4 1 2 [prm P_REG18 1 0 3 0x0038; prm P_PRG 1 0 0 0x0003] false false false
    false false;
  op "LN" 0x0044 0x00c4 1 2 [prm P_REG18 1 0 3 0x0038; prm P_PRG 1 0 0 0x0003] false false false
    false false;
  op "LS" 0x0080 0x00ce 1 2 [prm P_REG18 1 0 4 0x0030; prm P_ACCM 1 0 0 0x0001] false false
    false false false;
  op "SL" 0x0082 0x00ce 1 2 [prm P_ACCM 1 0 0 0x0001; prm P_REG18 1 0 4 0x0030] false false
    false false false;
  op "LSN" 0x0084 0x00ce 1 2 [prm P_REG18 1 0 4 0x0030; prm P_ACCM 1 0 0 0x0001] false false
    false false false;
  op "SLN" 0x0086 0x00ce 1 2 [prm P_ACCM 1 0 0 0x0001; prm P_REG18 1 0 4 0x0030] false false
    false false false;
  op "LSM" 0x0088 0x00ce 1 2 [prm P_REG18 1 0 4 0x0030; prm P_ACCM 1 0 0 0x0001] false false
    false false false;
  op "SLM" 0x008a 0x00ce 1 2 [prm P_ACCM 1 0 0 0x0001; prm P_REG18 1 0 4 0x0030] false false
    false false false;
  op "LSNM" 0x008c 0x00ce 1 2 [prm P_REG18 1 0 4 0x0030; prm P_ACCM 1 0 0 0x0001] false false
    false false false;
  op "SLNM" 0x008e 0x00ce 1 2 [prm P_ACCM 1 0 0 0x0001; prm P_REG18 1 0 4 0x0030] false false
    false false false;
  op "LDAX" 0x00c3 0x00cf 1 2 [prm P_AX 1 0 4 0x0010; prm P_PRG 1 0 5 0x0020] false false false
    false false;
  op "LDAXN" 0x00c7 0x00cf 1 2 [prm P_AX 1 0 4 0x0010; prm P_PRG 1 0 5 0x0020] false false false
    false false;
  op "LDAXM" 0x00cb 0x00cf 1 2 [prm P_AX 1 0 4 0x0010; prm P_PRG 1 0 5 0x0020] false false false
    false false;
  op "LDAXNM" 0x00cf 0x00cf 1 2 [prm P_AX 1 0 4 0x0010; prm P_PRG 1 0 5 0x0020] false false
    false false false;
  op "LD" 0x00c0 0x00cc 1 3 [prm P_REGM18 1 0 4 0x0020; prm P_REGM19 1 0 3 0x0010; prm P_PRG 1 0
    0 0x0003] false false false false false;
  op "LDN" 0x00c4 0x00cc 1 3 [prm P_REGM18 1 0 4 0x0020; prm P_REGM19 1 0 3 0x0010; prm P_PRG 1
    0 0 0x0003] false false false false false;
  op "LDM" 0x00c8 0x00cc 1 3 [prm P_REGM18 1 0 4 0x0020; prm P_REGM19 1 0 3 0x0010; prm P_PRG 1
    0 0 0x0003] false false false false false;
  op "LDNM" 0x00cc 0x00cc 1 3 [prm P_REGM18 1 0 4 0x0020; prm P_REGM19 1 0 3 0x0010; prm P_PRG 1
    0 0 0x0003] false false false false false
].

(** ** Lookup *)

(** The first entry whose pattern matches; [code] and [msk] read an entry's
    [opcode] and [opcode_mask]. *)
Definition FindByOpcode {T} (code msk : T -> Z) (opc : Z) (data : list T) : option T :=
  List.find (fun info => opc .& msk info =? code info) data.

Definition FindByName (n : string) (data : list DSPOPCTemplate) : option DSPOPCTemplate :=
  List.find (fun info => String.eqb n (name info)) data.

Definition FindOpInfoByOpcode (opc : Z) : option DSPOPCTemplate :=
  FindByOpcode opcode opcode_mask opc s_opcodes.
Definition FindOpInfoByName (n : string) : option DSPOPCTemplate := FindByName n s_opcodes.
Definition FindExtOpInfoByOpcode (opc : Z) : option DSPOPCTemplate :=
  FindByOpcode opcode opcode_mask opc s_opcodes_ext.
Definition FindExtOpInfoByName (n : string) : option DSPOPCTemplate := FindByName n s_opcodes_ext.

(** ** Dispatch arrays

    [InitInstructionTable] fills each cell of [s_op_table] and
    [s_ext_op_table] independently of the others, so an array is the function
    from its index to the cell. *)
Definition s_op_table (i : Z) : DSPOPCTemplate := default cw (FindOpInfoByOpcode i).
Definition s_ext_op_table (i : Z) : DSPOPCTemplate := default cw (FindExtOpInfoByOpcode i).

Definition GetOpTemplate (inst : Z) : DSPOPCTemplate := s_op_table inst.

Definition has_seven_bit_extension (inst : Z) : bool := (inst .>> 12) =? 0x3.

Definition GetExtOpTemplate (inst : Z) : DSPOPCTemplate :=
  if has_seven_bit_extension inst then s_ext_op_table (inst .& 0x7f)
  else s_ext_op_table (inst .& 0xff).

(** ** Uniqueness of the decoding *)

(** Two patterns overlap when they agree on every bit both masks fix. *)
Definition overlap (o1 m1 o2 m2 : Z) : bool := ((o1 .^ o2) .& m1 .& m2) =? 0.

Fixpoint pairwise_disjoint {T} (code msk : T -> Z) (l : list T) : bool :=
  match l with
  | [] => true
  | x :: l' =>
    forallb (fun y => negb (overlap (code x) (msk x) (code y) (msk y))) l' &&
    pairwise_disjoint code msk l'
  end.

Section Decoding.
Context {T : Type} (code msk : T -> Z).

Lemma overlap_of_match x y opc :
  (opc .& msk x) = code x -> (opc .& msk y) = code y ->
  overlap (code x) (msk x) (code y) (msk y) = true.
Proof.
  intros <- <-. unfold overlap. apply Z.eqb_eq. bitwise.
Qed.

Lemma FindByOpcode_unique l opc x :
  pairwise_disjoint code msk l = true -> In x l -> (opc .& msk x) = code x ->
  FindByOpcode code msk opc l = Some x.
Proof.
  unfold FindByOpcode. induction l as [| y l IH]; cbn; [done |].
  intros Hp Hin Hm. apply andb_prop in Hp as [Hy Hp].
  destruct (Z.eqb_spec (opc .& msk y) (code y)) as [E | E].
  - destruct Hin as [-> | Hin]; [done |]. exfalso.
    rewrite forallb_forall in Hy. specialize (Hy x Hin).
    rewrite (overlap_of_match y x opc E Hm) in Hy. done.
  - apply IH; [done | | done]. destruct Hin as [-> | Hin]; done.
Qed.

Lemma FindByOpcode_some l opc x :
  FindByOpcode code msk opc l = Some x -> In x l /\ (opc .& msk x) = code x.
Proof.
  intros H. apply find_some in H as [Hin Hm]. split; [done |]. apply Z.eqb_eq, Hm.
Qed.
End Decoding.
