(* ===== verification/DspStacks.v ===== *)
(** The hardware stacks of the DSP ([Core/DSP/DSPStacks.cpp]).  Four stacks of
    32 entries sit behind the registers [st0..st3]: the register caches the top
    entry and writing it pushes the old top.  The theorems show that the
    machinery implements a bounded stack: a value pushed is the value popped,
    through any balanced nesting of at most 32 pushes, and that the
    four stacks do not interfere. *)

From S2P Require Import Prelude DspState.
Open Scope Z_scope.

Definition set_ptr (i v : Z) (s : SDSP) : SDSP :=
  set_reg_stack_ptr (zset (reg_stack_ptr s) i v) s.

Definition dsp_reg_stack_push (stack_reg : Z) : M unit :=
  modify (fun s => set_ptr stack_reg (u8 (zget (reg_stack_ptr s) stack_reg + 1)) s);;
  modify (fun s => set_ptr stack_reg (zget (reg_stack_ptr s) stack_reg .& DSP_STACK_MASK) s);;
  modify (fun s =>
    set_reg_stack (mset (reg_stack s) (stack_reg, zget (reg_stack_ptr s) stack_reg)
                        (zget (r_st (r s)) stack_reg)) s).

Definition dsp_reg_stack_pop (stack_reg : Z) : M unit :=
  modify (fun s => upd_r (put_st stack_reg
    (mget (reg_stack s) (stack_reg, zget (reg_stack_ptr s) stack_reg))) s);;
  modify (fun s => set_ptr stack_reg (u8 (zget (reg_stack_ptr s) stack_reg - 1)) s);;
  modify (fun s => set_ptr stack_reg (zget (reg_stack_ptr s) stack_reg .& DSP_STACK_MASK) s).

Definition dsp_reg_store_stack (stack_reg : StackRegister) (val : Z) : M unit :=
  let reg_index := stack_index stack_reg in
  dsp_reg_stack_push reg_index;;
  modify (upd_r (put_st reg_index val)).

Definition dsp_reg_load_stack (stack_reg : StackRegister) : M Z :=
  let reg_index := stack_index stack_reg in
  val ← gets (fun s => zget (r_st (r s)) reg_index);
  dsp_reg_stack_pop reg_index;;
  mret val.

(** ** The pure effect of one push or pop *)

Definition push_ptr (p : Z) : Z := (p + 1) .& DSP_STACK_MASK.
Definition pop_ptr (p : Z) : Z := (u8 (p - 1)) .& DSP_STACK_MASK.

Definition pushed (i v : Z) (s : SDSP) : SDSP :=
  let p := push_ptr (zget (reg_stack_ptr s) i) in
  upd_r (put_st i v)
    (set_reg_stack (mset (reg_stack s) (i, p) (zget (r_st (r s)) i)) (set_ptr i p s)).

Definition popped (i : Z) (s : SDSP) : SDSP :=
  let p := zget (reg_stack_ptr s) i in
  set_ptr i (pop_ptr p) (upd_r (put_st i (mget (reg_stack s) (i, p))) s).

(** ** Lemmas *)

Lemma stack_index_range k : 0 <= stack_index k < 4.
Proof. destruct k; cbn; lia. Qed.

Lemma stack_index_inj k k' : stack_index k = stack_index k' -> k = k'.
Proof. destruct k, k'; cbn; congruence. Qed.

Lemma land_31 x : x .& DSP_STACK_MASK = wrapu 5 x.
Proof. unfold DSP_STACK_MASK, wrapu. change 0x1f with (Z.ones 5). apply Z.land_ones. lia. Qed.

Lemma push_ptr_mod p : push_ptr p = wrapu 5 (p + 1).
Proof. apply land_31. Qed.

Lemma pop_ptr_mod p : pop_ptr p = wrapu 5 (p - 1).
Proof. unfold pop_ptr. rewrite land_31. apply wrapu_wrapu_le. lia. Qed.

Lemma pop_push_ptr p : inu 5 p -> pop_ptr (push_ptr p) = p.
Proof.
  intros. rewrite pop_ptr_mod, push_ptr_mod.
  rewrite (wrapu_eq_mod 5 (wrapu 5 (p + 1) - 1) p).
  - apply wrapu_id. done.
  - unfold wrapu. rewrite Zminus_mod_idemp_l. f_equal. lia.
Qed.

Lemma push_ptr_range p : inu 5 (push_ptr p).
Proof. rewrite push_ptr_mod. apply wrapu_range. lia. Qed.
Lemma pop_ptr_range p : inu 5 (pop_ptr p).
Proof. rewrite pop_ptr_mod. apply wrapu_range. lia. Qed.
#[export] Hint Resolve push_ptr_range pop_ptr_range : cint.

Lemma wf_set_ptr i v s : wf s -> inu 5 v -> wf (set_ptr i v s).
Proof. intros H Hv. wf_update H. Qed.

Lemma wf_pushed i v s : wf s -> wf (pushed i v s).
Proof.
  intros Hs. unfold pushed. apply wf_upd_r; [eauto with wf |].
  assert (wf (set_ptr i (push_ptr (zget (reg_stack_ptr s) i)) s)) as H
    by (apply wf_set_ptr; [done | range]).
  assert (inu 16 (zget (r_st (r s)) i)) by (destruct Hs as [[] ]; range).
  wf_update H.
Qed.

Lemma wf_popped i s : wf s -> wf (popped i s).
Proof. intros Hs. unfold popped. apply wf_set_ptr; [eauto with wf | range]. Qed.

#[export] Hint Resolve wf_set_ptr wf_pushed wf_popped : wf.

Lemma run_store k v s :
  wf s -> dsp_reg_store_stack k v s = Done tt (pushed (stack_index k) v s).
Proof.
  intros Hs. pose proof (stack_index_range k).
  assert (Hp : arr_ok 4 5 (reg_stack_ptr s)) by apply Hs.
  assert (inu 5 (zget (reg_stack_ptr s) (stack_index k))) as Hr by range.
  unfold dsp_reg_store_stack, dsp_reg_stack_push. run. unfold pushed, set_ptr. cbn.
  rewrite !zset_zset, !(zget_zset_same 4 5) by (done || lia).
  rewrite (wrapu_id 8) by (unfold inu in *; lia). done.
Qed.

Lemma run_load k s :
  wf s -> dsp_reg_load_stack k s =
          Done (zget (r_st (r s)) (stack_index k)) (popped (stack_index k) s).
Proof.
  intros Hs. pose proof (stack_index_range k).
  assert (Hp : arr_ok 4 5 (reg_stack_ptr s)) by apply Hs.
  unfold dsp_reg_load_stack, dsp_reg_stack_pop. run. unfold popped, set_ptr. cbn.
  rewrite (zget_zset_same 4 5) by (done || lia). rewrite zset_zset. done.
Qed.

Lemma safe_store k v : safe (dsp_reg_store_stack k v).
Proof. intros s Hs. rewrite run_store by done. eauto with wf. Qed.
Lemma safe_load k : safe (dsp_reg_load_stack k).
Proof. intros s Hs. rewrite run_load by done. eauto with wf. Qed.
#[export] Hint Resolve safe_store safe_load : wf.

(** ** The abstract stack

    [contents s k n] lists the top [n] values of stack [k], newest first: the
    register and the entries below it. *)

Fixpoint below (s : SDSP) (i p : Z) (n : nat) : list Z :=
  match n with
  | O => []
  | S n' => mget (reg_stack s) (i, p) :: below s i (pop_ptr p) n'
  end.

Definition contents (s : SDSP) (k : StackRegister) (n : nat) : list Z :=
  zget (r_st (r s)) (stack_index k) :: below s (stack_index k) (zget (reg_stack_ptr s) (stack_index k)) n.

Lemma below_ext s s' i p n :
  (forall m, (m < n)%nat -> mget (reg_stack s') (i, wrapu 5 (p - Z.of_nat m)) =
                        mget (reg_stack s) (i, wrapu 5 (p - Z.of_nat m))) ->
  inu 5 p -> below s' i p n = below s i p n.
Proof.
  revert p. induction n as [| n IH]; intros p H Hp; cbn; [done |]. f_equal.
  - specialize (H 0%nat ltac:(lia)). rewrite Z.sub_0_r, wrapu_id in H by done. done.
  - apply IH; [| range]. intros m Hm. specialize (H (S m) ltac:(lia)).
    rewrite pop_ptr_mod. rewrite <- !(wrapu_eq_mod 5 (p - Z.of_nat (S m)) (wrapu 5 (p - 1) - Z.of_nat m)).
    + done.
    + unfold wrapu. rewrite Zminus_mod_idemp_l. f_equal. lia.
Qed.

Lemma contents_pushed s k v n :
  wf s -> (n < 32)%nat -> contents (pushed (stack_index k) v s) k (S n) = u16 v :: contents s k n.
Proof.
  intros Hs Hn. pose proof (stack_index_range k) as Hk.
  assert (Hp : arr_ok 4 5 (reg_stack_ptr s)) by apply Hs.
  assert (Ht : arr_ok 4 16 (r_st (r s))) by apply Hs.
  set (i := stack_index k) in *. set (p := zget (reg_stack_ptr s) i).
  assert (Hpr : inu 5 p) by (subst p; range).
  unfold contents. fold i. unfold pushed. cbn. fold p.
  rewrite (zget_zset_same 4 16), (zget_zset_same 4 5) by (done || lia). f_equal.
  rewrite mget_mset_same. rewrite pop_push_ptr by done. f_equal.
  apply below_ext; [| done]. intros m Hm. cbn. apply mget_mset_other. intros [= E].
  rewrite push_ptr_mod in E. unfold wrapu, inu in *. change (2 ^ 5) with 32 in *.
  Z.to_euclidean_division_equations. lia.
Qed.

Lemma contents_popped s k n :
  wf s -> contents s k (S n) = zget (r_st (r s)) (stack_index k) :: contents (popped (stack_index k) s) k n.
Proof.
  intros Hs. pose proof (stack_index_range k) as Hk.
  assert (Hp : arr_ok 4 5 (reg_stack_ptr s)) by apply Hs.
  assert (Ht : arr_ok 4 16 (r_st (r s))) by apply Hs.
  unfold contents, popped. cbn. f_equal.
  rewrite (zget_zset_same 4 16), (zget_zset_same 4 5) by (done || lia).
  rewrite wrapu_id. 2: { apply mem_ok_mget; [lia | apply Hs]. }
  f_equal. apply below_ext; [done | range].
Qed.

Lemma contents_other s k k' v n :
  wf s -> k <> k' ->
  contents (pushed (stack_index k) v s) k' n = contents s k' n /\
  contents (popped (stack_index k) s) k' n = contents s k' n.
Proof.
  intros Hs Hne. pose proof (stack_index_range k). pose proof (stack_index_range k').
  assert (stack_index k <> stack_index k') by (intros E; apply Hne, stack_index_inj, E).
  assert (inu 5 (zget (reg_stack_ptr s) (stack_index k'))) by (destruct Hs; range).
  split; unfold contents, pushed, popped; cbn; rewrite !zget_zset_other by lia;
    (f_equal; apply below_ext; [| done]; intros m Hm; cbn).
  - apply mget_mset_other. congruence.
  - done.
Qed.

(** ** Properties *)

(** A nest of pushes: [k]'s register takes each value in turn. *)
Fixpoint push_all (k : StackRegister) (vs : list Z) : M unit :=
  match vs with
  | [] => mret tt
  | v :: vs' => dsp_reg_store_stack k v;; push_all k vs'
  end.

(** As many pops, returning the values in the order they come out. *)
Fixpoint pop_all (k : StackRegister) (n : nat) : M (list Z) :=
  match n with
  | O => mret []
  | S n' => v ← dsp_reg_load_stack k; vs ← pop_all k n'; mret (v :: vs)
  end.

Lemma push_all_contents k vs s n :
  wf s -> (n + length vs <= 32)%nat ->
  exists s', push_all k vs s = Done tt s' /\ wf s' /\
    contents s' k (length vs + n) = rev (map (wrapu 16) vs) ++ contents s k n.
Proof.
  revert s n. induction vs as [| v vs IH]; intros s n Hs Hn; cbn [length] in Hn.
  - exists s. done.
  - cbn [push_all]. rewrite run_bind, run_store by done.
    destruct (IH (pushed (stack_index k) v s) (S n)) as (s' & E & Hs' & C); [auto with wf | lia |].
    exists s'. split_and!; [done | done |].
    cbn [length map rev]. rewrite <- app_assoc. cbn [app].
    rewrite <- (contents_pushed s k v n) by (done || lia). rewrite <- C. f_equal. lia.
Qed.

Lemma pop_all_contents k n s :
  wf s -> exists s', pop_all k n s = Done (take n (contents s k n)) s' /\ wf s' /\
    forall m, contents s' k m = drop n (contents s k (n + m)).
Proof.
  revert s. induction n as [| n IH]; intros s Hs.
  - exists s. done.
  - cbn [pop_all]. rewrite run_bind, run_load by done.
    destruct (IH (popped (stack_index k) s)) as (s' & E & Hs' & C); [auto with wf |].
    exists s'. rewrite run_bind, E. split_and!; [| done |].
    + rewrite contents_popped by done. done.
    + intros m. rewrite C. cbn [plus]. rewrite contents_popped by done. done.
Qed.

Lemma contents_length s k n : length (contents s k n) = S n.
Proof.
  unfold contents. cbn. f_equal. generalize (zget (reg_stack_ptr s) (stack_index k)).
  induction n as [| n IH]; intros p; cbn; [done |]. f_equal. apply IH.
Qed.

(** C37: the hardware stacks are last-in first-out.  Pushing up to 32 values on
    one of the four stacks and popping as many returns the values in reverse
    order, and leaves the stack's visible contents (the register and the entries
    under it, as far as the pushes did not overwrite the ring) as before. *)
Theorem stack_lifo k vs s :
  wf s -> (length vs <= 32)%nat ->
  exists s1 s2, push_all k vs s = Done tt s1 /\
    pop_all k (length vs) s1 = Done (rev (map (wrapu 16) vs)) s2 /\
    contents s2 k (32 - length vs) = contents s k (32 - length vs).
Proof.
  intros Hs Hl.
  destruct (push_all_contents k vs s (32 - length vs) Hs) as (s1 & E1 & Hs1 & C1); [lia |].
  destruct (pop_all_contents k (length vs) s1 Hs1) as (s2 & E2 & Hs2 & C2).
  exists s1, s2. assert (Hr : length (rev (map (wrapu 16) vs)) = length vs)
    by (rewrite length_rev, length_map; done).
  destruct (push_all_contents k vs s 0 Hs) as (s1' & E1' & _ & C1'); [lia |].
  assert (s1' = s1) as -> by congruence. rewrite Nat.add_0_r in C1'.
  split_and!; [done | |].
  - rewrite E2, C1'. f_equal. rewrite take_app_length'; done.
  - rewrite C2, C1. rewrite drop_app_length'; done.
Qed.

Lemma stack_lifo_witness :
  wf dsp0 /\
  exists s1 s2, push_all Call [5; 6; 7] dsp0 = Done tt s1 /\ pop_all Call 3 s1 = Done [7; 6; 5] s2.
Proof.
  split; [exact wf_dsp0 |].
  destruct (stack_lifo Call [5; 6; 7] dsp0 wf_dsp0 ltac:(cbn; lia)) as (s1 & s2 & E1 & E2 & _).
  exists s1, s2. split; [exact E1 | exact E2].
Defined.
