(* ===== verification/DspImem.v ===== *)
(** Instruction memory ([Core/DSP/DSPMemoryMap.cpp], the instruction half):
    IRAM at 0x0000, IROM at 0x8000, nothing elsewhere, and the fetch, peek and
    skip operations on the program counter. *)

From S2P Require Import Prelude DspState DspTables.
Open Scope Z_scope.

(** What memory holds at an instruction address. *)
Definition imem (s : SDSP) (addr : Z) : Z :=
  match addr .>> 12 with
  | 0 => mget (iram s) (addr .& DSP_IRAM_MASK)
  | 8 => mget (irom s) (addr .& DSP_IROM_MASK)
  | _ => 0
  end.

Definition dsp_imem_read (addr : Z) : M Z := gets (fun s => imem s addr).

Definition dsp_fetch_code : M Z :=
  p ← gets pc;
  opc ← dsp_imem_read p;
  modify (fun s => put_pc (pc s + 1) s);;
  mret opc.

Definition dsp_peek_code : M Z :=
  p ← gets pc;
  dsp_imem_read p.

Definition dsp_skip_inst : M unit :=
  opc ← dsp_peek_code;
  modify (fun s => put_pc (pc s + size (GetOpTemplate opc)) s).

Lemma imem_range s addr : wf s -> inu 16 (imem s addr).
Proof.
  intros Hs. assert (inu 16 0) by (unfold inu; lia). unfold imem.
  destruct (addr .>> 12) as [| p | p]; [apply mem_ok_mget; [lia | apply Hs] | | done].
  repeat (destruct p as [p | p |]; try done). apply mem_ok_mget; [lia | apply Hs].
Qed.
#[export] Hint Resolve imem_range : cint.

Lemma run_fetch s :
  dsp_fetch_code s = Done (imem s (pc s)) (put_pc (pc s + 1) s).
Proof. reflexivity. Qed.
Lemma run_peek s : dsp_peek_code s = Done (imem s (pc s)) s.
Proof. reflexivity. Qed.
Lemma run_skip s :
  dsp_skip_inst s = Done tt (put_pc (pc s + size (GetOpTemplate (imem s (pc s)))) s).
Proof. reflexivity. Qed.
#[export] Hint Rewrite run_fetch run_peek run_skip : run.

Lemma safe_fetch : safe dsp_fetch_code.
Proof. unfold dsp_fetch_code, dsp_imem_read. safe_auto. Qed.
Lemma safe_peek : safe dsp_peek_code.
Proof. unfold dsp_peek_code, dsp_imem_read. safe_auto. Qed.
Lemma safe_skip : safe dsp_skip_inst.
Proof. unfold dsp_skip_inst. pose proof safe_peek. safe_auto. Qed.
#[export] Hint Resolve safe_fetch safe_peek safe_skip : wf.

(** Every template is one or two words long. *)
Lemma s_opcodes_sizes : forallb (fun t => (size t =? 1) || (size t =? 2)) (cw :: s_opcodes) = true.
Proof. vm_compute. reflexivity. Qed.

Lemma GetOpTemplate_size inst : 1 <= size (GetOpTemplate inst) <= 2.
Proof.
  assert (Hin : In (GetOpTemplate inst) (cw :: s_opcodes)).
  { unfold GetOpTemplate, s_op_table, FindOpInfoByOpcode.
    destruct (FindByOpcode _ _ _ _) eqn:E; cbn; [right | left; done].
    apply FindByOpcode_some in E. apply E. }
  pose proof s_opcodes_sizes as H. rewrite forallb_forall in H. specialize (H _ Hin).
  apply orb_prop in H as [H | H]; apply Z.eqb_eq in H; lia.
Qed.

Lemma imem_unmapped s addr : 0x1000 <= addr < 0x8000 -> imem s addr = 0.
Proof.
  intros. unfold imem. rewrite Z.shiftr_div_pow2 by lia. change (2 ^ 12) with 0x1000.
  assert (1 <= addr / 0x1000 <= 7) as Hq by (Z.to_euclidean_division_equations; lia).
  assert (addr / 0x1000 = 1 \/ addr / 0x1000 = 2 \/ addr / 0x1000 = 3 \/ addr / 0x1000 = 4 \/
          addr / 0x1000 = 5 \/ addr / 0x1000 = 6 \/ addr / 0x1000 = 7) as Hc by lia.
  repeat destruct Hc as [-> | Hc]; [reflexivity .. | rewrite Hc; reflexivity].
Qed.
