(* ===== verification/DspAnalyzer.v ===== *)
(** The code analyzer ([Core/DSP/DSPAnalyzer.cpp]): a linear sweep that finds
    where instructions start, where hardware loops end and which instructions
    may raise exceptions, and a signature scan for idle loops.  The interpreter
    consults the flags it leaves in [code_flags]. The theorems show that the
    sweep terminates and characterise the flags. *)

From S2P Require Import Prelude DspState DspTables DspImem.
Open Scope Z_scope.

Definition CODE_START_OF_INST : Z := 1.
Definition CODE_IDLE_SKIP : Z := 2.
Definition CODE_LOOP_START : Z := 4.
Definition CODE_LOOP_END : Z := 8.
Definition CODE_UPDATE_SR : Z := 16.
Definition CODE_CHECK_INT : Z := 32.

Definition idle_skip_sigs : list (list Z) := [
  [0x26fc; 0x02c0; 0x8000; 0x029d; 0xFFFF; 0; 0];
  [0x27fc; 0x03c0; 0x8000; 0x029d; 0xFFFF; 0; 0];
  [0x26fe; 0x02c0; 0x8000; 0x029c; 0xFFFF; 0; 0];
  [0x27fe; 0x03c0; 0x8000; 0x029c; 0xFFFF; 0; 0];
  [0x26fc; 0x02a0; 0x8000; 0x029c; 0xFFFF; 0; 0];
  [0x27fc; 0x03a0; 0x8000; 0x029c; 0xFFFF; 0; 0];
  [0x00de; 0xFFFE; 0x02c0; 0x8000; 0x029c; 0xFFFF; 0];
  [0x00da; 0x0352; 0x8600; 0x0295; 0xFFFF; 0; 0]
].

(** [code_flags[addr] |= f] *)
Definition mark (addr f : Z) (s : SDSP) : SDSP :=
  set_code_flags (mset (code_flags s) addr (u8 (mget (code_flags s) addr .| f))) s.

Definition Reset : M unit := modify (set_code_flags ∅).

Definition is_bloop (inst : Z) : bool := (inst .& 0xffe0 =? 0x0060) || (inst .& 0xff00 =? 0x1100).
Definition is_loop (inst : Z) : bool := (inst .& 0xffe0 =? 0x0040) || (inst .& 0xff00 =? 0x1000).

(** The instructions after which the interpreter checks for exceptions. *)
Definition may_raise (t : DSPOPCTemplate) : bool :=
  (opcode t =? 0x00c0) || (opcode t =? 0x1800) || (opcode t =? 0x1880) ||
  (opcode t =? 0x1900) || (opcode t =? 0x1980) || (opcode t =? 0x2000) || extended t.

(** One iteration of the sweep: the next [addr] and [last_arithmetic].  Every
    cell of the opcode table is filled, so the source's test for a missing
    template never succeeds. *)
Definition analyze_instruction (addr last_arithmetic : Z) : M (Z * Z) :=
  inst ← dsp_imem_read addr;
  let t := GetOpTemplate inst in
  modify (mark addr CODE_START_OF_INST);;
  (if is_bloop inst then
     loop_end ← dsp_imem_read (u16 (addr + 1));
     modify (mark addr CODE_LOOP_START);;
     modify (mark loop_end CODE_LOOP_END)
   else
     when (is_loop inst)
       (modify (mark addr CODE_LOOP_START);;
        modify (mark (u16 (addr + 1)) CODE_LOOP_END)));;
  let last_arithmetic := if updates_sr t then addr else last_arithmetic in
  when (branch t && negb (uncond_branch t)) (modify (mark last_arithmetic CODE_UPDATE_SR));;
  when (may_raise t) (modify (mark (u16 (addr + size t)) CODE_CHECK_INT));;
  mret (u16 (addr + size t), last_arithmetic).

(** [for (addr = ...; addr < end_addr;)]; the result says whether the loop ran
    to its end within the fuel. *)
Fixpoint analyze_instructions (fuel : nat) (addr last_arithmetic end_addr : Z) : M bool :=
  if addr <? end_addr then
    match fuel with
    | O => mret false
    | S fuel =>
      next ← analyze_instruction addr last_arithmetic;
      analyze_instructions fuel (fst next) (snd next) end_addr
    end
  else mret true.

(** The inner loop of the scan over one signature, from its entry [i]. *)
Fixpoint sig_found (s : SDSP) (sig : list Z) (addr i : Z) (found : bool) : bool :=
  match sig with
  | [] => found
  | w :: sig' =>
    let found := if w =? 0 then true else found in
    if w =? 0xFFFF then sig_found s sig' addr (i + 1) found
    else if negb (w =? imem s (u16 (addr + i))) then found
    else sig_found s sig' addr (i + 1) found
  end.

(** [for (addr = ...; addr < end_addr; addr++)] for one signature. *)
Fixpoint scan_signature (sig : list Z) (n : nat) (addr : Z) : M unit :=
  match n with
  | O => mret tt
  | S n' =>
    found ← gets (fun s => sig_found s sig addr 0 false);
    when found (modify (mark addr CODE_IDLE_SKIP));;
    scan_signature sig n' (u16 (addr + 1))
  end.

Fixpoint scan_signatures (sigs : list (list Z)) (n : nat) (addr : Z) : M unit :=
  match sigs with
  | [] => mret tt
  | sig :: sigs' => scan_signature sig n addr;; scan_signatures sigs' n addr
  end.

Definition AnalyzeRange (start_addr end_addr : Z) : M unit :=
  analyze_instructions (Z.to_nat (end_addr - start_addr)) start_addr 0 end_addr;;
  scan_signatures idle_skip_sigs (Z.to_nat (end_addr - start_addr)) start_addr.

Definition Analyze : M unit :=
  Reset;;
  AnalyzeRange 0x0000 0x1000;;
  AnalyzeRange 0x8000 0x9000.

Definition GetCodeFlags (address : Z) (s : SDSP) : Z := mget (code_flags s) address.

(** ** Specification of the flags *)

(** The addresses the sweep of [start, fin) visits. *)
Inductive swept (s : SDSP) (start fin : Z) : Z -> Prop :=
  | swept_start : start < fin -> swept s start fin start
  | swept_next a :
      swept s start fin a -> a + size (GetOpTemplate (imem s a)) < fin ->
      swept s start fin (a + size (GetOpTemplate (imem s a))).

(** The address of the last instruction of the hardware loop that the
    instruction at [a] opens. *)
Definition loop_end_of (s : SDSP) (a : Z) : option Z :=
  let inst := imem s a in
  if is_bloop inst then Some (imem s (u16 (a + 1)))
  else if is_loop inst then Some (u16 (a + 1)) else None.

(** The words of a signature before its first zero match memory at [a]. *)
Fixpoint sig_prefix (sig : list Z) : list Z :=
  match sig with
  | [] => []
  | w :: sig' => if w =? 0 then [] else w :: sig_prefix sig'
  end.
Definition sig_at (s : SDSP) (sig : list Z) (a : Z) : Prop :=
  forall i w, sig_prefix sig !! i = Some w ->
    w = 0xFFFF \/ imem s (u16 (a + Z.of_nat i)) = w.

(** ** Preservation *)

Lemma wf_mark addr f s : wf s -> wf (mark addr f s).
Proof. intros H. wf_update H. Qed.
#[export] Hint Resolve wf_mark : wf.

Lemma imem_set_code_flags F s : imem (set_code_flags F s) = imem s.
Proof. reflexivity. Qed.

(** Two machines that differ in their flags only. *)
Definition same_code (s s' : SDSP) : Prop := s' = set_code_flags (code_flags s') s.

Lemma same_code_imem s s' : same_code s s' -> imem s' = imem s.
Proof. intros ->. apply imem_set_code_flags. Qed.

Lemma same_code_refl s : same_code s s.
Proof. destruct s. reflexivity. Qed.
Lemma same_code_mark s s' a f : same_code s s' -> same_code s (mark a f s').
Proof. unfold same_code, mark. intros ->. reflexivity. Qed.
Lemma same_code_trans s s' s'' : same_code s s' -> same_code s' s'' -> same_code s s''.
Proof. unfold same_code. intros E1 E2. rewrite E2, E1. reflexivity. Qed.
#[export] Hint Resolve same_code_refl same_code_mark : wf.

(** Bit [k] of the flags of [b]. *)
Definition flag_bit (s : SDSP) (b k : Z) : bool := Z.testbit (GetCodeFlags b s) k.

Lemma flag_bit_mark s a f b k :
  0 <= k < 8 -> flag_bit (mark a f s) b k = flag_bit s b k || ((b =? a) && Z.testbit f k).
Proof.
  intros Hk. unfold flag_bit, GetCodeFlags, mark. cbn [code_flags set_code_flags].
  destruct (Z.eqb_spec b a) as [-> | Hne].
  - rewrite mget_mset_same, testbit_wrapu, Z.lor_spec by lia.
    destruct (Z.ltb_spec k 8); [done | lia].
  - rewrite mget_mset_other by congruence. rewrite orb_false_r. done.
Qed.

(** [s'] is [s] with more flags: instruction starts at [starts], loop ends at
    [ends], idle loops at [idles]. *)
Record marked (s s' : SDSP) (starts ends idles : Z -> Prop) : Prop := {
  marked_code : same_code s s';
  marked_wf : wf s -> wf s';
  marked_starts b : flag_bit s' b 0 = true <-> flag_bit s b 0 = true \/ starts b;
  marked_idles b : flag_bit s' b 1 = true <-> flag_bit s b 1 = true \/ idles b;
  marked_ends b : flag_bit s' b 3 = true <-> flag_bit s b 3 = true \/ ends b
}.

Definition none (b : Z) : Prop := False.

Lemma marked_refl s : marked s s none none none.
Proof. constructor; auto using same_code_refl; unfold none; tauto. Qed.

Lemma marked_mark s a f :
  marked s (mark a f s) (fun b => b = a /\ Z.testbit f 0 = true)
    (fun b => b = a /\ Z.testbit f 3 = true) (fun b => b = a /\ Z.testbit f 1 = true).
Proof.
  constructor; [apply same_code_mark, same_code_refl | apply wf_mark | ..];
    intros b; rewrite flag_bit_mark by lia; rewrite orb_true_iff, andb_true_iff, Z.eqb_eq; done.
Qed.

Lemma marked_trans s s1 s2 A B C A' B' C' :
  marked s s1 A B C -> marked s1 s2 A' B' C' ->
  marked s s2 (fun b => A b \/ A' b) (fun b => B b \/ B' b) (fun b => C b \/ C' b).
Proof.
  intros [] []. constructor; [eapply same_code_trans; eassumption | auto | ..]; intros b.
  - rewrite marked_starts1, marked_starts0. tauto.
  - rewrite marked_idles1, marked_idles0. tauto.
  - rewrite marked_ends1, marked_ends0. tauto.
Qed.

Lemma marked_iff s s' A B C A' B' C' :
  marked s s' A B C -> (forall b, A b <-> A' b) -> (forall b, B b <-> B' b) ->
  (forall b, C b <-> C' b) -> marked s s' A' B' C'.
Proof.
  intros [] HA HB HC. constructor; [done | done | ..]; intros b;
    rewrite ?marked_starts0, ?marked_ends0, ?marked_idles0, ?HA, ?HB, ?HC; done.
Qed.

Lemma marked_when (b : bool) m s A B C :
  (exists s', m s = Done tt s' /\ marked s s' A B C) ->
  exists s', when b m s = Done tt s' /\
    marked s s' (fun x => b = true /\ A x) (fun x => b = true /\ B x) (fun x => b = true /\ C x).
Proof.
  intros (s' & E & Hm). destruct b.
  - exists s'. split; [done |]. eapply marked_iff; [exact Hm | ..]; intros; tauto.
  - exists s. split; [done |]. eapply marked_iff; [apply marked_refl | ..]; unfold none; split;
      intros; (tauto || (destruct H; congruence)).
Qed.

(** ** The sweep *)

Lemma run_loop_marks addr s :
  exists s', (if is_bloop (imem s addr) then
     loop_end ← dsp_imem_read (u16 (addr + 1));
     modify (mark addr CODE_LOOP_START);;
     modify (mark loop_end CODE_LOOP_END)
   else
     when (is_loop (imem s addr))
       (modify (mark addr CODE_LOOP_START);;
        modify (mark (u16 (addr + 1)) CODE_LOOP_END))) s = Done tt s' /\
   marked s s' none (fun b => loop_end_of s addr = Some b) none.
Proof.
  assert (Hpair : forall e, marked s (mark e CODE_LOOP_END (mark addr CODE_LOOP_START s))
                     none (fun b => Some e = Some b) none).
  { intros e. eapply marked_iff; [eapply marked_trans; apply marked_mark | ..]; unfold none;
      cbn; intros b; split; intros H; naive_solver. }
  unfold loop_end_of. destruct (is_bloop (imem s addr)); [eexists; split; [reflexivity |]; apply Hpair |].
  destruct (is_loop (imem s addr)); (eexists; split; [reflexivity |]); [apply Hpair |].
  eapply marked_iff; [apply marked_refl | ..]; unfold none; naive_solver.
Qed.

Lemma loop_end_of_same s s' a : same_code s s' -> loop_end_of s' a = loop_end_of s a.
Proof. intros H. unfold loop_end_of. rewrite (same_code_imem s s' H). done. Qed.

Lemma run_analyze_instruction addr last s :
  exists s' last',
    analyze_instruction addr last s =
      Done (u16 (addr + size (GetOpTemplate (imem s addr))), last') s' /\
    marked s s' (fun b => b = addr) (fun b => loop_end_of s addr = Some b) none.
Proof.
  unfold analyze_instruction, dsp_imem_read. run.
  set (t := GetOpTemplate (imem s addr)).
  set (s1 := mark addr CODE_START_OF_INST s).
  assert (M1 : marked s s1 (fun b => b = addr) none none).
  { eapply marked_iff; [apply marked_mark | ..]; unfold none; cbn; naive_solver. }
  destruct (run_loop_marks addr s1) as (s2 & E2 & M2).
  change (loop_end_of s1 addr) with (loop_end_of s addr) in M2.
  change (imem s1) with (imem s) in E2. unfold dsp_imem_read in E2.
  autorewrite with run in E2. rewrite E2.
  set (last' := if updates_sr t then addr else last).
  assert (Hm : forall f a s0, Z.testbit f 0 = false -> Z.testbit f 1 = false -> Z.testbit f 3 = false ->
            exists s', modify (mark a f) s0 = Done tt s' /\ marked s0 s' none none none).
  { intros f a s0 H0 H1 H3. eexists. split; [reflexivity |].
    eapply marked_iff; [apply marked_mark | ..]; unfold none; intros; rewrite ?H0, ?H1, ?H3; naive_solver. }
  destruct (marked_when (branch t && negb (uncond_branch t)) _ s2 _ _ _
              (Hm CODE_UPDATE_SR last' s2 eq_refl eq_refl eq_refl)) as (s3 & E3 & M3).
  destruct (marked_when (may_raise t) _ s3 _ _ _
              (Hm CODE_CHECK_INT (u16 (addr + size t)) s3 eq_refl eq_refl eq_refl)) as (s4 & E4 & M4).
  run. fold last'. unfold may_raise in *. autorewrite with run in E3, E4.
  rewrite E3. run. rewrite E4.
  exists s4, last'. split; [done |].
  eapply marked_iff;
    [exact (marked_trans _ _ _ _ _ _ _ _ _ (marked_trans _ _ _ _ _ _ _ _ _
              (marked_trans _ _ _ _ _ _ _ _ _ M1 M2) M3) M4) | ..]; clear; unfold none; intros b; tauto.
Qed.

Lemma swept_unfold s addr fin b :
  swept s addr fin b <->
  addr < fin /\ (b = addr \/ swept s (addr + size (GetOpTemplate (imem s addr))) fin b).
Proof.
  split.
  - induction 1 as [H | a _ [Hlt IH] Hfin].
    + auto.
    + split; [done |]. right. destruct IH as [-> | IH]; [apply swept_start; done |].
      apply swept_next; done.
  - intros [Hlt [-> | H]]; [apply swept_start; done |].
    induction H as [H | a _ IH Hfin].
    + apply swept_next; [apply swept_start; done | done].
    + apply swept_next; done.
Qed.

Lemma swept_imem s s' addr fin b : imem s' = imem s -> swept s' addr fin b -> swept s addr fin b.
Proof.
  intros E. induction 1 as [H | a H IH Hlt]; [apply swept_start; done |].
  rewrite E in *. apply swept_next; done.
Qed.

Lemma swept_same s s' addr fin b : same_code s s' -> swept s' addr fin b <-> swept s addr fin b.
Proof. intros E%same_code_imem. split; apply swept_imem; done. Qed.

Definition ends_of (s : SDSP) (addr fin b : Z) : Prop :=
  exists a, swept s addr fin a /\ loop_end_of s a = Some b.

Lemma ends_unfold s addr fin b :
  ends_of s addr fin b <->
  addr < fin /\ (loop_end_of s addr = Some b \/
                 ends_of s (addr + size (GetOpTemplate (imem s addr))) fin b).
Proof.
  unfold ends_of. split.
  - intros (a & Ha & E). apply swept_unfold in Ha as [Hlt [-> | Ha]]; eauto.
  - intros [Hlt [E | (a & Ha & E)]]; [exists addr | exists a]; rewrite swept_unfold; eauto.
Qed.

Lemma ends_same s s' addr fin b : same_code s s' -> ends_of s' addr fin b <-> ends_of s addr fin b.
Proof.
  intros E. unfold ends_of. split; intros (a & H & E'); exists a.
  - rewrite (swept_same s s') in H by done. rewrite (loop_end_of_same s s') in E' by done. done.
  - rewrite (swept_same s s'), (loop_end_of_same s s') by done. done.
Qed.

Lemma run_sweep fuel addr last fin s :
  0 <= addr -> fin <= 0xfffe -> fin - addr <= Z.of_nat fuel ->
  exists s', analyze_instructions fuel addr last fin s = Done true s' /\
    marked s s' (swept s addr fin) (ends_of s addr fin) none.
Proof.
  revert addr last s. induction fuel as [| fuel IH]; intros addr last s Ha Hf Hn.
  - cbn. destruct (Z.ltb_spec addr fin); [lia |]. exists s. split; [done |].
    eapply marked_iff; [apply marked_refl | ..]; unfold none; intros b;
      try (first [rewrite ends_unfold | rewrite swept_unfold]); lia || tauto.
  - cbn [analyze_instructions]. destruct (Z.ltb_spec addr fin).
    + destruct (run_analyze_instruction addr last s) as (s1 & last' & E1 & M1). run. rewrite E1.
      cbn [fst snd]. pose proof (GetOpTemplate_size (imem s addr)).
      rewrite wrapu_id by (unfold inu; lia).
      destruct (IH (addr + size (GetOpTemplate (imem s addr))) last' s1) as (s2 & E2 & M2); [lia .. |].
      exists s2. split; [done |]. pose proof (marked_code _ _ _ _ _ M1) as Hc.
      eapply marked_iff; [exact (marked_trans _ _ _ _ _ _ _ _ _ M1 M2) | ..]; intros b; cbv beta.
      * rewrite (swept_same s s1) by done. rewrite (swept_unfold s addr). tauto.
      * rewrite (ends_same s s1) by done. rewrite (ends_unfold s addr). tauto.
      * unfold none. tauto.
    + exists s. split; [done |].
      eapply marked_iff; [apply marked_refl | ..]; unfold none; intros b;
        try (first [rewrite ends_unfold | rewrite swept_unfold]); lia || tauto.
Qed.

(** ** The idle scan *)

Lemma sig_found_same s s' sig a i f : same_code s s' -> sig_found s' sig a i f = sig_found s sig a i f.
Proof.
  intros H. revert i f. induction sig as [| w sig IH]; intros i f; cbn; [done |].
  rewrite (same_code_imem s s') by done. rewrite !IH. done.
Qed.

Lemma run_scan_signature sig n addr s :
  0 <= addr -> addr + Z.of_nat n <= 0xffff ->
  exists s', scan_signature sig n addr s = Done tt s' /\
    marked s s' none none
      (fun b => addr <= b < addr + Z.of_nat n /\ sig_found s sig b 0 false = true).
Proof.
  revert addr s. induction n as [| n IH]; intros addr s Ha Hn.
  - exists s. split; [done |]. eapply marked_iff; [apply marked_refl | ..]; unfold none; intros; lia.
  - cbn [scan_signature]. run.
    set (s1 := if sig_found s sig addr 0 false then mark addr CODE_IDLE_SKIP s else s).
    assert (M1 : marked s s1 none none (fun b => b = addr /\ sig_found s sig addr 0 false = true)).
    { subst s1. destruct (sig_found s sig addr 0 false).
      - eapply marked_iff; [apply marked_mark | ..]; unfold none; cbn; intros; (tauto || lia || naive_solver).
      - eapply marked_iff; [apply marked_refl | ..]; unfold none; intros; (tauto || naive_solver). }
    destruct (IH (addr + 1) s1) as (s2 & E2 & M2); [lia | lia |].
    exists s2. split.
    + rewrite wrapu_id by (unfold inu; lia). subst s1. destruct (sig_found s sig addr 0 false); exact E2.
    + eapply marked_iff; [exact (marked_trans _ _ _ _ _ _ _ _ _ M1 M2) | ..]; unfold none;
        intros b; cbv beta; [tauto | tauto |].
      rewrite (sig_found_same s s1) by apply M1.
      split.
      * intros [[-> H] | [Hr H]]; (split; [lia | done]).
      * intros [Hr H]. destruct (decide (b = addr)) as [-> | Hne]; [left; done |].
        right. split; [lia | done].
Qed.

Lemma run_scan sigs n addr s :
  0 <= addr -> addr + Z.of_nat n <= 0xffff ->
  exists s', scan_signatures sigs n addr s = Done tt s' /\
    marked s s' none none
      (fun b => addr <= b < addr + Z.of_nat n /\
                exists sig, In sig sigs /\ sig_found s sig b 0 false = true).
Proof.
  intros Ha Hn. revert s. induction sigs as [| sig sigs IH]; intros s.
  - exists s. split; [done |]. eapply marked_iff; [apply marked_refl | ..]; unfold none; naive_solver.
  - cbn [scan_signatures]. destruct (run_scan_signature sig n addr s Ha Hn) as (s1 & E1 & M1).
    run. rewrite E1. destruct (IH s1) as (s2 & E2 & M2). exists s2. split; [done |].
    eapply marked_iff; [exact (marked_trans _ _ _ _ _ _ _ _ _ M1 M2) | ..]; unfold none;
      intros b; cbv beta; [tauto | tauto |].
    assert (Hs : forall sg, sig_found s1 sg b 0 false = sig_found s sg b 0 false)
      by (intros; apply sig_found_same, M1).
    setoid_rewrite Hs. cbn [In]. clear. naive_solver.
Qed.

(** The scan of one signature is the comparison with its prefix. *)
Lemma sig_found_true s sig a i : sig_found s sig a i true = true.
Proof.
  revert i. induction sig as [| w sig IH]; intros i; cbn; [done |].
  replace (if w =? 0 then true else true) with true by (destruct (w =? 0); done).
  destruct (w =? 0xFFFF); [apply IH |].
  destruct (negb (w =? imem s (u16 (a + i)))); [done | apply IH].
Qed.

Lemma sig_found_prefix s sig a i :
  In 0 sig ->
  sig_found s sig a i false = true <->
  forall j w, sig_prefix sig !! j = Some w -> w = 0xFFFF \/ imem s (u16 (a + (i + Z.of_nat j))) = w.
Proof.
  revert i. induction sig as [| w sig IH]; intros i Hin; [done |]. cbn.
  destruct (Z.eqb_spec w 0) as [-> | Hw].
  - cbn. rewrite sig_found_true. split; [intros _ j w' E'; rewrite lookup_nil in E'; done |].
    intros _. repeat case_match; done.
  - destruct Hin as [E0 | Hin]; [congruence |]. specialize (IH (i + 1) Hin).
    assert (Hj : forall j, i + 1 + Z.of_nat j = i + Z.of_nat (S j)) by (intros; lia).
    setoid_rewrite Hj in IH.
    destruct (Z.eqb_spec w 0xFFFF) as [-> | Hf]; [| destruct (Z.eqb_spec w (imem s (u16 (a + i)))) as [E | E]; cbn].
    + rewrite IH. split.
      * intros H [| j] w' E'; [left; injection E'; congruence | apply H, E'].
      * intros H j w' E'. apply (H (S j)), E'.
    + rewrite IH. split.
      * intros H [| j] w' E'; [right; rewrite Z.add_0_r; injection E'; congruence | apply H, E'].
      * intros H j w' E'. apply (H (S j)), E'.
    + split; [done |]. intros H. specialize (H 0%nat w eq_refl).
      rewrite Z.add_0_r in H. naive_solver.
Qed.

Lemma idle_skip_sigs_end sig : In sig idle_skip_sigs -> In 0 sig.
Proof. intros H. repeat (destruct H as [<- | H]; [cbn; tauto |]). done. Qed.

Definition idle_at (s : SDSP) (b : Z) : Prop := exists sig, In sig idle_skip_sigs /\ sig_at s sig b.

Lemma run_AnalyzeRange a fin s :
  0 <= a <= fin -> fin <= 0xfffe ->
  exists s', AnalyzeRange a fin s = Done tt s' /\
    marked s s' (swept s a fin) (ends_of s a fin) (fun b => a <= b < fin /\ idle_at s b).
Proof.
  intros Ha Hf. unfold AnalyzeRange.
  destruct (run_sweep (Z.to_nat (fin - a)) a 0 fin s) as (s1 & E1 & M1); [lia .. |].
  destruct (run_scan idle_skip_sigs (Z.to_nat (fin - a)) a s1) as (s2 & E2 & M2); [lia .. |].
  run. rewrite E1, E2. exists s2. split; [done |].
  eapply marked_iff; [exact (marked_trans _ _ _ _ _ _ _ _ _ M1 M2) | ..]; unfold none;
    intros b; cbv beta; [tauto | tauto |].
  rewrite Z2Nat.id by lia. replace (a + (fin - a)) with fin by lia. unfold idle_at, sig_at.
  split.
  - intros [[] | [Hr (sig & Hin & Hs)]]. split; [done |]. exists sig. split; [done |].
    pose proof (proj1 (sig_found_prefix s1 sig b 0 (idle_skip_sigs_end sig Hin)) Hs) as Hs'.
    rewrite (same_code_imem s s1) in Hs' by apply M1. exact Hs'.
  - intros [Hr (sig & Hin & Hs)]. right. split; [done |]. exists sig. split; [done |].
    apply (proj2 (sig_found_prefix s1 sig b 0 (idle_skip_sigs_end sig Hin))).
    rewrite (same_code_imem s s1) by apply M1. done.
Qed.

Lemma run_Analyze s :
  exists s', Analyze s = Done tt s' /\
    marked (set_code_flags ∅ s) s'
      (fun b => swept s 0 0x1000 b \/ swept s 0x8000 0x9000 b)
      (fun b => ends_of s 0 0x1000 b \/ ends_of s 0x8000 0x9000 b)
      (fun b => (0 <= b < 0x1000 \/ 0x8000 <= b < 0x9000) /\ idle_at s b).
Proof.
  unfold Analyze, Reset.
  destruct (run_AnalyzeRange 0 0x1000 (set_code_flags ∅ s)) as (s1 & E1 & M1); [lia .. |].
  destruct (run_AnalyzeRange 0x8000 0x9000 s1) as (s2 & E2 & M2); [lia .. |].
  run. rewrite E1, E2. exists s2. split; [done |].
  assert (Hc : same_code s s1) by (pose proof (marked_code _ _ _ _ _ M1) as H; rewrite H; reflexivity).
  assert (Hi : forall b, idle_at s1 b <-> idle_at s b).
  { intros b. unfold idle_at, sig_at. rewrite (same_code_imem s s1) by done. done. }
  eapply marked_iff; [exact (marked_trans _ _ _ _ _ _ _ _ _ M1 M2) | ..]; intros b; cbv beta.
  - rewrite (swept_same s s1), (swept_same s (set_code_flags ∅ s)) by done. done.
  - rewrite (ends_same s s1), (ends_same s (set_code_flags ∅ s)) by done. done.
  - rewrite Hi. change (idle_at (set_code_flags ∅ s) b) with (idle_at s b). tauto.
Qed.

Lemma safe_Analyze : safe Analyze.
Proof.
  intros s Hs. destruct (run_Analyze s) as (s' & E & Hm). exists tt, s'. split; [done |].
  apply (marked_wf _ _ _ _ _ Hm). destruct Hs; constructor; cbn; try assumption. intros a v H. done.
Qed.
#[export] Hint Resolve safe_Analyze : wf.

(** ** Properties *)

Lemma flag_bit_empty s b k : flag_bit (set_code_flags ∅ s) b k = false.
Proof. unfold flag_bit, GetCodeFlags, mget. cbn. rewrite lookup_empty. apply Z.testbit_0_l. Qed.

(** The analyzer terminates on every program and its flags mean what the
    interpreter takes them to mean. [Analyze] touches nothing but [code_flags];
    afterwards an address is marked as the start of an instruction exactly when
    the linear sweep of IRAM or of IROM visits it, as a loop end exactly when it
    is the last instruction of a LOOP, LOOPI, BLOOP or BLOOPI the sweep visits,
    and as an idle loop exactly when one of the signatures matches memory there. *)
Theorem analyze_correct s :
  exists s', Analyze s = Done tt s' /\ same_code s s' /\
    forall b,
      (flag (GetCodeFlags b s') CODE_START_OF_INST = true <->
         swept s 0 0x1000 b \/ swept s 0x8000 0x9000 b) /\
      (flag (GetCodeFlags b s') CODE_LOOP_END = true <->
         exists a, (swept s 0 0x1000 a \/ swept s 0x8000 0x9000 a) /\ loop_end_of s a = Some b) /\
      (flag (GetCodeFlags b s') CODE_IDLE_SKIP = true <->
         (0 <= b < 0x1000 \/ 0x8000 <= b < 0x9000) /\
         exists sig, In sig idle_skip_sigs /\ sig_at s sig b).
Proof.
  destruct (run_Analyze s) as (s' & E & Hm). exists s'. split; [done |].
  destruct Hm as [Hc _ Hstart Hidle Hend]. split; [rewrite Hc; reflexivity |]. intros b.
  change CODE_START_OF_INST with (2 ^ 0). change CODE_LOOP_END with (2 ^ 3).
  change CODE_IDLE_SKIP with (2 ^ 1). rewrite !flag_testbit by lia.
  specialize (Hstart b). specialize (Hidle b). specialize (Hend b).
  rewrite flag_bit_empty in Hstart, Hidle, Hend. unfold flag_bit in *.
  rewrite Hstart, Hidle, Hend. unfold ends_of, idle_at. clear.
  assert (F : forall P : Prop, (false = true \/ P) <-> P) by (intros; split; [intros [?|?] | right]; done).
  rewrite !F. split_and!; [done | | done]. split.
  - intros [(a & ? & ?) | (a & ? & ?)]; eauto.
  - intros (a & [?|?] & ?); eauto.
Qed.
