(* ===== verification/DspCore.v ===== *)
(** The control of the DSP core ([Core/DSP/DSPCore.cpp]): status register
    flags, reset, pending exceptions and their delivery, and the register
    access the debugger and the host use.  The theorem on [CheckExceptions]
    says which exception is taken and what the machine is afterwards. *)

From S2P Require Import Prelude DspState DspTables DspStacks DspImem DspAnalyzer.
Open Scope Z_scope.

(** ** Status register flags ([Interpreter/DSPIntUtil.h]) *)

Definition dsp_SR_set_flag (f : Z) : M unit :=
  upd_regs (fun g => put_sr (r_sr g .| f) g).
Definition dsp_SR_is_flag_set (f : Z) : M bool := gets (fun s => flag (r_sr (r s)) f).

(** ** Reset and exceptions *)

Definition DSPCore_Reset : M unit :=
  modify (put_pc DSP_RESET_VECTOR);;
  upd_regs (set_r_wr [0xffff; 0xffff; 0xffff; 0xffff]);;
  Analyze.

Definition raise (e : ExceptionType) (s : SDSP) : SDSP :=
  put_exceptions (exceptions s .| (1 .<< exception_number e)) s.
Definition DSPCore_SetException (e : ExceptionType) : M unit := modify (raise e).

Definition DSPCore_SetExternalInterrupt (val : bool) : M unit :=
  modify (set_external_interrupt_waiting val).

Definition DSPCore_CheckExternalInterrupt : M unit :=
  enabled ← dsp_SR_is_flag_set SR_EXT_INT_ENABLE;
  if negb enabled then mret tt
  else
    DSPCore_SetException ExternalInterrupt;;
    modify (fun s => put_cr (cr s .& .~ CR_EXTERNAL_INT) s).

(** The loop of [DSPCore_CheckExceptions] over the numbers still to try. *)
Fixpoint check_exceptions_from (l : list Z) : M unit :=
  match l with
  | [] => mret tt
  | i :: l' =>
    pending ← gets exceptions;
    if flag pending (1 .<< i) then
      enabled ← dsp_SR_is_flag_set SR_INT_ENABLE;
      if enabled || (i =? exception_number ExternalInterrupt) then
        p ← gets pc;
        dsp_reg_store_stack Call p;;
        sr ← gets (fun s => r_sr (r s));
        dsp_reg_store_stack Data sr;;
        modify (put_pc (i * 2));;
        modify (fun s => put_exceptions (exceptions s .& .~ (1 .<< i)) s);;
        if i =? 7 then upd_regs (fun g => put_sr (r_sr g .& .~ SR_EXT_INT_ENABLE) g)
        else upd_regs (fun g => put_sr (r_sr g .& .~ SR_INT_ENABLE) g)
      else check_exceptions_from l'
    else check_exceptions_from l'
  end.

Definition DSPCore_CheckExceptions : M unit :=
  pending ← gets exceptions;
  if pending =? 0 then mret tt else check_exceptions_from [7; 6; 5; 4; 3; 2; 1].

(** ** Registers by number *)

(** [base <= reg <= base + n - 1] *)
Definition among (reg base n : Z) : bool := (base <=? reg) && (reg <? base + n).

Definition read_register (reg : Z) (g : DSP_Regs) : Z :=
  if among reg DSP_REG_AR0 4 then zget (r_ar g) (reg - DSP_REG_AR0)
  else if among reg DSP_REG_IX0 4 then zget (r_ix g) (reg - DSP_REG_IX0)
  else if among reg DSP_REG_WR0 4 then zget (r_wr g) (reg - DSP_REG_WR0)
  else if among reg DSP_REG_ST0 4 then zget (r_st g) (reg - DSP_REG_ST0)
  else if among reg DSP_REG_ACH0 2 then ac_h g (reg - DSP_REG_ACH0)
  else if reg =? DSP_REG_CR then r_cr g
  else if reg =? DSP_REG_SR then r_sr g
  else if reg =? DSP_REG_PRODL then prod_l g
  else if reg =? DSP_REG_PRODM then prod_m g
  else if reg =? DSP_REG_PRODH then prod_h g
  else if reg =? DSP_REG_PRODM2 then prod_m2 g
  else if among reg DSP_REG_AXL0 2 then ax_l g (reg - DSP_REG_AXL0)
  else if among reg DSP_REG_AXH0 2 then ax_h g (reg - DSP_REG_AXH0)
  else if among reg DSP_REG_ACL0 2 then ac_l g (reg - DSP_REG_ACL0)
  else if among reg DSP_REG_ACM0 2 then ac_m g (reg - DSP_REG_ACM0)
  else 0.

Definition write_register (reg val : Z) (g : DSP_Regs) : DSP_Regs :=
  if among reg DSP_REG_AR0 4 then put_ar (reg - DSP_REG_AR0) val g
  else if among reg DSP_REG_IX0 4 then put_ix (reg - DSP_REG_IX0) val g
  else if among reg DSP_REG_WR0 4 then put_wr (reg - DSP_REG_WR0) val g
  else if among reg DSP_REG_ST0 4 then put_st (reg - DSP_REG_ST0) val g
  else if among reg DSP_REG_ACH0 2 then put_ac_fld (reg - DSP_REG_ACH0) 32 val g
  else if reg =? DSP_REG_CR then put_rcr val g
  else if reg =? DSP_REG_SR then put_sr val g
  else if reg =? DSP_REG_PRODL then put_prod_fld 0 val g
  else if reg =? DSP_REG_PRODM then put_prod_fld 16 val g
  else if reg =? DSP_REG_PRODH then put_prod_fld 32 val g
  else if reg =? DSP_REG_PRODM2 then put_prod_fld 48 val g
  else if among reg DSP_REG_AXL0 2 then put_ax_fld (reg - DSP_REG_AXL0) 0 val g
  else if among reg DSP_REG_AXH0 2 then put_ax_fld (reg - DSP_REG_AXH0) 16 val g
  else if among reg DSP_REG_ACL0 2 then put_ac_fld (reg - DSP_REG_ACL0) 0 val g
  else if among reg DSP_REG_ACM0 2 then put_ac_fld (reg - DSP_REG_ACM0) 16 val g
  else g.

Definition DSPCore_ReadRegister (reg : Z) : M Z := gets (fun s => read_register reg (r s)).
Definition DSPCore_WriteRegister (reg val : Z) : M unit := upd_regs (write_register reg val).

(** ** Preservation *)

Lemma safe_SR_set_flag f : safe (dsp_SR_set_flag f).
Proof. unfold dsp_SR_set_flag. safe_auto. Qed.
Lemma safe_SR_is_flag_set f : safe (dsp_SR_is_flag_set f).
Proof. unfold dsp_SR_is_flag_set. safe_auto. Qed.
#[export] Hint Resolve safe_SR_set_flag safe_SR_is_flag_set : wf.

Lemma safe_Reset : safe DSPCore_Reset.
Proof.
  unfold DSPCore_Reset. safe_auto.
  match goal with H : wf_regs _ |- _ => destruct H end. constructor; cbn; try assumption.
  split; [done |]. repeat constructor; unfold inu; lia.
Qed.
Lemma safe_SetException e : safe (DSPCore_SetException e).
Proof. unfold DSPCore_SetException, raise. safe_auto. Qed.
#[export] Hint Resolve safe_Reset safe_SetException : wf.

Lemma safe_CheckExternalInterrupt : safe DSPCore_CheckExternalInterrupt.
Proof. unfold DSPCore_CheckExternalInterrupt. safe_auto. Qed.

Lemma safe_check_exceptions_from l : safe (check_exceptions_from l).
Proof. induction l as [| i l IH]; cbn [check_exceptions_from]; safe_auto. Qed.
#[export] Hint Resolve safe_CheckExternalInterrupt safe_check_exceptions_from : wf.

Lemma safe_CheckExceptions : safe DSPCore_CheckExceptions.
Proof. unfold DSPCore_CheckExceptions. safe_auto. Qed.

Lemma wf_write_register reg v g : wf_regs g -> wf_regs (write_register reg v g).
Proof. intros H. unfold write_register. repeat case_match; eauto with wf. Qed.
#[export] Hint Resolve safe_CheckExceptions wf_write_register : wf.

(** ** Properties *)

(** Exception [i] is pending and not masked. *)
Definition deliverable (s : SDSP) (i : Z) : bool :=
  Z.testbit (exceptions s) i && (flag (r_sr (r s)) SR_INT_ENABLE || (i =? 7)).

(** The machine after the delivery of exception [i]. *)
Definition delivered (i : Z) (s : SDSP) : SDSP :=
  let mask := if i =? 7 then SR_EXT_INT_ENABLE else SR_INT_ENABLE in
  upd_r (fun g => put_sr (r_sr g .& .~ mask) g)
    (put_exceptions (exceptions s .& .~ (1 .<< i))
      (put_pc (i * 2)
        (pushed (stack_index Data) (r_sr (r s)) (pushed (stack_index Call) (pc s) s)))).

Lemma run_check_exceptions_from l s :
  wf s -> Forall (fun i => 0 <= i) l ->
  check_exceptions_from l s =
    Done tt (match List.find (deliverable s) l with Some i => delivered i s | None => s end).
Proof.
  intros Hs Hl. induction Hl as [| i l Hi Hl IH]; [done |].
  cbn [check_exceptions_from List.find]. unfold dsp_SR_is_flag_set. run. unfold deliverable at 1.
  rewrite Z.shiftl_1_l, flag_testbit by done. cbn [exception_number].
  destruct (Z.testbit (exceptions s) i); cbn [andb]; [| exact IH].
  destruct (flag (r_sr (r s)) SR_INT_ENABLE || (i =? 7)) eqn:E; [| exact IH].
  rewrite run_store by done. run. rewrite run_store by auto with wf. run.
  unfold delivered. rewrite Z.shiftl_1_l. destruct (i =? 7); reflexivity.
Qed.

(** Exceptions are delivered highest number first, all but the external
    interrupt masked by [SR_INT_ENABLE].  When none is deliverable the machine
    does not change; otherwise exactly one is: the program counter becomes its
    vector, its pending bit alone is cleared, the old program counter and status
    register are on top of the call and data stacks, and the enable bit that
    masks a second delivery of the same kind is cleared. *)
Theorem check_exceptions_spec s :
  wf s ->
  exists s', DSPCore_CheckExceptions s = Done tt s' /\
  ((forall i, 1 <= i <= 7 -> deliverable s i = false) /\ s' = s \/
   exists i, 1 <= i <= 7 /\ deliverable s i = true /\
     (forall j, i < j <= 7 -> deliverable s j = false) /\
     pc s' = 2 * i /\
     (forall j, 0 <= j < 8 -> Z.testbit (exceptions s') j = Z.testbit (exceptions s) j && negb (j =? i)) /\
     contents s' Call 1 = pc s :: contents s Call 0 /\
     contents s' Data 1 = r_sr (r s) :: contents s Data 0 /\
     r_sr (r s') = r_sr (r s) .& .~ (if i =? 7 then SR_EXT_INT_ENABLE else SR_INT_ENABLE)).
Proof.
  intros Hs. unfold DSPCore_CheckExceptions. run.
  destruct (Z.eqb_spec (exceptions s) 0) as [E | _].
  { exists s. split; [done | left]. split; [| done]. intros i _. unfold deliverable.
    rewrite E, Z.testbit_0_l. done. }
  rewrite run_check_exceptions_from by (done || (repeat constructor; lia)).
  eexists. split; [reflexivity |].
  destruct (List.find (deliverable s) [7; 6; 5; 4; 3; 2; 1]) as [i |] eqn:F.
  - right. exists i. pose proof (find_some _ _ F) as [Hin Hd].
    assert (Hi : 1 <= i <= 7) by (cbn in Hin; lia).
    split_and!; try lia; [done | | | | | |].
    + cbn in F. intros j Hj.
      assert (Hc : j = 2 \/ j = 3 \/ j = 4 \/ j = 5 \/ j = 6 \/ j = 7) by lia.
      repeat match type of F with context [if ?b then _ else _] => destruct b eqn:?; [injection F as <-; destruct_or! Hc; subst; (done || lia) |] end.
      done.
    + cbn. rewrite wrapu_id by (unfold inu; lia). lia.
    + intros j Hj. cbn. rewrite testbit_wrapu, Z.land_spec, testbit_lnot', Z.shiftl_1_l by lia.
      rewrite Z.pow2_bits_eqb by lia. rewrite Z.eqb_sym. split_cmps. cbn. done.
    + change (contents (pushed (stack_index Data) (r_sr (r s)) (pushed (stack_index Call) (pc s) s)) Call 1 = pc s :: contents s Call 0).
      destruct (contents_other (pushed (stack_index Call) (pc s) s) Data Call (r_sr (r s)) 1) as [-> _];
        [auto with wf | done |].
      rewrite contents_pushed by (done || lia). rewrite wrapu_id by apply Hs. done.
    + change (contents (pushed (stack_index Data) (r_sr (r s)) (pushed (stack_index Call) (pc s) s)) Data 1 = r_sr (r s) :: contents s Data 0).
      rewrite contents_pushed by (auto with wf || lia). rewrite wrapu_id by apply Hs. f_equal.
      destruct (contents_other s Call Data (pc s) 0) as [-> _]; [done | done | done].
    + cbn. rewrite wrapu_id; [done |]. apply inu_testbit; [lia |]. intros b Hb.
      rewrite Z.land_spec, (testbit_inu_high 16 (r_sr (r s))) by (lia || apply Hs). done.
  - left. split; [| done]. intros i Hi. apply (find_none _ _ F). cbn. lia.
Qed.

Lemma check_exceptions_spec_witness :
  wf (set_exceptions 0x80 dsp0) /\
  exists s', DSPCore_CheckExceptions (set_exceptions 0x80 dsp0) = Done tt s'.
Proof.
  assert (H : wf (set_exceptions 0x80 dsp0)) by exact (wf_put_exceptions 0x80 dsp0 wf_dsp0).
  split; [exact H |]. destruct (check_exceptions_spec _ H) as (s' & E & _). exists s'. exact E.
Defined.
