(* ===== verification/DspAccel.v ===== *)
(** The audio accelerator ([Core/DSP/DSPAccelerator.cpp]): a sample reader with
    its own address registers and an ADPCM decoder.  Its three virtual methods
    are a type class, so the theorems about addresses, the decoder and the end
    of a buffer hold for every memory behind it; the instance of the DSP core
    ([LLEAccelerator] in DSPCore.cpp) reads and writes the auxiliary RAM and raises an
    exception. *)

From S2P Require Import Prelude DspState DspTables DspStacks DspImem DspAnalyzer DspCore.
Open Scope Z_scope.

Definition START_END_ADDRESS_MASK : Z := 0x3fffffff.
Definition CURRENT_ADDRESS_MASK : Z := 0xbfffffff.

(** ** Setters *)

Definition SetStartAddress (address : Z) (a : Accelerator) : Accelerator :=
  set_m_start_address (address .& START_END_ADDRESS_MASK) a.
Definition SetEndAddress (address : Z) (a : Accelerator) : Accelerator :=
  set_m_end_address (address .& START_END_ADDRESS_MASK) a.
Definition SetCurrentAddress (address : Z) (a : Accelerator) : Accelerator :=
  set_m_current_address (address .& CURRENT_ADDRESS_MASK) a.
Definition SetSampleFormat (format : Z) (a : Accelerator) : Accelerator :=
  set_m_sample_format (u16 format) a.
Definition SetYn1 (yn1 : Z) (a : Accelerator) : Accelerator := set_m_yn1 (s16 yn1) a.
Definition SetYn2 (yn2 : Z) (a : Accelerator) : Accelerator :=
  set_m_reads_stopped false (set_m_yn2 (s16 yn2) a).
Definition SetPredScale (pred_scale : Z) (a : Accelerator) : Accelerator :=
  set_m_pred_scale (pred_scale .& 0x7f) a.

(** [MathUtil::Clamp] *)
Definition Clamp (val min max : Z) : Z := Z.max min (Z.min max val).

(** ** The virtual methods *)

Class AcceleratorHost (E : Type) := {
  ReadMemory : Z -> E -> Z;
  WriteMemory : Z -> Z -> E -> E;
  OnEndException : E -> E;
  ReadMemory_u8 : E -> Prop;
  ReadMemory_range addr e : ReadMemory_u8 e -> inu 8 (ReadMemory addr e)
}.

Section Accelerator.
Context {E : Type} `{AcceleratorHost E}.

(** [m_current_address++] and the like *)
Definition advance (n : Z) (a : Accelerator) : Accelerator :=
  set_m_current_address (u32 (m_current_address a + n)) a.

(** A big-endian 16-bit sample at [2 * address]. *)
Definition read_be16 (address : Z) (e : E) : Z :=
  (ReadMemory (u32 (address * 2)) e .<< 8) .| ReadMemory (u32 (u32 (address * 2) + 1)) e.

Definition ReadD3 (a : Accelerator) (e : E) : Z * Accelerator :=
  let '(val, a1) :=
    match m_sample_format a with
    | 0x5 => (ReadMemory (m_current_address a) e, advance 1 a)
    | 0x6 => (read_be16 (m_current_address a) e, advance 1 a)
    | _ => (0, a)
    end in
  let a2 := if m_end_address a1 <=? m_current_address a1
            then set_m_current_address (m_start_address a1) a1 else a1 in
  (u16 val, a2).

Definition WriteD3 (value : Z) (a : Accelerator) (e : E) : Accelerator * E :=
  match m_sample_format a with
  | 0xA =>
    let e1 := WriteMemory (u32 (m_current_address a * 2)) (u8 (value .>> 8)) e in
    let e2 := WriteMemory (u32 (u32 (m_current_address a * 2) + 1)) (value .& 0xFF) e1 in
    (advance 1 a, e2)
  | _ => (a, e)
  end.

(** The nibble of an ADPCM sample, sign extended. *)
Definition adpcm_nibble (a : Accelerator) (e : E) : Z :=
  let byte := ReadMemory (m_current_address a .>> 1) e in
  let temp := if negb (m_current_address a .& 1 =? 0) then byte .& 0xF else byte .>> 4 in
  if 8 <=? temp then temp - 16 else temp.

(** The decoded sample before it is clamped. *)
Definition adpcm_val32 (coefs : Z -> Z) (a : Accelerator) (e : E) : Z :=
  let scale := 1 .<< (m_pred_scale a .& 0xF) in
  let coef_idx := (m_pred_scale a .>> 4) .& 0x7 in
  let coef1 := coefs (coef_idx * 2 + 0) in
  let coef2 := coefs (coef_idx * 2 + 1) in
  s32 (scale * adpcm_nibble a e +
       (s32 (0x400 + coef1 * m_yn1 a + coef2 * m_yn2 a) .>> 11)).

(** The address and predictor update after an ADPCM sample, with
    [step_size_bytes]. *)
Definition adpcm_advance (a : Accelerator) (e : E) : Accelerator * Z :=
  let a1 := advance 1 a in
  if (m_end_address a1 .& 0xf =? 0) && (m_current_address a1 =? m_end_address a1) then
    (set_m_current_address (u32 (m_start_address a1 + 1)) a1, 2)
  else if (m_end_address a1 .& 0xf =? 1) &&
          (m_current_address a1 =? u32 (m_end_address a1 - 1)) then
    (set_m_current_address (m_start_address a1) a1, 2)
  else if m_current_address a1 .& 15 =? 0 then
    let a2 := set_m_pred_scale (ReadMemory (u32 (m_current_address a1 .& .~ 15) .>> 1) e) a1 in
    (advance 2 a2, 4)
  else (a1, 2).

(** [m_yn2 = m_yn1; m_yn1 = val;] *)
Definition shift_history (val : Z) (a : Accelerator) : Accelerator :=
  set_m_yn1 (s16 val) (set_m_yn2 (m_yn1 a) a).

(** The switch of [Read]: the sample, the accelerator and [step_size_bytes]. *)
Definition read_sample (coefs : Z -> Z) (a : Accelerator) (e : E) : Z * Accelerator * Z :=
  match m_sample_format a with
  | 0x00 =>
    let val := u16 (s16 (Clamp (adpcm_val32 coefs a e) (-0x7FFF) 0x7FFF)) in
    let '(a', step) := adpcm_advance (shift_history val a) e in
    (val, a', step)
  | 0x0A =>
    let val := u16 (read_be16 (m_current_address a) e) in
    (val, advance 1 (shift_history val a), 2)
  | 0x19 =>
    let val := u16 (ReadMemory (m_current_address a) e .<< 8) in
    (val, advance 1 (shift_history val a), 2)
  | _ => (0, advance 1 a, 2)
  end.

Definition Read (coefs : Z -> Z) (a : Accelerator) (e : E) : Z * Accelerator * E :=
  if m_reads_stopped a then (0x0000, a, e)
  else
    let '(val, a1, step_size_bytes) := read_sample coefs a e in
    let '(a2, e2) :=
      if m_current_address a1 =? u32 (m_end_address a1 + step_size_bytes - 1) then
        (set_m_reads_stopped true (set_m_current_address (m_start_address a1) a1),
         OnEndException e)
      else (a1, e) in
    (val, SetCurrentAddress (m_current_address a2) a2, e2).
End Accelerator.

(** ** The accelerator of the DSP core *)

(** Auxiliary RAM of the GameCube ([Core/HW/DSP.cpp]); its size is a power of
    two and every address is masked. *)
Definition ARAM_MASK : Z := 0x00FFFFFF.
Definition ReadARAM (address : Z) (s : SDSP) : Z := mget (aram s) (address .& ARAM_MASK).
Definition WriteARAM (value address : Z) (s : SDSP) : SDSP :=
  set_aram (mset (aram s) (address .& ARAM_MASK) (u8 value)) s.
Definition ReadHostMemory (addr : Z) (s : SDSP) : Z := ReadARAM addr s.
Definition WriteHostMemory (value addr : Z) (s : SDSP) : SDSP := WriteARAM value addr s.

#[export] Program Instance LLEAccelerator : AcceleratorHost SDSP := {
  ReadMemory := ReadHostMemory;
  WriteMemory address value s := WriteHostMemory value address s;
  OnEndException := raise AcceleratorOverflow;
  ReadMemory_u8 s := mem_ok 8 (aram s)
}.
Next Obligation. intros. apply mem_ok_mget; [lia | done]. Qed.

(** ** Ranges *)

Lemma Clamp_range v min max : min <= max -> min <= Clamp v min max <= max.
Proof. unfold Clamp. lia. Qed.

Lemma inu_land_r w a b : 0 <= w -> inu w b -> inu w (a .& b).
Proof. intros. rewrite Z.land_comm. apply inu_land_l; done. Qed.

Lemma inu_weaken w w' a : 0 <= w <= w' -> inu w a -> inu w' a.
Proof. unfold inu. intros Hw Ha. pose proof (Z.pow_le_mono_r 2 w w'). lia. Qed.

Lemma land_mask30 a : a .& START_END_ADDRESS_MASK = wrapu 30 a.
Proof. unfold START_END_ADDRESS_MASK. change 0x3fffffff with (Z.ones 30). apply Z.land_ones. lia. Qed.

Lemma land_mask_current a : inu 30 a -> a .& CURRENT_ADDRESS_MASK = a.
Proof.
  intros Ha. apply Z.bits_inj'. intros i Hi. rewrite Z.land_spec.
  destruct (Z.ltb_spec i 30).
  - replace (Z.testbit CURRENT_ADDRESS_MASK i) with true; [apply andb_true_r |].
    change CURRENT_ADDRESS_MASK with (Z.lor (Z.ones 30) 0x80000000).
    rewrite Z.lor_spec, Z.testbit_ones_nonneg by lia. destruct (Z.ltb_spec i 30); [done | lia].
  - rewrite (testbit_inu_high 30 a) by (lia || done). done.
Qed.

Lemma wf_SetStartAddress v a : wf_accel a -> wf_accel (SetStartAddress v a).
Proof. intros H. destruct H; constructor; cbn; try assumption. rewrite land_mask30. range. Qed.
Lemma wf_SetEndAddress v a : wf_accel a -> wf_accel (SetEndAddress v a).
Proof. intros H. destruct H; constructor; cbn; try assumption. rewrite land_mask30. range. Qed.
Lemma wf_SetCurrentAddress v a : wf_accel a -> wf_accel (SetCurrentAddress v a).
Proof.
  intros H. destruct H; constructor; cbn; try assumption. apply inu_land_r; [lia |].
  unfold inu, CURRENT_ADDRESS_MASK. lia.
Qed.
Lemma wf_SetSampleFormat v a : wf_accel a -> wf_accel (SetSampleFormat v a).
Proof. intros H. wf_update H. Qed.
Lemma wf_SetYn1 v a : wf_accel a -> wf_accel (SetYn1 v a).
Proof. intros H. wf_update H. Qed.
Lemma wf_SetYn2 v a : wf_accel a -> wf_accel (SetYn2 v a).
Proof. intros H. wf_update H. Qed.
Lemma wf_SetPredScale v a : wf_accel a -> wf_accel (SetPredScale v a).
Proof.
  intros H. destruct H; constructor; cbn; try assumption. apply inu_land_r; [lia |]. unfold inu. lia.
Qed.
#[export] Hint Resolve wf_SetStartAddress wf_SetEndAddress wf_SetCurrentAddress
  wf_SetSampleFormat wf_SetYn1 wf_SetYn2 wf_SetPredScale : wf.

Section AcceleratorRanges.
Context {E : Type} `{AcceleratorHost E}.

Lemma wf_advance n a : wf_accel a -> wf_accel (advance n a).
Proof. intros Ha. wf_update Ha. Qed.
Lemma wf_at_start a : wf_accel a -> wf_accel (set_m_current_address (m_start_address a) a).
Proof.
  intros Ha. destruct Ha; constructor; cbn; try assumption.
  apply (inu_weaken 30); [lia | done].
Qed.
Lemma wf_shift_history v a : wf_accel a -> wf_accel (shift_history v a).
Proof. intros Ha. wf_update Ha. Qed.
Lemma wf_reads_stopped b a : wf_accel a -> wf_accel (set_m_reads_stopped b a).
Proof. intros Ha. wf_update Ha. Qed.
Hint Resolve wf_advance wf_at_start wf_shift_history wf_reads_stopped : wf.

Lemma wf_adpcm_advance a e : wf_accel a -> ReadMemory_u8 e -> wf_accel (fst (adpcm_advance a e)).
Proof.
  intros Ha He. unfold adpcm_advance. pose proof (wf_advance 1 a Ha) as H1.
  repeat case_match; cbn [fst].
  - wf_update H1.
  - auto with wf.
  - apply wf_advance. destruct H1; constructor; cbn; try assumption.
    apply (inu_weaken 8); [lia |]. apply ReadMemory_range, He.
  - done.
Qed.

Lemma wf_read_sample coefs a e :
  wf_accel a -> ReadMemory_u8 e ->
  inu 16 (fst (fst (read_sample coefs a e))) /\ wf_accel (snd (fst (read_sample coefs a e))).
Proof.
  intros Ha He. assert (inu 16 0) by (unfold inu; lia). unfold read_sample.
  repeat case_match; cbn [fst snd]; (split; [range || done |]); auto with wf.
  match goal with H : adpcm_advance ?x e = (?y, _) |- wf_accel ?y =>
    replace y with (fst (adpcm_advance x e)) by (rewrite H; done) end.
  apply wf_adpcm_advance; auto with wf.
Qed.

Lemma wf_Read coefs a e :
  wf_accel a -> ReadMemory_u8 e ->
  inu 16 (fst (fst (Read coefs a e))) /\ wf_accel (snd (fst (Read coefs a e))).
Proof.
  intros Ha He. unfold Read. destruct (m_reads_stopped a); cbn [fst snd]; [split; [unfold inu; lia | done] |].
  pose proof (wf_read_sample coefs a e Ha He) as [Hv Hw].
  destruct (read_sample coefs a e) as [[v a1] step]. cbn [fst snd] in *.
  destruct (_ =? _); cbn [fst snd]; auto 6 with wf.
Qed.

Lemma wf_ReadD3 a e :
  wf_accel a -> inu 16 (fst (ReadD3 a e)) /\ wf_accel (snd (ReadD3 a e)).
Proof.
  intros Ha. unfold ReadD3. repeat case_match; cbn [fst snd];
    repeat match goal with H : (_, _) = (_, _) |- _ => injection H as <- <- end;
    (split; [range |]); auto with wf.
Qed.

Lemma wf_WriteD3 v a e : wf_accel a -> wf_accel (fst (WriteD3 v a e)).
Proof. intros Ha. unfold WriteD3. repeat case_match; cbn [fst]; auto with wf. Qed.
End AcceleratorRanges.

(** ** Properties *)

Lemma s16_mul_lower x y : ins 16 x -> ins 16 y -> - 2 ^ 30 + 2 ^ 15 <= x * y.
Proof.
  unfold ins. change (- 2 ^ (16 - 1)) with (-32768). change (2 ^ (16 - 1)) with 32768. intros.
  pose proof (Z.mul_nonneg_nonneg (x + 32768) (y + 32768)).
  pose proof (Z.mul_nonneg_nonneg (32767 - x) (32767 - y)). lia.
Qed.

(** [n] reads in a row. *)
Fixpoint read_n {E} `{AcceleratorHost E} (coefs : Z -> Z) (n : nat) (a : Accelerator) (e : E)
  : list Z * Accelerator * E :=
  match n with
  | O => ([], a, e)
  | S n' =>
    let '(v, a1, e1) := Read coefs a e in
    let '(vs, a2, e2) := read_n coefs n' a1 e1 in
    (v :: vs, a2, e2)
  end.

(** The sample a PCM format reads at an address. *)
Definition pcm_sample {E} `{AcceleratorHost E} (format address : Z) (e : E) : Z :=
  if format =? 0x0A then u16 (read_be16 address e) else u16 (ReadMemory address e .<< 8).

Definition pcm_format (a : Accelerator) : Prop :=
  m_sample_format a = 0x0A \/ m_sample_format a = 0x19.

Section Buffers.
Context {E : Type} `{AcceleratorHost E} (coefs : Z -> Z).

Lemma read_n_stopped k a e : m_reads_stopped a = true -> read_n coefs k a e = (repeat 0 k, a, e).
Proof. intros Hs. induction k as [| k IH]; cbn; [done |]. unfold Read. rewrite Hs, IH. done. Qed.

(** One PCM read inside the buffer. *)
Lemma Read_pcm a e :
  wf_accel a -> pcm_format a -> m_reads_stopped a = false ->
  m_current_address a <= m_end_address a ->
  let v := pcm_sample (m_sample_format a) (m_current_address a) e in
  let a1 := shift_history v a in
  Read coefs a e =
    if m_current_address a =? m_end_address a then
      (v, set_m_reads_stopped true (set_m_current_address (m_start_address a) a1), OnEndException e)
    else (v, set_m_current_address (m_current_address a + 1) a1, e).
Proof.
  intros Ha Hf Hs Hle. pose proof (wf_end a Ha) as He. pose proof (wf_start a Ha) as Hst.
  pose proof (wf_current a Ha) as Hc. unfold inu in He, Hst, Hc.
  assert (Hr : read_sample coefs a e =
    (pcm_sample (m_sample_format a) (m_current_address a) e,
     advance 1 (shift_history (pcm_sample (m_sample_format a) (m_current_address a) e) a), 2)).
  { unfold read_sample, pcm_sample. destruct Hf as [-> | ->]; reflexivity. }
  unfold Read. rewrite Hs, Hr. unfold advance. cbn.
  replace (m_end_address a + 2 - 1) with (m_end_address a + 1) by lia.
  rewrite (wrapu_id 32 (m_current_address a + 1)), (wrapu_id 32 (m_end_address a + 1))
    by (unfold inu; lia).
  destruct (Z.eqb_spec (m_current_address a) (m_end_address a)) as [Eq | Ne].
  - rewrite Eq, Z.eqb_refl. unfold SetCurrentAddress. cbn. rewrite land_mask_current by done. done.
  - destruct (Z.eqb_spec (m_current_address a + 1) (m_end_address a + 1)); [lia |].
    unfold SetCurrentAddress. cbn. rewrite land_mask_current by (unfold inu; lia). done.
Qed.

Lemma read_n_pcm n : forall a e,
  wf_accel a -> pcm_format a -> m_reads_stopped a = false ->
  m_current_address a + Z.of_nat n = m_end_address a ->
  exists a', read_n coefs (S n) a e =
    (map (fun i => pcm_sample (m_sample_format a) (m_current_address a + Z.of_nat i) e) (seq 0 (S n)),
     a', OnEndException e) /\
    m_current_address a' = m_start_address a /\ m_reads_stopped a' = true.
Proof.
  induction n as [| n IH]; intros a e Ha Hf Hs Hn.
  - cbn [read_n]. rewrite Read_pcm by (done || lia).
    destruct (Z.eqb_spec (m_current_address a) (m_end_address a)); [| lia].
    eexists. cbn. rewrite Z.add_0_r. done.
  - cbn [read_n]. rewrite Read_pcm by (done || lia).
    destruct (Z.eqb_spec (m_current_address a) (m_end_address a)); [lia |].
    set (v := pcm_sample (m_sample_format a) (m_current_address a) e).
    set (a1 := set_m_current_address (m_current_address a + 1) (shift_history v a)).
    pose proof (wf_end a Ha). pose proof (wf_current a Ha).
    assert (Ha1 : wf_accel a1).
    { pose proof (wf_shift_history v a Ha) as Hw. destruct Hw; constructor; cbn; try assumption.
      unfold inu in *. lia. }
    destruct (IH a1 e Ha1) as (a' & E' & Hcur & Hstop); [done | done | cbn; lia |].
    cbn [read_n] in E'. rewrite E'. exists a'. split_and!; [| done | done].
    change (seq 0 (S (S n))) with (0%nat :: seq 1 (S n)).
    rewrite <- (seq_shift (S n) 0). rewrite map_cons, map_map, Z.add_0_r. fold v.
    f_equal. f_equal. f_equal. apply map_ext. intros i. cbn. f_equal. lia.
Qed.

(** A PCM buffer is read to its end exactly once.  From an address inside
    the buffer, [end - current + 1] reads return the samples of memory in
    order, the last of them resets the address to the start, stops the
    accelerator and raises the end exception, which no earlier read does; after
    that every read returns zero and changes nothing until the program
    restarts the accelerator. *)
Theorem pcm_buffer a e :
  wf_accel a -> pcm_format a -> m_reads_stopped a = false ->
  m_current_address a <= m_end_address a ->
  let n := Z.to_nat (m_end_address a - m_current_address a + 1) in
  exists a', read_n coefs n a e =
    (map (fun i => pcm_sample (m_sample_format a) (m_current_address a + Z.of_nat i) e) (seq 0 n),
     a', OnEndException e) /\
    m_current_address a' = m_start_address a /\
    forall k, read_n coefs k a' (OnEndException e) = (repeat 0 k, a', OnEndException e).
Proof.
  intros Ha Hf Hs Hle n.
  destruct (read_n_pcm (Z.to_nat (m_end_address a - m_current_address a)) a e) as (a' & E' & Hc & Hst);
    [done | done | done | lia |].
  exists a'. replace n with (S (Z.to_nat (m_end_address a - m_current_address a))) by lia.
  split_and!; [done | done |]. intros k. apply read_n_stopped, Hst.
Qed.

Lemma adpcm_nibble_range a e : ReadMemory_u8 e -> -8 <= adpcm_nibble a e <= 15.
Proof.
  intros He. unfold adpcm_nibble. set (b := ReadMemory (m_current_address a .>> 1) e).
  assert (Hb : inu 8 b) by apply ReadMemory_range, He. unfold inu in Hb.
  assert (0 <= b .& 0xF <= 15).
  { replace (b .& 0xF) with (b mod 2 ^ 4) by (symmetry; apply (Z.land_ones b 4); lia).
    pose proof (Z.mod_pos_bound b (2 ^ 4) eq_refl). lia. }
  assert (0 <= b .>> 4 <= 15).
  { rewrite Z.shiftr_div_pow2 by lia. change (2 ^ 4) with 16. Z.to_euclidean_division_equations. lia. }
  repeat case_match; lia.
Qed.

(** No intermediate result of the decoder leaves 32 bits. *)
Lemma adpcm_val32_exact a e :
  wf_accel a -> ReadMemory_u8 e -> (forall i, ins 16 (coefs i)) ->
  let idx := (m_pred_scale a .>> 4) .& 0x7 in
  let c1 := coefs (idx * 2) in
  let c2 := coefs (idx * 2 + 1) in
  c1 * m_yn1 a + c2 * m_yn2 a < 2 ^ 31 - 0x400 ->
  adpcm_val32 coefs a e =
    2 ^ (m_pred_scale a mod 16) * adpcm_nibble a e +
    (0x400 + c1 * m_yn1 a + c2 * m_yn2 a) / 2 ^ 11.
Proof.
  intros Ha He Hcoef idx c1 c2 Hmax.
  pose proof (s16_mul_lower c1 (m_yn1 a) (Hcoef _) (wf_yn1 a Ha)).
  pose proof (s16_mul_lower c2 (m_yn2 a) (Hcoef _) (wf_yn2 a Ha)).
  pose proof (adpcm_nibble_range a e He) as Hn.
  assert (Hsc : 1 .<< (m_pred_scale a .& 0xF) = 2 ^ (m_pred_scale a mod 16)).
  { rewrite Z.shiftl_1_l. change 0xF with (Z.ones 4). rewrite Z.land_ones by lia. done. }
  pose proof (Z.mod_pos_bound (m_pred_scale a) 16 ltac:(lia)) as Hm.
  assert (Hs2 : 1 <= 2 ^ (m_pred_scale a mod 16) <= 2 ^ 15).
  { split; [| apply Z.pow_le_mono_r; lia]. pose proof (Z.pow_pos_nonneg 2 (m_pred_scale a mod 16)). lia. }
  unfold adpcm_val32. rewrite Hsc. fold idx. rewrite Z.add_0_r. fold c1. fold c2.
  rewrite (wraps_id 32 (0x400 + c1 * m_yn1 a + c2 * m_yn2 a)) by (unfold ins; lia).
  rewrite Z.shiftr_div_pow2 by lia. apply wraps_id; [lia |].
  assert (Hq : - 2 ^ 20 <= (0x400 + c1 * m_yn1 a + c2 * m_yn2 a) / 2 ^ 11 <= 2 ^ 20)
    by (split; [apply Z.div_le_lower_bound | apply Z.div_le_upper_bound]; lia).
  unfold ins. set (q := (_ / 2 ^ 11)) in *. clearbody q.
  set (p := 2 ^ (m_pred_scale a mod 16)) in *. clearbody p. nia.
Qed.

(** The ADPCM decoder. Unless the two products both take their largest
    value, no intermediate result leaves the 32 bits of an [int]: the sample is
    the exact prediction plus the scaled nibble, clamped to 16 bits without
    -0x8000, and becomes the newest entry of the decoder's history. *)
Theorem adpcm_sample a e :
  wf_accel a -> m_sample_format a = 0x00 -> m_reads_stopped a = false -> ReadMemory_u8 e ->
  (forall i, ins 16 (coefs i)) ->
  let idx := (m_pred_scale a .>> 4) .& 0x7 in
  let c1 := coefs (idx * 2) in
  let c2 := coefs (idx * 2 + 1) in
  c1 * m_yn1 a + c2 * m_yn2 a < 2 ^ 31 - 0x400 ->
  let exact := 2 ^ (m_pred_scale a mod 16) * adpcm_nibble a e +
               (0x400 + c1 * m_yn1 a + c2 * m_yn2 a) / 2 ^ 11 in
  let '(v, a', _) := Read coefs a e in
  s16 v = Z.max (-0x7FFF) (Z.min 0x7FFF exact) /\
  m_yn1 a' = s16 v /\ m_yn2 a' = m_yn1 a.
Proof.
  intros Ha Hf Hs He Hcoef idx c1 c2 Hmax exact.
  assert (Hval : adpcm_val32 coefs a e = exact) by (apply adpcm_val32_exact; done).
  unfold Read. rewrite Hs. unfold read_sample. rewrite Hf, Hval.
  pose proof (Clamp_range exact (-0x7FFF) 0x7FFF ltac:(lia)) as Hr.
  fold (Clamp exact (-0x7FFF) 0x7FFF). set (v := Clamp exact (-0x7FFF) 0x7FFF) in *.
  rewrite (wraps_id 16 v) by (unfold ins; lia).
  assert (Hh : forall a0, m_yn1 (fst (adpcm_advance a0 e)) = m_yn1 a0 /\
                     m_yn2 (fst (adpcm_advance a0 e)) = m_yn2 a0).
  { intros a0. unfold adpcm_advance. repeat case_match; done. }
  destruct (adpcm_advance (shift_history (u16 v) a) e) as [a1 step] eqn:Eadv.
  specialize (Hh (shift_history (u16 v) a)). rewrite Eadv in Hh. cbn [fst] in Hh.
  assert (Hv : s16 (u16 v) = v) by (rewrite wraps_wrapu_le by lia; apply wraps_id; unfold ins; lia).
  destruct Hh as [H1 H2]. cbn in H1, H2.
  destruct (_ =? _); cbn; rewrite ?H1, ?H2; split_and!; (done || rewrite Hv; done).
Qed.
End Buffers.

(** ** The accelerator of the unit tests

    [TestAccelerator] of [UnitTests/Core/DSP/DSPAcceleratorTest.cpp]: a memory
    of zeros that counts the exceptions. The examples are its tests. *)
Module TestAccelerator.
#[local] Program Instance host : AcceleratorHost nat := {
  ReadMemory _ _ := 0;
  WriteMemory _ _ e := e;
  OnEndException := S;
  ReadMemory_u8 _ := True
}.
Next Obligation. intros. unfold inu. lia. Qed.

Definition fresh : Accelerator := mkAccelerator 0 0 0 0 0 0 0 false.
Definition setup (current start fin : Z) : Accelerator :=
  SetEndAddress fin (SetStartAddress start (SetCurrentAddress current fresh)).
Definition after (n : nat) (a : Accelerator) : Z * nat :=
  let '(_, a', e) := read_n (fun _ => 0) n a 0%nat in (m_current_address a', e).

Example AddressMasking :
  let a := setup 0x48000000 0x48000000 0x48001000 in
  let b := setup 0xffffffff 0xffffffff 0xffffffff in
  (m_start_address a, m_current_address a, m_end_address a) = (0x08000000, 0x08000000, 0x08001000) /\
  (m_start_address b, m_current_address b, m_end_address b) = (0x3fffffff, 0xbfffffff, 0x3fffffff).
Proof. split; reflexivity. Qed.

Example PredScaleRegisterMasking :
  map (fun v => m_pred_scale (SetPredScale v fresh)) [0xbbbb; 0xcccc; 0xffff] = [0x3b; 0x4c; 0x7f].
Proof. reflexivity. Qed.

Example OverflowBehaviour :
  map (fun n => after n (setup 0 0 0xf)) [1; 15; 16; 17]%nat = [(1, 0%nat); (15, 0%nat); (0, 1%nat); (0, 1%nat)].
Proof. reflexivity. Qed.

Example OverflowFor16ByteAlignedAddresses :
  map (fun n => after n (setup 0 0 0x10)) [15; 16]%nat = [(15, 0%nat); (1, 0%nat)].
Proof. reflexivity. Qed.
End TestAccelerator.

(** A PCM buffer of three samples in ARAM. *)
Definition pcm_dsp : SDSP := set_aram (mset (mset ∅ 20 0x12) 21 0x34) dsp0.
Definition pcm_accel : Accelerator := mkAccelerator 10 12 10 0x0A 0 0 0 false.

Lemma wf_pcm_accel f : inu 16 f -> wf_accel (set_m_sample_format f pcm_accel).
Proof. intros Hf. constructor; cbn; unfold inu, ins in *; cbn; lia. Qed.

Lemma pcm_buffer_witness :
  exists a' e', read_n (fun _ => 0) 3 pcm_accel pcm_dsp = ([0x1234; 0; 0], a', e') /\
    m_current_address a' = 10.
Proof.
  destruct (pcm_buffer (fun _ => 0) pcm_accel pcm_dsp) as (a' & E & Hc & _).
  - apply (wf_pcm_accel 0x0A). unfold inu; lia.
  - left. reflexivity.
  - reflexivity.
  - cbn. lia.
  - exists a', (OnEndException pcm_dsp). split; [exact E | exact Hc].
Defined.

Lemma adpcm_sample_witness :
  let '(v, a', _) := Read (fun _ => 100) (set_m_sample_format 0 pcm_accel) pcm_dsp in
  s16 v = 0 /\ m_yn1 a' = s16 v /\ m_yn2 a' = 0.
Proof.
  assert (Hm : mem_ok 8 (aram pcm_dsp)).
  { cbn. apply mem_ok_mset; [apply mem_ok_mset |]; [| unfold inu; lia ..].
    intros x y H. rewrite lookup_empty in H. done. }
  exact (adpcm_sample (fun _ => 100) (set_m_sample_format 0 pcm_accel) pcm_dsp
    (wf_pcm_accel 0 ltac:(unfold inu; lia)) eq_refl eq_refl Hm
    ltac:(intros; unfold ins; lia) ltac:(cbn; lia)).
Defined.
