(* ===== verification/DspHW.v ===== *)
(** The hardware interface of the DSP ([Core/DSP/DSPHWInterface.cpp]): the two
    mailboxes shared with the CPU, the memory-mapped registers at 0xff00, DMA
    between the DSP's memories and main memory, and the data memory map built on
    them ([Core/DSP/DSPMemoryMap.cpp]). The theorems give the mailbox
    protocol, the registers' round trips and the exact effect of DMA,
    including when it leaves its arrays. *)

From S2P Require Import Prelude DspState DspTables DspStacks DspImem DspAnalyzer DspCore DspAccel.
Open Scope Z_scope.

(** ** Mailboxes *)

Definition mailbox_index (mbx : Mailbox) : Z :=
  match mbx with MAILBOX_CPU => 0 | MAILBOX_DSP => 1 end.

Definition mbox_load (mbx : Mailbox) (s : SDSP) : Z := zget (mbox s) (mailbox_index mbx).
Definition mbox_store (mbx : Mailbox) (v : Z) (s : SDSP) : SDSP :=
  set_mbox (zset (mbox s) (mailbox_index mbx) (u32 v)) s.

Definition gdsp_ifx_init : M unit :=
  modify (set_ifx_regs ∅);;
  modify (mbox_store MAILBOX_CPU 0);;
  modify (mbox_store MAILBOX_DSP 0).

Definition gdsp_mbox_peek (mbx : Mailbox) : M Z := gets (mbox_load mbx).

Definition gdsp_mbox_write_h (mbx : Mailbox) (val : Z) : M unit :=
  old_value ← gets (mbox_load mbx);
  let new_value := (old_value .& 0xffff) .| (val .<< 16) in
  modify (mbox_store mbx (new_value .& .~ 0x80000000)).

Definition gdsp_mbox_write_l (mbx : Mailbox) (val : Z) : M unit :=
  old_value ← gets (mbox_load mbx);
  let new_value := (old_value .& .~ 0xffff) .| val in
  modify (mbox_store mbx (new_value .| 0x80000000)).

Definition is_dsp_mailbox (mbx : Mailbox) : bool :=
  match mbx with MAILBOX_DSP => true | MAILBOX_CPU => false end.

Definition gdsp_mbox_read_h (mbx : Mailbox) : M Z :=
  hax ← gets g_init_hax;
  if hax && is_dsp_mailbox mbx then mret 0x8054
  else
    value ← gets (mbox_load mbx);
    mret (u16 (value .>> 16)).

Definition gdsp_mbox_read_l (mbx : Mailbox) : M Z :=
  value ← gets (mbox_load mbx);
  modify (mbox_store mbx (value .& .~ 0x80000000));;
  hax ← gets g_init_hax;
  if hax && is_dsp_mailbox mbx then
    modify (set_g_init_hax false);;
    DSPCore_Reset;;
    mret 0x4348
  else mret (u16 value).

(** ** DMA *)

(** A byte of main memory and a big-endian 16-bit load from it: the 16-bit
    load of a little-endian host followed by [Common::swap16]. *)
Definition ram_byte (s : SDSP) (addr : Z) : Z := mget (cpu_ram s) addr.
Definition ram_be16 (s : SDSP) (addr : Z) : Z := (ram_byte s addr .<< 8) .| ram_byte s (addr + 1).

Definition put_ram_be16 (addr v : Z) (s : SDSP) : SDSP :=
  set_cpu_ram (mset (mset (cpu_ram s) addr (u8 (v .>> 8))) (addr + 1) (u8 v)) s.

(** [Common::HashEctor] *)
Definition HashEctor_step (crc byte : Z) : Z :=
  let crc := crc .^ byte in
  u32 ((crc .<< 3) .| (crc .>> 29)).
Definition HashEctor (bytes : list Z) : Z := fold_left HashEctor_step bytes 0.

(** The bytes [addr .. addr + n - 1] of main memory. *)
Definition ram_bytes (s : SDSP) (addr : Z) (n : nat) : list Z :=
  map (fun i => ram_byte s (addr + Z.of_nat i)) (seq 0 n).

(** [for (i = 0; i < size; i += 2)] copying into DRAM; [n] words are left and
    [i] is the byte offset. A store past the end of the array is undefined. *)
Fixpoint ddma_in_loop (n : nat) (dsp_addr addr i : Z) : M unit :=
  match n with
  | O => mret tt
  | S n' =>
    if DSP_DRAM_BYTE_SIZE <=? dsp_addr + i then out_of_bounds
    else
      modify (fun s =>
        set_dram (mset (dram s) ((dsp_addr + i) / 2) (ram_be16 s ((addr + i) .& 0x7FFFFFFF))) s);;
      ddma_in_loop n' dsp_addr addr (i + 2)
  end.

Definition gdsp_ddma_in (dsp_addr addr size : Z) : M unit :=
  ddma_in_loop (Z.to_nat ((size + 1) / 2)) dsp_addr addr 0.

Fixpoint ddma_out_loop (n : nat) (dsp_addr addr i : Z) : M unit :=
  match n with
  | O => mret tt
  | S n' =>
    if DSP_DRAM_BYTE_SIZE <=? dsp_addr + i then out_of_bounds
    else
      modify (fun s =>
        put_ram_be16 ((addr + i) .& 0x7FFFFFFF) (mget (dram s) ((dsp_addr + i) / 2)) s);;
      ddma_out_loop n' dsp_addr addr (i + 2)
  end.

Definition gdsp_ddma_out (dsp_addr addr size : Z) : M unit :=
  ddma_out_loop (Z.to_nat ((size + 1) / 2)) dsp_addr addr 0.

(** [Host::CodeLoaded]: the debugger and JIT callbacks have no effect on the
    machine; the code is analyzed again. *)
Definition CodeLoaded : M unit := Analyze.

(** [memcpy] followed by [swap16] of each complete word. *)
Fixpoint idma_words (n : nat) (dst addr : Z) (s : SDSP) : SDSP :=
  match n with
  | O => s
  | S n' =>
    idma_words n' (dst + 1) (addr + 2) (set_iram (mset (iram s) dst (ram_be16 s addr)) s)
  end.

(** The byte an odd length leaves over is copied, not swapped. *)
Definition idma_odd_byte (dst addr : Z) (s : SDSP) : SDSP :=
  set_iram (mset (iram s) dst ((mget (iram s) dst .& 0xff00) .| ram_byte s addr)) s.

Definition gdsp_idma_in (dsp_addr addr size : Z) : M unit :=
  let dst := dsp_addr / 2 in
  let code := addr .& 0x0fffffff in
  modify (fun s => set_iram_crc (HashEctor (ram_bytes s code (Z.to_nat size))) s);;
  if DSP_IRAM_BYTE_SIZE <? dsp_addr + size then out_of_bounds
  else
    modify (idma_words (Z.to_nat (size / 2)) dst code);;
    when (negb (size mod 2 =? 0)) (modify (idma_odd_byte (dst + size / 2) (code + size - 1)));;
    CodeLoaded.

Definition gdsp_idma_out (dsp_addr addr size : Z) : M unit := mret tt.

Definition ifx (a : Z) (s : SDSP) : Z := mget (ifx_regs s) a.
Definition put_ifx (a v : Z) (s : SDSP) : SDSP := set_ifx_regs (mset (ifx_regs s) a (u16 v)) s.

Definition gdsp_do_dma : M unit :=
  addr ← gets (fun s => u32 ((ifx DSP_DSMAH s .<< 16) .| ifx DSP_DSMAL s));
  ctl ← gets (ifx DSP_DSCR);
  dsp_addr ← gets (fun s => u16 (ifx DSP_DSPA s * 2));
  len ← gets (ifx DSP_DSBL);
  if 0x4000 <? len then exit0
  else
    let mode := ctl .& 0x3 in
    if mode =? DSP_CR_DMEM .| DSP_CR_TO_CPU then gdsp_ddma_out dsp_addr addr len
    else if mode =? DSP_CR_DMEM .| DSP_CR_FROM_CPU then gdsp_ddma_in dsp_addr addr len
    else if mode =? DSP_CR_IMEM .| DSP_CR_TO_CPU then gdsp_idma_out dsp_addr addr len
    else gdsp_idma_in dsp_addr addr len.

(** ** Memory-mapped registers *)

Definition upd_accel (f : Accelerator -> Accelerator) : M unit :=
  modify (fun s => set_accelerator (f (accelerator s)) s).

Definition InterruptRequest : M unit := modify (fun s => set_host_interrupts (S (host_interrupts s)) s).

(** [val << 16 | static_cast<u16>(old)] and
    [static_cast<u16>(old >> 16) << 16 | val]. *)
Definition with_high (val old : Z) : Z := u32 ((val .<< 16) .| u16 old).
Definition with_low (val old : Z) : Z := u32 ((u16 (old .>> 16) .<< 16) .| val).

Definition gdsp_ifx_write (addr val : Z) : M unit :=
  let a := addr .& 0xff in
  if a =? DSP_DIRQ then when (negb (val .& 1 =? 0)) InterruptRequest
  else if a =? DSP_DMBH then gdsp_mbox_write_h MAILBOX_DSP val
  else if a =? DSP_DMBL then gdsp_mbox_write_l MAILBOX_DSP val
  else if a =? DSP_CMBH then gdsp_mbox_write_h MAILBOX_CPU val
  else if a =? DSP_CMBL then gdsp_mbox_write_l MAILBOX_CPU val
  else if a =? DSP_DSBL then
    modify (put_ifx DSP_DSBL val);;
    modify (fun s => put_ifx DSP_DSCR (ifx DSP_DSCR s .| 4) s);;
    masked ← gets (ifx DSP_AMDM);
    when (masked =? 0) gdsp_do_dma;;
    modify (fun s => put_ifx DSP_DSCR (ifx DSP_DSCR s .& .~ 4) s);;
    modify (put_ifx DSP_DSBL 0)
  else if (a =? DSP_GAIN) || (a =? DSP_DSPA) || (a =? DSP_DSMAH) || (a =? DSP_DSMAL) || (a =? DSP_DSCR)
  then modify (put_ifx a val)
  else if a =? DSP_ACSAH then upd_accel (fun x => SetStartAddress (with_high val (m_start_address x)) x)
  else if a =? DSP_ACSAL then upd_accel (fun x => SetStartAddress (with_low val (m_start_address x)) x)
  else if a =? DSP_ACEAH then upd_accel (fun x => SetEndAddress (with_high val (m_end_address x)) x)
  else if a =? DSP_ACEAL then upd_accel (fun x => SetEndAddress (with_low val (m_end_address x)) x)
  else if a =? DSP_ACCAH then
    upd_accel (fun x => SetCurrentAddress (with_high val (m_current_address x)) x)
  else if a =? DSP_ACCAL then
    upd_accel (fun x => SetCurrentAddress (with_low val (m_current_address x)) x)
  else if a =? DSP_FORMAT then upd_accel (SetSampleFormat val)
  else if a =? DSP_YN1 then upd_accel (SetYn1 val)
  else if a =? DSP_YN2 then upd_accel (SetYn2 val)
  else if a =? DSP_PRED_SCALE then upd_accel (SetPredScale val)
  else if a =? DSP_ACDATA1 then
    modify (fun s => let '(x, s') := WriteD3 val (accelerator s) s in set_accelerator x s')
  else modify (put_ifx a val).

(** [reinterpret_cast<s16*>(&ifx_regs[DSP_COEF_A1_0])] *)
Definition coefs_of (s : SDSP) (i : Z) : Z := s16 (ifx (DSP_COEF_A1_0 + i) s).

Definition accelerator_read : M Z := fun s =>
  let '(v, x, s') := Read (coefs_of s) (accelerator s) s in Done v (set_accelerator x s').

Definition accelerator_read_d3 : M Z := fun s =>
  let '(v, x) := ReadD3 (accelerator s) s in Done v (set_accelerator x s).

Definition gdsp_ifx_read (addr : Z) : M Z :=
  let a := addr .& 0xff in
  let acc (f : Accelerator -> Z) : M Z := gets (fun s => u16 (f (accelerator s))) in
  if a =? DSP_DMBH then gdsp_mbox_read_h MAILBOX_DSP
  else if a =? DSP_DMBL then gdsp_mbox_read_l MAILBOX_DSP
  else if a =? DSP_CMBH then gdsp_mbox_read_h MAILBOX_CPU
  else if a =? DSP_CMBL then gdsp_mbox_read_l MAILBOX_CPU
  else if a =? DSP_DSCR then gets (ifx a)
  else if a =? DSP_ACSAH then acc (fun x => m_start_address x .>> 16)
  else if a =? DSP_ACSAL then acc m_start_address
  else if a =? DSP_ACEAH then acc (fun x => m_end_address x .>> 16)
  else if a =? DSP_ACEAL then acc m_end_address
  else if a =? DSP_ACCAH then acc (fun x => m_current_address x .>> 16)
  else if a =? DSP_ACCAL then acc m_current_address
  else if a =? DSP_FORMAT then acc m_sample_format
  else if a =? DSP_YN1 then acc m_yn1
  else if a =? DSP_YN2 then acc m_yn2
  else if a =? DSP_PRED_SCALE then acc m_pred_scale
  else if a =? DSP_ACCELERATOR then accelerator_read
  else if a =? DSP_ACDATA1 then accelerator_read_d3
  else gets (ifx a).

(** ** Data memory *)

Definition dsp_dmem_read (addr : Z) : M Z :=
  match addr .>> 12 with
  | 0x0 => gets (fun s => mget (dram s) (addr .& DSP_DRAM_MASK))
  | 0x1 => gets (fun s => mget (coef s) (addr .& DSP_COEF_MASK))
  | 0xf => gdsp_ifx_read addr
  | _ => mret 0
  end.

Definition dsp_dmem_write (addr val : Z) : M unit :=
  match addr .>> 12 with
  | 0x0 => modify (fun s => set_dram (mset (dram s) (addr .& DSP_DRAM_MASK) (u16 val)) s)
  | 0xf => gdsp_ifx_write addr val
  | _ => mret tt
  end.

(** ** Preservation *)

Lemma wf_mbox_store mbx v s : wf s -> wf (mbox_store mbx v s).
Proof. intros H. wf_update H. Qed.
Lemma wf_put_ifx a v s : wf s -> wf (put_ifx a v s).
Proof. intros H. wf_update H. Qed.
Lemma wf_set_accelerator x s : wf s -> wf_accel x -> wf (set_accelerator x s).
Proof. intros H Hx. wf_update H. Qed.
Lemma wf_set_host_interrupts n s : wf s -> wf (set_host_interrupts n s).
Proof. intros H. wf_update H. Qed.
Lemma wf_set_g_init_hax b s : wf s -> wf (set_g_init_hax b s).
Proof. intros H. wf_update H. Qed.
Lemma wf_set_dram m s : wf s -> mem_ok 16 m -> wf (set_dram m s).
Proof. intros H Hm. wf_update H. Qed.
Lemma wf_set_iram m s : wf s -> mem_ok 16 m -> wf (set_iram m s).
Proof. intros H Hm. wf_update H. Qed.
Lemma wf_put_ram_be16 a v s : wf s -> wf (put_ram_be16 a v s).
Proof. intros H. wf_update H. Qed.
Lemma wf_raise e s : wf s -> wf (raise e s).
Proof. intros H. unfold raise. auto with wf. Qed.
Lemma wf_WriteHostMemory v a s : wf s -> wf (WriteHostMemory v a s).
Proof. intros H. wf_update H. Qed.
#[export] Hint Resolve wf_mbox_store wf_put_ifx wf_set_accelerator wf_set_host_interrupts
  wf_set_g_init_hax wf_put_ram_be16 wf_raise wf_WriteHostMemory wf_acc : wf.

Lemma ram_byte_range s a : wf s -> inu 8 (ram_byte s a).
Proof. intros H. apply mem_ok_mget; [lia | apply H]. Qed.

(** A byte over a byte is a 16-bit word. *)
Lemma be16_range h l : inu 8 h -> inu 8 l -> inu 16 ((h .<< 8) .| l).
Proof.
  intros Hh Hl. apply inu_testbit; [lia |]. intros i Hi. rewrite Z.lor_spec, testbit_shiftl'.
  rewrite (testbit_inu_high 8 h), (testbit_inu_high 8 l) by (lia || done).
  rewrite andb_false_r. done.
Qed.

Lemma ram_be16_range s a : wf s -> inu 16 (ram_be16 s a).
Proof. intros H. apply be16_range; apply ram_byte_range, H. Qed.

Lemma keeps_ddma_in_loop n d a i : keeps (ddma_in_loop n d a i).
Proof.
  revert i. induction n as [| n IH]; intros i; cbn [ddma_in_loop]; [keeps_auto |].
  apply keeps_if; [apply keeps_oob |]. apply keeps_bind; [| intros; apply IH].
  apply safe_keeps, safe_modify. intros s Hs. apply wf_set_dram; [done |].
  apply mem_ok_mset; [apply Hs | apply ram_be16_range, Hs].
Qed.

Lemma keeps_ddma_out_loop n d a i : keeps (ddma_out_loop n d a i).
Proof.
  revert i. induction n as [| n IH]; intros i; cbn [ddma_out_loop]; [keeps_auto |].
  apply keeps_if; [apply keeps_oob |]. apply keeps_bind; [| intros; apply IH].
  apply safe_keeps. safe_auto.
Qed.

Lemma wf_idma_words n : forall d a s, wf s -> wf (idma_words n d a s).
Proof.
  induction n as [| n IH]; intros d a s Hs; cbn; [done |]. apply IH.
  apply wf_set_iram; [done |]. apply mem_ok_mset; [apply Hs | apply ram_be16_range, Hs].
Qed.

Lemma wf_idma_odd_byte d a s : wf s -> wf (idma_odd_byte d a s).
Proof.
  intros Hs. unfold idma_odd_byte. apply wf_set_iram; [done |]. apply mem_ok_mset; [apply Hs |].
  apply inu_testbit; [lia |]. intros i Hi. rewrite Z.lor_spec, Z.land_spec.
  rewrite (testbit_inu_high 16 (mget _ _)), (testbit_inu_high 8 (ram_byte s a));
    [done | lia | apply ram_byte_range, Hs | lia | lia | apply mem_ok_mget; [lia | apply Hs] | lia].
Qed.

Lemma HashEctor_range l : inu 32 (HashEctor l).
Proof.
  unfold HashEctor. assert (H : inu 32 0) by (unfold inu; lia). revert H. generalize 0.
  induction l as [| b l IH]; intros c Hc; cbn; [done |]. apply IH. range.
Qed.

Lemma keeps_idma_in d a n : keeps (gdsp_idma_in d a n).
Proof.
  unfold gdsp_idma_in. apply keeps_bind.
  - apply safe_keeps, safe_modify. intros s Hs.
    pose proof (HashEctor_range (ram_bytes s (a .& 0x0fffffff) (Z.to_nat n))). wf_update Hs.
  - intros _. apply keeps_if; [apply keeps_oob |]. apply safe_keeps.
    apply safe_bind; [apply safe_modify, wf_idma_words | intros _].
    apply safe_bind; [apply safe_when, safe_modify, wf_idma_odd_byte | intros _].
    apply safe_Analyze.
Qed.

Lemma keeps_do_dma : keeps gdsp_do_dma.
Proof.
  unfold gdsp_do_dma, gdsp_ddma_in, gdsp_ddma_out, gdsp_idma_out.
  pose proof keeps_ddma_in_loop. pose proof keeps_ddma_out_loop. pose proof keeps_idma_in. keeps_auto.
Qed.

Lemma safe_upd_accel f : (forall x, wf_accel x -> wf_accel (f x)) -> safe (upd_accel f).
Proof. intros Hf. apply safe_modify. intros s Hs. auto with wf. Qed.

Lemma safe_accelerator_read : safe accelerator_read.
Proof.
  intros s Hs. unfold accelerator_read.
  assert (Hm : ReadMemory_u8 s) by apply Hs.
  pose proof (wf_Read (coefs_of s) (accelerator s) s (wf_acc s Hs) Hm) as [_ Hw].
  assert (He : snd (Read (coefs_of s) (accelerator s) s) = s \/
               snd (Read (coefs_of s) (accelerator s) s) = raise AcceleratorOverflow s).
  { unfold Read. repeat case_match; simplify_eq; cbn; auto. }
  destruct (Read (coefs_of s) (accelerator s) s) as [[v x] s']. cbn [fst snd] in *.
  exists v, (set_accelerator x s'). split; [done |].
  destruct He as [-> | ->]; auto with wf.
Qed.

Lemma safe_accelerator_read_d3 : safe accelerator_read_d3.
Proof.
  intros s Hs. unfold accelerator_read_d3.
  pose proof (wf_ReadD3 (accelerator s) s (wf_acc s Hs)) as [_ Hw].
  destruct (ReadD3 (accelerator s) s) as [v x]. cbn in Hw. eauto with wf.
Qed.

Lemma wf_WriteD3_state v s :
  wf s -> wf (let '(x, s') := WriteD3 v (accelerator s) s in set_accelerator x s').
Proof.
  intros Hs. pose proof (wf_WriteD3 v (accelerator s) s (wf_acc s Hs)) as Hw.
  unfold WriteD3 in *. repeat case_match; simplify_eq; cbn [fst] in Hw; apply wf_set_accelerator; auto with wf.
  cbn [WriteMemory LLEAccelerator]. auto with wf.
Qed.

Lemma safe_mbox_read_l mbx : safe (gdsp_mbox_read_l mbx).
Proof. unfold gdsp_mbox_read_l. safe_auto. Qed.
Lemma safe_mbox_read_h mbx : safe (gdsp_mbox_read_h mbx).
Proof. unfold gdsp_mbox_read_h. safe_auto. Qed.
Lemma safe_mbox_write_l mbx v : safe (gdsp_mbox_write_l mbx v).
Proof. unfold gdsp_mbox_write_l. safe_auto. Qed.
Lemma safe_mbox_write_h mbx v : safe (gdsp_mbox_write_h mbx v).
Proof. unfold gdsp_mbox_write_h. safe_auto. Qed.
#[export] Hint Resolve safe_accelerator_read safe_accelerator_read_d3 safe_mbox_read_l
  safe_mbox_read_h safe_mbox_write_l safe_mbox_write_h wf_WriteD3_state keeps_do_dma : wf.

Lemma keeps_ifx_write addr v : keeps (gdsp_ifx_write addr v).
Proof.
  unfold gdsp_ifx_write, InterruptRequest.
  repeat (apply keeps_if);
    try (apply safe_keeps; first [ apply safe_upd_accel; auto with wf | solve [safe_auto] ]).
  keeps_auto.
Qed.

Lemma safe_ifx_read addr : safe (gdsp_ifx_read addr).
Proof. unfold gdsp_ifx_read. cbv zeta. safe_auto. Qed.
#[export] Hint Resolve keeps_ifx_write safe_ifx_read : wf.

Lemma safe_dmem_read addr : safe (dsp_dmem_read addr).
Proof. unfold dsp_dmem_read. repeat case_match; safe_auto. Qed.

Lemma keeps_dmem_write addr v : keeps (dsp_dmem_write addr v).
Proof.
  unfold dsp_dmem_write. repeat case_match; keeps_auto.
  apply safe_keeps, safe_modify. intros s Hs. apply wf_set_dram; [done |].
  apply mem_ok_mset; [apply Hs | range].
Qed.
#[export] Hint Resolve safe_dmem_read keeps_dmem_write : wf.

(** ** Properties: mailboxes *)

Definition mbox_send (mbx : Mailbox) (hi lo : Z) : M unit :=
  gdsp_mbox_write_h mbx hi;; gdsp_mbox_write_l mbx lo.

Definition mbox_receive (mbx : Mailbox) : M Z :=
  hi ← gdsp_mbox_read_h mbx;
  lo ← gdsp_mbox_read_l mbx;
  mret ((hi .<< 16) .| lo).

(** The flag the sender sets and the receiver clears. *)
Definition mail_waiting (mbx : Mailbox) (s : SDSP) : bool := Z.testbit (mbox_load mbx s) 31.

Lemma mailbox_index_range mbx : 0 <= mailbox_index mbx < 2.
Proof. destruct mbx; cbn; lia. Qed.

Lemma mbox_load_range mbx s : wf s -> inu 32 (mbox_load mbx s).
Proof. intros Hs. apply (arr_ok_zget 2); [lia | apply Hs]. Qed.

Lemma mbox_load_store mbx v s : wf s -> mbox_load mbx (mbox_store mbx v s) = u32 v.
Proof.
  intros Hs. unfold mbox_load, mbox_store. cbn.
  apply (zget_zset_same 2 32); [apply Hs | apply mailbox_index_range].
Qed.

Lemma mbox_load_store_other mbx mbx' v s :
  mbx <> mbx' -> mbox_load mbx' (mbox_store mbx v s) = mbox_load mbx' s.
Proof.
  intros Hne. unfold mbox_load, mbox_store. cbn.
  pose proof (mailbox_index_range mbx). pose proof (mailbox_index_range mbx').
  apply zget_zset_other; [lia | lia |]. destruct mbx, mbx'; cbn; congruence.
Qed.

Lemma mbox_store_store mbx v v' s : mbox_store mbx v' (mbox_store mbx v s) = mbox_store mbx v' s.
Proof. unfold mbox_store. cbn. rewrite zset_zset. done. Qed.

Lemma testbit_8000_0000 i : Z.testbit 0x80000000 i = (i =? 31).
Proof.
  change 0x80000000 with (2 ^ 31). destruct (Z.ltb_spec i 0).
  - rewrite Z.testbit_neg_r by done. symmetry. apply Z.eqb_neq. lia.
  - rewrite Z.pow2_bits_eqb by lia. apply Z.eqb_sym.
Qed.

(** The word in the mailbox after both halves are written. *)
Lemma mbox_word old hi lo :
  inu 32 old -> inu 16 hi -> inu 16 lo ->
  u32 ((u32 (((old .& 0xffff) .| (hi .<< 16)) .& .~ 0x80000000) .& .~ 0xffff .| lo) .| 0x80000000)
    = 0x80000000 .| ((hi mod 2 ^ 15 .<< 16) .| lo).
Proof.
  intros Ho Hh Hl. apply Z.bits_inj'. intros i Hi. autorewrite with bits.
  rewrite !testbit_8000_0000. destruct (Z.ltb_spec i 16).
  - rewrite !(Z.testbit_neg_r _ (i - 16)) by lia. split_cmps. cbn. 
    destruct (Z.eqb_spec i 31); [lia |]. rewrite !andb_false_r, ?orb_false_r. done.
  - rewrite (testbit_inu_high 16 lo) by (lia || done). destruct (Z.eqb_spec i 31).
    + subst. rewrite !orb_true_r, !orb_true_l. done.
    + destruct (Z.ltb_spec i 31).
      * rewrite Z.mod_pow2_bits_low by lia. split_cmps. cbn. rewrite ?andb_false_r, ?andb_true_r, ?orb_false_r. done.
      * rewrite Z.mod_pow2_bits_high by lia. rewrite (testbit_inu_high 16 hi) by (lia || done).
        rewrite (testbit_inu_high 32 old) by (lia || done). split_cmps. cbn. done.
Qed.

Lemma message_range hi lo : inu 16 lo -> inu 31 ((hi mod 2 ^ 15 .<< 16) .| lo).
Proof.
  intros Hlo. apply inu_testbit; [lia |]. intros i Hi. autorewrite with bits.
  rewrite Z.mod_pow2_bits_high, (testbit_inu_high 16 lo) by (lia || done).
  rewrite andb_false_r. done.
Qed.

Lemma lor_lnot_31 m : inu 31 m -> (0x80000000 .| m) .& .~ 0x80000000 = m.
Proof.
  intros Hm. apply Z.bits_inj'. intros i Hi. autorewrite with bits. rewrite testbit_8000_0000.
  destruct (Z.eqb_spec i 31); cbn.
  - rewrite andb_false_r. symmetry. apply (testbit_inu_high 31); (lia || done).
  - split_cmps. apply andb_true_r.
Qed.

Lemma word_halves m : inu 31 m ->
  (u16 ((0x80000000 .| m) .>> 16) .<< 16) .| u16 (0x80000000 .| m) = 0x80000000 .| m.
Proof.
  intros Hm. apply Z.bits_inj'. intros i Hi. autorewrite with bits. rewrite !testbit_8000_0000.
  destruct (Z.ltb_spec i 16).
  - split_cmps. cbn. rewrite ?andb_false_r. done.
  - replace (i - 16 + 16) with i by lia. split_cmps; cbn.
    + rewrite orb_false_r. done.
    + rewrite (testbit_inu_high 31 m) by (lia || done). destruct (Z.eqb_spec i 31); [lia | done].
Qed.

Lemma run_receive mbx m s :
  wf s -> g_init_hax s && is_dsp_mailbox mbx = false -> inu 31 m ->
  mbox_load mbx s = 0x80000000 .| m ->
  mbox_receive mbx s = Done (0x80000000 .| m) (mbox_store mbx m s).
Proof.
  intros Hs Hhax Hm Hl. unfold mbox_receive, gdsp_mbox_read_h, gdsp_mbox_read_l. run.
  rewrite Hhax. run. cbn [g_init_hax mbox_store set_mbox]. rewrite Hhax. run.
  rewrite Hl, lor_lnot_31, word_halves by done. done.
Qed.

(** The mailbox protocol. A message written high half first is not visible
    until its low half is written; the receiver then reads the full flag and
    the message's 31 bits, reading the low half frees the mailbox, and nothing
    but that mailbox changes. (The DSP's own mailbox answers with the
    boot-time constants instead while [g_init_hax] is set.) *)
Theorem mailbox_protocol mbx hi lo s :
  wf s -> inu 16 hi -> inu 16 lo -> g_init_hax s && is_dsp_mailbox mbx = false ->
  let message := (hi mod 2 ^ 15 .<< 16) .| lo in
  exists s0 s1 s2,
    gdsp_mbox_write_h mbx hi s = Done tt s0 /\ mail_waiting mbx s0 = false /\
    gdsp_mbox_write_l mbx lo s0 = Done tt s1 /\ mail_waiting mbx s1 = true /\
    mbox_receive mbx s1 = Done (0x80000000 .| message) s2 /\ mail_waiting mbx s2 = false /\
    s2 = mbox_store mbx message s.
Proof.
  intros Hs Hhi Hlo Hhax message. pose proof (mbox_load_range mbx s Hs) as Hold.
  pose proof (message_range hi lo Hlo) as Hm. fold message in Hm.
  set (s0 := mbox_store mbx (((mbox_load mbx s .& 0xffff) .| (hi .<< 16)) .& .~ 0x80000000) s).
  set (s1 := mbox_store mbx (((mbox_load mbx s0 .& .~ 0xffff) .| lo) .| 0x80000000) s0).
  exists s0, s1, (mbox_store mbx message s).
  assert (Hl1 : mbox_load mbx s1 = 0x80000000 .| message).
  { unfold s1, s0. rewrite mbox_load_store by auto with wf. rewrite mbox_load_store by done.
    apply mbox_word; done. }
  split_and!; [reflexivity | | reflexivity | | | | reflexivity].
  - unfold mail_waiting, s0. rewrite mbox_load_store by done. autorewrite with bits.
    rewrite testbit_8000_0000. cbn. apply andb_false_r.
  - unfold mail_waiting. rewrite Hl1, Z.lor_spec, testbit_8000_0000. done.
  - rewrite (run_receive mbx message) by (done || (unfold s1, s0; auto with wf)).
    unfold s1, s0. rewrite !mbox_store_store. done.
  - unfold mail_waiting. rewrite mbox_load_store by done. rewrite testbit_wrapu by lia.
    apply (testbit_inu_high 31); (lia || done).
Qed.

Lemma mailbox_protocol_witness :
  exists s0 s1 s2,
    gdsp_mbox_write_h MAILBOX_CPU 0x9234 dsp0 = Done tt s0 /\
    gdsp_mbox_write_l MAILBOX_CPU 0x5678 s0 = Done tt s1 /\
    mbox_receive MAILBOX_CPU s1 = Done 0x92345678 s2.
Proof.
  destruct (mailbox_protocol MAILBOX_CPU 0x9234 0x5678 dsp0 wf_dsp0
    ltac:(unfold inu; lia) ltac:(unfold inu; lia) eq_refl)
    as (s0 & s1 & s2 & E0 & _ & E1 & _ & E2 & _).
  exists s0, s1, s2. split; [exact E0 | split; [exact E1 | exact E2]].
Defined.

(** ** Properties: accelerator registers *)

(** The three address registers: the numbers of the high and low halves, the
    accessor and the bits that exist. *)
Definition address_registers : list (Z * Z * (Accelerator -> Z) * Z) := [
  (DSP_ACSAH, DSP_ACSAL, m_start_address, START_END_ADDRESS_MASK);
  (DSP_ACEAH, DSP_ACEAL, m_end_address, START_END_ADDRESS_MASK);
  (DSP_ACCAH, DSP_ACCAL, m_current_address, CURRENT_ADDRESS_MASK)
].

Lemma testbit_mask30 i : 0 <= i -> Z.testbit START_END_ADDRESS_MASK i = (i <? 30).
Proof. intros. change START_END_ADDRESS_MASK with (Z.ones 30). apply Z.testbit_ones_nonneg; lia. Qed.

Lemma testbit_mask_current i :
  0 <= i -> Z.testbit CURRENT_ADDRESS_MASK i = (i <? 30) || (i =? 31).
Proof.
  intros. change CURRENT_ADDRESS_MASK with (Z.lor (Z.ones 30) 0x80000000).
  rewrite Z.lor_spec, Z.testbit_ones_nonneg, testbit_8000_0000 by lia. done.
Qed.

(** Writing the halves in either order. *)
Lemma with_low_high mask hi lo old :
  (forall i, 0 <= i < 16 -> Z.testbit mask i = true) -> inu 16 hi -> inu 16 lo -> inu 32 mask ->
  with_low lo (with_high hi old .& mask) .& mask = ((hi .<< 16) .| lo) .& mask /\
  with_high hi (with_low lo old .& mask) .& mask = ((hi .<< 16) .| lo) .& mask.
Proof.
  intros Hm Hh Hl H32. unfold with_low, with_high.
  split; apply Z.bits_inj'; intros i Hi; autorewrite with bits;
    (destruct (Z.ltb_spec i 16);
     [ rewrite !(Hm i), ?(Z.testbit_neg_r hi (i - 16)) by lia; split_cmps; cbn; btauto
     | rewrite (testbit_inu_high 16 lo i) by (lia || done); destruct (Z.ltb_spec i 32);
       [ replace (i - 16 + 16) with i by lia; split_cmps; cbn; 
         destruct (Z.testbit mask i); rewrite ?andb_true_r, ?andb_false_r, ?orb_false_r; done
       | rewrite (testbit_inu_high 32 mask i) by (lia || done); rewrite !andb_false_r; done ] ]).
Qed.

Lemma read_halves mask hi lo :
  (forall i, 0 <= i < 16 -> Z.testbit mask i = true) -> inu 16 hi -> inu 16 lo ->
  u16 ((((hi .<< 16) .| lo) .& mask) .>> 16) = hi .& (mask .>> 16) /\
  u16 (((hi .<< 16) .| lo) .& mask) = lo.
Proof.
  intros Hm Hh Hl. split; apply Z.bits_inj'; intros i Hi; autorewrite with bits.
  - rewrite (testbit_inu_high 16 lo (i + 16)) by (lia || done).
    replace (i + 16 - 16) with i by lia. rewrite orb_false_r. split_cmps; cbn; [done |].
    rewrite (testbit_inu_high 16 hi i) by (lia || done). done.
  - destruct (Z.ltb_spec i 16).
    + rewrite Hm by lia. rewrite (Z.testbit_neg_r hi (i - 16)) by lia. split_cmps. cbn. rewrite andb_true_r. done.
    + rewrite (testbit_inu_high 16 lo i) by (lia || done). split_cmps. done.
Qed.

(** The accelerator's address registers are 32-bit registers behind two
    16-bit ports. Writing both halves, in either order, sets the register to the
    two halves without the bits the hardware lacks, and reading the ports
    returns those halves and changes nothing. *)
Theorem address_register_roundtrip h l get mask hi lo s :
  In (h, l, get, mask) address_registers -> inu 16 hi -> inu 16 lo ->
  exists s', (gdsp_ifx_write h hi;; gdsp_ifx_write l lo) s = Done tt s' /\
    (gdsp_ifx_write l lo;; gdsp_ifx_write h hi) s = Done tt s' /\
    get (accelerator s') = ((hi .<< 16) .| lo) .& mask /\
    gdsp_ifx_read h s' = Done (hi .& (mask .>> 16)) s' /\
    gdsp_ifx_read l s' = Done lo s'.
Proof.
  intros Hin Hhi Hlo.
  assert (Hm : (forall i, 0 <= i < 16 -> Z.testbit mask i = true) /\ inu 32 mask).
  { destruct Hin as [E | [E | [E | []]]]; injection E as <- <- <- <-; split; try (unfold inu; done);
      intros i Hi; rewrite ?testbit_mask30, ?testbit_mask_current by lia; split_cmps; done. }
  destruct Hm as [Hm H32].
  destruct (read_halves mask hi lo Hm Hhi Hlo) as [Rh Rl].
  assert (W := fun old => with_low_high mask hi lo old Hm Hhi Hlo H32).
  destruct Hin as [E | [E | [E | []]]]; injection E as <- <- <- <-.
  - set (old := m_start_address (accelerator s)). destruct (W old) as [W1 W2].
    exists (set_accelerator (set_m_start_address (((hi .<< 16) .| lo) .& START_END_ADDRESS_MASK) (accelerator s)) s).
    split_and!; [rewrite <- W1 | rewrite <- W2 | | rewrite <- Rh | rewrite <- Rl at 2]; reflexivity.
  - set (old := m_end_address (accelerator s)). destruct (W old) as [W1 W2].
    exists (set_accelerator (set_m_end_address (((hi .<< 16) .| lo) .& START_END_ADDRESS_MASK) (accelerator s)) s).
    split_and!; [rewrite <- W1 | rewrite <- W2 | | rewrite <- Rh | rewrite <- Rl at 2]; reflexivity.
  - set (old := m_current_address (accelerator s)). destruct (W old) as [W1 W2].
    exists (set_accelerator (set_m_current_address (((hi .<< 16) .| lo) .& CURRENT_ADDRESS_MASK) (accelerator s)) s).
    split_and!; [rewrite <- W1 | rewrite <- W2 | | rewrite <- Rh | rewrite <- Rl at 2]; reflexivity.
Qed.

Lemma address_register_roundtrip_witness :
  exists s', (gdsp_ifx_write DSP_ACCAH 0xffff;; gdsp_ifx_write DSP_ACCAL 0x1234) dsp0 = Done tt s' /\
    m_current_address (accelerator s') = 0xbfff1234.
Proof.
  destruct (address_register_roundtrip DSP_ACCAH DSP_ACCAL m_current_address CURRENT_ADDRESS_MASK
    0xffff 0x1234 dsp0 ltac:(cbn; auto) ltac:(unfold inu; lia) ltac:(unfold inu; lia))
    as (s' & E & _ & G & _).
  exists s'. split; [exact E | exact G].
Defined.

(** ** Properties: DMA *)

(** The effect of the loop while it stays in bounds: [n] words from byte [i]. *)
Lemma run_ddma_in n : forall d a i s,
  d mod 2 = 0 -> i mod 2 = 0 -> 0 <= d + i -> d + i + 2 * Z.of_nat n <= DSP_DRAM_BYTE_SIZE ->
  exists D, ddma_in_loop n d a i s = Done tt (set_dram D s) /\
    forall k, mget D k =
      if ((d + i) / 2 <=? k) && (k <? (d + i) / 2 + Z.of_nat n)
      then ram_be16 s ((a + (2 * k - d)) .& 0x7FFFFFFF) else mget (dram s) k.
Proof.
  induction n as [| n IH]; intros d a i s Hd Hi H0 Hn; cbn [ddma_in_loop].
  - exists (dram s). split; [destruct s; done |]. intros k. split_cmps; done.
  - destruct (Z.leb_spec DSP_DRAM_BYTE_SIZE (d + i)); [lia |]. run.
    set (s1 := set_dram (mset (dram s) ((d + i) / 2) (ram_be16 s ((a + i) .& 0x7FFFFFFF))) s).
    destruct (IH d a (i + 2) s1) as (D & E & HD); [done | rewrite Z.add_mod, Hi by lia; done | lia | lia |].
    exists D. split; [rewrite E; done |]. intros k. rewrite HD.
    replace (d + (i + 2)) with (d + i + 1 * 2) by lia. rewrite Z.div_add by lia.
    assert (Hev : d + i = 2 * ((d + i) / 2)).
    { pose proof (Z.div_mod (d + i) 2). rewrite Z.add_mod, Hd, Hi in H1 by lia.
      change ((0 + 0) mod 2) with 0 in H1. lia. }
    change (dram s1) with (mset (dram s) ((d + i) / 2) (ram_be16 s ((a + i) .& 0x7FFFFFFF))).
    change (ram_be16 s1) with (ram_be16 s).
    destruct (Z.eqb_spec k ((d + i) / 2)) as [-> | Hne].
    + split_cmps. cbn. rewrite mget_mset_same. f_equal. f_equal. lia.
    + rewrite mget_mset_other by congruence. split_cmps; done.
Qed.

Lemma ddma_in_out_of_bounds n : forall d a i s,
  d mod 2 = 0 -> i mod 2 = 0 -> (0 < n)%nat -> d + i + 2 * Z.of_nat n > DSP_DRAM_BYTE_SIZE ->
  ddma_in_loop n d a i s = OutOfBounds.
Proof.
  induction n as [| n IH]; intros d a i s Hd Hi H0 Hn; [lia |]. cbn [ddma_in_loop].
  destruct (Z.leb_spec DSP_DRAM_BYTE_SIZE (d + i)); [done |]. run.
  apply IH; [done | rewrite Z.add_mod, Hi by lia; done | | lia].
  destruct n; [| lia]. exfalso. unfold DSP_DRAM_BYTE_SIZE in *.
  assert (Hev : d + i = 2 * ((d + i) / 2)).
  { pose proof (Z.div_mod (d + i) 2). rewrite Z.add_mod, Hd, Hi in H1 by lia.
    change ((0 + 0) mod 2) with 0 in H1. lia. }
  lia.
Qed.

(** The parameters of a DMA, as [gdsp_do_dma] reads them. *)
Definition dma_ram_addr (s : SDSP) : Z := u32 ((ifx DSP_DSMAH s .<< 16) .| ifx DSP_DSMAL s).
Definition dma_dsp_addr (s : SDSP) : Z := u16 (ifx DSP_DSPA s * 2).
Definition dma_len (s : SDSP) : Z := ifx DSP_DSBL s.
Definition dma_mode (s : SDSP) : Z := ifx DSP_DSCR s .& 3.

Lemma dma_dsp_addr_even s : dma_dsp_addr s mod 2 = 0.
Proof. unfold dma_dsp_addr. change 2 with (2 ^ 1) at 2. rewrite wrapu_mod_le by lia. apply Z_mod_mult. Qed.

(** A DMA from main memory to DRAM. A length over 0x4000 ends the process;
    a block that fits DRAM is copied word by word from big-endian memory, every
    other word of DRAM and every other part of the machine unchanged; a nonempty block
    that passes the end of DRAM writes outside the array, which no check prevents. *)
Theorem dma_in_effect s :
  wf s -> dma_mode s = DSP_CR_DMEM .| DSP_CR_FROM_CPU ->
  (dma_len s > 0x4000 -> gdsp_do_dma s = Exited) /\
  (dma_len s <= 0x4000 -> dma_dsp_addr s + dma_len s <= DSP_DRAM_BYTE_SIZE ->
   exists D, gdsp_do_dma s = Done tt (set_dram D s) /\
     forall k, mget D k =
       if (dma_dsp_addr s <=? 2 * k) && (2 * k <? dma_dsp_addr s + dma_len s)
       then ram_be16 s ((dma_ram_addr s + (2 * k - dma_dsp_addr s)) .& 0x7FFFFFFF)
       else mget (dram s) k) /\
  (0 < dma_len s <= 0x4000 -> dma_dsp_addr s + dma_len s > DSP_DRAM_BYTE_SIZE ->
   gdsp_do_dma s = OutOfBounds).
Proof.
  intros Hs Hmode. pose proof (dma_dsp_addr_even s) as Hev.
  assert (Hlen : inu 16 (dma_len s)) by (apply mem_ok_mget; [lia | apply Hs]).
  assert (Hd : inu 16 (dma_dsp_addr s)) by (apply wrapu_range; lia). unfold inu in Hlen, Hd.
  pose proof (Z.div_mod (dma_dsp_addr s) 2 ltac:(lia)) as Hdm. rewrite Hev in Hdm.
  pose proof (Z.div_mod (dma_len s + 1) 2 ltac:(lia)) as Hlm.
  pose proof (Z.mod_pos_bound (dma_len s + 1) 2 ltac:(lia)) as Hlb.
  unfold gdsp_do_dma. run.
  fold (dma_ram_addr s) (dma_dsp_addr s) (dma_len s) (dma_mode s). rewrite Hmode.
  change (DSP_CR_DMEM .| DSP_CR_FROM_CPU =? DSP_CR_DMEM .| DSP_CR_TO_CPU) with false.
  change (DSP_CR_DMEM .| DSP_CR_FROM_CPU =? DSP_CR_DMEM .| DSP_CR_FROM_CPU) with true. cbv beta iota.
  unfold gdsp_ddma_in.
  split_and!; intros; destruct (Z.ltb_spec 0x4000 (dma_len s)); try lia; [done | |].
  - destruct (run_ddma_in (Z.to_nat ((dma_len s + 1) / 2)) (dma_dsp_addr s) (dma_ram_addr s) 0 s)
      as (D & E & HD); [done | done | lia | unfold DSP_DRAM_BYTE_SIZE in *; lia |].
    exists D. split; [done |]. intros k. rewrite HD, Z.add_0_r. split_cmps; (done || lia).
  - apply ddma_in_out_of_bounds; [done | done | lia | lia].
Qed.

(** A four-byte block at the last word of DRAM passes its end. *)
Lemma dma_in_effect_witness :
  gdsp_do_dma (put_ifx DSP_DSPA 0xfff (put_ifx DSP_DSBL 4 dsp0)) = OutOfBounds.
Proof.
  apply (dma_in_effect (put_ifx DSP_DSPA 0xfff (put_ifx DSP_DSBL 4 dsp0))).
  - eauto with wf.
  - reflexivity.
  - vm_compute. split; reflexivity || discriminate.
  - vm_compute. reflexivity.
Defined.
