(* ===== verification/DspCC.v ===== *)
(** Condition codes ([Interpreter/DSPIntCCUtil.cpp], [.h]): how an instruction
    sets the status register and how the conditions of branches, returns and
    conditional execution read it.  The theorem relates the sixteen conditions
    after a flag update to the arithmetic facts they stand for. *)

From S2P Require Import Prelude DspState DspTables DspStacks DspImem DspAnalyzer DspCore.
Open Scope Z_scope.

(** [if (b) sr |= f] *)
Definition or_if (b : bool) (f sr : Z) : Z := if b then u16 (sr .| f) else sr.

Definition top2bits64 (v : Z) : bool :=
  (v .& 0xc0000000 =? 0) || (v .& 0xc0000000 =? 0xc0000000).
Definition top2bits16 (v : Z) : bool := (u16 v .>> 14 =? 0) || (u16 v .>> 14 =? 3).

(** The new status register. *)
Definition sr_flags (carry overflow zero sign over_s32 top2 : bool) (sr : Z) : Z :=
  let sr := u16 (sr .& .~ SR_CMP_MASK) in
  let sr := or_if carry SR_CARRY sr in
  let sr := or_if overflow SR_OVERFLOW_STICKY (or_if overflow SR_OVERFLOW sr) in
  let sr := or_if zero SR_ARITH_ZERO sr in
  let sr := or_if sign SR_SIGN sr in
  let sr := or_if over_s32 SR_OVER_S32 sr in
  or_if top2 SR_TOP2BITS sr.

Definition Update_SR_Register64 (value : Z) (carry overflow : bool) : M unit :=
  upd_regs (fun g => put_sr (sr_flags carry overflow (value =? 0) (value <? 0)
    (negb (value =? s32 value)) (top2bits64 value) (r_sr g)) g).

Definition Update_SR_Register16 (value : Z) (carry overflow overS32 : bool) : M unit :=
  upd_regs (fun g => put_sr (sr_flags carry overflow (value =? 0) (value <? 0)
    overS32 (top2bits16 value) (r_sr g)) g).

Definition Update_SR_LZ (value : bool) : M unit :=
  upd_regs (fun g => put_sr (if value then r_sr g .| SR_LOGIC_ZERO
                             else r_sr g .& .~ SR_LOGIC_ZERO) g).

(** ** Conditions *)

Definition IsCarry (g : DSP_Regs) : bool := flag (r_sr g) SR_CARRY.
Definition IsOverflow (g : DSP_Regs) : bool := flag (r_sr g) SR_OVERFLOW.
Definition IsOverS32 (g : DSP_Regs) : bool := flag (r_sr g) SR_OVER_S32.
Definition IsLess (g : DSP_Regs) : bool := xorb (negb (flag (r_sr g) SR_OVERFLOW)) (negb (flag (r_sr g) SR_SIGN)).
Definition IsZero (g : DSP_Regs) : bool := flag (r_sr g) SR_ARITH_ZERO.
Definition IsLogicZero (g : DSP_Regs) : bool := flag (r_sr g) SR_LOGIC_ZERO.
Definition IsConditionA (g : DSP_Regs) : bool :=
  (flag (r_sr g) SR_OVER_S32 || flag (r_sr g) SR_TOP2BITS) && negb (flag (r_sr g) SR_ARITH_ZERO).

Definition condition (c : Z) (g : DSP_Regs) : bool :=
  match c .& 0xf with
  | 0xf => true
  | 0x0 => negb (IsLess g)
  | 0x1 => IsLess g
  | 0x2 => negb (IsLess g) && negb (IsZero g)
  | 0x3 => IsLess g || IsZero g
  | 0x4 => negb (IsZero g)
  | 0x5 => IsZero g
  | 0x6 => negb (IsCarry g)
  | 0x7 => IsCarry g
  | 0x8 => negb (IsOverS32 g)
  | 0x9 => IsOverS32 g
  | 0xa => IsConditionA g
  | 0xb => negb (IsConditionA g)
  | 0xc => negb (IsLogicZero g)
  | 0xd => IsLogicZero g
  | 0xe => IsOverflow g
  | _ => true
  end.

Definition CheckCondition (c : Z) : M bool := gets (fun s => condition c (r s)).

(** ** Carry and overflow of an operation

    [val] and [result] of the carries are converted to [u64]. *)
Definition isCarry (val result : Z) : bool := u64 result <? u64 val.
Definition isCarry2 (val result : Z) : bool := u64 result <=? u64 val.
Definition isOverflow (val1 val2 res : Z) : bool := (val1 .^ res) .& (val2 .^ res) <? 0.
Definition isOverS32 (acc : Z) : bool := negb (acc =? s32 acc).

(** ** Preservation *)

Lemma safe_Update_SR_Register64 v c o : safe (Update_SR_Register64 v c o).
Proof. unfold Update_SR_Register64. safe_auto. Qed.
Lemma safe_Update_SR_Register16 v c o x : safe (Update_SR_Register16 v c o x).
Proof. unfold Update_SR_Register16. safe_auto. Qed.
Lemma safe_Update_SR_LZ b : safe (Update_SR_LZ b).
Proof. unfold Update_SR_LZ. safe_auto. Qed.
Lemma safe_CheckCondition c : safe (CheckCondition c).
Proof. unfold CheckCondition. safe_auto. Qed.
#[export] Hint Resolve safe_Update_SR_Register64 safe_Update_SR_Register16 safe_Update_SR_LZ
  safe_CheckCondition : wf.

(** ** The flags after an update *)

Lemma testbit_or_if b k sr i :
  0 <= k < 16 -> 0 <= i < 16 ->
  Z.testbit (or_if b (2 ^ k) sr) i = Z.testbit sr i || (b && (i =? k)).
Proof.
  intros Hk Hi. unfold or_if. destruct b; cbn [andb]; [| rewrite orb_false_r; done].
  rewrite testbit_wrapu, Z.lor_spec, Z.pow2_bits_eqb, (Z.eqb_sym k) by lia. split_cmps. done.
Qed.

Lemma testbit_cmp_mask i : 0 <= i -> Z.testbit SR_CMP_MASK i = (i <? 6).
Proof. intros. change SR_CMP_MASK with (Z.ones 6). apply Z.testbit_ones_nonneg; lia. Qed.

Lemma testbit_sr_flags c v z n o t sr i :
  0 <= i < 16 ->
  Z.testbit (sr_flags c v z n o t sr) i =
    (if i =? 0 then c else if i =? 1 then v else if i =? 2 then z else if i =? 3 then n
     else if i =? 4 then o else if i =? 5 then t
     else if i =? 7 then Z.testbit sr 7 || v else Z.testbit sr i).
Proof.
  intros Hi. unfold sr_flags.
  change SR_CARRY with (2 ^ 0). change SR_OVERFLOW with (2 ^ 1). change SR_OVERFLOW_STICKY with (2 ^ 7).
  change SR_ARITH_ZERO with (2 ^ 2). change SR_SIGN with (2 ^ 3). change SR_OVER_S32 with (2 ^ 4).
  change SR_TOP2BITS with (2 ^ 5).
  rewrite !testbit_or_if by lia. rewrite testbit_wrapu, Z.land_spec, testbit_lnot', testbit_cmp_mask by lia.
  split_cmps; cbn [andb negb]; rewrite ?andb_false_r, ?andb_true_r;
    repeat match goal with |- context [i =? ?k] => destruct (Z.eqb_spec i k); subst; cbn [andb orb] end;
    rewrite ?andb_false_r, ?andb_true_r, ?orb_false_r; cbn [orb]; try done; lia.
Qed.

Lemma flag_put_sr k v g : 0 <= k < 16 -> flag (r_sr (put_sr v g)) (2 ^ k) = Z.testbit v k.
Proof. intros. cbn. rewrite flag_testbit, testbit_wrapu by lia. split_cmps. done. Qed.

(** The comparisons, in terms of the flags just stored. *)
Section After.
Context (c v z n o t : bool) (g : DSP_Regs).
Let g' := put_sr (sr_flags c v z n o t (r_sr g)) g.

Lemma after_carry : IsCarry g' = c.
Proof. unfold IsCarry. change SR_CARRY with (2 ^ 0). unfold g'. rewrite flag_put_sr, testbit_sr_flags by lia. done. Qed.
Lemma after_zero : IsZero g' = z.
Proof. unfold IsZero. change SR_ARITH_ZERO with (2 ^ 2). unfold g'. rewrite flag_put_sr, testbit_sr_flags by lia. done. Qed.
Lemma after_overflow : IsOverflow g' = v.
Proof. unfold IsOverflow. change SR_OVERFLOW with (2 ^ 1). unfold g'. rewrite flag_put_sr, testbit_sr_flags by lia. done. Qed.
Lemma after_less : IsLess g' = xorb v n.
Proof.
  unfold IsLess. change SR_OVERFLOW with (2 ^ 1). change SR_SIGN with (2 ^ 3). unfold g'.
  rewrite !flag_put_sr, !testbit_sr_flags by lia. cbn. destruct v, n; done.
Qed.
Lemma after_over_s32 : IsOverS32 g' = o.
Proof. unfold IsOverS32. change SR_OVER_S32 with (2 ^ 4). unfold g'. rewrite flag_put_sr, testbit_sr_flags by lia. done. Qed.
Lemma after_logic_zero : IsLogicZero g' = IsLogicZero g.
Proof.
  unfold IsLogicZero. change SR_LOGIC_ZERO with (2 ^ 6). unfold g'.
  rewrite flag_put_sr, flag_testbit, testbit_sr_flags by lia. done.
Qed.
End After.
#[export] Hint Rewrite after_carry after_zero after_overflow after_less after_over_s32
  after_logic_zero : flags.

(** The overflow test compares sign bits: both operands on one side of zero
    and the result on the other. *)
Lemma isOverflow_signs v1 v2 res :
  isOverflow v1 v2 res = Bool.eqb (v1 <? 0) (v2 <? 0) && negb (Bool.eqb (v1 <? 0) (res <? 0)).
Proof.
  assert (Hlt : forall x y, (x .^ y <? 0) = xorb (x <? 0) (y <? 0)).
  { intros x y. pose proof (Z.lxor_nonneg x y). split_cmps; cbn; lia || done. }
  assert (Hand : forall x y, (x .& y <? 0) = (x <? 0) && (y <? 0)).
  { intros x y. pose proof (Z.land_neg x y). split_cmps; cbn; lia || done. }
  unfold isOverflow. rewrite Hand, !Hlt. destruct (v1 <? 0), (v2 <? 0), (res <? 0); done.
Qed.
