(* ===== verification/DspIntUtil.v ===== *)
(** The operand access of the interpreter ([Interpreter/DSPIntUtil.h]):
    circular arithmetic on the address registers, registers by number with
    their stack and sign-extension side effects, and the 40-bit views of the product
    and the accumulators. The theorems show that the address arithmetic walks
    a circular buffer, and what rounding and saturation compute. *)

From S2P Require Import Prelude DspState DspTables DspStacks DspImem DspAnalyzer DspCore.
Open Scope Z_scope.

(** ** Address registers

    [ar], [wr] are [u32] copies of the registers and [ix] an [s32]; the result
    is the value [return nar] converts to [u16]. *)

Definition wrap_mask (wr : Z) : Z := u32 ((wr .| 1) .<< 1).

Definition increase_addr (ar wr ix : Z) : Z :=
  let mx := wrap_mask wr in
  let nar := u32 (ar + ix) in
  let dar := (nar .^ ar .^ u32 ix) .& mx in
  u16 (if 0 <=? ix then
         if wr <? dar then u32 (nar - (wr + 1)) else nar
       else
         if (u32 (nar + wr + 1) .^ nar) .& dar <=? wr then u32 (nar + (wr + 1)) else nar).

Definition decrease_addr (ar wr ix : Z) : Z :=
  let mx := wrap_mask wr in
  let nar := u32 (ar - ix) in
  let dar := (nar .^ ar .^ u32 (.~ ix)) .& mx in
  u16 (if 0xFFFF8000 <? u32 ix then
         if wr <? dar then u32 (nar - (wr + 1)) else nar
       else
         if (u32 (nar + wr + 1) .^ nar) .& dar <=? wr then u32 (nar + (wr + 1)) else nar).

Definition increment_addr (ar wr : Z) : Z :=
  let nar := u32 (ar + 1) in
  u16 (if wrap_mask wr <? nar .^ ar then u32 (nar - (wr + 1)) else nar).

Definition decrement_addr (ar wr : Z) : Z :=
  let nar := u32 (ar + wr) in
  u16 (if wr <? (nar .^ ar) .& wrap_mask wr then u32 (nar - (wr + 1)) else nar).

Definition dsp_increase_addr_reg (reg ix : Z) (g : DSP_Regs) : Z :=
  increase_addr (zget (r_ar g) reg) (zget (r_wr g) reg) ix.
Definition dsp_decrease_addr_reg (reg ix : Z) (g : DSP_Regs) : Z :=
  decrease_addr (zget (r_ar g) reg) (zget (r_wr g) reg) ix.
Definition dsp_increment_addr_reg (reg : Z) (g : DSP_Regs) : Z :=
  increment_addr (zget (r_ar g) reg) (zget (r_wr g) reg).
Definition dsp_decrement_addr_reg (reg : Z) (g : DSP_Regs) : Z :=
  decrement_addr (zget (r_ar g) reg) (zget (r_wr g) reg).

(** ** Registers by number *)

(** [static_cast<StackRegister>(n)] *)
Definition stack_of (n : Z) : StackRegister :=
  match n with 0 => Call | 1 => Data | 2 => LoopAddress | _ => LoopCounter end.

(** All registers but the stacks read as [DSPCore_ReadRegister] reads them. *)
Definition dsp_op_read_reg (_reg : Z) : M Z :=
  let reg := _reg .& 0x1f in
  if among reg DSP_REG_ST0 4 then dsp_reg_load_stack (stack_of (reg - DSP_REG_ST0))
  else gets (fun s => read_register reg (r s)).

Definition dsp_op_write_reg (_reg val : Z) : M unit :=
  let reg := _reg .& 0x1f in
  if among reg DSP_REG_ACH0 2 then upd_regs (put_ac_fld (reg - DSP_REG_ACH0) 32 (u16 (s16 (s8 (u8 val)))))
  else if among reg DSP_REG_ST0 4 then dsp_reg_store_stack (stack_of (reg - DSP_REG_ST0)) val
  else upd_regs (write_register reg val).

Definition dsp_conditional_extend_accum (reg : Z) : M unit :=
  if among reg DSP_REG_ACM0 2 then
    upd_regs (fun g =>
      if flag (r_sr g) SR_40_MODE_BIT then
        let val := ac_m g (reg - DSP_REG_ACM0) in
        put_ac_fld (reg - DSP_REG_ACM0) 0 0
          (put_ac_fld (reg - DSP_REG_ACM0) 32 (if flag val 0x8000 then 0xFFFF else 0x0000) g)
      else g)
  else mret tt.

(** ** The product *)

Definition dsp_get_long_prod (g : DSP_Regs) : Z :=
  let val := s8 (u8 (prod_h g)) .<< 32 in
  let low_prod := prod_m g in
  let low_prod := low_prod + prod_m2 g in
  let low_prod := low_prod .<< 16 in
  let low_prod := low_prod .| prod_l g in
  s64 (val + low_prod).

(** Rounding to a multiple of [2^16]. *)
Definition round_long (v : Z) : Z :=
  if flag v 0x10000 then s64 (v + 0x8000) .& .~ 0xffff else s64 (v + 0x7fff) .& .~ 0xffff.

Definition dsp_get_long_prod_round_prodl (g : DSP_Regs) : Z := round_long (dsp_get_long_prod g).

Definition dsp_set_long_prod (val : Z) (g : DSP_Regs) : DSP_Regs :=
  put_prod (val .& 0x000000FFFFFFFFFF) g.

(** ** The accumulators *)

Definition dsp_get_long_acc (reg : Z) (g : DSP_Regs) : Z :=
  s64 (u64 (zget (r_ac g) reg .<< 24)) .>> 24.
Definition dsp_set_long_acc (reg val : Z) (g : DSP_Regs) : DSP_Regs := put_ac reg (u64 val) g.
Definition dsp_convert_long_acc (val : Z) : Z := s64 (val .<< 24) .>> 24.
Definition dsp_round_long_acc (val : Z) : Z := round_long val.

Definition dsp_get_acc_l (reg : Z) (g : DSP_Regs) : Z := s16 (ac_l g reg).
Definition dsp_get_acc_m (reg : Z) (g : DSP_Regs) : Z := s16 (ac_m g reg).
Definition dsp_get_acc_h (reg : Z) (g : DSP_Regs) : Z := s16 (ac_h g reg).

Definition dsp_op_read_reg_and_saturate (reg : Z) (g : DSP_Regs) : Z :=
  if flag (r_sr g) SR_40_MODE_BIT then
    let acc := dsp_get_long_acc reg g in
    if negb (acc =? s32 acc) then if 0 <? acc then 0x7fff else 0x8000
    else ac_m g reg
  else ac_m g reg.

Definition dsp_get_long_acx (reg : Z) (g : DSP_Regs) : Z :=
  s32 ((u32 (ax_h g reg .<< 16)) .| ax_l g reg).
Definition dsp_get_ax_l (reg : Z) (g : DSP_Regs) : Z := s16 (ax_l g reg).
Definition dsp_get_ax_h (reg : Z) (g : DSP_Regs) : Z := s16 (ax_h g reg).

(** ** Preservation *)

Lemma safe_op_read_reg reg : safe (dsp_op_read_reg reg).
Proof. unfold dsp_op_read_reg. safe_auto. Qed.
Lemma safe_op_write_reg reg v : safe (dsp_op_write_reg reg v).
Proof. unfold dsp_op_write_reg. safe_auto. Qed.
Lemma safe_conditional_extend reg : safe (dsp_conditional_extend_accum reg).
Proof. unfold dsp_conditional_extend_accum. safe_auto. Qed.
Lemma wf_set_long_prod v g : wf_regs g -> wf_regs (dsp_set_long_prod v g).
Proof. intros. unfold dsp_set_long_prod. auto with wf. Qed.
Lemma wf_set_long_acc i v g : wf_regs g -> wf_regs (dsp_set_long_acc i v g).
Proof. intros. unfold dsp_set_long_acc. auto with wf. Qed.
#[export] Hint Resolve safe_op_read_reg safe_op_write_reg safe_conditional_extend
  wf_set_long_prod wf_set_long_acc : wf.

(** ** The 40-bit views *)

Lemma s40_shift v : s64 (v .<< 24) .>> 24 = wraps 40 v.
Proof.
  rewrite Z.shiftl_mul_pow2, Z.shiftr_div_pow2 by lia. unfold wraps.
  change (2 ^ (64 - 1)) with (2 ^ (40 - 1) * 2 ^ 24). change (2 ^ 64) with (2 ^ 40 * 2 ^ 24).
  rewrite <- Z.mul_add_distr_r, Zmult_mod_distr_r, <- Z.mul_sub_distr_r, Z.div_mul by done. done.
Qed.

Lemma get_long_acc_s40 reg g : dsp_get_long_acc reg g = wraps 40 (zget (r_ac g) reg).
Proof. unfold dsp_get_long_acc. rewrite wraps_wrapu_le by lia. apply s40_shift. Qed.

Lemma convert_long_acc_s40 v : dsp_convert_long_acc v = wraps 40 v.
Proof. unfold dsp_convert_long_acc. apply s40_shift. Qed.

Lemma get_long_acc_range reg g : ins 40 (dsp_get_long_acc reg g).
Proof. rewrite get_long_acc_s40. apply wraps_range. lia. Qed.

(** Reading back a value stored in an accumulator. *)
Lemma get_set_long_acc reg v g :
  wf_regs g -> 0 <= reg < 2 -> dsp_get_long_acc reg (dsp_set_long_acc reg v g) = wraps 40 v.
Proof.
  intros Hg Hr. rewrite get_long_acc_s40. unfold dsp_set_long_acc. cbn.
  rewrite (zget_zset_same 2 64) by (lia || apply Hg). rewrite !wraps_wrapu_le by lia. done.
Qed.

Lemma get_set_long_acc_other reg reg' v g :
  0 <= reg -> 0 <= reg' -> reg <> reg' ->
  dsp_get_long_acc reg (dsp_set_long_acc reg' v g) = dsp_get_long_acc reg g.
Proof.
  intros. rewrite !get_long_acc_s40. unfold dsp_set_long_acc. cbn.
  rewrite zget_zset_other by lia. done.
Qed.

Lemma get_long_acx_s32 reg g : dsp_get_long_acx reg g = s32 (zget (r_ax g) reg).
Proof.
  unfold dsp_get_long_acx, ax_h, ax_l. apply wraps_eq_mod.
  set (v := zget (r_ax g) reg). apply Z.bits_inj'. intros i Hi.
  rewrite <- !Z.land_ones by lia. unfold fld16. autorewrite with bits.
  rewrite Z.testbit_ones_nonneg by lia. split_cmps; cbn; rewrite ?andb_false_r, ?andb_true_r, ?orb_false_r; try done.
  all: f_equal; try lia.
Qed.

(** The product as arithmetic. *)
Lemma get_long_prod_value g :
  dsp_get_long_prod g =
    s8 (prod_h g) * 2 ^ 32 + (prod_m g + prod_m2 g) * 2 ^ 16 + prod_l g.
Proof.
  unfold dsp_get_long_prod. rewrite wraps_wrapu_le by lia.
  assert (Hl : inu 16 (prod_l g)) by range. assert (Hm : inu 16 (prod_m g)) by range.
  assert (Hm2 : inu 16 (prod_m2 g)) by range.
  pose proof (wraps_range 8 (prod_h g) ltac:(lia)) as Hh. unfold inu, ins in *.
  rewrite lor_shift_add by lia. rewrite Z.shiftl_mul_pow2 by lia.
  rewrite wraps_id; [lia | lia |]. unfold ins. lia.
Qed.

Lemma set_long_prod_fields v g :
  let g' := dsp_set_long_prod v g in
  prod_l g' = v mod 2 ^ 16 /\ prod_m g' = v / 2 ^ 16 mod 2 ^ 16 /\
  prod_h g' = v / 2 ^ 32 mod 2 ^ 8 /\ prod_m2 g' = 0.
Proof.
  assert (Hf : forall lo, 0 <= lo -> fld16 lo (u64 (v .& 0xFFFFFFFFFF)) =
             (v mod 2 ^ 40) / 2 ^ lo mod 2 ^ 16).
  { intros lo Hlo. unfold fld16. change 0xFFFFFFFFFF with (Z.ones 40). rewrite Z.land_ones by lia.
    rewrite (wrapu_id 64). - rewrite Z.shiftr_div_pow2 by lia. done.
    - unfold inu. pose proof (Z.mod_pos_bound v (2 ^ 40) eq_refl). lia. }
  unfold prod_l, prod_m, prod_h, prod_m2, dsp_set_long_prod. cbn [put_prod r_prod set_r_prod].
  rewrite !Hf by lia. change (2 ^ 0) with 1.
  change (2 ^ 40) with (2 ^ 8 * 2 ^ 32). change (2 ^ 48) with (2 ^ 8 * 2 ^ 32 * 2 ^ 8).
  split_and!; Z.to_euclidean_division_equations; lia.
Qed.

Lemma get_set_long_prod v g : dsp_get_long_prod (dsp_set_long_prod v g) = wraps 40 v.
Proof.
  rewrite get_long_prod_value. destruct (set_long_prod_fields v g) as (-> & -> & -> & ->).
  unfold wraps. change (2 ^ (8 - 1)) with 128. change (2 ^ (40 - 1)) with (128 * 2 ^ 32).
  change (2 ^ 40) with (2 ^ 8 * 2 ^ 32).
  Z.to_euclidean_division_equations. lia.
Qed.

(** ** Circular buffers

    A wrap register [wr] makes blocks of [buffer_size wr] addresses, the
    smallest power of two above [wr | 1]; the buffer is the top [wr + 1]
    addresses of its block. *)

Definition buffer_bits (wr : Z) : Z := Z.log2 (wr .| 1) + 1.
Definition buffer_size (wr : Z) : Z := 2 ^ buffer_bits wr.

Lemma lor_1 wr : wr .| 1 = wr + (1 - wr mod 2).
Proof.
  rewrite <- Z.bit0_mod. apply Z.bits_inj'. intros i Hi. rewrite Z.lor_spec.
  destruct (Z.testbit wr 0) eqn:E; cbn [Z.b2z].
  - rewrite Z.sub_diag, Z.add_0_r. destruct (decide (i = 0)) as [-> | Hne].
    + rewrite E. done.
    + change 1 with (2 ^ 0). rewrite Z.pow2_bits_false by lia. apply orb_false_r.
  - rewrite Z.sub_0_r, Z.add_nocarry_lxor.
    + rewrite Z.lxor_spec. change 1 with (2 ^ 0). rewrite Z.pow2_bits_eqb by lia.
      destruct (Z.eqb_spec 0 i) as [<- | Hne]; [rewrite E; done |].
      rewrite orb_false_r, xorb_false_r. done.
    + apply Z.bits_inj'. intros j Hj. rewrite Z.land_spec, Z.testbit_0_l.
      change 1 with (2 ^ 0). rewrite Z.pow2_bits_eqb by lia.
      destruct (Z.eqb_spec 0 j) as [<- | Hne]; [rewrite E; done | apply andb_false_r].
Qed.

Lemma buffer_bounds wr : inu 16 wr ->
  1 <= buffer_bits wr <= 16 /\ 2 ^ (buffer_bits wr - 1) <= (wr .| 1) < buffer_size wr /\
  wr + 1 <= buffer_size wr /\ 2 * (wr .| 1) - buffer_size wr <= wr /\ wr <= (wr .| 1).
Proof.
  intros Hw. unfold inu in Hw. unfold buffer_size, buffer_bits.
  pose proof (lor_1 wr) as Hl. pose proof (Z.mod_pos_bound wr 2 ltac:(lia)).
  pose proof (Z.mod_le wr 2 ltac:(lia) ltac:(lia)).
  assert (Hpos : 0 < (wr .| 1)) by lia.
  assert (Hle : (wr .| 1) < 2 ^ 16)
    by (clear Hpos; rewrite Hl; change (2 ^ 16) with 65536 in *; Z.to_euclidean_division_equations; lia).
  assert (Hev : 2 * (wr .| 1) <= wr + 2 ^ 16 /\ (wr .| 1) <= wr + 1) by lia.
  pose proof (Z.log2_spec (wr .| 1) Hpos) as Hlog. rewrite <- Z.add_1_r in Hlog.
  pose proof (Z.log2_nonneg (wr .| 1)).
  assert (Z.log2 (wr .| 1) < 16) by (apply Z.log2_lt_pow2; lia).
  replace (Z.log2 (wr .| 1) + 1 - 1) with (Z.log2 (wr .| 1)) by lia.
  pose proof (Z.pow_succ_r 2 (Z.log2 (wr .| 1)) ltac:(lia)) as Hs. rewrite <- Z.add_1_r in Hs.
  split_and!; lia.
Qed.

(** The comparisons of the sources against [wr] test one bit. *)
Lemma masked_gt_bit wr x : inu 16 wr -> 0 <= x ->
  (wr <? x .& wrap_mask wr) = Z.testbit x (buffer_bits wr).
Proof.
  intros Hw Hx. destruct (buffer_bounds wr Hw) as (Hk & Hl & _ & Hm & Hwl).
  set (k := buffer_bits wr) in *. unfold buffer_size in *. fold k in Hl, Hm.
  assert (Hp : 2 ^ k <= 2 ^ 16) by (apply Z.pow_le_mono_r; lia).
  assert (Hks : 2 ^ k = 2 * 2 ^ (k - 1)) by (rewrite <- Z.pow_succ_r by lia; f_equal; lia).
  assert (Hmask : wrap_mask wr = 2 * (wr .| 1)).
  { unfold wrap_mask. rewrite Z.shiftl_mul_pow2 by lia. rewrite wrapu_id; unfold inu; lia. }
  rewrite Hmask. remember (2 * (wr .| 1)) as m eqn:Hmv.
  assert (Hbit : Z.testbit m k = true).
  { apply Z.testbit_true; [lia |]. rewrite <- (Z.div_unique_pos m (2 ^ k) 1 (m - 2 ^ k)) by lia. done. }
  destruct (Z.testbit x k) eqn:Ex.
  - apply Z.ltb_lt. assert (2 ^ k <= (x .& m)); [| unfold inu in Hw; lia].
    assert (Hb : Z.testbit (x .& m) k = true) by (rewrite Z.land_spec, Ex, Hbit; done).
    destruct (Z.le_gt_cases (2 ^ k) (x .& m)) as [? | Hlt]; [done |].
    rewrite (testbit_inu_high k (x .& m)) in Hb; [done | lia | | lia].
    split; [apply Z.land_nonneg; lia | done].
  - apply Z.ltb_ge. replace (x .& m) with (x .& (m - 2 ^ k)).
    + pose proof (land_le_r x (m - 2 ^ k) ltac:(lia)). lia.
    + apply Z.bits_inj'. intros i Hi. rewrite !Z.land_spec.
      destruct (decide (i = k)) as [-> | Hne]; [rewrite Ex; done |]. f_equal.
      assert (Hm' : m - 2 ^ k = wrapu k m).
      { unfold wrapu. apply (Z.mod_unique_pos m (2 ^ k) 1); lia. }
      rewrite Hm', testbit_wrapu by lia. destruct (Z.ltb_spec i k); [done |].
      symmetry. apply (testbit_inu_high (k + 1)); [lia | | lia].
      unfold inu. rewrite Z.pow_add_r by lia. lia.
Qed.

Lemma u32_lxor_bit a b c k : 0 <= k < 32 ->
  Z.testbit (u32 a .^ b .^ u32 c) k = Z.testbit (a .^ b .^ c) k.
Proof.
  intros Hk. rewrite !Z.lxor_spec, !testbit_wrapu by lia. split_cmps. done.
Qed.

Lemma lxor_nonneg a b : 0 <= a -> 0 <= b -> 0 <= a .^ b.
Proof. intros. apply Z.lxor_nonneg. lia. Qed.

Lemma u32_nonneg x : 0 <= u32 x.
Proof. apply wrapu_range. lia. Qed.
Lemma u16_u32 x : u16 (u32 x) = u16 x.
Proof. apply wrapu_wrapu_le. lia. Qed.
Lemma u16_u32_sub x y : u16 (u32 (u32 x - y)) = u16 (x - y).
Proof. rewrite u16_u32. apply wrapu_eq_mod. rewrite Zminus_mod, wrapu_mod_le, <- Zminus_mod by lia. done. Qed.
Lemma u16_u32_add x y : u16 (u32 (u32 x + y)) = u16 (x + y).
Proof. rewrite u16_u32. apply wrapu_eq_mod. rewrite Zplus_mod, wrapu_mod_le, <- Zplus_mod by lia. done. Qed.

(** The bit by which [nar + wr + 1] differs from [nar]. *)
Lemma next_block_bit wr nar : inu 16 wr -> 0 <= nar ->
  Z.testbit (u32 (nar + wr + 1) .^ nar) (buffer_bits wr) =
  (buffer_size wr <=? nar mod buffer_size wr + wr + 1).
Proof.
  intros Hw Hn. destruct (buffer_bounds wr Hw) as (Hk & Hl & Hle & _).
  unfold buffer_size in *. set (k := buffer_bits wr) in *.
  rewrite Z.lxor_spec, testbit_wrapu by lia. destruct (Z.ltb_spec k 32); [| lia].
  pose proof (testbit_xorb_carry nar wr 1 k ltac:(lia) ltac:(lia)) as Hc.
  rewrite !Z.lxor_spec in Hc. rewrite (testbit_inu_high k wr k), xorb_false_r in Hc;
    [| lia | unfold inu in *; lia | lia].
  cbn [andb]. rewrite Hc, (Z.mod_small wr) by (unfold inu in *; lia). done.
Qed.

(** A number and its successor differ up to the first clear bit. *)
Lemma lxor_parts a b k : 0 <= k ->
  a .^ b = (a / 2 ^ k .^ (b / 2 ^ k)) * 2 ^ k + (a mod 2 ^ k .^ (b mod 2 ^ k)).
Proof.
  intros Hk. pose proof (pow2_pos k Hk).
  rewrite (Z.div_mod (a .^ b) (2 ^ k)) at 1 by lia. rewrite Z.mul_comm. f_equal.
  - rewrite <- !Z.shiftr_div_pow2 by done. rewrite Z.shiftr_lxor. done.
  - rewrite <- !Z.land_ones by done. apply Z.bits_inj'. intros i Hi.
    rewrite !Z.land_spec, !Z.lxor_spec, !Z.land_spec. btauto.
Qed.

Lemma succ_lxor_low a k : 0 <= a -> 0 <= k -> a mod 2 ^ k <> 2 ^ k - 1 -> (a + 1) .^ a < 2 ^ k.
Proof.
  intros Ha Hk Hne. pose proof (pow2_pos k Hk). pose proof (Z.mod_pos_bound a (2 ^ k) ltac:(lia)).
  pose proof (Z.div_mod a (2 ^ k) ltac:(lia)) as Hd.
  rewrite (lxor_parts (a + 1) a k Hk).
  replace ((a + 1) / 2 ^ k) with (a / 2 ^ k) by (apply (Z.div_unique_pos _ _ _ (a mod 2 ^ k + 1)); lia).
  rewrite Z.lxor_nilpotent.
  assert (inu k ((a + 1) mod 2 ^ k .^ (a mod 2 ^ k))); [| unfold inu in *; lia].
  apply inu_testbit; [done |]. intros i Hi. rewrite Z.lxor_spec.
  rewrite !(testbit_inu_high k) by (lia || (unfold inu; apply Z.mod_pos_bound; lia)). done.
Qed.

Lemma succ_lxor_high a k :
  0 <= a -> 0 <= k -> a mod 2 ^ k = 2 ^ k - 1 -> 2 ^ k * 2 - 1 <= (a + 1) .^ a.
Proof.
  intros Ha Hk E. pose proof (pow2_pos k Hk). pose proof (Z.div_mod a (2 ^ k) ltac:(lia)) as Hd.
  pose proof (Z.div_pos a (2 ^ k) Ha ltac:(lia)) as Hq.
  rewrite (lxor_parts (a + 1) a k Hk).
  replace ((a + 1) / 2 ^ k) with (a / 2 ^ k + 1) by (apply (Z.div_unique_pos _ _ _ 0); lia).
  replace ((a + 1) mod 2 ^ k) with 0 by (apply (Z.mod_unique_pos _ _ (a / 2 ^ k + 1)); lia).
  rewrite E, Z.lxor_0_l.
  assert (0 < ((a / 2 ^ k + 1) .^ (a / 2 ^ k))); [| nia].
  pose proof (lxor_nonneg (a / 2 ^ k + 1) (a / 2 ^ k) ltac:(lia) Hq).
  destruct (Z.eq_dec ((a / 2 ^ k + 1) .^ (a / 2 ^ k)) 0) as [E0 | ?]; [| lia].
  apply Z.lxor_eq in E0. lia.
Qed.

(** *** The four operations as arithmetic *)

Section Addressing.
Context (ar wr : Z) (Har : inu 16 ar) (Hwr : inu 16 wr).
Let M := buffer_size wr.

Lemma increment_value :
  increment_addr ar wr = u16 (if ar mod M =? M - 1 then ar - wr else ar + 1).
Proof using Har Hwr.
  destruct (buffer_bounds wr Hwr) as (Hk & Hl & Hle & Hm & Hwl). subst M. unfold buffer_size in *.
  set (k := buffer_bits wr) in *. unfold increment_addr.
  assert (Hp : 2 ^ k <= 2 ^ 16) by (apply Z.pow_le_mono_r; lia). unfold inu in *.
  assert (Hks : 2 ^ k = 2 * 2 ^ (k - 1)) by (rewrite <- Z.pow_succ_r by lia; f_equal; lia).
  rewrite (wrapu_id 32 (ar + 1)) by (unfold inu; lia).
  assert (Hmask : wrap_mask wr = 2 * (wr .| 1)).
  { unfold wrap_mask. rewrite Z.shiftl_mul_pow2 by lia. rewrite wrapu_id; unfold inu; lia. }
  rewrite Hmask. destruct (Z.eqb_spec (ar mod 2 ^ k) (2 ^ k - 1)) as [E | E].
  - pose proof (succ_lxor_high ar k ltac:(lia) ltac:(lia) E). split_cmps.
    rewrite u16_u32. f_equal. lia.
  - pose proof (succ_lxor_low ar k ltac:(lia) ltac:(lia) E). split_cmps. done.
Qed.

Lemma decrement_value :
  decrement_addr ar wr = u16 (if M <=? ar mod M + wr then ar - 1 else ar + wr).
Proof using Har Hwr.
  destruct (buffer_bounds wr Hwr) as (Hk & Hl & Hle & _). unfold decrement_addr.
  assert (H32 : u32 (ar + wr) = ar + wr) by (apply wrapu_id; unfold inu in *; lia).
  rewrite H32, masked_gt_bit by (try done; apply lxor_nonneg; unfold inu in *; lia).
  subst M. unfold buffer_size in *. set (k := buffer_bits wr) in *.
  pose proof (testbit_xorb_carry ar wr 0 k ltac:(lia) ltac:(lia)) as Hc.
  rewrite Z.lxor_spec, (testbit_inu_high k wr k), xorb_false_r, !Z.add_0_r in Hc;
    [| lia | unfold inu in *; lia | lia].
  rewrite Hc, (Z.mod_small wr) by (unfold inu in *; lia).
  destruct (2 ^ k <=? ar mod 2 ^ k + wr); [rewrite u16_u32; f_equal; lia | done].
Qed.

(** The carry of an addition out of the block. *)
Lemma carry_bit ix c :
  0 <= c <= 1 ->
  (wr <? (u32 (ar + ix + c) .^ ar .^ u32 ix) .& wrap_mask wr) = (M <=? ar mod M + ix mod M + c).
Proof using Har Hwr.
  intros Hc. destruct (buffer_bounds wr Hwr) as (Hk & _).
  rewrite masked_gt_bit; [| done | repeat apply lxor_nonneg; try apply u32_nonneg; apply Har].
  rewrite u32_lxor_bit by lia. apply testbit_xorb_carry; lia.
Qed.

(** The second test of the operations that may go below the buffer. *)
Lemma below_bit nar ix :
  0 <= nar -> 
  ((u32 (nar + wr + 1) .^ nar) .& ((nar .^ ar .^ u32 ix) .& wrap_mask wr) <=? wr) =
  negb ((M <=? nar mod M + wr + 1) && (wr <? (nar .^ ar .^ u32 ix) .& wrap_mask wr)).
Proof using Har Hwr.
  intros Hn. rewrite Z.land_assoc, Z.leb_antisym. f_equal.
  assert (0 <= nar .^ ar .^ u32 ix) by (repeat apply lxor_nonneg; try apply u32_nonneg; apply Har || done).
  assert (0 <= u32 (nar + wr + 1) .^ nar) by (apply lxor_nonneg; try apply u32_nonneg; done).
  rewrite !masked_gt_bit by (try done; apply Z.land_nonneg; auto).
  rewrite Z.land_spec, next_block_bit by done. done.
Qed.

Lemma mod_u32 x : u32 x mod M = x mod M.
Proof using Hwr.
  destruct (buffer_bounds wr Hwr) as (Hk & _). subst M. apply wrapu_mod_le. lia.
Qed.

Lemma increase_value ix :
  ins 16 ix ->
  increase_addr ar wr ix =
    let carry := M <=? ar mod M + ix mod M in
    u16 (if 0 <=? ix then if carry then ar + ix - (wr + 1) else ar + ix
         else if carry && (M <=? (ar + ix) mod M + wr + 1) then ar + ix else ar + ix + (wr + 1)).
Proof using Har Hwr.
  intros Hix. unfold increase_addr. pose proof (carry_bit ix 0 ltac:(lia)) as Hc.
  rewrite !Z.add_0_r in Hc. rewrite below_bit by apply u32_nonneg. rewrite Hc, mod_u32.
  destruct (0 <=? ix), (M <=? ar mod M + ix mod M); cbn [andb negb];
    rewrite ?andb_true_r, ?andb_false_r; cbn [negb];
    rewrite ?u16_u32_sub, ?u16_u32_add, ?u16_u32; try done.
  destruct (Z.leb M _); cbn [negb]; rewrite ?u16_u32_add, ?u16_u32; done.
Qed.

Lemma decrease_value ix :
  ins 16 ix ->
  decrease_addr ar wr ix =
    let carry := M <=? ar mod M + (.~ ix) mod M + 1 in
    u16 (if (ix <? 0) && negb (ix =? -0x8000) then if carry then ar - ix - (wr + 1) else ar - ix
         else if carry && (M <=? (ar - ix) mod M + wr + 1) then ar - ix else ar - ix + (wr + 1)).
Proof using Har Hwr.
  intros Hix. unfold decrease_addr. pose proof (carry_bit (.~ ix) 1 ltac:(lia)) as Hc.
  replace (ar + .~ ix + 1) with (ar - ix) in Hc by (unfold Z.lnot; lia).
  rewrite below_bit by apply u32_nonneg. rewrite Hc, mod_u32.
  assert (Hneg : (0xFFFF8000 <? u32 ix) = (ix <? 0) && negb (ix =? -0x8000)).
  { unfold ins in Hix. rewrite wrapu_signed by (unfold ins; lia).
    destruct (Z.eqb_spec ix (-0x8000)); split_cmps; cbn; try done; lia. }
  rewrite Hneg. destruct ((ix <? 0) && _), (M <=? ar mod M + (.~ ix) mod M + 1); cbn [andb negb];
    rewrite ?andb_true_r, ?andb_false_r; cbn [negb];
    rewrite ?u16_u32_sub, ?u16_u32_add, ?u16_u32; try done.
  destruct (Z.leb M _); cbn [negb]; rewrite ?u16_u32_add, ?u16_u32; done.
Qed.
End Addressing.

(** ** Properties *)

(** The first address of the buffer that holds [ar]. *)
Definition buffer_base (ar wr : Z) : Z :=
  ar - ar mod buffer_size wr + (buffer_size wr - 1 - wr).

Lemma mod_plus_below x p m : 0 <= p < m -> (x * m + p) mod m = p.
Proof. intros. rewrite Z.add_comm, Z_mod_plus_full, Z.mod_small by lia. done. Qed.

Lemma mod_cyclic x n : 0 < n -> - n <= x < 2 * n ->
  x mod n = if x <? 0 then x + n else if x <? n then x else x - n.
Proof.
  intros Hn Hx. split_cmps.
  - rewrite <- (Z_mod_plus_full x 1), Z.mod_small by lia. lia.
  - apply Z.mod_small. lia.
  - rewrite <- (Z_mod_plus_full x (-1)), Z.mod_small by lia. lia.
Qed.

(** The address registers walk circular buffers. For an address in the
    buffer its wrap register selects, the four operations add to its position
    modulo the buffer's length [wr + 1] and stay in the buffer, for every step no
    larger than [wr]; only the subtraction of -0x8000, which the source singles
    out because its negation is no 16-bit step, is excepted. *)
Theorem circular_addressing ar wr ix :
  inu 16 ar -> inu 16 wr -> ins 16 ix -> Z.abs ix <= wr ->
  buffer_base ar wr <= ar ->
  let base := buffer_base ar wr in
  let at_position p := base + p mod (wr + 1) in
  increment_addr ar wr = at_position (ar - base + 1) /\
  decrement_addr ar wr = at_position (ar - base - 1) /\
  increase_addr ar wr ix = at_position (ar - base + ix) /\
  (ix <> -0x8000 -> decrease_addr ar wr ix = at_position (ar - base - ix)).
Proof.
  intros Har Hwr Hix Habs Hin base at_position.
  destruct (buffer_bounds wr Hwr) as (Hk & Hl & Hle & _).
  set (M := buffer_size wr) in *. set (lo := ar mod M).
  assert (Hlo : 0 <= lo < M) by (apply Z.mod_pos_bound; unfold inu in *; lia).
  assert (Hbase : base = ar - lo + (M - 1 - wr)) by done.
  assert (Htop : ar - lo + M <= 2 ^ 16 /\ 0 <= ar - lo).
  { assert (2 ^ 16 = 2 ^ (16 - buffer_bits wr) * M)
      by (unfold M, buffer_size; rewrite <- Z.pow_add_r by lia; f_equal; lia).
    unfold inu in Har, Hwr. pose proof (Z.div_mod ar M ltac:(lia)) as Hdm. fold lo in Hdm.
    pose proof (Z.div_pos ar M ltac:(lia) ltac:(lia)).
    assert (ar / M < 2 ^ (16 - buffer_bits wr)) by (apply Z.div_lt_upper_bound; lia).
    nia. }
  assert (Hp : 0 <= ar - base <= wr) by (fold base in Hin; lia). unfold inu, ins in Hwr, Har, Hix.
  assert (Hw : forall x, base <= x <= base + wr -> u16 x = x)
    by (intros; apply wrapu_id; unfold inu; lia).
  unfold at_position. rewrite !mod_cyclic by lia.
  rewrite increment_value, decrement_value, increase_value, decrease_value by (unfold inu, ins; lia).
  fold M lo. cbv zeta.
  assert (Hmi : forall x, - M <= x < M -> x mod M = if x <? 0 then x + M else x).
  { intros x Hx. rewrite mod_cyclic by lia. split_cmps; lia. }
  assert (Hma : forall x, (ar + x) mod M = (lo + x) mod M) by (intros; unfold lo; rewrite Zplus_mod_idemp_l; done).
  replace (ar - ix) with (ar + - ix) by lia. rewrite !Hma.
  unfold Z.lnot. rewrite (Hmi ix), (Hmi (Z.pred (- ix))) by lia.
  rewrite (mod_cyclic (lo + ix) M), (mod_cyclic (lo + - ix) M) by lia. rewrite Hbase in *.
  split_and!; intros; destruct (Z.eqb_spec lo (M - 1)); destruct (Z.eqb_spec ix (-0x8000));
    split_cmps; cbn [andb negb]; split_cmps; rewrite ?Hw; lia.
Qed.

Lemma circular_addressing_witness :
  increment_addr 0x1ff 0x9 = 0x1f6 /\ increase_addr 0x1f8 0x9 (-5) = 0x1fd.
Proof.
  destruct (circular_addressing 0x1ff 0x9 0) as [E _]; [unfold inu, ins; lia .. | vm_compute; discriminate |].
  destruct (circular_addressing 0x1f8 0x9 (-5)) as (_ & _ & F & _); [unfold inu, ins; lia .. | vm_compute; discriminate |].
  split; [exact E | exact F].
Defined.

(** Rounding the product or an accumulator is rounding to the nearest
    multiple of [2^16], halfway cases to the even one. *)
Theorem round_half_even v :
  ins 40 v ->
  let r := dsp_round_long_acc v in
  r mod 2 ^ 16 = 0 /\ Z.abs (r - v) <= 2 ^ 15 /\
  (Z.abs (r - v) = 2 ^ 15 -> (r / 2 ^ 16) mod 2 = 0).
Proof.
  intros Hv r.
  assert (Hr : r = (v + (if Z.testbit v 16 then 0x8000 else 0x7fff)) / 2 ^ 16 * 2 ^ 16).
  { unfold r, dsp_round_long_acc, round_long. change 0x10000 with (2 ^ 16).
    rewrite flag_testbit by lia. unfold ins in Hv.
    assert (Hm : forall x, x .& .~ 0xffff = x / 2 ^ 16 * 2 ^ 16).
    { intros x. rewrite <- Z.ldiff_land. change 0xffff with (Z.ones 16).
      rewrite Z.ldiff_ones_r, Z.shiftl_mul_pow2, Z.shiftr_div_pow2 by lia. done. }
    destruct (Z.testbit v 16); rewrite (wraps_id 64) by (unfold ins; lia); apply Hm. }
  assert (Hb : Z.testbit v 16 = (v / 2 ^ 16 mod 2 =? 1)).
  { rewrite Z.testbit_odd, Z.shiftr_div_pow2 by lia. rewrite Zodd_mod. done. }
  rewrite Hb in Hr. rewrite Hr. clear Hr Hb r Hv. change (2 ^ 16) with 65536. change (2 ^ 15) with 32768.
  split_and!.
  - apply Z_mod_mult.
  - destruct (Z.eqb_spec (v / 65536 mod 2) 1); Z.to_euclidean_division_equations; lia.
  - rewrite Z.div_mul by lia.
    destruct (Z.eqb_spec (v / 65536 mod 2) 1); Z.to_euclidean_division_equations; lia.
Qed.

Lemma round_half_even_witness :
  dsp_round_long_acc 0x18000 mod 2 ^ 16 = 0 /\ dsp_round_long_acc 0x18000 = 0x20000.
Proof.
  destruct (round_half_even 0x18000) as (E & _); [unfold ins; lia |].
  split; [exact E | reflexivity].
Defined.

Lemma ac_m_value reg g : ac_m g reg = dsp_get_long_acc reg g / 2 ^ 16 mod 2 ^ 16.
Proof.
  rewrite get_long_acc_s40. unfold ac_m, fld16. set (v := zget (r_ac g) reg).
  rewrite Z.shiftr_div_pow2 by lia. unfold wrapu, wraps.
  change (2 ^ 40) with (2 ^ 8 * 2 ^ 16 * 2 ^ 16). change (2 ^ (40 - 1)) with (2 ^ 7 * 2 ^ 16 * 2 ^ 16).
  Z.to_euclidean_division_equations. lia.
Qed.

(** Storing from the middle of an accumulator. In 40-bit mode the word is
    the high half of the accumulator clamped to 32 bits, otherwise the high
    half of its low 32 bits. *)
Theorem saturating_read reg g :
  dsp_op_read_reg_and_saturate reg g =
    (let acc := dsp_get_long_acc reg g in
     let v := if flag (r_sr g) SR_40_MODE_BIT then Z.max (- 2 ^ 31) (Z.min (2 ^ 31 - 1) acc) else acc in
     v / 2 ^ 16) mod 2 ^ 16.
Proof.
  unfold dsp_op_read_reg_and_saturate. rewrite ac_m_value. cbv zeta.
  destruct (flag (r_sr g) SR_40_MODE_BIT); [| done].
  set (acc := dsp_get_long_acc reg g). unfold wraps. change (2 ^ (32 - 1)) with (2 ^ 31).
  destruct (Z.eqb_spec acc ((acc + 2 ^ 31) mod 2 ^ 32 - 2 ^ 31)) as [E | E]; cbn [negb].
  - pose proof (Z.mod_pos_bound (acc + 2 ^ 31) (2 ^ 32) eq_refl). f_equal. f_equal. lia.
  - assert (acc < - 2 ^ 31 \/ 2 ^ 31 <= acc).
    { destruct (Z.lt_ge_cases acc (- 2 ^ 31)); [auto |]. destruct (Z.lt_ge_cases acc (2 ^ 31)); [| auto].
      exfalso. apply E. rewrite Z.mod_small; lia. }
    destruct (Z.ltb_spec 0 acc).
    + rewrite Z.min_l, Z.max_r by lia. done.
    + rewrite Z.min_r, Z.max_l by lia. done.
Qed.

(** ** Shared by the instruction files *)

(** Read the register file. *)
Definition rget {A} (f : DSP_Regs -> A) : M A := gets (fun s => f (r s)).

Lemma run_rget {A} (f : DSP_Regs -> A) s : rget f s = Done (f (r s)) s.
Proof. reflexivity. Qed.
#[export] Hint Rewrite @run_rget : run.

Lemma safe_rget {A} (f : DSP_Regs -> A) : safe (rget f).
Proof. apply safe_gets. Qed.
#[export] Hint Resolve safe_rget : wf.

(** [ZeroWriteBackLog] and [ZeroWriteBackLogPreserveAcc] of
    [Interpreter/DSPIntExtOps.cpp]: their bodies are compiled only when
    [PRECISE_BACKLOG] is defined, which the sources never do. *)
Definition ZeroWriteBackLog : M unit := mret tt.
Definition ZeroWriteBackLogPreserveAcc (acc : Z) : M unit := mret tt.
