(* ===== verification/DspArithmetic.v ===== *)
(** Arithmetic and accumulator control ([Interpreter/DSPIntArithmetic.cpp]):
    one definition per instruction handler, in the order of the source.  The
    theorems give the results and flags of the additions, subtractions and
    comparisons, and the shifts by a register. *)

From S2P Require Import Prelude DspState DspTables DspStacks DspImem DspAnalyzer DspCore DspCC DspIntUtil.
Open Scope Z_scope.

Definition clr (opc : Z) : M unit :=
  let reg := bit opc 11 in
  upd_regs (dsp_set_long_acc reg 0);;
  Update_SR_Register64 0 false false;;
  ZeroWriteBackLog.

Definition clrl (opc : Z) : M unit :=
  let reg := bit opc 8 in
  acc ← rget (fun g => dsp_round_long_acc (dsp_get_long_acc reg g));
  ZeroWriteBackLog;;
  upd_regs (dsp_set_long_acc reg acc);;
  Update_SR_Register64 acc false false.

Definition andcf (opc : Z) : M unit :=
  let reg := bit opc 8 in
  imm ← dsp_fetch_code;
  val ← rget (fun g => u16 (dsp_get_acc_m reg g));
  Update_SR_LZ (val .& imm =? imm).

Definition andf (opc : Z) : M unit :=
  let reg := bit opc 8 in
  imm ← dsp_fetch_code;
  val ← rget (fun g => u16 (dsp_get_acc_m reg g));
  Update_SR_LZ (val .& imm =? 0).

Definition tst (opc : Z) : M unit :=
  let reg := bit opc 11 in
  acc ← rget (dsp_get_long_acc reg);
  Update_SR_Register64 acc false false;;
  ZeroWriteBackLog.

Definition tstaxh (opc : Z) : M unit :=
  let reg := bit opc 8 in
  val ← rget (dsp_get_ax_h reg);
  Update_SR_Register16 val false false false;;
  ZeroWriteBackLog.

Definition cmp (opc : Z) : M unit :=
  acc0 ← rget (dsp_get_long_acc 0);
  acc1 ← rget (dsp_get_long_acc 1);
  let res := dsp_convert_long_acc (acc0 - acc1) in
  Update_SR_Register64 res (isCarry2 acc0 res) (isOverflow acc0 (- acc1) res);;
  ZeroWriteBackLog.

Definition cmpar (opc : Z) : M unit :=
  let rreg := bit opc 12 in
  let sreg := bit opc 11 in
  sr ← rget (dsp_get_long_acc sreg);
  rr ← rget (fun g => s16 (ax_h g rreg) .<< 16);
  let res := dsp_convert_long_acc (sr - rr) in
  Update_SR_Register64 res (isCarry2 sr res) (isOverflow sr (- rr) res);;
  ZeroWriteBackLog.

Definition cmpi (opc : Z) : M unit :=
  let reg := bit opc 8 in
  val ← rget (dsp_get_long_acc reg);
  imm0 ← dsp_fetch_code;
  let imm := s16 imm0 .<< 16 in
  let res := dsp_convert_long_acc (val - imm) in
  Update_SR_Register64 res (isCarry2 val res) (isOverflow val (- imm) res).

Definition cmpis (opc : Z) : M unit :=
  let areg := bit opc 8 in
  acc ← rget (dsp_get_long_acc areg);
  let val := s8 opc .<< 16 in
  let res := dsp_convert_long_acc (acc - val) in
  Update_SR_Register64 res (isCarry2 acc res) (isOverflow acc (- val) res).

(** The tail the logic instructions share: store [accm] in the middle of
    [dreg] and set the flags. *)
Definition store_accm (dreg accm : Z) : M unit :=
  upd_regs (put_ac_fld dreg 16 accm);;
  over ← rget (fun g => isOverS32 (dsp_get_long_acc dreg g));
  Update_SR_Register16 (s16 accm) false false over.

Definition xorr (opc : Z) : M unit :=
  let dreg := bit opc 8 in
  let sreg := bit opc 9 in
  accm ← rget (fun g => ac_m g dreg .^ ax_h g sreg);
  ZeroWriteBackLogPreserveAcc dreg;;
  store_accm dreg accm.

Definition andr (opc : Z) : M unit :=
  let dreg := bit opc 8 in
  let sreg := bit opc 9 in
  accm ← rget (fun g => ac_m g dreg .& ax_h g sreg);
  ZeroWriteBackLogPreserveAcc dreg;;
  store_accm dreg accm.

Definition orr (opc : Z) : M unit :=
  let dreg := bit opc 8 in
  let sreg := bit opc 9 in
  accm ← rget (fun g => ac_m g dreg .| ax_h g sreg);
  ZeroWriteBackLogPreserveAcc dreg;;
  store_accm dreg accm.

Definition andc (opc : Z) : M unit :=
  let dreg := bit opc 8 in
  accm ← rget (fun g => ac_m g dreg .& ac_m g (1 - dreg));
  ZeroWriteBackLogPreserveAcc dreg;;
  store_accm dreg accm.

Definition orc (opc : Z) : M unit :=
  let dreg := bit opc 8 in
  accm ← rget (fun g => ac_m g dreg .| ac_m g (1 - dreg));
  ZeroWriteBackLogPreserveAcc dreg;;
  store_accm dreg accm.

Definition xorc (opc : Z) : M unit :=
  let dreg := bit opc 8 in
  accm ← rget (fun g => ac_m g dreg .^ ac_m g (1 - dreg));
  ZeroWriteBackLogPreserveAcc dreg;;
  store_accm dreg accm.

Definition notc (opc : Z) : M unit :=
  let dreg := bit opc 8 in
  accm ← rget (fun g => ac_m g dreg .^ 0xffff);
  ZeroWriteBackLogPreserveAcc dreg;;
  store_accm dreg accm.

Definition xori (opc : Z) : M unit :=
  let reg := bit opc 8 in
  imm ← dsp_fetch_code;
  accm ← rget (fun g => ac_m g reg .^ imm);
  store_accm reg accm.

Definition andi (opc : Z) : M unit :=
  let reg := bit opc 8 in
  imm ← dsp_fetch_code;
  accm ← rget (fun g => ac_m g reg .& imm);
  store_accm reg accm.

Definition ori (opc : Z) : M unit :=
  let reg := bit opc 8 in
  imm ← dsp_fetch_code;
  accm ← rget (fun g => ac_m g reg .| imm);
  store_accm reg accm.

(** The switch of ADDR, SUBR and MOVR on [sreg]. *)
Definition ax_operand (sreg : Z) (g : DSP_Regs) : Z :=
  if among sreg DSP_REG_AXL0 2 then s16 (ax_l g (sreg - DSP_REG_AXL0))
  else if among sreg DSP_REG_AXH0 2 then s16 (ax_h g (sreg - DSP_REG_AXH0))
  else 0.

(** The tail of the additions: store [acc + x] and set the flags from the
    value the accumulator then has; that of the subtractions for [acc - x]. *)
Definition store_sum (dreg acc x : Z) : M unit :=
  let res := acc + x in
  ZeroWriteBackLog;;
  upd_regs (dsp_set_long_acc dreg res);;
  res ← rget (dsp_get_long_acc dreg);
  Update_SR_Register64 res (isCarry acc res) (isOverflow acc x res).

Definition store_difference (dreg acc x : Z) : M unit :=
  let res := acc - x in
  ZeroWriteBackLog;;
  upd_regs (dsp_set_long_acc dreg res);;
  res ← rget (dsp_get_long_acc dreg);
  Update_SR_Register64 res (isCarry2 acc res) (isOverflow acc (- x) res).

Definition addr (opc : Z) : M unit :=
  let dreg := bit opc 8 in
  let sreg := ((opc .>> 9) .& 0x3) + DSP_REG_AXL0 in
  acc ← rget (dsp_get_long_acc dreg);
  ax ← rget (fun g => ax_operand sreg g .<< 16);
  store_sum dreg acc ax.

Definition addax (opc : Z) : M unit :=
  let dreg := bit opc 8 in
  let sreg := bit opc 9 in
  acc ← rget (dsp_get_long_acc dreg);
  ax ← rget (dsp_get_long_acx sreg);
  store_sum dreg acc ax.

Definition add (opc : Z) : M unit :=
  let dreg := bit opc 8 in
  acc0 ← rget (dsp_get_long_acc dreg);
  acc1 ← rget (dsp_get_long_acc (1 - dreg));
  store_sum dreg acc0 acc1.

Definition addp (opc : Z) : M unit :=
  let dreg := bit opc 8 in
  acc ← rget (dsp_get_long_acc dreg);
  prod ← rget dsp_get_long_prod;
  store_sum dreg acc prod.

Definition addaxl (opc : Z) : M unit :=
  let sreg := bit opc 9 in
  let dreg := bit opc 8 in
  acc ← rget (dsp_get_long_acc dreg);
  acx ← rget (fun g => u16 (dsp_get_ax_l sreg g));
  store_sum dreg acc acx.

Definition addi (opc : Z) : M unit :=
  let areg := bit opc 8 in
  acc ← rget (dsp_get_long_acc areg);
  imm ← dsp_fetch_code;
  store_sum areg acc (s16 imm .<< 16).

Definition addis (opc : Z) : M unit :=
  let dreg := bit opc 8 in
  acc ← rget (dsp_get_long_acc dreg);
  store_sum dreg acc (s8 (u8 opc) .<< 16).

Definition incm (opc : Z) : M unit :=
  let dreg := bit opc 8 in
  acc ← rget (dsp_get_long_acc dreg);
  store_sum dreg acc 0x10000.

Definition inc (opc : Z) : M unit :=
  let dreg := bit opc 8 in
  acc ← rget (dsp_get_long_acc dreg);
  store_sum dreg acc 1.

Definition subr (opc : Z) : M unit :=
  let dreg := bit opc 8 in
  let sreg := ((opc .>> 9) .& 0x3) + DSP_REG_AXL0 in
  acc ← rget (dsp_get_long_acc dreg);
  ax ← rget (fun g => ax_operand sreg g .<< 16);
  store_difference dreg acc ax.

Definition subax (opc : Z) : M unit :=
  let dreg := bit opc 8 in
  let sreg := bit opc 9 in
  acc ← rget (dsp_get_long_acc dreg);
  acx ← rget (dsp_get_long_acx sreg);
  store_difference dreg acc acx.

Definition sub (opc : Z) : M unit :=
  let dreg := bit opc 8 in
  acc1 ← rget (dsp_get_long_acc dreg);
  acc2 ← rget (dsp_get_long_acc (1 - dreg));
  store_difference dreg acc1 acc2.

Definition subp (opc : Z) : M unit :=
  let dreg := bit opc 8 in
  acc ← rget (dsp_get_long_acc dreg);
  prod ← rget dsp_get_long_prod;
  store_difference dreg acc prod.

Definition decm (opc : Z) : M unit :=
  let dreg := bit opc 8 in
  acc ← rget (dsp_get_long_acc dreg);
  store_difference dreg acc 0x10000.

Definition dec (opc : Z) : M unit :=
  let dreg := bit opc 8 in
  acc ← rget (dsp_get_long_acc dreg);
  store_difference dreg acc 1.

(** The tail of the instructions whose flags are those of the value stored. *)
Definition store_acc (dreg acc : Z) : M unit :=
  upd_regs (dsp_set_long_acc dreg acc);;
  res ← rget (dsp_get_long_acc dreg);
  Update_SR_Register64 res false false.

Definition neg (opc : Z) : M unit :=
  let dreg := bit opc 8 in
  acc ← rget (dsp_get_long_acc dreg);
  ZeroWriteBackLog;;
  store_acc dreg (0 - acc).

Definition abs (opc : Z) : M unit :=
  let dreg := bit opc 11 in
  acc ← rget (dsp_get_long_acc dreg);
  ZeroWriteBackLog;;
  store_acc dreg (if acc <? 0 then 0 - acc else acc).

Definition movr (opc : Z) : M unit :=
  let areg := bit opc 8 in
  let sreg := ((opc .>> 9) .& 0x3) + DSP_REG_AXL0 in
  ax ← rget (fun g => (ax_operand sreg g .<< 16) .& .~ 0xffff);
  ZeroWriteBackLog;;
  upd_regs (dsp_set_long_acc areg ax);;
  Update_SR_Register64 ax false false.

Definition movax (opc : Z) : M unit :=
  let dreg := bit opc 8 in
  let sreg := bit opc 9 in
  acx ← rget (dsp_get_long_acx sreg);
  ZeroWriteBackLog;;
  upd_regs (dsp_set_long_acc dreg acx);;
  Update_SR_Register64 acx false false.

Definition mov (opc : Z) : M unit :=
  let dreg := bit opc 8 in
  acc ← rget (dsp_get_long_acc (1 - dreg));
  ZeroWriteBackLog;;
  upd_regs (dsp_set_long_acc dreg acc);;
  Update_SR_Register64 acc false false.

Definition MASK_40 : Z := 0x000000FFFFFFFFFF.

Definition lsl16 (opc : Z) : M unit :=
  let areg := bit opc 8 in
  acc ← rget (dsp_get_long_acc areg);
  ZeroWriteBackLog;;
  store_acc areg (acc .<< 16).

Definition lsr16 (opc : Z) : M unit :=
  let areg := bit opc 8 in
  acc ← rget (dsp_get_long_acc areg);
  ZeroWriteBackLog;;
  store_acc areg ((u64 acc .& MASK_40) .>> 16).

Definition asr16 (opc : Z) : M unit :=
  let areg := bit opc 11 in
  acc ← rget (dsp_get_long_acc areg);
  ZeroWriteBackLog;;
  store_acc areg (acc .>> 16).

Definition lsl (opc : Z) : M unit :=
  let rreg := bit opc 8 in
  let shift := opc .& 0x3f in
  acc ← rget (dsp_get_long_acc rreg);
  store_acc rreg (u64 (u64 acc .<< shift)).

(** The shift count of LSR and ASR. *)
Definition negated_shift (opc : Z) : Z := if opc .& 0x3f =? 0 then 0 else 0x40 - (opc .& 0x3f).

Definition lsr (opc : Z) : M unit :=
  let rreg := bit opc 8 in
  acc ← rget (dsp_get_long_acc rreg);
  store_acc rreg ((u64 acc .& MASK_40) .>> negated_shift opc).

Definition asl (opc : Z) : M unit :=
  let rreg := bit opc 8 in
  let shift := opc .& 0x3f in
  acc ← rget (dsp_get_long_acc rreg);
  store_acc rreg (u64 (u64 acc .<< shift)).

Definition asr (opc : Z) : M unit :=
  let dreg := bit opc 8 in
  acc ← rget (dsp_get_long_acc dreg);
  store_acc dreg (acc .>> negated_shift opc).

(** The signed 7-bit shift count in a register. *)
Definition register_shift (v : Z) : Z :=
  if v .& 0x3f =? 0 then 0
  else if flag v 0x40 then - 0x40 + (v .& 0x3f)
  else v .& 0x3f.

(** [if (shift > 0) acc >>= shift; else if (shift < 0) acc <<= -shift;] on a
    [u64] and on an [s64], and the same with the directions exchanged. *)
Definition shift_right_u64 (shift acc : Z) : Z :=
  if 0 <? shift then acc .>> shift else if shift <? 0 then u64 (acc .<< - shift) else acc.
Definition shift_right_s64 (shift acc : Z) : Z :=
  if 0 <? shift then acc .>> shift else if shift <? 0 then s64 (acc .<< - shift) else acc.
Definition shift_left_u64 (shift acc : Z) : Z :=
  if 0 <? shift then u64 (acc .<< shift) else if shift <? 0 then acc .>> - shift else acc.
Definition shift_left_s64 (shift acc : Z) : Z :=
  if 0 <? shift then s64 (acc .<< shift) else if shift <? 0 then acc .>> - shift else acc.

Definition lsrn (opc : Z) : M unit :=
  accm ← rget (fun g => u16 (dsp_get_acc_m 1 g));
  acc ← rget (dsp_get_long_acc 0);
  store_acc 0 (shift_right_u64 (register_shift accm) (u64 acc .& MASK_40)).

Definition asrn (opc : Z) : M unit :=
  accm ← rget (fun g => u16 (dsp_get_acc_m 1 g));
  acc ← rget (dsp_get_long_acc 0);
  store_acc 0 (shift_right_s64 (register_shift accm) acc).

Definition lsrnrx (opc : Z) : M unit :=
  let dreg := bit opc 8 in
  let sreg := bit opc 9 in
  axh ← rget (fun g => ax_h g sreg);
  acc ← rget (dsp_get_long_acc dreg);
  ZeroWriteBackLog;;
  store_acc dreg (shift_left_u64 (register_shift axh) (u64 acc .& MASK_40)).

Definition asrnrx (opc : Z) : M unit :=
  let dreg := bit opc 8 in
  let sreg := bit opc 9 in
  axh ← rget (fun g => ax_h g sreg);
  acc ← rget (dsp_get_long_acc dreg);
  ZeroWriteBackLog;;
  store_acc dreg (shift_left_s64 (register_shift axh) acc).

Definition lsrnr (opc : Z) : M unit :=
  let dreg := bit opc 8 in
  accm ← rget (fun g => u16 (dsp_get_acc_m (1 - dreg) g));
  acc ← rget (dsp_get_long_acc dreg);
  ZeroWriteBackLog;;
  store_acc dreg (shift_left_u64 (register_shift accm) (u64 acc .& MASK_40)).

Definition asrnr (opc : Z) : M unit :=
  let dreg := bit opc 8 in
  accm ← rget (fun g => u16 (dsp_get_acc_m (1 - dreg) g));
  acc ← rget (dsp_get_long_acc dreg);
  ZeroWriteBackLog;;
  store_acc dreg (shift_left_s64 (register_shift accm) acc).

(** ** Preservation *)

Lemma safe_zero_log : safe ZeroWriteBackLog.
Proof. unfold ZeroWriteBackLog. safe_auto. Qed.
Lemma safe_zero_log_acc a : safe (ZeroWriteBackLogPreserveAcc a).
Proof. unfold ZeroWriteBackLogPreserveAcc. safe_auto. Qed.
#[export] Hint Resolve safe_zero_log safe_zero_log_acc : wf.

Lemma safe_store_accm d v : safe (store_accm d v).
Proof. unfold store_accm. safe_auto. Qed.
Lemma safe_store_sum d a x : safe (store_sum d a x).
Proof. unfold store_sum. safe_auto. Qed.
Lemma safe_store_difference d a x : safe (store_difference d a x).
Proof. unfold store_difference. safe_auto. Qed.
Lemma safe_store_acc d a : safe (store_acc d a).
Proof. unfold store_acc. safe_auto. Qed.
#[export] Hint Resolve safe_store_accm safe_store_sum safe_store_difference safe_store_acc : wf.

Ltac safe_op op := unfold op; cbv zeta; safe_auto.

(** Every handler of this file, in the order of the source. *)
Definition arithmetic_handlers : list (Z -> M unit) := [
  clr; clrl; andcf; andf; tst; tstaxh; cmp; cmpar; cmpi; cmpis; xorr; andr; orr; andc; orc; xorc;
  notc; xori; andi; ori; addr; addax; add; addp; addaxl; addi; addis; incm; inc; subr; subax; sub;
  subp; decm; dec; neg; abs; movr; movax; mov; lsl16; lsr16; asr16; lsl; lsr; asl; asr; lsrn; asrn;
  lsrnrx; asrnrx; lsrnr; asrnr
].

Lemma safe_arithmetic : Forall (fun f => forall opc, safe (f opc)) arithmetic_handlers.
Proof.
  repeat constructor; intros opc; match goal with |- safe (?f opc) => unfold f end;
    cbv zeta; safe_auto.
Qed.

(** ** Results and flags of the additions, subtractions and comparisons *)

(** The flags describe the exact result of an operation on the integers,
    whether or not it fits 40 bits. *)
Record exact_flags (g : DSP_Regs) (carry : bool) (exact : Z) : Prop := {
  exact_carry : IsCarry g = carry;
  exact_overflow : IsOverflow g = negb (bool_decide (ins 40 exact));
  exact_zero : IsZero g = (wraps 40 exact =? 0);
  exact_less : IsLess g = (exact <? 0)
}.

Lemma run_Update_SR_Register64 v c o s :
  Update_SR_Register64 v c o s =
    Done tt (upd_r (fun g => put_sr (sr_flags c o (v =? 0) (v <? 0) (negb (v =? s32 v)) (top2bits64 v) (r_sr g)) g) s).
Proof. reflexivity. Qed.

Lemma u64_s40 v : ins 40 v -> u64 v = if v <? 0 then v + 2 ^ 64 else v.
Proof. intros Hv. apply wrapu_signed; [lia |]. unfold ins in *. lia. Qed.

(** Sign-extended 40-bit values compare as unsigned 64-bit ones the way
    they compare as unsigned 40-bit ones. *)
Lemma u64_ltb_s40 v w : ins 40 v -> ins 40 w -> (u64 v <? u64 w) = (v mod 2 ^ 40 <? w mod 2 ^ 40).
Proof.
  intros Hv Hw. rewrite !u64_s40 by done.
  change (v mod 2 ^ 40) with (wrapu 40 v). change (w mod 2 ^ 40) with (wrapu 40 w).
  rewrite !wrapu_signed by (done || lia). unfold ins in *.
  destruct (Z.ltb_spec v 0), (Z.ltb_spec w 0); split_cmps; (done || lia).
Qed.

Lemma wraps_range_40 v : ins 40 (wraps 40 v).
Proof. apply wraps_range. lia. Qed.

Lemma wraps_40_cases v : - 2 ^ 40 <= v < 2 ^ 40 ->
  wraps 40 v = if v <? - 2 ^ 39 then v + 2 ^ 40 else if v <? 2 ^ 39 then v else v - 2 ^ 40.
Proof.
  intros Hv. unfold wraps. change (2 ^ (40 - 1)) with (2 ^ 39).
  rewrite mod_cyclic by lia. split_cmps; lia.
Qed.

Lemma carry_of_sum a b : ins 40 a -> ins 40 b ->
  isCarry a (wraps 40 (a + b)) = (2 ^ 40 <=? a mod 2 ^ 40 + b mod 2 ^ 40).
Proof.
  intros Ha Hb. unfold isCarry. rewrite u64_ltb_s40 by (done || apply wraps_range_40).
  rewrite wraps_mod, Zplus_mod by lia.
  pose proof (Z.mod_pos_bound a (2 ^ 40) eq_refl). pose proof (Z.mod_pos_bound b (2 ^ 40) eq_refl).
  rewrite (mod_cyclic (a mod 2 ^ 40 + b mod 2 ^ 40)) by lia.
  destruct (Z.ltb_spec (a mod 2 ^ 40 + b mod 2 ^ 40) 0), (Z.ltb_spec (a mod 2 ^ 40 + b mod 2 ^ 40) (2 ^ 40));
    split_cmps; (done || lia).
Qed.

Lemma carry_of_difference a b : ins 40 a -> ins 40 b ->
  isCarry2 a (wraps 40 (a - b)) = (b mod 2 ^ 40 <=? a mod 2 ^ 40).
Proof.
  intros Ha Hb. unfold isCarry2. rewrite Z.leb_antisym, u64_ltb_s40 by (done || apply wraps_range_40).
  rewrite wraps_mod, Zminus_mod by lia.
  pose proof (Z.mod_pos_bound a (2 ^ 40) eq_refl). pose proof (Z.mod_pos_bound b (2 ^ 40) eq_refl).
  rewrite (mod_cyclic (a mod 2 ^ 40 - b mod 2 ^ 40)) by lia.
  destruct (Z.ltb_spec (a mod 2 ^ 40 - b mod 2 ^ 40) 0), (Z.ltb_spec (a mod 2 ^ 40 - b mod 2 ^ 40) (2 ^ 40));
    split_cmps; cbn [negb]; (done || lia).
Qed.

Lemma ins_bool w v : bool_decide (ins w v) = (- 2 ^ (w - 1) <=? v) && (v <? 2 ^ (w - 1)).
Proof.
  destruct (decide (ins w v)) as [H | H].
  - rewrite bool_decide_eq_true_2 by done. unfold ins in H. split_cmps. done.
  - rewrite bool_decide_eq_false_2 by done. unfold ins in H. split_cmps; (done || lia).
Qed.

(** The overflow flag and the sign; [x] is [b] or [- b]. *)
Lemma overflow_of_sum a x : ins 40 a -> - 2 ^ 39 <= x <= 2 ^ 39 ->
  isOverflow a x (wraps 40 (a + x)) = negb (bool_decide (ins 40 (a + x))) /\
  xorb (isOverflow a x (wraps 40 (a + x))) (wraps 40 (a + x) <? 0) = (a + x <? 0).
Proof.
  intros Ha Hx. rewrite isOverflow_signs, ins_bool. unfold ins in Ha. change (40 - 1) with 39 in *.
  rewrite wraps_40_cases by lia.
    destruct (Z.ltb_spec (a + x) (- 2 ^ 39)), (Z.ltb_spec (a + x) (2 ^ 39));
    split_cmps; cbn; split; (done || lia).
Qed.

Lemma exact_flags_of g c o v n t exact :
  o = negb (bool_decide (ins 40 exact)) -> xorb o (v <? 0) = (exact <? 0) -> v = wraps 40 exact ->
  exact_flags (put_sr (sr_flags c o (v =? 0) (v <? 0) n t (r_sr g)) g) c exact.
Proof.
  intros Ho Hn Hv. constructor; autorewrite with flags; [done | done | rewrite Hv; done | done].
Qed.

Lemma bit_range opc n : 0 <= bit opc n < 2.
Proof.
  unfold bit. change 1 with (Z.ones 1). rewrite Z.land_ones by lia. apply Z.mod_pos_bound. lia.
Qed.

(** The accumulators are read through their 40-bit view. *)
Lemma get_long_acc_put_sr i v g : dsp_get_long_acc i (put_sr v g) = dsp_get_long_acc i g.
Proof. reflexivity. Qed.

Lemma run_store_sum d a b s :
  wf s -> 0 <= d < 2 -> a = dsp_get_long_acc d (r s) -> ins 40 b ->
  exists s', store_sum d a b s = Done tt s' /\
    dsp_get_long_acc d (r s') = wraps 40 (a + b) /\
    dsp_get_long_acc (1 - d) (r s') = dsp_get_long_acc (1 - d) (r s) /\
    exact_flags (r s') (2 ^ 40 <=? a mod 2 ^ 40 + b mod 2 ^ 40) (a + b).
Proof.
  intros Hs Hd -> Hb. pose proof (get_long_acc_range d (r s)) as Ha.
  set (a := dsp_get_long_acc d (r s)) in *.
  assert (Hg : dsp_get_long_acc d (dsp_set_long_acc d (a + b) (r s)) = wraps 40 (a + b))
    by (apply get_set_long_acc; [apply Hs | done]).
  assert (Ho : dsp_get_long_acc (1 - d) (dsp_set_long_acc d (a + b) (r s)) = dsp_get_long_acc (1 - d) (r s))
    by (apply get_set_long_acc_other; lia).
  unfold store_sum, ZeroWriteBackLog. run. cbn [upd_r r set_r]. rewrite Hg, run_Update_SR_Register64.
  eexists. split; [reflexivity |]. cbn [upd_r r set_r]. rewrite !get_long_acc_put_sr.
  split_and!; [exact Hg | exact Ho |].
  destruct (overflow_of_sum a b Ha) as [Hv Hn]; [unfold ins in Hb; lia |].
  rewrite carry_of_sum by done. apply exact_flags_of; done.
Qed.

Lemma run_store_difference d a b s :
  wf s -> 0 <= d < 2 -> a = dsp_get_long_acc d (r s) -> ins 40 b ->
  exists s', store_difference d a b s = Done tt s' /\
    dsp_get_long_acc d (r s') = wraps 40 (a - b) /\
    dsp_get_long_acc (1 - d) (r s') = dsp_get_long_acc (1 - d) (r s) /\
    exact_flags (r s') (b mod 2 ^ 40 <=? a mod 2 ^ 40) (a - b).
Proof.
  intros Hs Hd -> Hb. pose proof (get_long_acc_range d (r s)) as Ha.
  set (a := dsp_get_long_acc d (r s)) in *.
  assert (Hg : dsp_get_long_acc d (dsp_set_long_acc d (a - b) (r s)) = wraps 40 (a - b))
    by (apply get_set_long_acc; [apply Hs | done]).
  assert (Ho : dsp_get_long_acc (1 - d) (dsp_set_long_acc d (a - b) (r s)) = dsp_get_long_acc (1 - d) (r s))
    by (apply get_set_long_acc_other; lia).
  unfold store_difference, ZeroWriteBackLog. run. cbn [upd_r r set_r]. rewrite Hg, run_Update_SR_Register64.
  eexists. split; [reflexivity |]. cbn [upd_r r set_r]. rewrite !get_long_acc_put_sr.
  split_and!; [exact Hg | exact Ho |].
  rewrite carry_of_difference by done. replace (a - b) with (a + - b) by lia.
  destruct (overflow_of_sum a (- b) Ha) as [Hv Hn]; [unfold ins in Hb; lia |].
  apply exact_flags_of; done.
Qed.

(** ** Operand ranges *)

Lemma ax_operand_shifted n g : ins 40 (ax_operand n g .<< 16).
Proof.
  assert (Hr : forall v, ins 40 (s16 v .<< 16)).
  { intros v. pose proof (wraps_range 16 v). rewrite Z.shiftl_mul_pow2 by lia. unfold ins in *. lia. }
  unfold ax_operand. destruct (among n DSP_REG_AXL0 2); [apply Hr |].
  destruct (among n DSP_REG_AXH0 2); [apply Hr |].
  change (0 .<< 16) with 0. unfold ins. lia.
Qed.

Lemma s32_ins_40 v : ins 40 (s32 v).
Proof. pose proof (wraps_range 32 v). unfold ins in *. lia. Qed.
Lemma s16_shifted_40 v : ins 40 (s16 v .<< 16).
Proof. pose proof (wraps_range 16 v). rewrite Z.shiftl_mul_pow2 by lia. unfold ins in *. lia. Qed.
Lemma s8_shifted_40 v : ins 40 (s8 v .<< 16).
Proof. pose proof (wraps_range 8 v). rewrite Z.shiftl_mul_pow2 by lia. unfold ins in *. lia. Qed.
Lemma u16_40 v : ins 40 (u16 v).
Proof. pose proof (wrapu_range 16 v). unfold ins, inu in *. lia. Qed.

(** The additions whose operand is in a register or in the opcode, with it. *)
Definition additions : list ((Z -> M unit) * (Z -> DSP_Regs -> Z)) := [
  (addr, fun opc g => ax_operand (((opc .>> 9) .& 0x3) + DSP_REG_AXL0) g .<< 16);
  (addax, fun opc g => dsp_get_long_acx (bit opc 9) g);
  (add, fun opc g => dsp_get_long_acc (1 - bit opc 8) g);
  (addaxl, fun opc g => u16 (dsp_get_ax_l (bit opc 9) g));
  (addis, fun opc g => s8 (u8 opc) .<< 16);
  (incm, fun opc g => 0x10000);
  (inc, fun opc g => 1)
].

Definition subtractions : list ((Z -> M unit) * (Z -> DSP_Regs -> Z)) := [
  (subr, fun opc g => ax_operand (((opc .>> 9) .& 0x3) + DSP_REG_AXL0) g .<< 16);
  (subax, fun opc g => dsp_get_long_acx (bit opc 9) g);
  (sub, fun opc g => dsp_get_long_acc (1 - bit opc 8) g);
  (decm, fun opc g => 0x10000);
  (dec, fun opc g => 1)
].

Ltac operand_40 :=
  match goal with
  | |- ins 40 (ax_operand _ _ .<< 16) => apply ax_operand_shifted
  | |- ins 40 (dsp_get_long_acx _ _) => rewrite get_long_acx_s32; apply s32_ins_40
  | |- ins 40 (dsp_get_long_acc _ _) => apply get_long_acc_range
  | |- ins 40 (s8 _ .<< 16) => apply s8_shifted_40
  | |- ins 40 (s16 _ .<< 16) => apply s16_shifted_40
  | |- ins 40 (u16 _) => apply u16_40
  | |- _ => unfold ins; lia
  end.

Lemma store_sum_pc d a b s s' : store_sum d a b s = Done tt s' -> pc s' = pc s.
Proof. unfold store_sum, ZeroWriteBackLog. run. rewrite run_Update_SR_Register64. intros E.
  apply (f_equal (fun o => match o with Done _ t => pc t | _ => pc s end)) in E. symmetry. exact E.
Qed.

(** The sum of an accumulator and an operand, in the registers and flags. *)
Definition adds (d b : Z) (s s' : SDSP) : Prop :=
  let a := dsp_get_long_acc d (r s) in
  dsp_get_long_acc d (r s') = wraps 40 (a + b) /\
  dsp_get_long_acc (1 - d) (r s') = dsp_get_long_acc (1 - d) (r s) /\
  exact_flags (r s') (2 ^ 40 <=? a mod 2 ^ 40 + b mod 2 ^ 40) (a + b).

(** C38: the additions of [DSPIntArithmetic.cpp] are exact. Each stores the sum
    of its accumulator and its operand modulo [2^40], leaves the other
    accumulator alone, and sets carry to the carry out of 40 unsigned bits,
    overflow when the sum does not fit 40 signed bits, zero when the stored
    value is zero, and the "less" condition to the sign of the exact sum even
    when it overflowed. [addi] takes the word after the instruction, and skips
    it; for [addp] the product must be a number of 40 bits, as every
    multiplication leaves it. *)
Theorem additions_exact opc s :
  wf s ->
  let d := bit opc 8 in
  (forall f x, In (f, x) additions -> exists s', f opc s = Done tt s' /\ adds d (x opc (r s)) s s') /\
  (exists s', addi opc s = Done tt s' /\ pc s' = u16 (pc s + 1) /\ adds d (s16 (imem s (pc s)) .<< 16) s s') /\
  (ins 40 (dsp_get_long_prod (r s)) -> exists s', addp opc s = Done tt s' /\ adds d (dsp_get_long_prod (r s)) s s').
Proof.
  intros Hs d. pose proof (bit_range opc 8 : 0 <= d < 2) as Hd. split_and!.
  - intros f x Hin. repeat (destruct Hin as [[<- <-]%pair_eq | Hin];
      [unfold addr, addax, add, addaxl, addis, incm, inc; run; apply run_store_sum; [done | done | reflexivity | operand_40] |]).
    destruct Hin.
  - unfold addi. run. destruct (run_store_sum d (dsp_get_long_acc d (r s)) (s16 (imem s (pc s)) .<< 16) (put_pc (pc s + 1) s)) as (s' & E & A);
      [apply wf_put_pc; done | done | done | operand_40 |].
    exists s'. split; [exact E |]. split; [rewrite (store_sum_pc _ _ _ _ _ E); done | exact A].
  - intros Hp. unfold addp. run. apply run_store_sum; done.
Qed.

(** The subtractions are exact, with carry meaning "no borrow". *)
Theorem subtractions_exact f x opc s :
  In (f, x) subtractions -> wf s ->
  let d := bit opc 8 in
  let a := dsp_get_long_acc d (r s) in
  let b := x opc (r s) in
  exists s', f opc s = Done tt s' /\
    dsp_get_long_acc d (r s') = wraps 40 (a - b) /\
    dsp_get_long_acc (1 - d) (r s') = dsp_get_long_acc (1 - d) (r s) /\
    exact_flags (r s') (b mod 2 ^ 40 <=? a mod 2 ^ 40) (a - b).
Proof.
  intros Hin Hs. cbv zeta. pose proof (bit_range opc 8).
  repeat (destruct Hin as [[<- <-]%pair_eq | Hin];
    [unfold subr, subax, sub, decm, dec; run; apply run_store_difference; [done | done | reflexivity | operand_40] |]).
  destruct Hin.
Qed.

Lemma additions_exact_witness :
  exists s', inc 0x7600 (upd_r (put_ac 0 0x7fffffffff) dsp0) = Done tt s' /\
    dsp_get_long_acc 0 (r s') = - 2 ^ 39 /\ IsOverflow (r s') = true.
Proof.
  destruct (additions_exact 0x7600 (upd_r (put_ac 0 0x7fffffffff) dsp0)) as [A _]; [auto with wf |].
  destruct (A inc (fun _ _ => 1)) as (s' & E & V & _ & F); [cbn; auto 10 |].
  exists s'. split; [exact E | split; [exact V | rewrite (exact_overflow _ _ _ F); reflexivity]].
Defined.

Lemma subtractions_exact_witness :
  exists s', sub 0x5c00 (upd_r (put_ac 1 7) dsp0) = Done tt s' /\
    dsp_get_long_acc 0 (r s') = -7 /\ IsCarry (r s') = false.
Proof.
  destruct (subtractions_exact sub (fun opc g => dsp_get_long_acc (1 - bit opc 8) g) 0x5c00
    (upd_r (put_ac 1 7) dsp0)) as (s' & E & A & _ & F); [cbn; auto 10 | auto with wf |].
  exists s'. split; [exact E | split; [exact A | rewrite (exact_carry _ _ _ F); reflexivity]].
Defined.

(** The comparisons whose operands are in registers or in the opcode. *)
Definition comparisons : list ((Z -> M unit) * (Z -> DSP_Regs -> Z * Z)) := [
  (cmp, fun opc g => (dsp_get_long_acc 0 g, dsp_get_long_acc 1 g));
  (cmpar, fun opc g => (dsp_get_long_acc (bit opc 11) g, s16 (ax_h g (bit opc 12)) .<< 16));
  (cmpis, fun opc g => (dsp_get_long_acc (bit opc 8) g, s8 opc .<< 16))
].

Lemma compare_flags a b n t g : ins 40 a -> ins 40 b ->
  let res := wraps 40 (a - b) in
  exact_flags (put_sr (sr_flags (isCarry2 a res) (isOverflow a (- b) res) (res =? 0) (res <? 0)
                        n t (r_sr g)) g) (b mod 2 ^ 40 <=? a mod 2 ^ 40) (a - b).
Proof.
  intros Ha Hb. cbv zeta. rewrite carry_of_difference by done.
  replace (a - b) with (a + - b) by lia.
  destruct (overflow_of_sum a (- b) Ha) as [Hv Hn]; [unfold ins in Hb; lia |].
  apply exact_flags_of; done.
Qed.

Lemma difference_zero a b : ins 40 a -> ins 40 b -> (wraps 40 (a - b) =? 0) = (a =? b).
Proof.
  intros Ha Hb. unfold ins in *. rewrite wraps_40_cases by lia.
  destruct (Z.eqb_spec a b); split_cmps; first [apply Z.eqb_eq | apply Z.eqb_neq]; lia.
Qed.

(** The conditions after a comparison of [a] with [b]. *)
Lemma conditions_of_compare g a b : ins 40 a -> ins 40 b ->
  exact_flags g (b mod 2 ^ 40 <=? a mod 2 ^ 40) (a - b) ->
  map (fun c => condition c g) [0; 1; 2; 3; 4; 5; 6; 7] =
  [b <=? a; a <? b; b <? a; a <=? b; negb (a =? b); a =? b;
   a mod 2 ^ 40 <? b mod 2 ^ 40; b mod 2 ^ 40 <=? a mod 2 ^ 40].
Proof.
  intros Ha Hb [Hc Ho Hz Hl]. cbn [map condition]. unfold condition. cbn [Z.land Pos.land].
  rewrite Hc, Hz, Hl, difference_zero by done. rewrite (Z.leb_antisym (a mod _)), negb_involutive.
  assert (E0 : (a - b <? 0) = (a <? b)) by (split_cmps; (done || lia)).
  assert (E1 : (b <=? a) = negb (a <? b)) by (split_cmps; (done || lia)).
  assert (E2 : (b <? a) = negb (a <? b) && negb (a =? b))
    by (destruct (Z.eqb_spec a b); split_cmps; (done || lia)).
  assert (E3 : (a <=? b) = (a <? b) || (a =? b))
    by (destruct (Z.eqb_spec a b); split_cmps; (done || lia)).
  rewrite E0, E1, E2, E3. done.
Qed.

Lemma upd_put_sr F s :
  upd_r (fun g => put_sr (F (r_sr g)) g) s = upd_r (put_sr (F (r_sr (r s)))) s.
Proof. reflexivity. Qed.

(** What the three comparisons do once their operands are read. *)
Lemma run_compare a b s : ins 40 a -> ins 40 b ->
  let res := wraps 40 (a - b) in
  exists s', Update_SR_Register64 res (isCarry2 a res) (isOverflow a (- b) res) s = Done tt s' /\
    (exists sr, s' = upd_r (put_sr sr) s) /\
    map (fun c => condition c (r s')) [0; 1; 2; 3; 4; 5; 6; 7] =
    [b <=? a; a <? b; b <? a; a <=? b; negb (a =? b); a =? b;
     a mod 2 ^ 40 <? b mod 2 ^ 40; b mod 2 ^ 40 <=? a mod 2 ^ 40].
Proof.
  intros Ha Hb res. rewrite run_Update_SR_Register64. eexists. split; [reflexivity |]. split.
  - eexists. apply (upd_put_sr (sr_flags _ _ _ _ _ _)).
  - apply conditions_of_compare; [done | done |]. apply compare_flags; done.
Qed.

(** A comparison followed by a condition compares. After CMP, CMPAR and
    CMPIS, which change nothing but the status register, the signed conditions
    (GE, L, G, LE, NZ, Z) hold exactly when their relation holds between the two
    40-bit operands, without error at the extremes, and carry and no carry are
    the unsigned comparison. *)
Theorem compare_then_condition f xy opc s :
  In (f, xy) comparisons -> wf s ->
  let a := fst (xy opc (r s)) in
  let b := snd (xy opc (r s)) in
  exists s', f opc s = Done tt s' /\ (exists sr, s' = upd_r (put_sr sr) s) /\
    map (fun c => condition c (r s')) [0; 1; 2; 3; 4; 5; 6; 7] =
    [b <=? a; a <? b; b <? a; a <=? b; negb (a =? b); a =? b;
     a mod 2 ^ 40 <? b mod 2 ^ 40; b mod 2 ^ 40 <=? a mod 2 ^ 40].
Proof.
  intros Hin Hs. cbv zeta.
  repeat (destruct Hin as [[<- <-]%pair_eq | Hin];
    [ unfold cmp, cmpar, cmpis, ZeroWriteBackLog; run; rewrite !convert_long_acc_s40; cbn [fst snd];
      match goal with |- context [Update_SR_Register64 (wraps 40 (?a - ?b))] =>
        destruct (run_compare a b s) as (s' & E & C); [operand_40 | operand_40 |] end;
      exists s'; rewrite E; split; [reflexivity | exact C] |]).
  destruct Hin.
Qed.

Lemma compare_then_condition_witness :
  exists s', cmp 0x8200 (upd_r (put_ac 1 0x8000000000) dsp0) = Done tt s' /\
    map (fun c => condition c (r s')) [0; 1; 2; 3; 4; 5; 6; 7] =
    [true; false; true; false; true; false; true; false].
Proof.
  destruct (compare_then_condition cmp (fun opc g => (dsp_get_long_acc 0 g, dsp_get_long_acc 1 g))
    0x8200 (upd_r (put_ac 1 0x8000000000) dsp0)) as (s' & E & _ & C); [cbn; auto | auto with wf |].
  exists s'. split; [exact E | exact C].
Defined.

(** ** Shifts by a register *)

(** The count: the low seven bits as a signed number, zero when the low six
    are clear. *)
Definition shift_count (v : Z) : Z := if v mod 64 =? 0 then 0 else wraps 7 v.

(** [v * 2 ^ n], rounded down. *)
Definition scale_by (n v : Z) : Z := if 0 <=? n then v * 2 ^ n else v / 2 ^ (- n).

(** The instructions: destination, count register, the view of the accumulator
    (signed, or its 40 bits as an unsigned number) and the direction of a positive count. *)
Definition register_shifts :
  list ((Z -> M unit) * (Z -> Z) * (Z -> DSP_Regs -> Z) * (Z -> Z) * Z) := [
  (lsrn, fun _ => 0, fun _ g => ac_m g 1, wrapu 40, -1);
  (asrn, fun _ => 0, fun _ g => ac_m g 1, fun v => v, -1);
  (lsrnrx, fun opc => bit opc 8, fun opc g => ax_h g (bit opc 9), wrapu 40, 1);
  (asrnrx, fun opc => bit opc 8, fun opc g => ax_h g (bit opc 9), fun v => v, 1);
  (lsrnr, fun opc => bit opc 8, fun opc g => ac_m g (1 - bit opc 8), wrapu 40, 1);
  (asrnr, fun opc => bit opc 8, fun opc g => ac_m g (1 - bit opc 8), fun v => v, 1)
].

Lemma register_shift_count v : register_shift v = shift_count v.
Proof.
  unfold register_shift, shift_count.
  replace (v .& 0x3f) with (v mod 64) by (symmetry; apply (Z.land_ones v 6); lia).
  replace (flag v 0x40) with (Z.testbit v 6) by (symmetry; apply (flag_testbit v 6); lia).
  destruct (Z.eqb_spec (v mod 64) 0); [done |].
  rewrite Z.testbit_odd, Z.shiftr_div_pow2, Zodd_mod by lia. unfold wraps.
  change (2 ^ (7 - 1)) with 64. change (2 ^ 7) with 128. change (2 ^ 6) with 64.
  destruct (Z.eqb_spec (v / 64 mod 2) 1); Z.to_euclidean_division_equations; lia.
Qed.

Lemma shift_count_range v : -63 <= shift_count v <= 63.
Proof.
  unfold shift_count, wraps. change (2 ^ (7 - 1)) with 64. change (2 ^ 7) with 128.
  destruct (Z.eqb_spec (v mod 64) 0); [lia |]. Z.to_euclidean_division_equations. lia.
Qed.

Lemma wraps_40_of_s64 v : wraps 40 (s64 v) = wraps 40 v.
Proof. apply wraps_wraps_le. lia. Qed.
Lemma wraps_40_of_u64 v : wraps 40 (u64 v) = wraps 40 v.
Proof. apply wraps_wrapu_le. lia. Qed.

(** The four shifts agree with [scale_by] modulo [2 ^ 40]. *)
Lemma shifts_scale n v :
  wraps 40 (shift_right_u64 n v) = wraps 40 (scale_by (- n) v) /\
  wraps 40 (shift_right_s64 n v) = wraps 40 (scale_by (- n) v) /\
  wraps 40 (shift_left_u64 n v) = wraps 40 (scale_by n v) /\
  wraps 40 (shift_left_s64 n v) = wraps 40 (scale_by n v).
Proof.
  unfold shift_right_u64, shift_right_s64, shift_left_u64, shift_left_s64, scale_by.
  destruct (Z.eq_dec n 0) as [-> | Hn]; [rewrite Z.opp_0; cbn [Z.ltb Z.leb Z.compare]; change (2 ^ 0) with 1; rewrite !Z.mul_1_r; done |].
  destruct (Z.ltb_spec 0 n), (Z.ltb_spec n 0), (Z.leb_spec 0 n), (Z.leb_spec 0 (- n)); try lia;
    rewrite ?Z.opp_involutive, ?Z.shiftl_mul_pow2, ?Z.shiftr_div_pow2, ?wraps_40_of_s64, ?wraps_40_of_u64 by lia;
    done.
Qed.

Lemma unsigned_view v : ins 40 v -> u64 v .& MASK_40 = wrapu 40 v.
Proof.
  intros Hv. change MASK_40 with (Z.ones 40). rewrite Z.land_ones by lia. apply wrapu_mod_le. lia.
Qed.

Lemma run_store_acc d v s :
  wf s -> 0 <= d < 2 ->
  exists s', store_acc d v s = Done tt s' /\
    dsp_get_long_acc d (r s') = wraps 40 v /\
    dsp_get_long_acc (1 - d) (r s') = dsp_get_long_acc (1 - d) (r s) /\
    IsZero (r s') = (wraps 40 v =? 0) /\ IsLess (r s') = (wraps 40 v <? 0).
Proof.
  intros Hs Hd.
  assert (Hg : dsp_get_long_acc d (dsp_set_long_acc d v (r s)) = wraps 40 v)
    by (apply get_set_long_acc; [apply Hs | done]).
  assert (Ho : dsp_get_long_acc (1 - d) (dsp_set_long_acc d v (r s)) = dsp_get_long_acc (1 - d) (r s))
    by (apply get_set_long_acc_other; lia).
  unfold store_acc. run. rewrite run_Update_SR_Register64. cbn [upd_r r set_r]. rewrite Hg.
  eexists. split; [reflexivity |]. cbn [upd_r r set_r]. rewrite !get_long_acc_put_sr.
  autorewrite with flags. done.
Qed.

(** The shifts by a register. Each of the six shifts its accumulator by
    the signed 7-bit count in the other register: the 40 bits as an unsigned number
    for the logical shifts, the signed value for the arithmetic ones, multiplied or
    divided by the power of two and rounded down; bits that leave 40 are lost and
    no count is out of the range of the host's shifts. *)
Theorem register_shifts_spec f dst cnt view dir opc s :
  In (f, dst, cnt, view, dir) register_shifts -> wf s ->
  let n := dir * shift_count (cnt opc (r s)) in
  let v := scale_by n (view (dsp_get_long_acc (dst opc) (r s))) in
  -63 <= n <= 63 /\
  exists s', f opc s = Done tt s' /\
    dsp_get_long_acc (dst opc) (r s') = wraps 40 v /\
    dsp_get_long_acc (1 - dst opc) (r s') = dsp_get_long_acc (1 - dst opc) (r s) /\
    IsZero (r s') = (wraps 40 v =? 0) /\ IsLess (r s') = (wraps 40 v <? 0).
Proof.
  intros Hin Hs. cbv zeta. pose proof (bit_range opc 8) as Hb.
  assert (Hm : forall i g, u16 (dsp_get_acc_m i g) = ac_m g i).
  { intros i g. unfold dsp_get_acc_m. rewrite wrapu_wraps_le by lia. apply wrapu_id, fld16_range. }
  pose proof (shift_count_range (cnt opc (r s))) as Hr.
  repeat (destruct Hin as [Heq | Hin];
    [ repeat (apply pair_eq in Heq as [Heq <-]); subst f; split; [lia |];
      unfold lsrn, asrn, lsrnrx, asrnrx, lsrnr, asrnr, ZeroWriteBackLog; run;
      rewrite ?Hm, ?register_shift_count, ?unsigned_view by apply get_long_acc_range;
      match goal with |- context [store_acc ?d (?sh ?n ?v) s] =>
        destruct (shifts_scale n v) as (E1 & E2 & E3 & E4);
        destruct (run_store_acc d (sh n v) s Hs) as (s' & E & A & O & Z0 & L); [lia |] end;
      exists s'; rewrite ?E1, ?E2, ?E3, ?E4 in A, Z0, L; rewrite ?Z.mul_1_l, <- ?Z.opp_eq_mul_m1;
      replace (-1 * shift_count (ac_m (r s) 1)) with (- shift_count (ac_m (r s) 1)) by lia; auto |]).
  destruct Hin.
Qed.

Lemma register_shifts_spec_witness :
  exists s', asrn 0x02cb (upd_r (put_ac 0 (-1)) (upd_r (put_ac_fld 1 16 0x0004) dsp0)) = Done tt s' /\
    dsp_get_long_acc 0 (r s') = -1.
Proof.
  destruct (register_shifts_spec asrn (fun _ => 0) (fun _ g => ac_m g 1) (fun v => v) (-1) 0x02cb
    (upd_r (put_ac 0 (-1)) (upd_r (put_ac_fld 1 16 0x0004) dsp0))) as (_ & s' & E & A & _).
  - cbn. auto.
  - auto with wf.
  - exists s'. split; [exact E | exact A].
Defined.
