(* ===== verification/DspMultiplier.v ===== *)
(** The multiplier and the product register
    ([Interpreter/DSPIntMultiplier.cpp]): one definition per instruction
    handler, in the order of the source. The theorems show that the product
    register holds the exact product, with the operands' signs as the status
    register selects them, and that multiply-accumulate is exact modulo
    [2^40]. *)

From S2P Require Import Prelude DspState DspTables DspStacks DspImem DspAnalyzer DspCore DspCC DspIntUtil DspArithmetic.
Open Scope Z_scope.

Definition dsp_get_multiply_prod (a b sign : Z) (g : DSP_Regs) : Z :=
  let prod :=
    if (sign =? 1) && flag (r_sr g) SR_MUL_UNSIGNED then u32 (a * b)
    else if (sign =? 2) && flag (r_sr g) SR_MUL_UNSIGNED then a * s16 b
    else s16 a * s16 b in
  if negb (flag (r_sr g) SR_MUL_MODIFY) then prod .<< 1 else prod.

Definition dsp_multiply (a b sign : Z) (g : DSP_Regs) : Z := dsp_get_multiply_prod a b sign g.

Definition dsp_multiply_add (a b sign : Z) (g : DSP_Regs) : Z :=
  dsp_get_long_prod g + dsp_get_multiply_prod a b sign g.

Definition dsp_multiply_sub (a b sign : Z) (g : DSP_Regs) : Z :=
  dsp_get_long_prod g - dsp_get_multiply_prod a b sign g.

Definition dsp_multiply_mulx (axh0 axh1 val1 val2 : Z) (g : DSP_Regs) : Z :=
  if (axh0 =? 0) && (axh1 =? 0) then dsp_multiply val1 val2 1 g
  else if (axh0 =? 0) && (axh1 =? 1) then dsp_multiply val1 val2 2 g
  else if (axh0 =? 1) && (axh1 =? 0) then dsp_multiply val2 val1 2 g
  else dsp_multiply val1 val2 0 g.

(** [u16] copies of the signed register reads. *)
Definition axl16 (i : Z) (g : DSP_Regs) : Z := u16 (dsp_get_ax_l i g).
Definition axh16 (i : Z) (g : DSP_Regs) : Z := u16 (dsp_get_ax_h i g).
Definition accm16 (i : Z) (g : DSP_Regs) : Z := u16 (dsp_get_acc_m i g).

(** [(part == 0) ? dsp_get_ax_l(i) : dsp_get_ax_h(i)] *)
Definition ax_part (part i : Z) (g : DSP_Regs) : Z := if part =? 0 then axl16 i g else axh16 i g.

(** The tail of the multiplications: store the product; store the product and
    move the value computed before it to an accumulator. *)
Definition store_prod (prod : Z) : M unit :=
  ZeroWriteBackLog;;
  upd_regs (dsp_set_long_prod prod).

Definition store_prod_acc (prod rreg acc : Z) : M unit :=
  ZeroWriteBackLog;;
  upd_regs (dsp_set_long_prod prod);;
  store_acc rreg acc.

(** [dsp_set_long_acc(dreg, acc); Update_SR_Register64(acc);] *)
Definition store_acc_flags_of (dreg acc : Z) : M unit :=
  ZeroWriteBackLog;;
  upd_regs (dsp_set_long_acc dreg acc);;
  Update_SR_Register64 acc false false.

Definition clrp (opc : Z) : M unit :=
  ZeroWriteBackLog;;
  upd_regs (put_prod_fld 0 0x0000);;
  upd_regs (put_prod_fld 16 0xfff0);;
  upd_regs (put_prod_fld 32 0x00ff);;
  upd_regs (put_prod_fld 48 0x0010).

Definition tstprod (opc : Z) : M unit :=
  prod ← rget dsp_get_long_prod;
  Update_SR_Register64 prod false false;;
  ZeroWriteBackLog.

Definition movp (opc : Z) : M unit :=
  let dreg := bit opc 8 in
  acc ← rget dsp_get_long_prod;
  store_acc_flags_of dreg acc.

Definition movnp (opc : Z) : M unit :=
  let dreg := bit opc 8 in
  acc ← rget (fun g => - dsp_get_long_prod g);
  store_acc_flags_of dreg acc.

Definition movpz (opc : Z) : M unit :=
  let dreg := bit opc 8 in
  acc ← rget dsp_get_long_prod_round_prodl;
  store_acc_flags_of dreg acc.

Definition addpaxz (opc : Z) : M unit :=
  let dreg := bit opc 8 in
  let sreg := bit opc 9 in
  oldprod ← rget dsp_get_long_prod;
  prod ← rget dsp_get_long_prod_round_prodl;
  ax ← rget (dsp_get_long_acx sreg);
  let res := prod + (ax .& .~ 0xffff) in
  ZeroWriteBackLog;;
  upd_regs (dsp_set_long_acc dreg res);;
  res ← rget (dsp_get_long_acc dreg);
  Update_SR_Register64 res (isCarry oldprod res) false.

Definition mulaxh (opc : Z) : M unit :=
  prod ← rget (fun g => dsp_multiply (axh16 0 g) (axh16 0 g) 0 g);
  store_prod prod.

Definition mul (opc : Z) : M unit :=
  let sreg := bit opc 11 in
  prod ← rget (fun g => dsp_multiply (axh16 sreg g) (axl16 sreg g) 0 g);
  store_prod prod.

Definition mulac (opc : Z) : M unit :=
  let rreg := bit opc 8 in
  let sreg := bit opc 11 in
  acc ← rget (fun g => dsp_get_long_acc rreg g + dsp_get_long_prod g);
  prod ← rget (fun g => dsp_multiply (axl16 sreg g) (axh16 sreg g) 0 g);
  store_prod_acc prod rreg acc.

Definition mulmv (opc : Z) : M unit :=
  let rreg := bit opc 8 in
  let sreg := bit opc 11 in
  acc ← rget dsp_get_long_prod;
  prod ← rget (fun g => dsp_multiply (axl16 sreg g) (axh16 sreg g) 0 g);
  store_prod_acc prod rreg acc.

Definition mulmvz (opc : Z) : M unit :=
  let rreg := bit opc 8 in
  let sreg := bit opc 11 in
  acc ← rget dsp_get_long_prod_round_prodl;
  prod ← rget (fun g => dsp_multiply (axl16 sreg g) (axh16 sreg g) 0 g);
  store_prod_acc prod rreg acc.

(** The operands of the MULX family, selected by [sreg] and [treg]. *)
Definition mulx_prod (sreg treg : Z) (g : DSP_Regs) : Z :=
  let val1 := ax_part sreg 0 g in
  let val2 := ax_part treg 1 g in
  dsp_multiply_mulx sreg treg val1 val2 g.

Definition mulx (opc : Z) : M unit :=
  let treg := bit opc 11 in
  let sreg := bit opc 12 in
  prod ← rget (mulx_prod sreg treg);
  store_prod prod.

Definition mulxac (opc : Z) : M unit :=
  let rreg := bit opc 8 in
  let treg := bit opc 11 in
  let sreg := bit opc 12 in
  acc ← rget (fun g => dsp_get_long_acc rreg g + dsp_get_long_prod g);
  prod ← rget (mulx_prod sreg treg);
  store_prod_acc prod rreg acc.

Definition mulxmv (opc : Z) : M unit :=
  let rreg := bit opc 8 in
  let treg := bit opc 11 in
  let sreg := bit opc 12 in
  acc ← rget dsp_get_long_prod;
  prod ← rget (mulx_prod sreg treg);
  store_prod_acc prod rreg acc.

Definition mulxmvz (opc : Z) : M unit :=
  let rreg := bit opc 8 in
  let treg := bit opc 11 in
  let sreg := bit opc 12 in
  acc ← rget dsp_get_long_prod_round_prodl;
  prod ← rget (mulx_prod sreg treg);
  store_prod_acc prod rreg acc.

Definition mulc (opc : Z) : M unit :=
  let treg := bit opc 11 in
  let sreg := bit opc 12 in
  prod ← rget (fun g => dsp_multiply (accm16 sreg g) (axh16 treg g) 0 g);
  store_prod prod.

Definition mulcac (opc : Z) : M unit :=
  let rreg := bit opc 8 in
  let treg := bit opc 11 in
  let sreg := bit opc 12 in
  acc ← rget (fun g => dsp_get_long_acc rreg g + dsp_get_long_prod g);
  prod ← rget (fun g => dsp_multiply (accm16 sreg g) (axh16 treg g) 0 g);
  store_prod_acc prod rreg acc.

Definition mulcmv (opc : Z) : M unit :=
  let rreg := bit opc 8 in
  let treg := bit opc 11 in
  let sreg := bit opc 12 in
  acc ← rget dsp_get_long_prod;
  prod ← rget (fun g => dsp_multiply (accm16 sreg g) (axh16 treg g) 0 g);
  store_prod_acc prod rreg acc.

Definition mulcmvz (opc : Z) : M unit :=
  let rreg := bit opc 8 in
  let treg := bit opc 11 in
  let sreg := bit opc 12 in
  acc ← rget dsp_get_long_prod_round_prodl;
  prod ← rget (fun g => dsp_multiply (accm16 sreg g) (axh16 treg g) 0 g);
  store_prod_acc prod rreg acc.

Definition maddx (opc : Z) : M unit :=
  let treg := bit opc 8 in
  let sreg := bit opc 9 in
  prod ← rget (fun g => dsp_multiply_add (ax_part sreg 0 g) (ax_part treg 1 g) 0 g);
  store_prod prod.

Definition msubx (opc : Z) : M unit :=
  let treg := bit opc 8 in
  let sreg := bit opc 9 in
  prod ← rget (fun g => dsp_multiply_sub (ax_part sreg 0 g) (ax_part treg 1 g) 0 g);
  store_prod prod.

Definition maddc (opc : Z) : M unit :=
  let treg := bit opc 8 in
  let sreg := bit opc 9 in
  prod ← rget (fun g => dsp_multiply_add (accm16 sreg g) (axh16 treg g) 0 g);
  store_prod prod.

Definition msubc (opc : Z) : M unit :=
  let treg := bit opc 8 in
  let sreg := bit opc 9 in
  prod ← rget (fun g => dsp_multiply_sub (accm16 sreg g) (axh16 treg g) 0 g);
  store_prod prod.

Definition madd (opc : Z) : M unit :=
  let sreg := bit opc 8 in
  prod ← rget (fun g => dsp_multiply_add (axl16 sreg g) (axh16 sreg g) 0 g);
  store_prod prod.

Definition msub (opc : Z) : M unit :=
  let sreg := bit opc 8 in
  prod ← rget (fun g => dsp_multiply_sub (axl16 sreg g) (axh16 sreg g) 0 g);
  store_prod prod.

(** ** Preservation *)

Lemma safe_store_prod p : safe (store_prod p).
Proof. unfold store_prod. safe_auto. Qed.
Lemma safe_store_prod_acc p d a : safe (store_prod_acc p d a).
Proof. unfold store_prod_acc. safe_auto. Qed.
Lemma safe_store_acc_flags_of d a : safe (store_acc_flags_of d a).
Proof. unfold store_acc_flags_of. safe_auto. Qed.
#[export] Hint Resolve safe_store_prod safe_store_prod_acc safe_store_acc_flags_of : wf.

(** Every handler of this file, in the order of the source. *)
Definition multiplier_handlers : list (Z -> M unit) := [
  clrp; tstprod; movp; movnp; movpz; addpaxz; mulaxh; mul; mulac; mulmv; mulmvz; mulx; mulxac;
  mulxmv; mulxmvz; mulc; mulcac; mulcmv; mulcmvz; maddx; msubx; maddc; msubc; madd; msub
].

Lemma safe_multiplier : Forall (fun f => forall opc, safe (f opc)) multiplier_handlers.
Proof.
  repeat constructor; intros opc; match goal with |- safe (?f opc) => unfold f end;
    cbv zeta; safe_auto.
Qed.

(** ** Exact products *)

(** The factor the status register applies to every product. *)
Definition product_scale (g : DSP_Regs) : Z := if flag (r_sr g) SR_MUL_MODIFY then 1 else 2.

(** A half of an extra accumulator as an integer: high halves are signed, and
    low halves too unless [SR_MUL_UNSIGNED] is set. *)
Definition half_value (part i : Z) (g : DSP_Regs) : Z :=
  if part =? 0 then (if flag (r_sr g) SR_MUL_UNSIGNED then ax_l g i else s16 (ax_l g i))
  else s16 (ax_h g i).

Lemma axl16_value i g : axl16 i g = ax_l g i.
Proof. unfold axl16, dsp_get_ax_l. rewrite wrapu_wraps_le by lia. apply wrapu_id, fld16_range. Qed.
Lemma axh16_value i g : axh16 i g = ax_h g i.
Proof. unfold axh16, dsp_get_ax_h. rewrite wrapu_wraps_le by lia. apply wrapu_id, fld16_range. Qed.
Lemma accm16_value i g : accm16 i g = ac_m g i.
Proof. unfold accm16, dsp_get_acc_m. rewrite wrapu_wraps_le by lia. apply wrapu_id, fld16_range. Qed.

Lemma multiply_signed a b g : dsp_multiply a b 0 g = s16 a * s16 b * product_scale g.
Proof.
  unfold dsp_multiply, dsp_get_multiply_prod, product_scale. cbn [Z.eqb Pos.eqb andb].
  destruct (flag (r_sr g) SR_MUL_MODIFY); cbn [negb]; rewrite ?Z.shiftl_mul_pow2 by lia; lia.
Qed.

Lemma multiply_add_signed a b g :
  dsp_multiply_add a b 0 g = dsp_get_long_prod g + s16 a * s16 b * product_scale g.
Proof. unfold dsp_multiply_add. f_equal. apply multiply_signed. Qed.
Lemma multiply_sub_signed a b g :
  dsp_multiply_sub a b 0 g = dsp_get_long_prod g - s16 a * s16 b * product_scale g.
Proof. unfold dsp_multiply_sub. f_equal. apply multiply_signed. Qed.

Lemma mulx_prod_value s t g : 0 <= s < 2 -> 0 <= t < 2 ->
  mulx_prod s t g = half_value s 0 g * half_value t 1 g * product_scale g.
Proof.
  intros Hs Ht. assert (s = 0 \/ s = 1) as Es by lia. assert (t = 0 \/ t = 1) as Et by lia.
  assert (Hl : forall i, inu 16 (ax_l g i)) by (intros; apply fld16_range).
  assert (Hp : u32 (ax_l g 0 * ax_l g 1) = ax_l g 0 * ax_l g 1).
  { apply wrapu_id. pose proof (Hl 0) as H0. pose proof (Hl 1) as H1. unfold inu in *. nia. }
  unfold mulx_prod, dsp_multiply_mulx, half_value, ax_part.
  destruct Es as [-> | ->], Et as [-> | ->]; cbn [Z.eqb Pos.eqb andb];
    rewrite ?axl16_value, ?axh16_value; try apply multiply_signed;
    unfold dsp_multiply, dsp_get_multiply_prod, product_scale; cbn [Z.eqb Pos.eqb andb];
    destruct (flag (r_sr g) SR_MUL_UNSIGNED), (flag (r_sr g) SR_MUL_MODIFY); cbn [negb];
    rewrite ?Hp, ?Z.shiftl_mul_pow2 by lia; lia.
Qed.

Lemma s16_abs v : - 2 ^ 15 <= s16 v < 2 ^ 15.
Proof. pose proof (wraps_range 16 v). unfold ins in *. lia. Qed.

Lemma half_value_bound part i g : - 2 ^ 15 <= half_value part i g < 2 ^ 16.
Proof.
  pose proof (s16_abs (ax_l g i)). pose proof (s16_abs (ax_h g i)).
  pose proof (fld16_range 0 (zget (r_ax g) i)) as H1. fold (ax_l g i) in H1. unfold inu in H1.
  unfold half_value. repeat case_match; lia.
Qed.

(** A product of two 16-bit operands, doubled or not, fits 40 bits. *)
Lemma product_fits x y g :
  - 2 ^ 15 <= x < 2 ^ 16 -> - 2 ^ 15 <= y < 2 ^ 16 -> ins 40 (x * y * product_scale g).
Proof.
  intros Hx Hy. assert (- 2 ^ 32 <= x * y <= 2 ^ 32) by nia. unfold product_scale, ins.
  destruct (flag _ _); lia.
Qed.

(** The multiplications: the handler, the exact product of its operands, and
    the value it stores in accumulator [bit opc 8], if it does. *)
Definition multiplications :
  list ((Z -> M unit) * (Z -> DSP_Regs -> Z) * option (Z -> DSP_Regs -> Z)) :=
  let same_ax opc g := s16 (ax_l g (bit opc 11)) * s16 (ax_h g (bit opc 11)) in
  let both_ax opc g := half_value (bit opc 12) 0 g * half_value (bit opc 11) 1 g in
  let acc_ax opc g := s16 (ac_m g (bit opc 12)) * s16 (ax_h g (bit opc 11)) in
  let plus_prod opc g := dsp_get_long_acc (bit opc 8) g + dsp_get_long_prod g in
  let old_prod (opc : Z) g := dsp_get_long_prod g in
  let round_prod (opc : Z) g := dsp_get_long_prod_round_prodl g in
  [ (mulaxh, fun _ g => s16 (ax_h g 0) * s16 (ax_h g 0), None);
    (mul, same_ax, None); (mulac, same_ax, Some plus_prod); (mulmv, same_ax, Some old_prod);
    (mulmvz, same_ax, Some round_prod);
    (mulx, both_ax, None); (mulxac, both_ax, Some plus_prod); (mulxmv, both_ax, Some old_prod);
    (mulxmvz, both_ax, Some round_prod);
    (mulc, acc_ax, None); (mulcac, acc_ax, Some plus_prod); (mulcmv, acc_ax, Some old_prod);
    (mulcmvz, acc_ax, Some round_prod) ].

(** The multiply-accumulate instructions with the signed product they add. *)
Definition accumulations : list ((Z -> M unit) * (Z -> DSP_Regs -> Z)) :=
  let part p i g := if p =? 0 then s16 (ax_l g i) else s16 (ax_h g i) in
  let axs opc g := part (bit opc 9) 0 g * part (bit opc 8) 1 g in
  let acc_ax opc g := s16 (ac_m g (bit opc 9)) * s16 (ax_h g (bit opc 8)) in
  let same_ax opc g := s16 (ax_l g (bit opc 8)) * s16 (ax_h g (bit opc 8)) in
  [ (maddx, axs); (msubx, fun opc g => - axs opc g); (maddc, acc_ax);
    (msubc, fun opc g => - acc_ax opc g); (madd, same_ax); (msub, fun opc g => - same_ax opc g) ].

Lemma get_long_prod_set_acc i v g : dsp_get_long_prod (dsp_set_long_acc i v g) = dsp_get_long_prod g.
Proof. reflexivity. Qed.
Lemma get_long_prod_put_sr v g : dsp_get_long_prod (put_sr v g) = dsp_get_long_prod g.
Proof. reflexivity. Qed.

Lemma run_store_prod p s :
  store_prod p s = Done tt (upd_r (dsp_set_long_prod p) s).
Proof. reflexivity. Qed.

Lemma run_store_prod_acc p d a s :
  wf s -> 0 <= d < 2 ->
  exists s', store_prod_acc p d a s = Done tt s' /\
    dsp_get_long_prod (r s') = wraps 40 p /\ dsp_get_long_acc d (r s') = wraps 40 a.
Proof.
  intros Hs Hd. unfold store_prod_acc, store_acc, ZeroWriteBackLog. run.
  rewrite run_Update_SR_Register64. eexists. split; [reflexivity |]. cbn [upd_r r set_r].
  rewrite get_long_prod_put_sr, get_long_prod_set_acc, get_long_acc_put_sr. split.
  - apply get_set_long_prod.
  - apply get_set_long_acc; [apply wf_set_long_prod, Hs | done].
Qed.

(** The multiplier is exact. Every multiplication leaves in the product
    register exactly the product of its operands (low halves unsigned in the MULX
    family when [SR_MUL_UNSIGNED] is set, all others signed), doubled unless
    [SR_MUL_MODIFY] is set; the product always fits. The variants that also
    move the previous product store its sum with the accumulator, itself, or its rounding,
    modulo [2^40]. *)
Theorem multiplication_exact f x acc opc s :
  In (f, x, acc) multiplications -> wf s ->
  let p := x opc (r s) * product_scale (r s) in
  ins 40 p /\
  exists s', f opc s = Done tt s' /\ dsp_get_long_prod (r s') = p /\
    match acc with
    | Some v => dsp_get_long_acc (bit opc 8) (r s') = wraps 40 (v opc (r s))
    | None => r_ac (r s') = r_ac (r s)
    end.
Proof.
  intros Hin Hs. cbv zeta. pose proof (bit_range opc 8). pose proof (bit_range opc 11) as B11.
  pose proof (bit_range opc 12) as B12.
  assert (Hfit : ins 40 (x opc (r s) * product_scale (r s))).
  { repeat (destruct Hin as [Heq | Hin];
      [ repeat (apply pair_eq in Heq as [Heq <-]); apply product_fits;
        first [ apply half_value_bound
              | match goal with |- _ <= s16 ?v < _ => pose proof (s16_abs v); lia end ] |]).
    destruct Hin. }
  split; [done |].
  repeat (destruct Hin as [Heq | Hin];
    [ repeat (apply pair_eq in Heq as [Heq <-]); subst f;
      unfold mulaxh, mul, mulac, mulmv, mulmvz, mulx, mulxac, mulxmv, mulxmvz, mulc, mulcac,
        mulcmv, mulcmvz; run;
      rewrite ?mulx_prod_value, ?multiply_signed, ?axl16_value, ?axh16_value, ?accm16_value by done;
      first
        [ rewrite run_store_prod; eexists; split; [reflexivity |]; split; [| reflexivity];
          cbn [upd_r r set_r]; rewrite get_set_long_prod
        | match goal with |- context [store_prod_acc ?p ?d ?a s] =>
            destruct (run_store_prod_acc p d a s Hs) as (s' & E & P & A); [done |];
            exists s'; split; [exact E |]; split; [rewrite P | exact A] end ];
      (etransitivity; [| apply (wraps_id 40 _ eq_refl Hfit)]); f_equal; lia |]).
  destruct Hin.
Qed.

(** Multiply-accumulate is exact modulo [2^40]. *)
Theorem accumulation_exact f x opc s :
  In (f, x) accumulations -> wf s ->
  exists s', f opc s = Done tt s' /\
    dsp_get_long_prod (r s') =
      wraps 40 (dsp_get_long_prod (r s) + x opc (r s) * product_scale (r s)) /\
    r_ac (r s') = r_ac (r s) /\ r_ax (r s') = r_ax (r s) /\ r_sr (r s') = r_sr (r s).
Proof.
  intros Hin Hs.
  repeat (destruct Hin as [[<- <-]%pair_eq | Hin];
    [ unfold maddx, msubx, maddc, msubc, madd, msub, ax_part; run;
      rewrite ?multiply_add_signed, ?multiply_sub_signed, ?axl16_value, ?axh16_value, ?accm16_value,
        run_store_prod;
      eexists; split; [reflexivity |]; split; [| done]; cbn [upd_r r set_r];
      rewrite get_set_long_prod; f_equal; repeat case_match; lia |]).
  destruct Hin.
Qed.

Lemma multiplication_exact_witness :
  exists s', mul 0x9000 (upd_r (put_ax_fld 0 0 0xfffd) (upd_r (put_ax_fld 0 16 5) dsp0)) = Done tt s' /\
    dsp_get_long_prod (r s') = -30.
Proof.
  destruct (multiplication_exact mul (fun opc g => s16 (ax_l g (bit opc 11)) * s16 (ax_h g (bit opc 11)))
    None 0x9000 (upd_r (put_ax_fld 0 0 0xfffd) (upd_r (put_ax_fld 0 16 5) dsp0)))
    as (_ & s' & E & P & _); [cbn; auto | auto 6 with wf |].
  exists s'. split; [exact E | exact P].
Defined.

Lemma accumulation_exact_witness :
  exists s', madd 0xf200 (upd_r (put_ax_fld 0 0 3) (upd_r (put_ax_fld 0 16 5) dsp0)) = Done tt s' /\
    dsp_get_long_prod (r s') = 30.
Proof.
  destruct (accumulation_exact madd (fun opc g => s16 (ax_l g (bit opc 8)) * s16 (ax_h g (bit opc 8)))
    0xf200 (upd_r (put_ax_fld 0 0 3) (upd_r (put_ax_fld 0 16 5) dsp0)))
    as (s' & E & P & _); [cbn; auto 8 | auto 6 with wf |].
  exists s'. split; [exact E | exact P].
Defined.
