(* ===== verification/DspBranch.v ===== *)
(** Branches and hardware loops ([Interpreter/DSPIntBranch.cpp]): one
    definition per instruction handler and the loop hardware.  The theorems show
    that a loop instruction runs its body exactly as often as it says and
    leaves the stacks as it found them, that call and return, exception and
    RTI are inverse, and what a failed condition skips. *)

From S2P Require Import Prelude DspState DspTables DspStacks DspImem DspAnalyzer DspCore DspCC DspIntUtil.
Open Scope Z_scope.

Definition call (opc : Z) : M unit :=
  dest ← dsp_fetch_code;
  b ← CheckCondition (opc .& 0xf);
  when b (
    p ← gets pc;
    dsp_reg_store_stack Call p;;
    modify (put_pc dest)).

Definition callr (opc : Z) : M unit :=
  b ← CheckCondition (opc .& 0xf);
  when b (
    let reg := (opc .>> 5) .& 0x7 in
    addr ← dsp_op_read_reg reg;
    p ← gets pc;
    dsp_reg_store_stack Call p;;
    modify (put_pc addr)).

Definition ifcc (opc : Z) : M unit :=
  b ← CheckCondition (opc .& 0xf);
  when (negb b) dsp_skip_inst.

Definition jcc (opc : Z) : M unit :=
  dest ← dsp_fetch_code;
  b ← CheckCondition (opc .& 0xf);
  when b (modify (put_pc dest)).

Definition jmprcc (opc : Z) : M unit :=
  b ← CheckCondition (opc .& 0xf);
  when b (
    let reg := (opc .>> 5) .& 0x7 in
    addr ← dsp_op_read_reg reg;
    modify (put_pc addr)).

Definition ret (opc : Z) : M unit :=
  b ← CheckCondition (opc .& 0xf);
  when b (
    p ← dsp_reg_load_stack Call;
    modify (put_pc p)).

Definition rti (opc : Z) : M unit :=
  sr ← dsp_reg_load_stack Data;
  upd_regs (put_sr sr);;
  p ← dsp_reg_load_stack Call;
  modify (put_pc p).

Definition halt (opc : Z) : M unit :=
  modify (fun s => put_cr (cr s .| 0x4) s);;
  modify (fun s => put_pc (pc s - 1) s).

Definition HandleLoop : M unit :=
  rCallAddress ← rget (fun g => zget (r_st g) 0);
  rLoopAddress ← rget (fun g => zget (r_st g) 2);
  rLoopCounter ← rget (fun g => zget (r_st g) 3);
  when ((0 <? rLoopAddress) && (0 <? rLoopCounter)) (
    p ← gets pc;
    when (p - 1 =? rLoopAddress) (
      upd_regs (fun g => put_st 3 (zget (r_st g) 3 - 1) g);;
      rLoopCounter ← rget (fun g => zget (r_st g) 3);
      if 0 <? rLoopCounter then modify (put_pc rCallAddress)
      else
        dsp_reg_load_stack Call;;
        dsp_reg_load_stack LoopAddress;;
        dsp_reg_load_stack LoopCounter;;
        mret tt)).

(** The pushes of the four loop instructions. *)
Definition enter_loop (loop_pc cnt : Z) : M unit :=
  p ← gets pc;
  dsp_reg_store_stack Call p;;
  dsp_reg_store_stack LoopAddress loop_pc;;
  dsp_reg_store_stack LoopCounter cnt.

Definition loop (opc : Z) : M unit :=
  let reg := opc .& 0x1f in
  cnt ← dsp_op_read_reg reg;
  loop_pc ← gets pc;
  if negb (cnt =? 0) then enter_loop loop_pc cnt else dsp_skip_inst.

Definition loopi (opc : Z) : M unit :=
  let cnt := opc .& 0xff in
  loop_pc ← gets pc;
  if negb (cnt =? 0) then enter_loop loop_pc cnt else dsp_skip_inst.

Definition bloop (opc : Z) : M unit :=
  let reg := opc .& 0x1f in
  cnt ← dsp_op_read_reg reg;
  loop_pc ← dsp_fetch_code;
  if negb (cnt =? 0) then enter_loop loop_pc cnt
  else modify (put_pc loop_pc);; dsp_skip_inst.

Definition bloopi (opc : Z) : M unit :=
  let cnt := opc .& 0xff in
  loop_pc ← dsp_fetch_code;
  if negb (cnt =? 0) then enter_loop loop_pc cnt
  else modify (put_pc loop_pc);; dsp_skip_inst.

(** ** Preservation *)

Lemma safe_enter_loop a n : safe (enter_loop a n).
Proof. unfold enter_loop. safe_auto. Qed.
#[export] Hint Resolve safe_enter_loop : wf.

Lemma safe_HandleLoop : safe HandleLoop.
Proof. unfold HandleLoop. safe_auto. Qed.
#[export] Hint Resolve safe_HandleLoop : wf.

(** Every handler of this file, in the order of the source. *)
Definition branch_handlers : list (Z -> M unit) :=
  [call; callr; ifcc; jcc; jmprcc; ret; rti; halt; loop; loopi; bloop; bloopi].

Lemma safe_branch : Forall (fun f => forall opc, safe (f opc)) branch_handlers.
Proof.
  repeat constructor; intros opc; match goal with |- safe (?f opc) => unfold f end;
    cbv zeta; safe_auto.
Qed.

(** ** The loop hardware *)

(** The top of a stack. *)
Definition top (s : SDSP) (k : StackRegister) : Z := zget (r_st (r s)) (stack_index k).

(** The stacks agree to depth [n]. *)
Definition same_stacks (n : nat) (s s' : SDSP) : Prop := forall k, contents s' k n = contents s k n.

Lemma contents_cons s k n :
  contents s k n = top s k :: below s (stack_index k) (zget (reg_stack_ptr s) (stack_index k)) n.
Proof. reflexivity. Qed.

Lemma contents_inv s k n v l :
  contents s k n = v :: l ->
  top s k = v /\ below s (stack_index k) (zget (reg_stack_ptr s) (stack_index k)) n = l.
Proof. rewrite contents_cons. intros E. split; [apply (f_equal (hd 0)) in E | apply (f_equal (@tail Z)) in E]; exact E. Qed.

(** [f] touches no stack. *)
Definition keeps_stacks (f : SDSP -> SDSP) : Prop :=
  forall s, r_st (r (f s)) = r_st (r s) /\ reg_stack (f s) = reg_stack s /\
            reg_stack_ptr (f s) = reg_stack_ptr s.

Lemma below_eq s s' i p n : reg_stack s' = reg_stack s -> below s' i p n = below s i p n.
Proof. intros E. revert p. induction n as [| n IH]; intros p; cbn; [done |]. rewrite E, IH. done. Qed.

Lemma contents_kept f s k n : keeps_stacks f -> contents (f s) k n = contents s k n.
Proof.
  intros Hf. destruct (Hf s) as (E1 & E2 & E3). unfold contents. rewrite E1, E3.
  f_equal. apply below_eq, E2.
Qed.

Lemma keeps_put_pc v : keeps_stacks (put_pc v).
Proof. intros s. done. Qed.

(** The stacks after one push: the value and, below it, what was there. *)
Lemma pushed_contents s k v k' n :
  wf s -> (n < 32)%nat ->
  contents (pushed (stack_index k) v s) k' (if decide (k = k') then S n else n) =
  (if decide (k = k') then u16 v :: contents s k' n else contents s k' n).
Proof.
  intros Hs Hn. destruct (decide (k = k')) as [-> | Hne].
  - apply contents_pushed; done.
  - apply contents_other; done.
Qed.

Lemma pushed_pc i v s : pc (pushed i v s) = pc s.
Proof. reflexivity. Qed.
Lemma popped_pc i s : pc (popped i s) = pc s.
Proof. reflexivity. Qed.

(** What [enter_loop] establishes: the three registers of the loop on top of the
    stacks, at depth [S n] what was at depth [n] below them. *)
Record in_loop (n : nat) (base s : SDSP) (start last cnt : Z) : Prop := {
  loop_call : contents s Call (S n) = start :: contents base Call n;
  loop_address : contents s LoopAddress (S n) = last :: contents base LoopAddress n;
  loop_counter : contents s LoopCounter (S n) = cnt :: contents base LoopCounter n;
  loop_data : contents s Data n = contents base Data n
}.

Lemma in_loop_tops n base s start last cnt :
  in_loop n base s start last cnt ->
  top s Call = start /\ top s LoopAddress = last /\ top s LoopCounter = cnt.
Proof.
  intros [H1 H2 H3 _]. split_and!; eapply contents_inv; eassumption.
Qed.

Lemma run_enter_loop n last cnt s :
  wf s -> (n < 32)%nat -> inu 16 last -> inu 16 cnt ->
  exists s', enter_loop last cnt s = Done tt s' /\ wf s' /\ pc s' = pc s /\
    in_loop n s s' (pc s) last cnt.
Proof.
  intros Hs Hn Hl Hc. pose proof (wf_pc s Hs) as Hp. unfold enter_loop. run.
  rewrite run_store by done. run. rewrite run_store by auto with wf. run.
  rewrite run_store by auto with wf. eexists. split; [reflexivity |].
  set (s1 := pushed (stack_index Call) (pc s) s).
  set (s2 := pushed (stack_index LoopAddress) last s1).
  assert (wf s1) by (unfold s1; auto with wf). assert (wf s2) by (unfold s2; auto with wf).
  split_and!; [auto with wf | done |].
  assert (E1 : forall k m, k <> Call -> contents s1 k m = contents s k m)
    by (intros; apply contents_other; (done || congruence)).
  assert (E2 : forall k m, k <> LoopAddress -> contents s2 k m = contents s1 k m)
    by (intros; apply contents_other; (done || congruence)).
  assert (E3 : forall k m, k <> LoopCounter ->
             contents (pushed (stack_index LoopCounter) cnt s2) k m = contents s2 k m)
    by (intros; apply contents_other; (done || congruence)).
  constructor.
  - rewrite E3, E2 by done. unfold s1. rewrite contents_pushed, wrapu_id by done. done.
  - rewrite E3 by done. unfold s2. rewrite contents_pushed, wrapu_id, E1 by done. done.
  - rewrite contents_pushed, wrapu_id, E2, E1 by done. done.
  - rewrite E3, E2, E1 by done. done.
Qed.

(** One pass of the loop hardware at the end of the body. *)
Lemma run_HandleLoop_again n base s start last cnt :
  wf s -> in_loop n base s start last cnt -> pc s = last + 1 -> 0 < last -> 1 < cnt -> inu 16 start ->
  exists s', HandleLoop s = Done tt s' /\ wf s' /\ pc s' = start /\
    in_loop n base s' start last (cnt - 1).
Proof.
  intros Hs Hin Hpc Hlast Hcnt Hstart. destruct (in_loop_tops _ _ _ _ _ _ Hin) as (T1 & T2 & T3).
  unfold top in T1, T2, T3. cbn [stack_index] in T1, T2, T3.
  assert (Hst : arr_ok 4 16 (r_st (r s))) by apply Hs.
  assert (Hc16 : inu 16 cnt) by (rewrite <- T3; range).
  assert (Hc1 : u16 (cnt - 1) = cnt - 1) by (apply wrapu_id; unfold inu in *; lia).
  unfold HandleLoop. run. rewrite T1, T2, T3, Hpc.
  destruct (Z.ltb_spec 0 last), (Z.ltb_spec 0 cnt); try lia. cbn [andb].
  destruct (Z.eqb_spec (last + 1 - 1) last); [| lia].
  set (s1 := upd_r (fun g => put_st 3 (cnt - 1) g) s).
  assert (E1 : upd_r (fun g => put_st 3 (zget (r_st g) 3 - 1) g) s = s1)
    by (unfold upd_r, s1; rewrite T3; done).
  rewrite E1. cbn [s1 upd_r r set_r put_st r_st set_r_st].
  rewrite (zget_zset_same 4 16), Hc1 by (done || lia).
  destruct (Z.ltb_spec 0 (cnt - 1)); [| lia].
  eexists. split; [reflexivity |]. split_and!.
  - unfold s1. auto with wf.
  - cbn. apply wrapu_id. done.
  - destruct Hin as [I1 I2 I3 I4].
    assert (Ho : forall k m, k <> LoopCounter -> contents (put_pc start s1) k m = contents s k m).
    { intros k m Hk. rewrite contents_kept by apply keeps_put_pc. rewrite !contents_cons. f_equal.
      - unfold top, s1. cbn. destruct k; try done; apply zget_zset_other; cbn; lia.
      - apply below_eq. done. }
    constructor; rewrite ?Ho by done; try done.
    rewrite contents_kept by apply keeps_put_pc. apply contents_inv in I3 as [I3 I3'].
    rewrite contents_cons, <- I3'. f_equal.
    + unfold top, s1. cbn. rewrite (zget_zset_same 4 16), Hc1 by (done || lia). done.
    + apply below_eq. done.
Qed.

Lemma run_HandleLoop_last n base s start last :
  wf s -> in_loop n base s start last 1 -> pc s = last + 1 -> 0 < last ->
  exists s', HandleLoop s = Done tt s' /\ wf s' /\ pc s' = last + 1 /\ same_stacks n base s'.
Proof.
  intros Hs Hin Hpc Hlast. destruct (in_loop_tops _ _ _ _ _ _ Hin) as (T1 & T2 & T3).
  unfold top in T1, T2, T3. cbn [stack_index] in T1, T2, T3.
  assert (Hst : arr_ok 4 16 (r_st (r s))) by apply Hs.
  unfold HandleLoop. run. rewrite T1, T2, T3, Hpc.
  destruct (Z.ltb_spec 0 last); [| lia]. cbn [Z.ltb Z.compare andb].
  destruct (Z.eqb_spec (last + 1 - 1) last); [| lia].
  set (s1 := upd_r (fun g => put_st 3 0 g) s).
  assert (E1 : upd_r (fun g => put_st 3 (zget (r_st g) 3 - 1) g) s = s1)
    by (unfold upd_r, s1; rewrite T3; done).
  rewrite E1. cbn [s1 upd_r r set_r put_st r_st set_r_st].
  rewrite (zget_zset_same 4 16) by (done || lia). change (0 <? u16 0) with false. cbv iota.
  assert (wf s1) by (unfold s1; auto with wf).
  rewrite run_load by done. run. rewrite run_load by auto with wf. run.
  rewrite run_load by auto with wf. run.
  eexists. split; [reflexivity |]. split_and!; [auto 6 with wf | exact Hpc |].
  destruct Hin as [I1 I2 I3 I4].
  assert (Hlow : forall k m, k <> LoopCounter -> contents s1 k m = contents s k m).
  { intros k m Hk. rewrite !contents_cons. f_equal.
    - unfold top, s1. cbn. destruct k; try done; apply zget_zset_other; cbn; lia.
    - apply below_eq. done. }
  set (s2 := popped (stack_index Call) s1). set (s3 := popped (stack_index LoopAddress) s2).
  assert (wf s2) by (unfold s2; auto with wf). assert (wf s3) by (unfold s3; auto with wf).
  assert (P1 : forall k m, k <> Call -> contents s2 k m = contents s1 k m)
    by (intros; apply (contents_other s1 Call k 0); (done || congruence)).
  assert (P2 : forall k m, k <> LoopAddress -> contents s3 k m = contents s2 k m)
    by (intros; apply (contents_other s2 LoopAddress k 0); (done || congruence)).
  assert (P3 : forall k m, k <> LoopCounter ->
             contents (popped (stack_index LoopCounter) s3) k m = contents s3 k m)
    by (intros; apply (contents_other s3 LoopCounter k 0); (done || congruence)).
  intros k. destruct (decide (k = LoopCounter)) as [-> | Hk].
  - pose proof (contents_popped s3 LoopCounter n ltac:(done)) as Hp.
    rewrite P2, P1 in Hp by done.
    assert (Hb : contents s1 LoopCounter (S n) = u16 0 :: contents base LoopCounter n).
    { apply contents_inv in I3 as [_ I3]. rewrite contents_cons, <- I3. f_equal.
      - unfold top, s1. cbn. apply (zget_zset_same 4 16); [done | lia].
      - apply below_eq. done. }
    rewrite Hb in Hp. apply (f_equal (@tail Z)) in Hp. symmetry. exact Hp.
  - rewrite P3 by done. destruct (decide (k = LoopAddress)) as [-> | Hk2].
    + pose proof (contents_popped s2 LoopAddress n ltac:(done)) as Hp.
      rewrite P1, Hlow, I2 in Hp by done. apply (f_equal (@tail Z)) in Hp. symmetry. exact Hp.
    + rewrite P2 by done. destruct (decide (k = Call)) as [-> | Hk3].
      * pose proof (contents_popped s1 Call n ltac:(done)) as Hp.
        rewrite Hlow, I1 in Hp by done. apply (f_equal (@tail Z)) in Hp. symmetry. exact Hp.
      * rewrite P1, Hlow by done. destruct k; done.
Qed.

(** [k] runs of [m]. *)
Fixpoint iterate (k : nat) (m : M unit) : M unit :=
  match k with
  | O => mret tt
  | S k' => m;; iterate k' m
  end.

(** [body] runs from [start] to the end of the loop whose last instruction is at
    [last], and finds the top [S n] entries under each stack register as it
    leaves them. *)
Definition loop_body (n : nat) (body : M unit) (start last : Z) : Prop :=
  forall s, wf s -> pc s = start ->
  exists s', body s = Done tt s' /\ wf s' /\ pc s' = last + 1 /\ same_stacks (S n) s s'.

Lemma below_take s i p n : below s i p n = take n (below s i p (S n)).
Proof. revert p. induction n as [| n IH]; intros p; cbn; [done |]. f_equal. apply IH. Qed.

Lemma same_stacks_le n s s' : same_stacks (S n) s s' -> same_stacks n s s'.
Proof.
  intros H k. specialize (H k). rewrite !contents_cons in H |- *.
  pose proof (f_equal (hd 0) H) as E1. pose proof (f_equal (@tail Z) H) as E2. cbn [hd tail] in E1, E2.
  f_equal; [exact E1 |]. rewrite (below_take s'), (below_take s), E2. done.
Qed.

Lemma in_loop_body n base s s' start last cnt :
  in_loop n base s start last cnt -> same_stacks (S n) s s' -> in_loop n base s' start last cnt.
Proof.
  intros [I1 I2 I3 I4] H. constructor; rewrite ?(H _); try done. rewrite (same_stacks_le _ _ _ H). done.
Qed.

Section Iterations.
Context (n : nat) (base : SDSP) (start last : Z) (body : M unit).
Context (Hbody : loop_body n body start last) (Hstart : inu 16 start) (Hlast : 0 < last).

Lemma run_iterations k s cnt :
  wf s -> in_loop n base s start last cnt -> pc s = start -> Z.of_nat k < cnt ->
  exists s', iterate k (body;; HandleLoop) s = Done tt s' /\ wf s' /\ pc s' = start /\
    in_loop n base s' start last (cnt - Z.of_nat k).
Proof using Hbody Hstart Hlast.
  revert s cnt. induction k as [| k IH]; intros s cnt Hs Hin Hpc Hk.
  - exists s. rewrite Z.sub_0_r. done.
  - cbn [iterate]. destruct (Hbody s Hs Hpc) as (s1 & E1 & Hs1 & Hpc1 & Hst1).
    pose proof (in_loop_body _ _ _ _ _ _ _ Hin Hst1) as Hin1.
    destruct (run_HandleLoop_again n base s1 start last cnt) as (s2 & E2 & Hs2 & Hpc2 & Hin2); try done; [lia |].
    destruct (IH s2 (cnt - 1) Hs2 Hin2 Hpc2 ltac:(lia)) as (s' & E & Hs' & Hpc' & Hin').
    exists s'. rewrite !run_bind, E1, E2, E. split_and!; try done.
    replace (cnt - Z.of_nat (S k)) with (cnt - 1 - Z.of_nat k) by lia. done.
Qed.

Lemma iterate_last k m s : iterate (S k) m s = (iterate k m;; m) s.
Proof.
  revert s. induction k as [| k IH]; intros s.
  - cbn [iterate]. rewrite !run_bind, run_ret. destruct (m s) as [[] s' | |]; done.
  - change (iterate (S (S k)) m) with (m;; iterate (S k) m). rewrite !run_bind.
    change (iterate (S k) m) with (m;; iterate k m) at 2. rewrite run_bind.
    destruct (m s) as [[] s' | |]; [rewrite IH, run_bind |..]; done.
Qed.

Lemma run_all_iterations s cnt :
  wf s -> in_loop n base s start last cnt -> pc s = start -> 0 < cnt ->
  exists s', iterate (Z.to_nat cnt) (body;; HandleLoop) s = Done tt s' /\ wf s' /\
    pc s' = last + 1 /\ same_stacks n base s'.
Proof using Hbody Hstart Hlast.
  intros Hs Hin Hpc Hc. replace (Z.to_nat cnt) with (S (Z.to_nat (cnt - 1))) by lia.
  destruct (run_iterations (Z.to_nat (cnt - 1)) s cnt) as (s1 & E1 & Hs1 & Hpc1 & Hin1); try done; [lia |].
  rewrite iterate_last, !run_bind, E1.
  destruct (Hbody s1 Hs1 Hpc1) as (s2 & E2 & Hs2 & Hpc2 & Hst2). rewrite run_bind, E2.
  replace (cnt - Z.of_nat (Z.to_nat (cnt - 1))) with 1 in Hin1 by lia.
  apply (run_HandleLoop_last n base s2 start last); try done. eapply in_loop_body; done.
Qed.
End Iterations.

(** C3: the hardware loops run their body exactly as often as they say. Let
    [LOOPI] (one instruction) or [BLOOPI] (a block up to the address in its
    second word) be executed with the count of the opcode, and let [body] be any
    code that runs from the first to behind the last instruction of the
    loop and balances its own use of the stacks. While iterations are left the
    loop hardware returns to the first instruction with the counter one lower;
    after the last one control is behind the loop and the four stacks are as
    before the instruction. A count of zero skips the loop at once. *)
Theorem hardware_loop (block : bool) opc s n body :
  wf s -> (n < 32)%nat ->
  let cnt := opc .& 0xff in
  let start := if block then u16 (pc s + 1) else pc s in
  let last := if block then imem s (pc s) else pc s in
  0 < last -> loop_body n body start last ->
  exists s0, (if block then bloopi else loopi) opc s = Done tt s0 /\
  (cnt = 0 -> pc s0 = u16 (last + size (GetOpTemplate (imem s last))) /\ same_stacks n s s0) /\
  (0 < cnt -> pc s0 = start /\
    (forall k, 0 <= k < cnt -> exists sk, iterate (Z.to_nat k) (body;; HandleLoop) s0 = Done tt sk /\
       pc sk = start /\ top sk LoopCounter = cnt - k) /\
    exists s', iterate (Z.to_nat cnt) (body;; HandleLoop) s0 = Done tt s' /\
       wf s' /\ pc s' = last + 1 /\ same_stacks n s s').
Proof.
  intros Hs Hn cnt start last Hlast Hbody.
  set (base := if block then put_pc (pc s + 1) s else s).
  assert (Hbase : wf base) by (unfold base; destruct block; auto with wf).
  assert (Hpc : pc base = start) by (unfold base, start; destruct block; done).
  assert (Hst : inu 16 start) by (rewrite <- Hpc; apply Hbase).
  assert (Hl : inu 16 last) by (unfold last; destruct block; [range | apply Hs]).
  assert (Hc : inu 16 cnt).
  { unfold cnt. change 0xff with (Z.ones 8). rewrite Z.land_ones by lia.
    pose proof (Z.mod_pos_bound opc (2 ^ 8) eq_refl). unfold inu. lia. }
  assert (Hsame : forall s', same_stacks n base s' -> same_stacks n s s').
  { intros s' H k. rewrite H. unfold base. destruct block; [| done]. apply contents_kept, keeps_put_pc. }
  assert (E0 : (if block then bloopi else loopi) opc s =
    (if negb (cnt =? 0) then enter_loop last cnt
     else (if block then modify (put_pc last) else mret tt);; dsp_skip_inst) base).
  { unfold base, last, cnt. destruct block; unfold bloopi, loopi; run; destruct (_ =? 0); done. }
  rewrite E0. destruct (Z.eqb_spec cnt 0) as [Hz | Hz]; cbn [negb].
  - assert (E1 : ((if block then modify (put_pc last) else mret tt);; dsp_skip_inst) base =
             Done tt (put_pc (last + size (GetOpTemplate (imem s last)))
                        (if block then put_pc last base else base))).
    { unfold base, last in *. destruct block; run; cbn [pc put_pc set_pc]; rewrite ?(wrapu_id 16) by done; done. }
    eexists. split; [exact E1 |]. split; [| lia]. intros _. split; [done |]. apply Hsame. intros k.
    destruct block; rewrite ?contents_kept by apply keeps_put_pc; done.
  - destruct (run_enter_loop n last cnt base Hbase Hn Hl Hc) as (s0 & E1 & Hs0 & Hpc0 & Hin).
    exists s0. split; [exact E1 |]. split; [lia |]. intros Hpos. rewrite Hpc in Hpc0, Hin.
    split_and!; [done | |].
    + intros k Hk. destruct (run_iterations n base start last body Hbody Hst Hlast (Z.to_nat k) s0 cnt)
        as (sk & Ek & _ & Hpck & Hink); try done; [lia |].
      exists sk. split_and!; [done | done |]. destruct (in_loop_tops _ _ _ _ _ _ Hink) as (_ & _ & ->). lia.
    + destruct (run_all_iterations n base start last body Hbody Hst Hlast s0 cnt)
        as (s' & E & Hs' & Hpc' & Hsm); try done. exists s'. split_and!; auto.
Qed.

Lemma hardware_loop_witness :
  wf (put_pc 1 dsp0) /\
  exists s0 s', loopi 0x1003 (put_pc 1 dsp0) = Done tt s0 /\
    iterate 3 ((dsp_fetch_code;; mret tt);; HandleLoop) s0 = Done tt s' /\ pc s' = 2.
Proof.
  assert (H : wf (put_pc 1 dsp0)) by exact (wf_put_pc 1 dsp0 wf_dsp0). split; [exact H |].
  destruct (hardware_loop false 0x1003 (put_pc 1 dsp0) 0 (dsp_fetch_code;; mret tt) H ltac:(lia) ltac:(reflexivity))
    as (s0 & E0 & _ & (_ & _ & s' & E1 & _ & Hpc & _)).
  - intros s Hs Hpc. exists (put_pc (pc s + 1) s). split_and!.
    + reflexivity.
    + apply wf_put_pc. exact Hs.
    + cbn in *. rewrite Hpc. reflexivity.
    + intros k. apply contents_kept, keeps_put_pc.
  - reflexivity.
  - exists s0, s'. split_and!; [exact E0 | exact E1 | exact Hpc].
Defined.

(** ** Subroutines and exceptions *)

(** Code that balances its use of the stacks. *)
Definition balanced (n : nat) (body : M unit) : Prop :=
  forall s, wf s -> exists s', body s = Done tt s' /\ wf s' /\ same_stacks (S n) s s'.

Lemma popped_contents s k n v l :
  wf s -> contents s k (S n) = v :: l ->
  zget (r_st (r s)) (stack_index k) = v /\ contents (popped (stack_index k) s) k n = l.
Proof.
  intros Hs E. rewrite contents_popped in E by done.
  split; [apply (f_equal (hd 0)) in E | apply (f_equal (@tail Z)) in E]; exact E.
Qed.

Lemma popped_other s k k' n :
  wf s -> k <> k' -> contents (popped (stack_index k) s) k' n = contents s k' n.
Proof. intros. apply (contents_other s k k' 0); done. Qed.
Lemma pushed_other s k k' v n :
  wf s -> k <> k' -> contents (pushed (stack_index k) v s) k' n = contents s k' n.
Proof. intros. apply contents_other; done. Qed.

(** A subroutine returns behind its call. When its condition holds, [CALL]
    goes to the address in its second word; after any code that balances its use
    of the stacks, [RET] continues behind the two words of the call with all four
    stacks as before it. When the condition fails, both words are skipped. *)
Theorem call_return opc opr s n body :
  wf s -> (n < 32)%nat -> opr .& 0xf = 0xf -> balanced n body ->
  exists s1, call opc s = Done tt s1 /\
  if condition (opc .& 0xf) (r s) then
    pc s1 = imem s (pc s) /\
    exists s', (body;; ret opr) s1 = Done tt s' /\ pc s' = u16 (pc s + 1) /\ same_stacks n s s'
  else pc s1 = u16 (pc s + 1) /\ same_stacks n s s1.
Proof.
  intros Hs Hn Hopr Hbody. unfold call, CheckCondition.
  set (base := put_pc (pc s + 1) s). assert (Hb : wf base) by (unfold base; auto with wf).
  assert (Hk : forall k m, contents base k m = contents s k m)
    by (intros; apply contents_kept, keeps_put_pc).
  run. fold base. change (r base) with (r s).
  destruct (condition (opc .& 0xf) (r s)).
  - rewrite run_store by done. eexists. split; [run; reflexivity |].
    assert (Hi : inu 16 (imem s (pc s))) by range.
    set (s1 := put_pc (imem s (pc s)) (pushed (stack_index Call) (pc base) base)).
    assert (Hs1 : wf s1) by (unfold s1; auto with wf).
    split; [cbn; apply wrapu_id; done |].
    destruct (Hbody s1 Hs1) as (s2 & E2 & Hs2 & Hst2).
    pose proof (wf_pc base Hb) as Hp.
    assert (C1 : contents s2 Call (S n) = pc base :: contents s Call n).
    { rewrite Hst2. unfold s1. rewrite contents_kept by apply keeps_put_pc.
      rewrite contents_pushed, wrapu_id, Hk by done. done. }
    apply popped_contents in C1 as [T C1]; [| done].
    exists (put_pc (pc base) (popped (stack_index Call) s2)). split_and!.
    + unfold ret, CheckCondition. rewrite run_bind, E2, Hopr. run.
      change (condition 15 (r s2)) with true. cbv iota. rewrite run_load, T by done. done.
    + cbn. rewrite !wrapu_idem by lia. done.
    + intros k. rewrite contents_kept by apply keeps_put_pc. destruct (decide (Call = k)) as [<- | Hne]; [done |].
      rewrite popped_other, (same_stacks_le _ _ _ Hst2) by done. unfold s1.
      rewrite contents_kept by apply keeps_put_pc. rewrite pushed_other, Hk by done. done.
  - exists base. split_and!; try done. intros k. apply Hk.
Qed.

Lemma call_return_witness :
  wf dsp0 /\ exists s1 s', call 0x02bf dsp0 = Done tt s1 /\ ret 0x02df s1 = Done tt s' /\ pc s' = 1.
Proof.
  split; [exact wf_dsp0 |].
  destruct (call_return 0x02bf 0x02df dsp0 0 (mret tt) wf_dsp0 ltac:(lia) ltac:(reflexivity))
    as (s1 & E1 & _ & s' & E & Hpc & _).
  - intros s Hs. exists s. split_and!; done.
  - exists s1, s'. split_and!; [exact E1 | exact E | exact Hpc].
Defined.

(** C23: [RTI] undoes the delivery of an exception. Whichever exception
    [CheckExceptions] takes, after a handler that balances its use of the stacks
    [RTI] resumes at the interrupted program counter with the interrupted status
    register, interrupt enables included, and the four stacks as before. *)
Theorem exception_return opc s i n body :
  wf s -> (n < 32)%nat -> balanced n body ->
  List.find (deliverable s) [7; 6; 5; 4; 3; 2; 1] = Some i ->
  exists s1 s', DSPCore_CheckExceptions s = Done tt s1 /\ pc s1 = 2 * i /\
    (body;; rti opc) s1 = Done tt s' /\
    pc s' = pc s /\ r_sr (r s') = r_sr (r s) /\ same_stacks n s s'.
Proof.
  intros Hs Hn Hbody Hf. unfold DSPCore_CheckExceptions.
  assert (Hi : 1 <= i <= 7) by (apply find_some in Hf as [Hin _]; cbn in Hin; lia).
  exists (delivered i s). run. destruct (Z.eqb_spec (exceptions s) 0) as [E0 | _].
  { exfalso. apply find_some in Hf as [_ Hd]. unfold deliverable in Hd. rewrite E0, Z.testbit_0_l in Hd. done. }
  rewrite run_check_exceptions_from, Hf by (done || (repeat constructor; lia)).
  set (s0 := pushed (stack_index Call) (pc s) s). set (s1 := delivered i s).
  assert (H0 : wf s0) by (unfold s0; auto with wf).
  assert (H1 : wf s1) by (unfold s1, delivered; auto 8 with wf).
  destruct (Hbody s1 H1) as (s2 & E2 & Hs2 & Hst2).
  assert (Hd : forall k m, contents s1 k m = contents (pushed (stack_index Data) (r_sr (r s)) s0) k m).
  { intros k m. apply (contents_kept (fun x => upd_r (fun g => put_sr (r_sr g .& .~ (if i =? 7 then SR_EXT_INT_ENABLE else SR_INT_ENABLE)) g)
      (put_exceptions (exceptions s .& .~ (1 .<< i)) (put_pc (i * 2) x)))). intros x. done. }
  assert (Hp : inu 16 (pc s)) by apply Hs. assert (Hsr : inu 16 (r_sr (r s))) by apply Hs.
  assert (CC : contents s2 Call (S n) = pc s :: contents s Call n).
  { rewrite Hst2, Hd, pushed_other by done. unfold s0. rewrite contents_pushed, wrapu_id by done. done. }
  assert (CD : contents s2 Data (S n) = r_sr (r s) :: contents s Data n).
  { rewrite Hst2, Hd, contents_pushed, wrapu_id by done. unfold s0. rewrite pushed_other by done. done. }
  apply popped_contents in CD as [TD CD]; [| done].
  set (s3 := upd_r (put_sr (r_sr (r s))) (popped (stack_index Data) s2)).
  assert (H3 : wf s3) by (unfold s3; auto with wf).
  assert (Hk3 : forall k m, contents s3 k m = contents (popped (stack_index Data) s2) k m).
  { intros k m. apply (contents_kept (upd_r (put_sr (r_sr (r s))))). intros x. done. }
  assert (CC3 : contents s3 Call (S n) = pc s :: contents s Call n) by (rewrite Hk3, popped_other; done).
  apply popped_contents in CC3 as [TC CC3]; [| done].
  exists (put_pc (pc s) (popped (stack_index Call) s3)). split_and!.
  - done.
  - cbn. rewrite wrapu_id by (unfold inu; lia). lia.
  - rewrite E2. unfold rti. run. rewrite run_load, TD by done. run. fold s3.
    rewrite run_load, TC by done. run. done.
  - cbn. apply wrapu_id. done.
  - cbn. apply wrapu_id. done.
  - intros k. rewrite contents_kept by apply keeps_put_pc.
    destruct (decide (Call = k)) as [<- | Hne]; [done |]. rewrite popped_other, Hk3 by done.
    destruct (decide (Data = k)) as [<- | Hne2]; [done |].
    rewrite popped_other, (same_stacks_le _ _ _ Hst2), Hd, pushed_other by done. unfold s0.
    rewrite pushed_other by done. done.
Qed.

Lemma exception_return_witness :
  wf (set_exceptions 0x80 dsp0) /\
  exists s1 s', DSPCore_CheckExceptions (set_exceptions 0x80 dsp0) = Done tt s1 /\ pc s1 = 14 /\
    rti 0x02ff s1 = Done tt s' /\ pc s' = 0.
Proof.
  assert (H : wf (set_exceptions 0x80 dsp0)) by exact (wf_put_exceptions 0x80 dsp0 wf_dsp0).
  split; [exact H |].
  destruct (exception_return 0x02ff _ 7 0 (mret tt) H ltac:(lia)) as (s1 & s' & E1 & P1 & E & Hpc & _).
  - intros s Hs. exists s. split_and!; done.
  - vm_compute. reflexivity.
  - exists s1, s'. split_and!; [exact E1 | exact P1 | exact E | exact Hpc].
Defined.
