(* ===== verification/DspLoadStore.v ===== *)
(** Loads and stores ([Interpreter/DSPIntLoadStore.cpp]): one definition per
    instruction handler. The theorem says what an accumulator becomes when its
    middle word goes through memory, in both accumulator modes. *)

From S2P Require Import Prelude DspState DspTables DspStacks DspImem DspAnalyzer DspCore DspAccel DspHW DspCC DspIntUtil.
Open Scope Z_scope.

(** The value of a register on its way to memory or another register: the
    middle word of an accumulator is saturated. *)
Definition read_for_store (reg : Z) : M Z :=
  if DSP_REG_ACM0 <=? reg then rget (dsp_op_read_reg_and_saturate (reg - DSP_REG_ACM0))
  else dsp_op_read_reg reg.

(** [CR << 8 | M] *)
Definition cr_page (opc : Z) (g : DSP_Regs) : Z := u16 ((r_cr g .<< 8) .| (opc .& 0xFF)).

Definition srs (opc : Z) : M unit :=
  let reg := ((opc .>> 8) .& 0x7) + 0x18 in
  addr ← rget (cr_page opc);
  val ← read_for_store reg;
  dsp_dmem_write addr val.

Definition lrs (opc : Z) : M unit :=
  let reg := ((opc .>> 8) .& 0x7) + 0x18 in
  addr ← rget (cr_page opc);
  val ← dsp_dmem_read addr;
  dsp_op_write_reg reg val;;
  dsp_conditional_extend_accum reg.

Definition lr (opc : Z) : M unit :=
  let reg := opc .& 0x1F in
  addr ← dsp_fetch_code;
  val ← dsp_dmem_read addr;
  dsp_op_write_reg reg val;;
  dsp_conditional_extend_accum reg.

Definition sr (opc : Z) : M unit :=
  let reg := opc .& 0x1F in
  addr ← dsp_fetch_code;
  val ← read_for_store reg;
  dsp_dmem_write addr val.

Definition si (opc : Z) : M unit :=
  let addr := u16 (s8 opc) in
  imm ← dsp_fetch_code;
  dsp_dmem_write addr imm.

(** The next value of address register [reg] for each addressing mode. *)
Definition post_decrement (reg : Z) : M unit :=
  upd_regs (fun g => put_ar reg (dsp_decrement_addr_reg reg g) g).
Definition post_increment (reg : Z) : M unit :=
  upd_regs (fun g => put_ar reg (dsp_increment_addr_reg reg g) g).
Definition post_index (reg : Z) : M unit :=
  upd_regs (fun g => put_ar reg (dsp_increase_addr_reg reg (s16 (zget (r_ix g) reg)) g) g).

Definition lrr (opc : Z) : M unit :=
  let sreg := (opc .>> 5) .& 0x3 in
  let dreg := opc .& 0x1f in
  addr ← dsp_op_read_reg sreg;
  val ← dsp_dmem_read addr;
  dsp_op_write_reg dreg val;;
  dsp_conditional_extend_accum dreg.

Definition lrrd (opc : Z) : M unit :=
  let sreg := (opc .>> 5) .& 0x3 in
  let dreg := opc .& 0x1f in
  addr ← dsp_op_read_reg sreg;
  val ← dsp_dmem_read addr;
  dsp_op_write_reg dreg val;;
  dsp_conditional_extend_accum dreg;;
  post_decrement sreg.

Definition lrri (opc : Z) : M unit :=
  let sreg := (opc .>> 5) .& 0x3 in
  let dreg := opc .& 0x1f in
  addr ← dsp_op_read_reg sreg;
  val ← dsp_dmem_read addr;
  dsp_op_write_reg dreg val;;
  dsp_conditional_extend_accum dreg;;
  post_increment sreg.

Definition lrrn (opc : Z) : M unit :=
  let sreg := (opc .>> 5) .& 0x3 in
  let dreg := opc .& 0x1f in
  addr ← dsp_op_read_reg sreg;
  val ← dsp_dmem_read addr;
  dsp_op_write_reg dreg val;;
  dsp_conditional_extend_accum dreg;;
  post_index sreg.

Definition srr (opc : Z) : M unit :=
  let dreg := (opc .>> 5) .& 0x3 in
  let sreg := opc .& 0x1f in
  addr ← rget (fun g => zget (r_ar g) dreg);
  val ← read_for_store sreg;
  dsp_dmem_write addr val.

Definition srrd (opc : Z) : M unit :=
  let dreg := (opc .>> 5) .& 0x3 in
  let sreg := opc .& 0x1f in
  addr ← rget (fun g => zget (r_ar g) dreg);
  val ← read_for_store sreg;
  dsp_dmem_write addr val;;
  post_decrement dreg.

Definition srri (opc : Z) : M unit :=
  let dreg := (opc .>> 5) .& 0x3 in
  let sreg := opc .& 0x1f in
  addr ← rget (fun g => zget (r_ar g) dreg);
  val ← read_for_store sreg;
  dsp_dmem_write addr val;;
  post_increment dreg.

Definition srrn (opc : Z) : M unit :=
  let dreg := (opc .>> 5) .& 0x3 in
  let sreg := opc .& 0x1f in
  addr ← rget (fun g => zget (r_ar g) dreg);
  val ← read_for_store sreg;
  dsp_dmem_write addr val;;
  post_index dreg.

Definition ilrr (opc : Z) : M unit :=
  let reg := opc .& 0x3 in
  let dreg := DSP_REG_ACM0 + ((opc .>> 8) .& 1) in
  addr ← rget (fun g => zget (r_ar g) reg);
  val ← dsp_imem_read addr;
  upd_regs (put_ac_fld (dreg - DSP_REG_ACM0) 16 val);;
  dsp_conditional_extend_accum dreg.

Definition ilrrd (opc : Z) : M unit :=
  let reg := opc .& 0x3 in
  let dreg := DSP_REG_ACM0 + ((opc .>> 8) .& 1) in
  addr ← rget (fun g => zget (r_ar g) reg);
  val ← dsp_imem_read addr;
  upd_regs (put_ac_fld (dreg - DSP_REG_ACM0) 16 val);;
  dsp_conditional_extend_accum dreg;;
  post_decrement reg.

Definition ilrri (opc : Z) : M unit :=
  let reg := opc .& 0x3 in
  let dreg := DSP_REG_ACM0 + ((opc .>> 8) .& 1) in
  addr ← rget (fun g => zget (r_ar g) reg);
  val ← dsp_imem_read addr;
  upd_regs (put_ac_fld (dreg - DSP_REG_ACM0) 16 val);;
  dsp_conditional_extend_accum dreg;;
  post_increment reg.

Definition ilrrn (opc : Z) : M unit :=
  let reg := opc .& 0x3 in
  let dreg := DSP_REG_ACM0 + ((opc .>> 8) .& 1) in
  addr ← rget (fun g => zget (r_ar g) reg);
  val ← dsp_imem_read addr;
  upd_regs (put_ac_fld (dreg - DSP_REG_ACM0) 16 val);;
  dsp_conditional_extend_accum dreg;;
  post_index reg.

(** ** Preservation *)

Lemma safe_read_for_store reg : safe (read_for_store reg).
Proof. unfold read_for_store. safe_auto. Qed.
Lemma safe_post_decrement reg : safe (post_decrement reg).
Proof. unfold post_decrement. safe_auto. Qed.
Lemma safe_post_increment reg : safe (post_increment reg).
Proof. unfold post_increment. safe_auto. Qed.
Lemma safe_post_index reg : safe (post_index reg).
Proof. unfold post_index. safe_auto. Qed.
Lemma safe_imem_read addr : safe (dsp_imem_read addr).
Proof. apply safe_gets. Qed.
#[export] Hint Resolve safe_read_for_store safe_post_decrement safe_post_increment
  safe_post_index safe_imem_read : wf.

Definition load_handlers : list (Z -> M unit) :=
  [lrs; lr; lrr; lrrd; lrri; lrrn; ilrr; ilrrd; ilrri; ilrrn].

(** A store can start a DMA transfer, whose accesses outside the arrays the
    code does not exclude. *)
Definition store_handlers : list (Z -> M unit) := [srs; sr; si; srr; srrd; srri; srrn].

Lemma safe_loads : Forall (fun f => forall opc, safe (f opc)) load_handlers.
Proof.
  repeat constructor; intros opc; match goal with |- safe (?f opc) => unfold f end;
    cbv zeta; safe_auto.
Qed.

Lemma keeps_stores : Forall (fun f => forall opc, keeps (f opc)) store_handlers.
Proof.
  repeat constructor; intros opc; match goal with |- keeps (?f opc) => unfold f end;
    cbv zeta; keeps_auto.
Qed.

(** ** Properties *)

Lemma run_read_acm d s : 0 <= d < 2 ->
  read_for_store (DSP_REG_ACM0 + d) s = Done (dsp_op_read_reg_and_saturate d (r s)) s.
Proof.
  intros Hd. unfold read_for_store, DSP_REG_ACM0. destruct (Z.leb_spec 0x1e (0x1e + d)); [| lia].
  run. replace (0x1e + d - 0x1e) with d by lia. done.
Qed.

Lemma run_read_ar a s : 0 <= a < 4 -> dsp_op_read_reg a s = Done (zget (r_ar (r s)) a) s.
Proof.
  intros Ha. assert (Hc : a = 0 \/ a = 1 \/ a = 2 \/ a = 3) by lia.
  destruct_or! Hc; subst; reflexivity.
Qed.

Lemma run_write_acm e v s : 0 <= e < 2 ->
  dsp_op_write_reg (DSP_REG_ACM0 + e) v s = Done tt (upd_r (put_ac_fld e 16 v) s).
Proof.
  intros He. assert (Hc : e = 0 \/ e = 1) by lia. destruct_or! Hc; subst; reflexivity.
Qed.

(** Writing the middle word in 40-bit mode, after the extension. *)
Lemma run_extend_acm e s : 0 <= e < 2 ->
  dsp_conditional_extend_accum (DSP_REG_ACM0 + e) s =
  Done tt (upd_r (fun g => if flag (r_sr g) SR_40_MODE_BIT then
    put_ac_fld e 0 0 (put_ac_fld e 32 (if flag (ac_m g e) 0x8000 then 0xFFFF else 0x0000) g) else g) s).
Proof.
  intros He. assert (Hc : e = 0 \/ e = 1) by lia. destruct_or! Hc; subst; reflexivity.
Qed.

(** Data RAM below 0x1000 is plain memory. *)
Lemma run_dram_write a v s : 0 <= a < 0x1000 ->
  dsp_dmem_write a v s = Done tt (set_dram (mset (dram s) a (u16 v)) s).
Proof.
  intros Ha. unfold dsp_dmem_write. rewrite Z.shiftr_div_pow2, Z.div_small by lia. run.
  do 3 f_equal. unfold DSP_DRAM_MASK. change 0x0fff with (Z.ones 12).
  rewrite Z.land_ones, Z.mod_small by lia. done.
Qed.
Lemma run_dram_read a s : 0 <= a < 0x1000 -> dsp_dmem_read a s = Done (mget (dram s) a) s.
Proof.
  intros Ha. unfold dsp_dmem_read. rewrite Z.shiftr_div_pow2, Z.div_small by lia. run.
  do 2 f_equal. unfold DSP_DRAM_MASK. change 0x0fff with (Z.ones 12).
  rewrite Z.land_ones, Z.mod_small by lia. done.
Qed.

(** The middle word, sign extended. *)
Lemma extended_value x v : inu 16 v ->
  wraps 40 (set_fld16 0 0 (set_fld16 32 (if flag v 0x8000 then 0xFFFF else 0) (set_fld16 16 v x))) =
  s16 v * 2 ^ 16.
Proof.
  intros Hv. set (y := set_fld16 0 _ _).
  assert (E : y mod 2 ^ 40 = (if flag v 0x8000 then 0xFF else 0) * 2 ^ 32 + v * 2 ^ 16).
  { rewrite mod_40_fields. unfold y. rewrite fld16_set_same by lia.
    rewrite !(fld16_set_other _ 0), fld16_set_same, (fld16_set_other 16 32), fld16_set_same by lia.
    rewrite (wrapu_id 16 v) by done. rewrite (wrapu_id 16 0) by (unfold inu; lia).
    destruct (flag v 0x8000); rewrite wrapu_id by (unfold inu; lia);
      [change (0xFFFF mod 2 ^ 8) with 0xFF | change (0 mod 2 ^ 8) with 0]; lia. }
  rewrite (wraps_eq_mod 40 _ ((if flag v 0x8000 then 0xFF else 0) * 2 ^ 32 + v * 2 ^ 16)).
  2: { rewrite <- E, Z.mod_mod by lia. done. }
  change 0x8000 with (2 ^ 15). rewrite flag_testbit by lia. unfold inu in Hv.
  assert (Hb : Z.testbit v 15 = (2 ^ 15 <=? v)).
  { destruct (Z.leb_spec (2 ^ 15) v).
    - apply Z.testbit_true; [lia |]. rewrite <- (Z.div_unique_pos v (2 ^ 15) 1 (v - 2 ^ 15)) by lia. done.
    - apply (testbit_inu_high 15); [lia | unfold inu; lia | lia]. }
  rewrite Hb, (wraps_unsigned 16) by (unfold inu; lia).
  destruct (Z.leb_spec (2 ^ 15) v), (Z.ltb_spec v (2 ^ (16 - 1))); try lia;
    rewrite wraps_unsigned by (unfold inu; lia);
    match goal with |- context [if ?x <? ?y then _ else _] => destruct (Z.ltb_spec x y) end; lia.
Qed.

(** Saturation to 32 bits. *)
Definition saturate32 (v : Z) : Z := Z.max (- 2 ^ 31) (Z.min (2 ^ 31 - 1) v).

Lemma saturated_word d g : flag (r_sr g) SR_40_MODE_BIT = true ->
  s16 (dsp_op_read_reg_and_saturate d g) = saturate32 (dsp_get_long_acc d g) / 2 ^ 16 /\
  inu 16 (dsp_op_read_reg_and_saturate d g).
Proof.
  intros Hm. unfold dsp_op_read_reg_and_saturate, saturate32. rewrite Hm.
  pose proof (fld16_range 16 (zget (r_ac g) d)) as Hr. fold (ac_m g d) in Hr.
  rewrite ac_m_value in *. set (acc := dsp_get_long_acc d g) in *.
  pose proof (get_long_acc_range d g) as Ha. fold acc in Ha. unfold ins in Ha.
  destruct (Z.eqb_spec acc (s32 acc)) as [E | E]; cbn [negb].
  - pose proof (wraps_range 32 acc ltac:(lia)) as H. rewrite <- E in H. unfold ins in H.
    split; [| done]. rewrite Z.min_r, Z.max_r by lia.
    rewrite (wraps_eq_mod 16 _ (acc / 2 ^ 16)) by (apply Z.mod_mod; done).
    apply wraps_id; [lia |]. unfold ins. Z.to_euclidean_division_equations. lia.
  - assert (H : acc < - 2 ^ 31 \/ 2 ^ 31 <= acc).
    { destruct (Z.lt_ge_cases acc (- 2 ^ 31)); [auto |]. destruct (Z.lt_ge_cases acc (2 ^ 31)); [| auto].
      exfalso. apply E. symmetry. apply wraps_id; unfold ins; lia. }
    destruct (Z.ltb_spec 0 acc).
    + rewrite Z.min_l, Z.max_r by lia. split; [reflexivity | unfold inu; lia].
    + rewrite Z.min_r, Z.max_l by lia. split; [reflexivity | unfold inu; lia].
Qed.

(** An accumulator stored to data RAM through an address register and
    loaded back, into the same or the other accumulator. In 40-bit mode the
    result is the stored accumulator saturated to 32 bits with its low word
    cleared; in 16-bit mode the middle word is copied and the low and high words
    of the destination stay. *)
Theorem store_load_accumulator ops opl s a d e :
  wf s -> 0 <= a < 4 -> 0 <= d < 2 -> 0 <= e < 2 ->
  (ops .>> 5) .& 3 = a -> (opl .>> 5) .& 3 = a ->
  ops .& 0x1f = DSP_REG_ACM0 + d -> opl .& 0x1f = DSP_REG_ACM0 + e ->
  zget (r_ar (r s)) a < 0x1000 ->
  exists s', (srr ops;; lrr opl) s = Done tt s' /\
  if flag (r_sr (r s)) SR_40_MODE_BIT then
    dsp_get_long_acc e (r s') = saturate32 (dsp_get_long_acc d (r s)) / 2 ^ 16 * 2 ^ 16
  else
    ac_m (r s') e = ac_m (r s) d /\ ac_l (r s') e = ac_l (r s) e /\ ac_h (r s') e = ac_h (r s) e.
Proof.
  intros Hs Ha Hd He Ea El Ed Ee Hlow.
  assert (Har : inu 16 (zget (r_ar (r s)) a)) by (destruct Hs as [[] ]; range). unfold inu in Har.
  assert (Hac : arr_ok 2 64 (r_ac (r s))) by apply Hs.
  unfold srr, lrr. rewrite Ea, El, Ed, Ee. run. rewrite run_read_acm by done.
  set (v := dsp_op_read_reg_and_saturate d (r s)).
  rewrite run_dram_write by lia. run. rewrite run_read_ar by done. run. cbn [r set_dram].
  rewrite run_dram_read by lia. cbn [dram set_dram]. rewrite mget_mset_same. run.
  rewrite run_write_acm by done. run. rewrite run_extend_acm by done.
  eexists. split; [reflexivity |]. cbn [upd_r r set_r set_dram].
  set (g := put_ac_fld e 16 (u16 v) (r s)). change (r_sr g) with (r_sr (r s)).
  assert (Hac' : arr_ok 2 64 (r_ac g)).
  { unfold g. cbn. apply arr_ok_zset; [done |]. apply set_fld16_range; [lia | lia | range]. }
  assert (Hm : ac_m g e = u16 v).
  { unfold ac_m, g. cbn. rewrite (zget_zset_same 2 64) by done. rewrite fld16_set_same by lia.
    apply wrapu_idem. lia. }
  destruct (flag (r_sr (r s)) SR_40_MODE_BIT) eqn:Hmode.
  - destruct (saturated_word d (r s) Hmode) as [Hw Hv]. fold v in Hw, Hv.
    rewrite wrapu_id in Hm by done. rewrite Hm. rewrite get_long_acc_s40. cbn [put_ac_fld r_ac set_r_ac].
    rewrite zset_zset, !(zget_zset_same 2 64) by (done || lia).
    unfold g. cbn [put_ac_fld r_ac set_r_ac]. rewrite (zget_zset_same 2 64) by done.
    rewrite (wrapu_id 16 v) by done. rewrite extended_value, Hw by done. done.
  - unfold v in Hm. unfold dsp_op_read_reg_and_saturate in Hm. rewrite Hmode in Hm.
    split_and!.
    + rewrite Hm. apply wrapu_id. range.
    + unfold g, ac_l. cbn. rewrite (zget_zset_same 2 64) by done. apply fld16_set_other; lia.
    + unfold g, ac_h. cbn. rewrite (zget_zset_same 2 64) by done. apply fld16_set_other; lia.
Qed.

Lemma store_load_accumulator_witness :
  let s := upd_r (fun g => put_ac 0 0x123456789a (put_sr SR_40_MODE_BIT g)) dsp0 in
  wf s /\ exists s', (srr 0x1a1e;; lrr 0x181f) s = Done tt s' /\
                     dsp_get_long_acc 1 (r s') = 0x7fff0000.
Proof.
  intros s. assert (H : wf s).
  { apply wf_upd_r; [| exact wf_dsp0]. intros g Hg. apply wf_put_ac, wf_put_sr, Hg. }
  split; [exact H |].
  destruct (store_load_accumulator 0x1a1e 0x181f s 0 0 1 H) as (s' & E & V);
    [lia | lia | lia | reflexivity | reflexivity | reflexivity | reflexivity | reflexivity |].
  exists s'. split; [exact E | exact V].
Defined.
