(* ===== verification/DspMisc.v ===== *)
(** Register moves, immediates, address register arithmetic and status bits
    ([Interpreter/DSPIntMisc.cpp]): one definition per instruction handler. *)

From S2P Require Import Prelude DspState DspTables DspStacks DspImem DspAnalyzer DspCore DspAccel DspHW DspCC DspIntUtil DspLoadStore.
Open Scope Z_scope.

Definition mrr (opc : Z) : M unit :=
  let sreg := opc .& 0x1f in
  let dreg := (opc .>> 5) .& 0x1f in
  val ← read_for_store sreg;
  dsp_op_write_reg dreg val;;
  dsp_conditional_extend_accum dreg.

Definition lri (opc : Z) : M unit :=
  let reg := opc .& 0x1F in
  imm ← dsp_fetch_code;
  dsp_op_write_reg reg imm;;
  dsp_conditional_extend_accum reg.

Definition lris (opc : Z) : M unit :=
  let reg := ((opc .>> 8) .& 0x7) + DSP_REG_AXL0 in
  let imm := u16 (s8 opc) in
  dsp_op_write_reg reg imm;;
  dsp_conditional_extend_accum reg.

Definition nx (opc : Z) : M unit := ZeroWriteBackLog.

Definition dar (opc : Z) : M unit :=
  upd_regs (fun g => put_ar (opc .& 0x3) (dsp_decrement_addr_reg (opc .& 0x3) g) g).

Definition iar (opc : Z) : M unit :=
  upd_regs (fun g => put_ar (opc .& 0x3) (dsp_increment_addr_reg (opc .& 0x3) g) g).

Definition subarn (opc : Z) : M unit :=
  let dreg := opc .& 0x3 in
  upd_regs (fun g => put_ar dreg (dsp_decrease_addr_reg dreg (s16 (zget (r_ix g) dreg)) g) g).

Definition addarn (opc : Z) : M unit :=
  let dreg := opc .& 0x3 in
  let sreg := (opc .>> 2) .& 0x3 in
  upd_regs (fun g => put_ar dreg (dsp_increase_addr_reg dreg (s16 (zget (r_ix g) sreg)) g) g).

Definition sbclr (opc : Z) : M unit :=
  let bit := (opc .& 0x7) + 6 in
  upd_regs (fun g => put_sr (r_sr g .& .~ (1 .<< bit)) g).

Definition sbset (opc : Z) : M unit :=
  let bit := (opc .& 0x7) + 6 in
  upd_regs (fun g => put_sr (r_sr g .| (1 .<< bit)) g).

Definition srbith (opc : Z) : M unit :=
  ZeroWriteBackLog;;
  match (opc .>> 8) .& 0xf with
  | 0xa => upd_regs (fun g => put_sr (r_sr g .& .~ SR_MUL_MODIFY) g)
  | 0xb => upd_regs (fun g => put_sr (r_sr g .| SR_MUL_MODIFY) g)
  | 0xc => upd_regs (fun g => put_sr (r_sr g .& .~ SR_MUL_UNSIGNED) g)
  | 0xd => upd_regs (fun g => put_sr (r_sr g .| SR_MUL_UNSIGNED) g)
  | 0xe => upd_regs (fun g => put_sr (r_sr g .& .~ SR_40_MODE_BIT) g)
  | 0xf => upd_regs (fun g => put_sr (r_sr g .| SR_40_MODE_BIT) g)
  | _ => mret tt
  end.

(** ** Preservation *)

Definition misc_handlers : list (Z -> M unit) :=
  [mrr; lri; lris; nx; dar; iar; subarn; addarn; sbclr; sbset; srbith].

Lemma safe_misc : Forall (fun f => forall opc, safe (f opc)) misc_handlers.
Proof.
  repeat constructor; intros opc; match goal with |- safe (?f opc) => unfold f end;
    cbv zeta; unfold ZeroWriteBackLog; safe_auto.
Qed.

(** ** Properties *)

(** Only the status register was written. *)
Lemma restore_sr v s : wf s -> upd_r (put_sr (r_sr (r s))) (upd_r (put_sr v) s) = s.
Proof.
  intros Hs. unfold upd_r, put_sr. cbn. rewrite wrapu_id by apply Hs.
  destruct s as [g]. destruct g. done.
Qed.

Lemma bit_index opc : opc .& 7 = opc mod 8.
Proof. apply (Z.land_ones opc 3). lia. Qed.

(** [SBSET] and [SBCLR] set and clear bit [6 + I] of the status register,
    the other fifteen bits and the rest of the machine untouched; one undoes the
    other exactly when the bit had the opposite value. *)
Theorem status_bits ops opcl s :
  wf s -> ops mod 8 = opcl mod 8 ->
  let i := 6 + ops mod 8 in
  exists s1 s2 s3, sbset ops s = Done tt s1 /\ sbclr opcl s = Done tt s2 /\ sbclr opcl s1 = Done tt s3 /\
  (forall j, 0 <= j -> Z.testbit (r_sr (r s1)) j = (j =? i) || Z.testbit (r_sr (r s)) j) /\
  (forall j, 0 <= j -> Z.testbit (r_sr (r s2)) j = negb (j =? i) && Z.testbit (r_sr (r s)) j) /\
  upd_r (put_sr (r_sr (r s))) s1 = s /\ upd_r (put_sr (r_sr (r s))) s2 = s /\
  (s3 = s <-> Z.testbit (r_sr (r s)) i = false).
Proof.
  intros Hs Ei i. assert (Hsr : inu 16 (r_sr (r s))) by apply Hs.
  pose proof (Z.mod_pos_bound ops 8 eq_refl) as Hm.
  unfold sbset, sbclr. rewrite !bit_index, <- Ei, !(Z.add_comm _ 6). fold i. run.
  do 3 eexists. do 3 (split; [reflexivity |]).
  assert (Hbit : forall j, 0 <= j -> Z.testbit (1 .<< i) j = (j =? i)).
  { intros j Hj. rewrite Z.shiftl_1_l, Z.pow2_bits_eqb by lia. apply Z.eqb_sym. }
  assert (Hset : forall j, 0 <= j -> Z.testbit (u16 (r_sr (r s) .| (1 .<< i))) j = (j =? i) || Z.testbit (r_sr (r s)) j).
  { intros j Hj. rewrite testbit_wrapu, Z.lor_spec, Hbit by lia. split_cmps; cbn [andb].
    - apply orb_comm.
    - rewrite (testbit_inu_high 16 (r_sr (r s))) by (lia || done).
      destruct (Z.eqb_spec j i); [lia | done]. }
  assert (Hclr : forall x j, inu 16 x -> 0 <= j -> Z.testbit (u16 (x .& .~ (1 .<< i))) j = negb (j =? i) && Z.testbit x j).
  { intros x j Hx Hj. rewrite testbit_wrapu, Z.land_spec, testbit_lnot', Hbit by lia. split_cmps; cbn [andb].
    - apply andb_comm.
    - rewrite (testbit_inu_high 16 x) by (lia || done). rewrite andb_false_r. done. }
  split_and!.
  - exact Hset.
  - intros j Hj. apply Hclr; done.
  - apply (restore_sr (r_sr (r s) .| (1 .<< i))). done.
  - apply (restore_sr (r_sr (r s) .& .~ (1 .<< i))). done.
  - set (x := u16 (r_sr (r s) .| (1 .<< i))). assert (Hx : inu 16 x) by (unfold x; range). split.
    + intros E. apply (f_equal (fun m => Z.testbit (r_sr (r m)) i)) in E. rewrite <- E.
      cbn. fold x. rewrite Hclr, Z.eqb_refl by (done || lia). done.
    + intros Hf. replace (upd_r _ (upd_r _ s)) with (upd_r (put_sr (r_sr (r s))) (upd_r (put_sr (r_sr (r s) .| (1 .<< i))) s));
        [apply restore_sr; done |].
      unfold upd_r, put_sr. cbn. fold x. do 2 f_equal. rewrite (wrapu_id 16 (r_sr (r s))) by done.
      apply Z.bits_inj'. intros j Hj. rewrite Hclr by done. unfold x. rewrite Hset by done.
      destruct (Z.eqb_spec j i) as [-> | ?]; [rewrite Hf; done | done].
Qed.

Lemma status_bits_witness :
  wf dsp0 /\ exists s1, sbset 0x1305 dsp0 = Done tt s1 /\ sbclr 0x1205 s1 = Done tt dsp0.
Proof.
  split; [exact wf_dsp0 |].
  destruct (status_bits 0x1305 0x1205 dsp0 wf_dsp0 ltac:(reflexivity))
    as (s1 & s2 & s3 & E1 & _ & E3 & _ & _ & _ & _ & Hiff).
  exists s1. split; [exact E1 |]. rewrite E3. f_equal. apply Hiff. reflexivity.
Defined.
