(* ===== verification/DspFrame.v ===== *)
(** What the operations shared by the instructions leave alone: no operation
    but those on the write-back log itself touches the log, and an access to
    data memory leaves the register file as it was, unless it acknowledges
    the mail of the CPU's reset protocol ([g_init_hax]). *)

From S2P Require Import Prelude DspState DspTables DspStacks DspImem DspAnalyzer DspCore DspAccel DspHW DspCC DspIntUtil DspLoadStore.
Open Scope Z_scope.

(** The write-back log is unchanged. *)
Definition same_log (s s' : SDSP) : Prop :=
  writeBackLogIdx s' = writeBackLogIdx s /\ writeBackLog s' = writeBackLog s.

(** Outside the reset protocol the registers are unchanged. *)
Definition same_regs (s s' : SDSP) : Prop :=
  g_init_hax s = false -> r s' = r s /\ g_init_hax s' = false.

Definition memory_only (s s' : SDSP) : Prop := same_log s s' /\ same_regs s s'.

#[export] Instance same_log_preorder : PreOrder same_log.
Proof.
  split; [done |]. intros s1 s2 s3 [E1 E2] [F1 F2]. split; congruence.
Qed.

#[export] Instance same_regs_preorder : PreOrder same_regs.
Proof.
  split; [intros s; unfold same_regs; auto |]. intros s1 s2 s3 H1 H2 H.
  destruct (H1 H) as [E1 E1']. destruct (H2 E1') as [E2 E2']. split; congruence.
Qed.

#[export] Instance memory_only_preorder : PreOrder memory_only.
Proof.
  split; [intros s; split; reflexivity |].
  intros s1 s2 s3 [L1 H1] [L2 H2]. split; etransitivity; eassumption.
Qed.

Lemma stable_weaken {A} (R R' : SDSP -> SDSP -> Prop) (m : M A) :
  (forall s s', R s s' -> R' s s') -> stable R m -> stable R' m.
Proof. intros H Hm s a s' E. eapply H, Hm, E. Qed.

Lemma memory_only_log {A} (m : M A) : stable memory_only m -> stable same_log m.
Proof. apply stable_weaken. intros s s' [H _]. exact H. Qed.

Lemma memory_only_regs {A} (m : M A) : stable memory_only m -> stable same_regs m.
Proof. apply stable_weaken. intros s s' [_ H]. exact H. Qed.

Ltac log_leaf := split; reflexivity.
Ltac regs_leaf := let H := fresh in intros H; split; [reflexivity | exact H].
Ltac memory_leaf := split; [log_leaf | regs_leaf].

(** ** Data memory *)

Section Memory.
Let R := memory_only.

Lemma memory_analyze_instructions fuel a l e : stable R (analyze_instructions fuel a l e).
Proof using Type.
  revert a l. induction fuel as [| fuel IH]; intros a l; cbn [analyze_instructions];
    destruct (a <? e); try (apply stable_ret; apply _).
  apply stable_bind; [apply _ | | intros; apply IH].
  unfold R, analyze_instruction. stable_auto memory_leaf.
Qed.

Lemma memory_scan_signatures sigs n a : stable R (scan_signatures sigs n a).
Proof using Type.
  assert (H : forall sig m b, stable R (scan_signature sig m b)).
  { intros sig m. induction m as [| m IH]; intros b; cbn [scan_signature];
      [apply stable_ret; apply _ |].
    unfold R in *. repeat first [apply IH | stable_step memory_leaf]. }
  revert a. induction sigs as [| sig sigs IH]; intros a; cbn [scan_signatures];
    [apply stable_ret; apply _ |]. apply stable_bind; [apply _ | apply H | intros; apply IH].
Qed.

Lemma memory_Analyze : stable R Analyze.
Proof using Type.
  unfold R, Analyze, AnalyzeRange, Reset. pose proof memory_analyze_instructions.
  pose proof memory_scan_signatures. stable_auto memory_leaf.
Qed.

Lemma memory_ddma_in n d a i : stable R (ddma_in_loop n d a i).
Proof using Type.
  revert i. induction n as [| n IH]; intros i; cbn [ddma_in_loop]; [apply stable_ret; apply _ |].
  unfold R in *. repeat first [apply IH | stable_step memory_leaf].
Qed.
Lemma memory_ddma_out n d a i : stable R (ddma_out_loop n d a i).
Proof using Type.
  revert i. induction n as [| n IH]; intros i; cbn [ddma_out_loop]; [apply stable_ret; apply _ |].
  unfold R in *. repeat first [apply IH | stable_step memory_leaf].
Qed.

Lemma memory_idma_words n d a s : memory_only s (idma_words n d a s).
Proof using Type.
  revert d a s. induction n as [| n IH]; intros d a s; cbn [idma_words]; [reflexivity |].
  etransitivity; [| apply IH]. memory_leaf.
Qed.

Lemma memory_do_dma : stable R gdsp_do_dma.
Proof using Type.
  unfold R in *. pose proof memory_Analyze. pose proof memory_ddma_in. pose proof memory_ddma_out.
  unfold gdsp_do_dma, gdsp_ddma_in, gdsp_ddma_out, gdsp_idma_in, CodeLoaded, exit0.
  stable_auto ltac:(first [memory_leaf | apply memory_idma_words]).
  all: intros ? ? ? E; discriminate E.
Qed.

Lemma memory_accelerator_read : stable R accelerator_read.
Proof using Type.
  intros s v s' E. unfold accelerator_read in E.
  assert (He : snd (Read (coefs_of s) (accelerator s) s) = s \/
               snd (Read (coefs_of s) (accelerator s) s) = raise AcceleratorOverflow s).
  { unfold Read. repeat case_match; simplify_eq; cbn; auto. }
  destruct (Read (coefs_of s) (accelerator s) s) as [[w x] s1]. cbn [snd] in He.
  injection E as _ <-. destruct He as [-> | ->]; memory_leaf.
Qed.
Lemma memory_accelerator_read_d3 : stable R accelerator_read_d3.
Proof using Type.
  intros s v s' E. unfold accelerator_read_d3 in E.
  destruct (ReadD3 (accelerator s) s) as [w x]. injection E as _ <-. memory_leaf.
Qed.

Lemma memory_mbox_read_l mbx : stable R (gdsp_mbox_read_l mbx).
Proof using Type.
  intros s v s' E. unfold gdsp_mbox_read_l in E.
  autorewrite with run in E. cbv beta iota in E. cbn [g_init_hax mbox_store set_mbox] in E.
  set (s1 := mbox_store mbx _ s) in E. change (g_init_hax s1) with (g_init_hax s) in E.
  destruct (g_init_hax s && is_dsp_mailbox mbx) eqn:Hh.
  - apply andb_prop in Hh as [Hh _]. split; [| unfold same_regs; rewrite Hh; discriminate].
    assert (HR : stable same_log DSPCore_Reset).
    { pose proof (memory_only_log _ memory_Analyze). unfold DSPCore_Reset. stable_auto log_leaf. }
    destruct (DSPCore_Reset (set_g_init_hax false s1)) as [[] s2 | |] eqn:E2; [| done | done].
    injection E as _ <-. apply HR in E2. destruct E2 as [E2 E3]. split; assumption.
  - injection E as _ <-. memory_leaf.
Qed.

Lemma memory_dmem_read addr : stable R (dsp_dmem_read addr).
Proof using Type.
  unfold R in *. pose proof memory_accelerator_read. pose proof memory_accelerator_read_d3.
  pose proof memory_mbox_read_l. unfold dsp_dmem_read, gdsp_ifx_read. cbv zeta.
  stable_auto memory_leaf.
Qed.

Lemma memory_dmem_write addr v : stable R (dsp_dmem_write addr v).
Proof using Type.
  unfold R in *. pose proof memory_do_dma. unfold dsp_dmem_write, gdsp_ifx_write. cbv zeta.
  stable_auto ltac:(first [memory_leaf
    | match goal with |- memory_only ?s _ => unfold WriteD3; repeat case_match; simplify_eq; memory_leaf end]).
Qed.
End Memory.
#[export] Hint Resolve memory_dmem_read memory_dmem_write : frame.

Lemma log_dmem_read addr : stable same_log (dsp_dmem_read addr).
Proof. apply memory_only_log, memory_dmem_read. Qed.
Lemma log_dmem_write addr v : stable same_log (dsp_dmem_write addr v).
Proof. apply memory_only_log, memory_dmem_write. Qed.
Lemma regs_dmem_read addr : stable same_regs (dsp_dmem_read addr).
Proof. apply memory_only_regs, memory_dmem_read. Qed.
Lemma regs_dmem_write addr v : stable same_regs (dsp_dmem_write addr v).
Proof. apply memory_only_regs, memory_dmem_write. Qed.
#[export] Hint Resolve log_dmem_read log_dmem_write regs_dmem_read regs_dmem_write : frame.

(** ** The other shared operations *)

Lemma log_op_read_reg reg : stable same_log (dsp_op_read_reg reg).
Proof. stable_auto log_leaf. Qed.
Lemma log_op_write_reg reg v : stable same_log (dsp_op_write_reg reg v).
Proof. stable_auto log_leaf. Qed.
Lemma log_extend reg : stable same_log (dsp_conditional_extend_accum reg).
Proof. stable_auto log_leaf. Qed.
Lemma log_fetch : stable same_log dsp_fetch_code.
Proof. stable_auto log_leaf. Qed.
Lemma log_store k v : stable same_log (dsp_reg_store_stack k v).
Proof. stable_auto log_leaf. Qed.
Lemma log_load k : stable same_log (dsp_reg_load_stack k).
Proof. stable_auto log_leaf. Qed.
Lemma log_sr64 v c o : stable same_log (Update_SR_Register64 v c o).
Proof. stable_auto log_leaf. Qed.
Lemma log_sr16 v c o x : stable same_log (Update_SR_Register16 v c o x).
Proof. stable_auto log_leaf. Qed.
#[export] Hint Resolve log_op_read_reg log_op_write_reg log_extend log_fetch log_store log_load
  log_sr64 log_sr16 : frame.

Lemma log_check_exceptions_from l : stable same_log (check_exceptions_from l).
Proof.
  induction l as [| i l IH]; cbn [check_exceptions_from]; [apply stable_ret; apply _ |].
  repeat first [apply IH | stable_step log_leaf].
Qed.
#[export] Hint Resolve log_check_exceptions_from : frame.
