(* ===== verification/DspExtOps.v ===== *)
(** The extension half of parallel instructions
    ([Interpreter/DSPIntExtOps.cpp]): one definition per extension, and the
    write-back log that delays their register writes until the main operation
    is done. The theorems show that an extension leaves every register as the
    main operation is to see it, and that applying the log performs the logged
    writes in order and empties it. *)

From S2P Require Import Prelude DspState DspTables DspStacks DspImem DspAnalyzer DspCore DspAccel DspHW DspCC DspIntUtil DspLoadStore DspFrame.
Open Scope Z_scope.

(** ** The write-back log *)

Definition log_write (i idx value : Z) (s : SDSP) : SDSP :=
  set_writeBackLogIdx (zset (writeBackLogIdx s) i idx)
    (set_writeBackLog (zset (writeBackLog s) i (u16 value)) s).

Definition WriteToBackLog (i idx value : Z) : M unit := modify (log_write i idx value).

(** Log a value of the current register file. *)
Definition BackLogReg (i idx : Z) (value : DSP_Regs -> Z) : M unit :=
  v ← rget value;
  WriteToBackLog i idx v.

(** [for (int i = 0; writeBackLogIdx[i] != -1; i++)]: the array has five
    entries, and reading a sixth is out of bounds. *)
Fixpoint apply_from (fuel : nat) (i : Z) : M unit :=
  match fuel with
  | O => out_of_bounds
  | S fuel' =>
    idx ← gets (fun s => zget (writeBackLogIdx s) i);
    if idx =? -1 then mret tt
    else
      value ← gets (fun s => zget (writeBackLog s) i);
      dsp_op_write_reg idx value;;
      modify (fun s => set_writeBackLogIdx (zset (writeBackLogIdx s) i (-1)) s);;
      apply_from fuel' (i + 1)
  end.

Definition ApplyWriteBackLog : M unit := apply_from 5 0.

(** ** The extensions *)

Module Ext.

Definition IsSameMemArea (a b : Z) : bool := (a .>> 10) =? (b .>> 10).

(** Address registers and their successors. *)
Definition ar (reg : Z) (g : DSP_Regs) : Z := zget (r_ar g) reg.
Definition incremented (reg : Z) (g : DSP_Regs) : Z := dsp_increment_addr_reg reg g.
Definition indexed (reg : Z) (g : DSP_Regs) : Z :=
dsp_increase_addr_reg reg (s16 (zget (r_ix g) reg)) g.

Definition dr (opc : Z) : M unit := BackLogReg 0 (opc .& 0x3) (dsp_decrement_addr_reg (opc .& 0x3)).

Definition ir (opc : Z) : M unit := BackLogReg 0 (opc .& 0x3) (incremented (opc .& 0x3)).

Definition nr (opc : Z) : M unit :=
let reg := opc .& 0x3 in
BackLogReg 0 reg (indexed reg).

(** [$acS.l], or [$acS.m] saturated. *)
Definition acc_word (sreg : Z) (g : DSP_Regs) : Z :=
if among sreg DSP_REG_ACL0 2 then ac_l g (sreg - DSP_REG_ACL0)
else dsp_op_read_reg_and_saturate (sreg - DSP_REG_ACM0) g.

Definition mv (opc : Z) : M unit :=
let sreg := (opc .& 0x3) + DSP_REG_ACL0 in
let dreg := (opc .>> 2) .& 0x3 in
BackLogReg 0 (dreg + DSP_REG_AXL0) (acc_word sreg).

Definition s (opc : Z) : M unit :=
let dreg := opc .& 0x3 in
let sreg := ((opc .>> 3) .& 0x3) + DSP_REG_ACL0 in
addr ← rget (ar dreg);
val ← rget (acc_word sreg);
dsp_dmem_write addr val;;
BackLogReg 0 dreg (incremented dreg).

Definition sn (opc : Z) : M unit :=
let dreg := opc .& 0x3 in
let sreg := ((opc .>> 3) .& 0x3) + DSP_REG_ACL0 in
addr ← rget (ar dreg);
val ← rget (acc_word sreg);
dsp_dmem_write addr val;;
BackLogReg 0 dreg (indexed dreg).

Definition l (opc : Z) : M unit :=
let sreg := opc .& 0x3 in
let dreg := ((opc .>> 3) .& 0x7) + DSP_REG_AXL0 in
mode ← rget (fun g => flag (r_sr g) SR_40_MODE_BIT);
addr ← rget (ar sreg);
if (DSP_REG_ACM0 <=? dreg) && mode then
  val ← dsp_dmem_read addr;
  WriteToBackLog 0 (dreg - DSP_REG_ACM0 + DSP_REG_ACH0) (if flag val 0x8000 then 0xFFFF else 0x0000);;
  WriteToBackLog 1 dreg val;;
  WriteToBackLog 2 (dreg - DSP_REG_ACM0 + DSP_REG_ACL0) 0;;
  BackLogReg 3 sreg (incremented sreg)
else
  val ← dsp_dmem_read addr;
  WriteToBackLog 0 dreg val;;
  BackLogReg 1 sreg (incremented sreg).

Definition ln (opc : Z) : M unit :=
let sreg := opc .& 0x3 in
let dreg := ((opc .>> 3) .& 0x7) + DSP_REG_AXL0 in
mode ← rget (fun g => flag (r_sr g) SR_40_MODE_BIT);
addr ← rget (ar sreg);
if (DSP_REG_ACM0 <=? dreg) && mode then
  val ← dsp_dmem_read addr;
  WriteToBackLog 0 (dreg - DSP_REG_ACM0 + DSP_REG_ACH0) (if flag val 0x8000 then 0xFFFF else 0x0000);;
  WriteToBackLog 1 dreg val;;
  WriteToBackLog 2 (dreg - DSP_REG_ACM0 + DSP_REG_ACL0) 0;;
  BackLogReg 3 sreg (indexed sreg)
else
  val ← dsp_dmem_read addr;
  WriteToBackLog 0 dreg val;;
  BackLogReg 1 sreg (indexed sreg).

Definition ls (opc : Z) : M unit :=
let sreg := opc .& 0x1 in
let dreg := ((opc .>> 4) .& 0x3) + DSP_REG_AXL0 in
addr ← rget (ar 3);
word ← rget (dsp_op_read_reg_and_saturate sreg);
dsp_dmem_write addr word;;
addr ← rget (ar 0);
val ← dsp_dmem_read addr;
WriteToBackLog 0 dreg val;;
BackLogReg 1 DSP_REG_AR3 (incremented DSP_REG_AR3);;
BackLogReg 2 DSP_REG_AR0 (incremented DSP_REG_AR0).

Definition lsn (opc : Z) : M unit :=
let sreg := opc .& 0x1 in
let dreg := ((opc .>> 4) .& 0x3) + DSP_REG_AXL0 in
addr ← rget (ar 3);
word ← rget (dsp_op_read_reg_and_saturate sreg);
dsp_dmem_write addr word;;
addr ← rget (ar 0);
val ← dsp_dmem_read addr;
WriteToBackLog 0 dreg val;;
BackLogReg 1 DSP_REG_AR3 (incremented DSP_REG_AR3);;
BackLogReg 2 DSP_REG_AR0 (indexed DSP_REG_AR0).

Definition lsm (opc : Z) : M unit :=
let sreg := opc .& 0x1 in
let dreg := ((opc .>> 4) .& 0x3) + DSP_REG_AXL0 in
addr ← rget (ar 3);
word ← rget (dsp_op_read_reg_and_saturate sreg);
dsp_dmem_write addr word;;
addr ← rget (ar 0);
val ← dsp_dmem_read addr;
WriteToBackLog 0 dreg val;;
BackLogReg 1 DSP_REG_AR3 (indexed DSP_REG_AR3);;
BackLogReg 2 DSP_REG_AR0 (incremented DSP_REG_AR0).

Definition lsnm (opc : Z) : M unit :=
let sreg := opc .& 0x1 in
let dreg := ((opc .>> 4) .& 0x3) + DSP_REG_AXL0 in
addr ← rget (ar 3);
word ← rget (dsp_op_read_reg_and_saturate sreg);
dsp_dmem_write addr word;;
addr ← rget (ar 0);
val ← dsp_dmem_read addr;
WriteToBackLog 0 dreg val;;
BackLogReg 1 DSP_REG_AR3 (indexed DSP_REG_AR3);;
BackLogReg 2 DSP_REG_AR0 (indexed DSP_REG_AR0).

Definition sl (opc : Z) : M unit :=
let sreg := opc .& 0x1 in
let dreg := ((opc .>> 4) .& 0x3) + DSP_REG_AXL0 in
addr ← rget (ar 0);
word ← rget (dsp_op_read_reg_and_saturate sreg);
dsp_dmem_write addr word;;
addr ← rget (ar 3);
val ← dsp_dmem_read addr;
WriteToBackLog 0 dreg val;;
BackLogReg 1 DSP_REG_AR3 (incremented DSP_REG_AR3);;
BackLogReg 2 DSP_REG_AR0 (incremented DSP_REG_AR0).

Definition sln (opc : Z) : M unit :=
let sreg := opc .& 0x1 in
let dreg := ((opc .>> 4) .& 0x3) + DSP_REG_AXL0 in
addr ← rget (ar 0);
word ← rget (dsp_op_read_reg_and_saturate sreg);
dsp_dmem_write addr word;;
addr ← rget (ar 3);
val ← dsp_dmem_read addr;
WriteToBackLog 0 dreg val;;
BackLogReg 1 DSP_REG_AR3 (incremented DSP_REG_AR3);;
BackLogReg 2 DSP_REG_AR0 (indexed DSP_REG_AR0).

Definition slm (opc : Z) : M unit :=
let sreg := opc .& 0x1 in
let dreg := ((opc .>> 4) .& 0x3) + DSP_REG_AXL0 in
addr ← rget (ar 0);
word ← rget (dsp_op_read_reg_and_saturate sreg);
dsp_dmem_write addr word;;
addr ← rget (ar 3);
val ← dsp_dmem_read addr;
WriteToBackLog 0 dreg val;;
BackLogReg 1 DSP_REG_AR3 (indexed DSP_REG_AR3);;
BackLogReg 2 DSP_REG_AR0 (incremented DSP_REG_AR0).

Definition slnm (opc : Z) : M unit :=
let sreg := opc .& 0x1 in
let dreg := ((opc .>> 4) .& 0x3) + DSP_REG_AXL0 in
addr ← rget (ar 0);
word ← rget (dsp_op_read_reg_and_saturate sreg);
dsp_dmem_write addr word;;
addr ← rget (ar 3);
val ← dsp_dmem_read addr;
WriteToBackLog 0 dreg val;;
BackLogReg 1 DSP_REG_AR3 (indexed DSP_REG_AR3);;
BackLogReg 2 DSP_REG_AR0 (indexed DSP_REG_AR0).

(** [IsSameMemArea(ar[sreg], ar[3]) ? ar[sreg] : ar[3]], the address of the
  second load. *)
Definition second_addr (sreg : Z) (g : DSP_Regs) : Z :=
if IsSameMemArea (ar sreg g) (ar 3 g) then ar sreg g else ar 3 g.

Definition ld (opc : Z) : M unit :=
let dreg := (opc .>> 5) .& 0x1 in
let rreg := (opc .>> 4) .& 0x1 in
let sreg := opc .& 0x3 in
addr ← rget (ar sreg);
val ← dsp_dmem_read addr;
WriteToBackLog 0 ((dreg .<< 1) + DSP_REG_AXL0) val;;
addr ← rget (second_addr sreg);
val ← dsp_dmem_read addr;
WriteToBackLog 1 ((rreg .<< 1) + DSP_REG_AXL1) val;;
BackLogReg 2 sreg (incremented sreg);;
BackLogReg 3 DSP_REG_AR3 (incremented DSP_REG_AR3).

Definition ldax (opc : Z) : M unit :=
let sreg := (opc .>> 5) .& 0x1 in
let rreg := (opc .>> 4) .& 0x1 in
addr ← rget (ar sreg);
val ← dsp_dmem_read addr;
WriteToBackLog 0 (rreg + DSP_REG_AXH0) val;;
addr ← rget (second_addr sreg);
val ← dsp_dmem_read addr;
WriteToBackLog 1 (rreg + DSP_REG_AXL0) val;;
BackLogReg 2 sreg (incremented sreg);;
BackLogReg 3 DSP_REG_AR3 (incremented DSP_REG_AR3).

Definition ldn (opc : Z) : M unit :=
let dreg := (opc .>> 5) .& 0x1 in
let rreg := (opc .>> 4) .& 0x1 in
let sreg := opc .& 0x3 in
addr ← rget (ar sreg);
val ← dsp_dmem_read addr;
WriteToBackLog 0 ((dreg .<< 1) + DSP_REG_AXL0) val;;
addr ← rget (second_addr sreg);
val ← dsp_dmem_read addr;
WriteToBackLog 1 ((rreg .<< 1) + DSP_REG_AXL1) val;;
BackLogReg 2 sreg (indexed sreg);;
BackLogReg 3 DSP_REG_AR3 (incremented DSP_REG_AR3).

Definition ldaxn (opc : Z) : M unit :=
let sreg := (opc .>> 5) .& 0x1 in
let rreg := (opc .>> 4) .& 0x1 in
addr ← rget (ar sreg);
val ← dsp_dmem_read addr;
WriteToBackLog 0 (rreg + DSP_REG_AXH0) val;;
addr ← rget (second_addr sreg);
val ← dsp_dmem_read addr;
WriteToBackLog 1 (rreg + DSP_REG_AXL0) val;;
BackLogReg 2 sreg (indexed sreg);;
BackLogReg 3 DSP_REG_AR3 (incremented DSP_REG_AR3).

Definition ldm (opc : Z) : M unit :=
let dreg := (opc .>> 5) .& 0x1 in
let rreg := (opc .>> 4) .& 0x1 in
let sreg := opc .& 0x3 in
addr ← rget (ar sreg);
val ← dsp_dmem_read addr;
WriteToBackLog 0 ((dreg .<< 1) + DSP_REG_AXL0) val;;
addr ← rget (second_addr sreg);
val ← dsp_dmem_read addr;
WriteToBackLog 1 ((rreg .<< 1) + DSP_REG_AXL1) val;;
BackLogReg 2 sreg (incremented sreg);;
BackLogReg 3 DSP_REG_AR3 (indexed DSP_REG_AR3).

Definition ldaxm (opc : Z) : M unit :=
let sreg := (opc .>> 5) .& 0x1 in
let rreg := (opc .>> 4) .& 0x1 in
addr ← rget (ar sreg);
val ← dsp_dmem_read addr;
WriteToBackLog 0 (rreg + DSP_REG_AXH0) val;;
addr ← rget (second_addr sreg);
val ← dsp_dmem_read addr;
WriteToBackLog 1 (rreg + DSP_REG_AXL0) val;;
BackLogReg 2 sreg (incremented sreg);;
BackLogReg 3 DSP_REG_AR3 (indexed DSP_REG_AR3).

Definition ldnm (opc : Z) : M unit :=
let dreg := (opc .>> 5) .& 0x1 in
let rreg := (opc .>> 4) .& 0x1 in
let sreg := opc .& 0x3 in
addr ← rget (ar sreg);
val ← dsp_dmem_read addr;
WriteToBackLog 0 ((dreg .<< 1) + DSP_REG_AXL0) val;;
addr ← rget (second_addr sreg);
val ← dsp_dmem_read addr;
WriteToBackLog 1 ((rreg .<< 1) + DSP_REG_AXL1) val;;
BackLogReg 2 sreg (indexed sreg);;
BackLogReg 3 DSP_REG_AR3 (indexed DSP_REG_AR3).

Definition ldaxnm (opc : Z) : M unit :=
let sreg := (opc .>> 5) .& 0x1 in
let rreg := (opc .>> 4) .& 0x1 in
addr ← rget (ar sreg);
val ← dsp_dmem_read addr;
WriteToBackLog 0 (rreg + DSP_REG_AXH0) val;;
addr ← rget (second_addr sreg);
val ← dsp_dmem_read addr;
WriteToBackLog 1 (rreg + DSP_REG_AXL0) val;;
BackLogReg 2 sreg (indexed sreg);;
BackLogReg 3 DSP_REG_AR3 (indexed DSP_REG_AR3).

Definition nop (opc : Z) : M unit := mret tt.

End Ext.
(** The extensions, in the order of the source. *)
Definition ext_handlers : list (Z -> M unit) :=
  [Ext.dr; Ext.ir; Ext.nr; Ext.mv; Ext.s; Ext.sn; Ext.l; Ext.ln; Ext.ls; Ext.lsn; Ext.lsm;
   Ext.lsnm; Ext.sl; Ext.sln; Ext.slm; Ext.slnm; Ext.ld; Ext.ldax; Ext.ldn; Ext.ldaxn; Ext.ldm;
   Ext.ldaxm; Ext.ldnm; Ext.ldaxnm; Ext.nop].

(** ** Preservation *)

Lemma wf_log_write i idx v s : 0 <= i < 4 -> 0 <= idx < 32 -> wf s -> wf (log_write i idx v s).
Proof.
  intros Hi Hidx Hs. assert (E : zget (zset (writeBackLogIdx s) i idx) 4 = -1).
  { rewrite zget_zset_other by lia. apply Hs. }
  destruct Hs. constructor; cbn; try assumption.
  - range.
  - unfold zset. rewrite length_insert. done.
  - apply Forall_insert; [done | right; done].
Qed.

Lemma land_bound x m : 0 <= m -> 0 <= x .& m <= m.
Proof. intros. split; [apply Z.land_nonneg; auto | apply land_le_r; done]. Qed.

(** Close a bound on a register number built from opcode fields. *)
Ltac field_bound :=
  repeat match goal with
  | |- context [?x .& ?m] => pose proof (land_bound x m ltac:(lia)); generalize dependent (x .& m); intros
  end;
  unfold DSP_REG_AR0, DSP_REG_AR3, DSP_REG_AXL0, DSP_REG_AXL1, DSP_REG_AXH0, DSP_REG_ACH0,
    DSP_REG_ACL0, DSP_REG_ACM0 in *;
  rewrite ?Z.shiftl_mul_pow2 by lia; lia.

Lemma safe_WriteToBackLog i idx v : 0 <= i < 4 -> 0 <= idx < 32 -> safe (WriteToBackLog i idx v).
Proof. intros. apply safe_modify. intros. apply wf_log_write; done. Qed.
Lemma safe_BackLogReg i idx f : 0 <= i < 4 -> 0 <= idx < 32 -> safe (BackLogReg i idx f).
Proof. intros. unfold BackLogReg. apply safe_bind; [apply safe_rget |]. intros. apply safe_WriteToBackLog; done. Qed.
#[export] Hint Extern 2 (safe (WriteToBackLog _ _ _)) => apply safe_WriteToBackLog; [lia | field_bound] : wf.
#[export] Hint Extern 2 (safe (BackLogReg _ _ _)) => apply safe_BackLogReg; [lia | field_bound] : wf.

Lemma keeps_ext : Forall (fun f => forall opc, keeps (f opc)) ext_handlers.
Proof.
  repeat (apply List.Forall_cons;
    [intros opc; match goal with |- keeps (?f opc) => unfold f end; cbv zeta; solve [keeps_auto] |]).
  apply List.Forall_nil.
Qed.

(** ** The contents of the log *)

(** The log holds the writes [l], oldest first. *)
Definition logged (s : SDSP) (l : list (Z * Z)) : Prop :=
  (length l <= 4)%nat /\ wf s /\ Forall (fun e => 0 <= fst e < 32 /\ inu 16 (snd e)) l /\
  writeBackLogIdx s = map fst l ++ replicate (5 - length l) (-1) /\
  take (length l) (writeBackLog s) = map snd l.

(** [m] appends to a log of [n] entries until it has [n']. *)
Definition logs (n n' : nat) {A} (m : M A) : Prop :=
  forall s l a s', logged s l -> length l = n -> m s = Done a s' ->
  exists l', logged s' l' /\ length l' = n'.

Definition logs_some (n : nat) {A} (m : M A) : Prop :=
  forall s l a s', logged s l -> length l = n -> m s = Done a s' ->
  exists l', logged s' l' /\ (length l' <= 4)%nat.

Lemma logged_same s s' l : same_log s s' -> wf s' -> logged s l -> logged s' l.
Proof. intros [E1 E2] Hw (H1 & _ & H3 & H4 & H5). unfold logged. rewrite E1, E2. done. Qed.

Lemma logs_stable {A} n (m : M A) : keeps m -> stable same_log m -> logs n n m.
Proof.
  intros Hk Hm s l a s' Hl Hn E. exists l. split; [| done].
  eapply logged_same; [eapply Hm, E | | done]. specialize (Hk s (proj1 (proj2 Hl))). rewrite E in Hk. done.
Qed.

Lemma logs_bind {A B} n k n' (m : M A) (f : A -> M B) :
  logs n k m -> (forall a, logs k n' (f a)) -> logs n n' (x ← m; f x).
Proof.
  intros Hm Hf s l b s' Hl Hn E. rewrite run_bind in E.
  destruct (m s) as [a s1 | |] eqn:E1; [| done | done].
  destruct (Hm _ _ _ _ Hl Hn E1) as (l1 & Hl1 & Hn1). eapply Hf; eassumption.
Qed.

Lemma logs_some_bind {A B} n k (m : M A) (f : A -> M B) :
  logs n k m -> (forall a, logs_some k (f a)) -> logs_some n (x ← m; f x).
Proof.
  intros Hm Hf s l b s' Hl Hn E. rewrite run_bind in E.
  destruct (m s) as [a s1 | |] eqn:E1; [| done | done].
  destruct (Hm _ _ _ _ Hl Hn E1) as (l1 & Hl1 & Hn1). eapply Hf; eassumption.
Qed.

Lemma logs_some_if {A} n (b : bool) (m1 m2 : M A) :
  logs_some n m1 -> logs_some n m2 -> logs_some n (if b then m1 else m2).
Proof. destruct b; auto. Qed.

Lemma logs_some_intro {A} n n' (m : M A) : (n' <= 4)%nat -> logs n n' m -> logs_some n m.
Proof. intros Hn H s l a s' Hl Hln E. destruct (H _ _ _ _ Hl Hln E) as (l' & Hl' & <-). eauto. Qed.

Lemma logs_write n i idx v :
  i = Z.of_nat n -> (n < 4)%nat -> 0 <= idx < 32 -> logs n (S n) (WriteToBackLog i idx v).
Proof.
  intros -> Hn Hidx s l a s' (H1 & Hw & H3 & H4 & H5) Hl E. injection E as _ <-. subst n.
  assert (Hlog : length (writeBackLog s) = 5%nat) by apply Hw.
  exists (l ++ [(idx, u16 v)]). unfold logged. rewrite length_app. cbn [length].
  split; [| lia]. split_and!.
  - lia.
  - apply wf_log_write; [lia | done | done].
  - apply Forall_app. split; [done |]. constructor; [| constructor]. split; [done | apply wrapu_range; lia].
  - cbn [log_write writeBackLogIdx set_writeBackLogIdx]. unfold zset.
    rewrite Nat2Z.id, H4, insert_app_r_alt, length_map, Nat.sub_diag by (rewrite length_map; lia).
    rewrite map_app, <- app_assoc. f_equal. replace (5 - length l)%nat with (S (5 - (length l + 1))) by lia. done.
  - cbn [log_write writeBackLog set_writeBackLogIdx set_writeBackLog]. unfold zset. rewrite Nat2Z.id.
    rewrite map_app. cbn [map snd]. rewrite <- H5. rewrite Nat.add_1_r.
    rewrite (take_S_r _ _ (u16 v)) by (apply list_lookup_insert_eq; lia).
    rewrite take_insert_ge by lia. done.
Qed.

Lemma logs_reg n i idx f :
  i = Z.of_nat n -> (n < 4)%nat -> 0 <= idx < 32 -> logs n (S n) (BackLogReg i idx f).
Proof.
  intros. unfold BackLogReg. eapply logs_bind.
  - apply logs_stable; [apply safe_keeps, safe_rget | apply stable_gets; exact _].
  - intros v. apply logs_write; done.
Qed.

Ltac logs_step :=
  match goal with
  | |- logs_some _ (let _ := _ in _) => cbv zeta
  | |- logs_some _ (if _ then _ else _) => apply logs_some_if
  | |- logs_some ?n (mret _) =>
    apply (logs_some_intro n n); [lia | apply logs_stable; [keeps_auto | stable_auto log_leaf]]
  | |- logs_some ?n (WriteToBackLog _ _ _ ;; _) =>
    apply (logs_some_bind n (S n)); [apply logs_write; [reflexivity | lia | field_bound] | intros]
  | |- logs_some ?n (BackLogReg _ _ _ ;; _) =>
    apply (logs_some_bind n (S n)); [apply logs_reg; [reflexivity | lia | field_bound] | intros]
  | |- logs_some ?n (BackLogReg _ _ _) =>
    apply (logs_some_intro n (S n)); [lia | apply logs_reg; [reflexivity | lia | field_bound]]
  | |- logs_some ?n (mbind _ _) =>
    apply (logs_some_bind n n); [apply logs_stable; [keeps_auto | stable_auto log_leaf] | intros]
  end.

Lemma ext_logs : Forall (fun f => forall opc, logs_some 0 (f opc)) ext_handlers.
Proof.
  repeat (apply List.Forall_cons;
    [intros opc; match goal with |- logs_some _ (?f opc) => unfold f end; solve [repeat logs_step] |]).
  apply List.Forall_nil.
Qed.

Lemma ext_regs : Forall (fun f => forall opc, stable same_regs (f opc)) ext_handlers.
Proof.
  repeat (apply List.Forall_cons;
    [intros opc; match goal with |- stable _ (?f opc) => unfold f end; solve [stable_auto regs_leaf] |]).
  apply List.Forall_nil.
Qed.

(** ** Applying the log *)

(** The effect of a register write on a well-formed machine. *)
Definition written (_reg val : Z) (s : SDSP) : SDSP :=
  let reg := _reg .& 0x1f in
  if among reg DSP_REG_ACH0 2 then upd_r (put_ac_fld (reg - DSP_REG_ACH0) 32 (u16 (s16 (s8 (u8 val))))) s
  else if among reg DSP_REG_ST0 4 then pushed (stack_index (stack_of (reg - DSP_REG_ST0))) val s
  else upd_r (write_register reg val) s.

Lemma run_write_reg reg v s : wf s -> dsp_op_write_reg reg v s = Done tt (written reg v s).
Proof.
  intros Hs. unfold dsp_op_write_reg, written. destruct (among _ DSP_REG_ACH0 2); [done |].
  destruct (among _ DSP_REG_ST0 4); [apply run_store; done | done].
Qed.

Lemma wf_written reg v s : wf s -> wf (written reg v s).
Proof. intros Hs. unfold written. repeat case_match; auto with wf. Qed.

Lemma written_log reg v L s :
  written reg v (set_writeBackLogIdx L s) = set_writeBackLogIdx L (written reg v s).
Proof. unfold written. repeat case_match; reflexivity. Qed.

Lemma same_log_written reg v s : same_log s (written reg v s).
Proof. unfold written. repeat case_match; log_leaf. Qed.

(** The register writes of a log, oldest first. *)
Fixpoint write_all (l : list (Z * Z)) : M unit :=
  match l with
  | [] => mret tt
  | (idx, value) :: l' => dsp_op_write_reg idx value;; write_all l'
  end.

Definition writes (l : list (Z * Z)) (s : SDSP) : SDSP :=
  fold_left (fun s e => written (fst e) (snd e) s) l s.

Lemma run_write_all l s : wf s -> write_all l s = Done tt (writes l s).
Proof.
  revert s. induction l as [| [idx v] l IH]; intros s Hs; cbn [write_all]; [done |].
  rewrite run_bind, run_write_reg by done. apply IH, wf_written, Hs.
Qed.

Lemma writes_log l L s : writes l (set_writeBackLogIdx L s) = set_writeBackLogIdx L (writes l s).
Proof.
  revert s. induction l as [| e l IH]; intros s; cbn; [done |].
  rewrite written_log. apply IH.
Qed.

Lemma wf_cleared i s : wf s -> 0 <= i < 4 -> wf (set_writeBackLogIdx (zset (writeBackLogIdx s) i (-1)) s).
Proof.
  intros Hs Hi. assert (E : zget (zset (writeBackLogIdx s) i (-1)) 4 = -1).
  { rewrite zget_zset_other by lia. apply Hs. }
  destruct Hs. constructor; cbn; try assumption.
  - unfold zset. rewrite length_insert. done.
  - apply Forall_insert; [done | left; done].
Qed.

Lemma set_log_id L s : writeBackLogIdx s = L -> set_writeBackLogIdx L s = s.
Proof. intros <-. destruct s. done. Qed.

Lemma zget_app (l1 l2 : list Z) x n : length l1 = n -> zget (l1 ++ x :: l2) (Z.of_nat n) = x.
Proof. intros <-. unfold zget. rewrite Nat2Z.id, app_nth2, Nat.sub_diag by lia. done. Qed.

Lemma run_apply_from l i s :
  wf s -> (i + length l <= 4)%nat -> Forall (fun e : Z * Z => 0 <= fst e < 32) l ->
  writeBackLogIdx s = replicate i (-1) ++ map fst l ++ replicate (5 - i - length l) (-1) ->
  take (length l) (drop i (writeBackLog s)) = map snd l ->
  apply_from (5 - i) (Z.of_nat i) s = Done tt (set_writeBackLogIdx (replicate 5 (-1)) (writes l s)).
Proof.
  revert i s. induction l as [| [idx v] l IH]; intros i s Hs Hlen Hr Hidx Hlog; cbn [length] in Hlen.
  - cbn [length map app] in Hidx. rewrite Nat.sub_0_r in Hidx.
    assert (E : zget (writeBackLogIdx s) (Z.of_nat i) = -1).
    { rewrite Hidx. replace (5 - i)%nat with (S (4 - i)) by lia. apply zget_app, length_replicate. }
    replace (5 - i)%nat with (S (4 - i)) by lia. cbn [apply_from]. run. rewrite E.
    cbn [writes fold_left]. change (-1 =? -1) with true. cbv iota. rewrite set_log_id; [done |].
    rewrite Hidx, <- replicate_add. f_equal. lia.
  - cbn [length map fst snd] in *. apply Forall_cons in Hr as [Hi Hr]. cbn [fst] in Hi.
    assert (Hl5 : length (writeBackLog s) = 5%nat) by apply Hs.
    replace (5 - i)%nat with (S (5 - S i)) by lia. cbn [apply_from]. run.
    assert (E : zget (writeBackLogIdx s) (Z.of_nat i) = idx).
    { rewrite Hidx. apply zget_app, length_replicate. }
    rewrite E. destruct (Z.eqb_spec idx (-1)); [lia |].
    destruct (drop i (writeBackLog s)) as [| w ws] eqn:Hd; [done |]. cbn [take] in Hlog.
    injection Hlog as -> Hlog.
    assert (Ev : zget (writeBackLog s) (Z.of_nat i) = v).
    { rewrite <- (take_drop i (writeBackLog s)), Hd.
      apply zget_app. rewrite length_take. lia. }
    rewrite Ev, run_write_reg by done. run.
    destruct (same_log_written idx v s) as [Ei El].
    set (s2 := set_writeBackLogIdx _ _). replace (Z.of_nat i + 1) with (Z.of_nat (S i)) by lia.
    rewrite (IH (S i) s2).
    + unfold s2. cbn [writes fold_left fst snd]. fold (writes l). rewrite Ei.
      change (fold_left _ l ?x) with (writes l x). rewrite !writes_log. done.
    + unfold s2. apply wf_cleared; [apply wf_written, Hs | lia].
    + lia.
    + done.
    + unfold s2. cbn [writeBackLogIdx set_writeBackLogIdx]. rewrite Ei, Hidx. unfold zset. rewrite Nat2Z.id.
      rewrite insert_app_r_alt, length_replicate, Nat.sub_diag by (rewrite length_replicate; lia). cbn.
      replace (5 - i - S (length l))%nat with (5 - S i - length l)%nat by lia.
      change (-1 :: replicate i (-1) ++ ?x) with (replicate (S i) (-1) ++ x).
      rewrite (replicate_S_end i), <- app_assoc. done.
    + unfold s2. cbn [writeBackLog set_writeBackLogIdx]. rewrite El.
      replace (drop (S i) (writeBackLog s)) with ws; [done |].
      rewrite <- Nat.add_1_r, <- drop_drop, Hd. done.
Qed.

Definition empty_log : list Z := replicate 5 (-1).

Lemma wf_writes l s : wf s -> wf (writes l s).
Proof. revert s. induction l as [| e l IH]; intros s Hs; cbn; [done |]. apply IH, wf_written, Hs. Qed.

Lemma wf_empty_log s : wf s -> wf (set_writeBackLogIdx empty_log s).
Proof.
  intros Hs. destruct Hs. constructor; cbn; try assumption; try done.
  repeat constructor; left; done.
Qed.

Lemma run_Apply l s : logged s l ->
  ApplyWriteBackLog s = Done tt (set_writeBackLogIdx empty_log (writes l s)).
Proof.
  intros (Hn & Hs & Hr & Hidx & Hlog). apply (run_apply_from l 0); try done.
  eapply Forall_impl; [exact Hr |]. intros e [He _]. exact He.
Qed.

Lemma logged_empty s : wf s -> writeBackLogIdx s = empty_log -> logged s [].
Proof.
  intros Hs E. split_and!; [cbn; lia | done | constructor | exact E | done].
Qed.

Lemma in_ext_handlers f : In f ext_handlers ->
  forall opc, keeps (f opc) /\ logs_some 0 (f opc) /\ stable same_regs (f opc).
Proof.
  intros Hin opc. pose proof keeps_ext as H1. pose proof ext_logs as H2. pose proof ext_regs as H3.
  rewrite List.Forall_forall in H1, H2, H3. auto.
Qed.

(** ** Properties *)

(** An extension works in parallel with its main operation. Whatever it
    loads, stores and moves, it changes no register: its at most four register
    writes are in the log, to registers that exist and with 16-bit values,
    and wait for [ApplyWriteBackLog].  (The registers can change only while the
    CPU's reset protocol is under way, when acknowledging a mail resets the
    core.) *)
Theorem extension_deferred f opc s s' :
  In f ext_handlers -> wf s -> writeBackLogIdx s = empty_log -> g_init_hax s = false ->
  f opc s = Done tt s' ->
  r s' = r s /\
  exists l, (length l <= 4)%nat /\ Forall (fun e => 0 <= fst e < 32 /\ inu 16 (snd e)) l /\
    writeBackLogIdx s' = map fst l ++ replicate (5 - length l) (-1) /\
    take (length l) (writeBackLog s') = map snd l.
Proof.
  intros Hin Hs Hlog Hhax E. destruct (in_ext_handlers f Hin opc) as (_ & Hl & Hr). split.
  - apply (Hr _ _ _ E Hhax).
  - destruct (Hl s [] tt s' (logged_empty s Hs Hlog) eq_refl E) as (l & (Hn & _ & Hv & Hi & Ht) & _).
    exists l. done.
Qed.

Lemma extension_deferred_witness :
  let s := upd_r (fun g => put_ar 1 0x0100 (put_sr SR_40_MODE_BIT g)) dsp0 in
  wf s /\ exists s', Ext.l 0x71 s = Done tt s' /\ r s' = r s /\
    writeBackLogIdx s' = [DSP_REG_ACH0; DSP_REG_ACM0; DSP_REG_ACL0; 1; -1].
Proof.
  intros s. assert (H : wf s).
  { apply wf_upd_r; [| exact wf_dsp0]. intros g Hg. apply wf_put_ar, wf_put_sr, Hg. }
  split; [exact H |]. eexists. split; [reflexivity |]. split; [| reflexivity].
  refine (proj1 (extension_deferred Ext.l 0x71 s _ _ H eq_refl eq_refl eq_refl)).
  do 6 right. left. reflexivity.
Defined.

(** Applying the log performs exactly the logged register writes, oldest
    first, then the log is empty. The end marker in the fifth entry, which no
    extension overwrites, ends the loop inside the array. *)
Theorem apply_in_order s l :
  wf s -> (length l <= 4)%nat -> Forall (fun e => 0 <= fst e < 32) l ->
  writeBackLogIdx s = map fst l ++ replicate (5 - length l) (-1) ->
  take (length l) (writeBackLog s) = map snd l ->
  exists s', ApplyWriteBackLog s = Done tt s' /\
    (write_all l;; modify (set_writeBackLogIdx empty_log)) s = Done tt s'.
Proof.
  intros Hs Hn Hr Hidx Hlog. exists (set_writeBackLogIdx empty_log (writes l s)). split.
  - apply (run_apply_from l 0); done.
  - rewrite run_bind, run_write_all by done. done.
Qed.

Lemma apply_in_order_witness :
  let s := set_writeBackLogIdx [0x18; 0; -1; -1; -1] (set_writeBackLog [7; 9; 0; 0; 0] dsp0) in
  wf s /\ exists s', ApplyWriteBackLog s = Done tt s' /\
    (dsp_op_write_reg 0x18 7;; dsp_op_write_reg 0 9;; mret tt;;
     modify (set_writeBackLogIdx empty_log)) s = Done tt s'.
Proof.
  intros s. assert (H : wf s).
  { exact (wf_log_write 1 0 9 _ ltac:(lia) ltac:(lia)
      (wf_log_write 0 0x18 7 dsp0 ltac:(lia) ltac:(lia) wf_dsp0)). }
  split; [exact H |].
  destruct (apply_in_order s [(0x18, 7); (0, 9)] H) as (s' & E1 & E2).
  - cbn. lia.
  - repeat constructor; cbn; lia.
  - reflexivity.
  - reflexivity.
  - exists s'. split; [exact E1 | exact E2].
Defined.
