(* ===== verification/DspIntTables.v ===== *)
(** The interpreter's dispatch ([Interpreter/DSPIntTables.cpp]): which handler
    runs an instruction. The theorem shows that decoding is unambiguous and that
    the interpreter's tables agree with the template tables the analyzer
    and the execution loop consult. *)

From S2P Require Import Prelude DspState DspTables DspStacks DspImem DspAnalyzer DspCore DspAccel DspHW DspCC DspIntUtil.
From S2P Require Import DspArithmetic DspMultiplier DspBranch DspLoadStore DspMisc DspFrame DspExtOps.
Open Scope Z_scope.

(** [Interpreter::nop] ([DSPInterpreter.cpp]): an unknown opcode is logged. *)
Definition nop (opc : Z) : M unit := mret tt.

Record InterpreterOpInfo := row {
  int_opcode : Z;
  int_opcode_mask : Z;
  int_function : Z -> M unit
}.

Definition s_opcodes : list InterpreterOpInfo := [
  row 0x0000 0xfffc nop; row 0x0004 0xfffc dar; row 0x0008 0xfffc iar; row 0x000c 0xfffc subarn;
  row 0x0010 0xfff0 addarn; row 0x0021 0xffff halt; row 0x02d0 0xffff ret;
  row 0x02d1 0xffff ret; row 0x02d2 0xffff ret; row 0x02d3 0xffff ret; row 0x02d4 0xffff ret;
  row 0x02d5 0xffff ret; row 0x02d6 0xffff ret; row 0x02d7 0xffff ret; row 0x02d8 0xffff ret;
  row 0x02d9 0xffff ret; row 0x02da 0xffff ret; row 0x02db 0xffff ret; row 0x02dc 0xffff ret;
  row 0x02dd 0xffff ret; row 0x02de 0xffff ret; row 0x02df 0xffff ret; row 0x02ff 0xffff rti;
  row 0x02b0 0xffff call; row 0x02b1 0xffff call; row 0x02b2 0xffff call;
  row 0x02b3 0xffff call; row 0x02b4 0xffff call; row 0x02b5 0xffff call;
  row 0x02b6 0xffff call; row 0x02b7 0xffff call; row 0x02b8 0xffff call;
  row 0x02b9 0xffff call; row 0x02ba 0xffff call; row 0x02bb 0xffff call;
  row 0x02bc 0xffff call; row 0x02bd 0xffff call; row 0x02be 0xffff call;
  row 0x02bf 0xffff call; row 0x0270 0xffff ifcc; row 0x0271 0xffff ifcc;
  row 0x0272 0xffff ifcc; row 0x0273 0xffff ifcc; row 0x0274 0xffff ifcc;
  row 0x0275 0xffff ifcc; row 0x0276 0xffff ifcc; row 0x0277 0xffff ifcc;
  row 0x0278 0xffff ifcc; row 0x0279 0xffff ifcc; row 0x027a 0xffff ifcc;
  row 0x027b 0xffff ifcc; row 0x027c 0xffff ifcc; row 0x027d 0xffff ifcc;
  row 0x027e 0xffff ifcc; row 0x027f 0xffff ifcc; row 0x0290 0xffff jcc; row 0x0291 0xffff jcc;
  row 0x0292 0xffff jcc; row 0x0293 0xffff jcc; row 0x0294 0xffff jcc; row 0x0295 0xffff jcc;
  row 0x0296 0xffff jcc; row 0x0297 0xffff jcc; row 0x0298 0xffff jcc; row 0x0299 0xffff jcc;
  row 0x029a 0xffff jcc; row 0x029b 0xffff jcc; row 0x029c 0xffff jcc; row 0x029d 0xffff jcc;
  row 0x029e 0xffff jcc; row 0x029f 0xffff jcc; row 0x1700 0xff1f jmprcc;
  row 0x1701 0xff1f jmprcc; row 0x1702 0xff1f jmprcc; row 0x1703 0xff1f jmprcc;
  row 0x1704 0xff1f jmprcc; row 0x1705 0xff1f jmprcc; row 0x1706 0xff1f jmprcc;
  row 0x1707 0xff1f jmprcc; row 0x1708 0xff1f jmprcc; row 0x1709 0xff1f jmprcc;
  row 0x170a 0xff1f jmprcc; row 0x170b 0xff1f jmprcc; row 0x170c 0xff1f jmprcc;
  row 0x170d 0xff1f jmprcc; row 0x170e 0xff1f jmprcc; row 0x170f 0xff1f jmprcc;
  row 0x1710 0xff1f callr; row 0x1711 0xff1f callr; row 0x1712 0xff1f callr;
  row 0x1713 0xff1f callr; row 0x1714 0xff1f callr; row 0x1715 0xff1f callr;
  row 0x1716 0xff1f callr; row 0x1717 0xff1f callr; row 0x1718 0xff1f callr;
  row 0x1719 0xff1f callr; row 0x171a 0xff1f callr; row 0x171b 0xff1f callr;
  row 0x171c 0xff1f callr; row 0x171d 0xff1f callr; row 0x171e 0xff1f callr;
  row 0x171f 0xff1f callr; row 0x1200 0xff00 sbclr; row 0x1300 0xff00 sbset;
  row 0x1400 0xfec0 lsl; row 0x1440 0xfec0 lsr; row 0x1480 0xfec0 asl; row 0x14c0 0xfec0 asr;
  row 0x02ca 0xffff lsrn; row 0x02cb 0xffff asrn; row 0x0080 0xffe0 lri; row 0x00c0 0xffe0 lr;
  row 0x00e0 0xffe0 sr; row 0x1c00 0xfc00 mrr; row 0x1600 0xff00 si; row 0x0400 0xfe00 addis;
  row 0x0600 0xfe00 cmpis; row 0x0800 0xf800 lris; row 0x0200 0xfeff addi;
  row 0x0220 0xfeff xori; row 0x0240 0xfeff andi; row 0x0260 0xfeff ori; row 0x0280 0xfeff cmpi;
  row 0x02a0 0xfeff andf; row 0x02c0 0xfeff andcf; row 0x0210 0xfefc ilrr;
  row 0x0214 0xfefc ilrrd; row 0x0218 0xfefc ilrri; row 0x021c 0xfefc ilrrn;
  row 0x0040 0xffe0 loop; row 0x0060 0xffe0 bloop; row 0x1000 0xff00 loopi;
  row 0x1100 0xff00 bloopi; row 0x1800 0xff80 lrr; row 0x1880 0xff80 lrrd;
  row 0x1900 0xff80 lrri; row 0x1980 0xff80 lrrn; row 0x1a00 0xff80 srr; row 0x1a80 0xff80 srrd;
  row 0x1b00 0xff80 srri; row 0x1b80 0xff80 srrn; row 0x2000 0xf800 lrs; row 0x2800 0xf800 srs;
  row 0x3000 0xfc80 xorr; row 0x3400 0xfc80 andr; row 0x3800 0xfc80 orr; row 0x3c00 0xfe80 andc;
  row 0x3e00 0xfe80 orc; row 0x3080 0xfe80 xorc; row 0x3280 0xfe80 notc;
  row 0x3480 0xfc80 lsrnrx; row 0x3880 0xfc80 asrnrx; row 0x3c80 0xfe80 lsrnr;
  row 0x3e80 0xfe80 asrnr; row 0x4000 0xf800 addr; row 0x4800 0xfc00 addax;
  row 0x4c00 0xfe00 add; row 0x4e00 0xfe00 addp; row 0x5000 0xf800 subr;
  row 0x5800 0xfc00 subax; row 0x5c00 0xfe00 sub; row 0x5e00 0xfe00 subp;
  row 0x6000 0xf800 movr; row 0x6800 0xfc00 movax; row 0x6c00 0xfe00 mov;
  row 0x6e00 0xfe00 movp; row 0x7000 0xfc00 addaxl; row 0x7400 0xfe00 incm;
  row 0x7600 0xfe00 inc; row 0x7800 0xfe00 decm; row 0x7a00 0xfe00 dec; row 0x7c00 0xfe00 neg;
  row 0x7e00 0xfe00 movnp; row 0x8000 0xf700 nx; row 0x8100 0xf700 clr; row 0x8200 0xff00 cmp;
  row 0x8300 0xff00 mulaxh; row 0x8400 0xff00 clrp; row 0x8500 0xff00 tstprod;
  row 0x8600 0xfe00 tstaxh; row 0x8a00 0xff00 srbith; row 0x8b00 0xff00 srbith;
  row 0x8c00 0xff00 srbith; row 0x8d00 0xff00 srbith; row 0x8e00 0xff00 srbith;
  row 0x8f00 0xff00 srbith; row 0x9000 0xf700 mul; row 0x9100 0xf700 asr16;
  row 0x9200 0xf600 mulmvz; row 0x9400 0xf600 mulac; row 0x9600 0xf600 mulmv;
  row 0xa000 0xe700 mulx; row 0xa100 0xf700 abs; row 0xa200 0xe600 mulxmvz;
  row 0xa400 0xe600 mulxac; row 0xa600 0xe600 mulxmv; row 0xb100 0xf700 tst;
  row 0xc000 0xe700 mulc; row 0xc100 0xe700 cmpar; row 0xc200 0xe600 mulcmvz;
  row 0xc400 0xe600 mulcac; row 0xc600 0xe600 mulcmv; row 0xe000 0xfc00 maddx;
  row 0xe400 0xfc00 msubx; row 0xe800 0xfc00 maddc; row 0xec00 0xfc00 msubc;
  row 0xf000 0xfe00 lsl16; row 0xf200 0xfe00 madd; row 0xf400 0xfe00 lsr16;
  row 0xf600 0xfe00 msub; row 0xf800 0xfc00 addpaxz; row 0xfc00 0xfe00 clrl;
  row 0xfe00 0xfe00 movpz
].

Definition s_opcodes_ext : list InterpreterOpInfo := [
  row 0x0000 0x00fc Ext.nop; row 0x0004 0x00fc Ext.dr; row 0x0008 0x00fc Ext.ir;
  row 0x000c 0x00fc Ext.nr; row 0x0010 0x00f0 Ext.mv; row 0x0020 0x00e4 Ext.s;
  row 0x0024 0x00e4 Ext.sn; row 0x0040 0x00c4 Ext.l; row 0x0044 0x00c4 Ext.ln;
  row 0x0080 0x00ce Ext.ls; row 0x0082 0x00ce Ext.sl; row 0x0084 0x00ce Ext.lsn;
  row 0x0086 0x00ce Ext.sln; row 0x0088 0x00ce Ext.lsm; row 0x008a 0x00ce Ext.slm;
  row 0x008c 0x00ce Ext.lsnm; row 0x008e 0x00ce Ext.slnm; row 0x00c3 0x00cf Ext.ldax;
  row 0x00c7 0x00cf Ext.ldaxn; row 0x00cb 0x00cf Ext.ldaxm; row 0x00cf 0x00cf Ext.ldaxnm;
  row 0x00c0 0x00cc Ext.ld; row 0x00c4 0x00cc Ext.ldn; row 0x00c8 0x00cc Ext.ldm;
  row 0x00cc 0x00cc Ext.ldnm
].

(** [InitInstructionTables] fills each cell independently of the others. *)
Definition s_op_table (i : Z) : Z -> M unit :=
  match FindByOpcode int_opcode int_opcode_mask i s_opcodes with
  | Some info => int_function info
  | None => nop
  end.
Definition s_ext_op_table (i : Z) : Z -> M unit :=
  match FindByOpcode int_opcode int_opcode_mask i s_opcodes_ext with
  | Some info => int_function info
  | None => nop
  end.

Definition GetOp (inst : Z) : Z -> M unit := s_op_table inst.

Definition GetExtOp (inst : Z) : Z -> M unit :=
  if has_seven_bit_extension inst then s_ext_op_table (inst .& 0x7F)
  else s_ext_op_table (inst .& 0xFF).

(** ** The handlers of the tables *)

Definition main_handlers : list (Z -> M unit) :=
  arithmetic_handlers ++ multiplier_handlers ++ branch_handlers ++ load_handlers ++ store_handlers ++ misc_handlers.

Lemma op_functions : map int_function s_opcodes = map (fun k => nth k main_handlers nop) [
   999; 111; 112; 113; 114; 85; 83; 83; 83; 83; 83; 83; 83; 83; 83; 83; 83; 83; 83; 83; 83;
   83; 84; 78; 78; 78; 78; 78; 78; 78; 78; 78; 78; 78; 78; 78; 78; 78; 78; 80; 80; 80; 80; 80;
   80; 80; 80; 80; 80; 80; 80; 80; 80; 80; 80; 81; 81; 81; 81; 81; 81; 81; 81; 81; 81; 81; 81;
   81; 81; 81; 81; 82; 82; 82; 82; 82; 82; 82; 82; 82; 82; 82; 82; 82; 82; 82; 82; 79; 79; 79;
   79; 79; 79; 79; 79; 79; 79; 79; 79; 79; 79; 79; 79; 115; 116; 43; 44; 45; 46; 47; 48; 108;
   91; 101; 107; 102; 26; 9; 109; 25; 17; 18; 19; 8; 3; 2; 96; 97; 98; 99; 86; 88; 87; 89; 92;
   93; 94; 95; 103; 104; 105; 106; 90; 100; 10; 11; 12; 13; 14; 15; 16; 49; 50; 51; 52; 20;
   21; 22; 23; 29; 30; 31; 32; 37; 38; 39; 55; 24; 27; 28; 33; 34; 35; 56; 110; 0; 6; 59; 53;
   54; 5; 117; 117; 117; 117; 117; 117; 60; 42; 63; 61; 62; 64; 36; 67; 65; 66; 4; 68; 7; 71;
   69; 70; 72; 73; 74; 75; 40; 76; 41; 77; 58; 1; 57]%nat.
Proof. reflexivity. Qed.

Lemma ext_op_functions : map int_function s_opcodes_ext = map (fun k => nth k ext_handlers nop) [
   24; 0; 1; 2; 3; 4; 5; 6; 7; 8; 12; 9; 13; 10; 14; 11; 15; 17; 19; 21; 23; 16; 18; 20; 22]%nat.
Proof. reflexivity. Qed.

Lemma keeps_main : Forall (fun f => forall opc, keeps (f opc)) main_handlers.
Proof.
  assert (H : forall l : list (Z -> M unit), Forall (fun f => forall opc, safe (f opc)) l ->
    Forall (fun f => forall opc, keeps (f opc)) l).
  { intros l Hl. eapply Forall_impl; [exact Hl |]. intros f Hf opc. apply safe_keeps, Hf. }
  unfold main_handlers. rewrite !Forall_app. split_and!.
  - apply H, safe_arithmetic.
  - apply H, safe_multiplier.
  - apply H, safe_branch.
  - apply H, safe_loads.
  - apply keeps_stores.
  - apply H, safe_misc.
Qed.

(** No handler touches the write-back log. *)
Ltac log_handlers :=
  repeat (apply List.Forall_cons;
    [let opc := fresh "opc" in intros opc;
     match goal with |- stable _ (?f opc) => unfold f end; solve [stable_auto log_leaf] |]);
  apply List.Forall_nil.

Lemma log_arithmetic : Forall (fun f => forall opc, stable same_log (f opc)) arithmetic_handlers.
Proof. log_handlers. Qed.
Lemma log_multiplier : Forall (fun f => forall opc, stable same_log (f opc)) multiplier_handlers.
Proof. log_handlers. Qed.
Lemma log_others :
  Forall (fun f => forall opc, stable same_log (f opc))
    (branch_handlers ++ load_handlers ++ store_handlers ++ misc_handlers).
Proof. cbn [app branch_handlers load_handlers store_handlers misc_handlers]. log_handlers. Qed.

Lemma log_main : Forall (fun f => forall opc, stable same_log (f opc)) main_handlers.
Proof.
  unfold main_handlers. apply Forall_app. split; [apply log_arithmetic |].
  apply Forall_app. split; [apply log_multiplier | apply log_others].
Qed.

(** A fact about the handlers is a fact about every cell of a dispatch array. *)
Lemma table_function (P : (Z -> M unit) -> Prop) ops hs ks inst :
  map int_function ops = map (fun k => nth k hs nop) ks ->
  Forall P hs -> P nop ->
  P match FindByOpcode int_opcode int_opcode_mask inst ops with
    | Some info => int_function info | None => nop end.
Proof.
  intros E Hp Hn. destruct (FindByOpcode _ _ _ _) as [o |] eqn:F; [| done].
  apply FindByOpcode_some in F as [Hin _]. apply (List.in_map int_function) in Hin. rewrite E in Hin.
  apply in_map_iff in Hin as (k & <- & _). destruct (nth_in_or_default k hs nop) as [H | ->]; [| done].
  rewrite List.Forall_forall in Hp. auto.
Qed.

Lemma keeps_nop opc : keeps (nop opc).
Proof. apply safe_keeps, safe_ret. Qed.

Lemma keeps_GetOp inst opc : keeps (GetOp inst opc).
Proof. revert opc. apply (table_function (fun f => forall opc, keeps (f opc)) _ _ _ _ op_functions keeps_main keeps_nop). Qed.

Lemma log_GetOp inst opc : stable same_log (GetOp inst opc).
Proof.
  revert opc. refine (table_function (fun f => forall opc, stable same_log (f opc)) _ _ _ _ op_functions log_main _).
  intros. apply stable_ret. exact _.
Qed.

(** What every extension guarantees, the empty one included. *)
Definition ext_ok (f : Z -> M unit) : Prop :=
  forall opc, keeps (f opc) /\ logs_some 0 (f opc) /\ stable same_regs (f opc).

Lemma ext_ok_nop : ext_ok nop.
Proof.
  intros opc. split_and!; [apply keeps_nop | | apply stable_ret; exact _].
  apply (logs_some_intro 0 0); [lia |]. apply logs_stable; [apply keeps_nop | apply stable_ret; exact _].
Qed.

Lemma ext_ok_GetExtOp inst : ext_ok (GetExtOp inst).
Proof.
  assert (H : Forall ext_ok ext_handlers).
  { apply List.Forall_forall. intros f Hf opc. apply in_ext_handlers, Hf. }
  unfold GetExtOp. destruct (has_seven_bit_extension inst);
    apply (table_function ext_ok _ _ _ _ ext_op_functions H ext_ok_nop).
Qed.

(** ** Properties *)

(** The tables list the same patterns in the same order. *)
Lemma same_patterns :
  map (fun t => (opcode t, opcode_mask t)) DspTables.s_opcodes =
    map (fun o => (int_opcode o, int_opcode_mask o)) s_opcodes.
Proof. vm_compute. reflexivity. Qed.

Lemma same_ext_patterns :
  map (fun t => (opcode t, opcode_mask t)) DspTables.s_opcodes_ext =
    map (fun o => (int_opcode o, int_opcode_mask o)) s_opcodes_ext.
Proof. vm_compute. reflexivity. Qed.

Lemma disjoint_patterns : pairwise_disjoint opcode opcode_mask DspTables.s_opcodes = true.
Proof. vm_compute. reflexivity. Qed.

(** The relation between what the two tables say of an instruction. *)
Definition same_entry (t : option DSPOPCTemplate) (o : option InterpreterOpInfo) : Prop :=
  match t, o with
  | Some t, Some o => opcode t = int_opcode o /\ opcode_mask t = int_opcode_mask o
  | None, None => True
  | _, _ => False
  end.

Lemma find_same_entry inst ts os :
  map (fun t => (opcode t, opcode_mask t)) ts = map (fun o => (int_opcode o, int_opcode_mask o)) os ->
  same_entry (FindByOpcode opcode opcode_mask inst ts) (FindByOpcode int_opcode int_opcode_mask inst os).
Proof.
  revert os. induction ts as [| t ts IH]; intros [| o os] E; try discriminate E; [done |].
  cbn [map] in E. injection E as E1 E2 E. unfold FindByOpcode in *. cbn [List.find].
  rewrite <- E1, <- E2. destruct (inst .& opcode_mask t =? opcode t); [done | apply IH, E].
Qed.

(** C5: decoding is unambiguous and the two decoders agree. An instruction
    matches at most one pattern of the template table; if it matches one, the
    template is that entry and the handler is the one the interpreter's table lists
    for the same pattern, otherwise the template is [cw] and the handler
    [nop]. For the extension tables the first matching entries agree likewise. *)
Theorem decoding_agrees inst :
  ((exists t o, In t DspTables.s_opcodes /\ In o s_opcodes /\
      opcode t = int_opcode o /\ opcode_mask t = int_opcode_mask o /\
      (inst .& opcode_mask t) = opcode t /\
      GetOpTemplate inst = t /\ GetOp inst = int_function o /\
      forall t', In t' DspTables.s_opcodes -> (inst .& opcode_mask t') = opcode t' -> t' = t) \/
   ((forall t, In t DspTables.s_opcodes -> (inst .& opcode_mask t) <> opcode t) /\
      GetOpTemplate inst = cw /\ GetOp inst = nop)) /\
  same_entry (FindExtOpInfoByOpcode inst) (FindByOpcode int_opcode int_opcode_mask inst s_opcodes_ext).
Proof.
  split; [| apply find_same_entry, same_ext_patterns].
  pose proof (find_same_entry inst _ _ same_patterns) as H.
  unfold GetOpTemplate, DspTables.s_op_table, FindOpInfoByOpcode, GetOp, s_op_table.
  destruct (FindByOpcode opcode opcode_mask inst _) as [t |] eqn:Et;
    destruct (FindByOpcode int_opcode int_opcode_mask inst s_opcodes) as [o |] eqn:Eo; try done.
  - left. exists t, o. destruct H as [H1 H2].
    destruct (FindByOpcode_some _ _ _ _ _ Et) as [Hint Hm].
    destruct (FindByOpcode_some _ _ _ _ _ Eo) as [Hino _].
    split_and!; try done. intros t' Hin' Hm'.
    pose proof (FindByOpcode_unique opcode opcode_mask _ inst t' disjoint_patterns Hin' Hm') as E.
    rewrite Et in E. injection E as ->. done.
  - right. split_and!; try done. intros t Hin Hm. 
    pose proof (List.find_none _ _ Et t Hin) as E. cbv beta in E. rewrite Hm, Z.eqb_refl in E. done.
Qed.
