(* ===== verification/DspInterpreter.v ===== *)
(** The interpreter ([Interpreter/DSPInterpreter.cpp]): executing one
    instruction with its extension, one step of the machine, and the loops that
    run it for a number of cycles; and the control register through which the CPU
    resets and halts it. The theorems say what an instruction does as a
    composition of its parts, that the machine's invariant holds in every
    reachable state, and that the run loops are iterations of [Step] that stop
    when they should. *)

From S2P Require Import Prelude DspState DspTables DspStacks DspImem DspAnalyzer DspCore DspAccel DspHW DspCC DspIntUtil.
From S2P Require Import DspArithmetic DspMultiplier DspBranch DspLoadStore DspMisc DspFrame DspExtOps DspIntTables.
Open Scope Z_scope.

Definition ExecuteInstruction (inst : Z) : M unit :=
  let opcode_template := GetOpTemplate inst in
  when (extended opcode_template) (GetExtOp inst inst);;
  GetOp inst inst;;
  when (extended opcode_template) ApplyWriteBackLog.

(** ** The control register *)

Definition WriteCR (val : Z) : M unit :=
  if flag val 1 then
    DSPCore_Reset;;
    modify (put_cr (val .& .~ 1))
  else if val =? 4 then
    modify (set_g_init_hax true);;
    modify (put_cr (val .| 0x800))
  else modify (put_cr val).

Definition ReadCR : M Z :=
  p ← gets pc;
  (if flag p 0x8000 then modify (fun s => put_cr (cr s .| 0x800) s)
   else modify (fun s => put_cr (cr s .& .~ 0x800) s));;
  gets cr.

(** ** Steps *)

Definition Step : M unit :=
  DSPCore_CheckExceptions;;
  modify (fun s => set_step_counter (u64 (step_counter s + 1)) s);;
  opc ← dsp_fetch_code;
  ExecuteInstruction opc;;
  flags ← gets (fun s => GetCodeFlags (u16 (pc s - 1)) s);
  when (flag flags CODE_LOOP_END) HandleLoop.

(** [if (g_dsp.external_interrupt_waiting) ...] *)
Definition TakeExternalInterrupt : M unit :=
  waiting ← gets external_interrupt_waiting;
  when waiting (DSPCore_CheckExternalInterrupt;; DSPCore_SetExternalInterrupt false).

(** ** Run loops

    A loop's result is [Some cycles] when it ran to its end with [cycles] left and
    [None] when the function returned 0 inside it. *)

Definition halted (s : SDSP) : bool := flag (cr s) CR_HALT.
Definition idle (s : SDSP) : bool := flag (GetCodeFlags (pc s) s) CODE_IDLE_SKIP.

(** [for (int i = 0; i < n; i++) { if (stop) return 0; Step(); cycles--; if (cycles < 0) return 0; }] *)
Fixpoint run_steps (stop : SDSP -> bool) (step : M unit) (n : nat) (cycles : Z) : M (option Z) :=
  match n with
  | O => mret (Some cycles)
  | S n' =>
    b ← gets stop;
    if (b : bool) then mret (M := M) (None : option Z)
    else
      step;;
      let cycles := cycles - 1 in
      if cycles <? 0 then mret None else run_steps stop step n' cycles
  end.

(** The [while (true)] of [RunCycles]; the result says whether it returned
    within the fuel. *)
Fixpoint run_cycles_loop (fuel : nat) (cycles : Z) : M bool :=
  match fuel with
  | O => mret false
  | S fuel' =>
    c ← run_steps (fun s => halted s || idle s) Step 8 cycles;
    match c with
    | None => mret true
    | Some cycles =>
      c ← run_steps (fun _ => false) Step 200 cycles;
      match c with
      | None => mret true
      | Some cycles => run_cycles_loop fuel' cycles
      end
    end
  end.

Definition RunCycles (cycles : Z) : M bool :=
  c ← run_steps halted Step 8 cycles;
  match c with
  | None => mret true
  | Some cycles => run_cycles_loop (S (Z.to_nat cycles)) cycles
  end.

(** The [while (true)] of [RunCyclesThread] needs at most [cycles + 1] rounds. *)
Definition RunCyclesThread (cycles : Z) : M bool :=
  c ← run_steps halted (TakeExternalInterrupt;; Step) (S (Z.to_nat cycles)) cycles;
  match c with
  | None => mret true
  | Some _ => mret false
  end.

(** ** Preservation *)

Lemma keeps_TakeExternalInterrupt : keeps TakeExternalInterrupt.
Proof.
  unfold TakeExternalInterrupt, DSPCore_SetExternalInterrupt. apply safe_keeps. safe_auto.
  wf_update H.
Qed.

Lemma safe_WriteCR v : safe (WriteCR v).
Proof. unfold WriteCR. safe_auto. Qed.
Lemma safe_ReadCR : safe ReadCR.
Proof. unfold ReadCR. safe_auto. Qed.

(** The invariant between instructions: well-formed, with an empty log. *)
Definition ready (s : SDSP) : Prop := wf s /\ writeBackLogIdx s = empty_log.

Lemma ready_log s s' : ready s -> same_log s s' -> wf s' -> ready s'.
Proof. intros [_ E] [L _] Hw. split; [done |]. congruence. Qed.

(** Operations that keep the log and the invariant keep the machine ready. *)
Definition keeps_ready {A} (m : M A) : Prop :=
  forall s, ready s -> match m s with Done _ s' => ready s' | _ => True end.

Lemma keeps_ready_intro {A} (m : M A) : keeps m -> stable same_log m -> keeps_ready m.
Proof.
  intros Hk Hl s Hs. specialize (Hk s (proj1 Hs)). destruct (m s) as [a s' | |] eqn:E; try done.
  eapply ready_log; [exact Hs | eapply Hl, E | exact Hk].
Qed.

Lemma keeps_ready_bind {A B} (m : M A) (k : A -> M B) :
  keeps_ready m -> (forall a, keeps_ready (k a)) -> keeps_ready (x ← m; k x).
Proof.
  intros Hm Hk s Hs. specialize (Hm s Hs). rewrite run_bind.
  destruct (m s) as [a s' | |]; [apply Hk, Hm | done | done].
Qed.

(** An extended instruction, run part by part. *)
Lemma run_extended inst s :
  ready s ->
  match GetExtOp inst inst s with
  | Done _ s1 =>
    same_regs s s1 /\ exists l, logged s1 l /\
    match GetOp inst inst s1 with
    | Done _ s2 => logged s2 l
    | _ => True
    end
  | _ => True
  end.
Proof.
  intros [Hs Hlog]. destruct (ext_ok_GetExtOp inst inst) as (_ & Hl & Hr).
  destruct (GetExtOp inst inst s) as [[] s1 | |] eqn:E1; try done. split; [apply (Hr _ _ _ E1) |].
  destruct (Hl s [] tt s1 (logged_empty s Hs Hlog) eq_refl E1) as (l & Hl1 & _). exists l. split; [done |].
  pose proof (keeps_GetOp inst inst s1 (proj1 (proj2 Hl1))) as Hk.
  destruct (GetOp inst inst s1) as [[] s2 | |] eqn:E2; try done.
  eapply logged_same; [eapply log_GetOp, E2 | exact Hk | exact Hl1].
Qed.

Lemma keeps_ready_Execute inst : keeps_ready (ExecuteInstruction inst).
Proof.
  intros s Hs. unfold ExecuteInstruction. destruct (extended (GetOpTemplate inst)).
  - cbn [when]. rewrite run_bind. pose proof (run_extended inst s Hs) as H.
    destruct (GetExtOp inst inst s) as [[] s1 | |]; try done. destruct H as (_ & l & Hl1 & H).
    rewrite run_bind. destruct (GetOp inst inst s1) as [[] s2 | |]; try done.
    rewrite (run_Apply l) by done. split; [| done]. apply wf_empty_log, wf_writes, H.
  - cbn [when]. rewrite run_bind, run_ret.
    pose proof (keeps_ready_intro (GetOp inst inst) (keeps_GetOp inst inst) (log_GetOp inst inst) s Hs) as H.
    rewrite run_bind. destruct (GetOp inst inst s) as [[] s1 | |]; done.
Qed.

Lemma log_CheckExceptions : stable same_log DSPCore_CheckExceptions.
Proof. stable_auto log_leaf. Qed.
Lemma log_HandleLoop : stable same_log HandleLoop.
Proof. stable_auto log_leaf. Qed.

Lemma wf_step_counter v s : inu 64 v -> wf s -> wf (set_step_counter v s).
Proof. intros Hv H. wf_update H. Qed.

Lemma keeps_ready_Step : keeps_ready Step.
Proof.
  unfold Step.
  repeat match goal with |- keeps_ready (mbind _ _) => apply keeps_ready_bind; [| intros] end.
  - apply keeps_ready_intro; [apply safe_keeps, safe_CheckExceptions | apply log_CheckExceptions].
  - intros s Hs. run. eapply ready_log; [exact Hs | log_leaf |].
    apply wf_step_counter; [apply wrapu_range; lia | apply Hs].
  - apply keeps_ready_intro; [apply safe_keeps, safe_fetch | apply log_fetch].
  - apply keeps_ready_Execute.
  - intros s Hs. run. exact Hs.
  - apply keeps_ready_intro; [apply keeps_when, safe_keeps, safe_HandleLoop |].
    apply stable_when; [exact _ | apply log_HandleLoop].
Qed.

(** ** The machine and its host

    What happens to the machine between two observations: the interpreter steps,
    and the CPU's side reads and writes the control register and the mailboxes,
    raises interrupts, and changes the memories it owns. *)

Inductive transition (s : SDSP) : SDSP -> Prop :=
  | interpreter_step s' : Step s = Done tt s' -> transition s s'
  | take_interrupt s' : TakeExternalInterrupt s = Done tt s' -> transition s s'
  | cpu_write_control v s' : WriteCR v s = Done tt s' -> transition s s'
  | cpu_read_control v s' : ReadCR s = Done v s' -> transition s s'
  | cpu_write_mail_high mbx v s' : gdsp_mbox_write_h mbx v s = Done tt s' -> transition s s'
  | cpu_write_mail_low mbx v s' : gdsp_mbox_write_l mbx v s = Done tt s' -> transition s s'
  | cpu_read_mail_high mbx v s' : gdsp_mbox_read_h mbx s = Done v s' -> transition s s'
  | cpu_read_mail_low mbx v s' : gdsp_mbox_read_l mbx s = Done v s' -> transition s s'
  | cpu_interrupt b s' : DSPCore_SetExternalInterrupt b s = Done tt s' -> transition s s'
  | debugger_write reg v s' : DSPCore_WriteRegister reg v s = Done tt s' -> transition s s'
  | ram_written m : mem_ok 8 m -> transition s (set_cpu_ram m s)
  | aram_written m : mem_ok 8 m -> transition s (set_aram m s).

Lemma ready_run {A} (m : M A) s a s' : keeps m -> stable same_log m -> ready s -> m s = Done a s' -> ready s'.
Proof. intros Hk Hl Hs E. pose proof (keeps_ready_intro m Hk Hl s Hs) as H. rewrite E in H. exact H. Qed.

Lemma log_Reset : stable same_log DSPCore_Reset.
Proof. pose proof (memory_only_log _ memory_Analyze). unfold DSPCore_Reset. stable_auto log_leaf. Qed.

Lemma keeps_SetExternalInterrupt b : keeps (DSPCore_SetExternalInterrupt b).
Proof. apply safe_keeps, safe_modify. intros s H. wf_update H. Qed.

Lemma ready_transition s s' : ready s -> transition s s' -> ready s'.
Proof.
  intros Hs [s1 E | | | | | | | | | | |];
    [ pose proof (keeps_ready_Step s Hs) as K; rewrite E in K; exact K
    | try (eapply ready_run; [| | exact Hs | eassumption]) ..].
  - apply keeps_TakeExternalInterrupt.
  - unfold TakeExternalInterrupt. stable_auto log_leaf.
  - apply safe_keeps, safe_WriteCR.
  - pose proof log_Reset. unfold WriteCR. stable_auto log_leaf.
  - apply safe_keeps, safe_ReadCR.
  - unfold ReadCR. stable_auto log_leaf.
  - apply safe_keeps, safe_mbox_write_h.
  - stable_auto log_leaf.
  - apply safe_keeps, safe_mbox_write_l.
  - stable_auto log_leaf.
  - apply safe_keeps, safe_mbox_read_h.
  - stable_auto log_leaf.
  - apply safe_keeps, safe_mbox_read_l.
  - pose proof log_Reset. unfold gdsp_mbox_read_l. stable_auto log_leaf.
  - apply keeps_SetExternalInterrupt.
  - stable_auto log_leaf.
  - unfold DSPCore_WriteRegister. apply safe_keeps. safe_auto.
  - stable_auto log_leaf.
  - destruct Hs as [Hw Hi]. split; [| exact Hi]. destruct Hw; constructor; assumption.
  - destruct Hs as [Hw Hi]. split; [| exact Hi]. destruct Hw; constructor; assumption.
Qed.

Lemma ready_rtc s s' : ready s -> rtc transition s s' -> ready s'.
Proof. intros Hs Hr. induction Hr as [| s s1 s' Ht _ IH]; [done |]. apply IH. eapply ready_transition; done. Qed.

(** ** Properties *)

(** C2: an extended instruction is its extension, then its main operation,
    then the logged writes. The main operation starts from the register file
    the instruction started from and leaves the log alone, so the extension's
    results appear only after it, last, and the log is empty again for the next
    instruction.  An instruction without extension is its main operation. The
    workaround for the start of a microcode ([g_init_hax]) is off, as it is unless
    the host wrote 4 to the control register and has not read the mailbox since. *)
Theorem instruction_in_parallel inst s s' :
  wf s -> writeBackLogIdx s = empty_log -> g_init_hax s = false ->
  ExecuteInstruction inst s = Done tt s' ->
  wf s' /\ writeBackLogIdx s' = empty_log /\
  if extended (GetOpTemplate inst) then
    exists s1 l s2, GetExtOp inst inst s = Done tt s1 /\ r s1 = r s /\ logged s1 l /\
      GetOp inst inst s1 = Done tt s2 /\ logged s2 l /\
      (write_all l;; modify (set_writeBackLogIdx empty_log)) s2 = Done tt s'
  else GetOp inst inst s = Done tt s'.
Proof.
  intros Hs Hlog Hhax E. pose proof (keeps_ready_Execute inst s (conj Hs Hlog)) as K.
  rewrite E in K. split; [apply K |]. split; [apply K |]. clear K. unfold ExecuteInstruction in E.
  destruct (extended (GetOpTemplate inst)).
  - cbn [when] in E. rewrite run_bind in E. pose proof (run_extended inst s (conj Hs Hlog)) as H.
    destruct (GetExtOp inst inst s) as [[] s1 | |]; try done. destruct H as (Hr & l & Hl1 & H).
    rewrite run_bind in E. destruct (GetOp inst inst s1) as [[] s2 | |] eqn:E2; try done.
    exists s1, l, s2. split_and!; try done.
    + apply Hr, Hhax.
    + rewrite (run_Apply l) in E by done. rewrite run_bind, run_write_all by apply H. exact E.
  - cbn [when] in E. rewrite run_bind, run_ret, run_bind in E.
    destruct (GetOp inst inst s) as [[] s1 | |]; done.
Qed.

(** The machine after [m], for concrete runs. *)
Definition final {A} (m : M A) (s : SDSP) : SDSP := match m s with Done _ s' => s' | _ => s end.

Lemma instruction_in_parallel_witness :
  let s := upd_r (fun g => put_ac 0 5 (put_ac 1 7 (put_wr 0 0xffff g))) dsp0 in
  let s' := final (ExecuteInstruction 0x4c08) s in
  wf s /\ ExecuteInstruction 0x4c08 s = Done tt s' /\ wf s' /\
  zget (r_ar (r s')) 0 = 1 /\ dsp_get_long_acc 0 (r s') = 12.
Proof.
  intros s s'. assert (Hs : wf s).
  { apply wf_upd_r; [| exact wf_dsp0]. intros g Hg. apply wf_put_ac, wf_put_ac, wf_put_wr, Hg. }
  split; [exact Hs |].
  assert (E : ExecuteInstruction 0x4c08 s = Done tt s') by (vm_compute; reflexivity).
  split; [exact E |]. split; [| vm_compute; split; reflexivity].
  exact (proj1 (instruction_in_parallel 0x4c08 s s' Hs eq_refl eq_refl E)).
Defined.

(** C1: every reachable machine is well-formed: every register fits its width,
    every array keeps its length, and between instructions the write-back log is
    empty, whatever program runs, whatever the CPU writes to the control
    register, the mailboxes and the memories, and in whatever order. *)
Theorem reachable_ready s s' :
  wf s -> writeBackLogIdx s = empty_log -> rtc transition s s' ->
  wf s' /\ writeBackLogIdx s' = empty_log.
Proof.
  intros Hs Hlog Hr. exact (ready_rtc s s' (conj Hs Hlog) Hr).
Qed.

Lemma reachable_ready_witness : exists s', rtc transition dsp0 s' /\ wf s'.
Proof.
  assert (R : rtc transition dsp0 (put_cr 0x802 (put_cr 0x2 dsp0))).
  { eapply rtc_l; [apply (cpu_write_control dsp0 0x2); reflexivity |].
    eapply rtc_l; [apply (cpu_write_control _ 0x802); reflexivity |]. apply rtc_refl. }
  eexists. split; [exact R |]. exact (proj1 (reachable_ready dsp0 _ wf_dsp0 eq_refl R)).
Defined.

(** ** The run loops as iterations *)

Lemma iterate_add j k m s : iterate (j + k) m s = (iterate j m;; iterate k m) s.
Proof.
  revert s. induction j as [| j IH]; intros s; [done |]. cbn [Nat.add iterate].
  rewrite !run_bind. destruct (m s) as [[] s1 | |]; [| done | done]. rewrite IH, run_bind. done.
Qed.

(** [n] rounds of a run loop: [k] steps and the result. *)
Lemma run_steps_iterate stop step n cycles s :
  0 <= cycles ->
  exists k v, run_steps stop step n cycles s = (iterate k step;; mret v) s /\
  match v with
  | None => Z.of_nat k <= cycles + 1 /\
            forall s', iterate k step s = Done tt s' -> Z.of_nat k = cycles + 1 \/ stop s' = true
  | Some c => k = n /\ c = cycles - Z.of_nat n /\ 0 <= c
  end.
Proof.
  revert cycles s. induction n as [| n IH]; intros cycles s Hc.
  - exists 0%nat, (Some cycles). cbn. split_and!; try done. lia.
  - cbn [run_steps]. rewrite run_bind, run_gets. destruct (stop s) eqn:Hstop.
    { exists 0%nat, None. split; [done |]. split; [lia |]. intros s' E. injection E as <-. auto. }
    rewrite run_bind. destruct (step s) as [[] s1 | |] eqn:E1.
    2,3: exists 1%nat, None; cbn [iterate]; rewrite !run_bind, E1;
      split; [done |]; split; [lia | discriminate].
    cbv zeta. destruct (Z.ltb_spec (cycles - 1) 0).
    { exists 1%nat, None. cbn [iterate]. rewrite !run_bind, E1. split; [done |]. split; [lia |].
      intros s' _. left. lia. }
    destruct (IH (cycles - 1) s1 ltac:(lia)) as (k & v & E & Hv).
    exists (S k), v. cbn [iterate]. rewrite E, !run_bind, E1. split; [done |].
    destruct v as [c |].
    + destruct Hv as (-> & -> & Hv). split_and!; [done | lia | lia].
    + destruct Hv as [H1 H2]. split; [lia |]. intros s' E'. destruct (H2 s' E') as [? | ?]; [left; lia | auto].
Qed.

(** [m] is some number of steps, as many as the cycles allow unless the machine
    halts or idles. *)
Definition runs_as (m : M bool) (cycles : Z) (s : SDSP) : Prop :=
  exists k, m s = (iterate k Step;; mret true) s /\ Z.of_nat k <= cycles + 1 /\
  forall s', iterate k Step s = Done tt s' -> Z.of_nat k = cycles + 1 \/ halted s' = true \/ idle s' = true.

Lemma runs_after stop n cycles s (f : Z -> M bool) :
  0 <= cycles -> (forall x, stop x = true -> halted x = true \/ idle x = true) ->
  (forall c s1, 0 <= c -> c = cycles - Z.of_nat n -> runs_as (f c) c s1) ->
  runs_as (c ← run_steps stop Step n cycles; match c with None => mret true | Some c => f c end) cycles s.
Proof.
  intros Hc Hstop Hf. destruct (run_steps_iterate stop Step n cycles s Hc) as (k & v & E & Hv).
  unfold runs_as. rewrite run_bind, E, run_bind.
  destruct v as [c |].
  - destruct Hv as (-> & -> & Hv). destruct (iterate n Step s) as [[] s1 | |] eqn:E1.
    + destruct (Hf _ s1 Hv eq_refl) as (k & Ek & Hk & Hs). exists (n + k)%nat.
      rewrite run_ret, run_bind, iterate_add, run_bind, E1, Ek, run_bind. split; [done |].
      split; [lia |]. intros s' E'. destruct (Hs s' E') as [? | ?]; [left; lia | auto].
    + exists n. rewrite run_bind, E1. split; [done |]. split; [lia | discriminate].
    + exists n. rewrite run_bind, E1. split; [done |]. split; [lia | discriminate].
  - destruct Hv as [H1 H2]. exists k. rewrite run_bind. split; [| split; [done |]].
    + destruct (iterate k Step s) as [[] s1 | |]; done.
    + intros s' E'. destruct (H2 s' E') as [? | ?]; [auto | right; auto].
Qed.

Lemma run_cycles_loop_runs fuel cycles s :
  0 <= cycles -> (Z.to_nat cycles < fuel)%nat -> runs_as (run_cycles_loop fuel cycles) cycles s.
Proof.
  revert cycles s. induction fuel as [| fuel IH]; intros cycles s Hc Hf; [lia |]. cbn [run_cycles_loop].
  apply (runs_after _ 8 cycles s (fun cycles => c ← run_steps (fun _ => false) Step 200 cycles;
    match c with None => mret true | Some cycles => run_cycles_loop fuel cycles end)); [done | |].
  - intros x Hx. apply orb_prop in Hx. exact Hx.
  - intros c s1 Hc1 E1. apply runs_after; [done | done |].
    intros c2 s2 Hc2 E2. apply IH; lia.
Qed.

Lemma halted_run_steps step n cycles s : halted s = true -> (0 < n)%nat -> run_steps halted step n cycles s = Done None s.
Proof. intros H Hn. destruct n; [lia |]. cbn [run_steps]. rewrite run_bind, run_gets, H. done. Qed.

(** C4: running the DSP for [cycles] cycles is iterating [Step], and the loop
    always returns: without thread, exactly [cycles + 1] steps unless the machine has
    halted or reached a known idle loop by then; with thread, each step preceded by
    the pending external interrupt, exactly [cycles + 1] unless it has halted. A
    step that leaves the process or the arrays does so in both descriptions, and
    a halted machine does not move at all. *)
Theorem run_cycles_spec cycles s :
  0 <= cycles ->
  (exists k, RunCycles cycles s = (iterate k Step;; mret true) s /\ Z.of_nat k <= cycles + 1 /\
     forall s', iterate k Step s = Done tt s' ->
       Z.of_nat k = cycles + 1 \/ halted s' = true \/ idle s' = true) /\
  (exists k, RunCyclesThread cycles s = (iterate k (TakeExternalInterrupt;; Step);; mret true) s /\
     Z.of_nat k <= cycles + 1 /\
     forall s', iterate k (TakeExternalInterrupt;; Step) s = Done tt s' ->
       Z.of_nat k = cycles + 1 \/ halted s' = true) /\
  (halted s = true -> RunCycles cycles s = Done true s /\ RunCyclesThread cycles s = Done true s).
Proof.
  intros Hc. split_and!.
  - unfold RunCycles. apply (runs_after halted 8 cycles s (fun cycles => run_cycles_loop (S (Z.to_nat cycles)) cycles)); [done | auto |].
    intros c s1 Hc1 _. apply run_cycles_loop_runs; [done | lia].
  - unfold RunCyclesThread.
    destruct (run_steps_iterate halted (TakeExternalInterrupt;; Step) (S (Z.to_nat cycles)) cycles s Hc) as (k & v & E & Hv).
    destruct v as [c |]; [lia |]. destruct Hv as [H1 H2]. exists k. split; [| done].
    rewrite run_bind, E, !run_bind. destruct (iterate k _ s) as [[] s1 | |]; done.
  - intros Hh. unfold RunCycles, RunCyclesThread. rewrite !run_bind, !halted_run_steps by (done || lia). done.
Qed.

Lemma run_cycles_spec_witness :
  halted (put_cr 4 dsp0) = true /\ RunCycles 100 (put_cr 4 dsp0) = Done true (put_cr 4 dsp0).
Proof.
  split; [reflexivity |].
  destruct (run_cycles_spec 100 (put_cr 4 dsp0) ltac:(lia)) as (_ & _ & H).
  exact (proj1 (H eq_refl)).
Defined.
(** ** A program

    Five increments in a hardware loop, from reset to halt: [LRI $ac0.m, #0; LOOPI #5;
    INC $ac0; HALT] in ROM. *)

Definition counting_rom : gmap Z Z :=
  list_to_map [(0, 0x009e); (1, 0x0000); (2, 0x1005); (3, 0x7600); (4, 0x0021)].

Example counting_program :
  let s := final (WriteCR 1) (set_irom counting_rom dsp0) in
  let s' := final (RunCycles 100) s in
  dsp_get_long_acc 0 (r s') = 5 /\ halted s' = true /\ pc s' = 0x8004 /\ step_counter s' = 8.
Proof. vm_compute. repeat split. Qed.
