(* ===== verification/DspInit.v ===== *)
(** Bringing the DSP up ([DSPCore_Init], [VerifyRoms] of
    [Core/DSP/DSPCore.cpp] and the log set up by [InitInstructionTable]). The theorem
    describes the machine the emulation starts from: the ROMs in place, the
    instruction RAM full of [HALT], the interpreter's invariant established and
    the core halted. *)

From S2P Require Import Prelude CommonHash DspState DspTables DspStacks DspImem DspAnalyzer DspCore DspAccel DspHW DspCC DspIntUtil.
From S2P Require Import DspLoadStore DspFrame DspExtOps DspIntTables DspInterpreter.
Open Scope Z_scope.

Definition DSP_IROM_SIZE : nat := Z.to_nat 0x1000.
Definition DSP_COEF_SIZE : nat := Z.to_nat 0x800.

Record DSPInitOptions := mkOptions {
  irom_contents : list Z;
  coef_contents : list Z
}.

(** ** ROMs *)

(** [reinterpret_cast<u8*>] of [n] words on a little-endian host. *)
Definition rom_bytes (m : gmap Z Z) (n : nat) : list Z :=
  flat_map (fun i => let w := mget m (Z.of_nat i) in [w .& 0xff; w .>> 8]) (seq 0 n).

Definition known_roms : list (Z * Z) := [
  (0x66f334fe, 0xf3b93527);
  (0x9c8f593c, 0x10000001);
  (0xd9907f71, 0xb019c2fb);
  (0xd9907f71, 0xdb6880c1);
  (0x3aa4a793, 0xa4a575f5);
  (0x128ea7a2, 0xa4a575f5)
].

(** The loop over [known_roms]: the last entry that matches, or -1. *)
Fixpoint find_rom (hash_irom hash_drom : Z) (roms : list (Z * Z)) (i rom_idx : Z) : Z :=
  match roms with
  | [] => rom_idx
  | rom :: roms' =>
    find_rom hash_irom hash_drom roms' (i + 1)
      (if (hash_irom =? fst rom) && (hash_drom =? snd rom) then i else rom_idx)
  end.

(** [ask] is the user's answer to whether to stop, when the ROMs are unknown. *)
Definition VerifyRoms (ask : bool) : M bool :=
  hash_irom ← gets (fun s => HashAdler32 (rom_bytes (irom s) DSP_IROM_SIZE));
  hash_drom ← gets (fun s => HashAdler32 (rom_bytes (coef s) DSP_COEF_SIZE));
  match hash_irom, hash_drom with
  | Some hash_irom, Some hash_drom =>
    let rom_idx := find_rom hash_irom hash_drom known_roms 0 (-1) in
    if (rom_idx <? 0) && ask then mret false else mret true
  | _, _ => out_of_bounds
  end.

(** ** Initialisation *)

(** A memory holding the words of a list from address [i]. *)
Fixpoint load_words (i : Z) (l : list Z) : gmap Z Z :=
  match l with
  | [] => ∅
  | v :: l' => <[i := v]> (load_words (i + 1) l')
  end.

(** [writeBackLogIdx.fill(-1)]; the tables themselves are constant functions. *)
Definition InitInstructionTable : M unit := modify (set_writeBackLogIdx (replicate 5 (-1))).

Definition zero_regs : DSP_Regs :=
  mkRegs [0;0;0;0] [0;0;0;0] [0;0;0;0] [0;0;0;0] 0 0 0 [0;0] [0;0].

(** Releasing the memory pages leaves them without contents. *)
Definition DSPCore_FreeMemoryPages : M unit :=
  modify (set_irom ∅);; modify (set_iram ∅);; modify (set_dram ∅);; modify (set_coef ∅).

(** [std::fill(g_dsp.iram, g_dsp.iram + DSP_IRAM_SIZE, 0x0021)] *)
Definition halt_ram : gmap Z Z := load_words 0 (replicate (Z.to_nat DSP_IRAM_SIZE) 0x0021).

Definition DSPCore_Init (opts : DSPInitOptions) (ask : bool) : M bool :=
  modify (set_step_counter 0);;
  modify (set_g_init_hax false);;
  modify (set_accelerator (mkAccelerator 0 0 0 0 0 0 0 false));;
  modify (set_irom (load_words 0 (take DSP_IROM_SIZE (irom_contents opts))));;
  modify (set_coef (load_words 0 (take DSP_COEF_SIZE (coef_contents opts))));;
  ok ← VerifyRoms ask;
  if negb ok then
    DSPCore_FreeMemoryPages;;
    mret false
  else
    upd_regs (fun _ => zero_regs);;
    modify (set_reg_stack_ptr [0; 0; 0; 0]);;
    modify (set_reg_stack ∅);;
    modify (set_iram halt_ram);;
    modify (set_dram ∅);;
    upd_regs (set_r_wr [0xffff; 0xffff; 0xffff; 0xffff]);;
    upd_regs (fun g => put_sr (r_sr g .| SR_INT_ENABLE) g);;
    upd_regs (fun g => put_sr (r_sr g .| SR_EXT_INT_ENABLE) g);;
    modify (put_cr 0x804);;
    gdsp_ifx_init;;
    mret true.

(** ** Lemmas *)

Lemma mget_load_words l i a :
  i <= a -> mget (load_words i l) a = zget l (a - i).
Proof.
  revert i. induction l as [| v l IH]; intros i Ha; cbn [load_words].
  - unfold mget, zget. rewrite lookup_empty. destruct (Z.to_nat (a - i)); done.
  - destruct (decide (a = i)) as [-> | Hne].
    + unfold mget. rewrite lookup_insert_eq, Z.sub_diag. done.
    + unfold mget. rewrite lookup_insert_ne by done. fold (mget (load_words (i + 1) l) a).
      rewrite IH by lia. unfold zget. replace (Z.to_nat (a - i)) with (S (Z.to_nat (a - (i + 1)))) by lia. done.
Qed.

Lemma load_words_ok l i w : Forall (inu w) l -> mem_ok w (load_words i l).
Proof.
  intros Hl. revert i. induction Hl as [| v l Hv Hl IH]; intros i; cbn [load_words].
  - intros a x E. rewrite lookup_empty in E. done.
  - apply mem_ok_mset; [apply IH | done].
Qed.

Lemma rom_bytes_ok m n : mem_ok 16 m -> Forall (inu 8) (rom_bytes m n).
Proof.
  intros Hm. apply List.Forall_forall. intros b Hb. unfold rom_bytes in Hb.
  apply in_flat_map in Hb as (i & _ & Hb). cbv zeta in Hb.
  assert (Hw : inu 16 (mget m (Z.of_nat i))) by (apply mem_ok_mget; [lia | done]).
  set (w := mget m (Z.of_nat i)) in *. unfold inu in *.
  destruct Hb as [<- | [<- | []]].
  - change 0xff with (Z.ones 8). rewrite Z.land_ones by lia. apply Z.mod_pos_bound. reflexivity.
  - rewrite Z.shiftr_div_pow2 by lia. change (2 ^ 16) with 65536 in Hw. change (2 ^ 8) with 256.
    Z.to_euclidean_division_equations. lia.
Qed.

(** The checksums of the ROMs, as the specification of the checksum gives them. *)
Definition roms_known (ir co : gmap Z Z) : bool :=
  0 <=? find_rom (adler32 (rom_bytes ir DSP_IROM_SIZE)) (adler32 (rom_bytes co DSP_COEF_SIZE)) known_roms 0 (-1).

Definition rom_known (opts : DSPInitOptions) : bool :=
  roms_known (load_words 0 (take DSP_IROM_SIZE (irom_contents opts)))
    (load_words 0 (take DSP_COEF_SIZE (coef_contents opts))).

Lemma run_VerifyRoms ask s :
  mem_ok 16 (irom s) -> mem_ok 16 (coef s) ->
  VerifyRoms ask s = Done (roms_known (irom s) (coef s) || negb ask) s.
Proof.
  intros Hi Hc. unfold VerifyRoms. run.
  rewrite !HashAdler32_sums by (apply rom_bytes_ok; done). unfold roms_known. set (i := find_rom _ _ _ _ _). run.
  destruct (Z.ltb_spec i 0), (Z.leb_spec 0 i), ask; try lia; done.
Qed.

Lemma wf_regs_zero : wf_regs zero_regs.
Proof.
  constructor; cbn; repeat first [ solve [unfold inu; cbn; lia] | reflexivity | constructor ].
Qed.

(** The machine [DSPCore_Init] leaves behind, for the contents of its memories. *)
Definition initialised_with (ir co iram' : gmap Z Z) (s : SDSP) : SDSP :=
  mbox_store MAILBOX_DSP 0 (mbox_store MAILBOX_CPU 0 (set_ifx_regs ∅ (put_cr 0x804
    (upd_r (fun g => put_sr (r_sr g .| SR_EXT_INT_ENABLE) g)
      (upd_r (fun g => put_sr (r_sr g .| SR_INT_ENABLE) g)
        (upd_r (set_r_wr [0xffff; 0xffff; 0xffff; 0xffff])
          (set_dram ∅ (set_iram iram'
            (set_reg_stack ∅ (set_reg_stack_ptr [0; 0; 0; 0] (upd_r (fun _ => zero_regs)
              (set_coef co (set_irom ir
                  (set_accelerator (mkAccelerator 0 0 0 0 0 0 0 false)
                    (set_g_init_hax false (set_step_counter 0 s)))))))))))))))).

Lemma empty_ok w : mem_ok (K := Z) w ∅.
Proof. intros a v E. rewrite lookup_empty in E. done. Qed.

Lemma wf_set_ifx_empty s : wf s -> wf (set_ifx_regs ∅ s).
Proof. intros Hs. destruct Hs. constructor; try assumption. apply empty_ok. Qed.

Lemma wf_initialised_with ir co im s :
  mem_ok 16 ir -> mem_ok 16 co -> mem_ok 16 im -> wf s -> wf (initialised_with ir co im s).
Proof.
  intros Hi Hc Hm Hs. unfold initialised_with. apply wf_mbox_store, wf_mbox_store.
  apply wf_set_ifx_empty.
  apply wf_put_cr, wf_upd_r; [auto with wf |]. apply wf_upd_r; [auto with wf |].
  apply wf_upd_r.
  { intros g Hg. destruct Hg; constructor; cbn; try assumption. split; [done |].
    repeat constructor; unfold inu; lia. }
  destruct Hs; constructor; cbn [r set_r upd_r set_dram set_iram set_reg_stack set_reg_stack_ptr set_coef set_irom
    set_accelerator set_g_init_hax set_step_counter pc cr reg_stack_ptr exceptions reg_stack iram_crc step_counter
    mbox ifx_regs accelerator iram dram irom coef cpu_ram writeBackLog writeBackLogIdx code_flags aram];
    try assumption.
  - apply wf_regs_zero.
  - split; [done | repeat constructor; unfold inu; lia].
  - intros a v E. rewrite lookup_empty in E. discriminate E.
  - unfold inu. lia.
  - constructor; cbn; unfold inu, ins; lia.
  - apply empty_ok.
Qed.

Definition contents_ok (opts : DSPInitOptions) : Prop :=
  Forall (inu 16) (irom_contents opts) /\ Forall (inu 16) (coef_contents opts).

Definition initialised (opts : DSPInitOptions) : SDSP -> SDSP :=
  initialised_with (load_words 0 (take DSP_IROM_SIZE (irom_contents opts)))
    (load_words 0 (take DSP_COEF_SIZE (coef_contents opts)))
    halt_ram.

Lemma wf_initialised opts s : contents_ok opts -> wf s -> wf (initialised opts s).
Proof.
  intros [Hi Hc] Hs. unfold initialised. apply wf_initialised_with;
    [apply load_words_ok, Forall_take, Hi | apply load_words_ok, Forall_take, Hc | | exact Hs].
  unfold halt_ram. apply load_words_ok, Forall_replicate. unfold inu. lia.
Qed.

Lemma run_Init opts ask s : contents_ok opts ->
  DSPCore_Init opts ask s =
    if rom_known opts || negb ask then Done true (initialised opts s)
    else Done false (set_coef ∅ (set_dram ∅ (set_iram ∅ (set_irom ∅
      (set_accelerator (mkAccelerator 0 0 0 0 0 0 0 false) (set_g_init_hax false (set_step_counter 0 s))))))).
Proof.
  intros [Hi Hc]. unfold DSPCore_Init. run.
  rewrite run_VerifyRoms.
  2,3: cbn [irom coef set_coef set_irom]; apply load_words_ok, Forall_take; assumption.
  cbn [irom coef set_coef set_irom].
  unfold rom_known. match goal with |- context [roms_known ?x ?y] => generalize (roms_known x y) end.
  intros b. destruct (b || negb ask); cbn [negb].
  - unfold initialised, gdsp_ifx_init. run. unfold initialised_with. reflexivity.
  - unfold DSPCore_FreeMemoryPages. run. reflexivity.
Qed.

(** Initialisation. [DSPCore_Init] succeeds exactly when both ROMs have the
    Adler-32 checksums of a known pair or the user declines to stop.  The machine
    is then ready: well-formed with an empty write-back log, and so is every machine
    reached from it. It is halted until the CPU says otherwise, with interrupts
    enabled; its ROM holds the given contents and its instruction RAM only [HALT], so
    a jump into RAM before code is loaded halts the core again. *)
Theorem init_machine opts ask s :
  contents_ok opts -> wf s ->
  exists s', (InitInstructionTable;; DSPCore_Init opts ask) s = Done (rom_known opts || negb ask) s' /\
  (rom_known opts || negb ask = true ->
    (forall s'', rtc transition s' s'' -> wf s'' /\ writeBackLogIdx s'' = empty_log) /\
    halted s' = true /\
    flag (r_sr (r s')) SR_INT_ENABLE = true /\ flag (r_sr (r s')) SR_EXT_INT_ENABLE = true /\
    (forall a, 0 <= a < 0x1000 -> imem s' a = 0x0021) /\
    (forall a, 0 <= a < 0x1000 -> imem s' (0x8000 + a) = zget (irom_contents opts) a)).
Proof.
  intros Hc Hs. set (s0 := set_writeBackLogIdx empty_log s).
  assert (H0 : wf s0) by (apply wf_empty_log, Hs).
  unfold InitInstructionTable. run. fold empty_log. fold s0. rewrite run_Init by done.
  destruct (rom_known opts || negb ask); [| eexists; split; [reflexivity | discriminate]].
  exists (initialised opts s0). split; [done |]. intros _.
  assert (Hr : ready (initialised opts s0)) by (split; [apply wf_initialised; done | done]).
  split_and!.
  - intros s'' Ht. exact (ready_rtc _ _ Hr Ht).
  - reflexivity.
  - reflexivity.
  - reflexivity.
  - intros a Ha. unfold imem. rewrite Z.shiftr_div_pow2, Z.div_small by lia.
    unfold DSP_IRAM_MASK. change 0x0fff with (Z.ones 12). rewrite Z.land_ones, Z.mod_small by lia.
    change (iram (initialised opts s0)) with halt_ram. unfold halt_ram.
    rewrite mget_load_words, Z.sub_0_r by lia. unfold zget, DSP_IRAM_SIZE. rewrite nth_lookup.
    rewrite lookup_replicate_2 by lia. done.
  - intros a Ha. unfold imem. rewrite Z.shiftr_div_pow2 by lia.
    replace ((0x8000 + a) / 2 ^ 12) with 8 by (apply (Z.div_unique_pos _ _ _ a); lia).
    unfold DSP_IROM_MASK. change 0x0fff with (Z.ones 12). rewrite Z.land_ones by lia.
    replace ((0x8000 + a) mod 2 ^ 12) with a by (apply (Z.mod_unique_pos _ _ 8); lia).
    change (irom (initialised opts s0)) with (load_words 0 (take DSP_IROM_SIZE (irom_contents opts))).
    rewrite mget_load_words, Z.sub_0_r by lia. unfold zget, DSP_IROM_SIZE. rewrite !nth_lookup.
    rewrite lookup_take_lt by lia. done.
Qed.

Lemma init_machine_witness :
  contents_ok (mkOptions [] []) /\
  exists s', (InitInstructionTable;; DSPCore_Init (mkOptions [] []) false) dsp0 = Done true s' /\
             halted s' = true.
Proof.
  assert (H : contents_ok (mkOptions [] [])) by (split; constructor).
  split; [exact H |].
  destruct (init_machine (mkOptions [] []) false dsp0 H wf_dsp0) as (s' & E & P).
  rewrite orb_true_r in E, P. destruct (P eq_refl) as (_ & Hh & _).
  exists s'. split; [exact E | exact Hh].
Defined.
