(* ===== verification/Memmap.v ===== *)
(** The console's physical memory as the devices see it
    ([Core/HW/Memmap.cpp], with the byte swapping of [Common/Swap.h]).

    An allocated region is a finite map from offsets to bytes; a pointer into it
    is the region and an offset. [None] is the host's fault: dereferencing the
    null pointer that [GetPointer] returns for an unknown address, or a byte
    outside the region. The host is little-endian, as every supported host is.
    The theorem says that a store of any width is seen by loads of the same
    width and by byte loads in big-endian order, and changes nothing else. *)

From S2P Require Import Prelude.
Open Scope Z_scope.

(** ** Byte order of the host *)

(** The value of an integer whose bytes in memory are [l]. *)
Fixpoint le_value (l : list Z) : Z :=
  match l with [] => 0 | b :: l' => b + 2 ^ 8 * le_value l' end.

(** The [n] bytes of an integer in memory. *)
Fixpoint le_bytes (n : nat) (v : Z) : list Z :=
  match n with O => [] | S n' => u8 v :: le_bytes n' (v .>> 8) end.

Definition swap16 (data : Z) : Z := u16 ((data .>> 8) .| (data .<< 8)).
Definition swap32 (data : Z) : Z := u32 ((swap16 (u16 data) .<< 16) .| swap16 (u16 (data .>> 16))).
Definition swap64 (data : Z) : Z := u64 ((swap32 (u32 data) .<< 32) .| swap32 (u32 (data .>> 32))).

(** ** Regions *)

Definition NextPowerOf2 (value : Z) : Z :=
  let value := u32 (value - 1) in
  let value := value .| (value .>> 1) in
  let value := value .| (value .>> 2) in
  let value := value .| (value .>> 4) in
  let value := value .| (value .>> 8) in
  let value := value .| (value .>> 16) in
  u32 (value + 1).

Definition REALRAM_SIZE : Z := 0x01800000.
Definition RAM_SIZE : Z := NextPowerOf2 REALRAM_SIZE.
Definition FAKEVMEM_SIZE : Z := 0x02000000.
Definition L1_CACHE_SIZE : Z := 0x00040000.
Definition EXRAM_SIZE : Z := 0x04000000.
Definition EXRAM_MASK : Z := EXRAM_SIZE - 1.

(** The null pointers of the regions that are not mapped are [None]. *)
Record Memmap := mk_memmap {
  m_pRAM : gmap Z Z;
  m_pL1Cache : gmap Z Z;
  m_pEXRAM : option (gmap Z Z);
  m_pFakeVMEM : option (gmap Z Z)
}.

(** [Init] maps the regions the console has and clears them. *)
Definition Init (wii bMMU : bool) : Memmap :=
  let bFakeVMEM := negb wii && negb bMMU in
  mk_memmap ∅ ∅ (if wii then Some ∅ else None) (if bFakeVMEM then Some ∅ else None).

Definition Clear (m : Memmap) : Memmap :=
  mk_memmap ∅ ∅ (const ∅ <$> m_pEXRAM m) (const ∅ <$> m_pFakeVMEM m).

(** ** Pointers *)

Inductive Bank := RAM | EXRAM | L1Cache | FakeVMEM.
#[export] Instance bank_eq_dec : EqDecision Bank.
Proof. solve_decision. Defined.

Definition bank_size (b : Bank) : Z :=
  match b with RAM => RAM_SIZE | EXRAM => EXRAM_SIZE | L1Cache => L1_CACHE_SIZE | FakeVMEM => FAKEVMEM_SIZE end.

Definition bank_bytes (b : Bank) (m : Memmap) : option (gmap Z Z) :=
  match b with RAM => Some (m_pRAM m) | EXRAM => m_pEXRAM m | L1Cache => Some (m_pL1Cache m) | FakeVMEM => m_pFakeVMEM m end.

Definition set_bank_bytes (b : Bank) (x : gmap Z Z) (m : Memmap) : Memmap :=
  match b with
  | RAM => mk_memmap x (m_pL1Cache m) (m_pEXRAM m) (m_pFakeVMEM m)
  | EXRAM => mk_memmap (m_pRAM m) (m_pL1Cache m) (const x <$> m_pEXRAM m) (m_pFakeVMEM m)
  | L1Cache => mk_memmap (m_pRAM m) x (m_pEXRAM m) (m_pFakeVMEM m)
  | FakeVMEM => mk_memmap (m_pRAM m) (m_pL1Cache m) (m_pEXRAM m) (const x <$> m_pFakeVMEM m)
  end.

Definition GetPointer (m : Memmap) (address : Z) : option (Bank * Z) :=
  let address := address .& 0x3FFFFFFF in
  if address <? REALRAM_SIZE then Some (RAM, address)
  else match m_pEXRAM m with
       | Some _ =>
         if (address .>> 28 =? 1) && ((address .& 0x0fffffff) <? EXRAM_SIZE)
         then Some (EXRAM, address .& EXRAM_MASK)
         else None
       | None => None
       end.

Definition GetPointerForRange (m : Memmap) (address size : Z) : option (Bank * Z) :=
  if EXRAM_SIZE <=? size then None
  else match GetPointer m address, GetPointer m (u32 (address + size - 1)) with
       | Some pointer, Some _ => Some pointer
       | _, _ => None
       end.

(** The bytes behind a pointer. *)
Definition load_u8 (m : Memmap) (p : Bank * Z) : option Z :=
  x ← bank_bytes p.1 m;
  if (0 <=? p.2) && (p.2 <? bank_size p.1) then Some (mget x p.2) else None.

Definition store_u8 (p : Bank * Z) (v : Z) (m : Memmap) : option Memmap :=
  x ← bank_bytes p.1 m;
  if (0 <=? p.2) && (p.2 <? bank_size p.1)
  then Some (set_bank_bytes p.1 (mset x p.2 (u8 v)) m) else None.

(** [memcpy] from and to a pointer. *)
Fixpoint load_bytes (m : Memmap) (p : Bank * Z) (n : nat) : option (list Z) :=
  match n with
  | O => Some []
  | S n' => v ← load_u8 m p; l ← load_bytes m (p.1, p.2 + 1) n'; Some (v :: l)
  end.

Fixpoint store_bytes (p : Bank * Z) (l : list Z) (m : Memmap) : option Memmap :=
  match l with
  | [] => Some m
  | v :: l' => m ← store_u8 p v m; store_bytes (p.1, p.2 + 1) l' m
  end.

(** ** Copies: an invalid range is reported and nothing is copied *)

Definition CopyFromEmu (m : Memmap) (data : list Z) (address size : Z) : option (list Z) :=
  if size =? 0 then Some data
  else match GetPointerForRange m address size with
       | None => Some data
       | Some p => l ← load_bytes m p (Z.to_nat size); Some (l ++ drop (Z.to_nat size) data)
       end.

Definition CopyToEmu (address : Z) (data : list Z) (size : Z) (m : Memmap) : option Memmap :=
  if size =? 0 then Some m
  else match GetPointerForRange m address size with
       | None => Some m
       | Some p => store_bytes p (take (Z.to_nat size) data) m
       end.

Definition Memset (address value size : Z) (m : Memmap) : option Memmap :=
  if size =? 0 then Some m
  else match GetPointerForRange m address size with
       | None => Some m
       | Some p => store_bytes p (replicate (Z.to_nat size) value) m
       end.

(** ** Loads and stores of one integer, big-endian in the emulated memory *)

Definition Read_U8 (m : Memmap) (address : Z) : option Z :=
  p ← GetPointer m address; load_u8 m p.
Definition Read_U16 (m : Memmap) (address : Z) : option Z :=
  p ← GetPointer m address; l ← load_bytes m p 2; Some (swap16 (le_value l)).
Definition Read_U32 (m : Memmap) (address : Z) : option Z :=
  p ← GetPointer m address; l ← load_bytes m p 4; Some (swap32 (le_value l)).
Definition Read_U64 (m : Memmap) (address : Z) : option Z :=
  p ← GetPointer m address; l ← load_bytes m p 8; Some (swap64 (le_value l)).

Definition Write_U8 (value address : Z) (m : Memmap) : option Memmap :=
  p ← GetPointer m address; store_u8 p value m.
Definition Write_U16 (value address : Z) (m : Memmap) : option Memmap :=
  p ← GetPointer m address; store_bytes p (le_bytes 2 (swap16 value)) m.
Definition Write_U32 (value address : Z) (m : Memmap) : option Memmap :=
  p ← GetPointer m address; store_bytes p (le_bytes 4 (swap32 value)) m.
Definition Write_U64 (value address : Z) (m : Memmap) : option Memmap :=
  p ← GetPointer m address; store_bytes p (le_bytes 8 (swap64 value)) m.
Definition Write_U32_Swap (value address : Z) (m : Memmap) : option Memmap :=
  p ← GetPointer m address; store_bytes p (le_bytes 4 value) m.
Definition Write_U64_Swap (value address : Z) (m : Memmap) : option Memmap :=
  p ← GetPointer m address; store_bytes p (le_bytes 8 value) m.

(** ** Byte order *)

Definition bytes_ok (l : list Z) : Prop := Forall (inu 8) l.

Lemma le_value_range l : bytes_ok l -> inu (8 * Z.of_nat (length l)) (le_value l).
Proof.
  unfold inu. induction 1 as [| b l Hb _ IH]; [cbn; lia |].
  cbn [le_value length]. replace (8 * Z.of_nat (S (length l))) with (8 + 8 * Z.of_nat (length l)) by lia.
  rewrite Z.pow_add_r by lia. unfold inu in Hb. nia.
Qed.

Lemma le_value_app l1 l2 :
  le_value (l1 ++ l2) = le_value l1 + 2 ^ (8 * Z.of_nat (length l1)) * le_value l2.
Proof.
  induction l1 as [| b l IH]; cbn [le_value app length]; [change (2 ^ (8 * Z.of_nat 0)) with 1; lia |].
  replace (8 * Z.of_nat (S (length l))) with (8 + 8 * Z.of_nat (length l)) by lia.
  rewrite IH, Z.pow_add_r by lia. ring.
Qed.

Lemma le_bytes_ok n v : bytes_ok (le_bytes n v).
Proof. revert v. induction n; constructor; [range | apply IHn]. Qed.

Lemma length_le_bytes n v : length (le_bytes n v) = n.
Proof. revert v. induction n; cbn; auto. Qed.

Lemma le_value_bytes n v : inu (8 * Z.of_nat n) v -> le_value (le_bytes n v) = v.
Proof.
  unfold inu. revert v. induction n as [| n IH]; intros v Hv; cbn [le_value le_bytes].
  - cbn in Hv. lia.
  - replace (8 * Z.of_nat (S n)) with (8 + 8 * Z.of_nat n) in Hv by lia.
    rewrite Z.pow_add_r in Hv by lia.
    rewrite IH, Z.shiftr_div_pow2 by (rewrite ?Z.shiftr_div_pow2 by lia; Z.to_euclidean_division_equations; nia).
    unfold wrapu. pose proof (Z.div_mod v (2 ^ 8)). lia.
Qed.

Lemma le_bytes_value l : bytes_ok l -> le_bytes (length l) (le_value l) = l.
Proof.
  induction 1 as [| b l Hb Hl IH]; [done |]. cbn [le_value le_bytes length].
  unfold inu in Hb. f_equal.
  - unfold wrapu. rewrite Z.mul_comm, Z_mod_plus_full. apply Z.mod_small. done.
  - rewrite Z.shiftr_div_pow2, Z.mul_comm, Z.div_add, (Z.div_small b) by lia. exact IH.
Qed.

(** Swapping twice the width swaps the halves and their order. *)
Lemma swap_halves w l1 l2 x y :
  0 <= w -> 8 * Z.of_nat (length l1) = w -> 8 * Z.of_nat (length l2) = w -> bytes_ok l1 -> bytes_ok l2 ->
  x = le_value (rev l1) -> y = le_value (rev l2) ->
  wrapu (2 * w) ((x .<< w) .| y) = le_value (rev (l1 ++ l2)).
Proof.
  intros Hw H1 H2 Ho1 Ho2 -> ->.
  pose proof (le_value_range (rev l1)) as R1. pose proof (le_value_range (rev l2)) as R2.
  rewrite length_rev in R1, R2. rewrite H1 in R1. rewrite H2 in R2.
  assert (bytes_ok (rev l1)) as Hr1 by (apply Forall_rev; done).
  assert (bytes_ok (rev l2)) as Hr2 by (apply Forall_rev; done).
  specialize (R1 Hr1). specialize (R2 Hr2).
  rewrite lor_shift_add by done. rewrite rev_app_distr, le_value_app, length_rev, H2.
  rewrite wrapu_id; [ring |]. unfold inu in *. replace (2 * w) with (w + w) by lia.
  rewrite Z.pow_add_r by lia. nia.
Qed.

Lemma le_halves w l1 l2 :
  0 <= w -> 8 * Z.of_nat (length l1) = w -> bytes_ok l1 ->
  wrapu w (le_value (l1 ++ l2)) = le_value l1 /\ (le_value (l1 ++ l2)) .>> w = le_value l2.
Proof.
  intros Hw H1 Ho. pose proof (le_value_range _ Ho) as R. rewrite H1 in R. unfold inu in R.
  rewrite le_value_app, H1. split.
  - unfold wrapu. rewrite (Z.mul_comm (2 ^ w)), Z_mod_plus_full. apply Z.mod_small. done.
  - rewrite Z.shiftr_div_pow2, (Z.mul_comm (2 ^ w)), Z.div_add, (Z.div_small (le_value l1)) by lia. lia.
Qed.

Ltac auto_bytes := unfold bytes_ok; repeat first [apply Forall_nil_2 | apply Forall_cons_2]; assumption.

Lemma swap16_rev l : length l = 2%nat -> bytes_ok l -> swap16 (le_value l) = le_value (rev l).
Proof.
  intros Hl Ho. destruct l as [| a [| b [|]]]; try done. inversion_clear Ho as [| ? ? Ha Hb']. inversion_clear Hb' as [| ? ? Hb _].
  assert (E : swap16 (le_value [a; b]) = wrapu (2 * 8) ((a .<< 8) .| b)).
  { unfold swap16. change (2 * 8) with 16.
    destruct (le_halves 8 [a] [b]) as [E1 E2]; [lia | done | auto_bytes |]. cbn [app] in E1, E2.
    change (le_value [a]) with (a + 2 ^ 8 * 0) in E1. change (le_value [b]) with (b + 2 ^ 8 * 0) in E2.
    rewrite Z.mul_0_r, Z.add_0_r in E1, E2. rewrite E2. set (x := le_value [a; b]) in *. rewrite <- E1. bitwise. }
  rewrite E. apply (swap_halves 8 [a] [b]); cbn [length rev app le_value]; try lia; auto_bytes.
Qed.

(** One step of the swap: [f] swaps [w] bits. *)
Lemma swap_step w (f : Z -> Z) l1 l2 :
  0 < w -> 8 * Z.of_nat (length l1) = w -> length l2 = length l1 -> bytes_ok (l1 ++ l2) ->
  (forall l, length l = length l1 -> bytes_ok l -> f (le_value l) = le_value (rev l)) ->
  let x := le_value (l1 ++ l2) in
  wrapu (2 * w) ((f (wrapu w x) .<< w) .| f (wrapu w (x .>> w))) = le_value (rev (l1 ++ l2)).
Proof.
  intros Hw H1 H2 [Ho1 Ho2]%Forall_app Hf x.
  destruct (le_halves w l1 l2) as [E1 E2]; [lia | done | done |].
  apply swap_halves; try done; [lia | lia | |].
  - subst x. rewrite E1. apply Hf; done.
  - subst x. rewrite E2, wrapu_id.
    + apply Hf; done.
    + pose proof (le_value_range l2 Ho2) as R. rewrite H2, H1 in R. exact R.
Qed.

Lemma swap32_rev l : length l = 4%nat -> bytes_ok l -> swap32 (le_value l) = le_value (rev l).
Proof.
  intros Hl Ho. destruct l as [| a [| b [| c [| d [|]]]]]; try done.
  apply (swap_step 16 swap16 [a; b] [c; d]); try done. intros l' Hl'. apply swap16_rev, Hl'.
Qed.

Lemma swap64_rev l : length l = 8%nat -> bytes_ok l -> swap64 (le_value l) = le_value (rev l).
Proof.
  intros Hl Ho. destruct l as [| a [| b [| c [| d [| a' [| b' [| c' [| d' [|]]]]]]]]]; try done.
  apply (swap_step 32 swap32 [a; b; c; d] [a'; b'; c'; d']); try done. intros l' Hl'. apply swap32_rev, Hl'.
Qed.

(** A stored integer has its bytes in the opposite order. *)
Lemma swapped_bytes n (f : Z -> Z) v :
  (forall l, length l = n -> bytes_ok l -> f (le_value l) = le_value (rev l)) ->
  inu (8 * Z.of_nat n) v -> le_bytes n (f v) = rev (le_bytes n v).
Proof.
  intros Hf Hv. rewrite <- (le_value_bytes n v) at 1 by done.
  rewrite Hf by (apply length_le_bytes || apply le_bytes_ok).
  rewrite <- (length_le_bytes n v) at 1. rewrite <- length_rev.
  apply le_bytes_value, Forall_rev, le_bytes_ok.
Qed.

(** ** Loads after stores *)

Lemma GetPointer_eq m a :
  GetPointer m a =
    let x := a mod 2 ^ 30 in
    if x <? REALRAM_SIZE then Some (RAM, x)
    else match m_pEXRAM m with
         | Some _ => if (0x10000000 <=? x) && (x <? 0x14000000) then Some (EXRAM, x - 0x10000000) else None
         | None => None
         end.
Proof.
  unfold GetPointer. change 0x3FFFFFFF with (Z.ones 30). rewrite Z.land_ones by lia. cbv zeta.
  pose proof (Z.mod_pos_bound a (2 ^ 30)) as Hx. set (x := a mod 2 ^ 30) in *. clearbody x.
  destruct (x <? REALRAM_SIZE); [done |]. destruct (m_pEXRAM m); [| done].
  change EXRAM_MASK with (Z.ones 26). change 0x0fffffff with (Z.ones 28).
  rewrite !Z.land_ones by lia. rewrite Z.shiftr_div_pow2 by lia. unfold EXRAM_SIZE.
  destruct (Z.leb_spec 0x10000000 x); cbn [andb].
  - destruct (Z.ltb_spec x 0x14000000).
    + replace (x / 2 ^ 28 =? 1) with true by (symmetry; apply Z.eqb_eq; Z.to_euclidean_division_equations; lia).
      replace (x mod 2 ^ 28 <? 0x4000000) with true by (symmetry; apply Z.ltb_lt; Z.to_euclidean_division_equations; lia).
      cbn [andb]. do 2 f_equal. Z.to_euclidean_division_equations. lia.
    + destruct (Z.eqb_spec (x / 2 ^ 28) 1); [| done]. cbn [andb].
      replace (x mod 2 ^ 28 <? 0x4000000) with false; [done |].
      symmetry. apply Z.ltb_ge. Z.to_euclidean_division_equations. lia.
  - replace (x / 2 ^ 28 =? 1) with false; [done |].
    symmetry. apply Z.eqb_neq. Z.to_euclidean_division_equations. lia.
Qed.

(** The pointer of a neighbouring address, as long as there is one. *)
Lemma GetPointer_next m a p i q :
  GetPointer m a = Some p -> 0 <= i < EXRAM_SIZE -> GetPointer m (a + i) = Some q -> q = (p.1, p.2 + i).
Proof.
  rewrite !GetPointer_eq. cbv zeta. unfold REALRAM_SIZE, EXRAM_SIZE. intros Ha Hi Hb.
  assert (E : (a + i) mod 2 ^ 30 = a mod 2 ^ 30 + i \/ 2 ^ 30 <= a mod 2 ^ 30 + i)
    by (Z.to_euclidean_division_equations; lia).
  pose proof (Z.mod_pos_bound a (2 ^ 30)).
  destruct (Z.ltb_spec (a mod 2 ^ 30) 0x1800000).
  - injection Ha as <-. cbn. destruct E as [E |]; [rewrite E in Hb | lia].
    destruct (Z.ltb_spec (a mod 2 ^ 30 + i) 0x1800000); [by injection Hb as <- |].
    destruct (m_pEXRAM m); [| done]. destruct (Z.leb_spec 0x10000000 (a mod 2 ^ 30 + i)); [lia | done].
  - destruct (m_pEXRAM m); [| done].
    destruct (Z.leb_spec 0x10000000 (a mod 2 ^ 30)); [| done].
    destruct (Z.ltb_spec (a mod 2 ^ 30) 0x14000000); [| done]. injection Ha as <-. cbn.
    destruct E as [E |]; [rewrite E in Hb | lia].
    destruct (Z.ltb_spec (a mod 2 ^ 30 + i) 0x1800000); [lia |].
    destruct (_ && _); [| done]. injection Hb as <-. f_equal. lia.
Qed.

(** Pointers that far apart in a region belong to addresses that far apart. *)
Lemma pointers_apart m a b p q i :
  GetPointer m a = Some p -> GetPointer m b = Some q -> q.1 = p.1 -> q.2 = p.2 + i -> 0 <= i < EXRAM_SIZE ->
  (b .& 0x3fffffff) = ((a + i) .& 0x3fffffff).
Proof.
  change 0x3fffffff with (Z.ones 30). rewrite !Z.land_ones, !GetPointer_eq by lia. cbv zeta.
  unfold REALRAM_SIZE, EXRAM_SIZE.
  pose proof (Z.mod_pos_bound a (2 ^ 30)). pose proof (Z.mod_pos_bound b (2 ^ 30)).
  rewrite <- (Zplus_mod_idemp_l a).
  set (x := a mod 2 ^ 30) in *. set (y := b mod 2 ^ 30) in *. intros Ha Hb Eb Eo Hi.
  assert (y = x + i /\ x + i < 2 ^ 30) as [-> ?]; [| rewrite Z.mod_small; lia].
  destruct (Z.ltb_spec x 0x1800000), (Z.ltb_spec y 0x1800000); destruct (m_pEXRAM m); try done;
    repeat match type of Ha with context [if ?c then _ else _] => destruct c eqn:? end; try done;
    repeat match type of Hb with context [if ?c then _ else _] => destruct c eqn:? end; try done;
    injection Ha as <-; injection Hb as <-; cbn in *; try done; lia.
Qed.

Lemma bank_bytes_set b b' x m :
  is_Some (bank_bytes b m) -> bank_bytes b' (set_bank_bytes b x m) = if decide (b' = b) then Some x else bank_bytes b' m.
Proof. intros [y Hy]. destruct b, b'; cbn in *; rewrite ?Hy; done. Qed.

Lemma store_u8_spec p v m m' :
  store_u8 p v m = Some m' ->
  (forall a, GetPointer m' a = GetPointer m a) /\
  (forall q, load_u8 m' q = if decide (q = p) then Some (u8 v) else load_u8 m q).
Proof.
  unfold store_u8. destruct (bank_bytes p.1 m) as [x |] eqn:Ex; [| done]. cbn.
  destruct (_ && _) eqn:Er; [| done]. intros [= <-]. split.
  - intros a. rewrite !GetPointer_eq. destruct p as [[] o]; cbn in *; rewrite ?Ex; done.
  - intros q. unfold load_u8. rewrite bank_bytes_set by eauto.
    destruct (decide (q = p)) as [-> | Hne].
    + rewrite decide_True by done. cbn. rewrite Er, mget_mset_same. done.
    + destruct (decide (q.1 = p.1)) as [E1 |]; [| done]. rewrite E1, Ex. cbn.
      rewrite mget_mset_other; [done |]. intros E2. apply Hne. destruct p, q; cbn in *; congruence.
Qed.

(** Byte [q] among the [n] bytes behind [p]. *)
Definition offset_in (p q : Bank * Z) (n : nat) : option nat :=
  if decide (q.1 = p.1 /\ p.2 <= q.2 < p.2 + Z.of_nat n) then Some (Z.to_nat (q.2 - p.2)) else None.

Lemma store_bytes_spec l p m m' :
  store_bytes p l m = Some m' ->
  (forall a, GetPointer m' a = GetPointer m a) /\
  (forall q, load_u8 m' q = match offset_in p q (length l) with
                            | Some k => u8 <$> (l !! k)
                            | None => load_u8 m q
                            end).
Proof.
  revert p m. induction l as [| v l IH]; intros p m; cbn [store_bytes].
  - intros [= ->]. split; [done |]. intros q. unfold offset_in. rewrite decide_False; [done |]. cbn. lia.
  - destruct (store_u8 p v m) as [m1 |] eqn:E1; [| done]. cbn. intros H.
    destruct (store_u8_spec _ _ _ _ E1) as [P1 L1]. destruct (IH _ _ H) as [P L]. split.
    + intros a. rewrite P. apply P1.
    + intros q. rewrite L, L1. clear. unfold offset_in. cbn [fst snd length].
      destruct (decide (q = p)) as [-> | Hne].
      * rewrite decide_False by (intros [_ ?]; lia). rewrite decide_True by (split; [done | lia]).
        rewrite Z.sub_diag. done.
      * destruct (decide (q.1 = p.1 /\ p.2 + 1 <= q.2 < p.2 + 1 + Z.of_nat (length l))) as [[? ?] | Hn].
        -- rewrite decide_True by (split; [done | lia]).
           replace (Z.to_nat (q.2 - p.2)) with (S (Z.to_nat (q.2 - (p.2 + 1)))) by lia. done.
        -- rewrite decide_False; [done |]. intros [E ?]. apply Hn. split; [done |].
           assert (q.2 <> p.2); [| lia]. intros E2. apply Hne. destruct p, q; cbn in *; congruence.
Qed.

Lemma load_bytes_all m p l :
  (forall k v, l !! k = Some v -> load_u8 m (p.1, p.2 + Z.of_nat k) = Some v) ->
  load_bytes m p (length l) = Some l.
Proof.
  revert p. induction l as [| v l IH]; intros p H; [done |]. cbn [load_bytes length].
  pose proof (H 0%nat v eq_refl) as H0. rewrite Z.add_0_r in H0. destruct p as [b o]. cbn [fst snd] in *. rewrite H0. cbn.
  rewrite IH; [done |]. intros k w Hk. cbn. replace (o + 1 + Z.of_nat k) with (o + Z.of_nat (S k)) by lia.
  apply H. done.
Qed.

Lemma load_stored_bytes p l m m' :
  bytes_ok l -> store_bytes p l m = Some m' -> load_bytes m' p (length l) = Some l.
Proof.
  intros Hl [_ L]%store_bytes_spec. apply load_bytes_all. intros k v Hk. rewrite L.
  pose proof (lookup_lt_Some _ _ _ Hk). unfold offset_in. cbn [fst snd].
  rewrite decide_True by (split; [done | lia]). replace (Z.to_nat (p.2 + Z.of_nat k - p.2)) with k by lia.
  rewrite Hk. cbn. f_equal. apply wrapu_id. eapply Forall_lookup_1 in Hl; eauto.
Qed.

(** ** Integers in memory *)

Definition accesses : list (nat * (Memmap -> Z -> option Z) * (Z -> Z -> Memmap -> option Memmap)) :=
  [(1%nat, Read_U8, Write_U8); (2%nat, Read_U16, Write_U16);
   (4%nat, Read_U32, Write_U32); (8%nat, Read_U64, Write_U64)].

(** The bytes of an integer, the most significant one first. *)
Definition be_bytes (n : nat) (v : Z) : list Z := rev (le_bytes n v).

Lemma be_bytes_ok n v : bytes_ok (be_bytes n v).
Proof. apply Forall_rev, le_bytes_ok. Qed.

Lemma length_be_bytes n v : length (be_bytes n v) = n.
Proof. unfold be_bytes. rewrite length_rev. apply length_le_bytes. Qed.

Lemma lookup_le_bytes n v k : (k < n)%nat -> le_bytes n v !! k = Some (u8 (v .>> (8 * Z.of_nat k))).
Proof.
  revert v k. induction n as [| n IH]; intros v [| k] Hk; [lia | lia | cbn; by rewrite Z.shiftr_0_r |].
  cbn [le_bytes]. change ((?x :: ?l) !! S k) with (l !! k). rewrite IH by lia.
  rewrite Z.shiftr_shiftr by lia. do 3 f_equal. lia.
Qed.

Lemma lookup_be_bytes n v k :
  (k < n)%nat -> be_bytes n v !! k = Some (u8 (v .>> (8 * (Z.of_nat n - 1 - Z.of_nat k)))).
Proof.
  intros Hk. unfold be_bytes. rewrite rev_alt. change (rev_append ?l []) with (reverse l).
  rewrite reverse_lookup by (rewrite length_le_bytes; lia). rewrite length_le_bytes, lookup_le_bytes by lia.
  do 3 f_equal. lia.
Qed.

(** A store writes the big-endian bytes, a load reads them. *)
Lemma store_is_bytes n rd wr v a m :
  In (n, rd, wr) accesses -> inu (8 * Z.of_nat n) v ->
  wr v a m = (p ← GetPointer m a; store_bytes p (be_bytes n v) m).
Proof.
  unfold be_bytes. intros Hin Hv. cbn in Hin. decompose [or] Hin; try done;
    match goal with H : (_, _) = (_, _) |- _ => injection H as <- <- <- end;
    unfold Write_U8, Write_U16, Write_U32, Write_U64; destruct (GetPointer m a) as [p |]; try done; cbn [mbind option_bind].
  - cbn [le_bytes rev app store_bytes]. rewrite wrapu_id by done. destruct (store_u8 p v m); done.
  - rewrite (swapped_bytes 2) by (apply swap16_rev || done). done.
  - rewrite (swapped_bytes 4) by (apply swap32_rev || done). done.
  - rewrite (swapped_bytes 8) by (apply swap64_rev || done). done.
Qed.

Lemma load_is_bytes n rd wr v a m p :
  In (n, rd, wr) accesses -> inu (8 * Z.of_nat n) v ->
  GetPointer m a = Some p -> load_bytes m p n = Some (be_bytes n v) -> rd m a = Some v.
Proof.
  intros Hin Hv Hp. pose proof (le_bytes_ok n v) as Ho. pose proof (be_bytes_ok n v) as Hb.
  pose proof (length_be_bytes n v) as Hl. intros H. cbn in Hin. decompose [or] Hin; try done;
    match goal with H : (_, _) = (_, _) |- _ => injection H as <- <- <- end;
    unfold Read_U8, Read_U16, Read_U32, Read_U64; rewrite Hp; cbn [mbind option_bind].
  - cbn [load_bytes] in H. destruct (load_u8 m p) as [x |]; [| done]. cbn in H. injection H as ->.
    f_equal. apply wrapu_id. done.
  - rewrite H. cbn [mbind option_bind]. rewrite swap16_rev by done. unfold be_bytes. rewrite rev_involutive, le_value_bytes; done.
  - rewrite H. cbn [mbind option_bind]. rewrite swap32_rev by done. unfold be_bytes. rewrite rev_involutive, le_value_bytes; done.
  - rewrite H. cbn [mbind option_bind]. rewrite swap64_rev by done. unfold be_bytes. rewrite rev_involutive, le_value_bytes; done.
Qed.

(** A store of one, two, four or eight bytes that does not fault is read
    back by the load of the same width; a byte load at the same address plus
    [i] sees the [i]-th most significant byte of the value; and a byte at any
    address that is not, up to the two address bits the memory ignores, one of
    those written keeps its value. *)
Theorem big_endian_memory n rd wr v a m m' :
  In (n, rd, wr) accesses -> inu (8 * Z.of_nat n) v -> wr v a m = Some m' ->
  rd m' a = Some v /\
  (forall i, 0 <= i < Z.of_nat n -> GetPointer m (a + i) <> None ->
     Read_U8 m' (a + i) = Some (u8 (v .>> (8 * (Z.of_nat n - 1 - i))))) /\
  (forall b, (forall i, 0 <= i < Z.of_nat n -> (b .& 0x3fffffff) <> ((a + i) .& 0x3fffffff)) ->
     Read_U8 m' b = Read_U8 m b).
Proof.
  intros Hin Hv H. rewrite (store_is_bytes _ _ _ _ _ _ Hin Hv) in H.
  destruct (GetPointer m a) as [p |] eqn:Hp; [| done]. cbn [mbind option_bind] in H.
  destruct (store_bytes_spec _ _ _ _ H) as [P L]. rewrite length_be_bytes in L.
  assert (Hn : Z.of_nat n < EXRAM_SIZE).
  { cbn in Hin. decompose [or] Hin; try done;
      match goal with E : (_, _) = (_, _) |- _ => injection E as <- _ _ end; done. }
  split_and!.
  - eapply load_is_bytes; [done | done | rewrite P; done |].
    rewrite <- (length_be_bytes n v) at 1. apply (load_stored_bytes p _ m); [apply be_bytes_ok | done].
  - intros i Hi Hq. unfold Read_U8. rewrite P.
    destruct (GetPointer m (a + i)) as [q |] eqn:Eq; [| done]. cbn [mbind option_bind].
    rewrite (GetPointer_next m a p i q) by (done || lia). rewrite L. unfold offset_in. cbn [fst snd].
    rewrite decide_True by (split; [done | lia]).
    replace (Z.to_nat (p.2 + i - p.2)) with (Z.to_nat i) by lia.
    rewrite lookup_be_bytes by lia. cbn. rewrite wrapu_idem by lia. do 4 f_equal. lia.
  - intros b Hb. unfold Read_U8. rewrite P. destruct (GetPointer m b) as [q |] eqn:Eq; [| done].
    cbn [mbind option_bind]. rewrite L. unfold offset_in.
    destruct (decide (q.1 = p.1 /\ p.2 <= q.2 < p.2 + Z.of_nat n)) as [[E1 E2] |]; [| done].
    destruct (Hb (q.2 - p.2)); [lia |]. apply (pointers_apart _ _ _ _ _ _ Hp Eq); (done || lia).
Qed.

Definition fresh_ram : Memmap := Init false true.

Lemma big_endian_memory_witness :
  exists m', Write_U32 0x12345678 0x80001000 fresh_ram = Some m' /\
    Read_U32 m' 0x80001000 = Some 0x12345678 /\
    Read_U8 m' (0x80001000 + 1) = Some 0x34 /\ Read_U8 m' 0x1004 = Read_U8 fresh_ram 0x1004.
Proof.
  eexists. split; [reflexivity |].
  match goal with |- Read_U32 ?m' _ = _ /\ _ =>
    destruct (big_endian_memory 4 Read_U32 Write_U32 0x12345678 0x80001000 fresh_ram m') as (R & B & U) end.
  - do 2 right. left. reflexivity.
  - unfold inu. lia.
  - reflexivity.
  - split; [exact R | split; [apply (B 1); [lia | discriminate] | apply U]].
    intros i Hi. change 0x3fffffff with (Z.ones 30). rewrite !Z.land_ones by lia.
    Z.to_euclidean_division_equations. lia.
Defined.

(** ** Ranges *)

(** Every address of an accepted range has a pointer, in the same region. *)
Lemma GetPointerForRange_spec m a n p :
  GetPointerForRange m a n = Some p -> 0 < n ->
  forall i, 0 <= i < n -> GetPointer m (a + i) = Some (p.1, p.2 + i) /\ 0 <= p.2 + i < bank_size p.1.
Proof.
  unfold GetPointerForRange. destruct (Z.leb_spec EXRAM_SIZE n) as [| Hn]; [done |].
  destruct (GetPointer m a) as [p' |] eqn:Ea; [| done].
  destruct (GetPointer m (u32 (a + n - 1))) as [q |] eqn:Eq; [| done]. intros [= ->] Hpos i Hi.
  revert Ea Eq. rewrite !GetPointer_eq. cbv zeta. rewrite (wrapu_mod_le 30 32) by lia.
  unfold REALRAM_SIZE, EXRAM_SIZE in *.
  pose proof (Z.mod_pos_bound a (2 ^ 30)).
  rewrite <- (Zplus_mod_idemp_l a i). replace (a + n - 1) with (a + (n - 1)) by lia.
  rewrite <- (Zplus_mod_idemp_l a (n - 1)). set (x := a mod 2 ^ 30) in *.
  destruct (Z.ltb_spec x 0x1800000) as [Hx | Hx].
  - intros [= <-]. rewrite (Z.mod_small (x + (n - 1))), (Z.mod_small (x + i)) by lia. cbn [fst snd].
    destruct (Z.ltb_spec (x + (n - 1)) 0x1800000).
    + intros _. destruct (Z.ltb_spec (x + i) 0x1800000); [| lia].
      split; [done |]. change (bank_size RAM) with 0x2000000. lia.
    + destruct (m_pEXRAM m); [| done]. destruct (Z.leb_spec 0x10000000 (x + (n - 1))); [lia | done].
  - destruct (m_pEXRAM m); [| done].
    destruct (Z.leb_spec 0x10000000 x); [| done]. destruct (Z.ltb_spec x 0x14000000); [| done].
    intros [= <-]. rewrite (Z.mod_small (x + (n - 1))), (Z.mod_small (x + i)) by lia. cbn [fst snd].
    destruct (Z.ltb_spec (x + (n - 1)) 0x1800000); [lia |].
    destruct (Z.leb_spec 0x10000000 (x + (n - 1))); [| done].
    destruct (Z.ltb_spec (x + (n - 1)) 0x14000000); [| done]. intros _.
    destruct (Z.ltb_spec (x + i) 0x1800000); [lia |].
    destruct (Z.leb_spec 0x10000000 (x + i)); [| lia]. destruct (Z.ltb_spec (x + i) 0x14000000); [| lia].
    split; [do 2 f_equal; lia |]. change (bank_size EXRAM) with 0x4000000. lia.
Qed.

Lemma load_u8_mapped m a p :
  GetPointer m a = Some p -> 0 <= p.2 < bank_size p.1 -> is_Some (load_u8 m p).
Proof.
  rewrite GetPointer_eq. cbv zeta. intros Hp Hb. unfold load_u8.
  assert (is_Some (bank_bytes p.1 m)) as [x ->].
  { destruct (_ <? _); [by injection Hp as <-; eauto |].
    destruct (m_pEXRAM m) eqn:E; [| done]. destruct (_ && _); [| done]. injection Hp as <-. cbn. rewrite E. eauto. }
  cbn. replace (0 <=? p.2) with true by (symmetry; apply Z.leb_le; lia).
  replace (p.2 <? bank_size p.1) with true by (symmetry; apply Z.ltb_lt; lia). eauto.
Qed.

(** A copy out of an accepted range does not fault and copies what byte loads
    would return. *)
Lemma CopyFromEmu_reads m data a n p :
  GetPointerForRange m a n = Some p -> 0 < n ->
  exists l, CopyFromEmu m data a n = Some (l ++ drop (Z.to_nat n) data) /\ load_bytes m p (Z.to_nat n) = Some l /\
    length l = Z.to_nat n /\ forall i, 0 <= i < n -> Read_U8 m (a + i) = l !! Z.to_nat i.
Proof.
  intros Hp Hn. pose proof (GetPointerForRange_spec _ _ _ _ Hp Hn) as Hr.
  set (l := (fun k => default 0 (load_u8 m (p.1, p.2 + Z.of_nat k))) <$> seq 0 (Z.to_nat n)).
  assert (Hl : length l = Z.to_nat n) by (unfold l; rewrite length_fmap, length_seq; done).
  assert (Hload : forall i, 0 <= i < n -> load_u8 m (p.1, p.2 + i) = l !! Z.to_nat i).
  { intros i Hi. destruct (Hr i Hi) as [G B]. destruct (load_u8_mapped _ _ _ G B) as [v Hv].
    unfold l. rewrite list_lookup_fmap, lookup_seq_lt by lia. cbn. rewrite Z2Nat.id by lia. rewrite Hv. done. }
  exists l. unfold CopyFromEmu. rewrite Hp. destruct (Z.eqb_spec n 0); [lia |].
  rewrite <- Hl at 1 3. rewrite (load_bytes_all m p l).
  - cbn. split_and!; try done. intros i Hi. unfold Read_U8. destruct (Hr i Hi) as [G B].
    rewrite G. cbn [mbind option_bind]. apply Hload. done.
  - intros k v Hk. pose proof (lookup_lt_Some _ _ _ Hk). rewrite Hload by lia. rewrite Nat2Z.id. done.
Qed.
