(* ===== verification/PpcCache.v ===== *)
(** The processor's instruction cache ([Core/PowerPC/PPCCache.cpp], [PPCCache.h]):
    128 sets of eight ways, a tree of seven bits per set for the pseudo-LRU
    replacement, and tables from line numbers to ways that replace the
    comparison of tags. The theorems say that these structures together
    implement a partial map from lines to their bytes, that the cache returns
    what memory holds as long as it is coherent, and that the three ways used
    last are never replaced. *)

From S2P Require Import Prelude Memmap.
Open Scope Z_scope.

(** ** State *)

Definition ICACHE_EXRAM_BIT : Z := 0x10000000.
Definition ICACHE_VMEM_BIT : Z := 0x20000000.

(** The three lookup tables. *)
Inductive Table := Main | Ex | Vmem.
#[export] Instance table_eq_dec : EqDecision Table.
Proof. solve_decision. Defined.
#[export] Instance table_countable : Countable Table.
Proof.
  refine (inj_countable' (fun t => match t with Main => 0 | Ex => 1 | Vmem => 2 end)
    (fun n => match n with 0 => Main | 1 => Ex | _ => Vmem end) _). by intros [].
Defined.

(** The bytes of a line are as they lie in memory. [data], [tags], [plru] and
    [valid] are zero where nothing was stored; the entries of the three lookup
    tables, here one map, are 0xff, as [Reset] leaves them. *)
Record InstructionCache := mk_icache {
  data : gmap (Z * Z) (list Z);
  tags : gmap (Z * Z) Z;
  plru : gmap Z Z;
  valid : gmap Z Z;
  lookup_tables : gmap (Table * Z) Z
}.

Definition s_plru_mask : list Z := [11; 11; 19; 19; 37; 37; 69; 69].
Definition s_plru_value : list Z := [11; 3; 17; 1; 36; 4; 64; 0].

(** The tables the constructor fills: [way_from_valid] is the first way that is
    not valid (the array has no entry for 0xff), [way_from_plru] walks the tree. *)
Fixpoint first_clear (fuel : nat) (m w : Z) : Z :=
  match fuel with
  | O => w
  | S fuel' => if flag m (1 .<< w) then first_clear fuel' m (w + 1) else w
  end.
Definition way_from_valid (m : Z) : option Z :=
  if (0 <=? m) && (m <? 255) then Some (first_clear 8 m 0) else None.

Definition way_from_plru (m : Z) : option Z :=
  if (0 <=? m) && (m <? 128) then
    let b i := flag m (1 .<< i) in
    Some (if b 0
          then if b 2 then if b 6 then 7 else 6 else if b 5 then 5 else 4
          else if b 1 then if b 4 then 3 else 2 else if b 3 then 1 else 0)
  else None.

(** ** Parts of an address *)

Definition table_of_addr (addr : Z) : Table :=
  if flag addr ICACHE_VMEM_BIT then Vmem else if flag addr ICACHE_EXRAM_BIT then Ex else Main.
Definition table_of_tag (tag : Z) : Table :=
  if flag tag (ICACHE_VMEM_BIT .>> 12) then Vmem
  else if flag tag (ICACHE_EXRAM_BIT .>> 12) then Ex else Main.
Definition table_mask (t : Table) : Z := match t with Ex => 0x1fffff | _ => 0xfffff end.

(** The entry of a lookup table for an address, and for a tag in a set. *)
Definition key_of (addr : Z) : Table * Z :=
  let t := table_of_addr addr in (t, (addr .>> 5) .& table_mask t).
Definition key_of_tag (tag set : Z) : Table * Z :=
  let t := table_of_tag tag in (t, ((tag .<< 7) .| set) .& table_mask t).

Definition lookup_way (c : InstructionCache) (k : Table * Z) : Z := default 0xff (lookup_tables c !! k).
Definition line (c : InstructionCache) (set t : Z) : list Z :=
  default (replicate 32 0) (data c !! (set, t)).

(** ** Operations *)

Definition Reset (c : InstructionCache) : InstructionCache := mk_icache (data c) (tags c) ∅ ∅ ∅.
Definition Init : InstructionCache := Reset (mk_icache ∅ ∅ ∅ ∅ ∅).

(** Bits of HID0. *)
Definition HID0_ICE : Z := 0x8000.
Definition HID0_ILOCK : Z := 0x2000.

Definition set_lookup (k : Table * Z) (w : Z) (c : InstructionCache) : InstructionCache :=
  mk_icache (data c) (tags c) (plru c) (valid c) (<[k := w]> (lookup_tables c)).

(** The body of the loop of [Invalidate], and the eviction of [ReadInstruction]. *)
Definition forget_way (set i : Z) (c : InstructionCache) : InstructionCache :=
  if flag (mget (valid c) set) (1 .<< i)
  then set_lookup (key_of_tag (mget (tags c) (set, i)) set) 0xff c else c.

Definition Invalidate (hid0 addr : Z) (c : InstructionCache) : InstructionCache :=
  if negb (flag hid0 HID0_ICE) then c
  else
    let set := (addr .>> 5) .& 0x7f in
    let c := fold_left (fun c i => forget_way set i c) [0; 1; 2; 3; 4; 5; 6; 7] c in
    mk_icache (data c) (tags c) (plru c) (mset (valid c) set 0) (lookup_tables c).

(** The loaded line replaces the way's old one. *)
Definition install (addr t : Z) (bytes : list Z) (c : InstructionCache) : InstructionCache :=
  let set := (addr .>> 5) .& 0x7f in
  let c := mk_icache (<[(set, t) := bytes]> (data c)) (tags c) (plru c) (valid c) (lookup_tables c) in
  let c := set_lookup (key_of addr) t (forget_way set t c) in
  mk_icache (data c) (mset (tags c) (set, t) (addr .>> 12)) (plru c)
    (mset (valid c) set (mget (valid c) set .| (1 .<< t))) (lookup_tables c).

(** [Common::swap32(data[set][t][(addr >> 2) & 7])] *)
Definition word_at (addr : Z) (bytes : list Z) : Z :=
  swap32 (le_value (take 4 (drop (Z.to_nat (4 * ((addr .>> 2) .& 7))) bytes))).

(** [plru[set] = (plru[set] & ~s_plru_mask[t]) | s_plru_value[t]] *)
Definition touch (t b : Z) : option Z :=
  m ← s_plru_mask !! Z.to_nat t;
  v ← s_plru_value !! Z.to_nat t;
  Some ((b .& .~ m) .| v).

(** The end of [ReadInstruction]. *)
Definition read_way (addr t : Z) (c : InstructionCache) : option (Z * InstructionCache) :=
  let set := (addr .>> 5) .& 0x7f in
  b ← touch t (mget (plru c) set);
  let c := mk_icache (data c) (tags c) (mset (plru c) set b) (valid c) (lookup_tables c) in
  Some (word_at addr (line c set t), c).

(** [None] is a fault: a null pointer or an index outside an array. *)
Definition ReadInstruction (hid0 : Z) (mem : Memmap) (addr : Z) (c : InstructionCache)
  : option (Z * InstructionCache) :=
  if negb (flag hid0 HID0_ICE) then res ← Read_U32 mem addr; Some (res, c)
  else
    let set := (addr .>> 5) .& 0x7f in
    let t := lookup_way c (key_of addr) in
    if t =? 0xff then
      if flag hid0 HID0_ILOCK then res ← Read_U32 mem addr; Some (res, c)
      else
        t ← (if negb (mget (valid c) set =? 0xff) then way_from_valid (mget (valid c) set)
             else way_from_plru (mget (plru c) set));
        bytes ← CopyFromEmu mem (line c set t) (addr .& .~ 0x1f) 32;
        read_way addr t (install addr t bytes c)
    else read_way addr t c.

(** ** Invariant *)

(** The set of a table entry. *)
Definition set_of (k : Table * Z) : Z := k.2 .& 0x7f.

Definition line_ok (l : list Z) : Prop := length l = 32%nat.

(** Entries and valid ways correspond. *)
Record wf (c : InstructionCache) : Prop := {
  wf_lines : forall set t, line_ok (line c set t);
  wf_tags : mem_ok 20 (tags c);
  wf_plru : mem_ok 7 (plru c);
  wf_valid : mem_ok 8 (valid c);
  wf_entry : forall k, lookup_way c k <> 0xff ->
    0 <= lookup_way c k < 8 /\ Z.testbit (mget (valid c) (set_of k)) (lookup_way c k) = true /\
    key_of_tag (mget (tags c) (set_of k, lookup_way c k)) (set_of k) = k;
  wf_way : forall set t, 0 <= set < 128 -> 0 <= t < 8 -> Z.testbit (mget (valid c) set) t = true ->
    lookup_way c (key_of_tag (mget (tags c) (set, t)) set) = t
}.

(** The map from lines to bytes that the cache stands for. *)
Definition view (c : InstructionCache) (k : Table * Z) : option (list Z) :=
  let t := lookup_way c k in if t =? 0xff then None else Some (line c (set_of k) t).

(** ** Keys *)

Lemma flag_shift a b n k : 0 <= n -> 0 <= k -> b = 2 ^ (n + k) -> flag (a .>> n) (b .>> n) = flag a b.
Proof.
  intros Hn Hk ->. replace (2 ^ (n + k) .>> n) with (2 ^ k).
  - rewrite !flag_testbit, testbit_shiftr' by lia. destruct (Z.leb_spec 0 k); [| lia]. cbn. f_equal. lia.
  - rewrite Z.shiftr_div_pow2, Z.add_comm, Z.pow_add_r, Z.div_mul by lia. done.
Qed.

Lemma key_of_tag_addr addr : inu 32 addr -> key_of_tag (addr .>> 12) ((addr .>> 5) .& 0x7f) = key_of addr.
Proof.
  intros Ha. unfold key_of_tag, key_of.
  assert (table_of_tag (addr .>> 12) = table_of_addr addr) as ->.
  { unfold table_of_tag, table_of_addr.
    rewrite (flag_shift addr ICACHE_VMEM_BIT 12 17), (flag_shift addr ICACHE_EXRAM_BIT 12 16) by (lia || reflexivity). done. }
  f_equal. f_equal. change 0x7f with (Z.ones 7). apply Z.bits_inj'. intros i Hi.
  rewrite Z.lor_spec, Z.land_spec, testbit_shiftl', !testbit_shiftr', Z.testbit_ones_nonneg by lia.
  destruct (Z.leb_spec 0 i); [| lia]. cbn [andb]. destruct (Z.leb_spec 0 (i - 7)), (Z.ltb_spec i 7); try lia; cbn [andb].
  - rewrite andb_false_r, orb_false_r. f_equal. lia.
  - rewrite andb_true_r. done.
Qed.

Lemma set_of_tag tag set : 0 <= set < 128 -> set_of (key_of_tag tag set) = set.
Proof.
  intros Hs. unfold set_of, key_of_tag. cbn [snd]. rewrite <- Z.land_assoc.
  replace (table_mask (table_of_tag tag) .& 0x7f) with 0x7f by (destruct (table_of_tag tag); done).
  rewrite lor_shift_add by lia. change 0x7f with (Z.ones 7). rewrite Z.land_ones by lia.
  rewrite Z.add_comm, Z_mod_plus_full, Z.mod_small; lia.
Qed.

Lemma set_of_addr addr : set_of (key_of addr) = (addr .>> 5) .& 0x7f.
Proof.
  unfold set_of, key_of. cbn [snd]. rewrite <- Z.land_assoc. f_equal. destruct (table_of_addr addr); done.
Qed.

Lemma set_range x : 0 <= (x .& 0x7f) < 128.
Proof. change 0x7f with (Z.ones 7). rewrite Z.land_ones by lia. apply Z.mod_pos_bound. lia. Qed.

(** ** Choosing a way *)

Lemma by_cases (P : Z -> bool) (n : nat) :
  forallb P (Z.of_nat <$> seq 0 n) = true -> forall x, 0 <= x < Z.of_nat n -> P x = true.
Proof.
  intros H x Hx. rewrite forallb_forall in H. apply H, list_elem_of_In, list_elem_of_fmap.
  exists (Z.to_nat x). rewrite Z2Nat.id by lia. split; [done |]. apply elem_of_seq. lia.
Qed.

Lemma way_from_valid_spec m :
  0 <= m < 255 -> exists t, way_from_valid m = Some t /\ 0 <= t < 8 /\ Z.testbit m t = false.
Proof.
  intros Hm.
  pose proof (by_cases (fun m => match way_from_valid m with
                                 | Some t => (0 <=? t) && (t <? 8) && negb (Z.testbit m t)
                                 | None => false end) 255 ltac:(vm_compute; reflexivity) m Hm) as H.
  cbv beta in H. destruct (way_from_valid m) as [t |]; [| done]. exists t.
  apply andb_prop in H as [[?%Z.leb_le ?%Z.ltb_lt]%andb_prop ?%negb_true_iff]. split_and!; done || lia.
Qed.

Lemma way_from_plru_spec b : 0 <= b < 128 -> exists t, way_from_plru b = Some t /\ 0 <= t < 8.
Proof.
  intros Hb.
  pose proof (by_cases (fun b => match way_from_plru b with
                                 | Some t => (0 <=? t) && (t <? 8) | None => false end)
                128 ltac:(vm_compute; reflexivity) b Hb) as H.
  cbv beta in H. destruct (way_from_plru b) as [t |]; [| done]. exists t.
  apply andb_prop in H as [?%Z.leb_le ?%Z.ltb_lt]. split; [done | lia].
Qed.

(** ** Forgetting ways *)

Lemma lookup_set_lookup c k w k' :
  lookup_way (set_lookup k w c) k' = if decide (k' = k) then w else lookup_way c k'.
Proof.
  unfold lookup_way, set_lookup. cbn. destruct (decide (k' = k)) as [-> |].
  - rewrite lookup_insert_eq. done.
  - rewrite lookup_insert_ne by done. done.
Qed.

Lemma forget_way_fields set i c :
  let c' := forget_way set i c in
  data c' = data c /\ tags c' = tags c /\ plru c' = plru c /\ valid c' = valid c.
Proof. unfold forget_way. destruct (flag _ _); done. Qed.

(** Forgetting ways of a set removes the entries that lead to them. *)
Lemma lookup_forget_ways c set l c' k :
  wf c -> 0 <= set < 128 -> Forall (fun i => 0 <= i < 8) l -> tags c' = tags c -> valid c' = valid c ->
  lookup_way (fold_left (fun c i => forget_way set i c) l c') k =
    if decide (set_of k = set /\ lookup_way c k ∈ l) then 0xff else lookup_way c' k.
Proof.
  intros Hc Hset Hl. revert c'. induction Hl as [| i l Hi _ IH]; intros c' Ht Hv; cbn [fold_left].
  - rewrite decide_False; [done |]. intros [_ H]. by apply not_elem_of_nil in H.
  - destruct (forget_way_fields set i c') as (_ & Ht' & _ & Hv').
    rewrite IH by congruence. unfold forget_way. rewrite Hv, Ht, flag_pow2 by lia.
    destruct (Z.testbit (mget (valid c) set) i) eqn:Eb.
    + pose proof (wf_way c Hc set i Hset Hi Eb) as Hway.
      pose proof (set_of_tag (mget (tags c) (set, i)) set Hset) as Hs. rewrite lookup_set_lookup.
      set (k0 := key_of_tag _ _) in *. destruct (decide (set_of k = set /\ lookup_way c k ∈ i :: l)) as [[E1 E2] | N].
      * destruct (decide (set_of k = set /\ lookup_way c k ∈ l)) as [| N']; [done |].
        rewrite decide_True; [done |]. apply elem_of_cons in E2 as [E2 |]; [| by destruct N'].
        destruct (wf_entry c Hc k) as (_ & _ & E3); [lia |]. rewrite E1, E2 in E3. done.
      * rewrite !decide_False; [done | |].
        -- intros ->. apply N. split; [done |]. rewrite Hway. left.
        -- intros [? ?]. apply N. split; [done |]. right. done.
    + destruct (decide (set_of k = set /\ lookup_way c k ∈ i :: l)) as [[E1 E2] | N].
      * rewrite decide_True; [done |]. split; [done |]. apply elem_of_cons in E2 as [E2 |]; [| done].
        destruct (wf_entry c Hc k) as (_ & E3 & _); [lia |]. congruence.
      * rewrite decide_False; [done |]. intros [? ?]. apply N. split; [done |]. right. done.
Qed.

Lemma lookup_range c k : wf c -> lookup_way c k = 0xff \/ 0 <= lookup_way c k < 8.
Proof.
  intros Hc. destruct (decide (lookup_way c k = 0xff)) as [| N]; [auto |]. right. by apply (wf_entry c Hc k).
Qed.

(** ** Installing a line *)

Section Install.
Variables (addr t : Z) (bytes : list Z) (c : InstructionCache).
Hypothesis Hc : wf c.
Hypothesis Haddr : inu 32 addr.
Hypothesis Ht : 0 <= t < 8.
Hypothesis Hmiss : lookup_way c (key_of addr) = 0xff.
Hypothesis Hbytes : line_ok bytes.
Let set := (addr .>> 5) .& 0x7f.
Let c1 := mk_icache (<[(set, t) := bytes]> (data c)) (tags c) (plru c) (valid c) (lookup_tables c).

Lemma lookup_install k :
  lookup_way (install addr t bytes c) k =
    if decide (k = key_of addr) then t
    else if decide (set_of k = set /\ lookup_way c k = t) then 0xff else lookup_way c k.
Proof.
  unfold install. fold set. fold c1. unfold lookup_way at 1. cbn [lookup_tables].
  change (default 255 (lookup_tables (set_lookup (key_of addr) t (forget_way set t c1)) !! k))
    with (lookup_way (set_lookup (key_of addr) t (forget_way set t c1)) k).
  rewrite lookup_set_lookup. destruct (decide (k = key_of addr)); [done |].
  pose proof (lookup_forget_ways c set [t] c1 k Hc (set_range _)) as H. cbn [fold_left] in H.
  rewrite H by (done || (apply Forall_singleton; done)).
  apply decide_ext. rewrite list_elem_of_singleton. done.
Qed.

Lemma install_fields :
  let c' := install addr t bytes c in
  data c' = <[(set, t) := bytes]> (data c) /\ tags c' = mset (tags c) (set, t) (addr .>> 12) /\
  plru c' = plru c /\ valid c' = mset (valid c) set (mget (valid c) set .| (1 .<< t)).
Proof.
  unfold install. cbv zeta. fold set. fold c1.
  destruct (forget_way_fields set t c1) as (E1 & E2 & E3 & E4).
  cbn [data tags plru valid set_lookup]. rewrite E1, E2, E3, E4. done.
Qed.

Lemma line_install s w :
  line (install addr t bytes c) s w = if decide ((s, w) = (set, t)) then bytes else line c s w.
Proof.
  unfold line. destruct install_fields as (-> & _). destruct (decide ((s, w) = (set, t))) as [-> |].
  - rewrite lookup_insert_eq. done.
  - rewrite lookup_insert_ne by done. done.
Qed.

Lemma valid_install s w :
  0 <= w -> Z.testbit (mget (valid (install addr t bytes c)) s) w =
    Z.testbit (mget (valid c) s) w || bool_decide ((s, w) = (set, t)).
Proof.
  intros Hw. destruct install_fields as (_ & _ & _ & ->). destruct (decide (s = set)) as [-> | N].
  - rewrite mget_mset_same, Z.lor_spec. f_equal. rewrite Z.shiftl_mul_pow2, Z.mul_1_l by lia.
    rewrite Z.pow2_bits_eqb by lia. apply eq_true_iff_eq. rewrite Z.eqb_eq, bool_decide_eq_true.
    split; [by intros -> | by intros [= ->]].
  - rewrite mget_mset_other by done. rewrite bool_decide_eq_false_2 by congruence. rewrite orb_false_r. done.
Qed.

Lemma tag_install s w :
  mget (tags (install addr t bytes c)) (s, w) =
    if decide ((s, w) = (set, t)) then addr .>> 12 else mget (tags c) (s, w).
Proof.
  destruct install_fields as (_ & -> & _). destruct (decide ((s, w) = (set, t))) as [-> |].
  - apply mget_mset_same.
  - apply mget_mset_other. done.
Qed.

Lemma wf_install : wf (install addr t bytes c).
Proof.
  assert (Hset : 0 <= set < 128) by apply set_range. constructor.
  - intros s w. rewrite line_install. destruct (decide _); [done | apply (wf_lines c Hc)].
  - destruct install_fields as (_ & -> & _). apply mem_ok_mset; [apply (wf_tags c Hc) |].
    unfold inu in *. rewrite Z.shiftr_div_pow2 by lia. Z.to_euclidean_division_equations. lia.
  - destruct install_fields as (_ & _ & -> & _). apply (wf_plru c Hc).
  - destruct install_fields as (_ & _ & _ & ->). apply mem_ok_mset; [apply (wf_valid c Hc) |].
    pose proof (mem_ok_mget 8 _ set ltac:(lia) (wf_valid c Hc)) as Hv.
    apply inu_testbit; [lia |]. intros i Hi. rewrite Z.lor_spec, (testbit_inu_high 8 _ i) by (done || lia).
    rewrite testbit_shiftl'. change 1 with (2 ^ 0). rewrite Z.pow2_bits_false by lia. apply andb_false_r.
  - intros k. rewrite lookup_install. destruct (decide (k = key_of addr)) as [-> | N].
    + intros _. rewrite set_of_addr. fold set. rewrite valid_install, tag_install by lia.
      rewrite bool_decide_eq_true_2, orb_true_r, decide_True by done.
      split; [lia | split; [done | apply key_of_tag_addr; done]].
    + destruct (decide (set_of k = set /\ lookup_way c k = t)) as [| N']; [done |]. intros Hk.
      destruct (wf_entry c Hc k Hk) as (E1 & E2 & E3). rewrite valid_install, tag_install by lia.
      rewrite decide_False by (intros [= ? ?]; tauto). rewrite E2. done.
  - intros s w Hs Hw. rewrite valid_install, tag_install, lookup_install by lia.
    destruct (decide ((s, w) = (set, t))) as [[= -> ->] | N].
    + intros _. rewrite key_of_tag_addr by done. rewrite decide_True by done. done.
    + rewrite bool_decide_eq_false_2, orb_false_r by done. intros Hb.
      pose proof (wf_way c Hc s w Hs Hw Hb) as E. pose proof (set_of_tag (mget (tags c) (s, w)) s Hs) as Es.
      rewrite decide_False by (intros E'; rewrite E' in E; lia).
      rewrite decide_False; [done |]. rewrite E, Es. intros [-> ->]. done.
Qed.

(** The new line is there, the line it replaces is not, nothing else changes. *)
Lemma view_install k :
  view (install addr t bytes c) k =
    if decide (k = key_of addr) then Some bytes
    else if decide (set_of k = set /\ lookup_way c k = t) then None else view c k.
Proof.
  unfold view. rewrite lookup_install. destruct (decide (k = key_of addr)) as [-> | N].
  - destruct (Z.eqb_spec t 0xff); [lia |]. rewrite set_of_addr, line_install, decide_True by done. done.
  - destruct (decide _) as [| N']; [done |]. destruct (_ =? 0xff); [done |].
    rewrite line_install, decide_False; [done |]. intros [= ? ?]. tauto.
Qed.

End Install.

(** ** Reading through the cache *)

(** The line of an address in memory. *)
Definition line_base (a : Z) : Z := a .& .~ 0x1f.
Definition in_memory (mem : Memmap) (a : Z) : Prop := is_Some (GetPointerForRange mem (line_base a) 32).
Definition memory_line (mem : Memmap) (a : Z) (l : list Z) : Prop :=
  length l = 32%nat /\ forall i, 0 <= i < 32 -> Read_U8 mem (line_base a + i) = l !! Z.to_nat i.

Lemma line_base_eq a : line_base a = a - a mod 32.
Proof.
  unfold line_base. change 0x1f with (Z.ones 5). rewrite <- Z.ldiff_land, Z.ldiff_ones_r by lia.
  rewrite Z.shiftl_mul_pow2, Z.shiftr_div_pow2 by lia. change (2 ^ 5) with 32.
  pose proof (Z.div_mod a 32). lia.
Qed.

Lemma copy_line mem a old :
  in_memory mem a -> length old = 32%nat ->
  exists l, CopyFromEmu mem old (a .& .~ 0x1f) 32 = Some l /\ memory_line mem a l.
Proof.
  intros [p Hp] Ho. destruct (CopyFromEmu_reads mem old _ 32 p Hp) as (l & E & _ & Hl & Hr); [lia |].
  exists l. unfold line_base in *. rewrite E. rewrite drop_ge by (rewrite Ho; done). rewrite app_nil_r.
  split; [done | split; [exact Hl | exact Hr]].
Qed.

Lemma memory_line_unique mem a l l' : memory_line mem a l -> memory_line mem a l' -> l = l'.
Proof.
  intros [Hl H] [Hl' H']. apply list_eq. intros i. destruct (decide (i < 32)%nat).
  - specialize (H (Z.of_nat i) ltac:(lia)). specialize (H' (Z.of_nat i) ltac:(lia)).
    rewrite Nat2Z.id in *. congruence.
  - rewrite !lookup_ge_None_2 by lia. done.
Qed.

(** An aligned instruction of a line. *)
Lemma Read_U32_line mem a l :
  in_memory mem a -> memory_line mem a l -> a mod 4 = 0 -> Read_U32 mem a = Some (word_at a l).
Proof.
  intros [p Hp] [Hl Hr] Ha. unfold line_base in *. fold (line_base a) in *.
  pose proof (GetPointerForRange_spec _ _ _ _ Hp ltac:(lia)) as G.
  set (k := (a .>> 2) .& 7).
  assert (Hk : 0 <= k < 8) by (subst k; change 7 with (Z.ones 3); rewrite Z.land_ones by lia; apply Z.mod_pos_bound; lia).
  assert (Ek : a = line_base a + 4 * k).
  { rewrite line_base_eq. subst k. change 7 with (Z.ones 3). rewrite Z.land_ones, Z.shiftr_div_pow2 by lia.
    Z.to_euclidean_division_equations. lia. }
  unfold Read_U32. rewrite Ek at 1. destruct (G (4 * k) ltac:(lia)) as [-> _]. cbn [mbind option_bind].
  unfold word_at. fold k. set (w := take 4 (drop (Z.to_nat (4 * k)) l)).
  assert (Hw : length w = 4%nat) by (subst w; rewrite length_take, length_drop; lia).
  rewrite <- Hw at 1. rewrite (load_bytes_all mem _ w); [done |].
  intros j v Hj. pose proof (lookup_lt_Some _ _ _ Hj) as Hjl. cbn [fst snd].
  specialize (Hr (4 * k + Z.of_nat j) ltac:(lia)). unfold Read_U8 in Hr.
  destruct (G (4 * k + Z.of_nat j) ltac:(lia)) as [Gj _]. rewrite Gj in Hr. cbn [mbind option_bind] in Hr.
  rewrite <- Z.add_assoc, Hr. subst w. rewrite lookup_take_lt, lookup_drop in Hj by lia.
  rewrite <- Hj. f_equal. lia.
Qed.

(** *** Replacement bits *)

Definition pair_check (n : Z) : bool :=
  let t := n / 128 in let b := n mod 128 in
  match touch t b with Some b' => (0 <=? b') && (b' <? 128) | None => false end.

Lemma touch_spec t b : 0 <= t < 8 -> 0 <= b < 128 -> exists b', touch t b = Some b' /\ inu 7 b'.
Proof.
  intros Ht Hb. pose proof (by_cases pair_check 1024 ltac:(vm_compute; reflexivity) (t * 128 + b) ltac:(lia)) as H.
  unfold pair_check in H. replace ((t * 128 + b) / 128) with t in H by (Z.to_euclidean_division_equations; lia).
  replace ((t * 128 + b) mod 128) with b in H by (Z.to_euclidean_division_equations; lia).
  destruct (touch t b) as [b' |]; [| done]. exists b'.
  apply andb_prop in H as [?%Z.leb_le ?%Z.ltb_lt]. split; [done | unfold inu; lia].
Qed.

Lemma run_read_way addr t c :
  wf c -> 0 <= t < 8 ->
  exists b c', touch t (mget (plru c) (set_of (key_of addr))) = Some b /\
    read_way addr t c = Some (word_at addr (line c (set_of (key_of addr)) t), c') /\ wf c' /\
    (forall k, lookup_way c' k = lookup_way c k) /\ (forall k, view c' k = view c k) /\
    mget (plru c') (set_of (key_of addr)) = b.
Proof.
  intros Hc Ht. rewrite set_of_addr. set (set := (addr .>> 5) .& 0x7f).
  destruct (touch_spec t (mget (plru c) set) Ht) as (b & Eb & Hb).
  { apply (mem_ok_mget 7); [lia | apply (wf_plru c Hc)]. }
  unfold read_way. fold set. rewrite Eb. cbn [mbind option_bind]. eexists b, _.
  split; [done |]. split; [reflexivity |]. split.
  - destruct Hc. constructor; try done. cbn. apply mem_ok_mset; done.
  - split; [done |]. split; [done |]. cbn. apply mget_mset_same.
Qed.

Definition View : Type := Table * Z -> option (list Z).

(** What a fetch of the aligned address [a] may do to a map from lines to
    bytes: a line that is there is used; with a locked cache memory is read; a
    line that is not there is loaded and may displace one line of its set. *)
Inductive line_read (mem : Memmap) (locked : bool) (a : Z) (V : View) : Z -> View -> Prop :=
  | read_hit l V' :
    V (key_of a) = Some l -> (forall k, V' k = V k) -> line_read mem locked a V (word_at a l) V'
  | read_around v V' :
    V (key_of a) = None -> locked = true -> Read_U32 mem a = Some v -> (forall k, V' k = V k) ->
    line_read mem locked a V v V'
  | read_miss l V' :
    V (key_of a) = None -> locked = false -> memory_line mem a l -> V' (key_of a) = Some l ->
    (forall k, k <> key_of a -> V' k = V k \/ (V' k = None /\ set_of k = set_of (key_of a))) ->
    (forall k1 k2, V k1 <> None -> V' k1 = None -> V k2 <> None -> V' k2 = None -> k1 = k2) ->
    line_read mem locked a V (word_at a l) V'.

(** The way a miss takes: free, or the one the tree names. *)
Definition miss_way (c : InstructionCache) (set : Z) : option Z :=
  if negb (mget (valid c) set =? 0xff) then way_from_valid (mget (valid c) set)
  else way_from_plru (mget (plru c) set).

Lemma run_miss_way c set :
  wf c -> exists t, miss_way c set = Some t /\ 0 <= t < 8 /\
    (forall k, set_of k = set -> lookup_way c k = t -> way_from_plru (mget (plru c) set) = Some t).
Proof.
  intros Hc. unfold miss_way.
  pose proof (mem_ok_mget 8 _ set ltac:(lia) (wf_valid c Hc)) as Hv. unfold inu in Hv.
  destruct (Z.eqb_spec (mget (valid c) set) 0xff) as [E | N]; cbn [negb].
  - destruct (way_from_plru_spec (mget (plru c) set)) as (t & Et & Ht).
    { apply (mem_ok_mget 7); [lia | apply (wf_plru c Hc)]. }
    exists t. done.
  - destruct (way_from_valid_spec (mget (valid c) set)) as (t & Et & Ht & Hb); [lia |].
    exists t. split; [done | split; [done |]]. intros k Hk Hl.
    destruct (wf_entry c Hc k) as (_ & Hb' & _); [lia |]. rewrite Hk, Hl in Hb'. congruence.
Qed.

(** A fetch on a miss, as the composition of its parts. *)
Lemma run_miss hid0 mem a c :
  wf c -> inu 32 a -> flag hid0 HID0_ICE = true -> flag hid0 HID0_ILOCK = false -> in_memory mem a ->
  lookup_way c (key_of a) = 0xff ->
  exists t l, miss_way c (set_of (key_of a)) = Some t /\ 0 <= t < 8 /\ memory_line mem a l /\
    (forall k, set_of k = set_of (key_of a) -> lookup_way c k = t ->
       way_from_plru (mget (plru c) (set_of (key_of a))) = Some t) /\
    ReadInstruction hid0 mem a c = read_way a t (install a t l c).
Proof.
  intros Hc Ha Hice Hlock Hm Hmiss.
  destruct (run_miss_way c (set_of (key_of a)) Hc) as (t & Et & Ht & Hvict).
  destruct (copy_line mem a (line c (set_of (key_of a)) t) Hm (wf_lines c Hc _ _)) as (l & El & Hl).
  exists t, l. split; [done | split; [done | split; [done | split; [done |]]]].
  unfold ReadInstruction. rewrite Hice. cbn [negb]. rewrite Hmiss, Z.eqb_refl, Hlock.
  unfold miss_way in Et. rewrite set_of_addr in *. rewrite Et. cbn [mbind option_bind]. rewrite El. done.
Qed.

Lemma run_hit hid0 mem a c :
  flag hid0 HID0_ICE = true -> lookup_way c (key_of a) <> 0xff ->
  ReadInstruction hid0 mem a c = read_way a (lookup_way c (key_of a)) c.
Proof.
  intros Hice N. unfold ReadInstruction. rewrite Hice. cbn [negb].
  destruct (Z.eqb_spec (lookup_way c (key_of a)) 0xff); done.
Qed.

Lemma line_of_memory mem a l : memory_line mem a l -> line_ok l.
Proof. intros [H _]. exact H. Qed.

(** At most one line of a set is in a way. *)
Lemma same_way c k1 k2 :
  wf c -> set_of k1 = set_of k2 -> lookup_way c k1 = lookup_way c k2 -> lookup_way c k1 <> 0xff -> k1 = k2.
Proof.
  intros Hc Es Ew N. destruct (wf_entry c Hc k1 N) as (_ & _ & E1).
  destruct (wf_entry c Hc k2) as (_ & _ & E2); [congruence |]. congruence.
Qed.

Lemma view_none c k : wf c -> view c k = None <-> lookup_way c k = 0xff.
Proof. intros Hc. unfold view. destruct (Z.eqb_spec (lookup_way c k) 0xff); done. Qed.

(** The refinement, for the theorems below. *)
Lemma run_ReadInstruction hid0 mem a c :
  wf c -> inu 32 a -> a mod 4 = 0 -> flag hid0 HID0_ICE = true -> in_memory mem a ->
  exists v c', ReadInstruction hid0 mem a c = Some (v, c') /\ wf c' /\
    line_read mem (flag hid0 HID0_ILOCK) a (view c) v (view c').
Proof.
  intros Hc Ha Hal Hice Hm. destruct (decide (lookup_way c (key_of a) = 0xff)) as [Hmiss | Hhit].
  - assert (Hnone : view c (key_of a) = None) by (apply view_none; done).
    destruct (flag hid0 HID0_ILOCK) eqn:Hlock.
    + destruct (copy_line mem a (replicate 32 0) Hm (length_replicate _ _)) as (l & _ & Hl).
      pose proof (Read_U32_line mem a l Hm Hl Hal) as Hr.
      exists (word_at a l), c. split; [| split; [done |]].
      * unfold ReadInstruction. rewrite Hice. cbn [negb]. rewrite Hmiss, Z.eqb_refl, Hlock, Hr. done.
      * apply read_around; done.
    + destruct (run_miss hid0 mem a c Hc Ha Hice Hlock Hm Hmiss) as (t & l & _ & Ht & Hl & _ & ->).
      pose proof (wf_install a t l c Hc Ha Ht Hmiss (line_of_memory _ _ _ Hl)) as Hw.
      destruct (run_read_way a t _ Hw Ht) as (b & c' & _ & E & Hw' & _ & Hv & _).
      assert (Ev : word_at a (line (install a t l c) (set_of (key_of a)) t) = word_at a l).
      { rewrite line_install, set_of_addr, decide_True by done. done. }
      rewrite Ev in E. exists (word_at a l), c'. split; [done | split; [done |]].
      pose proof (fun k => eq_trans (Hv k) (view_install a t l c Hc Ht k)) as Hvk. cbv beta in Hvk.
      apply read_miss; try done.
      * rewrite Hvk, decide_True by done. done.
      * intros k N. rewrite Hvk, decide_False by done. rewrite set_of_addr.
        destruct (decide _) as [[? _] |]; [right; done | left; done].
      * assert (Hev : forall k, view c k <> None -> view c' k = None ->
                  set_of k = (a .>> 5) .& 0x7f /\ lookup_way c k = t).
        { intros k Nk. rewrite Hvk. destruct (decide _); [done |]. destruct (decide _); [done |]. done. }
        intros k1 k2 N1 E1 N2 E2. destruct (Hev k1 N1 E1) as [S1 W1]. destruct (Hev k2 N2 E2) as [S2 W2].
        apply (same_way c); (congruence || lia).
  - rewrite run_hit by done. destruct (wf_entry c Hc _ Hhit) as (Ht & _ & _).
    destruct (run_read_way a _ c Hc Ht) as (b & c' & _ & E & Hw & _ & Hv & _).
    eexists _, c'. split; [exact E | split; [done |]]. apply read_hit; [| done].
    unfold view. destruct (Z.eqb_spec (lookup_way c (key_of a)) 0xff); done.
Qed.

Lemma empty_cells w : mem_ok w (∅ : gmap Z Z).
Proof. intros a v. rewrite lookup_empty. done. Qed.

Lemma wf_reset_tables c :
  (forall set t, line_ok (line c set t)) -> mem_ok 20 (tags c) ->
  wf (Reset c) /\ forall k, view (Reset c) k = None.
Proof.
  intros Hl Ht. assert (forall k, lookup_way (Reset c) k = 0xff) as E by done.
  split; [| intros k; unfold view; rewrite E; done].
  constructor; try apply empty_cells; [exact Hl | exact Ht | intros k; rewrite E; done |].
  intros s t _ _. cbn [Reset valid]. unfold mget. rewrite lookup_empty. cbn. rewrite Z.testbit_0_l. done.
Qed.

Lemma wf_Reset c : wf c -> wf (Reset c) /\ forall k, view (Reset c) k = None.
Proof. intros [Hl Ht _ _ _ _]. apply wf_reset_tables; done. Qed.

Lemma wf_Init : wf Init.
Proof. apply wf_reset_tables; [done | intros a v; cbn; rewrite lookup_empty; done]. Qed.

Lemma wf_Invalidate hid0 a c :
  wf c -> flag hid0 HID0_ICE = true ->
  wf (Invalidate hid0 a c) /\
  forall k, view (Invalidate hid0 a c) k = if decide (set_of k = (a .>> 5) .& 0x7f) then None else view c k.
Proof.
  intros Hc Hice. unfold Invalidate. rewrite Hice. cbn [negb]. set (set := (a .>> 5) .& 0x7f).
  set (ways := [0; 1; 2; 3; 4; 5; 6; 7]). set (c1 := fold_left _ ways c).
  assert (Hset : 0 <= set < 128) by apply set_range.
  assert (Hf : data c1 = data c /\ tags c1 = tags c /\ plru c1 = plru c /\ valid c1 = valid c).
  { subst c1. clear. induction ways as [| i l IH] using rev_ind; [done |].
    rewrite fold_left_app. cbn [fold_left]. destruct (forget_way_fields set i (fold_left (fun c i => forget_way set i c) l c))
      as (-> & -> & -> & ->). exact IH. }
  destruct Hf as (Ed & Et & Ep & Ev).
  assert (Hl : forall k, lookup_way c1 k = if decide (set_of k = set) then 0xff else lookup_way c k).
  { intros k. subst c1. rewrite (lookup_forget_ways c); try done; [| repeat (apply Forall_cons; split; [lia |]); by apply Forall_nil].
    destruct (decide (set_of k = set)) as [E | N]; [| rewrite decide_False by tauto; done].
    destruct (decide (set_of k = set /\ lookup_way c k ∈ ways)) as [| N]; [done |].
    destruct (lookup_range c k Hc) as [| R]; [done |]. destruct N. split; [done |].
    subst ways. rewrite !elem_of_cons. lia. }
  split.
  - constructor; unfold line, lookup_way; cbn [data tags plru valid lookup_tables]; rewrite ?Ed, ?Et, ?Ep, ?Ev.
    + apply (wf_lines c Hc).
    + apply (wf_tags c Hc).
    + apply (wf_plru c Hc).
    + apply mem_ok_mset; [apply (wf_valid c Hc) | unfold inu; lia].
    + intros k. change (default 255 (lookup_tables c1 !! k)) with (lookup_way c1 k). rewrite Hl.
      destruct (decide (set_of k = set)) as [| N]; [done |]. intros Hk.
      rewrite mget_mset_other by congruence. apply (wf_entry c Hc k Hk).
    + intros s t Hs Ht. change (default 255 (lookup_tables c1 !! ?k)) with (lookup_way c1 k).
      destruct (decide (s = set)) as [-> | N]; [rewrite mget_mset_same, Z.testbit_0_l; done |].
      rewrite mget_mset_other by congruence. rewrite Hl, set_of_tag, decide_False by done.
      apply (wf_way c Hc); done.
  - intros k. unfold view, lookup_way at 1 2, line at 1. cbn [lookup_tables data].
    change (default 255 (lookup_tables c1 !! k)) with (lookup_way c1 k). rewrite Hl, Ed.
    destruct (decide (set_of k = set)); done.
Qed.

(** C13: the cache implements a partial map from lines to bytes. In a
    well-formed cache that is enabled, the fetch of an aligned address whose
    line lies in memory does not fault and acts on the map as [line_read] says;
    [Invalidate] removes the lines of the address's set and nothing else;
    [Reset] leaves the empty map; and all of them keep ways, tags, valid bits
    and lookup tables consistent. *)
Theorem icache_refines_map hid0 mem a c :
  wf c -> inu 32 a -> a mod 4 = 0 -> flag hid0 HID0_ICE = true -> in_memory mem a ->
  (exists v c', ReadInstruction hid0 mem a c = Some (v, c') /\ wf c' /\
     line_read mem (flag hid0 HID0_ILOCK) a (view c) v (view c')) /\
  (wf (Invalidate hid0 a c) /\
   forall k, view (Invalidate hid0 a c) k = if decide (set_of k = (a .>> 5) .& 0x7f) then None else view c k) /\
  (wf (Reset c) /\ forall k, view (Reset c) k = None).
Proof.
  intros Hc Ha Hal Hice Hm. split; [| split].
  - apply run_ReadInstruction; done.
  - apply wf_Invalidate; done.
  - apply wf_Reset. done.
Qed.

Lemma icache_refines_map_witness :
  exists v c', ReadInstruction 0x8000 fresh_ram 0x80003100 Init = Some (v, c') /\ wf c' /\
    line_read fresh_ram false 0x80003100 (view Init) v (view c').
Proof.
  apply (icache_refines_map 0x8000 fresh_ram 0x80003100 Init).
  - apply wf_Init.
  - unfold inu. lia.
  - reflexivity.
  - reflexivity.
  - eexists. reflexivity.
Defined.

(** ** Coherence *)

Lemma in_memory_bounds mem a :
  in_memory mem a -> let y := a mod 2 ^ 30 in y < 0x1800000 \/ 0x10000000 <= y < 0x14000000.
Proof.
  intros [p Hp]. pose proof (GetPointerForRange_spec _ _ _ _ Hp ltac:(lia) (a mod 32) ltac:(apply Z.mod_pos_bound; lia)) as [G _].
  rewrite line_base_eq in G. replace (a - a mod 32 + a mod 32) with a in G by lia.
  rewrite GetPointer_eq in G. cbv zeta in *. unfold REALRAM_SIZE in G. set (y := a mod 2 ^ 30) in *.
  destruct (Z.ltb_spec y 0x1800000); [lia |]. destruct (m_pEXRAM mem); [| done].
  destruct (Z.leb_spec 0x10000000 y); [| done]. destruct (Z.ltb_spec y 0x14000000); [lia | done].
Qed.

(** The entry of an address in memory. *)
Lemma key_of_memory a :
  let y := a mod 2 ^ 30 in y < 0x1800000 \/ 0x10000000 <= y < 0x14000000 ->
  key_of a = if y <? 0x10000000 then (Main, y / 32) else (Ex, (y - 0x10000000) / 32).
Proof.
  intros y Hy. pose proof (Z.mod_pos_bound a (2 ^ 30)) as Hb. fold y in Hb.
  assert (B : forall k, 0 <= k < 30 -> Z.testbit a k = Z.testbit y k).
  { intros k Hk. subst y. rewrite Z.mod_pow2_bits_low by lia. done. }
  assert (T : table_of_addr a = if y <? 0x10000000 then Main else Ex).
  { unfold table_of_addr, ICACHE_VMEM_BIT, ICACHE_EXRAM_BIT. change 0x20000000 with (2 ^ 29).
    change 0x10000000 with (2 ^ 28). rewrite !flag_testbit, !B by lia.
    rewrite (testbit_inu_high 29 y) by (unfold inu; lia). destruct (Z.ltb_spec y (2 ^ 28)).
    - rewrite (testbit_inu_high 28 y) by (unfold inu; lia). done.
    - assert (Z.testbit y 28 = true) as ->; [| done].
      apply Z.testbit_true; [lia |]. Z.to_euclidean_division_equations. lia. }
  unfold key_of. rewrite T. rewrite Z.shiftr_div_pow2 by lia. destruct (Z.ltb_spec y 0x10000000); f_equal; cbn [table_mask].
  - change 0xfffff with (Z.ones 20). rewrite Z.land_ones by lia. subst y. Z.to_euclidean_division_equations. lia.
  - change 0x1fffff with (Z.ones 21). rewrite Z.land_ones by lia. subst y. Z.to_euclidean_division_equations. lia.
Qed.

(** Addresses in memory with the same entry are in the same line. *)
Lemma same_key_same_line mem a a' :
  in_memory mem a -> in_memory mem a' -> key_of a = key_of a' ->
  forall i, Read_U8 mem (line_base a + i) = Read_U8 mem (line_base a' + i).
Proof.
  intros Hm%in_memory_bounds Hm'%in_memory_bounds E i. cbv zeta in *.
  rewrite (key_of_memory a Hm), (key_of_memory a' Hm') in E.
  assert (El : line_base a mod 2 ^ 30 = line_base a' mod 2 ^ 30).
  { rewrite !line_base_eq.
    assert (Ed : a mod 2 ^ 30 / 32 = a' mod 2 ^ 30 / 32).
    { destruct (Z.ltb_spec (a mod 2 ^ 30) 0x10000000), (Z.ltb_spec (a' mod 2 ^ 30) 0x10000000); try done;
        injection E as E; [done |]. Z.to_euclidean_division_equations. lia. }
    Z.to_euclidean_division_equations. lia. }
  unfold Read_U8. assert (Eg : GetPointer mem (line_base a + i) = GetPointer mem (line_base a' + i)); [| rewrite Eg; done].
  rewrite !GetPointer_eq. rewrite <- (Zplus_mod_idemp_l (line_base a)), El, Zplus_mod_idemp_l. done.
Qed.

Lemma same_key_memory_line mem a a' l :
  in_memory mem a -> in_memory mem a' -> key_of a = key_of a' -> memory_line mem a l -> memory_line mem a' l.
Proof.
  intros Hm Hm' E [Hl Hr]. split; [done |]. intros i Hi. rewrite <- (same_key_same_line mem a a' Hm Hm' E). apply Hr, Hi.
Qed.

(** Every line of the cache is what memory holds. *)
Definition coherent (mem : Memmap) (c : InstructionCache) : Prop :=
  forall a l, in_memory mem a -> view c (key_of a) = Some l -> memory_line mem a l.

(** [mem'] is [mem] after writes to the line of [a]. *)
Definition line_written (a : Z) (mem mem' : Memmap) : Prop :=
  (forall b, GetPointer mem' b = GetPointer mem b) /\
  forall b, key_of b <> key_of a -> in_memory mem b ->
    forall i, 0 <= i < 32 -> Read_U8 mem' (line_base b + i) = Read_U8 mem (line_base b + i).

(** C14: as long as the cache is coherent with memory, a fetch returns what a
    load from memory returns and leaves the cache coherent; and when the
    processor writes to a line and then invalidates it, the cache is coherent
    with the new memory. *)
Theorem icache_transparent hid0 mem mem' a c :
  wf c -> inu 32 a -> a mod 4 = 0 -> flag hid0 HID0_ICE = true -> in_memory mem a -> coherent mem c ->
  (exists v c', ReadInstruction hid0 mem a c = Some (v, c') /\ Read_U32 mem a = Some v /\ coherent mem c') /\
  (line_written a mem mem' -> coherent mem' (Invalidate hid0 a c)).
Proof.
  intros Hc Ha Hal Hice Hm Hco. split.
  - destruct (run_ReadInstruction hid0 mem a c Hc Ha Hal Hice Hm) as (v & c' & E & _ & R).
    exists v, c'. split; [exact E |]. unfold coherent. remember (view c') as V eqn:EV. clear EV E.
    destruct R as [l V' Hv Hsame | v V' _ _ Hr Hsame | l V' _ _ Hl Hv Hother _].
    + split; [apply Read_U32_line; try done; apply (Hco a l Hm Hv) |].
      intros b l' Hb. rewrite Hsame. apply Hco, Hb.
    + split; [done |]. intros b l' Hb. rewrite Hsame. apply Hco, Hb.
    + split; [apply Read_U32_line; done |]. intros b l' Hb Hv'.
      destruct (decide (key_of b = key_of a)) as [Ek | Nk].
      * rewrite Ek, Hv in Hv'. injection Hv' as <-. apply (same_key_memory_line mem a b); done.
      * destruct (Hother _ Nk) as [Eo | [Eo _]]; rewrite Eo in Hv'; [apply (Hco b l' Hb Hv') | done].
  - intros [Hp Hw] b l Hb. rewrite (proj2 (wf_Invalidate hid0 a c Hc Hice)).
    destruct (decide (set_of (key_of b) = (a .>> 5) .& 0x7f)) as [| N]; [done |]. intros Hv.
    assert (Hb' : in_memory mem b) by (unfold in_memory, GetPointerForRange in *; rewrite !Hp in Hb; exact Hb).
    destruct (Hco b l Hb' Hv) as [Hl Hr]. split; [done |]. intros i Hi. rewrite Hw by (done || congruence || (rewrite <- set_of_addr in N; congruence)).
    apply Hr, Hi.
Qed.

Lemma icache_transparent_witness :
  exists v c', ReadInstruction 0x8000 fresh_ram 0x80003100 Init = Some (v, c') /\
    Read_U32 fresh_ram 0x80003100 = Some v /\ coherent fresh_ram c'.
Proof.
  apply (icache_transparent 0x8000 fresh_ram fresh_ram 0x80003100 Init).
  - apply wf_Init.
  - unfold inu. lia.
  - reflexivity.
  - reflexivity.
  - eexists. reflexivity.
  - intros a l _. discriminate.
Defined.

(** ** Replacement *)

(** The tree never names one of the last three ways. *)
Definition plru_check (b t1 t2 t3 : Z) : bool :=
  let avoids b t := match way_from_plru b with Some w => negb (w =? t) | None => false end in
  match touch t1 b with
  | Some b1 => avoids b1 t1 &&
    match touch t2 b1 with
    | Some b2 => avoids b2 t1 && avoids b2 t2 &&
      match touch t3 b2 with
      | Some b3 => avoids b3 t1 && avoids b3 t2 && avoids b3 t3
      | None => false end
    | None => false end
  | None => false end.

Definition upto (n : nat) : list Z := Z.of_nat <$> seq 0 n.

Lemma plru_checked :
  forallb (fun b => forallb (fun t1 => forallb (fun t2 => forallb (plru_check b t1 t2) (upto 8)) (upto 8)) (upto 8))
    (upto 128) = true.
Proof. vm_compute. reflexivity. Qed.

(** The way the tree names is none of the last three touched. *)
Definition avoids (b t : Z) : Prop := exists w, way_from_plru b = Some w /\ w <> t.

Lemma touched_avoided t1 t2 t3 b b1 b2 b3 :
  0 <= t1 < 8 -> 0 <= t2 < 8 -> 0 <= t3 < 8 -> inu 7 b ->
  touch t1 b = Some b1 -> touch t2 b1 = Some b2 -> touch t3 b2 = Some b3 ->
  avoids b1 t1 /\ (avoids b2 t1 /\ avoids b2 t2) /\ avoids b3 t1 /\ avoids b3 t2 /\ avoids b3 t3.
Proof.
  unfold inu. intros H1 H2 H3 Hb E1 E2 E3.
  pose proof (by_cases _ 128 plru_checked b ltac:(lia)) as H. cbv beta in H.
  pose proof (by_cases _ 8 H t1 ltac:(lia)) as H'. cbv beta in H'.
  pose proof (by_cases _ 8 H' t2 ltac:(lia)) as H''. cbv beta in H''.
  pose proof (by_cases _ 8 H'' t3 ltac:(lia)) as Hp. clear H H' H''. unfold plru_check in Hp.
  rewrite E1, E2, E3 in Hp.
  assert (A : forall x t, match way_from_plru x with Some w => negb (w =? t) | None => false end = true -> avoids x t).
  { intros x t. unfold avoids. destruct (way_from_plru x) as [w |]; [| done]. intros ?%negb_true_iff%Z.eqb_neq. eauto. }
  rewrite !andb_true_iff in Hp. destruct Hp as (? & (? & ?) & (? & ?) & ?). auto 10.
Qed.

Definition fetchable (mem : Memmap) (set a : Z) : Prop :=
  inu 32 a /\ a mod 4 = 0 /\ in_memory mem a /\ set_of (key_of a) = set.

(** What one fetch does to the ways of its set. *)
Lemma fetch_step hid0 mem set a c :
  wf c -> flag hid0 HID0_ICE = true -> flag hid0 HID0_ILOCK = false -> fetchable mem set a ->
  exists v c' t, ReadInstruction hid0 mem a c = Some (v, c') /\ wf c' /\ 0 <= t < 8 /\
    lookup_way c' (key_of a) = t /\ touch t (mget (plru c) set) = Some (mget (plru c') set) /\
    (forall k w, lookup_way c k = w -> 0 <= w < 8 -> avoids (mget (plru c) set) w -> lookup_way c' k = w).
Proof.
  intros Hc Hice Hlock (Ha & Hal & Hm & <-).
  destruct (decide (lookup_way c (key_of a) = 0xff)) as [Hmiss | Hhit].
  - destruct (run_miss hid0 mem a c Hc Ha Hice Hlock Hm Hmiss) as (t & l & _ & Ht & Hl & Hvict & E).
    pose proof (wf_install a t l c Hc Ha Ht Hmiss (line_of_memory _ _ _ Hl)) as Hw.
    destruct (run_read_way a t _ Hw Ht) as (b & c' & Et & Er & Hw' & Hl' & _ & Eb).
    rewrite E. eexists _, c', t. split; [exact Er |]. split; [done |]. split; [done |]. split; [| split].
    + rewrite Hl', (lookup_install a t l c), decide_True by done. done.
    + destruct (install_fields a t l c) as (_ & _ & Ep & _). rewrite <- Ep at 1. congruence.
    + intros k w Hk Hw8 (x & Ex & Nx). rewrite Hl', (lookup_install a t l c) by done.
      rewrite decide_False by (intros ->; lia). rewrite decide_False; [done |].
      rewrite <- set_of_addr. intros [Es Ew]. rewrite (Hvict k Es Ew) in Ex. congruence.
  - destruct (wf_entry c Hc _ Hhit) as (Ht & _ & _).
    destruct (run_read_way a _ c Hc Ht) as (b & c' & Et & Er & Hw & Hl' & _ & Eb).
    rewrite run_hit by done. eexists _, c', _. split; [exact Er |]. split; [done |]. split; [exact Ht |].
    split; [apply Hl' | split; [congruence |]]. intros k w Hk _ _. rewrite Hl'. done.
Qed.

Fixpoint fetch_all (hid0 : Z) (mem : Memmap) (l : list Z) (c : InstructionCache) : option InstructionCache :=
  match l with
  | [] => Some c
  | a :: l' => r ← ReadInstruction hid0 mem a c; fetch_all hid0 mem l' r.2
  end.

(** Fetching from a set does not displace the lines of the three fetches
    before: after any four fetches from one set of an enabled, unlocked cache,
    whatever it held and whether they hit or miss, all four lines are present. *)
Theorem recent_lines_stay hid0 mem set a1 a2 a3 a4 c :
  wf c -> flag hid0 HID0_ICE = true -> flag hid0 HID0_ILOCK = false ->
  Forall (fetchable mem set) [a1; a2; a3; a4] ->
  exists c', fetch_all hid0 mem [a1; a2; a3; a4] c = Some c' /\
    Forall (fun a => is_Some (view c' (key_of a))) [a1; a2; a3; a4].
Proof.
  intros Hc Hice Hlock Hl. rewrite !Forall_cons in Hl. destruct Hl as (F1 & F2 & F3 & F4 & _).
  destruct (fetch_step _ _ _ _ c Hc Hice Hlock F1) as (v1 & c1 & t1 & E1 & W1 & T1 & L1 & U1 & _).
  destruct (fetch_step _ _ _ _ c1 W1 Hice Hlock F2) as (v2 & c2 & t2 & E2 & W2 & T2 & L2 & U2 & K2).
  destruct (fetch_step _ _ _ _ c2 W2 Hice Hlock F3) as (v3 & c3 & t3 & E3 & W3 & T3 & L3 & U3 & K3).
  destruct (fetch_step _ _ _ _ c3 W3 Hice Hlock F4) as (v4 & c4 & t4 & E4 & W4 & T4 & L4 & U4 & K4).
  exists c4. split.
  { cbn [fetch_all]. rewrite E1. cbn [mbind option_bind snd]. rewrite E2. cbn [mbind option_bind snd].
    rewrite E3. cbn [mbind option_bind snd]. rewrite E4. done. }
  assert (Hb : inu 7 (mget (plru c) set)) by (apply mem_ok_mget; [lia | apply (wf_plru c Hc)]).
  destruct (touched_avoided t1 t2 t3 _ _ _ _ T1 T2 T3 Hb U1 U2 U3) as (A1 & (A21 & A22) & A31 & A32 & A33).
  assert (P : forall k w, lookup_way c4 k = w -> 0 <= w < 8 -> is_Some (view c4 k)).
  { intros k w <- Hw. unfold view. destruct (Z.eqb_spec (lookup_way c4 k) 0xff); [lia | eauto]. }
  rewrite !Forall_cons, Forall_nil. repeat split.
  - apply (P _ t1); auto.
  - apply (P _ t2); auto.
  - apply (P _ t3); auto.
  - apply (P _ t4); auto.
Qed.

Lemma recent_lines_stay_witness :
  exists c', fetch_all 0x8000 fresh_ram [0x3100; 0x13100; 0x23100; 0x33100] Init = Some c' /\
    Forall (fun a => is_Some (view c' (key_of a))) [0x3100; 0x13100; 0x23100; 0x33100].
Proof.
  apply (recent_lines_stay 0x8000 fresh_ram 8 0x3100 0x13100 0x23100 0x33100 Init).
  - apply wf_Init.
  - reflexivity.
  - reflexivity.
  - repeat (apply Forall_cons; split; [split; [unfold inu; lia | split; [reflexivity |
      split; [eexists; reflexivity | reflexivity]]] |]). apply Forall_nil. exact I.
Defined.
