(* ===== verification/PpcState.v ===== *)
(** The PowerPC processor's state and what every instruction shares
    ([Core/PowerPC/PowerPC.h], [PowerPC.cpp], [Gekko.h]): the fields of an
    instruction, the registers, the condition register in the emulator's own
    64-bit format, XER, and exceptions. The theorem says that the format
    implements the 32-bit register; [PpcBranch] has the theorems on
    exceptions. *)

From S2P Require Import Prelude.
Open Scope Z_scope.

(** ** Fields of an instruction: the members of [UGeckoInstruction] *)

(** [w] bits from bit [lo]. *)
Definition field (lo w hex : Z) : Z := (hex .>> lo) .& (2 ^ w - 1).

Definition Rc (inst : Z) : bool := Z.testbit inst 0.
Definition OE (inst : Z) : bool := Z.testbit inst 10.
Definition LK (inst : Z) : bool := Z.testbit inst 0.
Definition AA (inst : Z) : bool := Z.testbit inst 1.
Definition RB (inst : Z) : Z := field 11 5 inst.
Definition RA (inst : Z) : Z := field 16 5 inst.
Definition RD (inst : Z) : Z := field 21 5 inst.
Definition RS (inst : Z) : Z := field 21 5 inst.
Definition TO (inst : Z) : Z := field 21 5 inst.
Definition SH (inst : Z) : Z := field 11 5 inst.
Definition MB (inst : Z) : Z := field 6 5 inst.
Definition ME (inst : Z) : Z := field 1 5 inst.
Definition LI (inst : Z) : Z := field 2 24 inst.
Definition BD (inst : Z) : Z := field 2 14 inst.
Definition BI (inst : Z) : Z := field 16 5 inst.
Definition BO (inst : Z) : Z := field 21 5 inst.
Definition CRFD (inst : Z) : Z := field 23 3 inst.
Definition CRFS (inst : Z) : Z := field 18 3 inst.
Definition CRBB (inst : Z) : Z := field 11 5 inst.
Definition CRBA (inst : Z) : Z := field 16 5 inst.
Definition CRBD (inst : Z) : Z := field 21 5 inst.
Definition CRM (inst : Z) : Z := field 12 8 inst.
Definition SR (inst : Z) : Z := field 16 4 inst.
Definition SIMM_16 (inst : Z) : Z := s16 inst.
Definition UIMM (inst : Z) : Z := u16 inst.

(** ** State

    [PowerPCState] without the translation caches and the pointers of the JIT,
    and the interpreter's [m_end_block] and reservation. [ps0] and [ps1] are the
    two halves [ps[.][0]] and [ps[.][1]] of the floating-point registers, as the
    64 bits of a double. *)
Record PowerPCState := mk_ppc {
  gpr : list Z;
  pc : Z; npc : Z;
  cr_val : list Z;
  msr : Z; fpscr : Z;
  Exceptions : Z;
  downcount : Z;
  xer_ca : Z; xer_so_ov : Z; xer_stringctrl : Z;
  ps0 : list Z; ps1 : list Z;
  sr : list Z;
  spr : gmap Z Z;
  m_end_block : bool;
  m_reserve : bool; m_reserve_address : Z
}.

Definition set_gpr x (s : PowerPCState) := mk_ppc x (pc s) (npc s) (cr_val s) (msr s) (fpscr s) (Exceptions s) (downcount s) (xer_ca s) (xer_so_ov s) (xer_stringctrl s) (ps0 s) (ps1 s) (sr s) (spr s) (m_end_block s) (m_reserve s) (m_reserve_address s).
Definition set_pc x (s : PowerPCState) := mk_ppc (gpr s) x (npc s) (cr_val s) (msr s) (fpscr s) (Exceptions s) (downcount s) (xer_ca s) (xer_so_ov s) (xer_stringctrl s) (ps0 s) (ps1 s) (sr s) (spr s) (m_end_block s) (m_reserve s) (m_reserve_address s).
Definition set_npc x (s : PowerPCState) := mk_ppc (gpr s) (pc s) x (cr_val s) (msr s) (fpscr s) (Exceptions s) (downcount s) (xer_ca s) (xer_so_ov s) (xer_stringctrl s) (ps0 s) (ps1 s) (sr s) (spr s) (m_end_block s) (m_reserve s) (m_reserve_address s).
Definition set_cr_val x (s : PowerPCState) := mk_ppc (gpr s) (pc s) (npc s) x (msr s) (fpscr s) (Exceptions s) (downcount s) (xer_ca s) (xer_so_ov s) (xer_stringctrl s) (ps0 s) (ps1 s) (sr s) (spr s) (m_end_block s) (m_reserve s) (m_reserve_address s).
Definition set_msr x (s : PowerPCState) := mk_ppc (gpr s) (pc s) (npc s) (cr_val s) x (fpscr s) (Exceptions s) (downcount s) (xer_ca s) (xer_so_ov s) (xer_stringctrl s) (ps0 s) (ps1 s) (sr s) (spr s) (m_end_block s) (m_reserve s) (m_reserve_address s).
Definition set_fpscr x (s : PowerPCState) := mk_ppc (gpr s) (pc s) (npc s) (cr_val s) (msr s) x (Exceptions s) (downcount s) (xer_ca s) (xer_so_ov s) (xer_stringctrl s) (ps0 s) (ps1 s) (sr s) (spr s) (m_end_block s) (m_reserve s) (m_reserve_address s).
Definition set_Exceptions x (s : PowerPCState) := mk_ppc (gpr s) (pc s) (npc s) (cr_val s) (msr s) (fpscr s) x (downcount s) (xer_ca s) (xer_so_ov s) (xer_stringctrl s) (ps0 s) (ps1 s) (sr s) (spr s) (m_end_block s) (m_reserve s) (m_reserve_address s).
Definition set_downcount x (s : PowerPCState) := mk_ppc (gpr s) (pc s) (npc s) (cr_val s) (msr s) (fpscr s) (Exceptions s) x (xer_ca s) (xer_so_ov s) (xer_stringctrl s) (ps0 s) (ps1 s) (sr s) (spr s) (m_end_block s) (m_reserve s) (m_reserve_address s).
Definition set_xer_ca x (s : PowerPCState) := mk_ppc (gpr s) (pc s) (npc s) (cr_val s) (msr s) (fpscr s) (Exceptions s) (downcount s) x (xer_so_ov s) (xer_stringctrl s) (ps0 s) (ps1 s) (sr s) (spr s) (m_end_block s) (m_reserve s) (m_reserve_address s).
Definition set_xer_so_ov x (s : PowerPCState) := mk_ppc (gpr s) (pc s) (npc s) (cr_val s) (msr s) (fpscr s) (Exceptions s) (downcount s) (xer_ca s) x (xer_stringctrl s) (ps0 s) (ps1 s) (sr s) (spr s) (m_end_block s) (m_reserve s) (m_reserve_address s).
Definition set_xer_stringctrl x (s : PowerPCState) := mk_ppc (gpr s) (pc s) (npc s) (cr_val s) (msr s) (fpscr s) (Exceptions s) (downcount s) (xer_ca s) (xer_so_ov s) x (ps0 s) (ps1 s) (sr s) (spr s) (m_end_block s) (m_reserve s) (m_reserve_address s).
Definition set_ps0 x (s : PowerPCState) := mk_ppc (gpr s) (pc s) (npc s) (cr_val s) (msr s) (fpscr s) (Exceptions s) (downcount s) (xer_ca s) (xer_so_ov s) (xer_stringctrl s) x (ps1 s) (sr s) (spr s) (m_end_block s) (m_reserve s) (m_reserve_address s).
Definition set_ps1 x (s : PowerPCState) := mk_ppc (gpr s) (pc s) (npc s) (cr_val s) (msr s) (fpscr s) (Exceptions s) (downcount s) (xer_ca s) (xer_so_ov s) (xer_stringctrl s) (ps0 s) x (sr s) (spr s) (m_end_block s) (m_reserve s) (m_reserve_address s).
Definition set_sr x (s : PowerPCState) := mk_ppc (gpr s) (pc s) (npc s) (cr_val s) (msr s) (fpscr s) (Exceptions s) (downcount s) (xer_ca s) (xer_so_ov s) (xer_stringctrl s) (ps0 s) (ps1 s) x (spr s) (m_end_block s) (m_reserve s) (m_reserve_address s).
Definition set_spr x (s : PowerPCState) := mk_ppc (gpr s) (pc s) (npc s) (cr_val s) (msr s) (fpscr s) (Exceptions s) (downcount s) (xer_ca s) (xer_so_ov s) (xer_stringctrl s) (ps0 s) (ps1 s) (sr s) x (m_end_block s) (m_reserve s) (m_reserve_address s).
Definition set_end_block x (s : PowerPCState) := mk_ppc (gpr s) (pc s) (npc s) (cr_val s) (msr s) (fpscr s) (Exceptions s) (downcount s) (xer_ca s) (xer_so_ov s) (xer_stringctrl s) (ps0 s) (ps1 s) (sr s) (spr s) x (m_reserve s) (m_reserve_address s).
Definition set_reserve x (s : PowerPCState) := mk_ppc (gpr s) (pc s) (npc s) (cr_val s) (msr s) (fpscr s) (Exceptions s) (downcount s) (xer_ca s) (xer_so_ov s) (xer_stringctrl s) (ps0 s) (ps1 s) (sr s) (spr s) (m_end_block s) x (m_reserve_address s).
Definition set_reserve_address x (s : PowerPCState) := mk_ppc (gpr s) (pc s) (npc s) (cr_val s) (msr s) (fpscr s) (Exceptions s) (downcount s) (xer_ca s) (xer_so_ov s) (xer_stringctrl s) (ps0 s) (ps1 s) (sr s) (spr s) (m_end_block s) (m_reserve s) x.

Definition rGPR (s : PowerPCState) (i : Z) : Z := zget (gpr s) i.
Definition put_gpr (i v : Z) (s : PowerPCState) : PowerPCState := set_gpr (zset (gpr s) i (u32 v)) s.

Definition riPS0 (s : PowerPCState) (i : Z) : Z := zget (ps0 s) i.
Definition riPS1 (s : PowerPCState) (i : Z) : Z := zget (ps1 s) i.
Definition put_ps0 (i v : Z) (s : PowerPCState) : PowerPCState := set_ps0 (zset (ps0 s) i (u64 v)) s.
Definition put_ps1 (i v : Z) (s : PowerPCState) : PowerPCState := set_ps1 (zset (ps1 s) i (u64 v)) s.

(** ** Special purpose registers *)

Definition SPR_XER := 1.
Definition SPR_LR := 8.
Definition SPR_CTR := 9.
Definition SPR_DAR := 19.
Definition SPR_SRR0 := 26.
Definition SPR_SRR1 := 27.

Definition rSPR (s : PowerPCState) (i : Z) : Z := mget (spr s) i.
Definition put_spr (i v : Z) (s : PowerPCState) : PowerPCState := set_spr (mset (spr s) i (u32 v)) s.
Abbreviation LR s := (rSPR s SPR_LR).
Abbreviation CTR s := (rSPR s SPR_CTR).
Abbreviation SRR0 s := (rSPR s SPR_SRR0).
Abbreviation SRR1 s := (rSPR s SPR_SRR1).

(** ** XER *)

Definition b2z (b : bool) : Z := if b then 1 else 0.

Definition SetCarry (ca : Z) (s : PowerPCState) : PowerPCState := set_xer_ca (u8 ca) s.
Definition GetCarry (s : PowerPCState) : Z := xer_ca s.

Definition GetXER (s : PowerPCState) : Z :=
  u32 (xer_stringctrl s .| (xer_ca s .<< 29) .| (xer_so_ov s .<< 30)).

Definition SetXER (new_xer : Z) (s : PowerPCState) : PowerPCState :=
  let s := set_xer_stringctrl (u16 (field 0 7 new_xer + (field 8 8 new_xer .<< 8))) s in
  let s := set_xer_ca (field 29 1 new_xer) s in
  set_xer_so_ov ((field 31 1 new_xer .<< 1) + field 30 1 new_xer) s.

Definition GetXER_SO (s : PowerPCState) : Z := xer_so_ov s .>> 1.
Definition SetXER_SO (value : bool) (s : PowerPCState) : PowerPCState :=
  set_xer_so_ov (u8 (xer_so_ov s .| (b2z value .<< 1))) s.
Definition GetXER_OV (s : PowerPCState) : Z := xer_so_ov s .& 1.
Definition SetXER_OV (value : bool) (s : PowerPCState) : PowerPCState :=
  SetXER_SO value (set_xer_so_ov (u8 ((xer_so_ov s .& 0xFE) .| b2z value)) s).

(** ** Condition register *)

Definition CR_SO := 1.
Definition CR_EQ := 2.
Definition CR_GT := 4.
Definition CR_LT := 8.

Definition PPCCRToInternal (value : Z) : Z :=
  u64 (0x100000000
       .| (b2z (flag value CR_SO) .<< 61)
       .| b2z (negb (flag value CR_EQ))
       .| (b2z (negb (flag value CR_GT)) .<< 63)
       .| (b2z (flag value CR_LT) .<< 62)).

Definition m_crTable : list Z :=
  [PPCCRToInternal 0x0; PPCCRToInternal 0x1; PPCCRToInternal 0x2; PPCCRToInternal 0x3;
   PPCCRToInternal 0x4; PPCCRToInternal 0x5; PPCCRToInternal 0x6; PPCCRToInternal 0x7;
   PPCCRToInternal 0x8; PPCCRToInternal 0x9; PPCCRToInternal 0xA; PPCCRToInternal 0xB;
   PPCCRToInternal 0xC; PPCCRToInternal 0xD; PPCCRToInternal 0xE; PPCCRToInternal 0xF].

Definition SetCRField (cr_field value : Z) (s : PowerPCState) : PowerPCState :=
  set_cr_val (zset (cr_val s) cr_field (zget m_crTable value)) s.

(** The four bits a 64-bit value stands for. *)
Definition cr_bits (cr_val : Z) : Z :=
  b2z (flag cr_val (1 .<< 61))
  .| (b2z ((cr_val .& 0xFFFFFFFF) =? 0) .<< 1)
  .| (b2z (0 <? s64 cr_val) .<< 2)
  .| (b2z (flag cr_val (1 .<< 62)) .<< 3).

Definition GetCRField (cr_field : Z) (s : PowerPCState) : Z := cr_bits (zget (cr_val s) cr_field).

Definition GetCRBit (bit : Z) (s : PowerPCState) : Z :=
  (GetCRField (bit .>> 2) s .>> (3 - (bit .& 3))) .& 1.

Definition SetCRBit (bit value : Z) (s : PowerPCState) : PowerPCState :=
  let f := GetCRField (bit .>> 2) s in
  if flag value 1 then SetCRField (bit .>> 2) (f .| (0x8 .>> (bit .& 3))) s
  else SetCRField (bit .>> 2) (f .& .~ (0x8 .>> (bit .& 3))) s.

Definition upto (n : nat) : list Z := Z.of_nat <$> seq 0 n.

Definition CompactCR (s : PowerPCState) : Z :=
  fold_left (fun new_cr i => u32 (new_cr .| (GetCRField i s .<< (28 - i * 4)))) (upto 8) 0.

Definition ExpandCR (cr : Z) (s : PowerPCState) : PowerPCState :=
  fold_left (fun s i => SetCRField i ((cr .>> (28 - i * 4)) .& 0xF) s) (upto 8) s.

Definition SetCR (new_cr : Z) (s : PowerPCState) : PowerPCState := ExpandCR new_cr s.
Definition GetCR (s : PowerPCState) : Z := CompactCR s.

(** ** Machine state register *)

Definition MSR_LE := 0.
Definition MSR_DR := 4.
Definition MSR_IR := 5.
Definition MSR_FP := 13.
Definition MSR_PR := 14.
Definition MSR_EE := 15.
Definition MSR_ILE := 16.
Definition MSR_POW := 18.

(** [MSR.LE = MSR.ILE] *)
Definition copy_ile (m : Z) : Z := (m .& .~ 1) .| b2z (Z.testbit m MSR_ILE).

(** ** Exceptions *)

Definition EXCEPTION_DECREMENTER := 0x00000001.
Definition EXCEPTION_SYSCALL := 0x00000002.
Definition EXCEPTION_EXTERNAL_INT := 0x00000004.
Definition EXCEPTION_DSI := 0x00000008.
Definition EXCEPTION_ISI := 0x00000010.
Definition EXCEPTION_ALIGNMENT := 0x00000020.
Definition EXCEPTION_FPU_UNAVAILABLE := 0x00000040.
Definition EXCEPTION_PROGRAM := 0x00000080.
Definition EXCEPTION_PERFORMANCE_MONITOR := 0x00000100.
Definition EXCEPTION_FAKE_MEMCHECK_HIT := 0x00000200.

(** The block each branch of [CheckExceptions] repeats: save the return address
    and MSR, clear MSR bits, jump, and acknowledge. *)
Definition take_exception (exc srr0 extra vector : Z) (s : PowerPCState) : PowerPCState :=
  let s := put_spr SPR_SRR0 srr0 s in
  let s := put_spr SPR_SRR1 ((msr s .& 0x87C0FFFF) .| extra) s in
  let s := set_msr (copy_ile (msr s) .& .~ 0x04EF36) s in
  let s := set_pc vector (set_npc vector s) in
  set_Exceptions (Exceptions s .& .~ exc) s.

Definition CheckExternalExceptions (s : PowerPCState) : PowerPCState :=
  let exceptions := Exceptions s in
  if negb (exceptions =? 0) && Z.testbit (msr s) MSR_EE then
    if flag exceptions EXCEPTION_EXTERNAL_INT
    then take_exception EXCEPTION_EXTERNAL_INT (npc s) 0 0x00000500 s
    else if flag exceptions EXCEPTION_PERFORMANCE_MONITOR
    then take_exception EXCEPTION_PERFORMANCE_MONITOR (npc s) 0 0x00000F00 s
    else if flag exceptions EXCEPTION_DECREMENTER
    then take_exception EXCEPTION_DECREMENTER (npc s) 0 0x00000900 s
    else s
  else s.

Definition CheckExceptions (s : PowerPCState) : PowerPCState :=
  let exceptions := Exceptions s in
  if flag exceptions EXCEPTION_ISI
  then take_exception EXCEPTION_ISI (npc s) (1 .<< 30) 0x00000400 s
  else if flag exceptions EXCEPTION_PROGRAM
  then take_exception EXCEPTION_PROGRAM (pc s) 0x20000 0x00000700 s
  else if flag exceptions EXCEPTION_SYSCALL
  then take_exception EXCEPTION_SYSCALL (npc s) 0 0x00000C00 s
  else if flag exceptions EXCEPTION_FPU_UNAVAILABLE
  then take_exception EXCEPTION_FPU_UNAVAILABLE (pc s) 0 0x00000800 s
  else if flag exceptions EXCEPTION_FAKE_MEMCHECK_HIT
  then set_Exceptions (exceptions .& .~ EXCEPTION_DSI .& .~ EXCEPTION_FAKE_MEMCHECK_HIT) s
  else if flag exceptions EXCEPTION_DSI
  then take_exception EXCEPTION_DSI (pc s) 0 0x00000300 s
  else if flag exceptions EXCEPTION_ALIGNMENT
  then take_exception EXCEPTION_ALIGNMENT (pc s) 0 0x00000600 s
  else CheckExternalExceptions s.

(** [ExceptionUtils.h] *)
Definition GenerateAlignmentException (address : Z) (s : PowerPCState) : PowerPCState :=
  put_spr SPR_DAR address (set_Exceptions (Exceptions s .| EXCEPTION_ALIGNMENT) s).
Definition GenerateDSIException (address : Z) (s : PowerPCState) : PowerPCState :=
  put_spr SPR_DAR address (set_Exceptions (Exceptions s .| EXCEPTION_DSI) s).
Definition GenerateProgramException (s : PowerPCState) : PowerPCState :=
  set_Exceptions (Exceptions s .| EXCEPTION_PROGRAM) s.

(** [PowerPCState ppcState{}] *)
Definition ppcState : PowerPCState :=
  mk_ppc (replicate 32 0) 0 0 (replicate 8 0) 0 0 0 0 0 0 0 (replicate 32 0) (replicate 32 0) (replicate 16 0) ∅ false false 0.

(** Without the BAT tables and the timers. *)
Definition ResetRegisters (s : PowerPCState) : PowerPCState :=
  let s := set_ps1 (replicate 32 0) (set_ps0 (replicate 32 0) s) in
  let s := set_sr (replicate 16 0) s in
  let s := set_gpr (replicate 32 0) s in
  let s := set_spr ∅ s in
  let s := put_spr 287 0x00083214 s in
  let s := put_spr 1009 0x80000000 s in
  let s := put_spr 924 0x0d96e200 s in
  let s := put_spr 925 0x1840c00d s in
  let s := put_spr 926 0x82bb08e8 s in
  let s := set_fpscr 0 s in
  let s := set_pc 0 s in
  let s := set_npc 0 s in
  let s := set_Exceptions 0 s in
  let s := set_cr_val (replicate 8 0x8000000000000001) s in
  let s := put_spr 268 0 s in
  let s := put_spr 269 0 s in
  let s := set_msr 0 s in
  put_spr 22 0xFFFFFFFF s.

(** ** Invariant *)

Record wf (s : PowerPCState) : Prop := {
  wf_gpr : arr_ok 32 32 (gpr s);
  wf_pc : inu 32 (pc s); wf_npc : inu 32 (npc s);
  wf_cr : arr_ok 8 64 (cr_val s);
  wf_msr : inu 32 (msr s); wf_fpscr : inu 32 (fpscr s);
  wf_exc : inu 32 (Exceptions s);
  wf_ca : inu 1 (xer_ca s);
  wf_so_ov : inu 2 (xer_so_ov s);
  wf_string : inu 16 (xer_stringctrl s);
  wf_ps0 : arr_ok 32 64 (ps0 s); wf_ps1 : arr_ok 32 64 (ps1 s);
  wf_sr : arr_ok 16 32 (sr s);
  wf_spr : mem_ok 32 (spr s);
  wf_reserve : inu 32 (m_reserve_address s)
}.

(** ** Fields *)

Lemma field_mod lo w x : 0 <= lo -> 0 <= w -> field lo w x = x / 2 ^ lo mod 2 ^ w.
Proof.
  intros. unfold field. replace (2 ^ w - 1) with (Z.ones w) by (rewrite Z.ones_equiv; lia).
  rewrite Z.land_ones, Z.shiftr_div_pow2 by lia. done.
Qed.

Lemma testbit_field lo w x i : 0 <= lo -> 0 <= w -> 0 <= i -> Z.testbit (field lo w x) i = (i <? w) && Z.testbit x (i + lo).
Proof.
  intros. unfold field. replace (2 ^ w - 1) with (Z.ones w) by (rewrite Z.ones_equiv; lia).
  rewrite Z.land_spec, testbit_shiftr', Z.testbit_ones by lia. destruct (Z.leb_spec 0 i); [| lia]. apply andb_comm.
Qed.

Lemma field_range lo w x : 0 <= w -> inu w (field lo w x).
Proof.
  intros Hw. unfold field. replace (2 ^ w - 1) with (Z.ones w) by (rewrite Z.ones_equiv; lia).
  rewrite Z.land_ones by lia. apply Z.mod_pos_bound, pow2_pos. lia.
Qed.

(** ** Fields of the condition register *)

Ltac bit_shape := unfold b2z; repeat match goal with |- context [if ?b then _ else _] => destruct b end.

Lemma cr_bits_range x : inu 4 (cr_bits x).
Proof. unfold cr_bits. bit_shape; vm_compute; split; congruence. Qed.

Lemma upto_by_cases (P : Z -> bool) (n : nat) :
  forallb P (upto n) = true -> forall x, 0 <= x < Z.of_nat n -> P x = true.
Proof.
  intros H x Hx. rewrite forallb_forall in H. apply H, list_elem_of_In, list_elem_of_fmap.
  exists (Z.to_nat x). rewrite Z2Nat.id by lia. split; [done |]. apply elem_of_seq. lia.
Qed.

(** The emulator's format of every value of a field. *)
Lemma cr_bits_table v : 0 <= v < 16 -> inu 64 (zget m_crTable v) /\ cr_bits (zget m_crTable v) = v.
Proof.
  intros Hv.
  pose proof (upto_by_cases (fun v => let x := zget m_crTable v in
    (0 <=? x) && (x <? 2 ^ 64) && (cr_bits x =? v)) 16 ltac:(vm_compute; reflexivity) v Hv) as H.
  cbv beta zeta in H. apply andb_prop in H as [[?%Z.leb_le ?%Z.ltb_lt]%andb_prop ?%Z.eqb_eq].
  unfold inu. done.
Qed.

Lemma GetCRField_range f s : inu 4 (GetCRField f s).
Proof. apply cr_bits_range. Qed.

Lemma wf_SetCRField f v s : wf s -> 0 <= v < 16 -> wf (SetCRField f v s).
Proof. intros [] Hv. constructor; try done. apply arr_ok_zset; [done | apply (cr_bits_table v Hv)]. Qed.

Lemma GetCRField_same s f v : wf s -> 0 <= f < 8 -> 0 <= v < 16 -> GetCRField f (SetCRField f v s) = v.
Proof.
  intros Hs Hf Hv. unfold GetCRField, SetCRField. cbn [cr_val set_cr_val].
  rewrite (zget_zset_same 8 64) by (apply (wf_cr s Hs) || done). apply (cr_bits_table v Hv).
Qed.

Lemma GetCRField_other s f g v : 0 <= f -> 0 <= g -> f <> g -> GetCRField g (SetCRField f v s) = GetCRField g s.
Proof.
  intros. unfold GetCRField, SetCRField. cbn [cr_val set_cr_val]. rewrite zget_zset_other by done. done.
Qed.

Lemma nibble_range x : 0 <= (x .& 0xF) < 16.
Proof. change 0xF with (Z.ones 4). rewrite Z.land_ones by lia. apply Z.mod_pos_bound. lia. Qed.

Lemma upto_8 : upto 8 = [0; 1; 2; 3; 4; 5; 6; 7].
Proof. reflexivity. Qed.

(** Writing the fields one after the other. *)
Lemma expand_fields l cr s :
  wf s -> Forall (fun i => 0 <= i < 8) l ->
  let s' := fold_left (fun s i => SetCRField i ((cr .>> (28 - i * 4)) .& 0xF) s) l s in
  wf s' /\ forall f, 0 <= f < 8 ->
    GetCRField f s' = if decide (f ∈ l) then (cr .>> (28 - f * 4)) .& 0xF else GetCRField f s.
Proof.
  intros Hs Hl. revert s Hs. induction Hl as [| i l Hi _ IH]; intros s Hs; cbn [fold_left].
  - split; [done |]. intros f _. rewrite decide_False by (by intros ?%not_elem_of_nil). done.
  - destruct (IH _ (wf_SetCRField i _ s Hs (nibble_range (cr .>> (28 - i * 4))))) as [W G]. split; [done |]. intros f Hf.
    rewrite G by done. destruct (decide (f = i)) as [-> | N].
    + rewrite GetCRField_same by (done || apply nibble_range).
      rewrite (decide_True (P := i ∈ i :: l)) by left. destruct (decide _); done.
    + rewrite GetCRField_other by lia. apply decide_ext. rewrite elem_of_cons. tauto.
Qed.

Lemma wf_ExpandCR cr s : wf s -> wf (ExpandCR cr s).
Proof. intros Hs. apply expand_fields; [done |]. rewrite upto_8. repeat (apply Forall_cons; split; [lia |]); by apply Forall_nil. Qed.

Lemma GetCRField_ExpandCR cr s f :
  wf s -> 0 <= f < 8 -> GetCRField f (ExpandCR cr s) = (cr .>> (28 - f * 4)) .& 0xF.
Proof.
  intros Hs Hf. unfold ExpandCR.
  destruct (expand_fields (upto 8) cr s Hs) as [_ G].
  { rewrite upto_8. repeat (apply Forall_cons; split; [lia |]); by apply Forall_nil. }
  rewrite G, decide_True; [done | | done]. apply list_elem_of_fmap. exists (Z.to_nat f).
  rewrite Z2Nat.id by lia. split; [done |]. apply elem_of_seq. lia.
Qed.

(** Bit [b] of the condition register, counted from the left. *)
Lemma testbit_small x w i : inu w x -> 0 <= w <= i -> Z.testbit x i = false.
Proof. intros. apply (testbit_inu_high w); (done || lia). Qed.

Lemma testbit_fold_fields l s acc i :
  0 <= i < 32 -> Forall (fun f => 0 <= f < 8) l ->
  Z.testbit (fold_left (fun new_cr f => u32 (new_cr .| (GetCRField f s .<< (28 - f * 4)))) l acc) i =
    Z.testbit acc i || (bool_decide (7 - i / 4 ∈ l) && Z.testbit (GetCRField (7 - i / 4) s) (i mod 4)).
Proof.
  intros Hi Hl. revert acc. induction Hl as [| f l Hf _ IH]; intros acc; cbn [fold_left].
  - rewrite bool_decide_eq_false_2 by (by intros ?%not_elem_of_nil). rewrite orb_false_r. done.
  - rewrite IH, testbit_wrapu, Z.lor_spec, testbit_shiftl' by lia.
    destruct (Z.ltb_spec i 32); [| lia]. destruct (Z.leb_spec 0 i); [| lia]. cbn [andb].
    rewrite <- orb_assoc. f_equal. destruct (decide (f = 7 - i / 4)) as [E | N].
    + rewrite (bool_decide_eq_true_2 (_ ∈ f :: l)) by (rewrite E; left). cbn [andb].
      rewrite E. replace (i - (28 - (7 - i / 4) * 4)) with (i mod 4) by (Z.to_euclidean_division_equations; lia).
      destruct (Z.testbit _ _), (bool_decide _); done.
    + assert (Z.testbit (GetCRField f s) (i - (28 - f * 4)) = false) as ->.
      { destruct (Z.ltb_spec (i - (28 - f * 4)) 0); [apply Z.testbit_neg_r; lia |].
        apply (testbit_small _ 4); [apply GetCRField_range |]. Z.to_euclidean_division_equations. lia. }
      cbn [orb]. f_equal. apply bool_decide_ext. rewrite elem_of_cons. split; [auto | intros [? |]; [congruence | done]].
Qed.

Lemma testbit_CompactCR s i :
  0 <= i < 32 -> Z.testbit (CompactCR s) i = Z.testbit (GetCRField (7 - i / 4) s) (i mod 4).
Proof.
  intros Hi. unfold CompactCR. rewrite testbit_fold_fields.
  - rewrite Z.testbit_0_l, bool_decide_eq_true_2; [done |]. rewrite upto_8, !elem_of_cons.
    assert (0 <= i / 4 < 8) by (Z.to_euclidean_division_equations; lia). lia.
  - done.
  - rewrite upto_8. repeat (apply Forall_cons; split; [lia |]); by apply Forall_nil.
Qed.

Lemma CompactCR_range s : inu 32 (CompactCR s).
Proof. unfold CompactCR. rewrite upto_8. cbn [fold_left]. range. Qed.

Lemma land_1_testbit x : (x .& 1) = b2z (Z.testbit x 0).
Proof. change 1 with (Z.ones 1). rewrite Z.land_ones by lia. change (2 ^ 1) with 2. rewrite Z.bit0_mod. done. Qed.

Lemma GetCRBit_testbit b s : 0 <= b -> GetCRBit b s = b2z (Z.testbit (GetCRField (b / 4) s) (3 - b mod 4)).
Proof.
  intros Hb. unfold GetCRBit. rewrite land_1_testbit, testbit_shiftr'. cbn [Z.leb Z.compare andb].
  change 3 with (Z.ones 2) at 2. rewrite Z.land_ones, Z.shiftr_div_pow2 by lia. done.
Qed.

(** Setting one bit of a field. *)
Lemma with_bit x j v i :
  inu 4 x -> 0 <= j < 4 -> 0 <= i < 4 ->
  let y := if flag v 1 then x .| (0x8 .>> j) else x .& .~ (0x8 .>> j) in
  0 <= y < 16 /\ Z.testbit y i = if decide (i = 3 - j) then Z.testbit v 0 else Z.testbit x i.
Proof.
  intros Hx Hj Hi. cbv zeta.
  assert (E : 0x8 .>> j = 2 ^ (3 - j)).
  { change 8 with (2 ^ 3). rewrite Z.shiftr_div_pow2, <- Z.pow_sub_r by lia. done. }
  assert (T : forall k, Z.testbit (0x8 .>> j) k = (k =? 3 - j)).
  { intros k. rewrite E. destruct (Z.eqb_spec k (3 - j)) as [-> |]; [apply Z.pow2_bits_true; lia | apply Z.pow2_bits_false; lia]. }
  change 1 with (2 ^ 0). rewrite flag_testbit by lia.
  assert (R : forall y, (forall k, 4 <= k -> Z.testbit y k = false) -> 0 <= y < 16)
    by (intros y Hy; apply (inu_testbit 4 y); [lia | exact Hy]).
  destruct (Z.testbit v 0); (split; [apply R; intros k Hk |]).
  - rewrite Z.lor_spec, T, (testbit_small x 4) by (done || lia). destruct (Z.eqb_spec k (3 - j)); [lia | done].
  - rewrite Z.lor_spec, T. destruct (Z.eqb_spec i (3 - j)) as [-> |].
    + rewrite decide_True by done. apply orb_true_r.
    + rewrite decide_False by done. apply orb_false_r.
  - rewrite Z.land_spec, (testbit_small x 4) by (done || lia). done.
  - rewrite Z.land_spec, Z.lnot_spec, T by lia. destruct (Z.eqb_spec i (3 - j)) as [-> |].
    + rewrite decide_True by done. apply andb_false_r.
    + rewrite decide_False by done. apply andb_true_r.
Qed.

Lemma bit_position b : 0 <= b < 32 -> (b .>> 2) = b / 4 /\ (b .& 3) = b mod 4.
Proof.
  intros. change 3 with (Z.ones 2). rewrite Z.land_ones, Z.shiftr_div_pow2 by lia. done.
Qed.

Lemma wf_SetCRBit b v s : wf s -> 0 <= b < 32 -> wf (SetCRBit b v s).
Proof.
  intros Hs Hb. unfold SetCRBit. destruct (bit_position b Hb) as [-> ->]. cbv zeta.
  destruct (with_bit (GetCRField (b / 4) s) (b mod 4) v 0) as [R _]; [apply GetCRField_range | | lia |].
  { apply Z.mod_pos_bound. lia. }
  cbv zeta in R. destruct (flag v 1); apply wf_SetCRField; done.
Qed.

Lemma GetCRBit_SetCRBit b b' v s :
  wf s -> 0 <= b < 32 -> 0 <= b' < 32 ->
  GetCRBit b' (SetCRBit b v s) = if decide (b' = b) then v .& 1 else GetCRBit b' s.
Proof.
  intros Hs Hb Hb'. rewrite !GetCRBit_testbit by lia. unfold SetCRBit. cbv zeta.
  destruct (bit_position b Hb) as [-> ->].
  set (y := if flag v 1 then GetCRField (b / 4) s .| (8 .>> b mod 4) else GetCRField (b / 4) s .& .~ (8 .>> b mod 4)).
  assert (Hm : forall x, 0 <= x mod 4 < 4) by (intros; apply Z.mod_pos_bound; lia).
  pose proof (Hm b) as Hmb. pose proof (Hm b') as Hmb'.
  destruct (with_bit (GetCRField (b / 4) s) (b mod 4) v (3 - b' mod 4)) as [R T];
    [apply GetCRField_range | done | lia |]. cbv zeta in R, T. fold y in R, T.
  replace (if flag v 1 then SetCRField (b / 4) (GetCRField (b / 4) s .| (8 .>> b mod 4)) s
           else SetCRField (b / 4) (GetCRField (b / 4) s .& .~ (8 .>> b mod 4)) s)
    with (SetCRField (b / 4) y s) by (subst y; destruct (flag v 1); done).
  assert (Hd : 0 <= b / 4 < 8 /\ 0 <= b' / 4 < 8) by (Z.to_euclidean_division_equations; lia).
  destruct (decide (b' / 4 = b / 4)) as [E | N].
  - rewrite E, GetCRField_same, T by (done || lia). rewrite land_1_testbit.
    destruct (decide (b' = b)) as [-> | N]; [rewrite decide_True by lia; done |].
    rewrite decide_False; [done |]. Z.to_euclidean_division_equations. lia.
  - rewrite GetCRField_other, decide_False by (congruence || lia). done.
Qed.

Lemma GetCRBit_GetCR b s : 0 <= b < 32 -> GetCRBit b s = b2z (Z.testbit (GetCR s) (31 - b)).
Proof.
  intros Hb. unfold GetCR. rewrite GetCRBit_testbit, testbit_CompactCR by lia. do 2 f_equal.
  - f_equal. Z.to_euclidean_division_equations. lia.
  - Z.to_euclidean_division_equations. lia.
Qed.

(** The 64-bit encoding implements the 32-bit condition register: a
    register written as a whole reads back; its fields survive writing back what
    was read; a bit that is written reads back and every other bit is unchanged;
    and the [b]-th bit is the [b]-th bit from the left of the whole register. *)
Theorem condition_register s :
  wf s ->
  (forall cr, inu 32 cr -> GetCR (SetCR cr s) = cr) /\
  (forall f, 0 <= f < 8 -> GetCRField f (SetCR (GetCR s) s) = GetCRField f s) /\
  (forall b b' v, 0 <= b < 32 -> 0 <= b' < 32 ->
     GetCRBit b' (SetCRBit b v s) = if decide (b' = b) then v .& 1 else GetCRBit b' s) /\
  (forall b, 0 <= b < 32 -> GetCRBit b s = b2z (Z.testbit (GetCR s) (31 - b))).
Proof.
  intros Hs.
  assert (P : forall cr f i, 0 <= f < 8 -> 0 <= i < 4 ->
            Z.testbit ((cr .>> (28 - f * 4)) .& 0xF) i = Z.testbit cr (28 - f * 4 + i)).
  { intros cr f i Hf Hi. change 0xF with (Z.ones 4).
    rewrite Z.land_spec, testbit_shiftr', Z.testbit_ones_nonneg by lia.
    destruct (Z.leb_spec 0 i), (Z.ltb_spec i 4); try lia. rewrite andb_true_r. cbn. f_equal. lia. }
  split; [| split; [| split]].
  - intros cr Hcr. apply Z.bits_inj'. intros i Hi. unfold GetCR, SetCR. destruct (Z.ltb_spec i 32).
    + rewrite testbit_CompactCR by lia.
      assert (0 <= 7 - i / 4 < 8 /\ 0 <= i mod 4 < 4) as [? ?] by (Z.to_euclidean_division_equations; lia).
      rewrite GetCRField_ExpandCR, P by done. f_equal. Z.to_euclidean_division_equations. lia.
    + rewrite !(testbit_small _ 32) by (done || lia || apply CompactCR_range). done.
  - intros f Hf. unfold GetCR, SetCR. rewrite GetCRField_ExpandCR by done. apply Z.bits_inj'. intros i Hi.
    destruct (Z.ltb_spec i 4).
    + rewrite P, testbit_CompactCR by lia. f_equal; [f_equal |]; Z.to_euclidean_division_equations; lia.
    + rewrite !(testbit_small _ 4); (done || lia || apply GetCRField_range || apply (nibble_range (_ .>> _))).
  - intros. apply GetCRBit_SetCRBit; done.
  - intros. apply GetCRBit_GetCR. done.
Qed.

Lemma wf_put_gpr i v s : wf s -> wf (put_gpr i v s).
Proof. intros []. constructor; try done. apply arr_ok_zset; [done | range]. Qed.

Lemma wf_put_spr i v s : wf s -> wf (put_spr i v s).
Proof. intros []. constructor; try done. apply mem_ok_mset; [done | range]. Qed.

Lemma arr_ok_replicate n w v : inu w v -> arr_ok n w (replicate n v).
Proof. intros. split; [apply length_replicate | apply Forall_replicate; done]. Qed.

Lemma mem_ok_empty w : mem_ok w (∅ : gmap Z Z).
Proof. intros a v. rewrite lookup_empty. done. Qed.

Ltac reset_part := first [ done | apply arr_ok_replicate; unfold inu; lia | unfold inu; cbn; lia | apply mem_ok_empty ].

Lemma wf_ResetRegisters s : wf s -> wf (ResetRegisters s).
Proof.
  intros []. unfold ResetRegisters. cbv zeta. apply wf_put_spr. constructor; try reset_part.
  unfold put_spr. cbn [spr set_spr set_msr set_fpscr set_cr_val set_Exceptions set_npc set_pc set_gpr set_sr].
  repeat (apply mem_ok_mset; [| range]). apply mem_ok_empty.
Qed.

Lemma wf_ppcState : wf ppcState.
Proof. constructor; reset_part. Qed.

Lemma condition_register_witness : GetCR (SetCR 0x80000003 ppcState) = 0x80000003.
Proof. exact (proj1 (condition_register ppcState wf_ppcState) 0x80000003 ltac:(unfold inu; lia)). Defined.
