(* ===== verification/PpcInteger.v ===== *)
(** The integer instructions of the PowerPC interpreter
    ([Core/PowerPC/Interpreter/Interpreter_Integer.cpp]).

    A handler takes the instruction and the processor to the processor after
    it. The theorems give the exact sums, carries and overflows of the additive
    instructions, the bits of the rotates, and the values of shifts, products
    and quotients, together with what each of them does to CR0. *)

From S2P Require Import Prelude PpcState.
Open Scope Z_scope.

(** ** Helpers *)

Definition Helper_UpdateCR0 (value : Z) (s : PowerPCState) : PowerPCState :=
  let sign_extended := s32 value in
  let cr_val' := u64 sign_extended in
  let cr_val' := (cr_val' .& .~ (1 .<< 61)) .| u64 (GetXER_SO s .<< 61) in
  set_cr_val (zset (cr_val s) 0 cr_val') s.

Definition Helper_Carry (value1 value2 : Z) : bool := u32 (.~ value1) <? value2.

(** [if (inst.Rc) Helper_UpdateCR0(value)] and [if (inst.OE) SetXER_OV(value)] *)
Definition when_Rc (inst value : Z) (s : PowerPCState) : PowerPCState :=
  if Rc inst then Helper_UpdateCR0 value s else s.
Definition when_OE (inst : Z) (value : bool) (s : PowerPCState) : PowerPCState :=
  if OE inst then SetXER_OV value s else s.

Definition HasAddOverflowed (x y result : Z) : bool :=
  negb (((x .^ result) .& (y .^ result)) .>> 31 =? 0).

Definition MakeRotationMask (mb me : Z) : Z :=
  let begin := 0xFFFFFFFF .>> mb in
  let end' := 0x7FFFFFFF .>> me in
  let mask := begin .^ end' in
  if me <? mb then u32 (.~ mask) else mask.

(** [Common::RotateLeft<u32>] *)
Definition RotateLeft (value amount : Z) : Z :=
  let amount := amount mod 32 in
  if amount =? 0 then value else u32 ((value .<< amount) .| (value .>> (32 - amount))).

(** ** Immediates *)

Definition addi (inst : Z) (s : PowerPCState) : PowerPCState :=
  if negb (RA inst =? 0) then put_gpr (RD inst) (rGPR s (RA inst) + SIMM_16 inst) s
  else put_gpr (RD inst) (SIMM_16 inst) s.

Definition addic (inst : Z) (s : PowerPCState) : PowerPCState :=
  let a := rGPR s (RA inst) in
  let imm := u32 (SIMM_16 inst) in
  SetCarry (b2z (Helper_Carry a imm)) (put_gpr (RD inst) (a + imm) s).

Definition addic_rc (inst : Z) (s : PowerPCState) : PowerPCState :=
  let s := addic inst s in Helper_UpdateCR0 (rGPR s (RD inst)) s.

Definition addis (inst : Z) (s : PowerPCState) : PowerPCState :=
  if negb (RA inst =? 0) then put_gpr (RD inst) (rGPR s (RA inst) + (SIMM_16 inst .<< 16)) s
  else put_gpr (RD inst) (SIMM_16 inst .<< 16) s.

Definition andi_rc (inst : Z) (s : PowerPCState) : PowerPCState :=
  let s := put_gpr (RA inst) (rGPR s (RS inst) .& UIMM inst) s in
  Helper_UpdateCR0 (rGPR s (RA inst)) s.

Definition andis_rc (inst : Z) (s : PowerPCState) : PowerPCState :=
  let s := put_gpr (RA inst) (rGPR s (RS inst) .& (UIMM inst .<< 16)) s in
  Helper_UpdateCR0 (rGPR s (RA inst)) s.

(** The end of the four comparisons. *)
Definition compare (a b inst : Z) (s : PowerPCState) : PowerPCState :=
  let f := if a <? b then 0x8 else if b <? a then 0x4 else 0x2 in
  let f := if negb (GetXER_SO s =? 0) then f .| 0x1 else f in
  SetCRField (CRFD inst) f s.

Definition cmpi (inst : Z) (s : PowerPCState) : PowerPCState :=
  compare (s32 (rGPR s (RA inst))) (SIMM_16 inst) inst s.
Definition cmpli (inst : Z) (s : PowerPCState) : PowerPCState :=
  compare (rGPR s (RA inst)) (UIMM inst) inst s.

Definition mulli (inst : Z) (s : PowerPCState) : PowerPCState :=
  put_gpr (RD inst) (s32 (rGPR s (RA inst)) * SIMM_16 inst) s.
Definition ori (inst : Z) (s : PowerPCState) : PowerPCState :=
  put_gpr (RA inst) (rGPR s (RS inst) .| UIMM inst) s.
Definition oris (inst : Z) (s : PowerPCState) : PowerPCState :=
  put_gpr (RA inst) (rGPR s (RS inst) .| (UIMM inst .<< 16)) s.

(** The carry is computed from the registers after the assignment. *)
Definition subfic (inst : Z) (s : PowerPCState) : PowerPCState :=
  let immediate := SIMM_16 inst in
  let s := put_gpr (RD inst) (immediate - rGPR s (RA inst)) s in
  SetCarry (b2z ((rGPR s (RA inst) =? 0) || Helper_Carry (u32 (0 - rGPR s (RA inst))) (u32 immediate))) s.

(** The condition of the traps. *)
Definition trap_condition (a b TO : Z) : bool :=
  ((s32 a <? s32 b) && flag TO 0x10) || ((s32 b <? s32 a) && flag TO 0x08) ||
  ((s32 a =? s32 b) && flag TO 0x04) || ((u32 a <? u32 b) && flag TO 0x02) || ((u32 b <? u32 a) && flag TO 0x01).

Definition trap (s : PowerPCState) : PowerPCState :=
  set_end_block true (CheckExceptions (set_Exceptions (Exceptions s .| EXCEPTION_PROGRAM) s)).

Definition twi (inst : Z) (s : PowerPCState) : PowerPCState :=
  if trap_condition (rGPR s (RA inst)) (SIMM_16 inst) (TO inst) then trap s else s.

Definition xori (inst : Z) (s : PowerPCState) : PowerPCState :=
  put_gpr (RA inst) (rGPR s (RS inst) .^ UIMM inst) s.
Definition xoris (inst : Z) (s : PowerPCState) : PowerPCState :=
  put_gpr (RA inst) (rGPR s (RS inst) .^ (UIMM inst .<< 16)) s.

(** ** Rotates *)

Definition rlwimix (inst : Z) (s : PowerPCState) : PowerPCState :=
  let mask := MakeRotationMask (MB inst) (ME inst) in
  let s := put_gpr (RA inst) ((rGPR s (RA inst) .& .~ mask) .| (RotateLeft (rGPR s (RS inst)) (SH inst) .& mask)) s in
  when_Rc inst (rGPR s (RA inst)) s.

Definition rlwinmx (inst : Z) (s : PowerPCState) : PowerPCState :=
  let mask := MakeRotationMask (MB inst) (ME inst) in
  let s := put_gpr (RA inst) (RotateLeft (rGPR s (RS inst)) (SH inst) .& mask) s in
  when_Rc inst (rGPR s (RA inst)) s.

Definition rlwnmx (inst : Z) (s : PowerPCState) : PowerPCState :=
  let mask := MakeRotationMask (MB inst) (ME inst) in
  let s := put_gpr (RA inst) (RotateLeft (rGPR s (RS inst)) (rGPR s (RB inst) .& 0x1F) .& mask) s in
  when_Rc inst (rGPR s (RA inst)) s.

(** ** Logic: [RA] takes a function of [RS] and [RB] *)

Definition logic (f : Z -> Z -> Z) (inst : Z) (s : PowerPCState) : PowerPCState :=
  let s := put_gpr (RA inst) (f (rGPR s (RS inst)) (rGPR s (RB inst))) s in
  when_Rc inst (rGPR s (RA inst)) s.

Definition andx : Z -> PowerPCState -> PowerPCState := logic (fun a b => a .& b).
Definition andcx : Z -> PowerPCState -> PowerPCState := logic (fun a b => a .& .~ b).
Definition eqvx : Z -> PowerPCState -> PowerPCState := logic (fun a b => .~ (a .^ b)).
Definition nandx : Z -> PowerPCState -> PowerPCState := logic (fun a b => .~ (a .& b)).
Definition norx : Z -> PowerPCState -> PowerPCState := logic (fun a b => .~ (a .| b)).
Definition orx : Z -> PowerPCState -> PowerPCState := logic (fun a b => a .| b).
Definition orcx : Z -> PowerPCState -> PowerPCState := logic (fun a b => a .| .~ b).
Definition xorx : Z -> PowerPCState -> PowerPCState := logic (fun a b => a .^ b).

Definition cmp (inst : Z) (s : PowerPCState) : PowerPCState :=
  compare (s32 (rGPR s (RA inst))) (s32 (rGPR s (RB inst))) inst s.
Definition cmpl (inst : Z) (s : PowerPCState) : PowerPCState :=
  compare (rGPR s (RA inst)) (rGPR s (RB inst)) inst s.

(** The loop of [cntlzwx]: [n] iterations are left. *)
Fixpoint count_zeros (n : nat) (i mask val : Z) : Z :=
  match n with
  | O => i
  | S n' => if flag val mask then i else count_zeros n' (i + 1) (mask .>> 1) val
  end.

Definition cntlzwx (inst : Z) (s : PowerPCState) : PowerPCState :=
  let s := put_gpr (RA inst) (count_zeros 32 0 0x80000000 (rGPR s (RS inst))) s in
  when_Rc inst (rGPR s (RA inst)) s.

Definition extsbx (inst : Z) (s : PowerPCState) : PowerPCState :=
  let s := put_gpr (RA inst) (s8 (rGPR s (RS inst))) s in
  when_Rc inst (rGPR s (RA inst)) s.
Definition extshx (inst : Z) (s : PowerPCState) : PowerPCState :=
  let s := put_gpr (RA inst) (s16 (rGPR s (RS inst))) s in
  when_Rc inst (rGPR s (RA inst)) s.

(** ** Shifts *)

Definition slwx (inst : Z) (s : PowerPCState) : PowerPCState :=
  let amount := rGPR s (RB inst) in
  let s := put_gpr (RA inst) (if flag amount 0x20 then 0 else rGPR s (RS inst) .<< (amount .& 0x1f)) s in
  when_Rc inst (rGPR s (RA inst)) s.

Definition srwx (inst : Z) (s : PowerPCState) : PowerPCState :=
  let amount := rGPR s (RB inst) in
  let s := put_gpr (RA inst) (if flag amount 0x20 then 0 else rGPR s (RS inst) .>> (amount .& 0x1f)) s in
  when_Rc inst (rGPR s (RA inst)) s.

(** The arithmetic shift right of both [srawx] and [srawix]. *)
Definition shift_arithmetic (amount inst : Z) (s : PowerPCState) : PowerPCState :=
  let rrs := s32 (rGPR s (RS inst)) in
  let s := put_gpr (RA inst) (rrs .>> amount) s in
  SetCarry (b2z ((rrs <? 0) && (0 <? amount) && negb (u32 (u32 rrs .<< (32 - amount)) =? 0))) s.

Definition srawx (inst : Z) (s : PowerPCState) : PowerPCState :=
  let rb := rGPR s (RB inst) in
  let s :=
    if flag rb 0x20 then
      if flag (rGPR s (RS inst)) 0x80000000
      then SetCarry 1 (put_gpr (RA inst) 0xFFFFFFFF s)
      else SetCarry 0 (put_gpr (RA inst) 0x00000000 s)
    else shift_arithmetic (rb .& 0x1f) inst s in
  when_Rc inst (rGPR s (RA inst)) s.

Definition srawix (inst : Z) (s : PowerPCState) : PowerPCState :=
  let s := shift_arithmetic (SH inst) inst s in
  when_Rc inst (rGPR s (RA inst)) s.

Definition tw (inst : Z) (s : PowerPCState) : PowerPCState :=
  if trap_condition (rGPR s (RA inst)) (rGPR s (RB inst)) (TO inst) then trap s else s.

(** ** Sums *)

Definition addx (inst : Z) (s : PowerPCState) : PowerPCState :=
  let a := rGPR s (RA inst) in
  let b := rGPR s (RB inst) in
  let result := u32 (a + b) in
  let s := put_gpr (RD inst) result s in
  let s := when_OE inst (HasAddOverflowed a b result) s in
  when_Rc inst result s.

Definition addcx (inst : Z) (s : PowerPCState) : PowerPCState :=
  let a := rGPR s (RA inst) in
  let b := rGPR s (RB inst) in
  let result := u32 (a + b) in
  let s := put_gpr (RD inst) result s in
  let s := SetCarry (b2z (Helper_Carry a b)) s in
  let s := when_OE inst (HasAddOverflowed a b result) s in
  when_Rc inst result s.

Definition addex (inst : Z) (s : PowerPCState) : PowerPCState :=
  let carry := GetCarry s in
  let a := rGPR s (RA inst) in
  let b := rGPR s (RB inst) in
  let result := u32 (a + b + carry) in
  let s := put_gpr (RD inst) result s in
  let s := SetCarry (b2z (Helper_Carry a b || (negb (carry =? 0) && Helper_Carry (u32 (a + b)) carry))) s in
  let s := when_OE inst (HasAddOverflowed a b result) s in
  when_Rc inst result s.

Definition addmex (inst : Z) (s : PowerPCState) : PowerPCState :=
  let carry := GetCarry s in
  let a := rGPR s (RA inst) in
  let b := 0xFFFFFFFF in
  let result := u32 (a + b + carry) in
  let s := put_gpr (RD inst) result s in
  let s := SetCarry (b2z (Helper_Carry a (u32 (carry - 1)))) s in
  let s := when_OE inst (HasAddOverflowed a b result) s in
  when_Rc inst result s.

Definition addzex (inst : Z) (s : PowerPCState) : PowerPCState :=
  let carry := GetCarry s in
  let a := rGPR s (RA inst) in
  let result := u32 (a + carry) in
  let s := put_gpr (RD inst) result s in
  let s := SetCarry (b2z (Helper_Carry a carry)) s in
  let s := when_OE inst (HasAddOverflowed a 0 result) s in
  when_Rc inst result s.

Definition negx (inst : Z) (s : PowerPCState) : PowerPCState :=
  let a := rGPR s (RA inst) in
  let s := put_gpr (RD inst) (u32 (.~ a) + 1) s in
  let s := when_OE inst (a =? 0x80000000) s in
  when_Rc inst (rGPR s (RD inst)) s.

Definition subfx (inst : Z) (s : PowerPCState) : PowerPCState :=
  let a := u32 (.~ (rGPR s (RA inst))) in
  let b := rGPR s (RB inst) in
  let result := u32 (a + b + 1) in
  let s := put_gpr (RD inst) result s in
  let s := when_OE inst (HasAddOverflowed a b result) s in
  when_Rc inst result s.

Definition subfcx (inst : Z) (s : PowerPCState) : PowerPCState :=
  let a := u32 (.~ (rGPR s (RA inst))) in
  let b := rGPR s (RB inst) in
  let result := u32 (a + b + 1) in
  let s := put_gpr (RD inst) result s in
  let s := SetCarry (b2z ((a =? 0xFFFFFFFF) || Helper_Carry b (u32 (a + 1)))) s in
  let s := when_OE inst (HasAddOverflowed a b result) s in
  when_Rc inst result s.

Definition subfex (inst : Z) (s : PowerPCState) : PowerPCState :=
  let a := u32 (.~ (rGPR s (RA inst))) in
  let b := rGPR s (RB inst) in
  let carry := GetCarry s in
  let result := u32 (a + b + carry) in
  let s := put_gpr (RD inst) result s in
  let s := SetCarry (b2z (Helper_Carry a b || Helper_Carry (u32 (a + b)) carry)) s in
  let s := when_OE inst (HasAddOverflowed a b result) s in
  when_Rc inst result s.

Definition subfmex (inst : Z) (s : PowerPCState) : PowerPCState :=
  let a := u32 (.~ (rGPR s (RA inst))) in
  let b := 0xFFFFFFFF in
  let carry := GetCarry s in
  let result := u32 (a + b + carry) in
  let s := put_gpr (RD inst) result s in
  let s := SetCarry (b2z (Helper_Carry a (u32 (carry - 1)))) s in
  let s := when_OE inst (HasAddOverflowed a b result) s in
  when_Rc inst result s.

Definition subfzex (inst : Z) (s : PowerPCState) : PowerPCState :=
  let a := u32 (.~ (rGPR s (RA inst))) in
  let carry := GetCarry s in
  let result := u32 (a + carry) in
  let s := put_gpr (RD inst) result s in
  let s := SetCarry (b2z (Helper_Carry a carry)) s in
  let s := when_OE inst (HasAddOverflowed a 0 result) s in
  when_Rc inst result s.

(** ** Products and quotients *)

Definition divwx (inst : Z) (s : PowerPCState) : PowerPCState :=
  let a := s32 (rGPR s (RA inst)) in
  let b := s32 (rGPR s (RB inst)) in
  let overflow := (b =? 0) || ((u32 a =? 0x80000000) && (b =? -1)) in
  let s := put_gpr (RD inst)
             (if overflow then if a <? 0 then 0xFFFFFFFF else 0 else Z.quot a b) s in
  let s := when_OE inst overflow s in
  when_Rc inst (rGPR s (RD inst)) s.

Definition divwux (inst : Z) (s : PowerPCState) : PowerPCState :=
  let a := rGPR s (RA inst) in
  let b := rGPR s (RB inst) in
  let overflow := b =? 0 in
  let s := put_gpr (RD inst) (if overflow then 0 else a / b) s in
  let s := when_OE inst overflow s in
  when_Rc inst (rGPR s (RD inst)) s.

Definition mulhwx (inst : Z) (s : PowerPCState) : PowerPCState :=
  let a := s32 (rGPR s (RA inst)) in
  let b := s32 (rGPR s (RB inst)) in
  let d := u32 (s64 (a * b) .>> 32) in
  when_Rc inst d (put_gpr (RD inst) d s).

Definition mulhwux (inst : Z) (s : PowerPCState) : PowerPCState :=
  let a := rGPR s (RA inst) in
  let b := rGPR s (RB inst) in
  let d := u32 (u64 (a * b) .>> 32) in
  when_Rc inst d (put_gpr (RD inst) d s).

Definition mullwx (inst : Z) (s : PowerPCState) : PowerPCState :=
  let a := s32 (rGPR s (RA inst)) in
  let b := s32 (rGPR s (RB inst)) in
  let result := s64 (a * b) in
  let s := put_gpr (RD inst) result s in
  let s := when_OE inst ((result <? -0x80000000) || (0x7FFFFFFF <? result)) s in
  when_Rc inst (rGPR s (RD inst)) s.

(** ** CR0 of a result *)

(** The bits of CR0 for a result and the summary overflow: less, greater,
    equal, and a copy of SO. A zero result is also reported as greater when SO
    is set, because the encoding is then positive. *)
Definition cr0_of (v : Z) (so : bool) : Z :=
  (b2z (s32 v <? 0) .<< 3) .| (b2z ((0 <? s32 v) || ((v =? 0) && so)) .<< 2) .| (b2z (v =? 0) .<< 1) .| b2z so.

Lemma testbit_sign_extend v i :
  inu 32 v -> 0 <= i -> Z.testbit (s32 v) i = Z.testbit v (Z.min i 31).
Proof.
  intros Hv Hi. unfold inu in Hv. rewrite wraps_unsigned by (unfold inu; lia). change (2 ^ (32 - 1)) with (2 ^ 31).
  destruct (Z.ltb_spec v (2 ^ 31)) as [Hs | Hs].
  - destruct (Z.leb_spec i 31); [rewrite Z.min_l by lia; done | rewrite Z.min_r by lia].
    rewrite !(testbit_small v 31) by (unfold inu; lia). done.
  - replace (v - 2 ^ 32) with (.~ (2 ^ 32 - 1 - v)) by (unfold Z.lnot; lia).
    rewrite Z.lnot_spec by done. destruct (Z.leb_spec i 31).
    + rewrite Z.min_l by lia. replace (2 ^ 32 - 1 - v) with (Z.ones 32 - v) by (rewrite Z.ones_equiv; lia).
      rewrite Z.sub_nocarry_ldiff by (apply Z.ldiff_ones_r_low; [lia |]; destruct (decide (v = 0)) as [-> |]; [done | apply Z.log2_lt_pow2; lia]).
      rewrite Z.ldiff_spec, Z.testbit_ones_nonneg by lia. destruct (Z.ltb_spec i 32); [| lia]. cbn. apply negb_involutive.
    + rewrite Z.min_r, (testbit_small _ 31) by (unfold inu; lia). symmetry. cbn [negb].
      apply Z.testbit_true; [lia |]. Z.to_euclidean_division_equations. lia.
Qed.

(** Positive as a signed integer: the sign bit is clear and some bit is set. *)
Lemma positive_s64 w : inu 64 w -> (0 <? s64 w) = negb (Z.testbit w 63) && negb (w =? 0).
Proof.
  intros Hw. rewrite wraps_unsigned by (done || lia). unfold inu in Hw. change (2 ^ (64 - 1)) with (2 ^ 63).
  destruct (Z.ltb_spec w (2 ^ 63)).
  - rewrite (testbit_small w 63) by (unfold inu; lia). cbn [negb andb].
    destruct (Z.ltb_spec 0 w), (Z.eqb_spec w 0); (done || lia).
  - assert (Z.testbit w 63 = true) as ->.
    { apply Z.testbit_true; [lia |]. Z.to_euclidean_division_equations. lia. }
    cbn. destruct (Z.ltb_spec 0 (w - 2 ^ 64)); [lia | done].
Qed.

Lemma testbit_b2z b i : Z.testbit (b2z b) i = b && (i =? 0).
Proof.
  destruct b; cbn [b2z andb]; [| apply Z.testbit_0_l]. change 1 with (2 ^ 0). rewrite Z.pow2_bits_eqb by lia. apply Z.eqb_sym.
Qed.

Lemma flag_pow a k : 0 <= k -> flag a (1 .<< k) = Z.testbit a k.
Proof. intros. rewrite Z.shiftl_mul_pow2, Z.mul_1_l by done. apply flag_testbit. done. Qed.

(** The encoding that [Helper_UpdateCR0] builds. *)
Lemma cr_bits_result v so :
  inu 32 v ->
  let w := (u64 (s32 v) .& .~ (1 .<< 61)) .| u64 (b2z so .<< 61) in
  inu 64 w /\ cr_bits w = cr0_of v so.
Proof.
  intros Hv w.
  assert (T : forall i, 0 <= i -> Z.testbit w i = (i <? 64) && (if decide (i = 61) then so else Z.testbit v (Z.min i 31))).
  { intros i Hi. subst w. rewrite Z.lor_spec, Z.land_spec, Z.lnot_spec, !testbit_wrapu, testbit_sign_extend by (done || lia).
    rewrite !testbit_shiftl', testbit_b2z. change (Z.testbit 1) with (Z.testbit (2 ^ 0)). rewrite Z.pow2_bits_eqb by lia.
    destruct (Z.leb_spec 0 i); [| lia]. destruct (Z.ltb_spec i 64); [| done]. cbn [andb].
    destruct (decide (i = 61)) as [-> | N].
    - cbn. rewrite andb_true_r, andb_false_r. done.
    - replace (0 =? i - 61) with false by (symmetry; apply Z.eqb_neq; lia).
      replace (i - 61 =? 0) with false by (symmetry; apply Z.eqb_neq; lia).
      rewrite andb_true_r, andb_false_r, orb_false_r. done. }
  assert (Hw : inu 64 w).
  { apply inu_testbit; [lia |]. intros i Hi. rewrite T by lia. destruct (Z.ltb_spec i 64); [lia | done]. }
  assert (Hlow : (w .& 0xFFFFFFFF) = v).
  { change 0xFFFFFFFF with (Z.ones 32). apply Z.bits_inj'. intros i Hi. rewrite Z.land_spec, T, Z.testbit_ones_nonneg by lia.
    destruct (Z.ltb_spec i 32), (Z.ltb_spec i 64); try lia; cbn [andb]; rewrite ?andb_false_r, ?andb_true_r.
    - rewrite decide_False by lia. f_equal. lia.
    - symmetry. apply (testbit_small v 32); (done || lia).
    - symmetry. apply (testbit_small v 32); (done || lia). }
  assert (Hsign : Z.testbit v 31 = (s32 v <? 0)).
  { rewrite wraps_unsigned by (done || lia). unfold inu in Hv. change (2 ^ (32 - 1)) with (2 ^ 31). destruct (Z.ltb_spec v (2 ^ 31)).
    - rewrite (testbit_small v 31) by (unfold inu; lia). destruct (Z.ltb_spec v 0); [lia | done].
    - destruct (Z.ltb_spec (v - 2 ^ 32) 0); [| lia]. apply Z.testbit_true; [lia |]. Z.to_euclidean_division_equations. lia. }
  assert (T61 : Z.testbit w 61 = so) by (rewrite T by lia; reflexivity).
  assert (T62 : Z.testbit w 62 = Z.testbit v 31) by (rewrite T by lia; reflexivity).
  assert (T63 : Z.testbit w 63 = Z.testbit v 31) by (rewrite T by lia; reflexivity).
  split; [done |]. unfold cr_bits, cr0_of. rewrite !flag_pow, Hlow, positive_s64, T61, T62, T63 by (done || lia).
  assert (Hz : (w =? 0) = (v =? 0) && negb so).
  { destruct (Z.eqb_spec w 0) as [E | N].
    - rewrite E in Hlow. rewrite <- Hlow. cbn. rewrite <- T61, E. done.
    - destruct (Z.eqb_spec v 0) as [-> |]; [| done]. destruct so; [done |]. exfalso. apply N.
      apply Z.bits_inj'. intros i Hi. rewrite T, !Z.testbit_0_l by done. destruct (decide (i = 61)); apply andb_false_r. }
  rewrite Hsign, Hz. clearbody w. clear T Hw Hlow Hsign T61 T62 T63 Hz.
  rewrite wraps_unsigned by (done || lia). unfold inu in Hv. change (2 ^ (32 - 1)) with (2 ^ 31).
  destruct (Z.ltb_spec v (2 ^ 31)), (Z.eqb_spec v 0), so; cbn [negb andb orb b2z]; try lia;
    try (destruct (Z.ltb_spec v 0); [lia |]); try (destruct (Z.ltb_spec 0 v); [| lia]);
    try (destruct (Z.ltb_spec (v - 2 ^ 32) 0); [| lia]); try (destruct (Z.ltb_spec 0 (v - 2 ^ 32)); [lia |]); try subst v; reflexivity.
Qed.

(** ** The effect of an instruction *)

(** All but the general registers, the condition register and XER's carry,
    overflow and summary overflow. *)
Definition others (s : PowerPCState) : PowerPCState := set_gpr [] (set_cr_val [] (set_xer_ca 0 (set_xer_so_ov 0 s))).

(** [s'] is [s] with [res] in register [d] and [ca] in the carry; OV and SO are
    updated with [ov] if [oe], CR0 with the result if [rc]; nothing else changes. *)
Record outcome (d : Z) (oe rc : bool) (res ca : Z) (ov : bool) (s s' : PowerPCState) : Prop := {
  o_wf : wf s';
  o_result : rGPR s' d = res;
  o_others : forall i, 0 <= i -> i <> d -> rGPR s' i = rGPR s i;
  o_ca : xer_ca s' = ca;
  o_ov : GetXER_OV s' = if oe then b2z ov else GetXER_OV s;
  o_so : GetXER_SO s' = if oe then Z.max (b2z ov) (GetXER_SO s) else GetXER_SO s;
  o_cr0 : GetCRField 0 s' = if rc then cr0_of res (negb (GetXER_SO s' =? 0)) else GetCRField 0 s;
  o_crs : forall f, 0 < f < 8 -> GetCRField f s' = GetCRField f s;
  o_rest : others s' = others s
}.

(** Two-bit values: SO and OV. *)
Lemma so_ov_cases x : inu 2 x -> x = 0 \/ x = 1 \/ x = 2 \/ x = 3.
Proof. unfold inu. lia. Qed.

Lemma register_range lo w inst : 0 <= w -> 0 <= field lo w inst < 2 ^ w.
Proof.
  intros Hw. unfold field. replace (2 ^ w - 1) with (Z.ones w) by (rewrite Z.ones_equiv; lia).
  rewrite Z.land_ones by lia. apply Z.mod_pos_bound, pow2_pos. lia.
Qed.

Lemma rGPR_put s i j v :
  wf s -> 0 <= i < 32 -> 0 <= j -> rGPR (put_gpr i v s) j = if decide (j = i) then u32 v else rGPR s j.
Proof.
  intros Hs Hi Hj. unfold rGPR, put_gpr. cbn [gpr set_gpr]. destruct (decide (j = i)) as [-> |].
  - apply (zget_zset_same 32 32); [apply (wf_gpr s Hs) | lia].
  - apply zget_zset_other; lia.
Qed.

Lemma rGPR_range s i : wf s -> inu 32 (rGPR s i).
Proof. intros Hs. apply (arr_ok_zget 32); [lia | apply (wf_gpr s Hs)]. Qed.

(** The shape of every handler that writes a register and then its flags. *)
Definition finish (d : Z) (oe rc : bool) (res ca : Z) (ov : bool) (s : PowerPCState) : PowerPCState :=
  let s := set_xer_ca ca (put_gpr d res s) in
  let s := if oe then SetXER_OV ov s else s in
  if rc then Helper_UpdateCR0 res s else s.

Lemma SetXER_OV_spec ov s :
  wf s -> let s' := SetXER_OV ov s in
  wf s' /\ GetXER_OV s' = b2z ov /\ GetXER_SO s' = Z.max (b2z ov) (GetXER_SO s).
Proof.
  intros Hs. cbv zeta. unfold SetXER_OV, SetXER_SO, GetXER_OV, GetXER_SO. cbn [xer_so_ov set_xer_so_ov].
  destruct (so_ov_cases _ (wf_so_ov s Hs)) as [E | [E | [E | E]]]; rewrite E; destruct ov;
    (split; [destruct Hs; constructor; try done; cbn; vm_compute; split; congruence | done]).
Qed.

Lemma Helper_UpdateCR0_spec res s :
  wf s -> inu 32 res -> let s' := Helper_UpdateCR0 res s in
  wf s' /\ GetCRField 0 s' = cr0_of res (negb (GetXER_SO s =? 0)) /\
  forall f, 0 < f < 8 -> GetCRField f s' = GetCRField f s.
Proof.
  intros Hs Hr. cbv zeta. unfold Helper_UpdateCR0, GetCRField. cbn [cr_val set_cr_val].
  destruct (cr_bits_result res (negb (GetXER_SO s =? 0)) Hr) as [R E]. cbv zeta in R, E.
  assert (Eso : b2z (negb (GetXER_SO s =? 0)) = GetXER_SO s).
  { unfold GetXER_SO. destruct (so_ov_cases _ (wf_so_ov s Hs)) as [X | [X | [X | X]]]; rewrite X; done. }
  rewrite Eso in R, E. split; [| split].
  - pose proof (wf_cr s Hs). destruct Hs. constructor; try done. apply arr_ok_zset; done.
  - rewrite (zget_zset_same 8 64) by (lia || apply (wf_cr s Hs)). exact E.
  - intros f Hf. rewrite zget_zset_other by lia. done.
Qed.

Lemma outcome_finish d oe rc res ca ov s :
  wf s -> 0 <= d < 32 -> inu 32 res -> inu 1 ca ->
  outcome d oe rc res ca ov s (finish d oe rc res ca ov s).
Proof.
  intros Hs Hd Hr Hca. unfold finish. set (s1 := set_xer_ca ca (put_gpr d res s)).
  assert (W1 : wf s1) by (destruct (wf_put_gpr d res s Hs); constructor; done).
  assert (G1 : forall i, 0 <= i -> rGPR s1 i = if decide (i = d) then res else rGPR s i).
  { intros i Hi. change (rGPR s1 i) with (rGPR (put_gpr d res s) i). rewrite rGPR_put by done.
    destruct (decide (i = d)); [apply wrapu_id; done | done]. }
  assert (H2 : let s2 := if oe then SetXER_OV ov s1 else s1 in
    wf s2 /\ GetXER_OV s2 = (if oe then b2z ov else GetXER_OV s) /\
    GetXER_SO s2 = (if oe then Z.max (b2z ov) (GetXER_SO s) else GetXER_SO s) /\
    set_xer_so_ov 0 s2 = set_xer_so_ov 0 s1).
  { cbv zeta. destruct oe; [destruct (SetXER_OV_spec ov s1 W1) as (W & E & E') |].
    - split; [exact W | split; [exact E | split; [exact E' | done]]].
    - split; [exact W1 | done]. }
  cbv zeta in H2. destruct H2 as (W2 & Eov & Eso & Esame). set (s2 := if oe then _ else s1) in *.
  assert (F : forall A (f : PowerPCState -> A), (forall s, f (set_xer_so_ov 0 s) = f s) -> f s2 = f s1).
  { intros A f Hf. rewrite <- (Hf s2), <- (Hf s1), Esame. done. }
  assert (H3 : let s3 := if rc then Helper_UpdateCR0 res s2 else s2 in
    wf s3 /\ GetCRField 0 s3 = (if rc then cr0_of res (negb (GetXER_SO s2 =? 0)) else GetCRField 0 s) /\
    (forall f, 0 < f < 8 -> GetCRField f s3 = GetCRField f s) /\ set_cr_val [] s3 = set_cr_val [] s2).
  { cbv zeta. assert (C : forall f, GetCRField f s2 = GetCRField f s) by (intros f; apply (F Z (GetCRField f)); done).
    destruct rc.
    - destruct (Helper_UpdateCR0_spec res s2 W2 Hr) as (W & E & Hf).
      split; [exact W | split; [exact E | split; [intros f R; rewrite Hf by done; apply C | done]]].
    - split; [exact W2 | split; [apply C | split; [intros f _; apply C | done]]]. }
  cbv zeta in H3. destruct H3 as (W3 & E0 & Ef & Esame3). set (s3 := if rc then _ else s2) in *.
  assert (F3 : forall A (f : PowerPCState -> A), (forall s, f (set_cr_val [] s) = f s) -> f s3 = f s2).
  { intros A f Hf. rewrite <- (Hf s3), <- (Hf s2), Esame3. done. }
  constructor.
  - exact W3.
  - rewrite (F3 Z (fun s => rGPR s d)), (F Z (fun s => rGPR s d)), G1 by (done || lia). apply decide_True. done.
  - intros i Hi N. rewrite (F3 Z (fun s => rGPR s i)), (F Z (fun s => rGPR s i)), G1, decide_False by done. done.
  - rewrite (F3 Z xer_ca), (F Z xer_ca) by done. done.
  - rewrite (F3 Z GetXER_OV) by done. exact Eov.
  - rewrite (F3 Z GetXER_SO) by done. exact Eso.
  - rewrite (F3 Z GetXER_SO) by done. exact E0.
  - exact Ef.
  - rewrite (F3 _ others), (F _ others) by done. done.
Qed.

(** ** Sums *)

(** What an instruction does to the carry: nothing, the carry out of the sum,
    or the carry out of the sum but none when there was a carry in. *)
Inductive Carry := Keeps | Exact | Exact_without_carry_in.

(** The three numbers an instruction adds, and the flags it may set. *)
Record sum_op := mk_sum {
  op : Z -> PowerPCState -> PowerPCState;
  operands : Z -> PowerPCState -> Z * Z * Z;
  carry : Carry;
  has_oe : Z -> bool;
  has_rc : Z -> bool
}.

Definition none (inst : Z) : bool := false.
Definition ra (inst : Z) (s : PowerPCState) : Z := rGPR s (RA inst).
Definition rb (inst : Z) (s : PowerPCState) : Z := rGPR s (RB inst).
Definition not_ra (inst : Z) (s : PowerPCState) : Z := u32 (.~ (rGPR s (RA inst))).
Definition ra_or_zero (inst : Z) (s : PowerPCState) : Z := if RA inst =? 0 then 0 else rGPR s (RA inst).

Definition sum_ops : list sum_op := [
  mk_sum addi (fun i s => (ra_or_zero i s, u32 (SIMM_16 i), 0)) Keeps none none;
  mk_sum addis (fun i s => (ra_or_zero i s, u32 (SIMM_16 i .<< 16), 0)) Keeps none none;
  mk_sum addic (fun i s => (ra i s, u32 (SIMM_16 i), 0)) Exact none none;
  mk_sum addic_rc (fun i s => (ra i s, u32 (SIMM_16 i), 0)) Exact none (fun _ => true);
  mk_sum subfic (fun i s => (not_ra i s, u32 (SIMM_16 i), 1)) Exact none none;
  mk_sum addx (fun i s => (ra i s, rb i s, 0)) Keeps OE Rc;
  mk_sum addcx (fun i s => (ra i s, rb i s, 0)) Exact OE Rc;
  mk_sum addex (fun i s => (ra i s, rb i s, xer_ca s)) Exact OE Rc;
  mk_sum addzex (fun i s => (ra i s, 0, xer_ca s)) Exact OE Rc;
  mk_sum addmex (fun i s => (ra i s, 0xFFFFFFFF, xer_ca s)) Exact_without_carry_in OE Rc;
  mk_sum subfx (fun i s => (not_ra i s, rb i s, 1)) Keeps OE Rc;
  mk_sum subfcx (fun i s => (not_ra i s, rb i s, 1)) Exact OE Rc;
  mk_sum subfex (fun i s => (not_ra i s, rb i s, xer_ca s)) Exact OE Rc;
  mk_sum subfzex (fun i s => (not_ra i s, 0, xer_ca s)) Exact OE Rc;
  mk_sum subfmex (fun i s => (not_ra i s, 0xFFFFFFFF, xer_ca s)) Exact_without_carry_in OE Rc;
  mk_sum negx (fun i s => (not_ra i s, 0, 1)) Keeps OE Rc].

Definition carry_value (k : Carry) (x y c old : Z) : Z :=
  match k with
  | Keeps => old
  | Exact => b2z (2 ^ 32 <=? x + y + c)
  | Exact_without_carry_in => b2z ((c =? 0) && (2 ^ 32 <=? x + y + c))
  end.

Definition signed_overflow (x y c : Z) : bool := negb (bool_decide (ins 32 (s32 x + s32 y + c))).

Lemma Helper_Carry_sum a b : inu 32 a -> Helper_Carry a b = (2 ^ 32 <=? a + b).
Proof.
  intros Ha. unfold Helper_Carry. replace (u32 (.~ a)) with (2 ^ 32 - 1 - a).
  - destruct (Z.ltb_spec (2 ^ 32 - 1 - a) b), (Z.leb_spec (2 ^ 32) (a + b)); (done || lia).
  - unfold inu in Ha. unfold wrapu, Z.lnot. rewrite <- (Z_mod_plus_full _ 1), Z.mod_small; lia.
Qed.

Lemma not_value a : inu 32 a -> u32 (.~ a) = 2 ^ 32 - 1 - a.
Proof. unfold inu. intros Ha. unfold wrapu, Z.lnot. rewrite <- (Z_mod_plus_full _ 1), Z.mod_small; lia. Qed.

(** The sign bits of operands and result. *)
Lemma sign_shift v : inu 32 v -> v .>> 31 = b2z (2 ^ 31 <=? v).
Proof.
  unfold inu. intros Hv. rewrite Z.shiftr_div_pow2 by lia.
  destruct (Z.leb_spec (2 ^ 31) v); cbn [b2z]; Z.to_euclidean_division_equations; lia.
Qed.

Lemma add_overflow x y c :
  inu 32 x -> inu 32 y -> 0 <= c <= 1 ->
  HasAddOverflowed x y (u32 (x + y + c)) = signed_overflow x y c.
Proof.
  intros Hx Hy Hc. pose proof (wrapu_range 32 (x + y + c) ltac:(lia)) as Hr.
  unfold HasAddOverflowed, signed_overflow. rewrite Z.shiftr_land, !Z.shiftr_lxor, !sign_shift by done.
  rewrite !wraps_unsigned by (done || lia). unfold inu in *. change (2 ^ (32 - 1)) with (2 ^ 31) in *.
  assert (E : u32 (x + y + c) = if x + y + c <? 2 ^ 32 then x + y + c else x + y + c - 2 ^ 32).
  { unfold wrapu. destruct (Z.ltb_spec (x + y + c) (2 ^ 32)); [apply Z.mod_small; lia |].
    rewrite <- (Z_mod_plus_full _ (-1)), Z.mod_small; lia. }
  rewrite E. clear E Hr.
  destruct (Z.leb_spec (2 ^ 31) x), (Z.leb_spec (2 ^ 31) y), (Z.ltb_spec x (2 ^ 31)), (Z.ltb_spec y (2 ^ 31)), (Z.ltb_spec (x + y + c) (2 ^ 32));
    try lia;
    (match goal with |- context [2 ^ 31 <=? ?r] => destruct (Z.leb_spec (2 ^ 31) r) end);
    cbn [b2z]; symmetry;
    first [ rewrite bool_decide_eq_true_2 by (unfold ins; lia); reflexivity
          | rewrite bool_decide_eq_false_2 by (unfold ins; lia); reflexivity ].
Qed.

(** The code of a handler in the shape of [finish]. *)
Lemma finish_carry inst d res b ov s :
  when_Rc inst res (when_OE inst ov (SetCarry (b2z b) (put_gpr d res s))) = finish d (OE inst) (Rc inst) res (b2z b) ov s.
Proof. destruct b; reflexivity. Qed.

Lemma finish_keeps inst d res ov s :
  when_Rc inst res (when_OE inst ov (put_gpr d res s)) = finish d (OE inst) (Rc inst) res (xer_ca s) ov s.
Proof. destruct s; reflexivity. Qed.

Lemma finish_plain d v ov s : put_gpr d v s = finish d false false (u32 v) (xer_ca s) ov s.
Proof. destruct s. unfold finish, put_gpr. cbn. rewrite wrapu_idem by lia. done. Qed.

Lemma finish_plain_carry d v b ov s : SetCarry (b2z b) (put_gpr d v s) = finish d false false (u32 v) (b2z b) ov s.
Proof. destruct s, b; unfold finish, put_gpr, SetCarry; cbn; rewrite wrapu_idem by lia; done. Qed.

Lemma not_range a : inu 32 (u32 (.~ a)).
Proof. range. Qed.

Lemma simm_range inst : ins 16 (SIMM_16 inst).
Proof. unfold SIMM_16. range. Qed.

(** Carries of three-operand sums. *)
Lemma carry_two_steps a b c :
  inu 32 a -> inu 32 b -> 0 <= c <= 1 ->
  Helper_Carry a b || Helper_Carry (u32 (a + b)) c = (2 ^ 32 <=? a + b + c).
Proof.
  intros Ha Hb Hc. rewrite !Helper_Carry_sum by range. unfold inu in *.
  assert (E : u32 (a + b) = if a + b <? 2 ^ 32 then a + b else a + b - 2 ^ 32).
  { unfold wrapu. destruct (Z.ltb_spec (a + b) (2 ^ 32)); [apply Z.mod_small; lia |].
    rewrite <- (Z_mod_plus_full _ (-1)), Z.mod_small; lia. }
  rewrite E. destruct (Z.ltb_spec (a + b) (2 ^ 32)).
  - replace (2 ^ 32 <=? a + b) with false by (symmetry; apply Z.leb_gt; lia). done.
  - replace (2 ^ 32 <=? a + b) with true by (symmetry; apply Z.leb_le; lia).
    symmetry. apply Z.leb_le. lia.
Qed.

Lemma carry_minus_one a c :
  inu 32 a -> inu 1 c ->
  Helper_Carry a (u32 (c - 1)) = (c =? 0) && (2 ^ 32 <=? a + 0xFFFFFFFF + c).
Proof.
  intros Ha Hc. rewrite Helper_Carry_sum by done. unfold inu in *.
  assert (c = 0 \/ c = 1) as [-> | ->] by lia; cbn [Z.eqb andb].
  - change (u32 (0 - 1)) with 0xFFFFFFFF. rewrite Z.add_0_r. done.
  - change (u32 (1 - 1)) with 0. apply Z.leb_gt. lia.
Qed.

(** Subtraction as the addition of the complement. *)
Lemma carry_subtract a b :
  inu 32 a -> inu 32 b ->
  (u32 (.~ a) =? 0xFFFFFFFF) || Helper_Carry b (u32 (u32 (.~ a) + 1)) = (2 ^ 32 <=? u32 (.~ a) + b + 1).
Proof.
  intros Ha Hb. rewrite Helper_Carry_sum, !not_value by done. unfold inu in *.
  destruct (Z.eqb_spec (2 ^ 32 - 1 - a) 0xFFFFFFFF); cbn [orb].
  - symmetry. apply Z.leb_le. lia.
  - rewrite wrapu_id by (unfold inu; lia). f_equal. lia.
Qed.

(** [subfic] looks at [RA] after writing [RD]; the carry is right all the same
    when they are the same register. *)
Lemma carry_subfic a imm :
  inu 32 a -> inu 32 imm ->
  let after x := (x =? 0) || Helper_Carry (u32 (0 - x)) imm in
  after a = (2 ^ 32 <=? u32 (.~ a) + imm + 1) /\ after (u32 (imm - a)) = (2 ^ 32 <=? u32 (.~ a) + imm + 1).
Proof.
  intros Ha Hi after.
  assert (A : forall x, inu 32 x -> after x = (x <=? imm)).
  { intros x Hx. subst after. cbv beta. rewrite Helper_Carry_sum by range. unfold inu in *.
    destruct (Z.eqb_spec x 0) as [-> | N]; cbn [orb]; [symmetry; apply Z.leb_le; lia |].
    replace (u32 (0 - x)) with (2 ^ 32 - x).
    - destruct (Z.leb_spec (2 ^ 32) (2 ^ 32 - x + imm)), (Z.leb_spec x imm); (done || lia).
    - unfold wrapu. rewrite <- (Z_mod_plus_full _ 1), Z.mod_small; lia. }
  rewrite !A, not_value by range. unfold inu in *.
  destruct (Z.leb_spec (2 ^ 32) (2 ^ 32 - 1 - a + imm + 1)).
  - split; apply Z.leb_le; [lia |]. rewrite wrapu_id; [lia | unfold inu; lia].
  - split; apply Z.leb_gt; [lia |]. unfold wrapu. rewrite <- (Z_mod_plus_full _ 1), Z.mod_small; lia.
Qed.

Definition sum_of (row : sum_op) (inst : Z) (s : PowerPCState) : PowerPCState :=
  let '(x, y, c) := operands row inst s in
  finish (RD inst) (has_oe row inst) (has_rc row inst) (u32 (x + y + c)) (carry_value (carry row) x y c (xer_ca s))
    (signed_overflow x y c) s.

Lemma addic_finish inst s ov :
  wf s -> addic inst s = finish (RD inst) false false (u32 (ra inst s + u32 (SIMM_16 inst) + 0))
                           (b2z (2 ^ 32 <=? ra inst s + u32 (SIMM_16 inst) + 0)) ov s.
Proof.
  intros Hs. unfold addic. rewrite Helper_Carry_sum by (apply rGPR_range; done).
  rewrite (finish_plain_carry _ _ _ ov). unfold ra. rewrite Z.add_0_r. done.
Qed.

Lemma subfic_finish inst s ov :
  wf s -> subfic inst s = finish (RD inst) false false (u32 (not_ra inst s + u32 (SIMM_16 inst) + 1))
                            (b2z (2 ^ 32 <=? not_ra inst s + u32 (SIMM_16 inst) + 1)) ov s.
Proof.
  intros Hs. unfold subfic. set (a := rGPR s (RA inst)). set (imm := u32 (SIMM_16 inst)).
  assert (Ha : inu 32 a) by (apply rGPR_range; done). assert (Hi : inu 32 imm) by range.
  assert (Ev : u32 (SIMM_16 inst - a) = u32 (imm - a)) by (unfold imm, wrapu; rewrite Zminus_mod_idemp_l; done).
  destruct (carry_subfic a imm Ha Hi) as [E1 E2]. cbv zeta in E1, E2.
  rewrite rGPR_put by (done || apply (register_range _ 5); lia). rewrite Ev.
  assert (E : (let x := if decide (RA inst = RD inst) then u32 (imm - a) else a in
               (x =? 0) || Helper_Carry (u32 (0 - x)) imm) = (2 ^ 32 <=? u32 (.~ a) + imm + 1))
    by (destruct (decide _); assumption).
  cbv zeta in E. fold a. rewrite E, (finish_plain_carry _ _ _ ov), Ev. unfold not_ra. fold a.
  f_equal. rewrite not_value by done. unfold wrapu. replace (2 ^ 32 - 1 - a + imm + 1) with (imm - a + 1 * 2 ^ 32) by ring.
  rewrite Z_mod_plus_full. done.
Qed.

Lemma finish_rc d res ca ov s :
  finish d false true res ca ov s = Helper_UpdateCR0 res (finish d false false res ca ov s).
Proof. done. Qed.

Lemma rGPR_finish d res ca ov s :
  wf s -> 0 <= d < 32 -> inu 32 res -> rGPR (finish d false false res ca ov s) d = res.
Proof.
  intros Hs Hd Hr. change (rGPR (put_gpr d res s) d = res). rewrite rGPR_put, decide_True by (done || lia).
  apply wrapu_id. done.
Qed.

Lemma rGPR_when_OE inst v s i : rGPR (when_OE inst v s) i = rGPR s i.
Proof. unfold when_OE. destruct (OE inst); done. Qed.

Lemma u32_add_r a b : u32 (a + u32 b) = u32 (a + b).
Proof. unfold wrapu. apply Zplus_mod_idemp_r. Qed.

(** Every row of the table does its sum. *)
Lemma sum_ops_finish row inst s : In row sum_ops -> wf s -> op row inst s = sum_of row inst s.
Proof.
  intros Hin Hs. pose proof (rGPR_range s (RA inst) Hs) as Ha. pose proof (rGPR_range s (RB inst) Hs) as Hb.
  pose proof (wf_ca s Hs) as Hca. pose proof (not_range (rGPR s (RA inst))) as Hn.
  assert (Hc : 0 <= xer_ca s <= 1) by (unfold inu in Hca; lia).
  assert (Hz : inu 32 0) by (unfold inu; lia). assert (Hf : inu 32 0xFFFFFFFF) by (unfold inu; lia).
  pose proof (register_range 21 5 inst ltac:(lia) : 0 <= RD inst < 32) as Hd.
  unfold sum_of. cbn in Hin. decompose [or] Hin; try done; subst row; cbn [op operands carry has_oe has_rc carry_value none];
    unfold ra, rb, not_ra in *.
  - unfold addi, ra_or_zero. destruct (Z.eqb_spec (RA inst) 0); cbn [negb];
      rewrite (finish_plain _ _ false), Z.add_0_r, u32_add_r, ?Z.add_0_l; reflexivity.
  - unfold addis, ra_or_zero. destruct (Z.eqb_spec (RA inst) 0); cbn [negb];
      rewrite (finish_plain _ _ false), Z.add_0_r, u32_add_r, ?Z.add_0_l; reflexivity.
  - apply addic_finish. done.
  - unfold addic_rc. rewrite (addic_finish inst s (signed_overflow 0 0 0)) by done.
    rewrite rGPR_finish by (done || range). done.
  - apply subfic_finish. done.
  - unfold addx. rewrite <- add_overflow by (done || lia). rewrite !Z.add_0_r. apply finish_keeps.
  - unfold addcx. rewrite <- add_overflow by (done || lia). rewrite !Z.add_0_r, Helper_Carry_sum by done. apply finish_carry.
  - unfold addex, GetCarry. rewrite <- add_overflow, <- carry_two_steps by done.
    replace (negb (xer_ca s =? 0) && Helper_Carry (u32 (rGPR s (RA inst) + rGPR s (RB inst))) (xer_ca s))
      with (Helper_Carry (u32 (rGPR s (RA inst) + rGPR s (RB inst))) (xer_ca s)); [apply finish_carry |].
    destruct (Z.eqb_spec (xer_ca s) 0) as [-> |]; [| done]. rewrite Helper_Carry_sum by range.
    pose proof (wrapu_range 32 (rGPR s (RA inst) + rGPR s (RB inst)) ltac:(lia)) as R. unfold inu in R. apply Z.leb_gt. lia.
  - unfold addzex, GetCarry. rewrite <- add_overflow by done. rewrite Helper_Carry_sum by done. rewrite Z.add_0_r. apply finish_carry.
  - unfold addmex, GetCarry. rewrite <- add_overflow, <- carry_minus_one by done. apply finish_carry.
  - unfold subfx. rewrite <- add_overflow by (done || lia). apply finish_keeps.
  - unfold subfcx. rewrite <- add_overflow by (done || lia). rewrite carry_subtract by done. apply finish_carry.
  - unfold subfex, GetCarry. rewrite <- add_overflow, <- carry_two_steps by done. apply finish_carry.
  - unfold subfzex, GetCarry. rewrite <- add_overflow by done. rewrite Helper_Carry_sum by done. rewrite Z.add_0_r. apply finish_carry.
  - unfold subfmex, GetCarry. rewrite <- add_overflow, <- carry_minus_one by done. apply finish_carry.
  - unfold negx. rewrite rGPR_when_OE, rGPR_put, decide_True by (done || lia). rewrite Z.add_0_r.
    replace (rGPR s (RA inst) =? 0x80000000) with (signed_overflow (u32 (.~ (rGPR s (RA inst)))) 0 1).
    + replace (put_gpr (RD inst) (u32 (.~ (rGPR s (RA inst))) + 1) s) with (put_gpr (RD inst) (u32 (u32 (.~ (rGPR s (RA inst))) + 1)) s)
        by (unfold put_gpr; rewrite wrapu_idem by lia; done). apply finish_keeps.
    + rewrite not_value by done. unfold signed_overflow. rewrite !wraps_unsigned by (unfold inu in *; lia).
      unfold inu in Ha. change (2 ^ (32 - 1)) with (2 ^ 31). cbn [Z.ltb Z.compare].
      destruct (Z.eqb_spec (rGPR s (RA inst)) 0x80000000) as [-> |]; [reflexivity |].
      rewrite bool_decide_eq_true_2; [done |]. unfold ins.
      destruct (Z.ltb_spec (2 ^ 32 - 1 - rGPR s (RA inst)) (2 ^ 31)), (Z.ltb_spec 0 (2 ^ 31)); lia.
Qed.

(** C35: each additive instruction adds its three numbers (the complement of
    the subtrahend and one for a subtraction, the carry for the extended forms)
    modulo 2^32 into [RD]; the carry is the carry out of the exact sum, also
    when [subfic] reads the register it has just written, except that [addme]
    and [subfme] clear it whenever there was a carry in; with OE the overflow
    bit says whether the exact signed sum fits 32 bits and SO accumulates it;
    with Rc, CR0 describes the result; and nothing else changes. *)
Theorem sums_exact row inst s :
  In row sum_ops -> wf s ->
  let '(x, y, c) := operands row inst s in
  outcome (RD inst) (has_oe row inst) (has_rc row inst) (u32 (x + y + c)) (carry_value (carry row) x y c (xer_ca s))
    (signed_overflow x y c) s (op row inst s).
Proof.
  intros Hin Hs. pose proof (sum_ops_finish row inst s Hin Hs) as E. unfold sum_of in E.
  destruct (operands row inst s) as [[x y] c]. rewrite E.
  apply outcome_finish; [done | apply (register_range 21 5); lia | range |].
  destruct (carry row); cbn [carry_value]; [apply (wf_ca s Hs) | |]; unfold inu;
    match goal with |- context [b2z ?b] => destruct b end; cbn; lia.
Qed.

(** subfic r3, r3, 5 with 3 in r3: the result is 2 and the carry is set. *)
Definition three_in_r3 : PowerPCState := put_gpr 3 3 ppcState.

Lemma sums_exact_witness :
  rGPR (subfic 0x20630005 three_in_r3) 3 = 2 /\ xer_ca (subfic 0x20630005 three_in_r3) = 1.
Proof.
  pose proof (sums_exact (mk_sum subfic (fun i s => (not_ra i s, u32 (SIMM_16 i), 1)) Exact none none)
    0x20630005 three_in_r3 ltac:(do 4 right; left; reflexivity) (wf_put_gpr 3 3 _ wf_ppcState)) as H.
  split; [exact (o_result _ _ _ _ _ _ _ _ H) | exact (o_ca _ _ _ _ _ _ _ _ H)].
Defined.

(** ** Rotates *)

(** Bit [k], counted from the left, is between [mb] and [me], going around. *)
Definition in_mask (mb me k : Z) : bool :=
  if mb <=? me then (mb <=? k) && (k <=? me) else (mb <=? k) || (k <=? me).

Lemma testbit_ones_shift n k i : 0 <= k <= n -> 0 <= i -> Z.testbit (Z.ones n .>> k) i = (i + k <? n).
Proof.
  intros Hk Hi. rewrite Z.shiftr_spec, Z.testbit_ones_nonneg by lia. done.
Qed.

Lemma testbit_MakeRotationMask mb me i :
  0 <= mb < 32 -> 0 <= me < 32 -> 0 <= i < 32 ->
  Z.testbit (MakeRotationMask mb me) i = in_mask mb me (31 - i).
Proof.
  intros Hmb Hme Hi. unfold MakeRotationMask, in_mask.
  change 0xFFFFFFFF with (Z.ones 32). change 0x7FFFFFFF with (Z.ones 31).
  assert (E : Z.testbit (Z.ones 32 .>> mb .^ Z.ones 31 .>> me) i = xorb (i + mb <? 32) (i + me <? 31)).
  { rewrite Z.lxor_spec, !testbit_ones_shift by lia. done. }
  destruct (Z.ltb_spec me mb), (Z.leb_spec mb me); try lia.
  - rewrite testbit_wrapu, Z.lnot_spec, E by lia. destruct (Z.ltb_spec i 32); [| lia]. cbn [andb].
    destruct (Z.ltb_spec (i + mb) 32), (Z.ltb_spec (i + me) 31), (Z.leb_spec mb (31 - i)), (Z.leb_spec (31 - i) me); cbn; lia || done.
  - rewrite E.
    destruct (Z.ltb_spec (i + mb) 32), (Z.ltb_spec (i + me) 31), (Z.leb_spec mb (31 - i)), (Z.leb_spec (31 - i) me); cbn; lia || done.
Qed.

Lemma testbit_RotateLeft v n i :
  inu 32 v -> 0 <= n < 32 -> 0 <= i < 32 -> Z.testbit (RotateLeft v n) i = Z.testbit v ((i - n) mod 32).
Proof.
  intros Hv Hn Hi. unfold RotateLeft. rewrite (Z.mod_small n) by done.
  destruct (Z.eqb_spec n 0) as [-> |]; [rewrite Z.sub_0_r, Z.mod_small by lia; done |].
  rewrite testbit_wrapu, Z.lor_spec, testbit_shiftl', testbit_shiftr' by lia.
  destruct (Z.ltb_spec i 32), (Z.leb_spec 0 i); try lia. cbn [andb]. destruct (Z.ltb_spec i n).
  - rewrite (Z.testbit_neg_r v (i - n)) by lia. cbn [orb]. f_equal.
    rewrite <- (Z_mod_plus_full _ 1), Z.mod_small; lia.
  - rewrite (testbit_small v 32 (i + (32 - n))) by (done || lia). rewrite orb_false_r, Z.mod_small by lia. done.
Qed.

(** A handler that writes [RA] and perhaps CR0. *)
Lemma finish_result inst d v s :
  wf s -> 0 <= d < 32 ->
  let s1 := put_gpr d v s in
  when_Rc inst (rGPR s1 d) s1 = finish d false (Rc inst) (u32 v) (xer_ca s) false s.
Proof.
  intros Hs Hd. cbv zeta. rewrite rGPR_put, decide_True by (done || lia). unfold finish, put_gpr.
  rewrite wrapu_idem by lia. destruct s; done.
Qed.

(** The rotates: the operation, the distance, and whether [RA] shines through. *)
Definition rotate_ops : list ((Z -> PowerPCState -> PowerPCState) * (Z -> PowerPCState -> Z) * bool) := [
  (rlwinmx, fun inst s => SH inst, false);
  (rlwnmx, fun inst s => rGPR s (RB inst) mod 32, false);
  (rlwimix, fun inst s => SH inst, true)].

Lemma land_0x1f x : (x .& 0x1f) = x mod 32.
Proof. change 0x1f with (Z.ones 5). apply Z.land_ones. lia. Qed.

(** The rotates write to [RA] the word whose bits inside the mask, from
    [MB] to [ME] counted from the left and going around, are those of [RS]
    rotated left, and whose other bits are zero, or those [RA] had before for
    [rlwimi]; with Rc, CR0 describes the word; nothing else changes. *)
Theorem rotates_exact f n keep inst s :
  In (f, n, keep) rotate_ops -> wf s ->
  exists res, outcome (RA inst) false (Rc inst) res (xer_ca s) false s (f inst s) /\
    forall i, 0 <= i < 32 -> Z.testbit res i =
      if in_mask (MB inst) (ME inst) (31 - i) then Z.testbit (rGPR s (RS inst)) ((i - n inst s) mod 32)
      else keep && Z.testbit (rGPR s (RA inst)) i.
Proof.
  intros Hin Hs.
  pose proof (register_range 16 5 inst ltac:(lia) : 0 <= RA inst < 32) as Hd.
  pose proof (register_range 11 5 inst ltac:(lia) : 0 <= SH inst < 32) as Hsh.
  pose proof (register_range 6 5 inst ltac:(lia) : 0 <= MB inst < 32) as Hmb.
  pose proof (register_range 1 5 inst ltac:(lia) : 0 <= ME inst < 32) as Hme.
  pose proof (rGPR_range s (RS inst) Hs) as Hr. pose proof (wf_ca s Hs) as Hca.
  set (m := MakeRotationMask (MB inst) (ME inst)).
  assert (W : forall v, outcome (RA inst) false (Rc inst) (u32 v) (xer_ca s) false s
                (finish (RA inst) false (Rc inst) (u32 v) (xer_ca s) false s))
    by (intros v; apply outcome_finish; done || range).
  assert (B : forall k i, 0 <= k < 32 -> 0 <= i < 32 ->
    Z.testbit (RotateLeft (rGPR s (RS inst)) k .& m) i =
      in_mask (MB inst) (ME inst) (31 - i) && Z.testbit (rGPR s (RS inst)) ((i - k) mod 32)).
  { intros k i Hk Hi. subst m. rewrite Z.land_spec, testbit_RotateLeft, testbit_MakeRotationMask by done. apply andb_comm. }
  cbn in Hin. decompose [or] Hin; try done; match goal with H : (_, _, _) = (_, _, _) |- _ => injection H as <- <- <- end;
    eexists; (split; [match goal with |- context [?g inst s] => unfold g end; rewrite finish_result by done; apply W |]);
    intros i Hi; rewrite testbit_wrapu by lia; (destruct (Z.ltb_spec i 32); [| lia]); cbn [andb].
  - rewrite B by done. destruct (in_mask _ _ _); done.
  - rewrite B by (done || (rewrite land_0x1f; apply Z.mod_pos_bound; lia)). rewrite land_0x1f. destruct (in_mask _ _ _); done.
  - rewrite Z.lor_spec, B, Z.land_spec, Z.lnot_spec by lia. subst m. rewrite testbit_MakeRotationMask by done.
    destruct (in_mask _ _ _); cbn; rewrite ?andb_false_r, ?andb_true_r, ?orb_false_r; done.
Qed.

(** rlwinm r4, r3, 31, 1, 31: a logical shift right by one. *)
Lemma rotates_exact_witness :
  exists res, rGPR (rlwinmx 0x5464f87e three_in_r3) 4 = res /\ Z.testbit res 0 = Z.testbit 3 1.
Proof.
  destruct (rotates_exact rlwinmx (fun inst s => SH inst) false 0x5464f87e three_in_r3
    ltac:(left; reflexivity) (wf_put_gpr 3 3 _ wf_ppcState)) as (res & O & B).
  exists res. split; [exact (o_result _ _ _ _ _ _ _ _ O) | exact (B 0 ltac:(lia))].
Defined.

(** ** Shifts, counts, products and quotients *)

(** The mathematical value of an instruction: the result before truncation to
    32 bits, the carry, and the overflow. *)
Record value_op := mk_value {
  v_op : Z -> PowerPCState -> PowerPCState;
  v_dest : Z -> Z;
  v_value : Z -> PowerPCState -> Z;
  v_carry : Z -> PowerPCState -> Z;
  v_overflow : Z -> PowerPCState -> bool;
  v_oe : Z -> bool;
  v_rc : Z -> bool
}.

Definition rs (inst : Z) (s : PowerPCState) : Z := rGPR s (RS inst).
Definition ca (inst : Z) (s : PowerPCState) : Z := xer_ca s.
Definition no_overflow (inst : Z) (s : PowerPCState) : bool := false.
(** The shift distance: six bits of [RB]. *)
Definition distance (inst : Z) (s : PowerPCState) : Z := rb inst s mod 64.
(** Negative, and ones were shifted out. *)
Definition shifted_out (v n : Z) : Z := b2z ((s32 v <? 0) && negb (s32 v mod 2 ^ n =? 0)).

Definition value_ops : list value_op := [
  mk_value slwx RA (fun i s => rs i s * 2 ^ distance i s) ca no_overflow none Rc;
  mk_value srwx RA (fun i s => rs i s / 2 ^ distance i s) ca no_overflow none Rc;
  mk_value srawx RA (fun i s => s32 (rs i s) / 2 ^ distance i s) (fun i s => shifted_out (rs i s) (distance i s)) no_overflow none Rc;
  mk_value srawix RA (fun i s => s32 (rs i s) / 2 ^ SH i) (fun i s => shifted_out (rs i s) (SH i)) no_overflow none Rc;
  mk_value cntlzwx RA (fun i s => if rs i s =? 0 then 32 else 31 - Z.log2 (rs i s)) ca no_overflow none Rc;
  mk_value extsbx RA (fun i s => s8 (rs i s)) ca no_overflow none Rc;
  mk_value extshx RA (fun i s => s16 (rs i s)) ca no_overflow none Rc;
  mk_value mulli RD (fun i s => s32 (ra i s) * SIMM_16 i) ca no_overflow none none;
  mk_value mullwx RD (fun i s => s32 (ra i s) * s32 (rb i s)) ca
    (fun i s => negb (bool_decide (ins 32 (s32 (ra i s) * s32 (rb i s))))) OE Rc;
  mk_value mulhwx RD (fun i s => (s32 (ra i s) * s32 (rb i s)) / 2 ^ 32) ca no_overflow none Rc;
  mk_value mulhwux RD (fun i s => (ra i s * rb i s) / 2 ^ 32) ca no_overflow none Rc;
  mk_value divwx RD
    (fun i s => if bool_decide (s32 (rb i s) <> 0 /\ ins 32 (Z.quot (s32 (ra i s)) (s32 (rb i s))))
                then Z.quot (s32 (ra i s)) (s32 (rb i s)) else if s32 (ra i s) <? 0 then -1 else 0) ca
    (fun i s => negb (bool_decide (s32 (rb i s) <> 0 /\ ins 32 (Z.quot (s32 (ra i s)) (s32 (rb i s)))))) OE Rc;
  mk_value divwux RD (fun i s => if rb i s =? 0 then 0 else ra i s / rb i s) ca (fun i s => rb i s =? 0) OE Rc].

Lemma finish_value inst d v ov s :
  wf s -> 0 <= d < 32 ->
  let s1 := when_OE inst ov (put_gpr d v s) in
  when_Rc inst (rGPR s1 d) s1 = finish d (OE inst) (Rc inst) (u32 v) (xer_ca s) ov s.
Proof.
  intros Hs Hd. cbv zeta. rewrite rGPR_when_OE, rGPR_put, decide_True by (done || lia). unfold finish, put_gpr, when_OE, when_Rc.
  rewrite wrapu_idem by lia. destruct s; done.
Qed.

Lemma finish_shift inst d v b s :
  wf s -> 0 <= d < 32 ->
  let s1 := SetCarry (b2z b) (put_gpr d v s) in
  when_Rc inst (rGPR s1 d) s1 = finish d false (Rc inst) (u32 v) (b2z b) false s.
Proof.
  intros Hs Hd. cbv zeta. change (rGPR (SetCarry (b2z b) (put_gpr d v s)) d) with (rGPR (put_gpr d v s) d).
  rewrite rGPR_put, decide_True by (done || lia). unfold finish, put_gpr, when_Rc, SetCarry.
  rewrite wrapu_idem by lia. destruct s, b; done.
Qed.

(** Distances of 32 and more shift everything out. *)
Lemma distance_cases x :
  (flag x 0x20 = false /\ (x .& 0x1f) = x mod 64 /\ 0 <= x mod 64 < 32) \/ (flag x 0x20 = true /\ 32 <= x mod 64 < 64).
Proof.
  change 0x20 with (2 ^ 5). rewrite flag_testbit, land_0x1f by lia.
  pose proof (Z.mod_pos_bound x 64 ltac:(lia)). assert (E : Z.testbit x 5 = Z.testbit (x mod 2 ^ 6) 5) by (rewrite Z.mod_pow2_bits_low by lia; done).
  change (2 ^ 6) with 64 in E. rewrite E. destruct (Z.ltb_spec (x mod 64) 32).
  - left. rewrite (testbit_small _ 5) by (unfold inu; lia). split; [done |]. Z.to_euclidean_division_equations. lia.
  - right. split; [| lia]. apply Z.testbit_true; [lia |]. Z.to_euclidean_division_equations. lia.
Qed.

Lemma small_div x n : 0 <= n -> - 2 ^ n <= x < 2 ^ n -> x / 2 ^ n = if x <? 0 then -1 else 0.
Proof.
  intros Hn Hx. destruct (Z.ltb_spec x 0); [| apply Z.div_small; lia].
  symmetry. apply (Z.div_unique _ _ _ (x + 2 ^ n)); lia.
Qed.

Lemma pow2_at_least n m : 0 <= n <= m -> 2 ^ n <= 2 ^ m.
Proof. intros. apply Z.pow_le_mono_r; lia. Qed.

Lemma u32_shiftl_zero x n :
  0 <= n <= 32 -> (u32 (x .<< (32 - n)) =? 0) = (x mod 2 ^ n =? 0).
Proof.
  intros Hn. rewrite Z.shiftl_mul_pow2 by lia. unfold wrapu.
  replace (2 ^ 32) with (2 ^ n * 2 ^ (32 - n)) by (rewrite <- Z.pow_add_r by lia; f_equal; lia).
  rewrite Zmult_mod_distr_r. pose proof (pow2_pos (32 - n)). destruct (Z.eqb_spec (x mod 2 ^ n) 0); [rewrite e; done | apply Z.eqb_neq; nia].
Qed.

Lemma count_zeros_spec n i val :
  0 <= val < 2 ^ Z.of_nat n -> (0 < n)%nat ->
  count_zeros n i (2 ^ (Z.of_nat n - 1)) val = i + (if val =? 0 then Z.of_nat n else Z.of_nat n - 1 - Z.log2 val).
Proof.
  revert i. induction n as [| n IH]; intros i Hv Hn; [lia |]. cbn [count_zeros].
  replace (Z.of_nat (S n) - 1) with (Z.of_nat n) by lia. rewrite flag_testbit by lia.
  replace (Z.of_nat (S n)) with (Z.of_nat n + 1) in * by lia. rewrite Z.pow_add_r in Hv by lia.
  destruct (Z.leb_spec (2 ^ Z.of_nat n) val) as [H | H].
  - assert (L : Z.log2 val = Z.of_nat n) by (apply Z.log2_unique; [lia |]; rewrite Z.pow_succ_r by lia; lia).
    pose proof (pow2_pos (Z.of_nat n)). destruct (Z.eqb_spec val 0); [lia |].
    rewrite <- L, Z.bit_log2 by lia. lia.
  - rewrite (testbit_small val (Z.of_nat n)) by (unfold inu; lia). destruct n as [| n].
    + cbn in *. destruct (Z.eqb_spec val 0); lia.
    + replace (2 ^ Z.of_nat (S n) .>> 1) with (2 ^ (Z.of_nat (S n) - 1)).
      * rewrite IH by lia. destruct (Z.eqb_spec val 0); lia.
      * rewrite Z.shiftr_div_pow2 by lia. replace (Z.of_nat (S n)) with (Z.of_nat n + 1) by lia.
        rewrite Z.pow_add_r, Z.add_simpl_r, Z.div_mul by lia. done.
Qed.

Lemma shift_arithmetic_finish inst n s :
  wf s -> 0 <= n < 32 ->
  when_Rc inst (rGPR (shift_arithmetic n inst s) (RA inst)) (shift_arithmetic n inst s) =
    finish (RA inst) false (Rc inst) (u32 (s32 (rs inst s) / 2 ^ n)) (shifted_out (rs inst s) n) false s.
Proof.
  intros Hs Hn. unfold shift_arithmetic. rewrite finish_shift by (done || apply (register_range 16 5); lia).
  fold (rs inst s). rewrite Z.shiftr_div_pow2 by lia. f_equal. unfold shifted_out. f_equal.
  set (v := s32 (rs inst s)). rewrite u32_shiftl_zero by lia.
  replace (u32 v mod 2 ^ n) with (v mod 2 ^ n) by (symmetry; apply wrapu_mod_le; lia).
  destruct (Z.ltb_spec 0 n); [rewrite andb_true_r; done |].
  replace n with 0 by lia. rewrite Z.mod_1_r, andb_false_r. rewrite Z.eqb_refl, andb_false_r. done.
Qed.

Lemma srawx_finish inst s :
  wf s -> srawx inst s = finish (RA inst) false (Rc inst) (u32 (s32 (rs inst s) / 2 ^ distance inst s))
                           (shifted_out (rs inst s) (distance inst s)) false s.
Proof.
  intros Hs. pose proof (register_range 16 5 inst ltac:(lia) : 0 <= RA inst < 32) as Hd.
  pose proof (rGPR_range s (RS inst) Hs) as Hr.
  unfold srawx, distance, rb. destruct (distance_cases (rGPR s (RB inst))) as [(-> & -> & R) | (-> & R)].
  - apply shift_arithmetic_finish; done.
  - unfold rs, shifted_out. set (v := rGPR s (RS inst)) in *. set (n := _ mod 64) in *.
    pose proof (pow2_at_least 32 n ltac:(lia)) as P. pose proof (wraps_range 32 v ltac:(lia)) as Hv.
    unfold ins in Hv. change (2 ^ (32 - 1)) with (2 ^ 31) in Hv.
    clearbody v n. rewrite (small_div (s32 v) n) by lia.
    assert (Ef : flag v 0x80000000 = (s32 v <? 0)).
    { change 0x80000000 with (2 ^ 31). rewrite flag_testbit by lia. rewrite wraps_unsigned by (done || lia).
      unfold inu in Hr. change (2 ^ (32 - 1)) with (2 ^ 31). destruct (Z.ltb_spec v (2 ^ 31)).
      - rewrite (testbit_small v 31) by (unfold inu; lia). symmetry. apply Z.ltb_ge. lia.
      - replace (v - 2 ^ 32 <? 0) with true by (symmetry; apply Z.ltb_lt; lia).
        apply Z.testbit_true; [lia |]. Z.to_euclidean_division_equations. lia. }
    rewrite Ef. destruct (Z.ltb_spec (s32 v) 0).
    + change (SetCarry 1) with (SetCarry (b2z true)). rewrite finish_shift by done. f_equal. cbn [andb].
      assert (E : s32 v mod 2 ^ n = s32 v + 2 ^ n) by (symmetry; apply (Z.mod_unique_pos _ _ (-1)); lia).
      rewrite E. destruct (Z.eqb_spec (s32 v + 2 ^ n) 0); [lia | done].
    + change (SetCarry 0) with (SetCarry (b2z false)). rewrite finish_shift by done. done.
Qed.

Lemma divwx_overflow a b :
  ins 32 a -> ins 32 b ->
  (b =? 0) || ((u32 a =? 0x80000000) && (b =? -1)) = negb (bool_decide (b <> 0 /\ ins 32 (Z.quot a b))).
Proof.
  intros Ha Hb. rewrite wrapu_signed by (done || lia). unfold ins in *. change (2 ^ (32 - 1)) with (2 ^ 31) in *.
  destruct (Z.eqb_spec b 0) as [-> | Nb]; cbn [orb]; [rewrite bool_decide_eq_false_2 by tauto; done |].
  destruct (Z.eqb_spec b (-1)) as [-> | N1].
  - rewrite andb_true_r. replace (Z.quot a (-1)) with (- a) by (change (-1) with (Z.opp 1); rewrite Z.quot_opp_r, Z.quot_1_r; lia).
    destruct (Z.ltb_spec a 0), (Z.eqb_spec (a + 2 ^ 32) 0x80000000); try lia;
      try (rewrite bool_decide_eq_true_2 by lia; done); try (rewrite bool_decide_eq_false_2 by lia; done);
      destruct (Z.eqb_spec a 0x80000000); try lia; rewrite bool_decide_eq_true_2 by lia; done.
  - rewrite andb_false_r, bool_decide_eq_true_2; [done |]. split; [done |].
    assert (Z.abs (Z.quot a b) <= Z.abs a) by (rewrite <- Z.quot_abs by done; apply Z.quot_le_upper_bound; nia).
    destruct (decide (a = - 2 ^ 31)) as [-> |]; [| lia].
    destruct (decide (b = 1)) as [-> |]; [rewrite Z.quot_1_r; lia |].
    assert (Z.abs (Z.quot (- 2 ^ 31) b) < 2 ^ 31); [| lia]. rewrite <- Z.quot_abs by done.
    change (Z.abs (- 2 ^ 31)) with (2 ^ 31). apply Z.quot_lt; lia.
Qed.

(** The products of two 32-bit integers fit 64 bits. *)
Lemma signed_product_fits a b : ins 32 a -> ins 32 b -> s64 (a * b) = a * b.
Proof. unfold ins. intros. apply wraps_id; [lia |]. unfold ins. change (2 ^ (32 - 1)) with (2 ^ 31) in *. change (2 ^ (64 - 1)) with (2 ^ 63). nia. Qed.

Lemma unsigned_product_fits a b : inu 32 a -> inu 32 b -> u64 (a * b) = a * b.
Proof. unfold inu. intros. apply wrapu_id. unfold inu. nia. Qed.

(** C39: the shifts, sign extensions, the count of leading zeros, the products
    and the quotients write their mathematical value modulo 2^32 (quotients
    round towards zero; a quotient that does not exist or does not fit gives 0
    or all ones by the sign of the dividend); arithmetic shifts set the carry
    exactly when a negative number loses ones; the other instructions keep it;
    OV says whether a product or quotient fits; with Rc, CR0 describes the
    result; nothing else changes. *)
Theorem values_exact row inst s :
  In row value_ops -> wf s ->
  outcome (v_dest row inst) (v_oe row inst) (v_rc row inst) (u32 (v_value row inst s)) (v_carry row inst s)
    (v_overflow row inst s) s (v_op row inst s).
Proof.
  intros Hin Hs. pose proof (rGPR_range s (RS inst) Hs) as Hr. pose proof (wf_ca s Hs) as Hca.
  pose proof (rGPR_range s (RA inst) Hs) as Ha. pose proof (rGPR_range s (RB inst) Hs) as Hb.
  pose proof (register_range 16 5 inst ltac:(lia) : 0 <= RA inst < 32) as HdA.
  pose proof (register_range 21 5 inst ltac:(lia) : 0 <= RD inst < 32) as HdD.
  pose proof (register_range 11 5 inst ltac:(lia) : 0 <= SH inst < 32) as Hsh.
  assert (R : forall a b, ins 32 (s32 a) /\ ins 32 (s32 b)) by (intros; split; range).
  assert (S1 : forall b, inu 1 (b2z b)) by (intros []; unfold inu; cbn; lia).
  assert (E : v_op row inst s = finish (v_dest row inst) (v_oe row inst) (v_rc row inst) (u32 (v_value row inst s))
                                  (v_carry row inst s) (v_overflow row inst s) s /\
              0 <= v_dest row inst < 32 /\ inu 1 (v_carry row inst s)).
  2: { destruct E as (-> & Hd & Hc). apply outcome_finish; (done || range). }
  cbn in Hin. decompose [or] Hin; try done; subst row;
    cbn [v_op v_dest v_value v_carry v_overflow v_oe v_rc]; (split; [| split; [done | first [done | apply S1]]]); unfold ca, no_overflow, none.
  - unfold slwx, distance, rb. rewrite finish_result by done. f_equal. fold (rs inst s).
    destruct (distance_cases (rGPR s (RB inst))) as [(-> & -> & D) | (-> & D)]; [rewrite Z.shiftl_mul_pow2 by lia; done |].
    unfold wrapu. symmetry. apply Z.mod_divide; [lia |]. apply Z.divide_mul_r.
    exists (2 ^ (rGPR s (RB inst) mod 64 - 32)). rewrite <- Z.pow_add_r by lia. f_equal. lia.
  - unfold srwx, distance, rb. rewrite finish_result by done. f_equal. fold (rs inst s).
    destruct (distance_cases (rGPR s (RB inst))) as [(-> & -> & D) | (-> & D)]; [rewrite Z.shiftr_div_pow2 by lia; done |].
    rewrite Z.div_small; [done |]. pose proof (pow2_at_least 32 (rGPR s (RB inst) mod 64) ltac:(lia)).
    unfold inu in Hr. unfold rs. lia.
  - apply srawx_finish. done.
  - apply shift_arithmetic_finish; done.
  - unfold cntlzwx. rewrite finish_result by done. do 2 f_equal. change 0x80000000 with (2 ^ (Z.of_nat 32 - 1)).
    apply (count_zeros_spec 32 0); [exact Hr | lia].
  - unfold extsbx. apply finish_result; done.
  - unfold extshx. apply finish_result; done.
  - unfold mulli. apply finish_plain.
  - unfold mullwx. destruct (R (rGPR s (RA inst)) (rGPR s (RB inst))). rewrite finish_value, signed_product_fits by done. f_equal.
    unfold ra, rb. set (p := _ * _). clearbody p.
    destruct (Z.ltb_spec p (-0x80000000)), (Z.ltb_spec 0x7FFFFFFF p); try lia; cbn [orb];
      first [rewrite bool_decide_eq_true_2 by (unfold ins; lia); done | rewrite bool_decide_eq_false_2 by (unfold ins; lia); done].
  - unfold mulhwx. destruct (R (rGPR s (RA inst)) (rGPR s (RB inst))). rewrite signed_product_fits, Z.shiftr_div_pow2 by (done || lia).
    change (when_Rc inst ?d ?x) with (when_Rc inst d x). destruct s; reflexivity.
  - unfold mulhwux. rewrite unsigned_product_fits, Z.shiftr_div_pow2 by (done || lia). destruct s; reflexivity.
  - unfold divwx. destruct (R (rGPR s (RA inst)) (rGPR s (RB inst))). rewrite finish_value, divwx_overflow by done. unfold ra, rb.
    destruct (bool_decide _); cbn [negb]; [done |]. destruct (_ <? 0); done.
  - unfold divwux. rewrite finish_value by done. done.
Qed.

Lemma values_exact_witness : rGPR (mulli 0x1c63fffe three_in_r3) 3 = u32 (-6).
Proof.
  exact (o_result _ _ _ _ _ _ _ _ (values_exact
    (mk_value mulli RD (fun i s => s32 (ra i s) * SIMM_16 i) ca no_overflow none none)
    0x1c63fffe three_in_r3 ltac:(do 7 right; left; reflexivity) (wf_put_gpr 3 3 _ wf_ppcState))).
Defined.
