(* ===== verification/PpcSystem.v ===== *)
(** The system instructions of the PowerPC interpreter that move and combine
    condition register fields, and those on the machine state and segment
    registers ([Core/PowerPC/Interpreter/Interpreter_SystemRegisters.cpp]).

    The theorems say which bits of the condition register each instruction
    changes and to what, through the 64-bit encoding of its fields. *)

From S2P Require Import Prelude PpcState PpcInteger.
Open Scope Z_scope.

(** ** Moves of condition register fields *)

Definition mcrxr (inst : Z) (s : PowerPCState) : PowerPCState :=
  let s := SetCRField (CRFD inst) (GetXER s .>> 28) s in
  set_xer_so_ov 0 (set_xer_ca 0 s).

Definition mfcr (inst : Z) (s : PowerPCState) : PowerPCState := put_gpr (RD inst) (GetCR s) s.

(** The mask of the nibbles a field mask names. *)
Definition crm_mask (crm : Z) : Z :=
  fold_left (fun mask i => if flag crm (1 .<< i) then mask .| (0xF .<< (i * 4)) else mask) (upto 8) 0.

Definition mtcrf (inst : Z) (s : PowerPCState) : PowerPCState :=
  let crm := CRM inst in
  if crm =? 0xFF then SetCR (rGPR s (RS inst)) s
  else
    let mask := crm_mask crm in
    SetCR ((GetCR s .& u32 (.~ mask)) .| (rGPR s (RS inst) .& mask)) s.

Definition mcrf (inst : Z) (s : PowerPCState) : PowerPCState :=
  let cr_f := GetCRField (CRFS inst) s in SetCRField (CRFD inst) cr_f s.

(** ** Logic on condition register bits *)

Definition cr_op (f : Z -> Z -> Z) (inst : Z) (s : PowerPCState) : PowerPCState :=
  SetCRBit (CRBD inst) (f (GetCRBit (CRBA inst) s) (GetCRBit (CRBB inst) s)) s.

Definition crand : Z -> PowerPCState -> PowerPCState := cr_op (fun a b => a .& b).
Definition crandc : Z -> PowerPCState -> PowerPCState := cr_op (fun a b => a .& (1 .^ b)).
Definition creqv : Z -> PowerPCState -> PowerPCState := cr_op (fun a b => 1 .^ (a .^ b)).
Definition crnand : Z -> PowerPCState -> PowerPCState := cr_op (fun a b => 1 .^ (a .& b)).
Definition crnor : Z -> PowerPCState -> PowerPCState := cr_op (fun a b => 1 .^ (a .| b)).
Definition cror : Z -> PowerPCState -> PowerPCState := cr_op (fun a b => a .| b).
Definition crorc : Z -> PowerPCState -> PowerPCState := cr_op (fun a b => a .| (1 .^ b)).
Definition crxor : Z -> PowerPCState -> PowerPCState := cr_op (fun a b => a .^ b).

(** ** Privileged moves *)

(** [if (MSR.PR) { GenerateProgramException(); return; }] *)
Definition supervisor (f : PowerPCState -> PowerPCState) (s : PowerPCState) : PowerPCState :=
  if Z.testbit (msr s) MSR_PR then GenerateProgramException s else f s.

Definition mfmsr (inst : Z) : PowerPCState -> PowerPCState :=
  supervisor (fun s => put_gpr (RD inst) (msr s) s).

Definition mfsr (inst : Z) : PowerPCState -> PowerPCState :=
  supervisor (fun s => put_gpr (RD inst) (zget (sr s) (SR inst)) s).

Definition mfsrin (inst : Z) : PowerPCState -> PowerPCState :=
  supervisor (fun s =>
    let index := (rGPR s (RB inst) .>> 28) .& 0xF in put_gpr (RD inst) (zget (sr s) index) s).

Definition mtmsr (inst : Z) : PowerPCState -> PowerPCState :=
  supervisor (fun s =>
    let s := set_msr (rGPR s (RS inst)) s in set_end_block true (CheckExceptions s)).

Definition SetSR (index value : Z) (s : PowerPCState) : PowerPCState := set_sr (zset (sr s) index value) s.

Definition mtsr (inst : Z) : PowerPCState -> PowerPCState :=
  supervisor (fun s => SetSR (SR inst) (rGPR s (RS inst)) s).

Definition mtsrin (inst : Z) : PowerPCState -> PowerPCState :=
  supervisor (fun s =>
    let index := (rGPR s (RB inst) .>> 28) .& 0xF in SetSR index (rGPR s (RS inst)) s).

(** ** Fields and bits *)

Lemma GetXER_bits s :
  wf s -> GetXER s .>> 28 = 2 * xer_ca s + 4 * xer_so_ov s /\ inu 4 (GetXER s .>> 28).
Proof.
  intros Hs. assert (H : GetXER s .>> 28 = 2 * xer_ca s + 4 * xer_so_ov s).
  { pose proof (wf_ca s Hs) as Hca. pose proof (wf_so_ov s Hs) as Hov. pose proof (wf_string s Hs) as Hst.
    transitivity (((xer_ca s .<< 1) .| (xer_so_ov s .<< 2))).
    - unfold GetXER. bitwise.
      + rewrite (testbit_inu_high 16 (xer_stringctrl s)) by (done || lia). cbn [orb]. f_equal; f_equal; lia.
      + rewrite (testbit_inu_high 1 (xer_ca s)), (testbit_inu_high 2 (xer_so_ov s)) by (done || lia). done.
    - unfold inu in *. assert (xer_ca s = 0 \/ xer_ca s = 1) as [-> | ->] by lia;
        destruct (so_ov_cases _ Hov) as [-> | [-> | [-> | ->]]]; reflexivity. }
  split; [exact H |]. rewrite H. pose proof (wf_ca s Hs). pose proof (wf_so_ov s Hs). unfold inu in *. lia.
Qed.

Lemma testbit_crm_mask crm p : 0 <= crm < 256 -> 0 <= p < 32 -> Z.testbit (crm_mask crm) p = Z.testbit crm (p / 4).
Proof.
  intros Hc Hp.
  pose proof (upto_by_cases (fun c => forallb (fun p => Bool.eqb (Z.testbit (crm_mask c) p) (Z.testbit c (p / 4))) (upto 32))
    256 ltac:(vm_compute; reflexivity) crm Hc) as H. cbv beta in H.
  pose proof (upto_by_cases _ 32 H p Hp) as H'. apply Bool.eqb_prop, H'.
Qed.

Lemma testbit_nibble x k i : 0 <= k -> 0 <= i < 4 -> Z.testbit ((x .>> k) .& 0xF) i = Z.testbit x (k + i).
Proof.
  intros Hk Hi. change 0xF with (Z.ones 4). rewrite Z.land_spec, testbit_shiftr', Z.testbit_ones_nonneg by lia.
  destruct (Z.leb_spec 0 i), (Z.ltb_spec i 4); try lia. rewrite andb_true_r. cbn. f_equal. lia.
Qed.

(** Two fields are equal when their bits are. *)
Lemma nibble_eq x y : inu 4 x -> inu 4 y -> (forall i, 0 <= i < 4 -> Z.testbit x i = Z.testbit y i) -> x = y.
Proof.
  intros Hx Hy H. apply Z.bits_inj'. intros i Hi. destruct (Z.ltb_spec i 4); [apply H; lia |].
  rewrite !(testbit_inu_high 4) by (done || lia). done.
Qed.

Lemma mtcrf_field inst f s :
  wf s -> 0 <= f < 8 ->
  GetCRField f (mtcrf inst s) =
    if Z.testbit (CRM inst) (7 - f) then (rGPR s (RS inst) .>> (28 - f * 4)) .& 0xF else GetCRField f s.
Proof.
  intros Hs Hf. assert (Hc : 0 <= CRM inst < 256) by apply (register_range 12 8 inst ltac:(lia)).
  unfold mtcrf, SetCR. destruct (Z.eqb_spec (CRM inst) 0xFF) as [E | _].
  - rewrite GetCRField_ExpandCR by done. rewrite E.
    pose proof (upto_by_cases (fun f => Z.testbit 0xFF (7 - f)) 8 eq_refl f Hf) as ->. done.
  - rewrite GetCRField_ExpandCR by done. apply nibble_eq.
    + apply nibble_range.
    + destruct (Z.testbit _ _); [apply nibble_range | apply GetCRField_range].
    + intros i Hi. rewrite testbit_nibble, Z.lor_spec, !Z.land_spec, testbit_wrapu, Z.lnot_spec, testbit_crm_mask by lia.
      replace ((28 - f * 4 + i) / 4) with (7 - f) by (Z.to_euclidean_division_equations; lia).
      destruct (Z.ltb_spec (28 - f * 4 + i) 32); [| lia]. cbn [andb].
      destruct (Z.testbit (CRM inst) (7 - f)); cbn [negb]; rewrite andb_false_r, andb_true_r.
      * rewrite testbit_nibble by lia. done.
      * rewrite orb_false_r. unfold GetCR. rewrite testbit_CompactCR by lia.
        f_equal; [f_equal |]; Z.to_euclidean_division_equations; lia.
Qed.

Lemma GetCRField_SetCRField f g v s :
  wf s -> 0 <= f < 8 -> 0 <= g < 8 -> 0 <= v < 16 ->
  GetCRField g (SetCRField f v s) = if decide (g = f) then v else GetCRField g s.
Proof.
  intros Hs Hf Hg Hv. destruct (decide (g = f)) as [-> |].
  - apply GetCRField_same; done.
  - apply GetCRField_other; lia.
Qed.

(** The moves between the condition register and the other registers:
    [mtcrf] writes exactly the fields its mask names, from the same positions
    of the general register, and [mfcr] reads them back; [mcrf] copies one
    field; [mcrxr] moves SO, OV and CA into a field and clears them. *)
Theorem condition_moves inst s :
  wf s ->
  (forall f, 0 <= f < 8 ->
     GetCRField f (mtcrf inst s) =
       (if Z.testbit (CRM inst) (7 - f) then (rGPR s (RS inst) .>> (28 - f * 4)) .& 0xF else GetCRField f s) /\
     GetCRField f (mcrf inst s) = (if decide (f = CRFD inst) then GetCRField (CRFS inst) s else GetCRField f s) /\
     GetCRField f (mcrxr inst s) =
       (if decide (f = CRFD inst) then 8 * GetXER_SO s + 4 * GetXER_OV s + 2 * GetCarry s else GetCRField f s) /\
     (rGPR (mfcr inst s) (RD inst) .>> (28 - f * 4)) .& 0xF = GetCRField f s) /\
  GetXER (mcrxr inst s) = xer_stringctrl s.
Proof.
  intros Hs. assert (Hd : 0 <= CRFD inst < 8) by apply (register_range 23 3 inst ltac:(lia)).
  destruct (GetXER_bits s Hs) as [Hx Hr]. split.
  - intros f Hf. split; [apply mtcrf_field; done |]. split; [apply GetCRField_SetCRField; (done || apply GetCRField_range) |].
    split.
    + etransitivity; [apply (GetCRField_SetCRField (CRFD inst) f (GetXER s .>> 28) s); (done || apply Hr) |].
      destruct (decide _); [| done]. rewrite Hx. unfold GetXER_SO, GetXER_OV, GetCarry.
      assert (E : 8 * (xer_so_ov s .>> 1) + 4 * (xer_so_ov s .& 1) = 4 * xer_so_ov s)
        by (destruct (so_ov_cases _ (wf_so_ov s Hs)) as [-> | [-> | [-> | ->]]]; reflexivity).
      lia.
    + assert (Hrd : 0 <= RD inst < 32) by apply (register_range 21 5 inst ltac:(lia)).
      unfold mfcr. rewrite rGPR_put, decide_True by (done || lia).
      rewrite wrapu_id by apply CompactCR_range. apply nibble_eq; [apply nibble_range | apply GetCRField_range |].
      intros i Hi. rewrite testbit_nibble by lia. unfold GetCR. rewrite testbit_CompactCR by lia.
      f_equal; [f_equal |]; Z.to_euclidean_division_equations; lia.
  - unfold GetXER, mcrxr, SetCRField. cbn. rewrite !Z.lor_0_r. apply wrapu_id. pose proof (wf_string s Hs) as H.
    unfold inu in *. lia.
Qed.

(** The eight operations and the connectives they stand for. *)
Definition cr_logic : list ((Z -> PowerPCState -> PowerPCState) * (bool -> bool -> bool)) :=
  [(crand, andb); (crandc, fun a b => a && negb b); (creqv, Bool.eqb); (crnand, fun a b => negb (a && b));
   (crnor, fun a b => negb (a || b)); (cror, orb); (crorc, fun a b => a || negb b); (crxor, xorb)].

(** Each of the eight logical operations puts its connective of two bits of
    the condition register into a third and leaves the other 31 bits and every
    other register as they were. *)
Theorem condition_logic op f inst s :
  In (op, f) cr_logic -> wf s ->
  let s' := op inst s in
  let bit b := Z.testbit (GetCR s) (31 - b) in
  wf s' /\
  (forall b, 0 <= b < 32 ->
     GetCRBit b s' = if decide (b = CRBD inst) then b2z (f (bit (CRBA inst)) (bit (CRBB inst))) else GetCRBit b s) /\
  set_cr_val (cr_val s) s' = s.
Proof.
  intros Hin Hs. cbv zeta.
  assert (R : 0 <= CRBD inst < 32 /\ 0 <= CRBA inst < 32 /\ 0 <= CRBB inst < 32)
    by (split_and!; apply (register_range _ 5 inst ltac:(lia))).
  destruct R as (Hd & Ha & Hb).
  assert (H : exists g, op inst s = cr_op g inst s /\ forall x y, g (b2z x) (b2z y) .& 1 = b2z (f x y)).
  { unfold cr_logic in Hin. repeat destruct Hin as [[= <- <-] | Hin]; [.. | done];
      (eexists; split; [reflexivity | intros [] []; reflexivity]). }
  destruct H as (g & -> & Hg). unfold cr_op. split; [apply wf_SetCRBit; done |]. split.
  - intros b Hbr. rewrite GetCRBit_SetCRBit by done. rewrite (GetCRBit_GetCR (CRBA inst)), (GetCRBit_GetCR (CRBB inst)) by done.
    rewrite Hg. done.
  - unfold SetCRBit, SetCRField. cbv zeta. destruct (flag _ 1); by destruct s.
Qed.

(** [cror 2,0,1]: equal or less or greater. *)
Definition less : PowerPCState := SetCRField 0 8 ppcState.

Lemma condition_moves_witness :
  GetCRField 3 (mcrf 0x0d800000 less) = 8 /\ GetCRField 0 (mtcrf 0x00080000 less) = 0 /\
  GetXER (mcrxr 0 less) = xer_stringctrl less.
Proof.
  assert (W : wf less) by (apply wf_SetCRField; [apply wf_ppcState | lia]).
  split; [vm_compute; reflexivity |]. split; [vm_compute; reflexivity |].
  exact (proj2 (condition_moves 0 less W)).
Defined.

Lemma condition_logic_witness :
  GetCRBit 2 (cror 0x4c400b82 less) = 1 /\ GetCRBit 2 (cror 0x4c400b82 less) = b2z (true || false).
Proof.
  assert (W : wf less) by (apply wf_SetCRField; [apply wf_ppcState | lia]).
  split; [vm_compute; reflexivity |].
  exact (proj1 (proj2 (condition_logic cror orb 0x4c400b82 less ltac:(cbn; tauto) W)) 2 ltac:(lia)).
Defined.
