(* ===== verification/PpcFpu.v ===== *)
(** The floating-point registers of the PowerPC processor as bits: the status
    and control register, the instructions that move, negate, select and
    compare, and the conversions between the formats of the loads and stores
    ([Core/PowerPC/Interpreter/Interpreter_FPUtils.h],
    [Interpreter_FloatingPoint.cpp], [Interpreter_Paired.cpp],
    [Interpreter_SystemRegisters.cpp], [Common/FloatUtils.h]).

    A double is its 64 bits and a float its 32. The theorems say that the
    conversion of a load is exact and undone by that of a store, that the
    conversion of a store rounds toward zero, and what a comparison reports in
    terms of the numbers the bits stand for. The host's rounding mode, which
    [FPSCRtoFPUSettings] sets, follows from the register ([PpcFpArith]). *)

From S2P Require Import Prelude PpcState.
Open Scope Z_scope.

(** ** Fields of an instruction *)

Definition FA (inst : Z) : Z := field 16 5 inst.
Definition FB (inst : Z) : Z := field 11 5 inst.
Definition FC (inst : Z) : Z := field 6 5 inst.
Definition FD (inst : Z) : Z := field 21 5 inst.
Definition FS (inst : Z) : Z := field 21 5 inst.
Definition FM (inst : Z) : Z := field 17 8 inst.

(** ** Formats *)

Definition DOUBLE_SIGN : Z := 0x8000000000000000.
Definition DOUBLE_EXP : Z := 0x7FF0000000000000.
Definition DOUBLE_FRAC : Z := 0x000FFFFFFFFFFFFF.
Definition DOUBLE_QBIT : Z := 0x0008000000000000.

Definition IsQNAN (i : Z) : bool := ((i .& DOUBLE_EXP) =? DOUBLE_EXP) && ((i .& DOUBLE_QBIT) =? DOUBLE_QBIT).
Definition IsSNAN (i : Z) : bool :=
  ((i .& DOUBLE_EXP) =? DOUBLE_EXP) && negb ((i .& DOUBLE_FRAC) =? 0) && ((i .& DOUBLE_QBIT) =? 0).
Definition MakeQuiet (d : Z) : Z := d .| DOUBLE_QBIT.
Definition Force25Bit (d : Z) : Z := u64 ((d .& 0xFFFFFFFFF8000000) + (d .& 0x8000000)).

(** [FlushToZero(double)] *)
Definition FlushToZero (i : Z) : Z := if (i .& DOUBLE_EXP) =? 0 then i .& DOUBLE_SIGN else i.

Definition PPC_FPCLASS_QNAN : Z := 0x11.
Definition PPC_FPCLASS_NINF : Z := 0x9.
Definition PPC_FPCLASS_NN : Z := 0x8.
Definition PPC_FPCLASS_ND : Z := 0x18.
Definition PPC_FPCLASS_NZ : Z := 0x12.
Definition PPC_FPCLASS_PZ : Z := 0x2.
Definition PPC_FPCLASS_PD : Z := 0x14.
Definition PPC_FPCLASS_PN : Z := 0x4.
Definition PPC_FPCLASS_PINF : Z := 0x5.

Definition ClassifyDouble (ivalue : Z) : Z :=
  let sign := flag ivalue DOUBLE_SIGN in
  let exp := ivalue .& DOUBLE_EXP in
  let mantissa := ivalue .& DOUBLE_FRAC in
  if (0 <? exp) && (exp <? DOUBLE_EXP) then if sign then PPC_FPCLASS_NN else PPC_FPCLASS_PN
  else if negb (mantissa =? 0) then
    if negb (exp =? 0) then PPC_FPCLASS_QNAN
    else if sign then PPC_FPCLASS_ND else PPC_FPCLASS_PD
  else if negb (exp =? 0) then if sign then PPC_FPCLASS_NINF else PPC_FPCLASS_PINF
  else if sign then PPC_FPCLASS_NZ else PPC_FPCLASS_PZ.

(** [std::isnan] and C's comparison of two doubles that are not NaN: their
    bits are ordered as sign and magnitude. *)
Definition isnan (i : Z) : bool := ((i .& DOUBLE_EXP) =? DOUBLE_EXP) && negb ((i .& DOUBLE_FRAC) =? 0).
Definition double_key (i : Z) : Z := if flag i DOUBLE_SIGN then - (i .& .~ DOUBLE_SIGN) else i.

Definition ConvertToSingle (x : Z) : Z :=
  let exp := u32 ((x .>> 52) .& 0x7ff) in
  let truncated := u32 (((x .>> 32) .& 0xc0000000) .| ((x .>> 29) .& 0x3fffffff)) in
  if (896 <? exp) || ((x .& u64 (.~ DOUBLE_SIGN)) =? 0) then truncated
  else if 874 <=? exp then
    let t := u32 (0x80000000 .| ((x .& DOUBLE_FRAC) .>> 21)) in
    let t := t .>> (905 - exp) in
    u32 (t .| ((x .>> 32) .& 0x80000000))
  else truncated.

Definition ConvertToSingleFTZ (x : Z) : Z :=
  let exp := u32 ((x .>> 52) .& 0x7ff) in
  if (896 <? exp) || ((x .& u64 (.~ DOUBLE_SIGN)) =? 0)
  then u32 (((x .>> 32) .& 0xc0000000) .| ((x .>> 29) .& 0x3fffffff))
  else u32 ((x .>> 32) .& 0x80000000).

(** The loop [do ... while ((frac & 0x00800000) == 0)]; [None] when the fuel
    does not suffice. *)
Fixpoint normalize (fuel : nat) (frac exp : Z) : option (Z * Z) :=
  match fuel with
  | O => None
  | S fuel' =>
    let frac := u64 (frac .<< 1) in
    let exp := u64 (exp - 1) in
    if (frac .& 0x00800000) =? 0 then normalize fuel' frac exp else Some (frac, exp)
  end.

(** A fraction of 23 bits that is not zero is normal after 23 rounds. *)
Definition ConvertToDouble (value : Z) : Z :=
  let x := value in
  let exp := (x .>> 23) .& 0xff in
  let frac := x .& 0x007fffff in
  let wide y := ((x .& 0xc0000000) .<< 32) .| (y .<< 61 .| y .<< 60 .| y .<< 59) .| ((x .& 0x3fffffff) .<< 29) in
  if (0 <? exp) && (exp <? 255) then wide (b2z (exp .>> 7 =? 0))
  else if (exp =? 0) && negb (frac =? 0) then
    match normalize 23 frac (1023 - 126) with
    | Some (frac, exp) => ((x .& 0x80000000) .<< 32) .| (exp .<< 52) .| ((frac .& 0x007fffff) .<< 29)
    | None => 0
    end
  else wide (exp .>> 7).

(** ** The status and control register *)

Definition FPSCR_FX : Z := 1 .<< 31.
Definition FPSCR_FEX : Z := 1 .<< 30.
Definition FPSCR_VX : Z := 1 .<< 29.
Definition FPSCR_OX : Z := 1 .<< 28.
Definition FPSCR_UX : Z := 1 .<< 27.
Definition FPSCR_ZX : Z := 1 .<< 26.
Definition FPSCR_XX : Z := 1 .<< 25.
Definition FPSCR_VXSNAN : Z := 1 .<< 24.
Definition FPSCR_VXISI : Z := 1 .<< 23.
Definition FPSCR_VXIDI : Z := 1 .<< 22.
Definition FPSCR_VXZDZ : Z := 1 .<< 21.
Definition FPSCR_VXIMZ : Z := 1 .<< 20.
Definition FPSCR_VXVC : Z := 1 .<< 19.
Definition FPSCR_VXSOFT : Z := 1 .<< 10.
Definition FPSCR_VXSQRT : Z := 1 .<< 9.
Definition FPSCR_VXCVI : Z := 1 .<< 8.
Definition FPSCR_VE : Z := 1 .<< 7.
Definition FPSCR_OE : Z := 1 .<< 6.
Definition FPSCR_UE : Z := 1 .<< 5.
Definition FPSCR_ZE : Z := 1 .<< 4.
Definition FPSCR_XE : Z := 1 .<< 3.
Definition FPSCR_VX_ANY : Z := Eval cbv in
  FPSCR_VXSNAN .| FPSCR_VXISI .| FPSCR_VXIDI .| FPSCR_VXZDZ .| FPSCR_VXIMZ .| FPSCR_VXVC .|
  FPSCR_VXSOFT .| FPSCR_VXSQRT .| FPSCR_VXCVI.
Definition FPSCR_ANY_X : Z := Eval cbv in FPSCR_OX .| FPSCR_UX .| FPSCR_ZX .| FPSCR_XX .| FPSCR_VX_ANY.
Definition FPSCR_mask : Z := 0xFFFFF7FF.
Definition FPRF_SHIFT : Z := 12.

(** The value of a one-bit field, named by its mask, and its assignment. *)
Definition fp (s : PowerPCState) (mask : Z) : bool := flag (fpscr s) mask.
Definition put_flag (mask : Z) (b : bool) (x : Z) : Z := if b then x .| mask else x .& u32 (.~ mask).

(** [UReg_FPSCR::operator=] and [operator|=] *)
Definition assign_FPSCR (value : Z) (s : PowerPCState) : PowerPCState := set_fpscr (u32 value .& FPSCR_mask) s.
Definition or_FPSCR (value : Z) (s : PowerPCState) : PowerPCState := set_fpscr (fpscr s .| (u32 value .& FPSCR_mask)) s.

Definition SetFPException (mask : Z) (s : PowerPCState) : PowerPCState :=
  let f := fpscr s in
  let f := if negb ((f .& mask) =? mask) then put_flag FPSCR_FX true f else f in
  let f := f .| mask in
  set_fpscr (put_flag FPSCR_VX (flag f FPSCR_VX_ANY) f) s.

Definition UpdateFPSCR (s : PowerPCState) : PowerPCState :=
  let f := put_flag FPSCR_VX (flag (fpscr s) FPSCR_VX_ANY) (fpscr s) in
  let fex := (flag f FPSCR_VX && flag f FPSCR_VE) || (flag f FPSCR_OX && flag f FPSCR_OE)
             || (flag f FPSCR_UX && flag f FPSCR_UE) || (flag f FPSCR_ZX && flag f FPSCR_ZE)
             || (flag f FPSCR_XX && flag f FPSCR_XE) in
  set_fpscr (put_flag FPSCR_FEX fex f) s.

Definition Helper_UpdateCR1 (s : PowerPCState) : PowerPCState :=
  SetCRField 1 ((b2z (fp s FPSCR_FX) .<< 3) .| (b2z (fp s FPSCR_FEX) .<< 2) .| (b2z (fp s FPSCR_VX) .<< 1) .| b2z (fp s FPSCR_OX)) s.

(** [if (inst.Rc) Helper_UpdateCR1();] *)
Definition record_CR1 (inst : Z) (s : PowerPCState) : PowerPCState := if Rc inst then Helper_UpdateCR1 s else s.

Definition mtfsb0x (inst : Z) (s : PowerPCState) : PowerPCState :=
  let b := 0x80000000 .>> CRBD inst in
  record_CR1 inst (set_fpscr (fpscr s .& u32 (.~ b)) s).

Definition mtfsb1x (inst : Z) (s : PowerPCState) : PowerPCState :=
  let b := 0x80000000 .>> CRBD inst in
  let s := if flag b FPSCR_ANY_X then SetFPException b s else or_FPSCR b s in
  record_CR1 inst s.

Definition mtfsfix (inst : Z) (s : PowerPCState) : PowerPCState :=
  let field := CRFD inst in
  let mask := 0xF0000000 .>> (4 * field) in
  let imm := u32 (inst .<< 16) .& 0xF0000000 in
  record_CR1 inst (assign_FPSCR ((fpscr s .& u32 (.~ mask)) .| (imm .>> (4 * field))) s).

Definition fm_mask (fm : Z) : Z :=
  fold_left (fun m i => if flag fm (1 .<< i) then m .| (0xF .<< (i * 4)) else m) (upto 8) 0.

Definition mtfsfx (inst : Z) (s : PowerPCState) : PowerPCState :=
  let m := fm_mask (FM inst) in
  record_CR1 inst (assign_FPSCR ((fpscr s .& u32 (.~ m)) .| (u32 (riPS0 s (FB inst)) .& m)) s).

(** The bits that [mcrfs] clears in each field: exceptions, not summaries. *)
Definition mcrfs_clears (crfs : Z) : Z :=
  match crfs with
  | 0 => 0x90000000 | 1 => 0x0F000000 | 2 => 0x00F00000 | 3 => 0x00080000 | 5 => 0x00000700 | _ => 0
  end.

Definition mcrfs (inst : Z) (s : PowerPCState) : PowerPCState :=
  let s := UpdateFPSCR s in
  let fpflags := (fpscr s .>> (4 * (7 - CRFS inst))) .& 0xF in
  let s := set_fpscr (fpscr s .& u32 (.~ mcrfs_clears (CRFS inst))) s in
  SetCRField (CRFD inst) fpflags s.

Definition mffsx (inst : Z) (s : PowerPCState) : PowerPCState :=
  let s := UpdateFPSCR s in
  record_CR1 inst (put_ps0 (FD inst) (0xFFF8000000000000 .| fpscr s) s).

Definition UpdateFPRF (dvalue : Z) (s : PowerPCState) : PowerPCState :=
  set_fpscr ((fpscr s .& u32 (.~ (0x1F .<< FPRF_SHIFT))) .| (ClassifyDouble dvalue .<< FPRF_SHIFT)) s.

(** ** Moves *)

Definition fmrx (inst : Z) (s : PowerPCState) : PowerPCState :=
  record_CR1 inst (put_ps0 (FD inst) (riPS0 s (FB inst)) s).
Definition fabsx (inst : Z) (s : PowerPCState) : PowerPCState :=
  record_CR1 inst (put_ps0 (FD inst) (riPS0 s (FB inst) .& .~ (1 .<< 63)) s).
Definition fnabsx (inst : Z) (s : PowerPCState) : PowerPCState :=
  record_CR1 inst (put_ps0 (FD inst) (riPS0 s (FB inst) .| (1 .<< 63)) s).
Definition fnegx (inst : Z) (s : PowerPCState) : PowerPCState :=
  record_CR1 inst (put_ps0 (FD inst) (riPS0 s (FB inst) .^ (1 .<< 63)) s).

(** [value >= -0.0] *)
Definition not_below_zero (i : Z) : bool := negb (isnan i) && (0 <=? double_key i).

Definition fselx (inst : Z) (s : PowerPCState) : PowerPCState :=
  record_CR1 inst (put_ps0 (FD inst) (if not_below_zero (riPS0 s (FA inst)) then riPS0 s (FC inst) else riPS0 s (FB inst)) s).

(** The assignment to [ps[FD][1]] comes after the one to [ps[FD][0]]; the
    sources of one half are never the other half, except in [ps_sel] and the
    like where each half reads its own. *)
Definition put_ps (i v0 v1 : Z) (s : PowerPCState) : PowerPCState := put_ps1 i v1 (put_ps0 i v0 s).

Definition ps_sel (inst : Z) (s : PowerPCState) : PowerPCState :=
  let s := put_ps0 (FD inst) (if not_below_zero (riPS0 s (FA inst)) then riPS0 s (FC inst) else riPS0 s (FB inst)) s in
  let s := put_ps1 (FD inst) (if not_below_zero (riPS1 s (FA inst)) then riPS1 s (FC inst) else riPS1 s (FB inst)) s in
  record_CR1 inst s.
Definition ps_neg (inst : Z) (s : PowerPCState) : PowerPCState :=
  record_CR1 inst (put_ps (FD inst) (riPS0 s (FB inst) .^ (1 .<< 63)) (riPS1 s (FB inst) .^ (1 .<< 63)) s).
Definition ps_mr (inst : Z) (s : PowerPCState) : PowerPCState :=
  record_CR1 inst (put_ps (FD inst) (riPS0 s (FB inst)) (riPS1 s (FB inst)) s).
Definition ps_nabs (inst : Z) (s : PowerPCState) : PowerPCState :=
  record_CR1 inst (put_ps (FD inst) (riPS0 s (FB inst) .| (1 .<< 63)) (riPS1 s (FB inst) .| (1 .<< 63)) s).
Definition ps_abs (inst : Z) (s : PowerPCState) : PowerPCState :=
  record_CR1 inst (put_ps (FD inst) (riPS0 s (FB inst) .& .~ (1 .<< 63)) (riPS1 s (FB inst) .& .~ (1 .<< 63)) s).
Definition ps_merge00 (inst : Z) (s : PowerPCState) : PowerPCState :=
  record_CR1 inst (put_ps (FD inst) (riPS0 s (FA inst)) (riPS0 s (FB inst)) s).
Definition ps_merge01 (inst : Z) (s : PowerPCState) : PowerPCState :=
  record_CR1 inst (put_ps (FD inst) (riPS0 s (FA inst)) (riPS1 s (FB inst)) s).
Definition ps_merge10 (inst : Z) (s : PowerPCState) : PowerPCState :=
  record_CR1 inst (put_ps (FD inst) (riPS1 s (FA inst)) (riPS0 s (FB inst)) s).
Definition ps_merge11 (inst : Z) (s : PowerPCState) : PowerPCState :=
  record_CR1 inst (put_ps (FD inst) (riPS1 s (FA inst)) (riPS1 s (FB inst)) s).

(** ** Comparisons *)

Inductive FPCC := FL | FG | FE | FU.
Definition fpcc (c : FPCC) : Z := match c with FL => 8 | FG => 4 | FE => 2 | FU => 1 end.

Definition compare_doubles (fa fb : Z) : FPCC :=
  if isnan fa || isnan fb then FU
  else if double_key fa <? double_key fb then FL
  else if double_key fb <? double_key fa then FG
  else FE.

(** Both helpers end like this. *)
Definition set_FPCC (inst : Z) (c : FPCC) (s : PowerPCState) : PowerPCState :=
  SetCRField (CRFD inst) (fpcc c) (set_fpscr ((fpscr s .& u32 (.~ (0xF .<< FPRF_SHIFT))) .| (fpcc c .<< FPRF_SHIFT)) s).

Definition Helper_FloatCompareOrdered (inst fa fb : Z) (s : PowerPCState) : PowerPCState :=
  let s :=
    if isnan fa || isnan fb then
      if IsSNAN fa || IsSNAN fb then
        let s := SetFPException FPSCR_VXSNAN s in
        if negb (fp s FPSCR_VE) then SetFPException FPSCR_VXVC s else s
      else SetFPException FPSCR_VXVC s
    else s in
  set_FPCC inst (compare_doubles fa fb) s.

Definition Helper_FloatCompareUnordered (inst fa fb : Z) (s : PowerPCState) : PowerPCState :=
  let s := if (isnan fa || isnan fb) && (IsSNAN fa || IsSNAN fb) then SetFPException FPSCR_VXSNAN s else s in
  set_FPCC inst (compare_doubles fa fb) s.

Definition fcmpo (inst : Z) (s : PowerPCState) : PowerPCState := Helper_FloatCompareOrdered inst (riPS0 s (FA inst)) (riPS0 s (FB inst)) s.
Definition fcmpu (inst : Z) (s : PowerPCState) : PowerPCState := Helper_FloatCompareUnordered inst (riPS0 s (FA inst)) (riPS0 s (FB inst)) s.
Definition ps_cmpu0 (inst : Z) (s : PowerPCState) : PowerPCState := Helper_FloatCompareUnordered inst (riPS0 s (FA inst)) (riPS0 s (FB inst)) s.
Definition ps_cmpo0 (inst : Z) (s : PowerPCState) : PowerPCState := Helper_FloatCompareOrdered inst (riPS0 s (FA inst)) (riPS0 s (FB inst)) s.
Definition ps_cmpu1 (inst : Z) (s : PowerPCState) : PowerPCState := Helper_FloatCompareUnordered inst (riPS1 s (FA inst)) (riPS1 s (FB inst)) s.
Definition ps_cmpo1 (inst : Z) (s : PowerPCState) : PowerPCState := Helper_FloatCompareOrdered inst (riPS1 s (FA inst)) (riPS1 s (FB inst)) s.

(** ** The numbers that bits stand for *)

(** A finite float in units of [2 ^ -149] and a finite double in units of
    [2 ^ -1074]: the least positive numbers of the two formats. *)
Definition single_exp (x : Z) : Z := field 23 8 x.
Definition single_value (x : Z) : Z :=
  let e := single_exp x in let f := field 0 23 x in
  (if Z.testbit x 31 then -1 else 1) * (if e =? 0 then f else (2 ^ 23 + f) * 2 ^ (e - 1)).
Definition double_exp (x : Z) : Z := field 52 11 x.
Definition double_value (x : Z) : Z :=
  let e := double_exp x in let f := field 0 52 x in
  (if Z.testbit x 63 then -1 else 1) * (if e =? 0 then f else (2 ^ 52 + f) * 2 ^ (e - 1)).

Lemma testbit_top w x : 0 < w -> inu w x -> Z.testbit x (w - 1) = (2 ^ (w - 1) <=? x).
Proof.
  intros Hw Hx. pose proof (pow2_half w Hw). unfold inu in Hx. rewrite Z.testbit_odd, Z.shiftr_div_pow2 by lia.
  pose proof (pow2_pos (w - 1) ltac:(lia)). destruct (Z.leb_spec (2 ^ (w - 1)) x).
  - replace (x / 2 ^ (w - 1)) with 1; [done |]. apply (Z.div_unique_pos _ _ _ (x - 2 ^ (w - 1))); lia.
  - rewrite Z.div_small by lia. done.
Qed.

(** Numbers from their parts. *)
Lemma single_parts s e f :
  0 <= s <= 1 -> inu 8 e -> inu 23 f ->
  let x := s * 2 ^ 31 + e * 2 ^ 23 + f in
  inu 32 x /\ single_exp x = e /\ single_value x = (1 - 2 * s) * (if e =? 0 then f else (2 ^ 23 + f) * 2 ^ (e - 1)).
Proof.
  intros Hs He Hf x. unfold inu in *. assert (R : inu 32 x) by (subst x; unfold inu; lia).
  assert (E : field 23 8 x = e) by (rewrite field_mod by lia; subst x; Z.to_euclidean_division_equations; lia).
  assert (F : field 0 23 x = f) by (rewrite field_mod by lia; subst x; Z.to_euclidean_division_equations; lia).
  split; [exact R |]. split; [exact E |]. unfold single_value, single_exp. rewrite E, F. f_equal.
  pose proof (testbit_top 32 x ltac:(lia) R) as T. change (32 - 1) with 31 in T. rewrite T. subst x.
  destruct (Z.leb_spec (2 ^ 31) (s * 2 ^ 31 + e * 2 ^ 23 + f)); [assert (s = 1) as -> by lia | assert (s = 0) as -> by lia]; done.
Qed.

Lemma double_parts s e f :
  0 <= s <= 1 -> inu 11 e -> inu 52 f ->
  let x := s * 2 ^ 63 + e * 2 ^ 52 + f in
  inu 64 x /\ double_exp x = e /\ field 0 52 x = f /\
  double_value x = (1 - 2 * s) * (if e =? 0 then f else (2 ^ 52 + f) * 2 ^ (e - 1)).
Proof.
  intros Hs He Hf x. unfold inu in *. assert (R : inu 64 x) by (subst x; unfold inu; lia).
  assert (E : field 52 11 x = e) by (rewrite field_mod by lia; subst x; Z.to_euclidean_division_equations; lia).
  assert (F : field 0 52 x = f) by (rewrite field_mod by lia; subst x; Z.to_euclidean_division_equations; lia).
  split; [exact R |]. split; [exact E |]. split; [exact F |]. unfold double_value, double_exp. rewrite E, F. f_equal.
  pose proof (testbit_top 64 x ltac:(lia) R) as T. change (64 - 1) with 63 in T. rewrite T. subst x.
  destruct (Z.leb_spec (2 ^ 63) (s * 2 ^ 63 + e * 2 ^ 52 + f)); [assert (s = 1) as -> by lia | assert (s = 0) as -> by lia]; done.
Qed.

Lemma single_split x : inu 32 x -> exists s e f, 0 <= s <= 1 /\ inu 8 e /\ inu 23 f /\ x = s * 2 ^ 31 + e * 2 ^ 23 + f.
Proof.
  intros Hx. exists (x / 2 ^ 31), (x / 2 ^ 23 mod 2 ^ 8), (x mod 2 ^ 23). unfold inu in *.
  split_and!; Z.to_euclidean_division_equations; lia.
Qed.

Lemma double_split x : inu 64 x -> exists s e f, 0 <= s <= 1 /\ inu 11 e /\ inu 52 f /\ x = s * 2 ^ 63 + e * 2 ^ 52 + f.
Proof.
  intros Hx. exists (x / 2 ^ 63), (x / 2 ^ 52 mod 2 ^ 11), (x mod 2 ^ 52). unfold inu in *.
  split_and!; Z.to_euclidean_division_equations; lia.
Qed.

(** ** Conversion of a load *)

Lemma lor3 a b c n m : 0 <= m <= n -> 0 <= b < 2 ^ n -> b mod 2 ^ m = 0 -> 0 <= c < 2 ^ m -> (a .<< n) .| b .| c = a * 2 ^ n + b + c.
Proof.
  intros Hm Hb Hd Hc. rewrite <- Z.lor_assoc. assert (E : b .| c = b + c).
  { replace b with ((b / 2 ^ m) .<< m) by (rewrite Z.shiftl_mul_pow2 by lia; pose proof (Z.div_mod b (2 ^ m)); pose proof (pow2_pos m); lia).
    rewrite lor_shift_add by lia. rewrite Z.shiftl_mul_pow2 by lia. done. }
  rewrite E, lor_shift_add; [lia | lia |]. split; [lia |].
  pose proof (Z.div_mod b (2 ^ m)). pose proof (pow2_pos m). assert (b / 2 ^ m < 2 ^ (n - m)).
  { apply Z.div_lt_upper_bound; [lia |]. rewrite <- Z.pow_add_r by lia. replace (m + (n - m)) with n by lia. lia. }
  assert (2 ^ n = 2 ^ m * 2 ^ (n - m)) by (rewrite <- Z.pow_add_r by lia; f_equal; lia). nia.
Qed.

(** The three places of the widened number: two bits, three copies of one bit,
    thirty bits. *)
Lemma wide_eq x y :
  inu 32 x -> 0 <= y <= 1 ->
  ((x .& 0xc0000000) .<< 32) .| (y .<< 61 .| y .<< 60 .| y .<< 59) .| ((x .& 0x3fffffff) .<< 29) =
    x / 2 ^ 30 * 2 ^ 62 + 7 * y * 2 ^ 59 + x mod 2 ^ 30 * 2 ^ 29.
Proof.
  intros Hx Hy. change 0xc0000000 with (Z.ones (32 - 30) .<< 30). change 0x3fffffff with (Z.ones 30).
  rewrite (land_top 32), Z.land_ones by (done || lia).
  assert (y = 0 \/ y = 1) as Hy' by lia.
  assert ((y .<< 61) .| (y .<< 60) .| (y .<< 59) = 7 * y * 2 ^ 59) as -> by (destruct Hy' as [-> | ->]; reflexivity).
  replace (x / 2 ^ 30 * 2 ^ 30) with ((x / 2 ^ 30) .<< 30) by (rewrite Z.shiftl_mul_pow2 by lia; done).
  rewrite Z.shiftl_shiftl by lia. rewrite (Z.shiftl_mul_pow2 (x mod 2 ^ 30)) by lia. pose proof (Z.mod_pos_bound x (2 ^ 30) ltac:(lia)).
  apply (lor3 _ _ _ (30 + 32) 59); [lia | destruct Hy' as [-> | ->]; lia | destruct Hy' as [-> | ->]; reflexivity | lia].
Qed.

Lemma normalize_spec n k frac exp :
  (1 <= k <= n)%nat -> 0 < frac -> 2 ^ (23 - Z.of_nat k) <= frac < 2 ^ (24 - Z.of_nat k) -> Z.of_nat k <= exp < 2 ^ 64 ->
  normalize n frac exp = Some (frac * 2 ^ Z.of_nat k, exp - Z.of_nat k).
Proof.
  revert k frac exp. induction n as [| n IH]; intros k frac exp Hk H0 Hf He; [lia |]. cbn [normalize].
  assert (K : (k < 24)%nat).
  { destruct (le_gt_dec 24 k); [| lia]. exfalso. rewrite Z.pow_neg_r in Hf by lia.
    assert (2 ^ (24 - Z.of_nat k) <= 2 ^ 0) by (apply Z.pow_le_mono_r; lia). lia. }
  assert (B : 2 ^ (24 - Z.of_nat k) <= 2 ^ 23) by (apply Z.pow_le_mono_r; lia).
  assert (P : 2 ^ (24 - Z.of_nat k) = 2 * 2 ^ (23 - Z.of_nat k)) by (rewrite <- Z.pow_succ_r by lia; f_equal; lia).
  assert (0 < 2 ^ (23 - Z.of_nat k)) by (apply pow2_pos; lia).
  rewrite Z.shiftl_mul_pow2, wrapu_id by (unfold inu; lia). rewrite (wrapu_id 64 (exp - 1)) by (unfold inu; lia).
  change (2 ^ 1) with 2. change 0x00800000 with (2 ^ 23). pose proof (flag_testbit (frac * 2) 23 ltac:(lia)) as F.
  unfold flag in F. apply (f_equal negb) in F. rewrite negb_involutive in F. rewrite F.
  pose proof (testbit_top 24 (frac * 2) ltac:(lia) ltac:(unfold inu; lia)) as T. change (24 - 1) with 23 in T. rewrite T.
  destruct (decide (k = 1%nat)) as [-> | N].
  - change (2 ^ (23 - Z.of_nat 1)) with (2 ^ 22) in *. destruct (Z.leb_spec (2 ^ 23) (frac * 2)); [| lia]. cbn [negb]. done.
  - assert (2 ^ (23 - Z.of_nat k) * 2 = 2 ^ (24 - Z.of_nat k)) by lia.
    assert (2 ^ (24 - Z.of_nat k) * 2 = 2 ^ (25 - Z.of_nat k)) by (rewrite Z.mul_comm, <- Z.pow_succ_r by lia; f_equal; lia).
    assert (2 ^ (25 - Z.of_nat k) <= 2 ^ 23) by (apply Z.pow_le_mono_r; lia).
    destruct (Z.leb_spec (2 ^ 23) (frac * 2)); [lia |]. cbn [negb].
    rewrite (IH (k - 1)%nat); [| lia | lia | | lia].
    + f_equal. f_equal; [| lia]. rewrite <- Z.mul_assoc. f_equal. rewrite <- Z.pow_succ_r by lia. f_equal. lia.
    + replace (23 - Z.of_nat (k - 1)) with (24 - Z.of_nat k) by lia. replace (24 - Z.of_nat (k - 1)) with (25 - Z.of_nat k) by lia. lia.
Qed.

Lemma single_fields s e f :
  0 <= s <= 1 -> inu 8 e -> inu 23 f ->
  let x := s * 2 ^ 31 + e * 2 ^ 23 + f in
  (x .>> 23) .& 0xff = e /\ x .& 0x007fffff = f /\ x / 2 ^ 30 = 2 * s + e / 2 ^ 7 /\ x mod 2 ^ 30 = e mod 2 ^ 7 * 2 ^ 23 + f /\
  x .& 0x80000000 = s * 2 ^ 31.
Proof.
  intros Hs He Hf x. assert (R : inu 32 x) by (subst x; unfold inu in *; lia).
  change 0xff with (Z.ones 8). change 0x007fffff with (Z.ones 23). change 0x80000000 with (Z.ones (32 - 31) .<< 31).
  rewrite (land_top 32), !Z.land_ones, Z.shiftr_div_pow2 by (done || lia). subst x. unfold inu in *.
  repeat split; Z.to_euclidean_division_equations; lia.
Qed.

(** The exponent of the widened number. *)
Definition wide_exp (e : Z) : Z := if e =? 0 then 0 else if e =? 255 then 2047 else e + 896.

Lemma ConvertToDouble_wide s e f :
  0 <= s <= 1 -> inu 8 e -> inu 23 f -> e <> 0 \/ f = 0 ->
  ConvertToDouble (s * 2 ^ 31 + e * 2 ^ 23 + f) = s * 2 ^ 63 + wide_exp e * 2 ^ 52 + f * 2 ^ 29.
Proof.
  intros Hs He Hf N. set (x := s * 2 ^ 31 + e * 2 ^ 23 + f).
  assert (R : inu 32 x) by (subst x; unfold inu in *; lia).
  destruct (single_fields s e f Hs He Hf) as (F1 & F2 & F3 & F4 & _). fold x in F1, F2, F3, F4.
  unfold ConvertToDouble. rewrite F1, F2. clearbody x. unfold wide_exp. rewrite Z.shiftr_div_pow2 by lia. unfold inu in *.
  destruct (Z.ltb_spec 0 e), (Z.ltb_spec e 255); cbn [andb]; try lia.
  - rewrite wide_eq by (unfold inu; lia || (destruct (_ =? _); cbn; lia)). rewrite F3, F4.
    destruct (Z.eqb_spec e 0), (Z.eqb_spec e 255); try lia.
    destruct (Z.eqb_spec (e / 2 ^ 7) 0) as [E | E]; cbn [b2z].
    + rewrite E. rewrite Z.mod_small by (Z.to_euclidean_division_equations; lia). lia.
    + assert (e / 2 ^ 7 = 1) as E1 by (Z.to_euclidean_division_equations; lia). rewrite E1.
      assert (e mod 2 ^ 7 = e - 128) as -> by (Z.to_euclidean_division_equations; lia). lia.
  - assert (e = 255) as -> by lia. cbn [Z.eqb Pos.eqb andb]. rewrite wide_eq by (unfold inu; lia || (split; vm_compute; congruence)).
    rewrite F3, F4. change (255 / 2 ^ 7) with 1. change (255 mod 2 ^ 7) with 127. lia.
  - assert (e = 0) as -> by lia. destruct N as [N | ->]; [lia |]. cbn [Z.eqb andb negb]. rewrite wide_eq by (unfold inu; lia || (split; vm_compute; congruence)).
    rewrite F3, F4. change (0 / 2 ^ 7) with 0. change (0 mod 2 ^ 7) with 0. lia.
Qed.

Lemma ConvertToDouble_subnormal s f :
  0 <= s <= 1 -> 0 < f < 2 ^ 23 ->
  exists k, 1 <= k <= 23 /\ 2 ^ 23 <= f * 2 ^ k < 2 ^ 24 /\
    ConvertToDouble (s * 2 ^ 31 + f) = s * 2 ^ 63 + (897 - k) * 2 ^ 52 + (f * 2 ^ k - 2 ^ 23) * 2 ^ 29.
Proof.
  intros Hs Hf. pose proof (Z.log2_spec f ltac:(lia)) as L. assert (Hl : 0 <= Z.log2 f <= 22).
  { split; [apply Z.log2_nonneg |]. assert (Z.log2 f < 23) by (apply Z.log2_lt_pow2; lia). lia. }
  exists (23 - Z.log2 f). split; [lia |]. set (k := 23 - Z.log2 f).
  assert (P : 2 ^ Z.log2 f * 2 ^ k = 2 ^ 23) by (rewrite <- Z.pow_add_r by lia; f_equal; lia).
  assert (Hk : 0 < 2 ^ k) by (apply pow2_pos; lia).
  assert (Hb : 2 ^ 23 <= f * 2 ^ k < 2 ^ 24) by (rewrite <- P; rewrite Z.pow_succ_r in L by lia; nia). split; [done |].
  destruct (single_fields s 0 f Hs ltac:(unfold inu; lia) ltac:(unfold inu; lia)) as (F1 & F2 & _ & _ & F5).
  replace (s * 2 ^ 31 + 0 * 2 ^ 23 + f) with (s * 2 ^ 31 + f) in * by lia.
  unfold ConvertToDouble. rewrite F1, F2. cbn [Z.ltb Z.compare andb Z.eqb]. rewrite (proj2 (Z.eqb_neq f 0)) by lia. cbn [negb].
  rewrite (normalize_spec 23 (Z.to_nat k)); [| lia | lia | | lia].
  2: { rewrite Z2Nat.id by lia. replace (23 - k) with (Z.log2 f) by lia. replace (24 - k) with (Z.succ (Z.log2 f)) by lia. exact L. }
  rewrite Z2Nat.id by lia. rewrite F5. change 0x007fffff with (Z.ones 23). rewrite Z.land_ones by lia.
  assert ((f * 2 ^ k) mod 2 ^ 23 = f * 2 ^ k - 2 ^ 23) as ->.
  { symmetry. apply (Z.mod_unique_pos _ _ 1); lia. }
  replace (s * 2 ^ 31 .<< 32) with (s .<< 63) by (rewrite !Z.shiftl_mul_pow2 by lia; lia).
  change (1023 - 126) with 897. rewrite (Z.shiftl_mul_pow2 (897 - k)), (Z.shiftl_mul_pow2 (_ - _)) by lia.
  apply (lor3 _ _ _ 63 52); lia || apply Z.mod_mul; lia.
Qed.

Lemma double_fields s e f :
  0 <= s <= 1 -> inu 11 e -> inu 52 f ->
  let y := s * 2 ^ 63 + e * 2 ^ 52 + f in
  (y .>> 52) .& 0x7ff = e /\ y .& DOUBLE_FRAC = f /\ y .& u64 (.~ DOUBLE_SIGN) = e * 2 ^ 52 + f /\
  (y .>> 32) .& 0xc0000000 = (2 * s + e / 2 ^ 10) * 2 ^ 30 /\ (y .>> 29) .& 0x3fffffff = e mod 2 ^ 7 * 2 ^ 23 + f / 2 ^ 29 /\
  (y .>> 32) .& 0x80000000 = s * 2 ^ 31.
Proof.
  intros Hs He Hf y. unfold inu in *. change 0x7ff with (Z.ones 11). change DOUBLE_FRAC with (Z.ones 52).
  change (u64 (.~ DOUBLE_SIGN)) with (Z.ones 63). change 0x3fffffff with (Z.ones 30).
  assert (R : inu 32 (y .>> 32)) by (rewrite Z.shiftr_div_pow2 by lia; subst y; unfold inu; Z.to_euclidean_division_equations; lia).
  change 0xc0000000 with (Z.ones (32 - 30) .<< 30). change 0x80000000 with (Z.ones (32 - 31) .<< 31).
  rewrite !(land_top 32), !Z.land_ones, !Z.shiftr_div_pow2 by (done || lia). subst y.
  repeat split; Z.to_euclidean_division_equations; lia.
Qed.

Lemma ConvertToSingle_eq s e f :
  0 <= s <= 1 -> inu 11 e -> inu 52 f ->
  ConvertToSingle (s * 2 ^ 63 + e * 2 ^ 52 + f) =
    if (874 <=? e) && (e <=? 896) then s * 2 ^ 31 + (2 ^ 52 + f) / 2 ^ (926 - e)
    else s * 2 ^ 31 + e / 2 ^ 10 * 2 ^ 30 + e mod 2 ^ 7 * 2 ^ 23 + f / 2 ^ 29.
Proof.
  intros Hs He Hf. set (y := s * 2 ^ 63 + e * 2 ^ 52 + f).
  destruct (double_fields s e f Hs He Hf) as (F1 & F2 & F3 & F4 & F5 & F6). fold y in F1, F2, F3, F4, F5, F6.
  unfold ConvertToSingle. rewrite F1, F2, F3, F4, F5, F6. clearbody y. unfold inu in *.
  rewrite (wrapu_id 32 e) by (unfold inu; lia).
  assert (T : u32 ((2 * s + e / 2 ^ 10) * 2 ^ 30 .| (e mod 2 ^ 7 * 2 ^ 23 + f / 2 ^ 29)) =
    s * 2 ^ 31 + e / 2 ^ 10 * 2 ^ 30 + e mod 2 ^ 7 * 2 ^ 23 + f / 2 ^ 29).
  { rewrite <- Z.shiftl_mul_pow2 by lia.
    assert (0 <= e mod 2 ^ 7 * 2 ^ 23 + f / 2 ^ 29 < 2 ^ 30) by (Z.to_euclidean_division_equations; lia).
    assert (0 <= e / 2 ^ 10 <= 1) by (Z.to_euclidean_division_equations; lia).
    rewrite lor_shift_add, wrapu_id by (unfold inu; lia). lia. }
  rewrite T. destruct (Z.ltb_spec 896 e); cbn [orb].
  { destruct (Z.leb_spec 874 e), (Z.leb_spec e 896); cbn [andb]; lia. }
  destruct (Z.eqb_spec (e * 2 ^ 52 + f) 0).
  { destruct (Z.leb_spec 874 e), (Z.leb_spec e 896); cbn [andb]; lia. }
  destruct (Z.leb_spec 874 e), (Z.leb_spec e 896); cbn [andb]; try lia.
  assert (M : u32 (0x80000000 .| (f .>> 21)) = (2 ^ 52 + f) / 2 ^ 21).
  { rewrite Z.shiftr_div_pow2 by lia. change 0x80000000 with (1 .<< 31).
    assert (0 <= f / 2 ^ 21 < 2 ^ 31) by (Z.to_euclidean_division_equations; lia).
    rewrite lor_shift_add, wrapu_id by (unfold inu; lia). Z.to_euclidean_division_equations; lia. }
  rewrite M, Z.shiftr_div_pow2, Z.div_div by (lia || apply pow2_pos; lia). rewrite <- Z.pow_add_r by lia.
  replace (21 + (905 - e)) with (926 - e) by lia.
  assert (B : 0 <= (2 ^ 52 + f) / 2 ^ (926 - e) < 2 ^ 23).
  { split; [apply Z.div_pos; [lia | apply pow2_pos; lia] |]. apply Z.div_lt_upper_bound; [apply pow2_pos; lia |].
    assert (2 ^ 30 <= 2 ^ (926 - e)) by (apply Z.pow_le_mono_r; lia). nia. }
  rewrite Z.lor_comm, <- Z.shiftl_mul_pow2 by lia. rewrite lor_shift_add, wrapu_id by (unfold inu; lia). rewrite Z.shiftl_mul_pow2 by lia. done.
Qed.

Lemma ConvertToSingle_range y : inu 64 y -> inu 32 (ConvertToSingle y).
Proof.
  intros Hy. unfold ConvertToSingle. repeat case_match; try (range).

Qed.

(** ** What the conversions do to numbers *)

Lemma quot_signed s a b : 0 <= s <= 1 -> Z.quot ((1 - 2 * s) * a) b = (1 - 2 * s) * Z.quot a b.
Proof.
  intros Hs. assert (s = 0 \/ s = 1) as [-> | ->] by lia.
  - rewrite !Z.mul_1_l. done.
  - change (1 - 2 * 1) with (-1). replace (-1 * a) with (- a) by lia. replace (-1 * Z.quot a b) with (- Z.quot a b) by lia.
    destruct (decide (b = 0)) as [-> |]; [by destruct a | apply Z.quot_opp_l; done].
Qed.

(** The conversion of [lfs] is exact, and [stfs] undoes it: every float, NaN
    and subnormal numbers included, is read back bit for bit. *)
Theorem load_conversion x :
  inu 32 x ->
  inu 64 (ConvertToDouble x) /\
  ConvertToSingle (ConvertToDouble x) = x /\
  (if single_exp x =? 255
   then double_exp (ConvertToDouble x) = 2047 /\ field 0 52 (ConvertToDouble x) = field 0 23 x * 2 ^ 29
   else double_exp (ConvertToDouble x) <> 2047 /\ double_value (ConvertToDouble x) = single_value x * 2 ^ 925).
Proof.
  intros Hx. destruct (single_split x Hx) as (s & e & f & Hs & He & Hf & ->).
  destruct (single_parts s e f Hs He Hf) as (_ & Ee & Ev). rewrite Ee, Ev.
  assert (Ef : field 0 23 (s * 2 ^ 31 + e * 2 ^ 23 + f) = f).
  { rewrite field_mod by lia. unfold inu in *. Z.to_euclidean_division_equations. lia. }
  rewrite Ef. clear Ee Ev Ef Hx. destruct (decide (e = 0 /\ f <> 0)) as [[-> Nf] | N].
  - replace (s * 2 ^ 31 + 0 * 2 ^ 23 + f) with (s * 2 ^ 31 + f) by lia.
    destruct (ConvertToDouble_subnormal s f Hs) as (k & Hk & Hb & ->); [unfold inu in *; lia |].
    destruct (double_parts s (897 - k) ((f * 2 ^ k - 2 ^ 23) * 2 ^ 29) Hs) as (R & De & _ & Dv); [unfold inu; lia | unfold inu; lia |].
    split; [exact R |]. split; [| change (0 =? 255) with false; cbv iota; rewrite De, Dv; split; [lia |]].
    + rewrite ConvertToSingle_eq by (unfold inu; lia). destruct (Z.leb_spec 874 (897 - k)), (Z.leb_spec (897 - k) 896); try lia. cbn [andb].
      f_equal. replace (926 - (897 - k)) with (29 + k) by lia. rewrite Z.pow_add_r by lia.
      replace (2 ^ 52 + (f * 2 ^ k - 2 ^ 23) * 2 ^ 29) with (f * (2 ^ 29 * 2 ^ k)) by lia. apply Z.div_mul.
      pose proof (pow2_pos k ltac:(lia)). lia.
    + rewrite (proj2 (Z.eqb_neq (897 - k) 0)) by lia. change (0 =? 0) with true. cbv iota.
      replace (2 ^ 52 + (f * 2 ^ k - 2 ^ 23) * 2 ^ 29) with (f * 2 ^ k * 2 ^ 29) by lia.
      rewrite <- !Z.mul_assoc. f_equal. f_equal. rewrite <- !Z.pow_add_r by lia. f_equal. lia.
  - assert (N' : e <> 0 \/ f = 0) by lia. rewrite (ConvertToDouble_wide s e f Hs He Hf N').
    assert (Hw : inu 11 (wide_exp e)) by (unfold wide_exp, inu in *; destruct (Z.eqb_spec e 0), (Z.eqb_spec e 255); lia).
    assert (Hf' : inu 52 (f * 2 ^ 29)) by (unfold inu in *; lia).
    destruct (double_parts s (wide_exp e) (f * 2 ^ 29) Hs Hw Hf') as (R & De & Df & Dv). split; [exact R |]. split.
    + rewrite ConvertToSingle_eq by done. rewrite Z.div_mul by lia. unfold wide_exp, inu in *.
      destruct (Z.eqb_spec e 0) as [-> |].
      { change (0 / 2 ^ 10) with 0. change (0 mod 2 ^ 7) with 0. change (874 <=? 0) with false. cbn [andb]. lia. }
      destruct (Z.eqb_spec e 255) as [-> |].
      { change (2047 / 2 ^ 10) with 1. change (2047 mod 2 ^ 7) with 127. change (2047 <=? 896) with false. rewrite andb_false_r. lia. }
      destruct (Z.leb_spec 874 (e + 896)), (Z.leb_spec (e + 896) 896); try lia. cbn [andb].
      assert ((e + 896) / 2 ^ 10 * 2 ^ 30 + (e + 896) mod 2 ^ 7 * 2 ^ 23 = e * 2 ^ 23) by (Z.to_euclidean_division_equations; lia). lia.
    + rewrite De, Df, Dv. unfold wide_exp, inu in *. destruct (Z.eqb_spec e 255) as [-> |]; [split; reflexivity |].
      destruct (Z.eqb_spec e 0) as [-> | E0].
      { destruct N' as [N' | ->]; [lia |]. split; [lia |]. change (0 =? 0) with true. cbv iota. rewrite !Z.mul_0_l, !Z.mul_0_r. done. }
      split; [lia |]. rewrite (proj2 (Z.eqb_neq (e + 896) 0)) by lia.
      replace (2 ^ 52 + f * 2 ^ 29) with ((2 ^ 23 + f) * 2 ^ 29) by lia.
      rewrite <- !Z.mul_assoc. do 2 f_equal. rewrite <- !Z.pow_add_r by lia. f_equal. lia.
Qed.

(** A signalling NaN and the least subnormal float. *)
Lemma load_conversion_witness :
  ConvertToSingle (ConvertToDouble 0x7f800001) = 0x7f800001 /\
  double_value (ConvertToDouble 0x80000001) = single_value 0x80000001 * 2 ^ 925.
Proof.
  split; [apply (load_conversion 0x7f800001) | apply (load_conversion 0x80000001)]; vm_compute; done.
Defined.

(** The conversion of [stfs] rounds toward zero every number in the range of
    a float, subnormal ones included, to 24 significant bits or to a multiple
    of the least positive float. *)
Theorem store_conversion y :
  inu 64 y -> double_exp y <= 1150 -> 874 <= double_exp y ->
  let x := ConvertToSingle y in
  let unit := 2 ^ (Z.max 1 (single_exp x) - 1) in
  inu 32 x /\ single_exp x = Z.max 0 (double_exp y - 896) /\
  single_value x = Z.quot (double_value y) (2 ^ 925 * unit) * unit.
Proof.
  intros Hy. destruct (double_split y Hy) as (s & e & f & Hs & He & Hf & ->).
  destruct (double_parts s e f Hs He Hf) as (_ & Ee & _ & Ev). rewrite Ee, Ev. clear Ee Ev Hy. intros H1 H2.
  rewrite ConvertToSingle_eq by done. cbv zeta. unfold inu in *. rewrite (proj2 (Z.eqb_neq e 0)) by lia.
  destruct (Z.leb_spec 874 e); [| lia]. destruct (Z.leb_spec e 896); cbn [andb].
  - set (m := (2 ^ 52 + f) / 2 ^ (926 - e)).
    assert (P : 2 ^ 30 <= 2 ^ (926 - e)) by (apply Z.pow_le_mono_r; lia).
    assert (B : inu 23 m).
    { subst m. unfold inu. split; [apply Z.div_pos; lia |]. apply Z.div_lt_upper_bound; [lia |]. nia. }
    destruct (single_parts s 0 m Hs ltac:(unfold inu; lia) B) as (R & E & V).
    replace (s * 2 ^ 31 + 0 * 2 ^ 23 + m) with (s * 2 ^ 31 + m) in * by lia. rewrite E, V. split; [exact R |].
    split; [lia |]. change (2 ^ (Z.max 1 0 - 1)) with 1. rewrite !Z.mul_1_r, quot_signed by done. change (0 =? 0) with true. cbv iota.
    f_equal. rewrite Z.quot_div_nonneg by (pose proof (pow2_pos (e - 1)); nia). subst m.
    replace (2 ^ 925) with (2 ^ (926 - e) * 2 ^ (e - 1)) by (rewrite <- Z.pow_add_r by lia; f_equal; lia).
    rewrite Z.div_mul_cancel_r; [done | |]; apply Z.pow_nonzero; lia.
  - set (E := e - 896). assert (X : s * 2 ^ 31 + e / 2 ^ 10 * 2 ^ 30 + e mod 2 ^ 7 * 2 ^ 23 + f / 2 ^ 29 = s * 2 ^ 31 + E * 2 ^ 23 + f / 2 ^ 29).
    { subst E. assert (e / 2 ^ 10 * 2 ^ 30 + e mod 2 ^ 7 * 2 ^ 23 = (e - 896) * 2 ^ 23) by (Z.to_euclidean_division_equations; lia). lia. }
    rewrite X. assert (B : inu 23 (f / 2 ^ 29)) by (unfold inu; Z.to_euclidean_division_equations; lia).
    destruct (single_parts s E (f / 2 ^ 29) Hs ltac:(unfold inu; lia) B) as (R & EE & V). rewrite EE, V. split; [exact R |].
    split; [lia |]. rewrite (proj2 (Z.eqb_neq E 0)) by lia. replace (Z.max 1 E) with E by lia.
    rewrite quot_signed by done. rewrite <- !Z.mul_assoc. f_equal.
    pose proof (pow2_pos (e - 1) ltac:(lia)). pose proof (pow2_pos (E - 1) ltac:(lia)).
    rewrite Z.quot_div_nonneg by nia. f_equal.
    replace (2 ^ (e - 1)) with (2 ^ 896 * 2 ^ (E - 1)) by (rewrite <- Z.pow_add_r by lia; f_equal; lia).
    rewrite !Z.mul_assoc. rewrite Z.div_mul_cancel_r by (apply Z.pow_nonzero; lia || (intros K; vm_compute in K; congruence)).
    change (2 ^ 925) with (2 ^ 29 * 2 ^ 896). rewrite Z.div_mul_cancel_r by (vm_compute; congruence).
    Z.to_euclidean_division_equations; lia.
Qed.

(** ** Comparisons and numbers *)

(** -1.75 * 2^-149 becomes -2^-149. *)
Lemma store_conversion_witness :
  single_value (ConvertToSingle 0xB6AC000000000000) = -1.
Proof.
  destruct (store_conversion 0xB6AC000000000000) as (_ & _ & ->); vm_compute; done.
Defined.

(** The value of a magnitude, for which infinity counts as [2 ^ 2098], more
    than every finite number. *)
Lemma magnitude_order e1 f1 e2 f2 :
  0 <= e1 -> 0 <= e2 -> inu 52 f1 -> inu 52 f2 ->
  let g e f := if e =? 0 then f else (2 ^ 52 + f) * 2 ^ (e - 1) in
  e1 * 2 ^ 52 + f1 < e2 * 2 ^ 52 + f2 -> g e1 f1 < g e2 f2.
Proof.
  intros H1 H2 F1 F2 g. unfold inu in *. destruct (Z.lt_trichotomy e1 e2) as [L | [-> | L]]; intros C; [| | lia].
  - assert (A : g e1 f1 < 2 ^ 52 * 2 ^ e1).
    { subst g. cbv beta. destruct (Z.eqb_spec e1 0) as [-> |]; [change (2 ^ 0) with 1; lia |].
      replace (2 ^ e1) with (2 * 2 ^ (e1 - 1)) by (rewrite <- Z.pow_succ_r by lia; f_equal; lia). pose proof (pow2_pos (e1 - 1)). nia. }
    assert (B : 2 ^ 52 * 2 ^ e1 <= g e2 f2).
    { subst g. cbv beta. destruct (Z.eqb_spec e2 0); [lia |]. assert (2 ^ e1 <= 2 ^ (e2 - 1)) by (apply Z.pow_le_mono_r; lia). nia. }
    lia.
  - subst g. cbv beta. destruct (Z.eqb_spec e2 0); [lia |]. pose proof (pow2_pos (e2 - 1) ltac:(lia)). nia.
Qed.

Lemma double_key_parts s e f :
  0 <= s <= 1 -> inu 11 e -> inu 52 f -> double_key (s * 2 ^ 63 + e * 2 ^ 52 + f) = (1 - 2 * s) * (e * 2 ^ 52 + f).
Proof.
  intros Hs He Hf. unfold inu in *. set (y := s * 2 ^ 63 + e * 2 ^ 52 + f). unfold double_key.
  assert (R : inu 64 y) by (subst y; unfold inu; lia). change DOUBLE_SIGN with (2 ^ 63). rewrite flag_testbit by lia.
  pose proof (testbit_top 64 y ltac:(lia) R) as T. change (64 - 1) with 63 in T. rewrite T.
  assert (Z.land y (.~ 2 ^ 63) = y mod 2 ^ 63) as ->.
  { rewrite <- Z.land_ones by lia. apply Z.bits_inj'. intros i Hi. rewrite !Z.land_spec, Z.lnot_spec by lia.
    rewrite Z.pow2_bits_eqb, Z.testbit_ones_nonneg by lia. destruct (Z.eqb_spec 63 i), (Z.ltb_spec i 63); try lia; try done.
    rewrite (testbit_inu_high 64 y) by (done || lia). done. }
  subst y. destruct (Z.leb_spec (2 ^ 63) (s * 2 ^ 63 + e * 2 ^ 52 + f)).
  - assert (s = 1) as -> by lia. rewrite <- (Z_mod_plus_full _ (-1)), Z.mod_small by lia. lia.
  - assert (s = 0) as -> by lia. lia.
Qed.

(** Keys are ordered as the numbers are. *)
Lemma double_key_order a b :
  inu 64 a -> inu 64 b -> (double_key a <? double_key b) = (double_value a <? double_value b).
Proof.
  intros Ha Hb. destruct (double_split a Ha) as (s1 & e1 & f1 & S1 & E1 & F1 & ->). destruct (double_split b Hb) as (s2 & e2 & f2 & S2 & E2 & F2 & ->).
  rewrite !double_key_parts by done.
  destruct (double_parts s1 e1 f1 S1 E1 F1) as (_ & _ & _ & ->). destruct (double_parts s2 e2 f2 S2 E2 F2) as (_ & _ & _ & ->).
  unfold inu in E1, E2.
  pose proof (magnitude_order e1 f1 e2 f2 ltac:(lia) ltac:(lia) F1 F2) as O12. pose proof (magnitude_order e2 f2 e1 f1 ltac:(lia) ltac:(lia) F2 F1) as O21.
  cbv zeta beta in O12, O21.
  assert (G : forall e f, 0 <= e -> inu 52 f -> 0 <= (if e =? 0 then f else (2 ^ 52 + f) * 2 ^ (e - 1)) /\
    ((if e =? 0 then f else (2 ^ 52 + f) * 2 ^ (e - 1)) = 0 <-> e * 2 ^ 52 + f = 0)).
  { clear. intros e f He Hf. unfold inu in Hf. destruct (Z.eqb_spec e 0) as [-> |]; [lia |]. pose proof (pow2_pos (e - 1) ltac:(lia)). nia. }
  pose proof (G e1 f1 ltac:(lia) F1) as [G1 Z1]. pose proof (G e2 f2 ltac:(lia) F2) as [G2 Z2]. clear G.
  assert (Q : e1 * 2 ^ 52 + f1 = e2 * 2 ^ 52 + f2 ->
    (if e1 =? 0 then f1 else (2 ^ 52 + f1) * 2 ^ (e1 - 1)) = (if e2 =? 0 then f2 else (2 ^ 52 + f2) * 2 ^ (e2 - 1))).
  { intros E. unfold inu in *. assert (e1 = e2) as -> by lia. assert (f1 = f2) as -> by lia. done. }
  assert (K1 : 0 <= e1 * 2 ^ 52 + f1) by (unfold inu in *; lia). assert (K2 : 0 <= e2 * 2 ^ 52 + f2) by (unfold inu in *; lia).
  set (g1 := if e1 =? 0 then f1 else _) in *. set (g2 := if e2 =? 0 then f2 else _) in *.
  set (k1 := e1 * 2 ^ 52 + f1) in *. set (k2 := e2 * 2 ^ 52 + f2) in *. clearbody g1 g2 k1 k2.
  assert (s1 = 0 \/ s1 = 1) as [-> | ->] by lia; assert (s2 = 0 \/ s2 = 1) as [-> | ->] by lia;
    apply eq_true_iff_eq; rewrite !Z.ltb_lt; lia.
Qed.

(** ** The status and control register by its bits *)

Lemma testbit_put_flag k b x i :
  0 <= k < 32 -> 0 <= i < 32 -> Z.testbit (put_flag (1 .<< k) b x) i = if i =? k then b else Z.testbit x i.
Proof.
  intros Hk Hi. unfold put_flag. destruct b.
  - rewrite Z.lor_spec, testbit_bit by lia. destruct (i =? k); [apply orb_true_r | apply orb_false_r].
  - rewrite Z.land_spec, testbit_wrapu, Z.lnot_spec, testbit_bit by lia.
    destruct (Z.ltb_spec i 32); [| lia]. destruct (i =? k); [apply andb_false_r | apply andb_true_r].
Qed.

Lemma put_flag_range k b x : 0 <= k < 32 -> inu 32 x -> inu 32 (put_flag (1 .<< k) b x).
Proof.
  intros Hk Hx. unfold put_flag. apply inu_testbit; [lia |]. intros i Hi. destruct b.
  - rewrite Z.lor_spec, testbit_bit, (testbit_inu_high 32 x) by (done || lia). destruct (Z.eqb_spec i k); [lia | done].
  - rewrite Z.land_spec, (testbit_inu_high 32 x) by (done || lia). done.
Qed.

(** An exception: its bit, the summary of the changes, the summary of the
    invalid operations, and nothing else. *)
Lemma testbit_SetFPException k s i :
  0 <= k < 32 -> k <> 31 -> k <> 29 -> Z.testbit FPSCR_VX_ANY k = true -> 0 <= i < 32 ->
  Z.testbit (fpscr (SetFPException (1 .<< k) s)) i =
    if i =? k then true else if i =? 29 then true
    else if i =? 31 then Z.testbit (fpscr s) 31 || negb (Z.testbit (fpscr s) k) else Z.testbit (fpscr s) i.
Proof.
  intros Hk N1 N2 V Hi. unfold SetFPException. cbn [fpscr set_fpscr].
  assert (M : negb ((fpscr s .& (1 .<< k)) =? 1 .<< k) = negb (Z.testbit (fpscr s) k)).
  { f_equal. destruct (Z.testbit (fpscr s) k) eqn:E.
    - apply Z.eqb_eq, Z.bits_inj'. intros j Hj. rewrite Z.land_spec, testbit_bit by lia. destruct (Z.eqb_spec j k) as [-> |]; [by rewrite E | apply andb_false_r].
    - apply Z.eqb_neq. intros C. apply (f_equal (fun z => Z.testbit z k)) in C. rewrite Z.land_spec, testbit_bit, E, Z.eqb_refl in C by lia. done. }
  rewrite M. set (f := if negb (Z.testbit (fpscr s) k) then _ else _).
  assert (F : forall j, 0 <= j < 32 -> Z.testbit f j = if j =? 31 then Z.testbit (fpscr s) 31 || negb (Z.testbit (fpscr s) k) else Z.testbit (fpscr s) j).
  { intros j Hj. subst f. destruct (Z.testbit (fpscr s) k) eqn:E; cbn [negb].
    - destruct (Z.eqb_spec j 31) as [-> |]; [by rewrite orb_false_r | done].
    - unfold FPSCR_FX. rewrite testbit_put_flag by lia. destruct (Z.eqb_spec j 31); [by rewrite orb_true_r | done]. }
  assert (X : flag (f .| (1 .<< k)) FPSCR_VX_ANY = true).
  { unfold flag. apply negb_true_iff, Z.eqb_neq. intros C. apply (f_equal (fun z => Z.testbit z k)) in C.
    rewrite Z.land_spec, Z.lor_spec, testbit_bit, Z.eqb_refl, V, orb_true_r, Z.testbit_0_l in C by lia. done. }
  rewrite X. unfold FPSCR_VX at 1. rewrite testbit_put_flag by lia. rewrite Z.lor_spec, testbit_bit, F by lia.
  destruct (Z.eqb_spec i k), (Z.eqb_spec i 29), (Z.eqb_spec i 31); try lia; rewrite ?orb_true_r, ?orb_false_r; done.
Qed.

Lemma SetFPException_frame mask s : cr_val (SetFPException mask s) = cr_val s.
Proof. done. Qed.

Lemma fpcc_range c : 0 < fpcc c < 16.
Proof. destruct c; cbn; lia. Qed.

Lemma testbit_set_FPCC inst c s i :
  0 <= i < 32 -> Z.testbit (fpscr (set_FPCC inst c s)) i = if (12 <=? i) && (i <? 16) then Z.testbit (fpcc c) (i - 12) else Z.testbit (fpscr s) i.
Proof.
  intros Hi. unfold set_FPCC, SetCRField. cbn [fpscr set_fpscr set_cr_val]. unfold FPRF_SHIFT.
  rewrite Z.lor_spec, Z.land_spec, testbit_wrapu, testbit_lnot', !testbit_shiftl' by lia.
  change 0xF with (Z.ones 4). rewrite Z.testbit_ones by lia.
  destruct (Z.leb_spec 0 i), (Z.ltb_spec i 32), (Z.leb_spec 12 i), (Z.ltb_spec i 16), (Z.leb_spec 0 (i - 12)), (Z.ltb_spec (i - 12) 4); try lia; cbn [andb negb];
    rewrite ?andb_false_r, ?andb_true_r; cbn [orb]; try done.
  - rewrite (testbit_inu_high 4 (fpcc c)) by (unfold inu; pose proof (fpcc_range c); lia). apply orb_false_r.
  - rewrite (Z.testbit_neg_r (fpcc c)) by lia. apply orb_false_r.
Qed.

Lemma GetCRField_set_FPCC inst c s s1 : wf s -> cr_val s1 = cr_val s -> GetCRField (CRFD inst) (set_FPCC inst c s1) = fpcc c.
Proof.
  intros Hs Ec. transitivity (GetCRField (CRFD inst) (SetCRField (CRFD inst) (fpcc c) s)).
  { unfold set_FPCC, SetCRField, GetCRField. cbn [cr_val set_cr_val set_fpscr]. rewrite Ec. done. }
  pose proof (fpcc_range c). apply GetCRField_same; [done | | lia].
  unfold CRFD. rewrite field_mod by lia. apply Z.mod_pos_bound. lia.
Qed.

(** The comparison instructions: whether ordered, and the operands. *)
Definition float_compares : list ((Z -> PowerPCState -> PowerPCState) * bool * (PowerPCState -> Z -> Z)) :=
  [(fcmpo, true, riPS0); (fcmpu, false, riPS0); (ps_cmpo0, true, riPS0); (ps_cmpu0, false, riPS0);
   (ps_cmpo1, true, riPS1); (ps_cmpu1, false, riPS1)].

(** What a comparison reports, in terms of numbers. *)
Definition relation_of (a b : Z) : FPCC :=
  if isnan a || isnan b then FU
  else if double_value a <? double_value b then FL
  else if double_value b <? double_value a then FG else FE.

Lemma IsSNAN_isnan a : IsSNAN a = true -> isnan a = true.
Proof. unfold IsSNAN, isnan. intros [-> _]%andb_prop. done. Qed.

(** C34: a comparison of doubles writes to the named field of the condition
    register and to FPCC whether the first operand is less, greater, equal or
    unordered, as the numbers are; signed zeros are equal and infinities are
    beyond every number. A signalling NaN raises VXSNAN; a NaN raises VXVC in an
    ordered comparison, unless it signals and invalid operations are enabled;
    every other bit of FPSCR but the summaries is unchanged. *)
Theorem float_compare op ordered operand inst s :
  In (op, ordered, operand) float_compares -> wf s ->
  let a := operand s (FA inst) in
  let b := operand s (FB inst) in
  let s' := op inst s in
  let signals := IsSNAN a || IsSNAN b in
  GetCRField (CRFD inst) s' = fpcc (relation_of a b) /\
  (forall i, 0 <= i < 4 -> Z.testbit (fpscr s') (12 + i) = Z.testbit (fpcc (relation_of a b)) i) /\
  fp s' FPSCR_VXSNAN = fp s FPSCR_VXSNAN || signals /\
  fp s' FPSCR_VXVC = fp s FPSCR_VXVC || (ordered && (isnan a || isnan b) && negb (signals && fp s FPSCR_VE)) /\
  (forall i, 0 <= i < 29 -> i <> 19 -> i <> 24 -> ~ 12 <= i < 16 -> Z.testbit (fpscr s') i = Z.testbit (fpscr s) i).
Proof.
  intros Hin Hs a b s' signals.
  assert (Hops : inu 64 a /\ inu 64 b).
  { assert (H : forall i, inu 64 (operand s i)); [| split; apply H]. intros i. clear - Hin Hs. cbn in Hin. destruct Hs.
    destruct_or! Hin; try done; injection Hin as _ _ <-; unfold riPS0, riPS1; eapply arr_ok_zget; (done || lia). }
  assert (Ec : compare_doubles a b = relation_of a b).
  { unfold compare_doubles, relation_of. rewrite !double_key_order by apply Hops. done. }
  assert (E : s' = set_FPCC inst (compare_doubles a b)
    (if ordered then
       if isnan a || isnan b then
         if signals then let s1 := SetFPException FPSCR_VXSNAN s in if negb (fp s1 FPSCR_VE) then SetFPException FPSCR_VXVC s1 else s1
         else SetFPException FPSCR_VXVC s
       else s
     else if (isnan a || isnan b) && signals then SetFPException FPSCR_VXSNAN s else s)).
  { subst s' a b signals. cbn in Hin. destruct_or! Hin; try done; simplify_eq; reflexivity. }
  assert (Sn : signals = true -> isnan a || isnan b = true).
  { subst signals. intros [H%IsSNAN_isnan | H%IsSNAN_isnan]%orb_prop; rewrite H, ?orb_true_r; reflexivity. }
  rewrite E, Ec. set (c := relation_of a b). clearbody c. clear E Ec Hin.
  set (s1 := if ordered then _ else _). set (nan := isnan a || isnan b) in *.
  assert (C1 : cr_val s1 = cr_val s) by (subst s1; cbv zeta; repeat match goal with |- context [if ?b then _ else _] => lazymatch b with context [if _ then _ else _] => fail | _ => destruct b end end; reflexivity).
  assert (B1 : forall i, 0 <= i < 29 -> Z.testbit (fpscr s1) i =
    if i =? 24 then Z.testbit (fpscr s) 24 || signals
    else if i =? 19 then Z.testbit (fpscr s) 19 || (ordered && nan && negb (signals && fp s FPSCR_VE))
    else Z.testbit (fpscr s) i).
  { clear C1. intros i Hi. unfold fp, FPSCR_VE. rewrite (flag_pow2 _ 7) by lia. subst s1. cbv zeta. unfold fp, FPSCR_VE, FPSCR_VXSNAN, FPSCR_VXVC. rewrite !flag_pow2 by lia.
    rewrite (testbit_SetFPException 24 s 7) by (lia || done). cbn [Z.eqb Pos.eqb].
    destruct ordered, signals; cbn [andb]; rewrite ?Sn by done; cbn [andb]; destruct nan eqn:En; cbn [andb negb]; try (specialize (Sn eq_refl); done).
    all: repeat match goal with |- context [if negb ?b then _ else _] => destruct b; cbn [negb] end.
    all: rewrite ?testbit_SetFPException by (lia || done).
    all: destruct (Z.eqb_spec i 24), (Z.eqb_spec i 19), (Z.eqb_spec i 29), (Z.eqb_spec i 31); try (exfalso; lia); subst;
      rewrite ?orb_true_r, ?orb_false_r; done. }
  split; [apply (GetCRField_set_FPCC inst c s); done |]. split_and!.
  - intros i Hi. rewrite testbit_set_FPCC by lia. destruct (Z.leb_spec 12 (12 + i)), (Z.ltb_spec (12 + i) 16); try lia. cbn [andb]. f_equal. lia.
  - unfold fp, FPSCR_VXSNAN. rewrite !flag_pow2, testbit_set_FPCC by lia. cbn [Z.leb Z.ltb Z.compare Pos.compare Pos.compare_cont andb]. apply (B1 24). lia.
  - unfold FPSCR_VXVC at 1 2. unfold fp at 1 2. rewrite !flag_pow2, testbit_set_FPCC by lia. cbn [Z.leb Z.ltb Z.compare Pos.compare Pos.compare_cont andb]. apply (B1 19). lia.
  - intros i Hi N1 N2 N3. rewrite testbit_set_FPCC by lia. destruct (Z.leb_spec 12 i), (Z.ltb_spec i 16); try lia; cbn [andb];
      rewrite B1 by lia; rewrite (proj2 (Z.eqb_neq i 24)), (proj2 (Z.eqb_neq i 19)) by done; done.
Qed.

(** A quiet NaN against one, ordered. *)
Definition fcmpo_example : PowerPCState :=
  put_ps0 1 0x7FF8000000000000 (put_ps0 2 0x3FF0000000000000 (ppcState)).

Lemma wf_put_ps0 i v s : wf s -> wf (put_ps0 i v s).
Proof. intros []. constructor; try done. apply arr_ok_zset; [done | range]. Qed.

Lemma wf_put_ps1 i v s : wf s -> wf (put_ps1 i v s).
Proof. intros []. constructor; try done. apply arr_ok_zset; [done | range]. Qed.

Lemma wf_fcmpo_example : wf fcmpo_example.
Proof. do 2 apply wf_put_ps0. apply wf_ppcState. Qed.

Lemma float_compare_witness :
  let s' := fcmpo (Z.shiftl 63 26 .| Z.shiftl 3 23 .| Z.shiftl 1 16 .| Z.shiftl 2 11 .| Z.shiftl 32 1) fcmpo_example in
  GetCRField 3 s' = 1 /\ fp s' FPSCR_VXVC = true /\ fp s' FPSCR_VXSNAN = false.
Proof.
  intros s'.
  destruct (float_compare fcmpo true riPS0 (Z.shiftl 63 26 .| Z.shiftl 3 23 .| Z.shiftl 1 16 .| Z.shiftl 2 11 .| Z.shiftl 32 1) fcmpo_example)
    as (H1 & _ & H2 & H3 & _); [by left | apply wf_fcmpo_example |].
  split; [exact H1 | split; [etransitivity; [exact H3 |] | etransitivity; [exact H2 |]]; vm_compute; reflexivity].
Defined.
