(* ===== verification/PpcFloat.v ===== *)
(** The arithmetic of C++ on [double] and [float], as the processors it runs on
    perform it (IEEE 754 with the rounding mode and the flushing of underflows
    that [FPURoundMode::SetSIMDMode] selects), on numbers as bits.

    An exact result is an integer times a power of two; the quotient, which
    need not be one, is computed with 120 bits more than the divisor has and a
    last bit that says whether anything is left. [round_magnitude] rounds the
    exact result in one step. The lemmas say that it gives the nearest number. *)

From S2P Require Import Prelude PpcState PpcFpu.
Open Scope Z_scope.

(** ** Formats *)

(** The bits of the significand, the exponent of the least number, and the
    bits of infinity. *)
Record format := mk_format { prec : Z; emin : Z; infinity : Z; sign_bit : Z }.
Definition binary64 : format := mk_format 53 (-1074) 0x7FF0000000000000 0x8000000000000000.
Definition binary32 : format := mk_format 24 (-149) 0x7F800000 0x80000000.

(** [FPSCR.RN] *)
Inductive RoundingMode := Nearest | TowardsZero | TowardsPositiveInfinity | TowardsNegativeInfinity.
#[export] Instance RoundingMode_eq_dec : EqDecision RoundingMode.
Proof. solve_decision. Defined.

(** The mode, and whether underflows are flushed to zero. *)
Record env := mk_env { mode : RoundingMode; flush : bool }.

(** ** Rounding *)

(** Whether to round a positive or negative number away from zero when the
    remainder is [r] of [d] and the last bit kept is that of [q]. *)
Definition round_up (mode : RoundingMode) (neg : bool) (q r d : Z) : bool :=
  match mode with
  | Nearest => (d <? 2 * r) || ((d =? 2 * r) && Z.odd q)
  | TowardsZero => false
  | TowardsPositiveInfinity => negb neg && negb (r =? 0)
  | TowardsNegativeInfinity => neg && negb (r =? 0)
  end.

(** The bits of [m * 2 ^ e] but the sign, for [m >= 0]. *)
Definition round_magnitude (f : format) (mode : RoundingMode) (neg : bool) (m e : Z) : Z :=
  if m =? 0 then 0
  else
    let e' := Z.max (e + Z.log2 m + 1 - prec f) (emin f) in
    let '(q, up) :=
      if e' <=? e then (m * 2 ^ (e - e'), false)
      else let d := 2 ^ (e' - e) in (m / d, round_up mode neg (m / d) (m mod d) d) in
    let bits := (e' - emin f) * 2 ^ (prec f - 1) + q + b2z up in
    if infinity f <=? bits then
      match mode with
      | Nearest => infinity f
      | TowardsZero => infinity f - 1
      | TowardsPositiveInfinity => if neg then infinity f - 1 else infinity f
      | TowardsNegativeInfinity => if neg then infinity f else infinity f - 1
      end
    else bits.

Definition flushed (f : format) (v : env) (bits : Z) : Z := if flush v && (bits <? 2 ^ (prec f - 1)) then 0 else bits.

Definition with_sign (f : format) (neg : bool) (bits : Z) : Z := if neg then sign_bit f + bits else bits.

Definition round (f : format) (v : env) (neg : bool) (m e : Z) : Z :=
  with_sign f neg (flushed f v (round_magnitude f (mode v) neg m e)).

(** ** Doubles *)

Definition negative (a : Z) : bool := Z.testbit a 63.
Definition isinf (a : Z) : bool := (a .& u64 (.~ DOUBLE_SIGN)) =? DOUBLE_EXP.
Definition is_zero (a : Z) : bool := (a .& u64 (.~ DOUBLE_SIGN)) =? 0.
Definition significand (a : Z) : Z := let f := field 0 52 a in if double_exp a =? 0 then f else 2 ^ 52 + f.
Definition exponent (a : Z) : Z := Z.max (double_exp a) 1 - 1075.
Definition signed_significand (a : Z) : Z := if negative a then - significand a else significand a.

Definition DOUBLE_INFINITY : Z := 0x7FF0000000000000.
(** The NaN of an invalid operation on x86-64. *)
Definition DEFAULT_NAN : Z := 0xFFF8000000000000.
Definition negate (a : Z) : Z := a .^ DOUBLE_SIGN.

(** The first operand that is not a number, quiet. *)
Definition nan_operand (a b : Z) : Z := MakeQuiet (if isnan a then a else b).

Definition sum (v : env) (a b : Z) : Z :=
  let e := Z.min (exponent a) (exponent b) in
  let n := signed_significand a * 2 ^ (exponent a - e) + signed_significand b * 2 ^ (exponent b - e) in
  if n =? 0 then
    let neg := if Bool.eqb (negative a) (negative b) then negative a else bool_decide (mode v = TowardsNegativeInfinity) in
    with_sign binary64 neg 0
  else round binary64 v (n <? 0) (Z.abs n) e.

(** [a + b] *)
Definition double_add (v : env) (a b : Z) : Z :=
  if isnan a || isnan b then nan_operand a b
  else if isinf a then if isinf b && xorb (negative a) (negative b) then DEFAULT_NAN else a
  else if isinf b then b
  else sum v a b.

(** [a - b] *)
Definition double_sub (v : env) (a b : Z) : Z := if isnan a || isnan b then nan_operand a b else double_add v a (negate b).

(** [a * b] *)
Definition double_mul (v : env) (a b : Z) : Z :=
  let neg := xorb (negative a) (negative b) in
  if isnan a || isnan b then nan_operand a b
  else if isinf a || isinf b then if is_zero a || is_zero b then DEFAULT_NAN else with_sign binary64 neg DOUBLE_INFINITY
  else round binary64 v neg (significand a * significand b) (exponent a + exponent b).

(** The quotient of two positive integers times [2 ^ 121], with its last bit
    set when it is not exact. *)
Definition quotient (a b : Z) : Z := 2 * (a * 2 ^ 120 / b) + b2z (negb (a * 2 ^ 120 mod b =? 0)).

(** [a / b] *)
Definition double_div (v : env) (a b : Z) : Z :=
  let neg := xorb (negative a) (negative b) in
  if isnan a || isnan b then nan_operand a b
  else if isinf a then if isinf b then DEFAULT_NAN else with_sign binary64 neg DOUBLE_INFINITY
  else if isinf b then with_sign binary64 neg 0
  else if is_zero b then if is_zero a then DEFAULT_NAN else with_sign binary64 neg DOUBLE_INFINITY
  else round binary64 v neg (quotient (significand a) (significand b)) (exponent a - exponent b - 121).

(** [(float)a] and back *)
Definition to_float (v : env) (a : Z) : Z :=
  if isnan a then with_sign binary32 (negative a) (infinity binary32 .| 0x400000 .| (field 0 52 a .>> 29))
  else if isinf a then with_sign binary32 (negative a) (infinity binary32)
  else round binary32 v (negative a) (significand a) (exponent a).

(** Exact; [ConvertToDouble] is the same but for the signaling NaNs, which the
    host makes quiet. *)
Definition of_float (x : Z) : Z := let d := ConvertToDouble x in if isnan d then MakeQuiet d else d.

(** [a * b] of floats, on their exact doubles. *)
Definition float_mul (v : env) (x y : Z) : Z :=
  let a := of_float x in
  let b := of_float y in
  let neg := xorb (negative a) (negative b) in
  if isnan a || isnan b then to_float v (nan_operand a b)
  else if isinf a || isinf b then if is_zero a || is_zero b then to_float v DEFAULT_NAN else with_sign binary32 neg (infinity binary32)
  else round binary32 v neg (significand a * significand b) (exponent a + exponent b).

(** [static_cast<float>(i)] *)
Definition float_of_int (v : env) (i : Z) : Z := round binary32 v (i <? 0) (Z.abs i) 0.

(** ** The magnitude of bits *)

(** What the bits of a positive number stand for, in units of the least one. *)
Definition magnitude (p bits : Z) : Z :=
  if bits <? 2 ^ (p - 1) then bits else (bits mod 2 ^ (p - 1) + 2 ^ (p - 1)) * 2 ^ (bits / 2 ^ (p - 1) - 1).

Section Magnitude.
Variable p : Z.
Hypothesis Hp : 1 < p.

Lemma half_pos : 0 < 2 ^ (p - 1) /\ 2 ^ p = 2 * 2 ^ (p - 1).
Proof. pose proof (pow2_pos (p - 1) ltac:(lia)). pose proof (pow2_half p ltac:(lia)). lia. Qed.

(** A significand that carries into the exponent included. *)
Lemma magnitude_encode E q : 0 <= E -> (E = 0 \/ 2 ^ (p - 1) <= q) -> 0 <= q <= 2 ^ p -> magnitude p (E * 2 ^ (p - 1) + q) = q * 2 ^ E.
Proof.
  intros HE Hq R. destruct half_pos as [Hh H2]. unfold magnitude. destruct (Z.ltb_spec (E * 2 ^ (p - 1) + q) (2 ^ (p - 1))) as [L | G].
  - assert (E = 0) as -> by nia. change (2 ^ 0) with 1. lia.
  - assert (C : q < 2 ^ (p - 1) \/ 2 ^ (p - 1) <= q < 2 ^ p \/ q = 2 ^ p) by lia. destruct C as [C | [C | ->]].
    + destruct Hq as [-> |]; lia.
    + assert (D : (E * 2 ^ (p - 1) + q) / 2 ^ (p - 1) = E + 1) by (symmetry; apply (Z.div_unique_pos _ _ _ (q - 2 ^ (p - 1))); lia).
      rewrite Z.mod_eq, D by lia. replace (E + 1 - 1) with E by lia. f_equal. lia.
    + assert (D : (E * 2 ^ (p - 1) + 2 ^ p) / 2 ^ (p - 1) = E + 2) by (symmetry; apply (Z.div_unique_pos _ _ _ 0); lia).
      rewrite Z.mod_eq, D by lia. replace (E + 2 - 1) with (Z.succ E) by lia. rewrite Z.pow_succ_r by lia. nia.
Qed.

Lemma magnitude_succ b : 0 <= b -> magnitude p b < magnitude p (b + 1).
Proof.
  intros Hb. destruct half_pos as [Hh H2]. set (h := 2 ^ (p - 1)) in *.
  pose proof (Z.div_mod b h ltac:(lia)) as D. pose proof (Z.mod_pos_bound b h Hh) as M.
  assert (Q : 0 <= b / h) by (apply Z.div_pos; lia). set (E := b / h) in *. set (f := b mod h) in *.
  destruct (Z.eqb_spec E 0) as [E0 |].
  - rewrite E0 in D. replace b with (0 * h + f) at 1 by lia. replace (b + 1) with (0 * h + (f + 1)) by lia.
    rewrite !magnitude_encode by (lia || (left; lia) || (subst h; lia)). lia.
  - replace b with ((E - 1) * h + (f + h)) at 1 by lia. replace (b + 1) with ((E - 1) * h + (f + 1 + h)) by lia.
    rewrite !magnitude_encode by (lia || (right; subst h; lia) || (subst h; lia)). pose proof (pow2_pos (E - 1) ltac:(lia)). nia.
Qed.

Lemma magnitude_mono a b : 0 <= a -> a <= b -> magnitude p a <= magnitude p b.
Proof.
  intros Ha Hab. replace b with (a + Z.of_nat (Z.to_nat (b - a))) by lia. induction (Z.to_nat (b - a)) as [| n IH]; [rewrite Z.add_0_r; lia |].
  pose proof (magnitude_succ (a + Z.of_nat n) ltac:(lia)). replace (a + Z.of_nat (S n)) with (a + Z.of_nat n + 1) by lia. lia.
Qed.

Lemma magnitude_0 : magnitude p 0 = 0.
Proof. unfold magnitude. destruct half_pos. destruct (Z.ltb_spec 0 (2 ^ (p - 1))); lia. Qed.

Lemma magnitude_nonneg a : 0 <= a -> 0 <= magnitude p a.
Proof. intros. rewrite <- magnitude_0. apply magnitude_mono; lia. Qed.

(** [r] is a nearest number to [x], in units of [S] parts of the least number. *)
Definition nearest (S x r : Z) : Prop := forall y, 0 <= y -> Z.abs (magnitude p r * S - x) <= Z.abs (magnitude p y * S - x).

(** The nearer of the two neighbours of [x] is the nearest of all. *)
Lemma nearest_neighbour S x b r :
  0 < S -> 0 <= b -> magnitude p b * S <= x <= magnitude p (b + 1) * S -> r = b \/ r = b + 1 ->
  Z.abs (magnitude p r * S - x) <= x - magnitude p b * S -> Z.abs (magnitude p r * S - x) <= magnitude p (b + 1) * S - x -> nearest S x r.
Proof.
  intros HS Hb Hx Hr L1 L2 y Hy. destruct (Z.le_gt_cases y b).
  - pose proof (magnitude_mono y b Hy ltac:(lia)). nia.
  - pose proof (magnitude_mono (b + 1) y ltac:(lia) ltac:(lia)). nia.
Qed.
End Magnitude.

(** ** Rounding to the nearest number *)

(** The exponent of the last bit that is kept, and how many bits stand above
    it. *)
Lemma kept_exponent f m e :
  1 < prec f -> 0 < m ->
  let e' := Z.max (e + Z.log2 m + 1 - prec f) (emin f) in
  (e' <= e -> (e' = emin f \/ 2 ^ (prec f - 1) <= m * 2 ^ (e - e')) /\ 0 <= m * 2 ^ (e - e') < 2 ^ prec f) /\
  (e < e' -> (e' = emin f \/ 2 ^ (prec f - 1) <= m / 2 ^ (e' - e)) /\ 0 <= m / 2 ^ (e' - e) < 2 ^ prec f).
Proof.
  intros Hp Hm. pose proof (Z.log2_spec m Hm) as [L1 L2]. assert (Hl : 0 <= Z.log2 m) by apply Z.log2_nonneg.
  rewrite <- Z.add_1_r in L2. revert L1 L2 Hl. generalize (Z.log2 m). intros l L1 L2 Hl e'. split; intros Hle.
  - pose proof (pow2_pos (e - e') ltac:(lia)) as P. split; [| split; [nia |]].
    + destruct (Z.eq_dec e' (emin f)); [left; done | right]. replace (prec f - 1) with (l + (e - e')) by (subst e'; lia). rewrite Z.pow_add_r by lia. nia.
    + apply Z.lt_le_trans with (2 ^ (l + 1) * 2 ^ (e - e')); [nia |]. rewrite <- Z.pow_add_r by lia. apply Z.pow_le_mono_r; subst e'; lia.
  - pose proof (pow2_pos (e' - e) ltac:(lia)) as P. split; [| split; [apply Z.div_pos; lia |]].
    + destruct (Z.eq_dec e' (emin f)); [left; done | right]. apply Z.div_le_lower_bound; [done |]. rewrite <- Z.pow_add_r by (subst e'; lia).
      replace (e' - e + (prec f - 1)) with l by (subst e'; lia). lia.
    + apply Z.div_lt_upper_bound; [done |]. rewrite <- Z.pow_add_r by lia. apply Z.lt_le_trans with (2 ^ (l + 1)); [done |].
      apply Z.pow_le_mono_r; subst e'; lia.
Qed.

(** [x] is what [m] units of [U] stand for, or, when [m] is odd, anything between
    its neighbours. *)
Definition stands_for (m U x : Z) : Prop := x = m * U \/ (Z.odd m = true /\ (m - 1) * U < x < (m + 1) * U).

(** Half a unit of the last bit decides, also for a number known up to a sticky
    bit. *)
Lemma round_up_spec m U x t q r :
  0 < U -> 0 < t -> stands_for m U x -> (x = m * U \/ 2 <= t) -> m = q * 2 ^ t + r -> 0 <= r < 2 ^ t ->
  let D := 2 ^ t * U in
  q * D <= x <= (q + 1) * D /\
  (if round_up Nearest false q r (2 ^ t) then (q + 1) * D - x <= x - q * D else x - q * D <= (q + 1) * D - x).
Proof.
  intros HU Ht Hx Hd Em Hr D. subst D. cbn [round_up]. pose proof (pow2_pos (t - 1) ltac:(lia)) as P1. pose proof (pow2_half t ltac:(lia)) as P2.
  set (h := 2 ^ (t - 1)) in *. rewrite P2 in *.
  assert (L1 : forall u v, u <= v -> u * U <= v * U) by (intros; nia).
  replace ((q + 1) * (2 * h * U)) with (q * (2 * h * U) + 2 * (h * U)) by ring.
  assert (Exact : x = m * U -> q * (2 * h * U) <= x <= q * (2 * h * U) + 2 * (h * U) /\
    (if (2 * h <? 2 * r) || ((2 * h =? 2 * r) && Z.odd q) then q * (2 * h * U) + 2 * (h * U) - x <= x - q * (2 * h * U)
     else x - q * (2 * h * U) <= q * (2 * h * U) + 2 * (h * U) - x)).
  { intros ->. rewrite Em. replace ((q * (2 * h) + r) * U) with (q * (2 * h * U) + r * U) by ring. pose proof (L1 0 r ltac:(lia)). pose proof (L1 r (2 * h) ltac:(lia)).
    destruct (Z.ltb_spec (2 * h) (2 * r)); cbn [orb]; [pose proof (L1 h r ltac:(lia)); lia |].
    pose proof (L1 r h ltac:(lia)). destruct (Z.eqb_spec (2 * h) (2 * r)); cbn [andb]; [| lia]. pose proof (L1 h r ltac:(lia)). destruct (Z.odd q); lia. }
  destruct Hx as [Hx | [Ho Hx]]; [exact (Exact Hx) |]. destruct Hd as [Hd | Hd]; [exact (Exact Hd) |]. clear Exact.
  assert (Eh : exists g, h = 2 * g) by (exists (2 ^ (t - 2)); subst h; pose proof (pow2_half (t - 1) ltac:(lia)) as G; replace (t - 1 - 1) with (t - 2) in G by lia; lia).
  destruct Eh as [g Eg]. assert (Or : exists k, r = 2 * k + 1).
  { apply Z.odd_spec. rewrite Em, Z.odd_add, Z.odd_mul, (Z.odd_mul 2) in Ho. cbn in Ho. rewrite andb_false_r in Ho. destruct (Z.odd r); done. }
  destruct Or as [k Ek]. rewrite Em in Hx. replace ((q * (2 * h) + r - 1) * U) with (q * (2 * h * U) + (r - 1) * U) in Hx by ring.
  replace ((q * (2 * h) + r + 1) * U) with (q * (2 * h * U) + (r + 1) * U) in Hx by ring.
  pose proof (L1 0 (r - 1) ltac:(lia)). pose proof (L1 (r + 1) (2 * h) ltac:(lia)). destruct (Z.ltb_spec (2 * h) (2 * r)); cbn [orb].
  - pose proof (L1 h (r - 1) ltac:(lia)). lia.
  - destruct (Z.eqb_spec (2 * h) (2 * r)); [lia |]. cbn [andb]. pose proof (L1 (r + 1) h ltac:(lia)). lia.
Qed.

Lemma round_magnitude_nearest f neg m e k S U x :
  1 < prec f -> 0 < m -> 0 < S -> 0 < U -> 0 <= k -> 0 <= e - emin f + k -> S * 2 ^ (e - emin f + k) = U * 2 ^ k ->
  stands_for m U x -> (x = m * U \/ prec f < Z.log2 m) ->
  let r := round_magnitude f Nearest neg m e in
  r < infinity f -> 0 <= r /\ nearest (prec f) S x r.
Proof.
  intros Hp Hm HS HU Hk Hek Hunits Hx Hst r Hr. subst r. revert Hr. unfold round_magnitude. destruct (Z.eqb_spec m 0); [lia |].
  destruct (kept_exponent f m e Hp Hm) as [Kle Kgt]. set (e' := Z.max _ _) in *. set (E := e' - emin f) in *. assert (HE : 0 <= E) by (subst E e'; lia).
  pose proof (pow2_pos k Hk) as Pk.
  destruct (Z.leb_spec e' e) as [Hle | Hgt].
  - destruct (Kle Hle) as [Kq Kr]. set (q := m * 2 ^ (e - e')) in *.
    assert (Ex : x = m * U).
    { destruct Hst as [| Hst]; [done |]. assert (2 ^ (prec f + 1) <= m).
      { apply Z.le_trans with (2 ^ Z.log2 m); [apply Z.pow_le_mono_r; lia | apply Z.log2_spec; done]. }
      rewrite Z.pow_add_r in * by lia. pose proof (pow2_pos (e - e') ltac:(lia)). subst q. change (2 ^ 1) with 2 in *. nia. }
    change (b2z false) with 0. rewrite Z.add_0_r. destruct (Z.leb_spec (infinity f) (E * 2 ^ (prec f - 1) + q)); [lia |]. intros _.
    assert (Em : magnitude (prec f) (E * 2 ^ (prec f - 1) + q) = q * 2 ^ E).
    { apply magnitude_encode; [done | done | destruct Kq; [left; subst E; lia | right; done] | lia]. }
    split; [pose proof (pow2_pos (prec f - 1) ltac:(lia)); nia |]. intros y Hy. rewrite Em.
    assert (q * 2 ^ E * S = x).
    { rewrite Ex. subst q. apply (Z.mul_cancel_r _ _ (2 ^ k)); [lia |]. rewrite <- (Z.mul_assoc m U), <- Hunits.
      replace (e - emin f + k) with ((e - e') + E + k) by (subst E; lia). rewrite !Z.pow_add_r by lia. ring. }
    lia.
  - destruct (Kgt Hgt) as [Kq Kr]. set (t := e' - e) in *. set (q := m / 2 ^ t) in *.
    assert (Pt : 0 < 2 ^ t) by (apply pow2_pos; subst t; lia).
    assert (Em : m = q * 2 ^ t + m mod 2 ^ t) by (subst q; pose proof (Z.div_mod m (2 ^ t) ltac:(lia)); lia).
    pose proof (Z.mod_pos_bound m (2 ^ t) Pt) as Rm. set (r := m mod 2 ^ t) in *.
    assert (Du : 2 ^ t * U = 2 ^ E * S).
    { apply (Z.mul_cancel_r _ _ (2 ^ k)); [lia |]. rewrite <- (Z.mul_assoc _ U), <- Hunits.
      replace (E) with ((e - emin f + k) + t - k) by (subst E t; lia).
      replace (2 ^ (e - emin f + k + t - k) * S * 2 ^ k) with (S * (2 ^ (e - emin f + k + t - k) * 2 ^ k)) by ring.
      rewrite <- Z.pow_add_r by (subst E t; lia). replace (e - emin f + k + t - k + k) with (t + (e - emin f + k)) by lia.
      rewrite (Z.pow_add_r 2 t) by (subst t; lia). ring. }
    assert (Hd : x = m * U \/ 2 <= t).
    { destruct Hst as [| Hst]; [left; done | right]. subst t e'. lia. }
    destruct (round_up_spec m U x t q r HU ltac:(subst t; lia) Hx Hd Em Rm) as [B1 B2].
    change (round_up Nearest neg q r (2 ^ t)) with (round_up Nearest false q r (2 ^ t)).
    assert (E0 : E = 0 \/ 2 ^ (prec f - 1) <= q) by (destruct Kq; [left; subst E; lia | right; done]).
    assert (M0 : magnitude (prec f) (E * 2 ^ (prec f - 1) + q) = q * 2 ^ E) by (apply magnitude_encode; done || lia).
    assert (M1 : magnitude (prec f) (E * 2 ^ (prec f - 1) + q + 1) = (q + 1) * 2 ^ E).
    { rewrite <- Z.add_assoc. apply magnitude_encode; [done | done | destruct E0; [left; done | right; lia] | lia]. }
    set (b := E * 2 ^ (prec f - 1) + q) in *.
    assert (Hb : 0 <= b).
    { apply Z.add_nonneg_nonneg; [| lia]. apply Z.mul_nonneg_nonneg; [exact HE |]. apply Z.pow_nonneg. lia. }
    rewrite Du in B1, B2.
    assert (N0 : magnitude (prec f) b * S <= x <= magnitude (prec f) (b + 1) * S) by (rewrite M0, M1; lia).
    assert (Nr : forall r', r' = b \/ r' = b + 1 -> Z.abs (magnitude (prec f) r' * S - x) <= x - magnitude (prec f) b * S ->
              Z.abs (magnitude (prec f) r' * S - x) <= magnitude (prec f) (b + 1) * S - x -> 0 <= r' /\ nearest (prec f) S x r').
    { intros r' Er' D1 D2. split; [lia |]. exact (nearest_neighbour (prec f) Hp S x b r' HS Hb N0 Er' D1 D2). }
    rewrite M0, M1 in N0, Nr.
    destruct (round_up Nearest false q r (2 ^ t)); [change (b2z true) with 1 | change (b2z false) with 0; rewrite Z.add_0_r];
      (match goal with |- context [infinity f <=? ?v] => destruct (Z.leb_spec (infinity f) v); [lia |] end); intros _; apply Nr; rewrite ?M0, ?M1; auto; lia.
Qed.

(** ** The operations *)

Definition finite (a : Z) : bool := negb (double_exp a =? 2047).

Lemma significand_range a : 0 <= significand a < 2 ^ 53.
Proof. pose proof (field_range 0 52 a ltac:(lia)) as F. unfold inu, significand in *. destruct (_ =? 0); lia. Qed.

Lemma exponent_range a : -1074 <= exponent a <= 972.
Proof. pose proof (field_range 52 11 a ltac:(lia)) as F. unfold inu, exponent, double_exp in *. lia. Qed.

Lemma double_value_parts a : double_value a = signed_significand a * 2 ^ (exponent a + 1074).
Proof.
  unfold double_value, signed_significand, significand, exponent, negative. pose proof (field_range 52 11 a ltac:(lia)) as F. unfold inu in F.
  fold (double_exp a) in F. destruct (Z.eqb_spec (double_exp a) 0) as [-> |].
  - change (2 ^ (Z.max 0 1 - 1075 + 1074)) with 1. destruct (Z.testbit a 63); lia.
  - replace (Z.max (double_exp a) 1 - 1075 + 1074) with (double_exp a - 1) by lia. destruct (Z.testbit a 63); ring.
Qed.

(** The value of a number's bits. *)
Lemma double_value_magnitude neg r :
  0 <= r < infinity binary64 ->
  let a := with_sign binary64 neg r in
  inu 64 a /\ finite a = true /\ double_value a = (if neg then -1 else 1) * magnitude 53 r /\ negative a = neg.
Proof.
  intros Hr a. change (infinity binary64) with (2047 * 2 ^ 52) in Hr.
  set (e := r / 2 ^ 52). set (f := r mod 2 ^ 52).
  assert (He : inu 11 e /\ e < 2047 /\ inu 52 f /\ r = e * 2 ^ 52 + f) by (subst e f; unfold inu; Z.to_euclidean_division_equations; lia).
  destruct He as (He & He' & Hf & Er). set (s := b2z neg).
  assert (Ea : a = s * 2 ^ 63 + e * 2 ^ 52 + f).
  { subst a s. unfold with_sign. change (sign_bit binary64) with (2 ^ 63). destruct neg; cbn [b2z]; lia. }
  assert (Hs : 0 <= s <= 1) by (subst s; destruct neg; cbn; lia).
  destruct (double_parts s e f Hs He Hf) as (P1 & P2 & _ & P4). rewrite <- Ea in P1, P2, P4. split; [exact P1 |].
  split; [unfold finite; rewrite P2; lia |]. split.
  - rewrite P4. replace (1 - 2 * s) with (if neg then -1 else 1) by (subst s; destruct neg; done). f_equal.
    unfold magnitude. change (53 - 1) with 52. fold e f. unfold inu in *. destruct (Z.eqb_spec e 0); destruct (Z.ltb_spec r (2 ^ 52)); lia.
  - unfold negative. pose proof (testbit_top 64 a ltac:(lia) P1) as T. change (64 - 1) with 63 in T. rewrite T, Ea. unfold inu in *.
    subst s. destruct neg; cbn [b2z] in *; [apply Z.leb_le | apply Z.leb_gt]; lia.
Qed.

Lemma double_value_bits y : inu 64 y -> exists neg r, 0 <= r /\ y = with_sign binary64 neg r /\ (finite y = true -> r < infinity binary64).
Proof.
  intros Hy. destruct (double_split y Hy) as (s & e & f & Hs & He & Hf & Ey). destruct (double_parts s e f Hs He Hf) as (_ & P & _). rewrite <- Ey in P.
  exists (s =? 1), (e * 2 ^ 52 + f). unfold inu in *. split; [lia |]. split.
  - rewrite Ey. unfold with_sign. change (sign_bit binary64) with (2 ^ 63). destruct (Z.eqb_spec s 1); lia.
  - unfold finite. rewrite P. change (infinity binary64) with (2047 * 2 ^ 52). lia.
Qed.

(** [r] is a double nearest to [x / S] times [2 ^ -1074]. *)
Definition nearest_double (S x r : Z) : Prop :=
  inu 64 r /\ finite r = true /\ forall y, inu 64 y -> finite y = true -> Z.abs (double_value r * S - x) <= Z.abs (double_value y * S - x).

Lemma nearest_with_sign S x (neg : bool) r :
  0 < S -> 0 <= x -> 0 <= r < infinity binary64 -> nearest 53 S x r ->
  nearest_double S (if neg then - x else x) (with_sign binary64 neg r).
Proof.
  intros HS Hx Hr Hn. destruct (double_value_magnitude neg r Hr) as (B1 & B2 & B3 & _). split; [done |]. split; [done |].
  intros y Hy Fy. destruct (double_value_bits y Hy) as (neg' & r' & Hr' & -> & Fr). specialize (Fr Fy).
  destruct (double_value_magnitude neg' r' (conj Hr' Fr)) as (_ & _ & -> & _). rewrite B3.
  pose proof (Hn r' Hr') as N1. pose proof (Hn 0 ltac:(lia)) as N0. rewrite magnitude_0 in N0 by lia.
  pose proof (magnitude_nonneg 53 eq_refl r' Hr') as M. destruct neg, neg'; nia.
Qed.

Lemma round_nearest v (neg : bool) m e k S U x :
  mode v = Nearest -> flush v = false -> 0 <= m -> 0 < S -> 0 < U -> 0 <= k -> 0 <= e + 1074 + k -> S * 2 ^ (e + 1074 + k) = U * 2 ^ k ->
  stands_for m U x -> (x = m * U \/ 53 < Z.log2 m) -> finite (round binary64 v neg m e) = true ->
  nearest_double S (if neg then - x else x) (round binary64 v neg m e).
Proof.
  intros Hv Hf Hm HS HU Hk Hek Hunits Hx Hst. unfold round, flushed. rewrite Hf, Hv. cbn [andb].
  destruct (Z.eq_dec m 0) as [-> | Nm].
  - intros _. assert (x = 0) as -> by (destruct Hst as [| Hst]; [lia | done]).
    change (round_magnitude binary64 Nearest neg 0 e) with 0. apply nearest_with_sign; [done | done | split; done |].
    intros y Hy. rewrite magnitude_0 by lia. lia.
  - set (r := round_magnitude binary64 Nearest neg m e). intros F.
    assert (Hx0 : 0 <= x) by (destruct Hx as [-> | [_ Hx]]; nia).
    assert (Hr : r < infinity binary64).
    { destruct (Z.le_gt_cases (infinity binary64) r) as [G |]; [| done]. exfalso. revert G F. subst r. unfold round_magnitude.
      destruct (Z.eqb_spec m 0); [done |]. case_match. destruct (Z.leb_spec (infinity binary64) ((Z.max (e + Z.log2 m + 1 - prec binary64) (emin binary64) - emin binary64) * 2 ^ (prec binary64 - 1) + z + b2z b)); [| lia].
      intros _. destruct neg; vm_compute; done. }
    pose proof (round_magnitude_nearest binary64 neg m e k S U x) as R. change (emin binary64) with (-1074) in R.
    replace (e - -1074 + k) with (e + 1074 + k) in R by lia. destruct R as [P1 P2]; [done | lia | done.. |].
    apply nearest_with_sign; done.
Qed.

Section Operations.
Variable v : env.
Hypothesis v_nearest : mode v = Nearest.
Hypothesis v_gradual : flush v = false.
Variables a b : Z.
Hypothesis (Ha : inu 64 a) (Hb : inu 64 b) (Fa : finite a = true) (Fb : finite b = true).

Lemma finite_operand x : inu 64 x -> finite x = true -> isnan x = false /\ isinf x = false.
Proof.
  intros Hx F. destruct (double_split x Hx) as (s & e & f & Hs & He & Hf & Ex). destruct (double_fields s e f Hs He Hf) as (D1 & D2 & D3 & _).
  destruct (double_parts s e f Hs He Hf) as (_ & P & _). rewrite <- Ex in D1, D2, D3, P. unfold finite in F. rewrite P in F. unfold inu in *.
  unfold isnan, isinf. rewrite D3. change DOUBLE_EXP with (2047 * 2 ^ 52). destruct (Z.eqb_spec e 2047); [done |]. split; [| lia].
  assert (L : x .& (2047 * 2 ^ 52) = e * 2 ^ 52).
  { change (2047 * 2 ^ 52) with (0x7ff .<< 52). rewrite <- D1, <- Z.shiftl_mul_pow2 by lia. apply Z.bits_inj'. intros i Hi.
    rewrite Z.land_spec, !testbit_shiftl', Z.land_spec, testbit_shiftr'. destruct (Z.leb_spec 0 i); [| lia].
    destruct (Z.leb_spec 0 (i - 52)); cbn [andb]; [replace (i - 52 + 52) with i by lia; done |]. rewrite (Z.testbit_neg_r 0x7ff) by lia. apply andb_false_r. }
  rewrite L. destruct (Z.eqb_spec (e * 2 ^ 52) (2047 * 2 ^ 52)); [lia | done].
Qed.

Lemma sum_nearest : finite (sum v a b) = true -> nearest_double 1 (double_value a + double_value b) (sum v a b).
Proof.
  unfold sum. pose proof (exponent_range a). pose proof (exponent_range b). set (e := Z.min (exponent a) (exponent b)).
  set (n := signed_significand a * 2 ^ (exponent a - e) + signed_significand b * 2 ^ (exponent b - e)).
  assert (En : double_value a + double_value b = n * 2 ^ (e + 1074)).
  { rewrite !double_value_parts. subst n. rewrite Z.mul_add_distr_r, <- !Z.mul_assoc, <- !Z.pow_add_r by (subst e; lia). do 2 f_equal; f_equal; lia. }
  rewrite En. destruct (Z.eqb_spec n 0) as [-> | Nn]; intros F.
  - set (neg := if Bool.eqb _ _ then _ else _). clearbody neg. rewrite Z.mul_0_l.
    pose proof (nearest_with_sign 1 0 neg 0) as R. replace (if neg then - 0 else 0) with 0 in R by (destruct neg; done).
    apply R; [done | done | split; done |]. intros y Hy. rewrite magnitude_0 by lia. lia.
  - pose proof (pow2_pos (e + 1074) ltac:(subst e; lia)) as P.
    pose proof (round_nearest v (n <? 0) (Z.abs n) e 0 1 (2 ^ (e + 1074)) (Z.abs n * 2 ^ (e + 1074)) v_nearest v_gradual) as R.
    replace (if n <? 0 then - (Z.abs n * 2 ^ (e + 1074)) else Z.abs n * 2 ^ (e + 1074)) with (n * 2 ^ (e + 1074)) in R by (destruct (Z.ltb_spec n 0); nia).
    apply R; [lia | done | done | done | subst e; lia | rewrite Z.add_0_r, Z.mul_1_l, Z.mul_1_r; done | left; done | left; done | exact F].
Qed.

Lemma double_add_nearest : finite (double_add v a b) = true -> nearest_double 1 (double_value a + double_value b) (double_add v a b).
Proof.
  unfold double_add. destruct (finite_operand a Ha Fa) as [-> ->]. destruct (finite_operand b Hb Fb) as [-> ->]. apply sum_nearest.
Qed.

Definition signed (neg : bool) (x : Z) : Z := if neg then - x else x.

Lemma signed_product x y neg1 neg2 : signed neg1 x * signed neg2 y = signed (xorb neg1 neg2) (x * y).
Proof. destruct neg1, neg2; cbn; ring. Qed.

Lemma double_value_signed x : double_value x = signed (negative x) (significand x * 2 ^ (exponent x + 1074)).
Proof. rewrite double_value_parts. unfold signed_significand, signed. destruct (negative x); ring. Qed.

Lemma double_mul_nearest : finite (double_mul v a b) = true -> nearest_double (2 ^ 1074) (double_value a * double_value b) (double_mul v a b).
Proof.
  unfold double_mul. destruct (finite_operand a Ha Fa) as [-> ->]. destruct (finite_operand b Hb Fb) as [-> ->]. cbn [orb].
  rewrite !double_value_signed, signed_product. pose proof (exponent_range a). pose proof (exponent_range b).
  pose proof (significand_range a). pose proof (significand_range b). set (neg := xorb _ _).
  replace (significand a * 2 ^ (exponent a + 1074) * (significand b * 2 ^ (exponent b + 1074)))
    with (significand a * significand b * 2 ^ (exponent a + exponent b + 2148))
    by (replace (exponent a + exponent b + 2148) with ((exponent a + 1074) + (exponent b + 1074)) by lia; rewrite Z.pow_add_r by lia; ring).
  apply (round_nearest v neg (significand a * significand b) (exponent a + exponent b) 1074 (2 ^ 1074) (2 ^ (exponent a + exponent b + 2148)));
    [done | done | lia | apply pow2_pos; lia | apply pow2_pos; lia | lia | lia | rewrite <- !Z.pow_add_r by lia; f_equal; lia | left; done | left; done].
Qed.

Lemma double_div_nearest :
  is_zero b = false -> finite (double_div v a b) = true ->
  nearest_double (Z.abs (double_value b)) (double_value a * 2 ^ 1074 * Z.sgn (double_value b)) (double_div v a b).
Proof.
  intros Zb. unfold double_div. destruct (finite_operand a Ha Fa) as [-> ->]. destruct (finite_operand b Hb Fb) as [-> ->]. rewrite Zb. cbn [orb].
  pose proof (exponent_range a). pose proof (exponent_range b). pose proof (significand_range a) as Sa. pose proof (significand_range b) as Sb.
  assert (Pb : 0 < significand b).
  { destruct (double_split b Hb) as (s & e & f & Hs & He & Hf & Eb). destruct (double_fields s e f Hs He Hf) as (_ & _ & D & _).
    destruct (double_parts s e f Hs He Hf) as (_ & P1 & P2 & _). rewrite <- Eb in D, P1, P2. unfold is_zero in Zb. rewrite D in Zb.
    unfold significand. rewrite P1, P2. unfold inu in *. destruct (Z.eqb_spec e 0); lia. }
  set (Pow := 2 ^ (exponent b + 1074)). assert (Hpow : 0 < Pow) by (apply pow2_pos; lia).
  rewrite (double_value_signed a), (double_value_signed b). fold Pow.
  replace (Z.abs (signed (negative b) (significand b * Pow))) with (significand b * Pow) by (unfold signed; destruct (negative b); nia).
  replace (Z.sgn (signed (negative b) (significand b * Pow))) with (signed (negative b) 1)
    by (unfold signed; destruct (negative b); [rewrite Z.sgn_opp |]; rewrite Z.sgn_pos by nia; done).
  replace (signed (negative a) (significand a * 2 ^ (exponent a + 1074)) * 2 ^ 1074 * signed (negative b) 1)
    with (signed (xorb (negative a) (negative b)) (significand a * 2 ^ (exponent a + 2148)))
    by (replace (exponent a + 2148) with (exponent a + 1074 + 1074) by lia; rewrite (Z.pow_add_r 2 (exponent a + 1074)) by lia; unfold signed; destruct (negative a), (negative b); cbn; ring).
  set (U := significand b * 2 ^ (exponent a + 2027)). assert (HU : 0 < U) by (pose proof (pow2_pos (exponent a + 2027) ltac:(lia)); nia).
  assert (Q : stands_for (quotient (significand a) (significand b)) U (significand a * 2 ^ (exponent a + 2148)) /\
    (significand a * 2 ^ (exponent a + 2148) = quotient (significand a) (significand b) * U \/ 53 < Z.log2 (quotient (significand a) (significand b))) /\
    0 <= quotient (significand a) (significand b)).
  { replace (exponent a + 2148) with (121 + (exponent a + 2027)) by lia. rewrite Z.pow_add_r by lia. unfold quotient, stands_for. subst U.
    pose proof (pow2_pos (exponent a + 2027) ltac:(lia)) as Pt. set (T := 2 ^ (exponent a + 2027)) in *.
    pose proof (Z.div_mod (significand a * 2 ^ 120) (significand b) ltac:(lia)) as Dm. pose proof (Z.mod_pos_bound (significand a * 2 ^ 120) (significand b) Pb) as Rm.
    assert (Hq : 0 <= significand a * 2 ^ 120 / significand b) by (apply Z.div_pos; lia).
    assert (Big : 0 < significand a -> 2 ^ 67 <= significand a * 2 ^ 120 / significand b) by (intros; apply Z.div_le_lower_bound; nia).
    set (q := significand a * 2 ^ 120 / significand b) in *. set (r := (significand a * 2 ^ 120) mod significand b) in *.
    assert (Ex : significand a * (2 ^ 121 * T) = (2 * q * significand b + 2 * r) * T) by (change (2 ^ 121) with (2 ^ 120 * 2); nia).
    rewrite Ex. destruct (Z.eqb_spec r 0) as [-> |]; cbn [negb b2z].
    - split; [left; ring | split; [left; ring | lia]].
    - split; [right | split; [right | lia]].
      + split; [rewrite Z.add_1_r, Z.odd_succ, Z.even_mul; done |]. nia.
      + apply Z.log2_lt_pow2 || idtac. assert (P : 0 < significand a) by (destruct (Z.eq_dec (significand a) 0); nia). specialize (Big P).
        assert (2 ^ 67 <= 2 * q + 1) by lia. apply Z.lt_le_trans with 67; [done |]. apply Z.log2_le_pow2; lia. }
  destruct Q as (Q1 & Q2 & Q3).
  apply (round_nearest v (xorb (negative a) (negative b)) (quotient (significand a) (significand b)) (exponent a - exponent b - 121) 2000 (significand b * Pow) U);
    try done; [nia | lia |]. subst U Pow. rewrite <- !Z.mul_assoc, <- !Z.pow_add_r by lia. do 2 f_equal. lia.
Qed.
End Operations.

(** ** Results that are numbers *)

Lemma round_magnitude_range f md neg m e : 1 < prec f -> 0 < infinity f -> 0 <= m -> 0 <= round_magnitude f md neg m e <= infinity f.
Proof.
  intros Hp Hi Hm. unfold round_magnitude. destruct (Z.eqb_spec m 0); [lia |].
  destruct (kept_exponent f m e Hp ltac:(lia)) as [K1 K2]. set (e' := Z.max _ _) in *. pose proof (pow2_pos (prec f - 1) ltac:(lia)).
  assert (0 <= (e' - emin f) * 2 ^ (prec f - 1)) by (subst e'; nia).
  destruct (Z.leb_spec e' e) as [L | L]; [pose proof (K1 L) as K | pose proof (K2 L) as K].
  - destruct (Z.leb_spec (infinity f) ((e' - emin f) * 2 ^ (prec f - 1) + m * 2 ^ (e - e') + b2z false)); [destruct md, neg; lia | cbn [b2z] in *; lia].
  - set (up := round_up _ _ _ _ _). assert (0 <= b2z up) by (destruct up; cbn; lia).
    destruct (Z.leb_spec (infinity f) ((e' - emin f) * 2 ^ (prec f - 1) + m / 2 ^ (e' - e) + b2z up)); [destruct md, neg; lia | lia].
Qed.

Lemma isnan_with_sign neg r : 0 <= r <= infinity binary64 -> isnan (with_sign binary64 neg r) = false.
Proof.
  intros Hr. destruct (Z.eq_dec r (infinity binary64)) as [-> | N]; [destruct neg; reflexivity |].
  destruct (double_value_magnitude neg r ltac:(lia)) as (B1 & B2 & _). apply (finite_operand _ B1 B2).
Qed.

Lemma isnan_round v neg m e : 0 <= m -> isnan (round binary64 v neg m e) = false.
Proof.
  intros Hm. unfold round, flushed. pose proof (round_magnitude_range binary64 (mode v) neg m e eq_refl eq_refl Hm) as R.
  apply isnan_with_sign. destruct (_ && _); [split; done | done].
Qed.

Lemma isnan_sum v a b : isnan (sum v a b) = false.
Proof. unfold sum. destruct (_ =? 0); [apply isnan_with_sign; done | apply isnan_round; lia]. Qed.

Lemma quotient_nonneg a b : 0 <= a -> 0 <= b -> 0 <= quotient a b.
Proof.
  intros Ha Hb. unfold quotient. assert (0 <= a * 2 ^ 120 / b); [| destruct (negb _); cbn [b2z]; lia].
  destruct (Z.eq_dec b 0) as [-> |]; [rewrite Z.div_0_r; done | apply Z.div_pos; lia].
Qed.

(** When an operation on numbers has no result. *)
Lemma isnan_MakeQuiet a : isnan a = true -> isnan (MakeQuiet a) = true.
Proof.
  unfold isnan, MakeQuiet. intros [E F]%andb_true_iff. rewrite !Z.land_lor_distr_l. apply Z.eqb_eq in E. rewrite E.
  change (DOUBLE_EXP .| (DOUBLE_QBIT .& DOUBLE_EXP)) with DOUBLE_EXP. rewrite Z.eqb_refl. cbn [andb]. apply negb_true_iff, Z.eqb_neq.
  intros Z0. apply Z.lor_eq_0_iff in Z0 as [_ Z0]. done.
Qed.

Lemma isnan_nan_operand a b : isnan a || isnan b = true -> isnan (nan_operand a b) = true.
Proof. intros E. unfold nan_operand. destruct (isnan a) eqn:Ea; apply isnan_MakeQuiet; [exact Ea | exact E]. Qed.

Lemma isnan_inf a : isinf a = true -> isnan a = false.
Proof.
  unfold isnan, isinf. intros E%Z.eqb_eq. apply andb_false_iff. right. apply negb_false_iff, Z.eqb_eq.
  change DOUBLE_FRAC with (u64 (.~ DOUBLE_SIGN) .& DOUBLE_FRAC). rewrite Z.land_assoc, E. done.
Qed.

Lemma isnan_negate a : isnan (negate a) = isnan a.
Proof.
  unfold isnan, negate. assert (L : forall k, DOUBLE_SIGN .& k = 0 -> (a .^ DOUBLE_SIGN) .& k = a .& k).
  { intros k Hk. apply Z.bits_inj'. intros i Hi. rewrite !Z.land_spec, Z.lxor_spec. apply (f_equal (fun x => Z.testbit x i)) in Hk.
    rewrite Z.land_spec, Z.testbit_0_l in Hk. destruct (Z.testbit a i), (Z.testbit DOUBLE_SIGN i), (Z.testbit k i); done. }
  rewrite !L by done. done.
Qed.

Lemma isinf_negate a : isinf (negate a) = isinf a.
Proof.
  unfold isinf, negate. do 1 f_equal. apply Z.bits_inj'. intros i Hi. rewrite !Z.land_spec, Z.lxor_spec.
  change (u64 (.~ DOUBLE_SIGN)) with (Z.ones 63). change DOUBLE_SIGN with (2 ^ 63). rewrite Z.pow2_bits_eqb, Z.testbit_ones_nonneg by lia.
  destruct (Z.eqb_spec 63 i), (Z.ltb_spec i 63); try lia; rewrite ?andb_false_r, ?xorb_false_r; done.
Qed.

Lemma negative_negate a : negative (negate a) = negb (negative a).
Proof. unfold negative, negate. rewrite Z.lxor_spec. change (Z.testbit DOUBLE_SIGN 63) with true. apply xorb_true_r. Qed.

Lemma isnan_double_add v a b :
  isnan (double_add v a b) = isnan a || isnan b || (isinf a && isinf b && xorb (negative a) (negative b)).
Proof.
  unfold double_add. destruct (isnan a || isnan b) eqn:E; [apply isnan_nan_operand; done |]. cbn [orb].
  destruct (isinf a) eqn:Ia, (isinf b) eqn:Ib; cbn [andb]; [destruct (xorb _ _); [done | apply isnan_inf; done] | apply isnan_inf; done | apply isnan_inf; done | apply isnan_sum].
Qed.

Lemma isnan_double_sub v a b :
  isnan (double_sub v a b) = isnan a || isnan b || (isinf a && isinf b && negb (xorb (negative a) (negative b))).
Proof.
  unfold double_sub. destruct (isnan a || isnan b) eqn:E; [apply isnan_nan_operand; done |].
  rewrite isnan_double_add, isnan_negate, isinf_negate, negative_negate, E. destruct (negative a), (negative b); done.
Qed.

Lemma isnan_infinity neg : isnan (with_sign binary64 neg DOUBLE_INFINITY) = false.
Proof. destruct neg; done. Qed.

Lemma isnan_double_mul v a b :
  isnan (double_mul v a b) = isnan a || isnan b || ((isinf a || isinf b) && (is_zero a || is_zero b)).
Proof.
  unfold double_mul. destruct (isnan a || isnan b) eqn:E; [apply isnan_nan_operand; done |]. cbn [orb].
  destruct (isinf a || isinf b); cbn [andb]; [destruct (is_zero a || is_zero b); [done | apply isnan_infinity] |].
  apply isnan_round. pose proof (significand_range a). pose proof (significand_range b). nia.
Qed.

Lemma isnan_double_div v a b :
  isnan (double_div v a b) = isnan a || isnan b || (isinf a && isinf b) || (is_zero a && is_zero b).
Proof.
  assert (X : forall x, isinf x = true -> is_zero x = false).
  { intros x. unfold isinf, is_zero. intros ->%Z.eqb_eq. done. }
  unfold double_div. destruct (isnan a || isnan b) eqn:E; [apply isnan_nan_operand; done |]. cbn [orb].
  destruct (isinf a) eqn:Ia; [rewrite (X a Ia) | destruct (isinf b) eqn:Ib; [rewrite (X b Ib) |]]; cbn [andb orb].
  - destruct (isinf b); cbn [andb orb]; [done | apply isnan_infinity].
  - rewrite andb_false_r. destruct (xorb _ _); done.
  - destruct (is_zero b), (is_zero a); cbn [andb]; try done; try apply isnan_infinity; apply isnan_round, quotient_nonneg; apply significand_range.
Qed.

(** Results are doubles. *)
Lemma inu_with_sign neg r : 0 <= r <= infinity binary64 -> inu 64 (with_sign binary64 neg r).
Proof. unfold inu, with_sign. change (infinity binary64) with 0x7FF0000000000000. change (sign_bit binary64) with (2 ^ 63). destruct neg; lia. Qed.

Lemma inu_round v neg m e : 0 <= m -> inu 64 (round binary64 v neg m e).
Proof.
  intros Hm. unfold round, flushed. pose proof (round_magnitude_range binary64 (mode v) neg m e eq_refl eq_refl Hm) as R.
  apply inu_with_sign. destruct (_ && _); [split; done | done].
Qed.

Lemma inu_negate b : inu 64 b -> inu 64 (negate b).
Proof.
  intros Hb. unfold negate. apply inu_testbit; [lia |]. intros i Hi. rewrite Z.lxor_spec, (testbit_inu_high 64 b) by (done || lia).
  change DOUBLE_SIGN with (2 ^ 63). rewrite Z.pow2_bits_false by lia. done.
Qed.

Lemma inu_double_add v a b : inu 64 a -> inu 64 b -> inu 64 (double_add v a b).
Proof.
  intros Ha Hb. unfold double_add, nan_operand. destruct (_ || _); [apply inu_lor; [lia | destruct (isnan a); done | done] |].
  destruct (isinf a); [destruct (_ && _); done |]. destruct (isinf b); [done |]. unfold sum. destruct (_ =? 0); [apply inu_with_sign; done | apply inu_round; lia].
Qed.

Lemma inu_double v a b :
  inu 64 a -> inu 64 b -> inu 64 (double_add v a b) /\ inu 64 (double_sub v a b) /\ inu 64 (double_mul v a b) /\ inu 64 (double_div v a b).
Proof.
  intros Ha Hb. assert (Nan : inu 64 (nan_operand a b)) by (unfold nan_operand; apply inu_lor; [lia | destruct (isnan a); done | done]).
  pose proof (significand_range a). pose proof (significand_range b).
  assert (Inf : forall neg, inu 64 (with_sign binary64 neg DOUBLE_INFINITY)) by (intros; apply inu_with_sign; split; done).
  split_and!.
  - apply inu_double_add; done.
  - unfold double_sub. destruct (_ || _); [done |]. apply inu_double_add; [done | apply inu_negate; done].
  - unfold double_mul. destruct (_ || _); [done |]. destruct (_ || _); [destruct (_ || _); [done | auto] |]. apply inu_round. nia.
  - unfold double_div. destruct (_ || _); [done |]. destruct (isinf a); [destruct (isinf b); [done | auto] |]. destruct (isinf b); [apply inu_with_sign; done |].
    destruct (is_zero b); [destruct (is_zero a); [done | auto] |]. apply inu_round, quotient_nonneg; lia.
Qed.
