(* ===== verification/PpcFpArith.v ===== *)
(** The floating-point instructions that calculate
    ([Core/PowerPC/Interpreter/Interpreter_FPUtils.h],
    [Interpreter_FloatingPoint.cpp], [Interpreter_Paired.cpp]) and the tables
    of the estimates ([Common/FloatUtils.cpp]), over the arithmetic of
    [PpcFloat].

    The theorems say that an instruction's result is the number nearest to the
    exact one, and what it does with operands that are no numbers and with
    operations that have no result. [PpcConvert] has the conversion to an
    integer, [PpcEstimates] the estimates. *)

From S2P Require Import Prelude PpcState PpcFpu PpcFloat.
Open Scope Z_scope.

(** ** The host *)

Definition FPSCR_NI : Z := 1 .<< 2.
Definition FPSCR_FI : Z := 1 .<< 17.
Definition FPSCR_FR : Z := 1 .<< 18.

(** [FPSCR.RN] *)
Definition RN (s : PowerPCState) : RoundingMode :=
  match fpscr s .& 3 with 0 => Nearest | 1 => TowardsZero | 2 => TowardsPositiveInfinity | _ => TowardsNegativeInfinity end.

(** [cpu_info.bFlushToZero]: whether the host flushes by itself. *)
Class FpuHost := { bFlushToZero : bool }.

Section Arithmetic.
Context `{FpuHost}.

(** The mode of the host, which [FPSCRtoFPUSettings] derives from the register
    whenever an instruction has written RN or NI. *)
Definition host_env (s : PowerPCState) : env := mk_env (RN s) (bFlushToZero && fp s FPSCR_NI).

(** ** [Interpreter_FPUtils.h] *)

Definition PPC_NAN : Z := 0x7FF8000000000000.

Definition SetFI (FI : bool) (s : PowerPCState) : PowerPCState :=
  let s := if FI then SetFPException FPSCR_XX s else s in
  set_fpscr (put_flag FPSCR_FI FI (fpscr s)) s.

Definition put_FR (b : bool) (s : PowerPCState) : PowerPCState := set_fpscr (put_flag FPSCR_FR b (fpscr s)) s.
Definition put_FI (b : bool) (s : PowerPCState) : PowerPCState := set_fpscr (put_flag FPSCR_FI b (fpscr s)) s.
Definition ClearFIFR (s : PowerPCState) : PowerPCState := put_FR false (put_FI false s).

(** [Common::FlushToZero] of a float. *)
Definition FlushToZero_float (i : Z) : Z := if (i .& 0x7F800000) =? 0 then i .& 0x80000000 else i.

Definition ForceSingle (value : Z) (s : PowerPCState) : Z :=
  let x := to_float (host_env s) value in
  of_float (if negb bFlushToZero && fp s FPSCR_NI then FlushToZero_float x else x).

Definition ForceDouble (d : Z) (s : PowerPCState) : Z := if negb bFlushToZero && fp s FPSCR_NI then FlushToZero d else d.

Record FPResult := mk_result { value : Z; exception : Z }.

Definition HasNoInvalidExceptions (r : FPResult) : bool := (exception r .& FPSCR_VX_ANY) =? 0.

(** [if (IsSNAN(...)) result.SetException(FPSCR_VXSNAN); FPSCR.ClearFIFR();] *)
Definition report_snan (snan : bool) (s : PowerPCState) : Z * PowerPCState :=
  let '(e, s) := if snan then (FPSCR_VXSNAN, SetFPException FPSCR_VXSNAN s) else (0, s) in (e, ClearFIFR s).

Definition invalid (e : Z) (s : PowerPCState) : FPResult * PowerPCState := (mk_result PPC_NAN e, SetFPException e s).

Definition NI_mul (a b : Z) (s : PowerPCState) : FPResult * PowerPCState :=
  let result := double_mul (host_env s) a b in
  if isnan result then
    let '(e, s) := report_snan (IsSNAN a || IsSNAN b) s in
    if isnan a then (mk_result (MakeQuiet a) e, s)
    else if isnan b then (mk_result (MakeQuiet b) e, s)
    else invalid FPSCR_VXIMZ s
  else (mk_result result 0, s).

(** [b == 0.0] *)
Definition equals_zero (b : Z) : bool := negb (isnan b) && (double_key b =? 0).

Definition NI_div (a b : Z) (s : PowerPCState) : FPResult * PowerPCState :=
  let result := double_div (host_env s) a b in
  if isnan result then
    let '(e, s) := report_snan (IsSNAN a || IsSNAN b) s in
    if isnan a then (mk_result (MakeQuiet a) e, s)
    else if isnan b then (mk_result (MakeQuiet b) e, s)
    else if equals_zero b then if equals_zero a then invalid FPSCR_VXZDZ s else invalid FPSCR_ZX s
    else if isinf a && isinf b then invalid FPSCR_VXIDI s
    else (mk_result PPC_NAN e, s)
  else (mk_result result 0, s).

(** The two differ in the operation. *)
Definition NI_sum (result a b : Z) (s : PowerPCState) : FPResult * PowerPCState :=
  if isnan result then
    let '(e, s) := report_snan (IsSNAN a || IsSNAN b) s in
    if isnan a then (mk_result (MakeQuiet a) e, s)
    else if isnan b then (mk_result (MakeQuiet b) e, s)
    else invalid FPSCR_VXISI s
  else (mk_result result 0, if isinf a || isinf b then ClearFIFR s else s).
Definition NI_add (a b : Z) (s : PowerPCState) : FPResult * PowerPCState := NI_sum (double_add (host_env s) a b) a b s.
Definition NI_sub (a b : Z) (s : PowerPCState) : FPResult * PowerPCState := NI_sum (double_sub (host_env s) a b) a b s.

(** The two differ in the second operation. *)
Definition NI_fused (op : env -> Z -> Z -> Z) (a c b : Z) (s : PowerPCState) : FPResult * PowerPCState :=
  let product := double_mul (host_env s) a c in
  if isnan product then
    let '(e, s) := report_snan (IsSNAN a || IsSNAN b || IsSNAN c) s in
    if isnan a then (mk_result (MakeQuiet a) e, s)
    else if isnan b then (mk_result (MakeQuiet b) e, s)
    else if isnan c then (mk_result (MakeQuiet c) e, s)
    else invalid FPSCR_VXIMZ s
  else
    let result := op (host_env s) product b in
    if isnan result then
      let '(e, s) := report_snan (IsSNAN b) s in
      if isnan b then (mk_result (MakeQuiet b) e, s) else invalid FPSCR_VXISI s
    else (mk_result result 0, if isinf a || isinf b || isinf c then ClearFIFR s else s).
Definition NI_madd : Z -> Z -> Z -> PowerPCState -> FPResult * PowerPCState := NI_fused double_add.
Definition NI_msub : Z -> Z -> Z -> PowerPCState -> FPResult * PowerPCState := NI_fused double_sub.

(** ** Arithmetic ([Interpreter_FloatingPoint.cpp]) *)

(** What the instructions share: [op], the test of the enabled exceptions, the
    rounding, the change of sign, the register or registers, the flags of an
    inexact result, and the class of the result. *)
Definition arith (single negated : bool) (flags : Z -> Z -> PowerPCState -> PowerPCState)
  (op : PowerPCState -> FPResult * PowerPCState) (allowed : FPResult -> PowerPCState -> bool) (inst : Z) (s : PowerPCState) : PowerPCState :=
  let '(r, s) := op s in
  let s :=
    if allowed r s then
      let result := if single then ForceSingle (value r) s else ForceDouble (value r) s in
      let d := if negated && negb (isnan result) then negate result else result in
      let s := if single then put_ps (FD inst) d d s else put_ps0 (FD inst) d s in
      UpdateFPRF d (flags (value r) result s)
    else s in
  record_CR1 inst s.

Definition same_flags (v result : Z) (s : PowerPCState) : PowerPCState := s.
Definition exact_flags (v result : Z) (s : PowerPCState) : PowerPCState := put_FR false (put_FI false s).
(** [FPSCR.FI = d_value.value != result; FPSCR.FR = 0;] *)
Definition not_equal (a b : Z) : bool := isnan a || isnan b || negb (double_key a =? double_key b).
Definition madds_flags (v result : Z) (s : PowerPCState) : PowerPCState := put_FR false (put_FI (not_equal v result) s).

Definition not_invalid (r : FPResult) (s : PowerPCState) : bool := negb (fp s FPSCR_VE) || HasNoInvalidExceptions r.
Definition not_divide_by_zero (r : FPResult) (s : PowerPCState) : bool := negb (fp s FPSCR_ZE) || negb (exception r =? FPSCR_ZX).
Definition division_allowed (r : FPResult) (s : PowerPCState) : bool := not_divide_by_zero r s && not_invalid r s.

Definition A (inst : Z) (s : PowerPCState) : Z := riPS0 s (FA inst).
Definition B (inst : Z) (s : PowerPCState) : Z := riPS0 s (FB inst).
Definition C (inst : Z) (s : PowerPCState) : Z := riPS0 s (FC inst).
Definition C25 (inst : Z) (s : PowerPCState) : Z := Force25Bit (riPS0 s (FC inst)).

Definition fmulx (inst : Z) : PowerPCState -> PowerPCState := arith false false exact_flags (fun s => NI_mul (A inst s) (C inst s) s) not_invalid inst.
Definition fmulsx (inst : Z) : PowerPCState -> PowerPCState := arith true false exact_flags (fun s => NI_mul (A inst s) (C25 inst s) s) not_invalid inst.
Definition fmaddx (inst : Z) : PowerPCState -> PowerPCState := arith false false same_flags (fun s => NI_madd (A inst s) (C inst s) (B inst s) s) not_invalid inst.
Definition fmaddsx (inst : Z) : PowerPCState -> PowerPCState := arith true false madds_flags (fun s => NI_madd (A inst s) (C25 inst s) (B inst s) s) not_invalid inst.
Definition faddx (inst : Z) : PowerPCState -> PowerPCState := arith false false same_flags (fun s => NI_add (A inst s) (B inst s) s) not_invalid inst.
Definition faddsx (inst : Z) : PowerPCState -> PowerPCState := arith true false same_flags (fun s => NI_add (A inst s) (B inst s) s) not_invalid inst.
Definition fdivx (inst : Z) : PowerPCState -> PowerPCState := arith false false same_flags (fun s => NI_div (A inst s) (B inst s) s) division_allowed inst.
Definition fdivsx (inst : Z) : PowerPCState -> PowerPCState := arith true false same_flags (fun s => NI_div (A inst s) (B inst s) s) division_allowed inst.
Definition fmsubx (inst : Z) : PowerPCState -> PowerPCState := arith false false same_flags (fun s => NI_msub (A inst s) (C inst s) (B inst s) s) not_invalid inst.
Definition fmsubsx (inst : Z) : PowerPCState -> PowerPCState := arith true false same_flags (fun s => NI_msub (A inst s) (C25 inst s) (B inst s) s) not_invalid inst.
Definition fnmaddx (inst : Z) : PowerPCState -> PowerPCState := arith false true same_flags (fun s => NI_madd (A inst s) (C inst s) (B inst s) s) not_invalid inst.
Definition fnmaddsx (inst : Z) : PowerPCState -> PowerPCState := arith true true same_flags (fun s => NI_madd (A inst s) (C25 inst s) (B inst s) s) not_invalid inst.
Definition fnmsubx (inst : Z) : PowerPCState -> PowerPCState := arith false true same_flags (fun s => NI_msub (A inst s) (C inst s) (B inst s) s) not_invalid inst.
Definition fnmsubsx (inst : Z) : PowerPCState -> PowerPCState := arith true true same_flags (fun s => NI_msub (A inst s) (C25 inst s) (B inst s) s) not_invalid inst.
Definition fsubx (inst : Z) : PowerPCState -> PowerPCState := arith false false same_flags (fun s => NI_sub (A inst s) (B inst s) s) not_invalid inst.
Definition fsubsx (inst : Z) : PowerPCState -> PowerPCState := arith true false same_flags (fun s => NI_sub (A inst s) (B inst s) s) not_invalid inst.

(** ** Conversions *)

(** [<], [>] and [fabs] *)
Definition less (a b : Z) : bool := negb (isnan a) && negb (isnan b) && (double_key a <? double_key b).
Definition fabs (a : Z) : Z := a .& u64 (.~ DOUBLE_SIGN).

Definition frspx (inst : Z) (s : PowerPCState) : PowerPCState :=
  let b := B inst s in
  let rounded := ForceSingle b s in
  let s :=
    if isnan b then
      let is_snan := IsSNAN b in
      let s := if is_snan then SetFPException FPSCR_VXSNAN s else s in
      let s := if negb is_snan || negb (fp s FPSCR_VE) then UpdateFPRF b (put_ps (FD inst) rounded rounded s) else s in
      ClearFIFR s
    else
      let s := SetFI (not_equal b rounded) s in
      let s := put_FR (less (fabs b) (fabs rounded)) s in
      put_ps (FD inst) rounded rounded (UpdateFPRF rounded s) in
  record_CR1 inst s.

(** [static_cast<s32>(a)], for a number that fits. *)
Definition truncate (a : Z) : Z :=
  let m := if 0 <=? exponent a then significand a * 2 ^ exponent a else significand a / 2 ^ (- exponent a) in
  if negative a then - m else m.

(** The conversion of an [s32] to [double], which is exact. *)
Definition of_int (v : env) (i : Z) : Z := round binary64 v (i <? 0) (Z.abs i) 0.

Definition ONE_HALF : Z := 0x3FE0000000000000.

Definition round_to_int (rounding_mode : RoundingMode) (v : env) (b : Z) : Z :=
  match rounding_mode with
  | Nearest =>
    let t := double_add v b ONE_HALF in
    let i := truncate t in
    let d := double_sub v t (of_int v i) in
    if less d 0 || (equals_zero d && less 0 b) then i - 1 else i
  | TowardsZero => truncate b
  | TowardsPositiveInfinity => let i := truncate b in if less 0 (double_sub v b (of_int v i)) then i + 1 else i
  | TowardsNegativeInfinity => let i := truncate b in if less (double_sub v b (of_int v i)) 0 then i - 1 else i
  end.

(** [static_cast<double>(0x7fffffff)] and [-static_cast<double>(0x80000000)] *)
Definition INT_MAX_DOUBLE : Z := 0x41DFFFFFFFC00000.
Definition INT_MIN_DOUBLE : Z := 0xC1E0000000000000.

Definition ConvertToInteger (inst : Z) (rounding_mode : RoundingMode) (s : PowerPCState) : PowerPCState :=
  let b := B inst s in
  let '(value, exception_occurred, s) :=
    if isnan b then (0x80000000, true, SetFPException FPSCR_VXCVI (if IsSNAN b then SetFPException FPSCR_VXSNAN s else s))
    else if less INT_MAX_DOUBLE b then (0x7fffffff, true, SetFPException FPSCR_VXCVI s)
    else if less b INT_MIN_DOUBLE then (0x80000000, true, SetFPException FPSCR_VXCVI s)
    else
      let i := round_to_int rounding_mode (host_env s) b in
      let di := of_int (host_env s) i in
      (u32 i, false, if negb (not_equal di b) then ClearFIFR s else put_FR (less (fabs b) (fabs di)) (SetFI true s)) in
  let s := if exception_occurred then ClearFIFR s else s in
  let s :=
    if negb exception_occurred || negb (fp s FPSCR_VE) then
      let r := 0xfff8000000000000 .| value in
      put_ps0 (FD inst) (if (value =? 0) && negative b then r .| 0x100000000 else r) s
    else s in
  record_CR1 inst s.

Definition fctiwx (inst : Z) (s : PowerPCState) : PowerPCState := ConvertToInteger inst (RN s) s.
Definition fctiwzx (inst : Z) (s : PowerPCState) : PowerPCState := ConvertToInteger inst TowardsZero s.

(** ** Estimates ([Common/FloatUtils.cpp]) *)

(** [{m_base, m_dec}] *)
Definition frsqrte_expected : list (Z * Z) := [
  (0x3ffa000, 0x7a4); (0x3c29000, 0x700); (0x38aa000, 0x670); (0x3572000, 0x5f2); (0x3279000, 0x584); (0x2fb7000, 0x524);
  (0x2d26000, 0x4cc); (0x2ac0000, 0x47e); (0x2881000, 0x43a); (0x2665000, 0x3fa); (0x2468000, 0x3c2); (0x2287000, 0x38e);
  (0x20c1000, 0x35e); (0x1f12000, 0x332); (0x1d79000, 0x30a); (0x1bf4000, 0x2e6); (0x1a7e800, 0x568); (0x17cb800, 0x4f3);
  (0x1552800, 0x48d); (0x130c000, 0x435); (0x10f2000, 0x3e7); (0x0eff000, 0x3a2); (0x0d2e000, 0x365); (0x0b7c000, 0x32e);
  (0x09e5000, 0x2fc); (0x0867000, 0x2d0); (0x06ff000, 0x2a8); (0x05ab800, 0x283); (0x046a000, 0x261); (0x0339800, 0x243);
  (0x0218800, 0x226); (0x0105800, 0x20b)].

Definition fres_expected : list (Z * Z) := [
  (0x7ff800, 0x3e1); (0x783800, 0x3a7); (0x70ea00, 0x371); (0x6a0800, 0x340); (0x638800, 0x313); (0x5d6200, 0x2ea);
  (0x579000, 0x2c4); (0x520800, 0x2a0); (0x4cc800, 0x27f); (0x47ca00, 0x261); (0x430800, 0x245); (0x3e8000, 0x22a);
  (0x3a2c00, 0x212); (0x360800, 0x1fb); (0x321400, 0x1e5); (0x2e4a00, 0x1d1); (0x2aa800, 0x1be); (0x272c00, 0x1ac);
  (0x23d600, 0x19b); (0x209e00, 0x18b); (0x1d8800, 0x17c); (0x1a9000, 0x16e); (0x17ae00, 0x15b); (0x14f800, 0x15b);
  (0x124400, 0x143); (0x0fbe00, 0x143); (0x0d3800, 0x12d); (0x0ade00, 0x12d); (0x088400, 0x11a); (0x065000, 0x11a);
  (0x041c00, 0x108); (0x020c00, 0x106)].

Definition MANTISSA : Z := 1 .<< 52.
(** [std::numeric_limits<double>::infinity()], [std::numeric_limits<float>::max()] as a double, and [std::copysign]. *)
Definition FLOAT_MAX : Z := 0x47EFFFFFE0000000.
Definition copysign (x val : Z) : Z := (x .& u64 (.~ DOUBLE_SIGN)) .| (val .& DOUBLE_SIGN).

(** [do { exponent -= 1LL << 52; mantissa <<= 1; } while (!(mantissa & (1LL << 52)));]
    with fuel for the 52 bits of a mantissa. *)
Fixpoint normalize_denormal (fuel : nat) (exponent mantissa : Z) : Z * Z :=
  match fuel with
  | O => (exponent, mantissa)
  | S fuel' =>
    let exponent := exponent - MANTISSA in
    let mantissa := mantissa .<< 1 in
    if flag mantissa MANTISSA then (exponent, mantissa) else normalize_denormal fuel' exponent mantissa
  end.

Definition ApproximateReciprocalSquareRoot (v : env) (val : Z) : Z :=
  let mantissa := val .& (MANTISSA - 1) in
  let sign := val .& DOUBLE_SIGN in
  let exponent := val .& (0x7FF .<< 52) in
  if (mantissa =? 0) && (exponent =? 0) then if negb (sign =? 0) then DOUBLE_SIGN .| DOUBLE_INFINITY else DOUBLE_INFINITY
  else if exponent =? (0x7FF .<< 52) then
    if mantissa =? 0 then if negb (sign =? 0) then PPC_NAN else 0
    else double_add v 0 val
  else if negb (sign =? 0) then PPC_NAN
  else
    let '(exponent, mantissa) :=
      if exponent =? 0 then
        let '(exponent, mantissa) := normalize_denormal 52 exponent mantissa in
        (exponent + MANTISSA, mantissa .& (MANTISSA - 1))
      else (exponent, mantissa) in
    let odd_exponent := (exponent .& MANTISSA) =? 0 in
    let exponent := ((0x3FF .<< 52) - Z.quot (exponent - (0x3FE .<< 52)) 2) .& (0x7FF .<< 52) in
    let i := mantissa .>> 37 in
    let index := i / 2048 + (if odd_exponent then 16 else 0) in
    let '(m_base, m_dec) := nth (Z.to_nat index) frsqrte_expected (0, 0) in
    sign .| exponent .| ((m_base - m_dec * (i mod 2048)) .<< 26).

Definition ApproximateReciprocal (v : env) (val : Z) : Z :=
  let mantissa := val .& (MANTISSA - 1) in
  let sign := val .& DOUBLE_SIGN in
  let exponent := val .& (0x7FF .<< 52) in
  if (mantissa =? 0) && (exponent =? 0) then copysign DOUBLE_INFINITY val
  else if exponent =? (0x7FF .<< 52) then if mantissa =? 0 then copysign 0 val else double_add v 0 val
  else if exponent <? (895 .<< 52) then copysign FLOAT_MAX val
  else if (1149 .<< 52) <=? exponent then copysign 0 val
  else
    let exponent := (0x7FD .<< 52) - exponent in
    let i := mantissa .>> 37 in
    let '(m_base, m_dec) := nth (Z.to_nat (i / 1024)) fres_expected (0, 0) in
    sign .| exponent .| ((m_base - (m_dec * (i mod 1024) + 1) / 2) .<< 29).

(** [compute_result] of [fresx] and [frsqrtex]. *)
Definition fres_result (inst : Z) (value : Z) (s : PowerPCState) : PowerPCState :=
  let result := ApproximateReciprocal (host_env s) value in UpdateFPRF result (put_ps (FD inst) result result s).
Definition frsqrte_result (inst : Z) (value : Z) (s : PowerPCState) : PowerPCState :=
  let result := ApproximateReciprocalSquareRoot (host_env s) value in UpdateFPRF result (put_ps0 (FD inst) result s).

(** [SetFPException(e); FPSCR.ClearFIFR(); if (enable == 0) compute_result(b);] *)
Definition estimate_exception (e enable : Z) (compute : PowerPCState -> PowerPCState) (s : PowerPCState) : PowerPCState :=
  let s := ClearFIFR (SetFPException e s) in if negb (fp s enable) then compute s else s.

Definition fresx (inst : Z) (s : PowerPCState) : PowerPCState :=
  let b := B inst s in
  let s :=
    if equals_zero b then estimate_exception FPSCR_ZX FPSCR_ZE (fres_result inst b) s
    else if IsSNAN b then estimate_exception FPSCR_VXSNAN FPSCR_VE (fres_result inst b) s
    else fres_result inst b (if isnan b || isinf b then ClearFIFR s else s) in
  record_CR1 inst s.

Definition frsqrtex (inst : Z) (s : PowerPCState) : PowerPCState :=
  let b := B inst s in
  let s :=
    if less b 0 then estimate_exception FPSCR_VXSQRT FPSCR_VE (frsqrte_result inst b) s
    else if equals_zero b then estimate_exception FPSCR_ZX FPSCR_ZE (frsqrte_result inst b) s
    else if IsSNAN b then estimate_exception FPSCR_VXSNAN FPSCR_VE (frsqrte_result inst b) s
    else frsqrte_result inst b (if isnan b || isinf b then ClearFIFR s else s) in
  record_CR1 inst s.

(** ** Paired singles ([Interpreter_Paired.cpp]) *)

Definition A1 (inst : Z) (s : PowerPCState) : Z := riPS1 s (FA inst).
Definition B1 (inst : Z) (s : PowerPCState) : Z := riPS1 s (FB inst).
Definition C1_25 (inst : Z) (s : PowerPCState) : Z := Force25Bit (riPS1 s (FC inst)).

(** [ForceSingle(NI_...(...).value)] *)
Definition single_of (op : PowerPCState -> FPResult * PowerPCState) (s : PowerPCState) : Z * PowerPCState :=
  let '(r, s) := op s in (ForceSingle (value r) s, s).

(** [-result], but for a NaN. *)
Definition negated (result : Z) : Z := if isnan result then result else negate result.

(** The first half is written before the second is computed. *)
Definition in_turn (op0 op1 : PowerPCState -> FPResult * PowerPCState) (inst : Z) (s : PowerPCState) : PowerPCState :=
  let '(p0, s) := single_of op0 s in
  let s := put_ps0 (FD inst) p0 s in
  let '(p1, s) := single_of op1 s in
  let s := put_ps1 (FD inst) p1 s in
  record_CR1 inst (UpdateFPRF (riPS0 s (FD inst)) s).

(** Both halves are computed before either is written. *)
Definition at_once (f : Z -> Z) (op0 op1 : PowerPCState -> FPResult * PowerPCState) (inst : Z) (s : PowerPCState) : PowerPCState :=
  let '(p0, s) := single_of op0 s in
  let '(p1, s) := single_of op1 s in
  let s := put_ps (FD inst) (f p0) (f p1) s in
  record_CR1 inst (UpdateFPRF (riPS0 s (FD inst)) s).

Definition ps_div (inst : Z) : PowerPCState -> PowerPCState :=
  in_turn (fun s => NI_div (A inst s) (B inst s) s) (fun s => NI_div (A1 inst s) (B1 inst s) s) inst.
Definition ps_sub (inst : Z) : PowerPCState -> PowerPCState :=
  in_turn (fun s => NI_sub (A inst s) (B inst s) s) (fun s => NI_sub (A1 inst s) (B1 inst s) s) inst.
Definition ps_add (inst : Z) : PowerPCState -> PowerPCState :=
  in_turn (fun s => NI_add (A inst s) (B inst s) s) (fun s => NI_add (A1 inst s) (B1 inst s) s) inst.
Definition ps_mul (inst : Z) (s : PowerPCState) : PowerPCState :=
  let c0 := C25 inst s in let c1 := C1_25 inst s in
  in_turn (fun s => NI_mul (A inst s) c0 s) (fun s => NI_mul (A1 inst s) c1 s) inst s.
Definition ps_msub (inst : Z) (s : PowerPCState) : PowerPCState :=
  let c0 := C25 inst s in let c1 := C1_25 inst s in
  in_turn (fun s => NI_msub (A inst s) c0 (B inst s) s) (fun s => NI_msub (A1 inst s) c1 (B1 inst s) s) inst s.
Definition ps_madd (inst : Z) (s : PowerPCState) : PowerPCState :=
  let c0 := C25 inst s in let c1 := C1_25 inst s in
  in_turn (fun s => NI_madd (A inst s) c0 (B inst s) s) (fun s => NI_madd (A1 inst s) c1 (B1 inst s) s) inst s.
Definition ps_nmsub (inst : Z) (s : PowerPCState) : PowerPCState :=
  let c0 := C25 inst s in let c1 := C1_25 inst s in
  at_once negated (fun s => NI_msub (A inst s) c0 (B inst s) s) (fun s => NI_msub (A1 inst s) c1 (B1 inst s) s) inst s.
Definition ps_nmadd (inst : Z) (s : PowerPCState) : PowerPCState :=
  let c0 := C25 inst s in let c1 := C1_25 inst s in
  at_once negated (fun s => NI_madd (A inst s) c0 (B inst s) s) (fun s => NI_madd (A1 inst s) c1 (B1 inst s) s) inst s.
Definition ps_muls0 (inst : Z) (s : PowerPCState) : PowerPCState :=
  let c0 := C25 inst s in at_once id (fun s => NI_mul (A inst s) c0 s) (fun s => NI_mul (A1 inst s) c0 s) inst s.
Definition ps_muls1 (inst : Z) (s : PowerPCState) : PowerPCState :=
  let c1 := C1_25 inst s in at_once id (fun s => NI_mul (A inst s) c1 s) (fun s => NI_mul (A1 inst s) c1 s) inst s.
Definition ps_madds0 (inst : Z) (s : PowerPCState) : PowerPCState :=
  let c0 := C25 inst s in at_once id (fun s => NI_madd (A inst s) c0 (B inst s) s) (fun s => NI_madd (A1 inst s) c0 (B1 inst s) s) inst s.
Definition ps_madds1 (inst : Z) (s : PowerPCState) : PowerPCState :=
  let c1 := C1_25 inst s in at_once id (fun s => NI_madd (A inst s) c1 (B inst s) s) (fun s => NI_madd (A1 inst s) c1 (B1 inst s) s) inst s.

Definition ps_sum0 (inst : Z) (s : PowerPCState) : PowerPCState :=
  let '(p0, s) := single_of (fun s => NI_add (A inst s) (B1 inst s) s) s in
  let p1 := ForceSingle (riPS1 s (FC inst)) s in
  let s := put_ps (FD inst) p0 p1 s in
  record_CR1 inst (UpdateFPRF (riPS0 s (FD inst)) s).
Definition ps_sum1 (inst : Z) (s : PowerPCState) : PowerPCState :=
  let p0 := ForceSingle (riPS0 s (FC inst)) s in
  let '(p1, s) := single_of (fun s => NI_add (A inst s) (B1 inst s) s) s in
  let s := put_ps (FD inst) p0 p1 s in
  record_CR1 inst (UpdateFPRF (riPS1 s (FD inst)) s).

(** [if (...) { SetFPException(e); FPSCR.ClearFIFR(); }] *)
Definition except_if (c : bool) (e : Z) (s : PowerPCState) : PowerPCState := if c then ClearFIFR (SetFPException e s) else s.

Definition ps_res (inst : Z) (s : PowerPCState) : PowerPCState :=
  let a := riPS0 s (FB inst) in
  let b := riPS1 s (FB inst) in
  let s := except_if (equals_zero a || equals_zero b) FPSCR_ZX s in
  let s := if isnan a || isinf a || isnan b || isinf b then ClearFIFR s else s in
  let s := if IsSNAN a || IsSNAN b then SetFPException FPSCR_VXSNAN s else s in
  let s := put_ps0 (FD inst) (ApproximateReciprocal (host_env s) a) s in
  let s := put_ps1 (FD inst) (ApproximateReciprocal (host_env s) b) s in
  record_CR1 inst (UpdateFPRF (riPS0 s (FD inst)) s).

Definition ps_rsqrte (inst : Z) (s : PowerPCState) : PowerPCState :=
  let p0 := riPS0 s (FB inst) in
  let p1 := riPS1 s (FB inst) in
  let s := except_if (equals_zero p0 || equals_zero p1) FPSCR_ZX s in
  let s := except_if (less p0 0 || less p1 0) FPSCR_VXSQRT s in
  let s := if isnan p0 || isinf p0 || isnan p1 || isinf p1 then ClearFIFR s else s in
  let s := if IsSNAN p0 || IsSNAN p1 then SetFPException FPSCR_VXSNAN s else s in
  let s := put_ps0 (FD inst) (ForceSingle (ApproximateReciprocalSquareRoot (host_env s) p0) s) s in
  let s := put_ps1 (FD inst) (ForceSingle (ApproximateReciprocalSquareRoot (host_env s) p1) s) s in
  record_CR1 inst (UpdateFPRF (riPS0 s (FD inst)) s).
End Arithmetic.

(** ** Rounding *)

Section Facts.
Context `{FpuHost}.
Implicit Types s : PowerPCState.

Lemma host_env_nearest s : RN s = Nearest -> fp s FPSCR_NI = false -> mode (host_env s) = Nearest /\ flush (host_env s) = false.
Proof. intros E1 E2. unfold host_env. cbn. rewrite E1, E2, andb_false_r. done. Qed.

Lemma ForceDouble_ieee d s : fp s FPSCR_NI = false -> ForceDouble d s = d.
Proof. intros E. unfold ForceDouble. rewrite E, andb_false_r. done. Qed.

Lemma record_CR1_ps inst s : ps0 (record_CR1 inst s) = ps0 s /\ ps1 (record_CR1 inst s) = ps1 s.
Proof. unfold record_CR1. destruct (Rc inst); done. Qed.

Lemma FD_range inst : 0 <= FD inst < 32.
Proof. pose proof (field_range 21 5 inst ltac:(lia)) as F. unfold inu, FD in *. lia. Qed.

Lemma ps0_UpdateFPRF d s : ps0 (UpdateFPRF d s) = ps0 s.
Proof. done. Qed.

(** Flags that leave the registers alone. *)
Definition flags_only (flags : Z -> Z -> PowerPCState -> PowerPCState) : Prop := forall v r s, ps0 (flags v r s) = ps0 s /\ ps1 (flags v r s) = ps1 s.

(** A result that is a number reaches the register. *)
Lemma arith_result flags op allowed inst s v s1 :
  wf s -> flags_only flags -> op s = (mk_result v 0, s1) -> allowed (mk_result v 0) s1 = true -> ps0 s1 = ps0 s ->
  fp s1 FPSCR_NI = false -> inu 64 v -> riPS0 (arith false false flags op allowed inst s) (FD inst) = v.
Proof.
  intros Hs Hf Eo Ea Ep NI Hv. unfold arith. rewrite Eo, Ea. cbn [value]. rewrite ForceDouble_ieee by done. cbn [andb].
  unfold riPS0. rewrite (proj1 (record_CR1_ps _ _)), ps0_UpdateFPRF, (proj1 (Hf _ _ _)). unfold put_ps0. cbn [ps0 set_ps0].
  rewrite Ep, (zget_zset_same 32 64) by (apply (wf_ps0 _ Hs) || apply FD_range). apply wrapu_id. done.
Qed.

Lemma same_flags_only : flags_only same_flags.
Proof. done. Qed.
Lemma exact_flags_only : flags_only exact_flags.
Proof. done. Qed.

(** The operations of finite numbers have results. *)
Lemma finite_sum_result v a b s :
  inu 64 a -> inu 64 b -> finite a = true -> finite b = true ->
  isnan (double_add v a b) = false /\ isnan (double_sub v a b) = false /\ isinf a || isinf b = false /\ isnan (double_mul v a b) = false.
Proof.
  intros Ha Hb Fa Fb. rewrite isnan_double_add, isnan_double_sub, isnan_double_mul.
  destruct (finite_operand a Ha Fa) as [-> ->], (finite_operand b Hb Fb) as [-> ->]. done.
Qed.

Lemma wf_double_A inst s : wf s -> inu 64 (A inst s) /\ inu 64 (B inst s) /\ inu 64 (C inst s).
Proof. intros Hs. unfold A, B, C, riPS0. split_and!; eapply arr_ok_zget; (apply (wf_ps0 _ Hs) || lia). Qed.

Lemma not_invalid_0 v s : not_invalid (mk_result v 0) s = true.
Proof. unfold not_invalid, HasNoInvalidExceptions. cbn. apply orb_true_r. Qed.
Lemma division_allowed_0 v s : division_allowed (mk_result v 0) s = true.
Proof. unfold division_allowed, not_divide_by_zero, not_invalid, HasNoInvalidExceptions. cbn. rewrite !orb_true_r. done. Qed.

Lemma double_value_negate b : inu 64 b -> inu 64 (negate b) /\ finite (negate b) = finite b /\ double_value (negate b) = - double_value b.
Proof.
  intros Hb. assert (F : forall lo w, 0 <= lo -> 0 <= w -> lo + w <= 63 -> field lo w (negate b) = field lo w b).
  { intros lo w H1 H2 H3. apply Z.bits_inj'. intros i Hi. rewrite !testbit_field by lia. destruct (Z.ltb_spec i w); [| done]. cbn [andb].
    unfold negate. rewrite Z.lxor_spec. change DOUBLE_SIGN with (2 ^ 63). rewrite Z.pow2_bits_false by lia. apply xorb_false_r. }
  split; [| split].
  - unfold negate. apply inu_testbit; [lia |]. intros i Hi. rewrite Z.lxor_spec, (testbit_inu_high 64 b) by (done || lia).
    change DOUBLE_SIGN with (2 ^ 63). rewrite Z.pow2_bits_false by lia. done.
  - unfold finite, double_exp. rewrite F by lia. done.
  - pose proof (negative_negate b) as N. unfold negative in N. unfold double_value, double_exp. rewrite !F, N by lia. destruct (Z.testbit b 63); cbn [negb]; lia.
Qed.

Lemma double_sub_nearest v a b :
  mode v = Nearest -> flush v = false -> inu 64 a -> inu 64 b -> finite a = true -> finite b = true -> finite (double_sub v a b) = true ->
  nearest_double 1 (double_value a - double_value b) (double_sub v a b).
Proof.
  intros V1 V2 Ha Hb Fa Fb. unfold double_sub. rewrite (proj1 (finite_operand a Ha Fa)), (proj1 (finite_operand b Hb Fb)). cbn [orb].
  destruct (double_value_negate b Hb) as (N1 & N2 & N3). intros F.
  replace (double_value a - double_value b) with (double_value a + double_value (negate b)) by lia.
  apply double_add_nearest; [done | done | done | done | done | rewrite N2; done | done].
Qed.

(** C28: Arithmetic is correctly rounded. With the rounding mode set to nearest
    and the IEEE mode on, faddx, fsubx, fmulx and fdivx, when the three source
    fields name finite numbers (and the divisor is not zero), leave in the target register a double that is
    nearest to the exact sum, difference, product or quotient of the sources, of
    all finite doubles, subnormal ones included, unless the result overflows. *)
Theorem arithmetic_nearest inst s :
  wf s -> RN s = Nearest -> fp s FPSCR_NI = false ->
  let a := A inst s in let b := B inst s in let c := C inst s in
  finite a = true -> finite b = true -> finite c = true ->
  let result f := riPS0 (f inst s) (FD inst) in
  (finite (result faddx) = true -> nearest_double 1 (double_value a + double_value b) (result faddx)) /\
  (finite (result fsubx) = true -> nearest_double 1 (double_value a - double_value b) (result fsubx)) /\
  (finite (result fmulx) = true -> nearest_double (2 ^ 1074) (double_value a * double_value c) (result fmulx)) /\
  (is_zero b = false -> finite (result fdivx) = true ->
     nearest_double (Z.abs (double_value b)) (double_value a * 2 ^ 1074 * Z.sgn (double_value b)) (result fdivx)).
Proof.
  intros Hs HRN NI a b c Fa Fb Fc result. destruct (wf_double_A inst s Hs) as (Ha & Hb & Hc). fold a b c in Ha, Hb, Hc.
  destruct (host_env_nearest s HRN NI) as [V1 V2]. set (v := host_env s) in *.
  destruct (finite_sum_result v a b s Ha Hb Fa Fb) as (N1 & N2 & N3 & _). destruct (finite_sum_result v a c s Ha Hc Fa Fc) as (_ & _ & _ & N4).
  destruct (inu_double v a b) as (R1 & R2 & _ & R4); [done | done |]. destruct (inu_double v a c) as (_ & _ & R3 & _); [done | done |].
  assert (E1 : result faddx = double_add v a b).
  { apply (arith_result _ _ _ _ _ _ s); [done | apply same_flags_only | | apply not_invalid_0 | done | done | done]. unfold NI_add, NI_sum. fold v a b. rewrite N1, N3. done. }
  assert (E2 : result fsubx = double_sub v a b).
  { apply (arith_result _ _ _ _ _ _ s); [done | apply same_flags_only | | apply not_invalid_0 | done | done | done]. unfold NI_sub, NI_sum. fold v a b. rewrite N2, N3. done. }
  assert (E3 : result fmulx = double_mul v a c).
  { apply (arith_result _ _ _ _ _ _ s); [done | apply exact_flags_only | | apply not_invalid_0 | done | done | done]. unfold NI_mul. fold v a c. rewrite N4. done. }
  rewrite E1, E2, E3. split_and!.
  - apply double_add_nearest; done.
  - apply double_sub_nearest; done.
  - apply double_mul_nearest; done.
  - intros Zb. assert (N5 : isnan (double_div v a b) = false).
    { rewrite isnan_double_div, Zb. destruct (finite_operand a Ha Fa) as [-> ->], (finite_operand b Hb Fb) as [-> ->]. destruct (is_zero a); done. }
    assert (E4 : result fdivx = double_div v a b).
    { apply (arith_result _ _ _ _ _ _ s); [done | apply same_flags_only | | apply division_allowed_0 | done | done | done]. unfold NI_div. fold v a b. rewrite N5. done. }
    rewrite E4. apply double_div_nearest; done.
Qed.

(** ** Operations without a result *)

Lemma equals_zero_is_zero b : inu 64 b -> isnan b = false -> equals_zero b = is_zero b.
Proof.
  intros Hb N. unfold equals_zero. rewrite N. cbn [negb andb]. destruct (double_split b Hb) as (sg & e & f & Hs & He & Hf & ->).
  destruct (double_fields sg e f Hs He Hf) as (_ & _ & D & _). unfold is_zero. rewrite D, double_key_parts by done. unfold inu in *.
  destruct (Z.eqb_spec (e * 2 ^ 52 + f) 0), (Z.eqb_spec ((1 - 2 * sg) * (e * 2 ^ 52 + f)) 0); try done; nia.
Qed.

(** What the architecture asks for: the first operand that is no number, quiet,
    and VXSNAN when one of them signals; the default NaN and [inv] when there
    is no result; and otherwise the result, with no exception. *)
Definition reported (operands : list Z) (inv : option Z) (result : Z) (r : FPResult) : Prop :=
  match List.find isnan operands with
  | Some n => value r = MakeQuiet n /\ exception r = if existsb IsSNAN operands then FPSCR_VXSNAN else 0
  | None =>
    match inv with
    | Some e => value r = PPC_NAN /\ exception r = e
    | None => value r = result /\ isnan result = false /\ exception r = 0
    end
  end.

(** The bits of the invalid operations: SNAN, ISI, IDI, ZDZ, IMZ. *)
Definition invalid_bits : list Z := [24; 23; 22; 21; 20].

(** Bit [k] of FPSCR after the exception [e]: its own bit is set, VX (29) tells
    that there is one, FX (31) that one is new. *)
Definition after_raising (e f k : Z) : bool :=
  Z.testbit f k || Z.testbit e k || ((k =? 29) && existsb (Z.testbit e) invalid_bits)
  || ((k =? 31) && existsb (fun j => Z.testbit e j && negb (Z.testbit f j)) invalid_bits).

(** What an operation does to the processor: nothing but to raise its exception,
    and perhaps to clear FI (17) and FR (18). *)
Definition raised (r : FPResult) (s s' : PowerPCState) : Prop :=
  s' = set_fpscr (fpscr s') s /\
  forall k, 0 <= k < 32 ->
    if (k =? 17) || (k =? 18) then Z.testbit (fpscr s') k = true -> Z.testbit (fpscr s) k = true
    else Z.testbit (fpscr s') k = after_raising (exception r) (fpscr s) k.

(** Invalid operations: the infinities and zeros they are for. *)
Definition invalid_sum (a b : Z) : option Z := if isinf a && isinf b && xorb (negative a) (negative b) then Some FPSCR_VXISI else None.
Definition invalid_difference (a b : Z) : option Z := if isinf a && isinf b && negb (xorb (negative a) (negative b)) then Some FPSCR_VXISI else None.
Definition invalid_product (a b : Z) : option Z := if (isinf a || isinf b) && (is_zero a || is_zero b) then Some FPSCR_VXIMZ else None.
Definition invalid_quotient (a b : Z) : option Z :=
  if isinf a && isinf b then Some FPSCR_VXIDI else if is_zero a && is_zero b then Some FPSCR_VXZDZ else None.
Definition or_else (x y : option Z) : option Z := match x with Some e => Some e | None => y end.

Lemma testbit_ClearFIFR k s : 0 <= k < 32 -> Z.testbit (fpscr (ClearFIFR s)) k = if (k =? 17) || (k =? 18) then false else Z.testbit (fpscr s) k.
Proof.
  intros Hk. unfold ClearFIFR, put_FR, put_FI, FPSCR_FR, FPSCR_FI. cbn [fpscr set_fpscr]. rewrite !testbit_put_flag by lia.
  destruct (Z.eqb_spec k 18), (Z.eqb_spec k 17); lia || done.
Qed.

Lemma after_raising_nothing f k : after_raising 0 f k = Z.testbit f k.
Proof. unfold after_raising. cbn [existsb invalid_bits]. rewrite !Z.testbit_0_l. cbn [andb orb]. rewrite !andb_false_r, !orb_false_r. done. Qed.

Lemma testbit_exception e k s :
  In e [FPSCR_VXSNAN; FPSCR_VXISI; FPSCR_VXIDI; FPSCR_VXZDZ; FPSCR_VXIMZ] -> 0 <= k < 32 ->
  Z.testbit (fpscr (SetFPException e s)) k = after_raising e (fpscr s) k.
Proof.
  intros He Hk. assert (E : exists j, e = 1 .<< j /\ 20 <= j <= 24 /\ Z.testbit FPSCR_VX_ANY j = true).
  { cbn in He. destruct_or! He; [exists 24 | exists 23 | exists 22 | exists 21 | exists 20]; subst; split_and!; done || lia. }
  destruct E as (j & -> & Hj & V). rewrite testbit_SetFPException by (done || lia). unfold after_raising. cbn [existsb invalid_bits].
  rewrite !testbit_bit by lia. destruct (Z.eqb_spec k j) as [-> |]; [rewrite orb_true_r; done |]. rewrite orb_false_r.
  destruct (Z.eqb_spec k 29) as [E29 |], (Z.eqb_spec k 31) as [E31 |]; try lia; cbn [andb]; rewrite ?orb_false_r; try done;
    assert (j = 24 \/ j = 23 \/ j = 22 \/ j = 21 \/ j = 20) as [-> | [-> | [-> | [-> | ->]]]] by lia; cbn [Z.eqb Pos.eqb orb andb];
    rewrite ?E31, ?orb_true_r, ?orb_false_r; done.
Qed.

Lemma invalid_raised e v s : In e [FPSCR_VXSNAN; FPSCR_VXISI; FPSCR_VXIDI; FPSCR_VXZDZ; FPSCR_VXIMZ] ->
  raised (mk_result v e) s (SetFPException e (ClearFIFR s)) /\ raised (mk_result v e) s (ClearFIFR (SetFPException e s)).
Proof.
  intros He. assert (B : exists j, e = 1 .<< j /\ 20 <= j <= 24).
  { cbn in He. destruct_or! He; [exists 24 | exists 23 | exists 22 | exists 21 | exists 20]; subst; done || lia. }
  assert (F : forall k f g, 0 <= k < 32 -> (forall i, 0 <= i < 32 -> Z.testbit g i = if (i =? 17) || (i =? 18) then false else Z.testbit f i) ->
     after_raising e g k = if (k =? 17) || (k =? 18) then false else after_raising e f k).
  { intros k f g Hk Hg. destruct B as (j & -> & Hj). unfold after_raising. cbn [existsb invalid_bits]. rewrite !Hg by lia. rewrite !testbit_bit by lia.
    cbn [Z.eqb Pos.eqb orb]. destruct (Z.eqb_spec k 17), (Z.eqb_spec k 18); cbn [orb]; try done;
      destruct (Z.eqb_spec 17 j), (Z.eqb_spec 18 j); lia || done. }
  split; (split; [done |]); intros k Hk; cbn [exception].
  - rewrite testbit_exception, (F k (fpscr s)) by (done || (intros; apply testbit_ClearFIFR; done)). destruct (_ || _); done.
  - rewrite testbit_ClearFIFR, testbit_exception by done. destruct (_ || _); done.
Qed.

Lemma raised_ClearFIFR v s : raised (mk_result v 0) s (ClearFIFR s) /\ raised (mk_result v 0) s s.
Proof.
  split; (split; [destruct s; done |]); intros k Hk; cbn [exception]; rewrite ?testbit_ClearFIFR, ?after_raising_nothing by done; destruct (_ || _); done.
Qed.

Lemma report_snan_raised v snan s : raised (mk_result v (fst (report_snan snan s))) s (snd (report_snan snan s)).
Proof. destruct snan; [apply (invalid_raised FPSCR_VXSNAN); cbn; auto | apply raised_ClearFIFR]. Qed.

(** The steps that the operations share, for one to three operands. *)
Lemma report_none s : fst (report_snan false s) = 0 /\ snd (report_snan false s) = ClearFIFR s.
Proof. done. Qed.

Lemma not_SNAN a : isnan a = false -> IsSNAN a = false.
Proof. intros N. destruct (IsSNAN a) eqn:E; [| done]. rewrite (IsSNAN_isnan a E) in N. done. Qed.

(** Case analysis on whether an operand is a number. *)
Ltac nan_case a :=
  let N := fresh "N" in destruct (isnan a) eqn:N; [| rewrite ?(not_SNAN a N)]; rewrite ?N in *; cbn [orb negb] in *; rewrite ?orb_false_r in *.

Lemma nan_result v snan s :
  let x := let '(e, s1) := report_snan snan s in (mk_result v e, s1) in
  (value (fst x) = v /\ exception (fst x) = if snan then FPSCR_VXSNAN else 0) /\ raised (fst x) s (snd x).
Proof. pose proof (report_snan_raised v snan s) as R. destruct snan; (split; [split; reflexivity | exact R]). Qed.

Ltac nan_result_case := match goal with |- context [report_snan ?b ?s] => match goal with |- context [mk_result (MakeQuiet ?a) _] => exact (nan_result (MakeQuiet a) b s) end end.

Lemma NI_sum_reported result a b (inv : option Z) s :
  isnan result = isnan a || isnan b || (if inv is Some _ then true else false) -> (inv = None \/ inv = Some FPSCR_VXISI) ->
  let x := NI_sum result a b s in reported [a; b] inv result (fst x) /\ raised (fst x) s (snd x).
Proof.
  intros En Hi x. subst x. unfold NI_sum, reported. cbn [List.find existsb]. rewrite En. nan_case a; [nan_result_case |]. nan_case b; [nan_result_case |].
  destruct Hi as [-> | ->]; cbn [orb].
  - split; [done |]. destruct (isinf a || isinf b); apply raised_ClearFIFR.
  - split; [done |]. apply (invalid_raised FPSCR_VXISI). cbn. auto.
Qed.

Lemma NI_mul_reported a b s : let x := NI_mul a b s in reported [a; b] (invalid_product a b) (double_mul (host_env s) a b) (fst x) /\ raised (fst x) s (snd x).
Proof.
  intros x. subst x. unfold NI_mul. pose proof (isnan_double_mul (host_env s) a b) as En. unfold reported. cbn [List.find existsb]. rewrite En.
  unfold invalid_product. nan_case a; [nan_result_case |]. nan_case b; [nan_result_case |].
  destruct ((isinf a || isinf b) && (is_zero a || is_zero b)); (split; [done |]); [apply (invalid_raised FPSCR_VXIMZ); cbn; tauto | apply raised_ClearFIFR].
Qed.

Lemma NI_div_reported a b s :
  inu 64 a -> inu 64 b ->
  let x := NI_div a b s in reported [a; b] (invalid_quotient a b) (double_div (host_env s) a b) (fst x) /\ raised (fst x) s (snd x).
Proof.
  intros Ha Hb x. subst x. unfold NI_div. pose proof (isnan_double_div (host_env s) a b) as En. unfold reported. cbn [List.find existsb]. rewrite En. unfold invalid_quotient.
  pose proof (equals_zero_is_zero a Ha) as Za. pose proof (equals_zero_is_zero b Hb) as Zb.
  assert (X : forall x, isinf x = true -> is_zero x = false) by (intros x; unfold isinf, is_zero; intros ->%Z.eqb_eq; done).
  nan_case a; [nan_result_case |]. nan_case b; [nan_result_case |]. cbn [report_snan]. rewrite Za, Zb by done.
  destruct (isinf a) eqn:Ia, (isinf b) eqn:Ib; cbn [andb orb]; rewrite ?(X a Ia), ?(X b Ib); cbn [andb orb];
    try (split; [done | apply raised_ClearFIFR]); try (split; [done | apply (invalid_raised FPSCR_VXIDI); cbn; tauto]);
    destruct (is_zero a), (is_zero b); cbn [andb orb]; try (split; [done | apply raised_ClearFIFR]); (split; [done | apply (invalid_raised FPSCR_VXZDZ); cbn; tauto]).
Qed.

(** The two steps of a multiply-add; [inv] says when the second has no result. *)
Lemma NI_fused_reported op (inv : Z -> Z -> option Z) a c b s :
  (forall v p q, isnan (op v p q) = isnan p || isnan q || (if inv p q is Some _ then true else false)) ->
  (forall p q, inv p q = None \/ inv p q = Some FPSCR_VXISI) ->
  let p := double_mul (host_env s) a c in
  let x := NI_fused op a c b s in
  reported [a; b; c] (or_else (invalid_product a c) (inv p b)) (op (host_env s) p b) (fst x) /\ raised (fst x) s (snd x).
Proof.
  intros Hop Hinv p x. subst x. unfold NI_fused, reported. fold p. cbn [List.find existsb].
  pose proof (isnan_double_mul (host_env s) a c) as En. fold p in En. pose proof (Hop (host_env s) p b) as Eo. rewrite En, Eo, <- !orb_assoc. unfold invalid_product in *.
  nan_case a; [nan_result_case |]. destruct (isnan c) eqn:Nc; cbn [orb] in *.
  { rewrite ?orb_true_r, En in *. cbn [orb]. nan_case b; nan_result_case. }
  rewrite (not_SNAN c Nc), ?orb_false_r in *. destruct ((isinf a || isinf c) && (is_zero a || is_zero c)); cbn [or_else orb] in *.
  - nan_case b; [nan_result_case |]. split; [done | apply (invalid_raised FPSCR_VXIMZ); cbn; tauto].
  - rewrite En in *. cbn [orb] in *. nan_case b; [nan_result_case |]. destruct (Hinv p b) as [-> | ->]; cbn [orb].
    + split; [done |]. destruct (isinf a || (isinf b || isinf c)); apply raised_ClearFIFR.
    + split; [done |]. apply (invalid_raised FPSCR_VXISI). cbn. auto.
Qed.

(** C29: Operations without a result. Each of the six operations, given an operand
    that is no number, returns the first such operand of the instruction's
    order, made quiet, and raises VXSNAN exactly when an operand signals; it
    returns the default NaN and raises VXISI, VXIDI, VXZDZ or VXIMZ exactly for
    the infinities and zeros that have no sum, quotient or product; and in every
    other case it returns the rounded result and raises nothing. Raising an
    exception sets its bit of FPSCR, VX, and FX if the bit was clear; FI and FR
    may be cleared; every other bit of FPSCR, and all else of the processor,
    stays as it was. A division by zero of a number that is not zero is among
    the other cases: it gives the infinity of its sign, and no division raises
    ZX. *)
Theorem invalid_operations a b c s :
  inu 64 a -> inu 64 b ->
  let v := host_env s in
  let ok operands inv result (x : FPResult * PowerPCState) := reported operands inv result (fst x) /\ raised (fst x) s (snd x) in
  ok [a; b] (invalid_sum a b) (double_add v a b) (NI_add a b s) /\
  ok [a; b] (invalid_difference a b) (double_sub v a b) (NI_sub a b s) /\
  ok [a; b] (invalid_product a b) (double_mul v a b) (NI_mul a b s) /\
  ok [a; b] (invalid_quotient a b) (double_div v a b) (NI_div a b s) /\
  ok [a; b; c] (or_else (invalid_product a c) (invalid_sum (double_mul v a c) b)) (double_add v (double_mul v a c) b) (NI_madd a c b s) /\
  ok [a; b; c] (or_else (invalid_product a c) (invalid_difference (double_mul v a c) b)) (double_sub v (double_mul v a c) b) (NI_msub a c b s) /\
  Z.testbit (fpscr (snd (NI_div a b s))) 26 = Z.testbit (fpscr s) 26 /\
  (isnan a = false -> is_zero a = false -> is_zero b = true ->
     value (fst (NI_div a b s)) = with_sign binary64 (xorb (negative a) (negative b)) DOUBLE_INFINITY).
Proof.
  intros Ha Hb v ok.
  assert (S1 : forall p q, invalid_sum p q = None \/ invalid_sum p q = Some FPSCR_VXISI) by (intros; unfold invalid_sum; destruct (_ && _); auto).
  assert (S2 : forall p q, invalid_difference p q = None \/ invalid_difference p q = Some FPSCR_VXISI) by (intros; unfold invalid_difference; destruct (_ && _); auto).
  assert (A1 : forall v p q, isnan (double_add v p q) = isnan p || isnan q || (if invalid_sum p q is Some _ then true else false)).
  { intros. rewrite isnan_double_add. unfold invalid_sum. destruct (isinf p && isinf q && xorb (negative p) (negative q)); done. }
  assert (A2 : forall v p q, isnan (double_sub v p q) = isnan p || isnan q || (if invalid_difference p q is Some _ then true else false)).
  { intros. rewrite isnan_double_sub. unfold invalid_difference. destruct (isinf p && isinf q && negb (xorb (negative p) (negative q))); done. }
  pose proof (NI_div_reported a b s Ha Hb) as D. split_and!.
  1, 2: apply NI_sum_reported; auto.
  - apply NI_mul_reported.
  - exact D.
  - apply (NI_fused_reported double_add invalid_sum); auto.
  - apply (NI_fused_reported double_sub invalid_difference); auto.
  - destruct D as [D [_ R]]. specialize (R 26 ltac:(lia)). cbn [Z.eqb Pos.eqb orb] in R. rewrite R. unfold after_raising. cbn [Z.eqb Pos.eqb andb].
    rewrite !orb_false_r. assert (X : Z.testbit (exception (fst (NI_div a b s))) 26 = false); [| rewrite X; apply orb_false_r].
    unfold reported, invalid_quotient in D. destruct (List.find _ _); [destruct D as [_ ->]; destruct (existsb _ _); done |].
    destruct (isinf a && isinf b); [destruct D as [_ ->]; done |]. destruct (is_zero a && is_zero b); [destruct D as [_ ->]; done | destruct D as (_ & _ & ->); done].
  - intros Na Za Zb. assert (I : isinf b = false /\ isnan b = false).
    { unfold is_zero in Zb. apply Z.eqb_eq in Zb. unfold isinf, isnan. rewrite Zb.
      replace (b .& DOUBLE_EXP) with ((b .& u64 (.~ DOUBLE_SIGN)) .& DOUBLE_EXP) by (rewrite <- Z.land_assoc; done). rewrite Zb. done. }
    destruct I as [Ib Nb]. destruct D as [D _]. unfold reported, invalid_quotient in D. cbn [List.find] in D.
    rewrite Na, Nb, Ib, Za, andb_false_r in D. cbn [andb] in D. destruct D as [-> _]. unfold double_div. rewrite Na, Nb, Ib, Za, Zb. cbn [orb].
    destruct (isinf a); done.
Qed.
End Facts.

(** ** Examples *)

Section Examples.

(** A host that flushes by itself. *)
#[local] Instance x86 : FpuHost := {| bFlushToZero := true |}.

(** 1/10 and 3, in the registers 1 and 2; the target is the register 3. *)
Definition arith_inst : Z := Z.shiftl 63 26 .| Z.shiftl 3 21 .| Z.shiftl 1 16 .| Z.shiftl 2 11 .| Z.shiftl 2 6.
Definition arith_example : PowerPCState := put_ps0 1 0x3FB999999999999A (put_ps0 2 0x4008000000000000 ppcState).

Lemma wf_arith_example : wf arith_example.
Proof. do 2 apply wf_put_ps0. apply wf_ppcState. Qed.

Lemma arithmetic_nearest_witness :
  let result f := riPS0 (f arith_inst arith_example) 3 in
  result faddx = 0x4008CCCCCCCCCCCD /\
  nearest_double 1 (double_value 0x3FB999999999999A + double_value 0x4008000000000000) (result faddx) /\
  nearest_double (Z.abs (double_value 0x4008000000000000)) (double_value 0x3FB999999999999A * 2 ^ 1074 * Z.sgn (double_value 0x4008000000000000)) (result fdivx).
Proof.
  intros result. split; [vm_compute; reflexivity |].
  destruct (arithmetic_nearest arith_inst arith_example wf_arith_example) as (P & _ & _ & Q); [vm_compute; reflexivity .. |].
  split; [apply P | apply Q]; vm_compute; reflexivity.
Defined.

(** Infinity less infinity, and 1 by zero, which raises nothing. *)
Lemma invalid_operations_witness :
  let inf := DOUBLE_INFINITY in let one := 0x3FF0000000000000 in
  reported [inf; inf] (Some FPSCR_VXISI) (double_sub (host_env arith_example) inf inf) (fst (NI_sub inf inf arith_example)) /\
  value (fst (NI_div one 0 arith_example)) = inf /\ exception (fst (NI_div one 0 arith_example)) = 0 /\
  Z.testbit (fpscr (snd (NI_div one 0 arith_example))) 26 = false.
Proof.
  intros inf one. split.
  - destruct (invalid_operations inf inf 0 arith_example) as (_ & [S _] & _); [unfold inu; vm_compute; split; done .. |]. exact S.
  - destruct (invalid_operations one 0 0 arith_example) as (_ & _ & _ & [D _] & _ & _ & Z & _); [unfold inu; vm_compute; split; done .. |].
    destruct D as (V & _ & X). split; [exact V | split; [exact X |]]. rewrite Z. vm_compute. reflexivity.
Defined.

(** The conversion of fctiw rounds a half toward zero, where the architecture
    takes the even neighbour: 1.5 becomes 1. *)
Example fctiw_half : round_to_int Nearest (mk_env Nearest false) 0x3FF8000000000000 = 1.
Proof. vm_compute. reflexivity. Qed.
End Examples.
