(* ===== verification/PpcConvert.v ===== *)
(** The conversions of a double to an integer ([ConvertToInteger] of
    [Core/PowerPC/Interpreter/Interpreter_FloatingPoint.cpp]): what the
    directed modes give, for every operand. *)

From S2P Require Import Prelude PpcState PpcFpu PpcFloat PpcFpArith.
Open Scope Z_scope.

(** One, in units of the least double. *)
Definition ONE : Z := 2 ^ 1074.

(** The fields of a double, as the routines of [FloatUtils] take them apart. *)
Lemma operand_fields s e f :
  0 <= s <= 1 -> inu 11 e -> inu 52 f ->
  let v := s * 2 ^ 63 + e * 2 ^ 52 + f in
  v .& (MANTISSA - 1) = f /\ v .& DOUBLE_SIGN = s * 2 ^ 63 /\ v .& (0x7FF .<< 52) = e * 2 ^ 52.
Proof.
  intros Hs He Hf v. unfold inu in *. change (MANTISSA - 1) with (Z.ones 52). change DOUBLE_SIGN with (Z.ones (64 - 63) .<< 63).
  assert (R : inu 64 v) by (subst v; unfold inu; lia). rewrite land_top, Z.land_ones by (done || lia).
  assert (E : v .& (0x7FF .<< 52) = ((v .>> 52) .& Z.ones 11) .<< 52).
  { apply Z.bits_inj'. intros i Hi. rewrite Z.land_spec, !testbit_shiftl', Z.land_spec, testbit_shiftr' by lia. change 0x7FF with (Z.ones 11).
    destruct (Z.leb_spec 0 (i - 52)); cbn [andb]; [replace (i - 52 + 52) with i by lia; destruct (Z.leb_spec 0 i); [done | lia] |].
    rewrite (Z.testbit_neg_r (Z.ones 11)) by lia. rewrite !andb_false_r. done. }
  rewrite E, Z.land_ones, Z.shiftr_div_pow2, Z.shiftl_mul_pow2 by lia. subst v. split_and!; Z.to_euclidean_division_equations; lia.
Qed.

(** ** Truncation *)

Lemma truncate_quot b : truncate b = Z.quot (double_value b) ONE.
Proof.
  unfold truncate. rewrite double_value_signed. pose proof (exponent_range b) as R. pose proof (significand_range b) as S. unfold signed, ONE.
  assert (E : (if 0 <=? exponent b then significand b * 2 ^ exponent b else significand b / 2 ^ (- exponent b)) = significand b * 2 ^ (exponent b + 1074) ÷ 2 ^ 1074).
  { pose proof (pow2_pos (exponent b + 1074) ltac:(lia)). rewrite Z.quot_div_nonneg by (try apply pow2_pos; nia). destruct (Z.leb_spec 0 (exponent b)).
    - rewrite Z.pow_add_r, Z.mul_assoc by lia. rewrite Z.div_mul; [done | apply Z.pow_nonzero; lia].
    - replace (2 ^ 1074) with (2 ^ (- exponent b) * 2 ^ (exponent b + 1074)) by (rewrite <- Z.pow_add_r by lia; f_equal; lia).
      rewrite Z.div_mul_cancel_r by (apply Z.pow_nonzero || lia; lia). done. }
  rewrite E. destruct (negative b); [rewrite Z.quot_opp_l by done |]; done.
Qed.

(** ** Integers as doubles *)

(** A number of at most 53 bits, no less than the least double, is exact. *)
Lemma round_exact v (neg : bool) m e :
  flush v = false -> 0 <= m < 2 ^ 53 -> -1074 <= e <= 970 ->
  let r := round binary64 v neg m e in
  inu 64 r /\ finite r = true /\ double_value r = signed neg (m * 2 ^ (e + 1074)).
Proof.
  intros Hf Hm He r. subst r. unfold round, flushed. rewrite Hf. cbn [andb]. destruct (Z.eqb_spec m 0) as [-> | Nm].
  - destruct (double_value_magnitude neg 0 ltac:(split; done)) as (H1 & H2 & H3 & _). change (round_magnitude binary64 (mode v) neg 0 e) with 0.
    split_and!; [done | done |]. rewrite H3. unfold signed. destruct neg; rewrite magnitude_0 by lia; lia.
  - unfold round_magnitude. destruct (Z.eqb_spec m 0); [done |].
    destruct (kept_exponent binary64 m e eq_refl ltac:(lia)) as [K _]. change (prec binary64) with 53 in *. change (emin binary64) with (-1074) in *.
    assert (L : Z.log2 m < 53) by (apply Z.log2_lt_pow2; lia). pose proof (Z.log2_nonneg m).
    set (e' := Z.max _ _) in *. assert (Le : e' <= e) by lia. destruct (K Le) as [K1 K2]. destruct (Z.leb_spec e' e); [| lia].
    change (b2z false) with 0. rewrite Z.add_0_r. set (q := m * 2 ^ (e - e')) in *. set (E := e' - -1074).
    assert (HE : 0 <= E <= 2044) by lia.
    assert (B : 0 <= E * 2 ^ (53 - 1) + q < infinity binary64) by (change (infinity binary64) with (2047 * 2 ^ 52); change (53 - 1) with 52; lia).
    destruct (Z.leb_spec (infinity binary64) (E * 2 ^ (53 - 1) + q)); [lia |].
    destruct (double_value_magnitude neg _ B) as (B1 & B2 & B3 & _). split_and!; [done | done |]. rewrite B3, magnitude_encode by (done || lia || (destruct K1; [left; lia | right; done])).
    replace (q * 2 ^ E) with (m * 2 ^ (e + 1074)); [unfold signed; destruct neg; lia |].
    subst q. rewrite <- Z.mul_assoc, <- Z.pow_add_r by lia. do 2 f_equal. lia.
Qed.

Lemma of_int_exact v i : flush v = false -> Z.abs i <= 2 ^ 31 -> inu 64 (of_int v i) /\ finite (of_int v i) = true /\ double_value (of_int v i) = i * ONE.
Proof.
  intros Hf Hi. destruct (round_exact v (i <? 0) (Z.abs i) 0 Hf) as (H1 & H2 & H3); [lia | lia |]. split_and!; [done | done |].
  unfold of_int. rewrite H3. unfold signed, ONE. change (0 + 1074) with 1074. destruct (Z.ltb_spec i 0); nia.
Qed.

(** ** Signs *)

Lemma double_key_with_sign (neg : bool) r : 0 <= r <= infinity binary64 -> double_key (with_sign binary64 neg r) = signed neg r.
Proof.
  intros Hr. change (infinity binary64) with (2047 * 2 ^ 52) in Hr.
  assert (P : inu 11 (r / 2 ^ 52) /\ inu 52 (r mod 2 ^ 52)) by (unfold inu; Z.to_euclidean_division_equations; lia).
  pose proof (Z.div_mod r (2 ^ 52) ltac:(lia)) as D.
  replace (with_sign binary64 neg r) with (b2z neg * 2 ^ 63 + r / 2 ^ 52 * 2 ^ 52 + r mod 2 ^ 52) by (unfold with_sign; change (sign_bit binary64) with (2 ^ 63); destruct neg; cbn [b2z]; lia).
  rewrite double_key_parts by (tauto || (destruct neg; cbn; lia)). unfold signed. destruct neg; cbn [b2z]; lia.
Qed.

(** A difference that is not zero does not vanish in the rounding. *)
Lemma round_magnitude_pos md neg m e : 0 < m -> -1074 <= e -> 1 <= round_magnitude binary64 md neg m e.
Proof.
  intros Hm He. unfold round_magnitude. destruct (Z.eqb_spec m 0); [lia |]. destruct (kept_exponent binary64 m e eq_refl Hm) as [K1 K2].
  change (prec binary64) with 53 in *. change (emin binary64) with (-1074) in *. set (e' := Z.max _ _) in *.
  assert (Q : forall q u, 1 <= q -> 1 <=
    (if infinity binary64 <=? (e' - -1074) * 2 ^ (53 - 1) + q + b2z u then
       match md with Nearest => infinity binary64 | TowardsZero => infinity binary64 - 1 | TowardsPositiveInfinity => if neg then infinity binary64 - 1 else infinity binary64
       | TowardsNegativeInfinity => if neg then infinity binary64 else infinity binary64 - 1 end
     else (e' - -1074) * 2 ^ (53 - 1) + q + b2z u)).
  { intros q u Hq. destruct (Z.leb_spec (infinity binary64) ((e' - -1074) * 2 ^ (53 - 1) + q + b2z u)); [destruct md, neg; done |]. destruct u; cbn [b2z]; lia. }
  destruct (Z.leb_spec e' e) as [L | L].
  - apply Q. pose proof (pow2_pos (e - e') ltac:(lia)). nia.
  - apply Q. destruct (K2 L) as [[C | C] _]; [lia |]. change (2 ^ (53 - 1)) with (2 ^ 52) in C. lia.
Qed.

Lemma sum_sign v a b :
  flush v = false -> let r := sum v a b in
  isnan r = false /\ Z.sgn (double_key r) = Z.sgn (double_value a + double_value b).
Proof.
  intros Hf r. split; [apply isnan_sum |]. subst r. unfold sum. pose proof (exponent_range a). pose proof (exponent_range b).
  set (e := Z.min (exponent a) (exponent b)). set (n := signed_significand a * 2 ^ (exponent a - e) + signed_significand b * 2 ^ (exponent b - e)).
  assert (En : double_value a + double_value b = n * 2 ^ (e + 1074)).
  { rewrite !double_value_parts. subst n. rewrite Z.mul_add_distr_r, <- !Z.mul_assoc, <- !Z.pow_add_r by (subst e; lia). do 2 f_equal; f_equal; lia. }
  rewrite En. destruct (Z.eqb_spec n 0) as [-> | Nn].
  - rewrite double_key_with_sign by (split; done). unfold signed. case_match; done.
  - unfold round, flushed. rewrite Hf. cbn [andb].
    pose proof (round_magnitude_pos (mode v) (n <? 0) (Z.abs n) e ltac:(lia) ltac:(subst e; lia)) as P.
    pose proof (round_magnitude_range binary64 (mode v) (n <? 0) (Z.abs n) e eq_refl eq_refl ltac:(lia)) as R.
    rewrite double_key_with_sign by lia. pose proof (pow2_pos (e + 1074) ltac:(subst e; lia)). rewrite Z.sgn_mul, (Z.sgn_pos (2 ^ (e + 1074))) by done.
    unfold signed. destruct (Z.ltb_spec n 0); [rewrite (Z.sgn_neg n), Z.sgn_neg by lia | rewrite (Z.sgn_pos n), Z.sgn_pos by lia]; lia.
Qed.

(** [a - b > 0] and [a - b < 0] are exact. *)
Lemma difference_sign v a b :
  flush v = false -> inu 64 a -> inu 64 b -> finite a = true -> finite b = true ->
  less 0 (double_sub v a b) = (double_value b <? double_value a) /\ less (double_sub v a b) 0 = (double_value a <? double_value b).
Proof.
  intros Hf Ha Hb Fa Fb. destruct (double_value_negate b Hb) as (Nb & Fn & Vn). rewrite Fb in Fn.
  destruct (finite_operand a Ha Fa) as [A1 A2], (finite_operand b Hb Fb) as [B1 _], (finite_operand (negate b) Nb Fn) as [C1 C2].
  assert (E : double_sub v a b = sum v a (negate b)) by (unfold double_sub, double_add; rewrite A1, B1, C1, A2, C2; done).
  rewrite E. destruct (sum_sign v a (negate b) Hf) as [S1 S2]. rewrite Vn in S2. unfold less. rewrite S1. change (isnan 0) with false. change (double_key 0) with 0. cbn [negb andb].
  destruct (Z.ltb_spec 0 (double_key (sum v a (negate b)))), (Z.ltb_spec (double_key (sum v a (negate b))) 0),
    (Z.ltb_spec (double_value b) (double_value a)), (Z.ltb_spec (double_value a) (double_value b)); try (split; reflexivity); lia.
Qed.

(** ** The integer *)

(** The integer next to [x] in the direction of the mode. *)
Definition directed (m : RoundingMode) (x : Z) : Z :=
  match m with
  | TowardsNegativeInfinity => x / ONE
  | TowardsPositiveInfinity => - (- x / ONE)
  | _ => Z.quot x ONE
  end.

Lemma ONE_pos : 0 < ONE.
Proof. apply pow2_pos. lia. Qed.

Lemma round_to_int_exact m v b :
  m <> Nearest -> flush v = false -> inu 64 b -> finite b = true -> Z.abs (double_value b) <= 2 ^ 31 * ONE ->
  round_to_int m v b = directed m (double_value b).
Proof.
  intros Hm Hf Hb Fb Hx. pose proof ONE_pos as P. set (x := double_value b) in *.
  assert (Q : Z.abs (truncate b) <= 2 ^ 31) by (rewrite truncate_quot; fold x; Z.quot_rem_to_equations; nia).
  destruct (of_int_exact v (truncate b) Hf Q) as (I1 & I2 & I3). destruct (difference_sign v b (of_int v (truncate b)) Hf Hb I1 Fb I2) as [D1 D2].
  rewrite I3 in D1, D2. rewrite truncate_quot in D1, D2. fold x in D1, D2. destruct m; [done | | |]; unfold round_to_int, directed; rewrite ?truncate_quot; fold x.
  - done.
  - rewrite D1. destruct (Z.ltb_spec (Z.quot x ONE * ONE) x); Z.to_euclidean_division_equations; nia.
  - rewrite D2. destruct (Z.ltb_spec x (Z.quot x ONE * ONE)); Z.to_euclidean_division_equations; nia.
Qed.

Lemma less_value a b : inu 64 a -> inu 64 b -> isnan a = false -> isnan b = false -> less a b = (double_value a <? double_value b).
Proof. intros Ha Hb Na Nb. unfold less. rewrite Na, Nb, double_key_order by done. done. Qed.

Lemma int_limits : double_value INT_MAX_DOUBLE = (2 ^ 31 - 1) * ONE /\ double_value INT_MIN_DOUBLE = - 2 ^ 31 * ONE /\ inu 64 INT_MAX_DOUBLE /\ inu 64 INT_MIN_DOUBLE.
Proof. split_and!; vm_compute; done. Qed.

(** An operand in the range of the integers is finite. *)
Lemma in_range_finite b : inu 64 b -> Z.abs (double_value b) <= 2 ^ 31 * ONE -> finite b = true.
Proof.
  intros Hb Hx. destruct (double_split b Hb) as (s & e & f & Hs & He & Hf & Eb). destruct (double_parts s e f Hs He Hf) as (_ & P1 & _ & P2). rewrite <- Eb in P1, P2.
  unfold finite. rewrite P1. unfold inu in *. destruct (Z.eqb_spec e 2047) as [-> |]; [| done]. exfalso. rewrite P2 in Hx. change (2047 =? 0) with false in Hx.
  cbv iota in Hx. assert (2 ^ 52 * 2 ^ (2047 - 1) <= Z.abs ((1 - 2 * s) * ((2 ^ 52 + f) * 2 ^ (2047 - 1)))).
  { pose proof (pow2_pos (2047 - 1) ltac:(lia)). rewrite !Z.abs_mul. replace (Z.abs (1 - 2 * s)) with 1 by lia. rewrite (Z.abs_eq (2 ^ 52 + f)), (Z.abs_eq (2 ^ (2047 - 1))) by lia. nia. }
  unfold ONE in Hx. assert (2 ^ 31 * 2 ^ 1074 < 2 ^ 52 * 2 ^ (2047 - 1)) by (vm_compute; done). lia.
Qed.

Lemma directed_range m x : m <> Nearest -> - 2 ^ 31 * ONE <= x <= (2 ^ 31 - 1) * ONE -> - 2 ^ 31 <= directed m x <= 2 ^ 31 - 1.
Proof. intros Hm Hx. pose proof ONE_pos. destruct m; [done | | |]; cbn [directed]; Z.to_euclidean_division_equations; nia. Qed.

Lemma directed_saturates m x : m <> Nearest ->
  ((2 ^ 31 - 1) * ONE < x -> 2 ^ 31 - 1 <= directed m x) /\ (x < - 2 ^ 31 * ONE -> directed m x <= - 2 ^ 31).
Proof. intros Hm. pose proof ONE_pos. destruct m; [done | | |]; cbn [directed]; split; Z.to_euclidean_division_equations; nia. Qed.

(** ** The instruction *)

Section Conversion.
Context `{FpuHost}.
Implicit Types s : PowerPCState.

(** The word that the instruction leaves, in the format of the registers: the
    integer below, and a bit that tells -0. *)
Definition integer_word (i : Z) (minus_zero : bool) : Z := 0xfff8000000000000 + (if minus_zero then 2 ^ 32 else 0) + u32 i.

Lemma integer_word_lor i neg :
  let r := 0xfff8000000000000 .| u32 i in
  (if (u32 i =? 0) && neg then r .| 0x100000000 else r) = integer_word i ((u32 i =? 0) && neg) /\ inu 64 (integer_word i ((u32 i =? 0) && neg)).
Proof.
  intros r. pose proof (wrapu_range 32 i ltac:(lia)) as R. unfold inu, integer_word in *.
  assert (Er : r = 0xfff8000000000000 + u32 i) by (exact (lor_shift_add 0xfff80000 (u32 i) 32 ltac:(lia) R)).
  destruct (Z.eqb_spec (u32 i) 0) as [E |]; cbn [andb]; [| lia]. destruct neg; [| lia]. rewrite Er, E. split; done || lia.
Qed.

(** The bits below the summaries. *)
Lemma testbit_SetFPException_low k s i :
  0 <= k < 32 -> 0 <= i < 29 -> Z.testbit (fpscr (SetFPException (1 .<< k) s)) i = Z.testbit (fpscr s) i || (i =? k).
Proof.
  intros Hk Hi. unfold SetFPException. cbn [fpscr set_fpscr]. unfold FPSCR_VX. rewrite testbit_put_flag by lia. destruct (Z.eqb_spec i 29); [lia |].
  rewrite Z.lor_spec, testbit_bit by lia. case_match; [| done]. unfold FPSCR_FX. rewrite testbit_put_flag by lia. destruct (Z.eqb_spec i 31); [lia | done].
Qed.

(** An update of the status register that leaves the registers, the
    enabling bit VE and the sticky bit VXCVI but for [c]. *)
Definition updates (c : bool) s s' : Prop :=
  ps0 s' = ps0 s /\ Z.testbit (fpscr s') 7 = Z.testbit (fpscr s) 7 /\ Z.testbit (fpscr s') 8 = Z.testbit (fpscr s) 8 || c.

Lemma updates_trans c c' s1 s2 s3 : updates c s1 s2 -> updates c' s2 s3 -> updates (c || c') s1 s3.
Proof. intros (A1 & A2 & A3) (B1 & B2 & B3). rewrite A3 in B3. rewrite <- orb_assoc in B3. split_and!; congruence. Qed.

Lemma updates_exception k s : 0 <= k < 32 -> k <> 7 -> updates (8 =? k) s (SetFPException (1 .<< k) s).
Proof. intros Hk N. split_and!; [done | |]; rewrite testbit_SetFPException_low by lia; [| done]. destruct (Z.eqb_spec 7 k); [lia | apply orb_false_r]. Qed.

Lemma updates_ClearFIFR s : updates false s (ClearFIFR s).
Proof. split_and!; [done | |]; unfold ClearFIFR, put_FR, put_FI, FPSCR_FR, FPSCR_FI; cbn [fpscr set_fpscr]; rewrite !testbit_put_flag by lia; cbn; rewrite ?orb_false_r; done. Qed.

Lemma updates_inexact b s : updates false s (put_FR b (SetFI true s)).
Proof.
  change false with ((8 =? 25) || false). apply (updates_trans (8 =? 25) false _ (SetFPException FPSCR_XX s)); [apply updates_exception; lia |].
  split_and!; [done | |]; unfold put_FR, SetFI, FPSCR_FR, FPSCR_FI; cbn [fpscr set_fpscr]; rewrite !testbit_put_flag by lia; cbn; rewrite ?orb_false_r; done.
Qed.

Lemma VE_testbit s : fp s FPSCR_VE = Z.testbit (fpscr s) 7.
Proof. unfold fp. change FPSCR_VE with (2 ^ 7). apply flag_testbit. lia. Qed.

(** What follows the choice of the word. *)
Lemma store_word c s s2 inst value i neg :
  wf s -> value = u32 i -> updates c s s2 ->
  let r := 0xfff8000000000000 .| value in
  let s3 := if negb c || negb (fp s2 FPSCR_VE) then put_ps0 (FD inst) (if (value =? 0) && neg then r .| 0x100000000 else r) s2 else s2 in
  let s' := record_CR1 inst s3 in
  Z.testbit (fpscr s') 8 = Z.testbit (fpscr s) 8 || c /\
  riPS0 s' (FD inst) = if c && fp s FPSCR_VE then riPS0 s (FD inst) else integer_word i ((u32 i =? 0) && neg).
Proof.
  intros Hs -> (U1 & U2 & U3) r s3 s'. destruct (integer_word_lor i neg) as [E R]. subst s' s3 r. rewrite E.
  assert (V : fp s2 FPSCR_VE = fp s FPSCR_VE) by (rewrite !VE_testbit; done). rewrite V. split.
  - unfold record_CR1. rewrite <- U3. destruct (Rc inst), c, (fp s FPSCR_VE); done.
  - unfold riPS0. rewrite (proj1 (record_CR1_ps _ _)). destruct c; cbn [negb orb andb]; [destruct (fp s FPSCR_VE); cbn [negb]; [by rewrite U1 |] |];
      unfold put_ps0; cbn [ps0 set_ps0]; rewrite U1, (zget_zset_same 32 64) by (apply (wf_ps0 _ Hs) || apply FD_range); apply wrapu_id; done.
Qed.

(** An operand that has no integer: no number, or out of range. *)
Definition no_integer (b : Z) : bool :=
  isnan b || (double_value b <? - 2 ^ 31 * ONE) || ((2 ^ 31 - 1) * ONE <? double_value b).

Definition saturated (i : Z) : Z := Z.max (- 2 ^ 31) (Z.min (2 ^ 31 - 1) i).

Lemma low_word_zero i : - 2 ^ 31 <= i < 2 ^ 31 -> (i =? 0) = (u32 i =? 0).
Proof. intros Hi. unfold wrapu. destruct (Z.eqb_spec i 0), (Z.eqb_spec (i mod 2 ^ 32) 0); subst; (done || Z.to_euclidean_division_equations; lia). Qed.

(** C30: Conversion to an integer. In the three directed modes, of which fctiwzx
    uses the one toward zero, while FPSCR.NI is clear (with NI set the host takes
    the small numbers of the calculation for zeros), the low word of the target register is the
    integer next to the operand in the direction of the mode, saturated to 32
    bits, with the least integer for a NaN; the bit above it tells the zero of a
    negative number, and the rest is a fixed pattern. VXCVI is raised exactly
    for a NaN, an infinity or a number out of range, and when such exceptions
    are enabled the register keeps its value. *)
Theorem conversion_to_integer m inst s :
  wf s -> m <> Nearest -> fp s FPSCR_NI = false ->
  let b := B inst s in
  let s' := ConvertToInteger inst m s in
  let i := if isnan b then - 2 ^ 31 else saturated (directed m (double_value b)) in
  Z.testbit (fpscr s') 8 = Z.testbit (fpscr s) 8 || no_integer b /\
  riPS0 s' (FD inst) = if no_integer b && fp s FPSCR_VE then riPS0 s (FD inst) else integer_word i ((i =? 0) && negative b).
Proof.
  intros Hs Hm NI b s' i. destruct (wf_double_A inst s Hs) as (_ & Hb & _). fold b in Hb.
  assert (Hf : flush (host_env s) = false) by (unfold host_env; cbn; rewrite NI; apply andb_false_r).
  destruct int_limits as (L1 & L2 & L3 & L4). pose proof (directed_saturates m (double_value b) Hm) as [S1 S2].
  pose proof (directed_range m (double_value b) Hm) as R.
  assert (Low : updates true s (ClearFIFR (SetFPException FPSCR_VXCVI s))) by (eapply (updates_trans true false); [apply (updates_exception 8); lia | apply updates_ClearFIFR]).
  assert (Z0 : (i =? 0) = (u32 i =? 0)).
  { assert (- 2 ^ 31 <= i < 2 ^ 31) by (subst i; unfold saturated; case_match; lia). apply low_word_zero; done. }
  subst s'. unfold ConvertToInteger. fold b. rewrite Z0. unfold no_integer. destruct (isnan b) eqn:Nb; cbn [orb].
  - apply (store_word true s _ inst 0x80000000); [done | done |]. destruct (IsSNAN b); [| exact Low].
    apply (updates_trans false true _ (SetFPException FPSCR_VXSNAN s)); [apply (updates_exception 24); lia |].
    eapply (updates_trans true false); [apply (updates_exception 8); lia | apply updates_ClearFIFR].
  - rewrite (less_value INT_MAX_DOUBLE b), (less_value b INT_MIN_DOUBLE), L1, L2 by (exact Hb || exact L3 || exact L4 || exact Nb || reflexivity).
    destruct (Z.ltb_spec ((2 ^ 31 - 1) * ONE) (double_value b)) as [G | G]; [| destruct (Z.ltb_spec (double_value b) (- 2 ^ 31 * ONE)) as [G' | G']].
    + rewrite orb_true_r. assert (i = 2 ^ 31 - 1) as -> by (subst i; unfold saturated; lia). apply (store_word true s _ inst 0x7fffffff (2 ^ 31 - 1)); done.
    + assert (i = - 2 ^ 31) as -> by (subst i; unfold saturated; lia). apply (store_word true s _ inst 0x80000000 (- 2 ^ 31)); done.
    + pose proof ONE_pos. cbn [orb]. assert (Ab : Z.abs (double_value b) <= 2 ^ 31 * ONE) by lia.
      rewrite (round_to_int_exact m _ b Hm Hf Hb (in_range_finite b Hb Ab) Ab). assert (i = directed m (double_value b)) as -> by (subst i; unfold saturated; lia).
      apply (store_word false); [done | done |]. case_match; [apply updates_ClearFIFR | apply updates_inexact].
Qed.
End Conversion.

Section ConversionExamples.
#[local] Instance flushing : FpuHost := {| bFlushToZero := true |}.

(** -1.5, toward negative infinity, and a half toward zero. *)
Definition convert_inst : Z := Z.shiftl 63 26 .| Z.shiftl 3 21 .| Z.shiftl 1 11 .| Z.shiftl 15 1.

Lemma conversion_to_integer_witness :
  riPS0 (ConvertToInteger convert_inst TowardsNegativeInfinity (put_ps0 1 0xBFF8000000000000 ppcState)) 3 = 0xFFF80000FFFFFFFE /\
  riPS0 (fctiwzx convert_inst (put_ps0 1 0xBFE0000000000000 ppcState)) 3 = 0xFFF8000100000000.
Proof.
  split.
  - refine (eq_trans (proj2 (conversion_to_integer TowardsNegativeInfinity convert_inst (put_ps0 1 0xBFF8000000000000 ppcState) _ _ _)) _);
      [apply wf_put_ps0, wf_ppcState | done | vm_compute; reflexivity ..].
  - refine (eq_trans (proj2 (conversion_to_integer TowardsZero convert_inst (put_ps0 1 0xBFE0000000000000 ppcState) _ _ _)) _);
      [apply wf_put_ps0, wf_ppcState | done | vm_compute; reflexivity ..].
Defined.
End ConversionExamples.
