(* ===== verification/PpcEstimates.v ===== *)
(** How good the estimates of [fres] and [frsqrte] are
    ([Common/FloatUtils.cpp]): the product of an estimate and its operand, over
    all the doubles the tables are for.

    Each of the 32 segments of a table is a line; the product of a falling line
    and the operand is least at one of the ends, and greatest where the means of
    its factors agree. So a check of the 32 segments covers every operand. *)

From S2P Require Import Prelude PpcState PpcFpu PpcFloat PpcFpArith PpcConvert.
Open Scope Z_scope.

(** ** Products with a falling line *)

Section Lines.
Variables D Y X n j T : Z.
Hypothesis HD : 0 < D.
Hypothesis Hj : 0 <= j <= n.

(** The chord lies below the product. *)
Lemma line_product_least : 0 < n -> T <= Y * X -> T <= (Y - D * n) * (X + n) -> T <= (Y - D * j) * (X + j).
Proof.
  intros Hn H0 H1. assert (E : (Y - D * j) * (X + j) * n = Y * X * (n - j) + (Y - D * n) * (X + n) * j + D * j * (n - j) * n) by ring.
  assert (0 <= D * j * (n - j) * n) by (repeat apply Z.mul_nonneg_nonneg; lia). nia.
Qed.

Lemma line_square_product_least :
  0 < n -> D * (X + 2 * n) <= 2 * Y -> T <= Y * Y * X -> T <= (Y - D * n) * (Y - D * n) * (X + n) -> T <= (Y - D * j) * (Y - D * j) * (X + j).
Proof.
  intros Hn HY H0 H1. assert (E : (Y - D * j) * (Y - D * j) * (X + j) * n =
    Y * Y * X * (n - j) + (Y - D * n) * (Y - D * n) * (X + n) * j + D * j * (n - j) * n * (2 * Y - D * (X + j + n))) by ring.
  assert (0 <= D * j * (n - j) * n * (2 * Y - D * (X + j + n))) by (repeat apply Z.mul_nonneg_nonneg; nia). nia.
Qed.

(** The mean of the factors bounds their product. *)
Lemma line_product_greatest : (Y + D * X) * (Y + D * X) <= 4 * D * T -> (Y - D * j) * (X + j) <= T.
Proof. intros HT. assert (4 * D * ((Y - D * j) * (X + j)) <= (Y + D * X) * (Y + D * X)) by (pose proof (Z.square_nonneg ((Y - D * j) - D * (X + j))); nia). nia. Qed.

Lemma mean_of_three u v : 0 <= u -> 0 <= v -> 27 * (u * u * v) <= 4 * ((u + v) * (u + v) * (u + v)).
Proof.
  intros Hu Hv. assert (E : 4 * ((u + v) * (u + v) * (u + v)) - 27 * (u * u * v) = (u - 2 * v) * (u - 2 * v) * (4 * u + v)) by ring.
  pose proof (Z.square_nonneg (u - 2 * v)). nia.
Qed.

Lemma line_square_product_greatest :
  0 <= X -> 0 <= Y - D * j -> 4 * ((Y + D * X) * (Y + D * X) * (Y + D * X)) <= 27 * D * T -> (Y - D * j) * (Y - D * j) * (X + j) <= T.
Proof.
  intros HX HY HT. pose proof (mean_of_three (Y - D * j) (D * (X + j)) HY ltac:(nia)) as M.
  replace (Y - D * j + D * (X + j)) with (Y + D * X) in M by ring. set (p := (Y - D * j) * (Y - D * j)) in *.
  replace (27 * (p * (D * (X + j)))) with (27 * D * (p * (X + j))) in M by ring. nia.
Qed.
End Lines.

(** ** The tables *)

(** The mantissas of the estimates; [i] is the leading 15 bits of the operand's. *)
Definition fres_mantissa (i : Z) : Z :=
  let '(m_base, m_dec) := nth (Z.to_nat (i / 1024)) fres_expected (0, 0) in m_base - (m_dec * (i mod 1024) + 1) / 2.
Definition frsqrte_mantissa (odd : bool) (i : Z) : Z :=
  let '(m_base, m_dec) := nth (Z.to_nat (i / 2048 + (if odd then 16 else 0))) frsqrte_expected (0, 0) in m_base - m_dec * (i mod 2048).

(** The checks of a segment. *)
Definition fres_segment_ok (k : nat) : bool :=
  let '(base, D) := nth k fres_expected (0, 0) in
  let X := 2 ^ 15 + 1024 * Z.of_nat k in
  let Y := 2 * (2 ^ 23 + base) in
  let low := 2 * (2 ^ 39 - 2 ^ 27) in
  (0 <? D) && (D * 1023 + 1 <=? 2 * base) && (base <? 2 ^ 23) && (low <=? (Y - 1) * X) && (low <=? (Y - 1 - D * 1023) * (X + 1023)) &&
  ((Y + D * (X + 1)) * (Y + D * (X + 1)) <=? 4 * D * (2 * (2 ^ 39 + 2 ^ 27))).

Definition frsqrte_segment_ok (k : nat) : bool :=
  let '(base, D) := nth k frsqrte_expected (0, 0) in
  let X := 2 ^ 15 + 2048 * (Z.of_nat k mod 16) in
  let Y := 2 ^ 26 + base in
  let T := if Nat.ltb k 16 then 2 ^ 69 else 2 ^ 68 in
  let low := T - T / 2048 in
  (0 <? D) && (D * 2047 <=? base) && (base <? 2 ^ 26) && (D * (X + 2 * 2047) <=? 2 * Y) &&
  (low <=? Y * Y * X) && (low <=? (Y - D * 2047) * (Y - D * 2047) * (X + 2047)) &&
  (4 * ((Y + D * (X + 1)) * (Y + D * (X + 1)) * (Y + D * (X + 1))) <=? 27 * D * (T + T / 2048)).

Lemma segments_ok : forallb fres_segment_ok (seq 0 32) = true /\ forallb frsqrte_segment_ok (seq 0 32) = true.
Proof. split; vm_compute; reflexivity. Qed.

Ltac split_checks H := rewrite !andb_true_iff in H; decompose [and] H; clear H;
  repeat match goal with H : (_ <? _) = true |- _ => apply Z.ltb_lt in H | H : (_ <=? _) = true |- _ => apply Z.leb_le in H end.

Lemma fres_entry i : 0 <= i < 2 ^ 15 ->
  let m := fres_mantissa i in 0 <= m < 2 ^ 23 /\ 2 ^ 39 - 2 ^ 27 <= (2 ^ 23 + m) * (2 ^ 15 + i) /\ (2 ^ 23 + m) * (2 ^ 15 + i + 1) <= 2 ^ 39 + 2 ^ 27.
Proof.
  intros Hi m. subst m. unfold fres_mantissa. set (k := Z.to_nat (i / 1024)). assert (Hk : In k (seq 0 32)) by (apply in_seq; subst k; Z.to_euclidean_division_equations; lia).
  pose proof (proj1 (forallb_forall _ _) (proj1 segments_ok) k Hk) as C. unfold fres_segment_ok in C. destruct (nth k fres_expected (0, 0)) as [base D].
  assert (Ej : 2 ^ 15 + i = 2 ^ 15 + 1024 * Z.of_nat k + i mod 1024) by (subst k; Z.to_euclidean_division_equations; lia).
  pose proof (Z.mod_pos_bound i 1024 ltac:(lia)) as Hj. rewrite Ej. set (j := i mod 1024) in *. set (X := 2 ^ 15 + 1024 * Z.of_nat k) in *. assert (HX : 0 <= X) by lia. clearbody j X. clear Ej Hk k.
  split_checks C. set (h := (D * j + 1) / 2). assert (Hh : D * j <= 2 * h <= D * j + 1) by (subst h; Z.to_euclidean_division_equations; lia). clearbody h.
  pose proof (line_product_least D (2 * (2 ^ 23 + base) - 1) X 1023 j (2 * (2 ^ 39 - 2 ^ 27)) ltac:(lia) ltac:(lia) ltac:(lia) ltac:(lia) ltac:(lia)) as L.
  pose proof (line_product_greatest D (2 * (2 ^ 23 + base)) (X + 1) j (2 * (2 ^ 39 + 2 ^ 27)) ltac:(lia) ltac:(lia)) as G.
  assert (D * j <= D * 1023) by (apply Z.mul_le_mono_nonneg_l; lia). split; [lia |].
  pose proof (Z.mul_le_mono_nonneg_r (2 * (2 ^ 23 + base) - 1 - D * j) (2 * (2 ^ 23 + (base - h))) (X + j) ltac:(lia) ltac:(lia)).
  pose proof (Z.mul_le_mono_nonneg_r (2 * (2 ^ 23 + (base - h))) (2 * (2 ^ 23 + base) - D * j) (X + 1 + j) ltac:(lia) ltac:(lia)).
  replace (X + j + 1) with (X + 1 + j) by lia. lia.
Qed.

Lemma square_le a b c : 0 <= a -> a <= b -> 0 <= c -> a * a * c <= b * b * c.
Proof. intros. apply Z.mul_le_mono_nonneg_r; [done |]. apply Z.mul_le_mono_nonneg; lia. Qed.

Lemma frsqrte_entry (odd : bool) i : 0 <= i < 2 ^ 15 ->
  let m := frsqrte_mantissa odd i in let y := 2 ^ 26 + m in let T := if odd then 2 ^ 68 else 2 ^ 69 in
  0 <= m < 2 ^ 26 /\ T - T / 2048 <= y * y * (2 ^ 15 + i) /\ y * y * (2 ^ 15 + i + 1) <= T + T / 2048.
Proof.
  intros Hi m. subst m. unfold frsqrte_mantissa. set (k := Z.to_nat (i / 2048 + (if odd then 16 else 0))).
  assert (Hk : In k (seq 0 32)) by (apply in_seq; subst k; destruct odd; Z.to_euclidean_division_equations; lia).
  pose proof (proj1 (forallb_forall _ _) (proj2 segments_ok) k Hk) as C. unfold frsqrte_segment_ok in C. destruct (nth k frsqrte_expected (0, 0)) as [base D].
  assert (Ej : 2 ^ 15 + i = 2 ^ 15 + 2048 * (Z.of_nat k mod 16) + i mod 2048).
  { assert (Z.of_nat k mod 16 = i / 2048); [| pose proof (Z.div_mod i 2048 ltac:(lia)); lia]. subst k.
    rewrite Z2Nat.id by (destruct odd; Z.to_euclidean_division_equations; lia). destruct odd; Z.to_euclidean_division_equations; lia. }
  assert (ET : (if Nat.ltb k 16 then 2 ^ 69 else 2 ^ 68) = if odd then 2 ^ 68 else 2 ^ 69).
  { subst k. destruct odd, (Nat.ltb_spec (Z.to_nat (i / 2048 + 16)) 16), (Nat.ltb_spec (Z.to_nat (i / 2048 + 0)) 16); try done; exfalso; Z.to_euclidean_division_equations; lia. }
  rewrite ET in C. cbv zeta. set (T := if odd then 2 ^ 68 else 2 ^ 69) in *.
  pose proof (Z.mod_pos_bound i 2048 ltac:(lia)) as Hj. rewrite Ej. set (j := i mod 2048) in *. set (X := 2 ^ 15 + 2048 * (Z.of_nat k mod 16)) in *.
  assert (HX : 0 <= X) by (subst X; Z.to_euclidean_division_equations; lia). set (lo := T - T / 2048) in *. set (hi := T + T / 2048) in *. clearbody j X lo hi. clear Ej ET Hk T k.
  split_checks C. assert (D * j <= D * 2047) by (apply Z.mul_le_mono_nonneg_l; lia). assert (0 <= D * j) by (apply Z.mul_nonneg_nonneg; lia).
  pose proof (line_square_product_least D (2 ^ 26 + base) X 2047 j lo ltac:(lia) ltac:(lia) ltac:(lia) ltac:(lia) ltac:(lia) ltac:(lia)) as L.
  pose proof (line_square_product_greatest D (2 ^ 26 + base) (X + 1) 2047 j hi ltac:(lia) ltac:(lia) ltac:(lia) ltac:(lia) ltac:(lia)) as G.
  replace (2 ^ 26 + (base - D * j)) with (2 ^ 26 + base - D * j) by lia. replace (X + j + 1) with (X + 1 + j) by lia. split; [lia | split; [exact L | exact G]].
Qed.

(** ** The fields of the operand and of the result *)

(** A result made of its fields. *)
Lemma result_parts s e m w :
  0 <= s <= 1 -> inu 11 e -> 0 <= w <= 52 -> 0 <= m < 2 ^ (52 - w) ->
  let r := (s * 2 ^ 63 .| e * 2 ^ 52) .| (m .<< w) in
  inu 64 r /\ double_exp r = e /\ double_value r = (1 - 2 * s) * (if e =? 0 then m * 2 ^ w else (2 ^ (52 - w) + m) * 2 ^ w * 2 ^ (e - 1)) /\ negative r = (s =? 1).
Proof.
  intros Hs He Hw Hm r. pose proof (pow2_pos w ltac:(lia)). pose proof (pow2_pos (52 - w) ltac:(lia)).
  assert (Ew : 2 ^ 52 = 2 ^ (52 - w) * 2 ^ w) by (rewrite <- Z.pow_add_r by lia; f_equal; lia).
  assert (Hf : inu 52 (m * 2 ^ w)) by (unfold inu; nia).
  assert (Er : r = s * 2 ^ 63 + e * 2 ^ 52 + m * 2 ^ w).
  { subst r. rewrite (Z.shiftl_mul_pow2 m), <- (Z.shiftl_mul_pow2 s) by lia. unfold inu in *.
    rewrite (lor3 s (e * 2 ^ 52) (m * 2 ^ w) 63 52); [rewrite Z.shiftl_mul_pow2 by lia; lia | lia | lia | apply Z.mod_mul; lia | lia]. }
  destruct (double_parts s e (m * 2 ^ w) Hs He Hf) as (P1 & P2 & _ & P3). rewrite <- Er in P1, P2, P3. split_and!; [done | done | |].
  - rewrite P3. destruct (e =? 0); [done |]. rewrite Ew. ring.
  - unfold negative. pose proof (testbit_top 64 r ltac:(lia) P1) as Tr. change (64 - 1) with 63 in Tr. rewrite Tr, Er. unfold inu in *.
    destruct (Z.eqb_spec s 1), (Z.leb_spec (2 ^ 63) (s * 2 ^ 63 + e * 2 ^ 52 + m * 2 ^ w)); done || lia.
Qed.

(** The operand's significand lies between those that its leading bits begin. *)
Lemma leading_bits f : inu 52 f -> 0 <= f / 2 ^ 37 < 2 ^ 15 /\ (2 ^ 15 + f / 2 ^ 37) * 2 ^ 37 <= 2 ^ 52 + f < (2 ^ 15 + f / 2 ^ 37 + 1) * 2 ^ 37.
Proof. unfold inu. intros. Z.to_euclidean_division_equations; lia. Qed.

Lemma leading_product W x a T d :
  0 <= W -> x * 2 ^ 37 <= a < (x + 1) * 2 ^ 37 -> T - d <= W * x -> W * (x + 1) <= T + d -> Z.abs (W * a - T * 2 ^ 37) <= d * 2 ^ 37.
Proof.
  intros HW Ha HL HG. pose proof (Z.mul_le_mono_nonneg_l (x * 2 ^ 37) a W HW ltac:(lia)). pose proof (Z.mul_le_mono_nonneg_l a ((x + 1) * 2 ^ 37) W HW ltac:(lia)). lia.
Qed.

(** ** The reciprocal *)

Lemma reciprocal_eq v s e f :
  0 <= s <= 1 -> inu 52 f -> 895 <= e <= 1148 ->
  ApproximateReciprocal v (s * 2 ^ 63 + e * 2 ^ 52 + f) = (s * 2 ^ 63 .| (2045 - e) * 2 ^ 52) .| (fres_mantissa (f / 2 ^ 37) .<< 29).
Proof.
  intros Hs Hf He. assert (He' : inu 11 e) by (unfold inu; lia). destruct (operand_fields s e f Hs He' Hf) as (F1 & F2 & F3).
  unfold ApproximateReciprocal. rewrite F1, F2, F3. rewrite !Z.shiftl_mul_pow2 by lia.
  destruct (Z.eqb_spec (e * 2 ^ 52) 0); [lia |]. rewrite andb_false_r. destruct (Z.eqb_spec (e * 2 ^ 52) (0x7FF * 2 ^ 52)); [lia |].
  destruct (Z.ltb_spec (e * 2 ^ 52) (895 * 2 ^ 52)); [lia |]. destruct (Z.leb_spec (1149 * 2 ^ 52) (e * 2 ^ 52)); [lia |].
  unfold fres_mantissa. rewrite Z.shiftr_div_pow2 by lia. destruct (nth _ fres_expected (0, 0)) as [base D].
  rewrite Z.shiftl_mul_pow2 by lia. do 2 f_equal. lia.
Qed.

Lemma reciprocal_accurate v x :
  inu 64 x -> 895 <= double_exp x <= 1148 ->
  let r := ApproximateReciprocal v x in
  finite r = true /\ negative r = negative x /\ Z.abs (double_value r * double_value x - 2 ^ 2148) * 4096 <= 2 ^ 2148.
Proof.
  intros Hx He r. destruct (double_split x Hx) as (s & e & f & Hs & He' & Hf & Ex). destruct (double_parts s e f Hs He' Hf) as (_ & P1 & _ & P2).
  rewrite <- Ex in P1, P2. rewrite P1 in He. destruct (leading_bits f Hf) as [Hi Ha]. destruct (fres_entry (f / 2 ^ 37) Hi) as (Hm & HL & HG).
  subst r. rewrite Ex at 1 2 4. rewrite (reciprocal_eq v s e f Hs Hf He). set (m := fres_mantissa (f / 2 ^ 37)) in *.
  destruct (result_parts s (2045 - e) m 29 Hs ltac:(unfold inu; lia) ltac:(lia) Hm) as (_ & R1 & R2 & R3). set (r := _ .| _) in *.
  split; [unfold finite; rewrite R1; destruct (Z.eqb_spec (2045 - e) 2047); [lia | done] |]. split.
  - rewrite R3. unfold negative. pose proof (testbit_top 64 x ltac:(lia) Hx) as Tx. change (64 - 1) with 63 in Tx. rewrite Tx, Ex. unfold inu in *.
    destruct (Z.eqb_spec s 1), (Z.leb_spec (2 ^ 63) (s * 2 ^ 63 + e * 2 ^ 52 + f)); done || lia.
  - rewrite R2, P2. destruct (Z.eqb_spec e 0), (Z.eqb_spec (2045 - e) 0); try lia.
    pose proof (leading_product (2 ^ 23 + m) (2 ^ 15 + f / 2 ^ 37) (2 ^ 52 + f) (2 ^ 39) (2 ^ 27) ltac:(lia) Ha ltac:(lia) ltac:(lia)) as B.
    replace ((1 - 2 * s) * ((2 ^ (52 - 29) + m) * 2 ^ 29 * 2 ^ (2045 - e - 1)) * ((1 - 2 * s) * ((2 ^ 52 + f) * 2 ^ (e - 1))))
      with ((2 ^ 23 + m) * (2 ^ 52 + f) * 2 ^ 2072).
    + replace (2 ^ 2148) with (2 ^ 39 * 2 ^ 37 * 2 ^ 2072) by (rewrite <- !Z.pow_add_r by lia; done). pose proof (pow2_pos 2072 ltac:(lia)) as P.
      rewrite <- Z.mul_sub_distr_r, Z.abs_mul, (Z.abs_eq (2 ^ 2072)) by lia. revert B P. generalize (Z.abs ((2 ^ 23 + m) * (2 ^ 52 + f) - 2 ^ 39 * 2 ^ 37)), (2 ^ 2072). intros; nia.
    + replace (2 ^ 2072) with (2 ^ 29 * 2 ^ (2045 - e - 1) * 2 ^ (e - 1)) by (rewrite <- !Z.pow_add_r by lia; f_equal; lia).
      assert (s = 0 \/ s = 1) as [-> | ->] by lia; change (52 - 29) with 23; ring.
Qed.

(** ** The reciprocal of the square root *)

Lemma normalize_denormal_eq fuel E m :
  0 < m < 2 ^ 52 -> 52 - Z.log2 m <= Z.of_nat fuel ->
  normalize_denormal fuel E m = (E - (52 - Z.log2 m) * MANTISSA, m * 2 ^ (52 - Z.log2 m)).
Proof.
  revert E m. induction fuel as [| fuel IH]; intros E m Hm Hn.
  { assert (Z.log2 m < 52) by (apply Z.log2_lt_pow2; lia). lia. }
  cbn [normalize_denormal]. rewrite Z.shiftl_mul_pow2 by lia. change (2 ^ 1) with 2. pose proof (Z.log2_spec m ltac:(lia)) as [L1 L2]. pose proof (Z.log2_nonneg m) as L0.
  rewrite <- Z.add_1_r in L2. assert (H52 : Z.log2 m < 52) by (apply Z.log2_lt_pow2; lia).
  assert (F : flag (m * 2) MANTISSA = (Z.log2 m =? 51)).
  { change MANTISSA with (2 ^ 52). rewrite flag_testbit by lia. assert (R : inu 53 (m * 2)) by (unfold inu; lia).
    pose proof (testbit_top 53 (m * 2) ltac:(lia) R) as T. change (53 - 1) with 52 in T. rewrite T. destruct (Z.eqb_spec (Z.log2 m) 51) as [E51 | N51].
    - rewrite E51 in L1. apply Z.leb_le. lia.
    - apply Z.leb_gt. assert (2 ^ (Z.log2 m + 1) <= 2 ^ 51) by (apply Z.pow_le_mono_r; lia). lia. }
  rewrite F. destruct (Z.eqb_spec (Z.log2 m) 51) as [E51 | N51].
  - rewrite E51. f_equal; lia.
  - assert (2 ^ (Z.log2 m + 1) <= 2 ^ 51) by (apply Z.pow_le_mono_r; lia). assert (Ed : Z.log2 (m * 2) = Z.log2 m + 1) by (rewrite Z.mul_comm; rewrite Z.log2_double by lia; lia).
    rewrite IH by (lia || rewrite Ed; lia). rewrite Ed. f_equal; [lia |]. rewrite <- Z.mul_assoc. f_equal. rewrite <- (Z.pow_add_r 2 1) by lia. f_equal. lia.
Qed.

Lemma half_exponent E : -51 <= E <= 2046 ->
  ((0x3FF .<< 52) - Z.quot (E * 2 ^ 52 - (0x3FE .<< 52)) 2) .& (0x7FF .<< 52) = (0x3FF - (E - 0x3FE + 1) / 2) * 2 ^ 52 /\
  ((E * 2 ^ 52 .& MANTISSA) =? 0) = Z.even E.
Proof.
  intros HE. set (d := E - 0x3FE). rewrite !Z.shiftl_mul_pow2 by lia. split.
  - replace (E * 2 ^ 52 - 0x3FE * 2 ^ 52) with (d * 2 ^ 51 * 2) by (subst d; lia). rewrite Z.quot_mul by lia.
    set (x := 0x3FF * 2 ^ 52 - d * 2 ^ 51). assert (Hx : inu 63 x) by (unfold inu; subst x d; lia).
    change (0x7FF * 2 ^ 52) with (Z.ones (63 - 52) .<< 52). rewrite land_top by (done || lia). f_equal. subst x d. Z.to_euclidean_division_equations. lia.
  - change MANTISSA with (2 ^ 52). pose proof (flag_testbit (E * 2 ^ 52) 52 ltac:(lia)) as F. unfold flag in F. apply (f_equal negb) in F. rewrite negb_involutive in F. rewrite F.
    rewrite Z.mul_pow2_bits by lia. change (52 - 52) with 0. rewrite Z.bit0_odd, Z.negb_odd. done.
Qed.

(** What remains of the routine for a positive number, normalised if it was
    subnormal: the number is [(2 ^ 52 + f) * 2 ^ (E - 1)], for an [E] that may
    be negative. *)
Definition frsqrte_normal (E f : Z) : Z :=
  (0 * 2 ^ 63 .| (0x3FF - (E - 0x3FE + 1) / 2) * 2 ^ 52) .| (frsqrte_mantissa (Z.even E) (f / 2 ^ 37) .<< 26).

Lemma frsqrte_normal_accurate E f V :
  -51 <= E <= 2046 -> inu 52 f -> V * 2 ^ 52 = (2 ^ 52 + f) * 2 ^ (E + 51) ->
  let r := frsqrte_normal E f in
  finite r = true /\ negative r = false /\ Z.abs (double_value r * double_value r * V - 2 ^ 3222) * 2048 <= 2 ^ 3222.
Proof.
  intros HE Hf HV r. destruct (leading_bits f Hf) as [Hi Ha]. destruct (frsqrte_entry (Z.even E) (f / 2 ^ 37) Hi) as (Hm & HL & HG).
  subst r. unfold frsqrte_normal. set (m := frsqrte_mantissa (Z.even E) (f / 2 ^ 37)) in *. set (e := 0x3FF - (E - 0x3FE + 1) / 2).
  assert (He : 511 <= e <= 1559) by (subst e; Z.to_euclidean_division_equations; lia).
  destruct (result_parts 0 e m 26 ltac:(lia) ltac:(unfold inu; lia) ltac:(lia) Hm) as (_ & R1 & R2 & R3). set (r := _ .| _) in *.
  split; [unfold finite; rewrite R1; destruct (Z.eqb_spec e 2047); [lia | done] |]. split; [exact R3 |].
  rewrite R2. destruct (Z.eqb_spec e 0); [lia |]. set (y := 2 ^ 26 + m) in *. set (T := if Z.even E then 2 ^ 68 else 2 ^ 69) in *.
  pose proof (leading_product (y * y) (2 ^ 15 + f / 2 ^ 37) (2 ^ 52 + f) T (T / 2048) (Z.square_nonneg y) Ha HL HG) as B.
  set (b := if Z.even E then 3169 else 3168).
  assert (Eb : 26 + (e - 1) + (26 + (e - 1)) + (E + 51) = b).
  { subst b e. pose proof (Z.div_mod (E - 1022 + 1) 2 ltac:(lia)) as D. rewrite Zmod_even, Z.even_add, Z.even_sub in D.
    change (Z.even 1022) with true in D. change (Z.even 1) with false in D. destruct (Z.even E); cbn [Bool.eqb] in D; lia. }
  assert (ET : T * 2 ^ 37 * 2 ^ b = 2 ^ 3222 * 2 ^ 52 /\ 2048 * (T / 2048) = T) by (subst T b; destruct (Z.even E); split; vm_compute; done).
  destruct ET as [ET Ed].
  assert (Eq : (1 - 2 * 0) * ((2 ^ (52 - 26) + m) * 2 ^ 26 * 2 ^ (e - 1)) * ((1 - 2 * 0) * ((2 ^ (52 - 26) + m) * 2 ^ 26 * 2 ^ (e - 1))) * V * 2 ^ 52 = y * y * (2 ^ 52 + f) * 2 ^ b).
  { rewrite <- (Z.mul_assoc _ V), HV, <- Eb. rewrite (Z.pow_add_r 2 (26 + (e - 1) + (26 + (e - 1)))), (Z.pow_add_r 2 (26 + (e - 1))), (Z.pow_add_r 2 26) by lia. change (2 ^ (52 - 26)) with (2 ^ 26). fold y. ring. }
  set (p := _ * V) in *. pose proof (pow2_pos b ltac:(subst b; destruct (Z.even E); lia)) as Pb. revert ET Ed Eq B Pb. generalize (2 ^ b), (2 ^ 3222).
  intros P Q ET Ed Eq B Pb. assert (A : (p - Q) * 2 ^ 52 = (y * y * (2 ^ 52 + f) - T * 2 ^ 37) * P) by lia.
  apply (f_equal Z.abs) in A. rewrite !Z.abs_mul, (Z.abs_eq (2 ^ 52)), (Z.abs_eq P) in A by lia.
  pose proof (Z.mul_le_mono_nonneg_r _ _ P ltac:(lia) B). lia.
Qed.

Lemma frsqrte_eq v e f :
  inu 11 e -> e < 2047 -> inu 52 f -> e * 2 ^ 52 + f <> 0 ->
  ApproximateReciprocalSquareRoot v (e * 2 ^ 52 + f) =
    if e =? 0 then let n := 52 - Z.log2 f in frsqrte_normal (1 - n) (f * 2 ^ n - 2 ^ 52) else frsqrte_normal e f.
Proof.
  intros He Hlt Hf Hz. destruct (operand_fields 0 e f ltac:(lia) He Hf) as (F1 & F2 & F3). change (0 * 2 ^ 63) with 0 in F1, F2, F3. rewrite Z.add_0_l in F1, F2, F3.
  assert (Finish : forall E g, -51 <= E <= 2046 -> inu 52 g ->
    (let odd_exponent := (E * 2 ^ 52 .& MANTISSA) =? 0 in
     let exponent := ((0x3FF .<< 52) - Z.quot (E * 2 ^ 52 - (0x3FE .<< 52)) 2) .& (0x7FF .<< 52) in
     let i := g .>> 37 in
     let index := i / 2048 + (if odd_exponent then 16 else 0) in
     let '(m_base, m_dec) := nth (Z.to_nat index) frsqrte_expected (0, 0) in
     0 .| exponent .| ((m_base - m_dec * (i mod 2048)) .<< 26)) = frsqrte_normal E g).
  { intros E g HE Hg. destruct (half_exponent E HE) as [H1 H2]. rewrite H1, H2, Z.shiftr_div_pow2 by lia. unfold frsqrte_normal, frsqrte_mantissa.
    destruct (nth _ frsqrte_expected (0, 0)). done. }
  unfold ApproximateReciprocalSquareRoot. rewrite F1, F2, F3. unfold inu in *. change (negb (0 =? 0)) with false. cbv iota.
  destruct (Z.eqb_spec (e * 2 ^ 52) (0x7FF .<< 52)) as [C | _]; [change (0x7FF .<< 52) with (2047 * 2 ^ 52) in C; lia |].
  destruct (Z.eqb_spec e 0) as [-> | Ne].
  - change (0 * 2 ^ 52) with 0 in *. destruct (Z.eqb_spec f 0); [lia |]. cbn [andb]. change (0 =? 0) with true. cbv iota.
    pose proof (Z.log2_spec f ltac:(lia)) as [L1 L2]. pose proof (Z.log2_nonneg f) as L0. assert (H52 : Z.log2 f < 52) by (apply Z.log2_lt_pow2; lia).
    rewrite <- Z.add_1_r in L2. rewrite normalize_denormal_eq by lia. cbv zeta. set (k := 52 - Z.log2 f) in *.
    assert (Rg : 2 ^ 52 <= f * 2 ^ k < 2 * 2 ^ 52).
    { replace (2 * 2 ^ 52) with (2 ^ (Z.log2 f + 1) * 2 ^ k) by (rewrite <- Z.pow_add_r by lia; change (2 * 2 ^ 52) with (2 ^ 53); f_equal; lia).
      replace (2 ^ 52) with (2 ^ Z.log2 f * 2 ^ k) by (rewrite <- Z.pow_add_r by lia; f_equal; lia). pose proof (pow2_pos k ltac:(lia)). nia. }
    replace (0 - k * MANTISSA + MANTISSA) with ((1 - k) * 2 ^ 52) by (change MANTISSA with (2 ^ 52); lia).
    change (MANTISSA - 1) with (Z.ones 52). rewrite Z.land_ones by lia. replace ((f * 2 ^ k) mod 2 ^ 52) with (f * 2 ^ k - 2 ^ 52) by (Z.to_euclidean_division_equations; lia).
    apply Finish; [lia | unfold inu; lia].
  - destruct (Z.eqb_spec (e * 2 ^ 52) 0); [lia |]. rewrite andb_false_r. apply Finish; unfold inu; lia.
Qed.

Lemma square_root_accurate v x :
  inu 64 x -> finite x = true -> negative x = false -> is_zero x = false ->
  let r := ApproximateReciprocalSquareRoot v x in
  finite r = true /\ negative r = false /\ Z.abs (double_value r * double_value r * double_value x - 2 ^ 3222) * 2048 <= 2 ^ 3222.
Proof.
  intros Hx Fx Nx Zx. destruct (double_split x Hx) as (s & e & f & Hs & He & Hf & Ex). destruct (double_parts s e f Hs He Hf) as (_ & P1 & _ & P2).
  destruct (double_fields s e f Hs He Hf) as (_ & _ & D & _). rewrite <- Ex in P1, P2, D. unfold finite in Fx. rewrite P1 in Fx. unfold is_zero in Zx. rewrite D in Zx.
  assert (s = 0) as ->.
  { unfold negative in Nx. pose proof (testbit_top 64 x ltac:(lia) Hx) as Tx. change (64 - 1) with 63 in Tx. rewrite Tx, Ex in Nx. unfold inu in *. apply Z.leb_gt in Nx. lia. }
  apply negb_true_iff, Z.eqb_neq in Fx. apply Z.eqb_neq in Zx. rewrite Z.mul_0_l, Z.add_0_l in Ex. intros r. subst r. rewrite Ex at 1 2 3 4.
  rewrite (frsqrte_eq v e f He ltac:(unfold inu in He; lia) Hf Zx). rewrite P2. change (1 - 2 * 0) with 1. rewrite Z.mul_1_l. unfold inu in *.
  destruct (Z.eqb_spec e 0) as [-> | Ne].
  - pose proof (Z.log2_spec f ltac:(lia)) as [L1 L2]. pose proof (Z.log2_nonneg f) as L0. assert (H52 : Z.log2 f < 52) by (apply Z.log2_lt_pow2; lia).
    rewrite <- Z.add_1_r in L2. cbv zeta. set (k := 52 - Z.log2 f) in *.
    assert (Rg : 2 ^ 52 <= f * 2 ^ k < 2 * 2 ^ 52).
    { replace (2 * 2 ^ 52) with (2 ^ (Z.log2 f + 1) * 2 ^ k) by (rewrite <- Z.pow_add_r by lia; change (2 * 2 ^ 52) with (2 ^ 53); f_equal; lia).
      replace (2 ^ 52) with (2 ^ Z.log2 f * 2 ^ k) by (rewrite <- Z.pow_add_r by lia; f_equal; lia). pose proof (pow2_pos k ltac:(lia)). nia. }
    apply frsqrte_normal_accurate; [lia | unfold inu; lia |]. replace (2 ^ 52 + (f * 2 ^ k - 2 ^ 52)) with (f * 2 ^ k) by lia.
    rewrite <- Z.mul_assoc, <- Z.pow_add_r by lia. do 2 f_equal. lia.
  - apply frsqrte_normal_accurate; [lia | unfold inu; lia |]. rewrite <- Z.mul_assoc, <- Z.pow_add_r by lia. do 2 f_equal. lia.
Qed.

(** C31: The estimates are good. For every operand in the range of the table the
    product of [fres]'s estimate and the operand is one to within a part in
    4096, with the operand's sign; beyond the range the estimate is the greatest
    float or zero. For every positive finite operand of [frsqrte], subnormal
    ones included, the square of the estimate times the operand is one to
    within a part in 2048. *)
Theorem estimates_accurate v x :
  inu 64 x -> finite x = true -> is_zero x = false ->
  let r := ApproximateReciprocal v x in
  let q := ApproximateReciprocalSquareRoot v x in
  (895 <= double_exp x <= 1148 ->
     finite r = true /\ negative r = negative x /\ Z.abs (double_value r * double_value x - 2 ^ 2148) * 4096 <= 2 ^ 2148) /\
  (double_exp x < 895 -> r = copysign FLOAT_MAX x) /\
  (1149 <= double_exp x -> r = copysign 0 x) /\
  (negative x = false ->
     finite q = true /\ negative q = false /\ Z.abs (double_value q * double_value q * double_value x - 2 ^ 3222) * 2048 <= 2 ^ 3222).
Proof.
  intros Hx Fx Zx r q. split; [intros He; exact (reciprocal_accurate v x Hx He) |].
  assert (B : double_exp x < 895 \/ 1149 <= double_exp x -> r = if double_exp x <? 895 then copysign FLOAT_MAX x else copysign 0 x).
  { intros Hb. destruct (double_split x Hx) as (s & e & f & Hs & He & Hf & Ex). destruct (double_parts s e f Hs He Hf) as (_ & P1 & _ & _).
    destruct (double_fields s e f Hs He Hf) as (_ & _ & D & _). destruct (operand_fields s e f Hs He Hf) as (F1 & F2 & F3). rewrite <- Ex in P1, D, F1, F2, F3.
    unfold finite in Fx. rewrite P1 in *. unfold is_zero in Zx. rewrite D in Zx. apply negb_true_iff, Z.eqb_neq in Fx. apply Z.eqb_neq in Zx. unfold inu in *.
    subst r. unfold ApproximateReciprocal. rewrite F1, F3, !Z.shiftl_mul_pow2 by lia.
    destruct (Z.eqb_spec f 0), (Z.eqb_spec (e * 2 ^ 52) 0); try lia; cbn [andb];
      (destruct (Z.eqb_spec (e * 2 ^ 52) (0x7FF * 2 ^ 52)); [lia |]);
      destruct (Z.ltb_spec (e * 2 ^ 52) (895 * 2 ^ 52)), (Z.ltb_spec e 895), (Z.leb_spec (1149 * 2 ^ 52) (e * 2 ^ 52)); lia || done. }
  split_and!.
  - intros He. rewrite B by auto. destruct (Z.ltb_spec (double_exp x) 895); [done | lia].
  - intros He. rewrite B by auto. destruct (Z.ltb_spec (double_exp x) 895); [lia | done].
  - intros Nx. exact (square_root_accurate v x Hx Fx Nx Zx).
Qed.

(** The reciprocal of 3, and the root of the least double. *)
Lemma estimates_accurate_witness :
  Z.abs (double_value (ApproximateReciprocal (mk_env Nearest true) 0x4008000000000000) * double_value 0x4008000000000000 - 2 ^ 2148) * 4096 <= 2 ^ 2148 /\
  finite (ApproximateReciprocalSquareRoot (mk_env Nearest true) 1) = true.
Proof.
  split.
  - destruct (estimates_accurate (mk_env Nearest true) 0x4008000000000000) as (R & _); [unfold inu; lia | vm_compute; reflexivity .. |]. apply R. vm_compute. split; intros; discriminate.
  - destruct (estimates_accurate (mk_env Nearest true) 1) as (_ & _ & _ & Q); [unfold inu; lia | vm_compute; reflexivity .. |]. apply Q. vm_compute. reflexivity.
Defined.
