(* ===== verification/PpcBat.v ===== *)
(** Block address translation ([Core/PowerPC/MMU.cpp], [MMU.h]): the tables
    that [DBATUpdated] and [IBATUpdated] compute from the BAT registers, one
    entry for each 128 KB of the address space, and the lookup.

    The theorem says that the table is the search of the registers it was
    computed from, and that the bit which lets a JIT access memory without
    checks is set only for blocks of memory. *)

From S2P Require Import Prelude Memmap PpcState.
Open Scope Z_scope.

(** ** Registers *)

Definition BAT_INDEX_SHIFT : Z := 17.
Definition BAT_PAGE_SIZE : Z := 1 .<< BAT_INDEX_SHIFT.
Definition BAT_MAPPED_BIT : Z := 0x1.
Definition BAT_PHYSICAL_BIT : Z := 0x2.
Definition BAT_RESULT_MASK : Z := u32 (.~ 0x3).

Definition VP (batu : Z) : Z := field 0 1 batu.
Definition VS (batu : Z) : Z := field 1 1 batu.
Definition BL (batu : Z) : Z := field 2 11 batu.
Definition BEPI (batu : Z) : Z := field 17 15 batu.
Definition BRPN (batl : Z) : Z := field 17 15 batl.

Definition SPR_IBAT0U : Z := 528.
Definition SPR_DBAT0U : Z := 536.
Definition SPR_IBAT4U : Z := 560.
Definition SPR_DBAT4U : Z := 568.
Definition SPR_HID4 : Z := 1011.
Definition HID4_SBE : Z := 25.

(** ** Tables: 2^15 entries, zero where nothing is mapped *)

Abbreviation BatTable := (gmap Z Z).

(** The translated address, or [None] for [false]. *)
Definition TranslateBatAddess (bat_table : BatTable) (address : Z) : option Z :=
  let bat_result := mget bat_table (address .>> BAT_INDEX_SHIFT) in
  if (bat_result .& BAT_MAPPED_BIT) =? 0 then None
  else Some ((bat_result .& BAT_RESULT_MASK) .| (address .& (BAT_PAGE_SIZE - 1))).

(** Whether a physical address is in memory: the end of [IsRAMAddress]. *)
Definition is_ram (m : Memmap) (address : Z) : bool :=
  let segment := address .>> 28 in
  if (segment =? 0x0) && ((address .& 0x0FFFFFFF) <? REALRAM_SIZE) then true
  else if bool_decide (is_Some (m_pEXRAM m)) && (segment =? 0x1) && ((address .& 0x0FFFFFFF) <? EXRAM_SIZE) then true
  else if bool_decide (is_Some (m_pFakeVMEM m)) && ((address .& 0xFE000000) =? 0x7E000000) then true
  else (segment =? 0xE) && (address <? 0xE0000000 + L1_CACHE_SIZE).

Section Update.
(** [HasAny] and [OverlapsMemcheck] of the debugger's list of memory checks,
    and the configuration's [bWii]. *)
Variable HasAny : bool.
Variable OverlapsMemcheck : Z -> Z -> bool.
Variable bWii : bool.

(** The flags of an entry. *)
Definition valid_bits (m : Memmap) (physical_address virtual_address : Z) : Z :=
  let valid_bit := BAT_MAPPED_BIT in
  let valid_bit :=
    if bool_decide (is_Some (m_pFakeVMEM m)) && ((physical_address .& 0xFE000000) =? 0x7E000000)
    then valid_bit .| BAT_PHYSICAL_BIT
    else if physical_address <? REALRAM_SIZE then valid_bit .| BAT_PHYSICAL_BIT
    else if bool_decide (is_Some (m_pEXRAM m)) && (physical_address .>> 28 =? 0x1) &&
            ((physical_address .& 0x0FFFFFFF) <? EXRAM_SIZE)
    then valid_bit .| BAT_PHYSICAL_BIT
    else if (physical_address .>> 28 =? 0xE) && (physical_address <? 0xE0000000 + L1_CACHE_SIZE)
    then valid_bit .| BAT_PHYSICAL_BIT
    else valid_bit in
  if OverlapsMemcheck virtual_address BAT_PAGE_SIZE then valid_bit .& .~ BAT_PHYSICAL_BIT else valid_bit.

(** The body of the loop over [j]. *)
Definition map_block (m : Memmap) (batu batl : Z) (bat_table : BatTable) (j : Z) : BatTable :=
  if (j .& BL batu) =? j then
    let physical_address := u32 ((BRPN batl .| j) .<< BAT_INDEX_SHIFT) in
    let virtual_address := u32 ((BEPI batu .| j) .<< BAT_INDEX_SHIFT) in
    mset bat_table (virtual_address .>> BAT_INDEX_SHIFT) (physical_address .| valid_bits m physical_address virtual_address)
  else bat_table.

(** The body of the loop over the registers. *)
Definition UpdateBAT (m : Memmap) (bat_table : BatTable) (batu batl : Z) : BatTable :=
  if (VS batu =? 0) && (VP batu =? 0) then bat_table
  else if negb ((BEPI batu .& BL batu) =? 0) then bat_table
  else fold_left (map_block m batu batl) (upto (Z.to_nat (BL batu + 1))) bat_table.

Definition UpdateBATs (m : Memmap) (s : PowerPCState) (bat_table : BatTable) (base_spr : Z) : BatTable :=
  fold_left (fun t i => UpdateBAT m t (rSPR s (base_spr + i * 2)) (rSPR s (base_spr + i * 2 + 1))) (upto 4) bat_table.

Definition UpdateFakeMMUBat (bat_table : BatTable) (start_addr : Z) : BatTable :=
  fold_left (fun t i =>
    let e_address := i + (start_addr .>> BAT_INDEX_SHIFT) in
    let p_address := 0x7E000000 .| (u32 (i .<< BAT_INDEX_SHIFT) .& (FAKEVMEM_SIZE - 1)) in
    let flags := BAT_MAPPED_BIT .| BAT_PHYSICAL_BIT in
    let flags := if OverlapsMemcheck (u32 (e_address .<< BAT_INDEX_SHIFT)) BAT_PAGE_SIZE then flags .& .~ BAT_PHYSICAL_BIT else flags in
    mset t e_address (p_address .| flags)) (upto 2048) bat_table.

(** Both updates, for the first register of the four and of the four more the
    Wii has. *)
Definition BATUpdated (base_spr extended_spr : Z) (m : Memmap) (s : PowerPCState) : BatTable :=
  let bat_table := UpdateBATs m s ∅ base_spr in
  let extended_bats := bWii && Z.testbit (rSPR s SPR_HID4) HID4_SBE in
  let bat_table := if extended_bats then UpdateBATs m s bat_table extended_spr else bat_table in
  if bool_decide (is_Some (m_pFakeVMEM m))
  then UpdateFakeMMUBat (UpdateFakeMMUBat bat_table 0x40000000) 0x70000000 else bat_table.

Definition DBATUpdated : Memmap -> PowerPCState -> BatTable := BATUpdated SPR_DBAT0U SPR_DBAT4U.
Definition IBATUpdated : Memmap -> PowerPCState -> BatTable := BATUpdated SPR_IBAT0U SPR_IBAT4U.

Definition IsOptimizableRAMAddress (s : PowerPCState) (dbat_table : BatTable) (address : Z) : bool :=
  if HasAny then false
  else if negb (Z.testbit (msr s) MSR_DR) then false
  else flag (mget dbat_table (address .>> BAT_INDEX_SHIFT)) BAT_PHYSICAL_BIT.

(** [MMIO::IsMMIOAddress] *)
Definition IsMMIOAddress (address : Z) : bool :=
  if address =? 0x0C008000 then false
  else if (address .& 0xFFFF0000) =? 0x0C000000 then true
  else if bWii then ((address .& 0xFFFF0000) =? 0x0D000000) || ((address .& 0xFFFF0000) =? 0x0D800000)
  else false.

Definition IsOptimizableMMIOAccess (s : PowerPCState) (dbat_table : BatTable) (address access_size : Z) : Z :=
  if HasAny then 0
  else if negb (Z.testbit (msr s) MSR_DR) then 0
  else match TranslateBatAddess dbat_table address with
       | None => 0
       | Some address =>
         let aligned := (address .& u32 ((access_size .>> 3) - 1)) =? 0 in
         if negb aligned || negb (IsMMIOAddress address) then 0 else address
       end.

Definition IsOptimizableGatherPipeWrite (s : PowerPCState) (dbat_table : BatTable) (address : Z) : bool :=
  if HasAny then false
  else if negb (Z.testbit (msr s) MSR_DR) then false
  else match TranslateBatAddess dbat_table address with
       | None => false
       | Some address => address =? 0x0C008000
       end.

(** ** The search of the registers *)


(** The registers in the order in which they are entered. *)
Definition registers (base_spr extended_spr : Z) (s : PowerPCState) : list (Z * Z) :=
  let four base := (fun i => (rSPR s (base + i * 2), rSPR s (base + i * 2 + 1))) <$> upto 4 in
  if bWii && Z.testbit (rSPR s SPR_HID4) HID4_SBE then four base_spr ++ four extended_spr else four base_spr.

(** A pair of registers covers an address when the bits outside its mask agree. *)
Definition covers (ea : Z) (bat : Z * Z) : bool :=
  negb ((VS bat.1 =? 0) && (VP bat.1 =? 0)) && ((BEPI bat.1 .& BL bat.1) =? 0) &&
  (((ea .>> 17) .& .~ (BL bat.1)) =? BEPI bat.1).

(** The bits in the mask replace those of the physical block. *)
Definition translated (ea : Z) (bat : Z * Z) : Z :=
  ((BRPN bat.2 .| ((ea .>> 17) .& BL bat.1)) .<< 17) .| (ea .& 0x1ffff).

(** The last pair that covers the address; in fake-VMEM mode two segments
    always go to the fake memory. *)
Definition search (base_spr extended_spr : Z) (m : Memmap) (s : PowerPCState) (ea : Z) : option Z :=
  if bool_decide (is_Some (m_pFakeVMEM m)) && ((ea .>> 28 =? 4) || (ea .>> 28 =? 7))
  then Some (0x7E000000 .| (ea .& 0x1ffffff))
  else translated ea <$> last (filter (fun b => covers ea b = true) (registers base_spr extended_spr s)).
(** ** One pair of registers *)

(** An index is its bits outside and inside a mask. *)
Lemma mask_split k b j l :
  b .& l = 0 -> j .& l = j -> (k = b .| j <-> k .& .~ l = b /\ k .& l = j).
Proof.
  intros Hb Hj. split.
  - intros ->. split; apply Z.bits_inj'; intros i Hi;
      apply (f_equal (fun x => Z.testbit x i)) in Hb, Hj; rewrite Z.land_spec in Hb, Hj; rewrite Z.testbit_0_l in Hb;
      rewrite ?Z.land_spec, ?Z.lor_spec, ?Z.lnot_spec by done;
      destruct (Z.testbit b i), (Z.testbit j i), (Z.testbit l i); cbn in *; congruence.
  - intros [<- <-]. apply Z.bits_inj'. intros i Hi. rewrite Z.lor_spec, !Z.land_spec, Z.lnot_spec by done.
    destruct (Z.testbit k i), (Z.testbit l i); reflexivity.
Qed.

Lemma land_le a b : 0 <= b -> 0 <= a .& b <= b.
Proof. intros. split; [apply Z.land_nonneg; auto | apply land_le_r; done]. Qed.

(** The entry of the block [j]. *)
Definition entry (m : Memmap) (batu batl j : Z) : Z :=
  let physical_address := (BRPN batl .| j) .<< 17 in
  physical_address .| valid_bits m physical_address ((BEPI batu .| j) .<< 17).

Lemma shift_17 x : inu 15 x -> u32 (x .<< BAT_INDEX_SHIFT) = x .<< 17.
Proof.
  intros Hx. apply wrapu_id. unfold inu, BAT_INDEX_SHIFT in *. rewrite Z.shiftl_mul_pow2 by lia. lia.
Qed.

Lemma shift_back x : (x .<< 17) .>> 17 = x.
Proof. rewrite Z.shiftr_shiftl_l by lia. apply Z.shiftl_0_r. Qed.

Lemma map_block_spec m u l t j :
  0 <= j <= BL u ->
  map_block m u l t j = if j .& BL u =? j then mset t (BEPI u .| j) (entry m u l j) else t.
Proof.
  intros Hj. unfold map_block. destruct (_ =? j); [| done].
  pose proof (field_range 2 11 u ltac:(lia)) as Hb. fold (BL u) in Hb.
  assert (Hj15 : inu 15 j) by (unfold inu in *; lia).
  rewrite !shift_17 by (apply inu_lor; [lia | apply (field_range 17 15); lia | done]).
  unfold BAT_INDEX_SHIFT. rewrite shift_back. done.
Qed.

Lemma upto_S n : upto (S n) = upto n ++ [Z.of_nat n].
Proof. unfold upto. rewrite seq_S, fmap_app. done. Qed.

Lemma map_blocks m u l t n k :
  BEPI u .& BL u = 0 -> Z.of_nat n <= BL u + 1 ->
  mget (fold_left (map_block m u l) (upto n) t) k =
    if (k .& .~ (BL u) =? BEPI u) && (k .& BL u <? Z.of_nat n) then entry m u l (k .& BL u) else mget t k.
Proof.
  intros Hb. pose proof (field_range 2 11 u ltac:(lia)) as Hl. fold (BL u) in Hl. unfold inu in Hl.
  pose proof (land_le k (BL u) ltac:(lia)) as Hk. induction n as [| n IH]; intros Hn.
  - destruct (Z.ltb_spec (k .& BL u) (Z.of_nat 0)); [lia |]. rewrite andb_false_r. done.
  - rewrite upto_S, fold_left_app. cbn [fold_left]. rewrite map_block_spec by lia. specialize (IH ltac:(lia)).
    replace (Z.of_nat (S n)) with (Z.of_nat n + 1) by lia.
    destruct (Z.eqb_spec (Z.of_nat n .& BL u) (Z.of_nat n)) as [E | N].
    + pose proof (mask_split k (BEPI u) (Z.of_nat n) (BL u) Hb E) as M.
      destruct (decide (k = BEPI u .| Z.of_nat n)) as [-> | Nk].
      * destruct (proj1 M eq_refl) as [-> ->]. rewrite mget_mset_same, Z.eqb_refl.
        destruct (Z.ltb_spec (Z.of_nat n) (Z.of_nat n + 1)); [done | lia].
      * rewrite mget_mset_other, IH by congruence. destruct (Z.eqb_spec (k .& .~ (BL u)) (BEPI u)) as [Eb |]; [| done].
        cbn [andb]. destruct (Z.ltb_spec (k .& BL u) (Z.of_nat n)), (Z.ltb_spec (k .& BL u) (Z.of_nat n + 1)); try done; [lia |].
        exfalso. apply Nk, M. split; [done | lia].
    + rewrite IH. assert (k .& BL u <> Z.of_nat n).
      { intros E. apply N. rewrite <- E, <- Z.land_assoc, Z.land_diag. done. }
      destruct (Z.ltb_spec (k .& BL u) (Z.of_nat n)), (Z.ltb_spec (k .& BL u) (Z.of_nat n + 1)); (done || lia).
Qed.

Lemma valid_bits_cases m p v : valid_bits m p v = 1 \/ valid_bits m p v = 3.
Proof.
  unfold valid_bits, BAT_MAPPED_BIT, BAT_PHYSICAL_BIT. cbv zeta.
  repeat match goal with |- context [if ?b then _ else _] => destruct b end; auto.
Qed.

(** The address of an entry, without its flags. *)
Lemma entry_address q f : f = 1 \/ f = 3 -> inu 15 q ->
  ((q .<< 17) .| f) .& BAT_MAPPED_BIT <> 0 /\ ((q .<< 17) .| f) .& BAT_RESULT_MASK = q .<< 17.
Proof.
  intros Hf Hq. assert (Hf' : 0 <= f < 2 ^ 17) by lia. split.
  - intros E. apply (f_equal (fun x => Z.testbit x 0)) in E. change BAT_MAPPED_BIT with (2 ^ 0) in E.
    rewrite Z.land_spec, Z.lor_spec, Z.pow2_bits_true, Z.testbit_0_l, testbit_shiftl', Z.testbit_neg_r in E by lia.
    destruct Hf as [-> | ->]; cbn in E; congruence.
  - apply Z.bits_inj'. intros i Hi. unfold BAT_RESULT_MASK.
    rewrite Z.land_spec, Z.lor_spec, testbit_shiftl', testbit_wrapu, Z.lnot_spec by lia.
    destruct (Z.leb_spec 0 i); [| lia]. cbn [andb]. destruct (Z.ltb_spec i 17).
    + rewrite (Z.testbit_neg_r q) by lia. cbn [orb]. destruct (Z.ltb_spec i 32); [| lia].
      assert (i = 0 \/ i = 1 \/ 2 <= i) as [-> | [-> | L]] by lia; [apply andb_false_r | apply andb_false_r |].
      rewrite (testbit_inu_high 2 f) by (unfold inu; lia). done.
    + rewrite (testbit_inu_high 17 f) by (done || lia). rewrite orb_false_r.
      destruct (Z.ltb_spec i 32).
      * assert (Z.testbit 3 i = false) as -> by (apply (testbit_inu_high 2); unfold inu; lia). apply andb_true_r.
      * rewrite (testbit_inu_high 15 q) by (done || lia). done.
Qed.

Lemma lookup_UpdateBAT m t b ea :
  0 <= ea ->
  mget (UpdateBAT m t b.1 b.2) (ea .>> 17) =
    if covers ea b then entry m b.1 b.2 ((ea .>> 17) .& BL b.1) else mget t (ea .>> 17).
Proof.
  intros Hea. unfold UpdateBAT, covers. destruct (_ && _); [done |]. cbn [negb andb].
  destruct (Z.eqb_spec (BEPI b.1 .& BL b.1) 0) as [E | N]; [| done]. cbn [negb andb].
  pose proof (field_range 2 11 b.1 ltac:(lia)) as Hl. fold (BL b.1) in Hl. unfold inu in Hl.
  rewrite map_blocks by (done || lia). rewrite Z2Nat.id by lia.
  pose proof (land_le (ea .>> 17) (BL b.1) ltac:(lia)). destruct (Z.ltb_spec ((ea .>> 17) .& BL b.1) (BL b.1 + 1)); [| lia].
  rewrite andb_true_r. done.
Qed.

(** ** All registers *)

Lemma lookup_registers m l t ea :
  0 <= ea ->
  mget (fold_left (fun t b => UpdateBAT m t b.1 b.2) l t) (ea .>> 17) =
    match last (filter (fun b => covers ea b = true) l) with
    | Some b => entry m b.1 b.2 ((ea .>> 17) .& BL b.1)
    | None => mget t (ea .>> 17)
    end.
Proof.
  intros Hea. induction l as [| b l IH] using rev_ind; [done |].
  rewrite fold_left_app, filter_app. cbn [fold_left]. rewrite lookup_UpdateBAT by done. destruct (covers ea b) eqn:E.
  - rewrite (filter_cons_True _ b []) by done. change (filter _ []) with (@nil (Z * Z)). rewrite last_snoc. done.
  - rewrite (filter_cons_False _ b []) by congruence. change (filter _ []) with (@nil (Z * Z)). rewrite app_nil_r. exact IH.
Qed.

Lemma UpdateBATs_registers m s t base :
  UpdateBATs m s t base =
    fold_left (fun t b => UpdateBAT m t b.1 b.2) ((fun i => (rSPR s (base + i * 2), rSPR s (base + i * 2 + 1))) <$> upto 4) t.
Proof. reflexivity. Qed.
Lemma BATUpdated_registers base ext m s :
  BATUpdated base ext m s =
    let t := fold_left (fun t b => UpdateBAT m t b.1 b.2) (registers base ext s) ∅ in
    if bool_decide (is_Some (m_pFakeVMEM m)) then UpdateFakeMMUBat (UpdateFakeMMUBat t 0x40000000) 0x70000000 else t.
Proof.
  unfold BATUpdated, registers. destruct (_ && _); rewrite !UpdateBATs_registers; [rewrite fold_left_app |]; reflexivity.
Qed.

(** An entry of the fake memory, from the number of the block. *)
Definition fake_entry (start i : Z) : Z :=
  let flags := if OverlapsMemcheck (u32 ((i + start) .<< 17)) BAT_PAGE_SIZE then 1 else 3 in
  (0x7E000000 .| (u32 (i .<< 17) .& 0x1ffffff)) .| flags.

Lemma lookup_fake t start n k :
  mget (fold_left (fun t i => mset t (i + start) (fake_entry start i)) (upto n) t) k =
    if (start <=? k) && (k <? start + Z.of_nat n) then fake_entry start (k - start) else mget t k.
Proof.
  induction n as [| n IH].
  - replace (_ && _) with false; [done |]. destruct (Z.leb_spec start k), (Z.ltb_spec k (start + Z.of_nat 0)); (done || lia).
  - rewrite upto_S, fold_left_app. cbn [fold_left]. destruct (decide (k = Z.of_nat n + start)) as [-> | N].
    + rewrite mget_mset_same. destruct (Z.leb_spec start (Z.of_nat n + start)), (Z.ltb_spec (Z.of_nat n + start) (start + Z.of_nat (S n))); try lia.
      cbn [andb]. f_equal. lia.
    + rewrite mget_mset_other, IH by congruence.
      destruct (Z.leb_spec start k), (Z.ltb_spec k (start + Z.of_nat n)), (Z.ltb_spec k (start + Z.of_nat (S n))); (done || lia).
Qed.

Lemma UpdateFakeMMUBat_eq t start_addr :
  UpdateFakeMMUBat t start_addr =
    fold_left (fun t i => mset t (i + (start_addr .>> 17)) (fake_entry (start_addr .>> 17) i)) (upto 2048) t.
Proof.
  unfold UpdateFakeMMUBat. generalize (upto 2048). intros l. revert t. induction l as [| i l IH]; intros t; [done |].
  cbn [fold_left]. etransitivity; [apply IH |]. f_equal.
Qed.

(** The fake memory's entries lead to the last 25 bits of an address. *)
Lemma fake_entry_address start ea :
  0 <= ea < 2 ^ 32 -> start mod 256 = 0 -> start <= ea .>> 17 < start + 2048 ->
  let e := fake_entry start ((ea .>> 17) - start) in
  e .& BAT_MAPPED_BIT <> 0 /\
  (e .& BAT_RESULT_MASK) .| (ea .& 0x1ffff) = 0x7E000000 .| (ea .& 0x1ffffff).
Proof.
  intros Hea Hs Hr. cbv zeta. set (i := (ea .>> 17) - start) in *.
  assert (Ei : u32 (i .<< 17) = i .<< 17).
  { apply wrapu_id. unfold inu. rewrite Z.shiftl_mul_pow2 by lia. lia. }
  set (f := if OverlapsMemcheck (u32 ((i + start) .<< 17)) BAT_PAGE_SIZE then 1 else 3).
  assert (Hf : f = 1 \/ f = 3) by (subst f; destruct (OverlapsMemcheck _ _); auto).
  set (q := 0x3F00 .| (i .& 0xff)).
  assert (Eq : 0x7E000000 .| (u32 (i .<< 17) .& 0x1ffffff) = q .<< 17).
  { rewrite Ei. subst q. rewrite Z.shiftl_lor. f_equal. change 0x1ffffff with (Z.ones 25). change 0xff with (Z.ones 8).
    apply Z.bits_inj'. intros n Hn. rewrite Z.land_spec, !testbit_shiftl', Z.land_spec, !Z.testbit_ones by lia.
    destruct (Z.leb_spec 0 n), (Z.ltb_spec n 25), (Z.leb_spec 0 (n - 17)), (Z.ltb_spec (n - 17) 8); try lia; cbn; try done.
    rewrite (Z.testbit_neg_r i) by lia. done. }
  assert (Hq : inu 15 q).
  { apply inu_lor; [lia | unfold inu; lia |]. pose proof (land_le i 0xff ltac:(lia)). unfold inu. lia. }
  assert (Ee : fake_entry start i = (q .<< 17) .| f) by (unfold fake_entry; cbv zeta; rewrite Eq; done).
  rewrite Ee. destruct (entry_address q f Hf Hq) as [H1 ->]. split; [done |].
  assert (Em : i .& 0xff = (ea .>> 17) .& 0xff).
  { change 0xff with (Z.ones 8). rewrite !Z.land_ones by lia. subst i. change (2 ^ 8) with 256.
    Z.to_euclidean_division_equations. lia. }
  subst q. rewrite Em, Z.shiftl_lor. change (0x3F00 .<< 17) with 0x7E000000. rewrite <- Z.lor_assoc. f_equal.
  change 0x1ffffff with (Z.ones 25). change 0xff with (Z.ones 8). change 0x1ffff with (Z.ones 17).
  apply Z.bits_inj'. intros n Hn.
  rewrite Z.lor_spec, testbit_shiftl', !Z.land_spec, testbit_shiftr', !Z.testbit_ones by lia.
  destruct (Z.leb_spec 0 n), (Z.ltb_spec n 25), (Z.leb_spec 0 (n - 17)), (Z.ltb_spec (n - 17) 8), (Z.ltb_spec n 17); try lia; cbn [andb];
    rewrite ?andb_true_r, ?andb_false_r, ?orb_false_r, ?orb_true_r; try done.
  f_equal. lia.
Qed.

Lemma segment_blocks ea g : 0 <= ea -> (ea .>> 28 =? g) = (g * 2048 <=? ea .>> 17) && (ea .>> 17 <? g * 2048 + 2048).
Proof.
  intros Hea. rewrite !Z.shiftr_div_pow2 by lia.
  destruct (Z.eqb_spec (ea / 2 ^ 28) g), (Z.leb_spec (g * 2048) (ea / 2 ^ 17)), (Z.ltb_spec (ea / 2 ^ 17) (g * 2048 + 2048)); try done;
    exfalso; Z.to_euclidean_division_equations; lia.
Qed.
(** The block [q] and every address in it are memory. *)
Lemma physical_block m q v ea :
  inu 15 q -> valid_bits m (q .<< 17) v = 3 -> is_ram m ((q .<< 17) .| (ea .& 0x1ffff)) = true.
Proof.
  intros Hq H. change 0x1ffff with (Z.ones 17). rewrite Z.land_ones by lia.
  pose proof (Z.mod_pos_bound ea (2 ^ 17) ltac:(lia)) as Hr. set (r := ea mod 2 ^ 17) in *. clearbody r.
  rewrite lor_shift_add by lia. unfold inu in Hq.
  unfold is_ram, valid_bits, BAT_MAPPED_BIT, BAT_PHYSICAL_BIT in *. cbv zeta in *.
  assert (L : forall x, x .& 0x0FFFFFFF = x mod 2 ^ 28) by (intros; change 0x0FFFFFFF with (Z.ones 28); apply Z.land_ones; lia).
  assert (F : forall x, 0 <= x < 2 ^ 32 -> (x .& 0xFE000000 =? 0x7E000000) = (x / 2 ^ 25 =? 63)).
  { intros x Hx. assert (E : x .& 0xFE000000 = (x / 2 ^ 25) * 2 ^ 25).
    { rewrite <- Z.shiftr_div_pow2, <- Z.shiftl_mul_pow2 by lia. apply Z.bits_inj'. intros i Hi.
      rewrite Z.land_spec, testbit_shiftl', testbit_shiftr'. change 0xFE000000 with (Z.ones 7 .<< 25).
      rewrite testbit_shiftl', Z.testbit_ones by lia.
      destruct (Z.leb_spec 0 i), (Z.leb_spec 0 (i - 25)), (Z.ltb_spec (i - 25) 7); try lia; cbn [andb]; rewrite ?andb_false_r, ?andb_true_r; try done.
      - f_equal. lia.
      - rewrite (testbit_inu_high 32 x) by (unfold inu; lia). done. }
    rewrite E. destruct (Z.eqb_spec (x / 2 ^ 25 * 2 ^ 25) 0x7E000000), (Z.eqb_spec (x / 2 ^ 25) 63); (done || lia). }
  rewrite !L, !Z.shiftr_div_pow2, F in * by lia. rewrite Z.shiftl_mul_pow2, F in H by lia. unfold REALRAM_SIZE, EXRAM_SIZE, L1_CACHE_SIZE in *.
  set (seg := q / 2048). set (o := q mod 2048). assert (Eq : q = 2048 * seg + o) by (subst seg o; Z.to_euclidean_division_equations; lia).
  assert (Ho : 0 <= o < 2048) by (apply Z.mod_pos_bound; lia).
  assert (D1 : forall x, 0 <= x < 2 ^ 17 -> (q * 2 ^ 17 + x) / 2 ^ 28 = seg) by (intros; subst seg; Z.to_euclidean_division_equations; lia).
  assert (D2 : forall x, 0 <= x < 2 ^ 17 -> (q * 2 ^ 17 + x) / 2 ^ 25 = q / 256) by (intros; Z.to_euclidean_division_equations; lia).
  assert (D3 : forall x, 0 <= x < 2 ^ 17 -> (q * 2 ^ 17 + x) mod 2 ^ 28 = o * 2 ^ 17 + x) by (intros; subst o; Z.to_euclidean_division_equations; lia).
  rewrite D1, D2, D3 by lia. rewrite <- (Z.add_0_r (q * 2 ^ 17)), D1, D2, D3 in H by lia. clearbody seg o. clear D1 D2 D3 L F.
  destruct (OverlapsMemcheck _ _); [exfalso; revert H; repeat match goal with |- context [if ?b then _ else _] => destruct b end; discriminate |].
  destruct (q / 256 =? 63), (bool_decide (is_Some (m_pFakeVMEM m))), (bool_decide (is_Some (m_pEXRAM m))); cbn [andb] in *;
    repeat match goal with
    | H : context [?a =? ?b] |- _ => destruct (Z.eqb_spec a b)
    | H : context [?a <? ?b] |- _ => destruct (Z.ltb_spec a b)
    | |- context [?a =? ?b] => destruct (Z.eqb_spec a b)
    | |- context [?a <? ?b] => destruct (Z.ltb_spec a b)
    end; cbn [andb] in *; first [reflexivity | discriminate | exfalso; lia].
Qed.

(** An entry of the registers. *)
Lemma entry_translates m b ea :
  let e := entry m b.1 b.2 ((ea .>> 17) .& BL b.1) in
  e .& BAT_MAPPED_BIT <> 0 /\ (e .& BAT_RESULT_MASK) .| (ea .& 0x1ffff) = translated ea b /\
  (e .& BAT_PHYSICAL_BIT <> 0 -> is_ram m (translated ea b) = true).
Proof.
  cbv zeta. unfold entry, translated. cbv zeta. set (q := BRPN b.2 .| _). set (v := (BEPI b.1 .| _) .<< 17).
  pose proof (field_range 2 11 b.1 ltac:(lia)) as Hb. fold (BL b.1) in Hb. unfold inu in Hb.
  assert (Hq : inu 15 q).
  { apply inu_lor; [lia | apply (field_range 17 15); lia |]. pose proof (land_le (ea .>> 17) (BL b.1) ltac:(lia)). unfold inu. lia. }
  pose proof (valid_bits_cases m (q .<< 17) v) as Hv.
  destruct (entry_address q _ Hv Hq) as [H1 ->]. split; [done |]. split; [done |]. intros H.
  apply physical_block with (v := v); [done |]. destruct Hv as [E | E]; [| done]. exfalso. apply H. rewrite E.
  apply Z.bits_inj'. intros i Hi. rewrite Z.testbit_0_l. change BAT_PHYSICAL_BIT with (2 ^ 1).
  rewrite Z.land_spec, Z.lor_spec, testbit_shiftl', Z.pow2_bits_eqb by lia. destruct (Z.eqb_spec 1 i) as [<- |]; [| apply andb_false_r].
  rewrite Z.testbit_neg_r by lia. reflexivity.
Qed.

(** ** The entries of a table: a block's address and two flags *)

Definition bat_ok (t : BatTable) : Prop :=
  forall k, exists q f, inu 15 q /\ 0 <= f < 4 /\ mget t k = (q .<< 17) .| f.

Lemma bat_ok_mset t k q f : bat_ok t -> inu 15 q -> 0 <= f < 4 -> bat_ok (mset t k ((q .<< 17) .| f)).
Proof.
  intros Ht Hq Hf k'. destruct (decide (k' = k)) as [-> | N].
  - exists q, f. rewrite mget_mset_same. done.
  - rewrite mget_mset_other by congruence. apply Ht.
Qed.

Lemma bat_ok_fold {A} (g : BatTable -> A -> BatTable) l t :
  (forall t x, x ∈ l -> bat_ok t -> bat_ok (g t x)) -> bat_ok t -> bat_ok (fold_left g l t).
Proof.
  revert t. induction l as [| x l IH]; intros t Hg Ht; [done |]. cbn [fold_left].
  apply IH; [intros; apply Hg; [by right | done] | apply Hg; [by left | done]].
Qed.

Lemma upto_elem n j : j ∈ upto n -> exists k, j = Z.of_nat k /\ (k < n)%nat.
Proof. intros (k & -> & Hk%elem_of_seq)%list_elem_of_fmap. exists k. split; [done | lia]. Qed.

Lemma bat_ok_UpdateBAT m t b : bat_ok t -> bat_ok (UpdateBAT m t b.1 b.2).
Proof.
  intros Ht. unfold UpdateBAT. destruct (_ && _); [done |]. destruct (negb _); [done |].
  pose proof (field_range 2 11 b.1 ltac:(lia)) as Hl. fold (BL b.1) in Hl. unfold inu in Hl.
  apply bat_ok_fold; [| done]. intros t' j Hj Ht'. apply upto_elem in Hj as (n & -> & Hn).
  rewrite map_block_spec by lia. destruct (_ =? _); [| done]. unfold entry. apply bat_ok_mset; [done | |].
  - apply inu_lor; [lia | apply (field_range 17 15); lia | unfold inu; lia].
  - destruct (valid_bits_cases m ((BRPN b.2 .| Z.of_nat n) .<< 17) ((BEPI b.1 .| Z.of_nat n) .<< 17)) as [-> | ->]; lia.
Qed.

Lemma bat_ok_fake t start_addr : bat_ok t -> bat_ok (UpdateFakeMMUBat t start_addr).
Proof.
  intros Ht. unfold UpdateFakeMMUBat. apply (bat_ok_fold (fun t i => _) (upto 2048)); [| done].
  intros t' i Hi Ht'. cbv beta zeta. apply upto_elem in Hi as (n & -> & Hn).
  set (e := Z.of_nat n + _). set (f := if OverlapsMemcheck _ _ then _ else _).
  assert (Hf : 0 <= f < 4) by (subst f; destruct (OverlapsMemcheck _ _); vm_compute; split; congruence).
  assert (E : 0x7E000000 .| (u32 (Z.of_nat n .<< BAT_INDEX_SHIFT) .& (FAKEVMEM_SIZE - 1)) = (0x3F00 .| (Z.of_nat n .& 0xff)) .<< 17).
  { unfold BAT_INDEX_SHIFT. rewrite wrapu_id by (unfold inu; rewrite Z.shiftl_mul_pow2 by lia; lia).
    rewrite Z.shiftl_lor. f_equal. change (FAKEVMEM_SIZE - 1) with (Z.ones 25). change 0xff with (Z.ones 8).
    apply Z.bits_inj'. intros i Hi. rewrite Z.land_spec, !testbit_shiftl', Z.land_spec, !Z.testbit_ones by lia.
    destruct (Z.leb_spec 0 i); [| lia]. destruct (Z.leb_spec 0 (i - 17)).
    - destruct (Z.ltb_spec i 25), (Z.ltb_spec (i - 17) 8); (done || lia).
    - rewrite (Z.testbit_neg_r (Z.of_nat n)) by lia. done. }
  rewrite E. apply bat_ok_mset; [done | | done].
  apply inu_lor; [lia | unfold inu; lia |]. pose proof (land_le (Z.of_nat n) 0xff ltac:(lia)). unfold inu. lia.
Qed.

Lemma bat_ok_empty : bat_ok ∅.
Proof.
  intros k. exists 0, 0. unfold mget. rewrite lookup_empty.
  split; [unfold inu; lia |]. split; [lia | reflexivity].
Qed.

Lemma bat_ok_BATUpdated base ext m s : bat_ok (BATUpdated base ext m s).
Proof.
  rewrite BATUpdated_registers. cbv zeta.
  assert (R : bat_ok (fold_left (fun t b => UpdateBAT m t b.1 b.2) (registers base ext s) ∅)).
  { apply bat_ok_fold; [intros; apply bat_ok_UpdateBAT; done | apply bat_ok_empty]. }
  destruct (bool_decide _); [| done]. apply bat_ok_fake, bat_ok_fake, R.
Qed.

(** An entry of the fake memory leads to it. *)
Lemma fake_is_ram m ea : is_Some (m_pFakeVMEM m) -> is_ram m (0x7E000000 .| (ea .& 0x1ffffff)) = true.
Proof.
  intros Hf. unfold is_ram. set (r := ea .& 0x1ffffff). change 0x1ffffff with (Z.ones 25) in r.
  assert (Hr : 0 <= r < 2 ^ 25) by (subst r; rewrite Z.land_ones by lia; apply Z.mod_pos_bound; lia). clearbody r.
  assert (E : 0x7E000000 .| r = 0x7E000000 + r) by (change 0x7E000000 with (0x3F .<< 25); apply lor_shift_add; lia).
  assert (Em : (0x7E000000 .| r) .& 0xFE000000 = 0x7E000000).
  { apply Z.bits_inj'. intros i Hi. rewrite Z.land_spec, Z.lor_spec. change 0x7E000000 with (Z.ones 6 .<< 25).
    change 0xFE000000 with (Z.ones 7 .<< 25). rewrite !testbit_shiftl', !Z.testbit_ones by lia.
    destruct (Z.leb_spec 0 (i - 25)); [rewrite (testbit_inu_high 25 r) by (unfold inu; lia) | cbn [andb]; rewrite !andb_false_r; reflexivity].
    destruct (Z.ltb_spec (i - 25) 6), (Z.ltb_spec (i - 25) 7), (Z.leb_spec 0 i); (reflexivity || lia). }
  rewrite Em, (bool_decide_true (is_Some (m_pFakeVMEM m))) by done.
  rewrite E, Z.shiftr_div_pow2 by lia. replace ((0x7E000000 + r) / 2 ^ 28) with 7 by (Z.to_euclidean_division_equations; lia).
  cbn [Z.eqb andb]. rewrite andb_false_r. reflexivity.
Qed.

(** The two loops over the fake segments. *)
Lemma lookup_fakes t ea :
  0 <= ea < 2 ^ 32 ->
  mget (UpdateFakeMMUBat (UpdateFakeMMUBat t 0x40000000) 0x70000000) (ea .>> 17) =
    if ea .>> 28 =? 7 then fake_entry 14336 ((ea .>> 17) - 14336)
    else if ea .>> 28 =? 4 then fake_entry 8192 ((ea .>> 17) - 8192) else mget t (ea .>> 17).
Proof.
  intros Hea. rewrite !UpdateFakeMMUBat_eq. change (0x70000000 .>> 17) with 14336. change (0x40000000 .>> 17) with 8192.
  rewrite !lookup_fake, !(segment_blocks ea) by lia. reflexivity.
Qed.

(** C17: The table computed from the BAT registers answers, for every 32-bit
    effective address, what a search of the registers answers: the last valid
    pair, the Wii's four extra ones after the others, whose block matches
    outside its mask, the bits in the mask taken from the address; in
    fake-VMEM mode the segments 4 and 7 go to the fake memory. An address that
    [IsOptimizableRAMAddress] lets a JIT access without checks is translated,
    to an address that is memory. *)
Theorem bat_tables base ext m s ea :
  inu 32 ea ->
  let t := BATUpdated base ext m s in
  TranslateBatAddess t ea = search base ext m s ea /\
  (IsOptimizableRAMAddress s t ea = true -> exists pa, TranslateBatAddess t ea = Some pa /\ is_ram m pa = true).
Proof.
  intros Hea. cbv zeta. unfold inu in Hea. unfold IsOptimizableRAMAddress, TranslateBatAddess.
  change (BAT_PAGE_SIZE - 1) with 0x1ffff. change BAT_INDEX_SHIFT with 17. rewrite BATUpdated_registers. cbv zeta.
  set (regs := fold_left _ _ _).
  assert (R : let o := translated ea <$> last (filter (fun b => covers ea b = true) (registers base ext s)) in
    (if mget regs (ea .>> 17) .& BAT_MAPPED_BIT =? 0 then None
     else Some ((mget regs (ea .>> 17) .& BAT_RESULT_MASK) .| (ea .& 0x1ffff))) = o /\
    (flag (mget regs (ea .>> 17)) BAT_PHYSICAL_BIT = true -> exists pa, o = Some pa /\ is_ram m pa = true)).
  { cbv zeta. subst regs. rewrite lookup_registers by lia. destruct (last _) as [b |]; [| split; [done |]; discriminate].
    destruct (entry_translates m b ea) as (H1 & H2 & H3). cbn [fmap option_fmap option_map].
    rewrite (proj2 (Z.eqb_neq _ _) H1), H2. split; [done |]. intros F. exists (translated ea b). split; [done |].
    apply H3. unfold flag in F. intros E. rewrite E in F. discriminate. }
  cbv zeta in R. unfold search. destruct (decide (is_Some (m_pFakeVMEM m))) as [Hf | Hf].
  - rewrite bool_decide_true by done. rewrite lookup_fakes by lia. cbn [andb].
    assert (G : forall g, g = 4 \/ g = 7 -> ea .>> 28 = g ->
      let e := fake_entry (g * 2048) ((ea .>> 17) - g * 2048) in
      e .& BAT_MAPPED_BIT <> 0 /\ (e .& BAT_RESULT_MASK) .| (ea .& 0x1ffff) = 0x7E000000 .| (ea .& 0x1ffffff)).
    { intros g Hg E. apply fake_entry_address; [lia | destruct Hg as [-> | ->]; done |].
      pose proof (segment_blocks ea g ltac:(lia)) as B. rewrite E, Z.eqb_refl in B. symmetry in B.
      apply andb_prop in B as [B1%Z.leb_le B2%Z.ltb_lt]. lia. }
    destruct (Z.eqb_spec (ea .>> 28) 7) as [E7 | N7].
    + rewrite orb_true_r. destruct (G 7 ltac:(auto) E7) as [H1 H2]. change (7 * 2048) with 14336 in H1, H2. rewrite (proj2 (Z.eqb_neq _ _) H1), H2.
      split; [done |]. intros _. eexists. split; [done | apply fake_is_ram; done].
    + rewrite orb_false_r. destruct (Z.eqb_spec (ea .>> 28) 4) as [E4 | N4].
      * destruct (G 4 ltac:(auto) E4) as [H1 H2]. change (4 * 2048) with 8192 in H1, H2. rewrite (proj2 (Z.eqb_neq _ _) H1), H2.
        split; [done |]. intros _. eexists. split; [done | apply fake_is_ram; done].
      * destruct R as [-> R2]. split; [done |]. destruct HasAny; [done |]. destruct (negb _); [done |]. exact R2.
  - rewrite bool_decide_false by done. cbn [andb]. destruct R as [-> R2]. split; [done |].
    destruct HasAny; [done |]. destruct (negb _); [done |]. exact R2.
Qed.
End Update.

(** The usual mapping of main memory at 0x80000000: the registers DBAT0. *)
Definition usual_bats : PowerPCState :=
  set_msr (1 .<< MSR_DR) (put_spr SPR_DBAT0U 0x80001fff (put_spr (SPR_DBAT0U + 1) 0x00000002 ppcState)).

Lemma bat_tables_witness :
  let t := DBATUpdated (fun _ _ => false) false (Init false true) usual_bats in
  IsOptimizableRAMAddress false usual_bats t 0x80003100 = true /\
  TranslateBatAddess t 0x80003100 = Some 0x3100 /\
  exists pa, TranslateBatAddess t 0x80003100 = Some pa /\ is_ram (Init false true) pa = true.
Proof.
  destruct (bat_tables false (fun _ _ => false) false SPR_DBAT0U SPR_DBAT4U (Init false true) usual_bats 0x80003100) as [E F];
    [vm_compute; split; congruence |].
  assert (O : IsOptimizableRAMAddress false usual_bats (DBATUpdated (fun _ _ => false) false (Init false true) usual_bats) 0x80003100 = true)
    by (vm_compute; reflexivity).
  split; [exact O |]. split; [exact (eq_trans E ltac:(vm_compute; reflexivity)) | exact (F O)].
Defined.
