(* ===== verification/PpcTlb.v ===== *)
(** Page address translation ([Core/PowerPC/MMU.cpp], [PowerPC.h]): the TLBs,
    the walk of the hashed page table in emulated memory, with its referenced
    and changed bits, and the choice between the BAT registers and the pages.

    The theorems say that the TLBs, as long as they agree with the page table,
    cannot be observed: a translation gives what a search of the page table's
    sixteen candidate entries gives, it records the access in the entry, and it
    changes the result of no other translation; and that [InvalidateTLBEntry]
    restores that agreement after the page table of a page was changed. *)

From S2P Require Import Prelude Memmap PpcCache PpcState PpcBat.
Open Scope Z_scope.

(** ** State *)

Record TLBEntry := mk_tlbe { tag : list Z; paddr : list Z; pte : list Z; recent : Z }.

Definition INVALID_TAG : Z := 0xffffffff.
Definition empty_entry : TLBEntry := mk_tlbe [INVALID_TAG; INVALID_TAG] [0; 0] [0; 0] 0.

(** [tlb[NUM_TLBS][TLB_SIZE / TLB_WAYS]]: the data TLB and the instruction TLB
    ([true]); an absent entry is as [tlb = {}] leaves it. *)
Abbreviation Tlb := (gmap (bool * Z) TLBEntry).
Definition tlb_entry (t : Tlb) (k : bool * Z) : TLBEntry := default empty_entry (t !! k).

(** What loads and stores act on: the processor, memory, the translation
    tables, the instruction cache and the devices. *)
Record Mmu (D : Type) := mk_mmu {
  cpu : PowerPCState;
  memory : Memmap;
  tlb : Tlb;
  pagetable_base : Z; pagetable_hashmask : Z;
  ibat_table : BatTable; dbat_table : BatTable;
  iCache : InstructionCache;
  devices : D
}.
Arguments mk_mmu {D}.
Arguments cpu {D}.
Arguments memory {D}.
Arguments tlb {D}.
Arguments pagetable_base {D}.
Arguments pagetable_hashmask {D}.
Arguments ibat_table {D}.
Arguments dbat_table {D}.
Arguments iCache {D}.
Arguments devices {D}.

Section Setters.
Context {D : Type}.
Implicit Types m : Mmu D.

Definition set_cpu x m := mk_mmu x (memory m) (tlb m) (pagetable_base m) (pagetable_hashmask m) (ibat_table m) (dbat_table m) (iCache m) (devices m).
Definition set_memory x m := mk_mmu (cpu m) x (tlb m) (pagetable_base m) (pagetable_hashmask m) (ibat_table m) (dbat_table m) (iCache m) (devices m).
Definition set_tlb x m := mk_mmu (cpu m) (memory m) x (pagetable_base m) (pagetable_hashmask m) (ibat_table m) (dbat_table m) (iCache m) (devices m).
Definition set_pagetable x y m := mk_mmu (cpu m) (memory m) (tlb m) x y (ibat_table m) (dbat_table m) (iCache m) (devices m).
Definition set_iCache x m := mk_mmu (cpu m) (memory m) (tlb m) (pagetable_base m) (pagetable_hashmask m) (ibat_table m) (dbat_table m) x (devices m).
Definition set_devices (x : D) m := mk_mmu (cpu m) (memory m) (tlb m) (pagetable_base m) (pagetable_hashmask m) (ibat_table m) (dbat_table m) (iCache m) x.
End Setters.

(** ** Effects

    An access reads and writes the machine. [Fault] is a fault of the host (an
    access outside the mapped memory); [Loops] is a loop that ran out of fuel. *)

Inductive outcome (D A : Type) :=
  | Done (a : A) (m : Mmu D)
  | Fault
  | Loops.
Arguments Done {D A} a m.
Arguments Fault {D A}.
Arguments Loops {D A}.

Definition M (D A : Type) : Type := Mmu D -> outcome D A.

#[export] Instance M_ret {D} : MRet (M D) := fun A a m => Done a m.
#[export] Instance M_bind {D} : MBind (M D) := fun A B k x m =>
  match x m with
  | Done a m' => k a m'
  | Fault => Fault
  | Loops => Loops
  end.

Definition gets {D A} (f : Mmu D -> A) : M D A := fun m => Done (f m) m.
Definition modify {D} (f : Mmu D -> Mmu D) : M D unit := fun m => Done tt (f m).
Definition when {D} (b : bool) (x : M D unit) : M D unit := if b then x else mret tt.
(** A host access that may fault. *)
Definition host {D A} (o : option A) : M D A := fun m => match o with Some a => Done a m | None => Fault end.

(** ** Kinds of access *)

Inductive XCheckTLBFlag := NoException | Read | Write | Opcode | OpcodeNoException.
#[export] Instance XCheckTLBFlag_eq_dec : EqDecision XCheckTLBFlag.
Proof. solve_decision. Defined.

Definition IsOpcodeFlag (f : XCheckTLBFlag) : bool :=
  bool_decide (f = Opcode) || bool_decide (f = OpcodeNoException).
Definition IsNoExceptionFlag (f : XCheckTLBFlag) : bool :=
  bool_decide (f = NoException) || bool_decide (f = OpcodeNoException).

(** The failures carry no address. *)
Inductive TranslateAddressResult :=
  | BAT_TRANSLATED (address : Z)
  | PAGE_TABLE_TRANSLATED (address : Z)
  | DIRECT_STORE_SEGMENT
  | PAGE_FAULT.

(** [Success()] with the address. *)
Definition Success (r : TranslateAddressResult) : option Z :=
  match r with BAT_TRANSLATED a | PAGE_TABLE_TRANSLATED a => Some a | _ => None end.

(** ** Fields *)

Definition HW_PAGE_SIZE : Z := 4096.
Definition HW_PAGE_INDEX_SHIFT : Z := 12.
Definition HW_PAGE_INDEX_MASK : Z := 0x3f.

Definition PTE1_V : Z := 1 .<< 31.
Definition PTE1_H : Z := 1 .<< 6.
Definition SDR1_HTABORG (v : Z) : Z := (v .>> 16) .& 0xffff.
Definition SDR1_HTABMASK (v : Z) : Z := v .& 0x1ff.
Definition SR_VSID (v : Z) : Z := v .& 0xffffff.
Definition EA_SR (v : Z) : Z := (v .>> 28) .& 0xf.
Definition EA_PageIndex (v : Z) : Z := (v .>> 12) .& 0xffff.
Definition EA_Offset (v : Z) : Z := v .& 0xfff.
Definition EA_API (v : Z) : Z := (v .>> 22) .& 0x3f.

(** [UPTE2] *)
Definition PTE2_RPN (v : Z) : Z := field 12 20 v.
Definition PTE2_R : Z := 1 .<< 8.
Definition PTE2_C : Z := 1 .<< 7.

Definition SPR_SDR : Z := 25.

(** ** The page table's register *)

Definition IsValidLowMask (mask : Z) : bool := (mask .& u32 (mask + 1)) =? 0.

Definition SDRUpdated {D} (m : Mmu D) : Mmu D :=
  let htabmask := SDR1_HTABMASK (rSPR (cpu m) SPR_SDR) in
  if negb (IsValidLowMask htabmask) then m
  else
    let htaborg := SDR1_HTABORG (rSPR (cpu m) SPR_SDR) in
    if negb ((htaborg .& htabmask) =? 0) then m
    else set_pagetable (u32 (htaborg .<< 16)) ((htabmask .<< 10) .| 0x3ff) m.

(** ** The TLB *)

Inductive TLBLookupResult := Found (address : Z) | NotFound | UpdateC.

(** The block for one way, when its tag matches. *)
Definition hit_way (f : XCheckTLBFlag) (vpa i : Z) (e : TLBEntry) : TLBLookupResult * TLBEntry :=
  if bool_decide (f = Write) && negb (flag (zget (pte e) i) PTE2_C)
  then (UpdateC, mk_tlbe (tag e) (paddr e) (zset (pte e) i (zget (pte e) i .| PTE2_C)) (recent e))
  else (Found (zget (paddr e) i .| (vpa .& 0xfff)),
        if IsNoExceptionFlag f then e else mk_tlbe (tag e) (paddr e) (pte e) i).

Definition LookupTLBPageAddress (f : XCheckTLBFlag) (vpa : Z) (t : Tlb) : TLBLookupResult * Tlb :=
  let tg := vpa .>> HW_PAGE_INDEX_SHIFT in
  let k := (IsOpcodeFlag f, tg .& HW_PAGE_INDEX_MASK) in
  let tlbe := tlb_entry t k in
  if zget (tag tlbe) 0 =? tg then let '(r, e) := hit_way f vpa 0 tlbe in (r, <[k := e]> t)
  else if zget (tag tlbe) 1 =? tg then let '(r, e) := hit_way f vpa 1 tlbe in (r, <[k := e]> t)
  else (NotFound, t).

Definition UpdateTLBEntry (f : XCheckTLBFlag) (PTE2 address : Z) (t : Tlb) : Tlb :=
  if IsNoExceptionFlag f then t
  else
    let tg := address .>> HW_PAGE_INDEX_SHIFT in
    let k := (IsOpcodeFlag f, tg .& HW_PAGE_INDEX_MASK) in
    let tlbe := tlb_entry t k in
    let index := b2z ((recent tlbe =? 0) && negb (zget (tag tlbe) 0 =? INVALID_TAG)) in
    <[k := mk_tlbe (zset (tag tlbe) index tg) (zset (paddr tlbe) index (u32 (PTE2_RPN PTE2 .<< HW_PAGE_INDEX_SHIFT)))
             (zset (pte tlbe) index PTE2) index]> t.

Definition InvalidateTLBEntry {D} (address : Z) (m : Mmu D) : Mmu D :=
  let entry_index := (address .>> HW_PAGE_INDEX_SHIFT) .& HW_PAGE_INDEX_MASK in
  let clear (t : Tlb) (k : bool * Z) :=
    let e := tlb_entry t k in
    <[k := mk_tlbe (zset (zset (tag e) 0 INVALID_TAG) 1 INVALID_TAG) (paddr e) (pte e) (recent e)]> t in
  set_tlb (clear (clear (tlb m) (false, entry_index)) (true, entry_index)) m.

(** ** The page table *)

(** A word behind [physical_base], as the host reads and writes it. *)
Definition physical_pointer (m : Memmap) (a : Z) : option (Bank * Z) :=
  if a <? RAM_SIZE then Some (RAM, a)
  else if (0xE0000000 <=? a) && (a <? 0xE0000000 + L1_CACHE_SIZE) then Some (L1Cache, a - 0xE0000000)
  else if bool_decide (is_Some (m_pFakeVMEM m)) && (0x7E000000 <=? a) && (a <? 0x7E000000 + FAKEVMEM_SIZE)
  then Some (FakeVMEM, a - 0x7E000000)
  else if bool_decide (is_Some (m_pEXRAM m)) && (0x10000000 <=? a) && (a <? 0x10000000 + EXRAM_SIZE)
  then Some (EXRAM, a - 0x10000000)
  else None.

Definition read_word (m : Memmap) (a : Z) : option Z :=
  p ← physical_pointer m a; l ← load_bytes m p 4; Some (le_value l).
Definition write_word (a v : Z) (m : Memmap) : option Memmap :=
  p ← physical_pointer m a; store_bytes p (le_bytes 4 v) m.

(** The loop over the [n] entries from [pteg_addr] on: the address of the first
    whose first word is [pte1]. *)
Fixpoint search_group (m : Memmap) (pte1 pteg_addr : Z) (n : nat) : option (option Z) :=
  match n with
  | O => Some None
  | S n' =>
    pteg ← read_word m pteg_addr;
    if pte1 =? pteg then Some (Some pteg_addr) else search_group m pte1 (u32 (pteg_addr + 8)) n'
  end.

(** [switch (flag)]: the access bits. *)
Definition access_bits (f : XCheckTLBFlag) (PTE2 : Z) : Z :=
  match f with
  | NoException | OpcodeNoException => PTE2
  | Read | Opcode => PTE2 .| PTE2_R
  | Write => PTE2 .| PTE2_R .| PTE2_C
  end.

Section Translate.
Context {D : Type}.

(** The body of [if (pte1 == pteg)]. *)
Definition use_entry (f : XCheckTLBFlag) (res : TLBLookupResult) (address pteg_addr : Z) : M D TranslateAddressResult :=
  m ← gets memory;
  w ← host (read_word m (u32 (pteg_addr + 4)));
  let PTE2 := access_bits f (swap32 w) in
  _ ← (if IsNoExceptionFlag f then mret tt
       else m' ← host (write_word (u32 (pteg_addr + 4)) (swap32 PTE2) m); modify (set_memory m'));
  _ ← (match res with
       | UpdateC => mret tt
       | _ => modify (fun m => set_tlb (UpdateTLBEntry f PTE2 address (tlb m)) m)
       end);
  mret (PAGE_TABLE_TRANSLATED ((PTE2_RPN PTE2 .<< 12) .| EA_Offset address)).

Definition TranslatePageAddress (address : Z) (f : XCheckTLBFlag) : M D TranslateAddressResult :=
  t ← gets tlb;
  let '(res, t) := LookupTLBPageAddress f address t in
  _ ← modify (set_tlb t);
  match res with
  | Found translatedAddress => mret (PAGE_TABLE_TRANSLATED translatedAddress)
  | _ =>
    m ← gets id;
    let seg := zget (sr (cpu m)) (EA_SR address) in
    if flag seg 0x80000000 then mret DIRECT_STORE_SEGMENT
    else if (bool_decide (f = Opcode) || bool_decide (f = OpcodeNoException)) && flag seg 0x10000000
    then mret PAGE_FAULT
    else
      let page_index := EA_PageIndex address in
      let VSID := SR_VSID seg in
      let api := EA_API address in
      let hash := VSID .^ page_index in
      let pte1 := swap32 (u32 ((VSID .<< 7) .| api .| PTE1_V)) in
      let pteg_addr hash := u32 ((hash .& pagetable_hashmask m) .<< 6) .| pagetable_base m in
      first ← host (search_group (memory m) pte1 (pteg_addr hash) 8);
      match first with
      | Some a => use_entry f res address a
      | None =>
        let hash := u32 (.~ hash) in
        let pte1 := pte1 .| (PTE1_H .<< 24) in
        second ← host (search_group (memory m) pte1 (pteg_addr hash) 8);
        match second with
        | Some a => use_entry f res address a
        | None => mret PAGE_FAULT
        end
      end
  end.

Definition TranslateAddress (f : XCheckTLBFlag) (address : Z) : M D TranslateAddressResult :=
  m ← gets id;
  match TranslateBatAddess (if IsOpcodeFlag f then ibat_table m else dbat_table m) address with
  | Some a => mret (BAT_TRANSLATED a)
  | None => TranslatePageAddress address f
  end.
End Translate.

(** ** Words in memory *)

Definition memory_ok (m : Memmap) : Prop := forall b x, bank_bytes b m = Some x -> mem_ok 8 x.

Lemma physical_pointer_bank m a p : physical_pointer m a = Some p -> is_Some (bank_bytes p.1 m).
Proof.
  unfold physical_pointer. destruct (a <? RAM_SIZE); [intros [= <-]; eauto |].
  destruct (_ && _); [intros [= <-]; eauto |].
  destruct (bool_decide (is_Some (m_pFakeVMEM m))) eqn:E1; cbn [andb];
    [apply bool_decide_eq_true in E1; destruct (_ && _); [intros [= <-]; done |] |];
    (destruct (bool_decide (is_Some (m_pEXRAM m))) eqn:E2; cbn [andb]; [| done]);
    apply bool_decide_eq_true in E2; (destruct (_ && _); [| done]); intros [= <-]; done.
Qed.

(** Where a pointer of an address points. *)
Definition bank_base (b : Bank) : Z :=
  match b with RAM => 0 | EXRAM => 0x10000000 | L1Cache => 0xE0000000 | FakeVMEM => 0x7E000000 end.

Lemma physical_pointer_spec m a p :
  0 <= a -> physical_pointer m a = Some p -> a = bank_base p.1 + p.2 /\ 0 <= p.2 < bank_size p.1.
Proof.
  intros Ha. unfold physical_pointer. change RAM_SIZE with 0x2000000. unfold L1_CACHE_SIZE, FAKEVMEM_SIZE, EXRAM_SIZE.
  destruct (Z.ltb_spec a 0x2000000); [intros [= <-]; cbn [fst snd bank_base]; change (bank_size RAM) with 0x2000000; lia |].
  destruct (Z.leb_spec 0xE0000000 a), (Z.ltb_spec a (0xE0000000 + 0x40000)); cbn [andb];
    try (intros [= <-]; cbn [fst snd bank_base]; change (bank_size L1Cache) with 0x40000; lia); try lia;
  destruct (bool_decide (is_Some (m_pFakeVMEM m))), (Z.leb_spec 0x7E000000 a), (Z.ltb_spec a (0x7E000000 + 0x2000000)); cbn [andb];
    try (intros [= <-]; cbn [fst snd bank_base]; change (bank_size FakeVMEM) with 0x2000000; lia); try lia;
  destruct (bool_decide (is_Some (m_pEXRAM m))), (Z.leb_spec 0x10000000 a), (Z.ltb_spec a (0x10000000 + 0x4000000)); cbn [andb];
    try done; try lia; intros [= <-]; cbn [fst snd bank_base]; change (bank_size EXRAM) with 0x4000000; lia.
Qed.

Lemma bank_aligned b : bank_base b mod 8 = 0 /\ bank_size b mod 8 = 0.
Proof. destruct b; split; reflexivity. Qed.

Lemma load_u8_ok m p : is_Some (bank_bytes p.1 m) -> 0 <= p.2 < bank_size p.1 -> is_Some (load_u8 m p).
Proof.
  intros [x Hx] Hp. unfold load_u8. rewrite Hx. cbn. rewrite (proj2 (Z.leb_le _ _)), (proj2 (Z.ltb_lt _ _)) by lia. eauto.
Qed.

Lemma load_u8_range m p v : memory_ok m -> load_u8 m p = Some v -> inu 8 v.
Proof.
  intros Hm. unfold load_u8. destruct (bank_bytes p.1 m) as [x |] eqn:E; [| done]. cbn. destruct (_ && _); [| done].
  intros [= <-]. apply mem_ok_mget; [lia | eapply Hm, E].
Qed.

Lemma load_bytes_ok m p n :
  is_Some (bank_bytes p.1 m) -> 0 <= p.2 -> p.2 + Z.of_nat n <= bank_size p.1 -> memory_ok m ->
  exists l, load_bytes m p n = Some l /\ length l = n /\ bytes_ok l.
Proof.
  revert p. induction n as [| n IH]; intros p Hb H0 Hn Hm; [exists []; split_and!; [done.. | constructor] |].
  cbn [load_bytes]. destruct (load_u8_ok m p Hb ltac:(lia)) as [v Hv]. rewrite Hv. cbn.
  destruct (IH (p.1, p.2 + 1)) as (l & -> & Hl & Ho); cbn [fst snd]; [done | lia | lia | done |]. cbn.
  exists (v :: l). split_and!; [done | cbn; lia | constructor; [eapply load_u8_range; eauto | done]].
Qed.

Lemma store_u8_ok m p v :
  is_Some (bank_bytes p.1 m) -> 0 <= p.2 < bank_size p.1 -> memory_ok m ->
  exists m', store_u8 p v m = Some m' /\ memory_ok m' /\ (forall b, is_Some (bank_bytes b m') <-> is_Some (bank_bytes b m)).
Proof.
  intros [x Hx] Hp Hm. unfold store_u8. rewrite Hx. cbn. rewrite (proj2 (Z.leb_le _ _)), (proj2 (Z.ltb_lt _ _)) by lia.
  eexists. split; [done |]. split.
  - intros b y. rewrite bank_bytes_set by eauto. destruct (decide _) as [-> |]; [| apply Hm].
    intros [= <-]. apply mem_ok_mset; [eapply Hm, Hx | range].
  - intros b. rewrite bank_bytes_set by eauto. destruct (decide _) as [-> |]; [| done]. rewrite Hx. split; eauto.
Qed.

Lemma store_bytes_ok l m p :
  is_Some (bank_bytes p.1 m) -> 0 <= p.2 -> p.2 + Z.of_nat (length l) <= bank_size p.1 -> memory_ok m ->
  exists m', store_bytes p l m = Some m' /\ memory_ok m' /\ (forall b, is_Some (bank_bytes b m') <-> is_Some (bank_bytes b m)).
Proof.
  revert p m. induction l as [| v l IH]; intros p m Hb H0 Hn Hm; [exists m; done |].
  cbn [store_bytes length] in *. destruct (store_u8_ok m p v Hb ltac:(lia) Hm) as (m1 & -> & H1 & B1). cbn.
  destruct (IH (p.1, p.2 + 1) m1) as (m' & -> & H' & B'); cbn [fst snd]; [by apply B1 | lia | lia | done |].
  exists m'. split_and!; [done | done |]. intros b. rewrite B'. apply B1.
Qed.

(** The same memory, up to the bytes. *)
Definition same_banks (m m' : Memmap) : Prop := forall b, is_Some (bank_bytes b m') <-> is_Some (bank_bytes b m).

Lemma same_banks_pointer m m' a : same_banks m m' -> physical_pointer m' a = physical_pointer m a.
Proof.
  intros H. unfold physical_pointer. rewrite (bool_decide_ext _ _ (H FakeVMEM)), (bool_decide_ext _ _ (H EXRAM)). done.
Qed.

Lemma load_bytes_ext m m' p n :
  (forall i, (i < n)%nat -> load_u8 m' (p.1, p.2 + Z.of_nat i) = load_u8 m (p.1, p.2 + Z.of_nat i)) ->
  load_bytes m' p n = load_bytes m p n.
Proof.
  revert p. induction n as [| n IH]; intros p H; [done |]. cbn [load_bytes].
  pose proof (H 0%nat ltac:(lia)) as H0. rewrite Z.add_0_r in H0. destruct p as [b o]. cbn [fst snd] in *. rewrite H0.
  rewrite IH; [done |]. intros i Hi. cbn. replace (o + 1 + Z.of_nat i) with (o + Z.of_nat (S i)) by lia. apply H. lia.
Qed.

Lemma read_word_ok m a :
  0 <= a -> a mod 4 = 0 -> is_Some (physical_pointer m a) -> memory_ok m -> exists w, read_word m a = Some w /\ inu 32 w.
Proof.
  intros Ha Hal [p Hp] Hm. unfold read_word. rewrite Hp. cbn [mbind option_bind].
  pose proof (physical_pointer_bank _ _ _ Hp) as Hb. destruct (physical_pointer_spec _ _ _ Ha Hp) as [E R].
  pose proof (bank_aligned p.1) as [B1 B2].
  assert (Hn : p.2 + 4 <= bank_size p.1).
  { revert E R Hal B1 B2. clear. generalize (bank_base p.1), (bank_size p.1). intros. Z.to_euclidean_division_equations. lia. }
  destruct (load_bytes_ok m p 4) as (l & -> & Hl & Ho); [done | lia | lia | done |].
  cbn. eexists. split; [done |]. pose proof (le_value_range l Ho) as R'. rewrite Hl in R'. exact R'.
Qed.

(** A word that is written reads back and changes no other. *)
Lemma write_word_ok m a v :
  0 <= a -> a mod 4 = 0 -> is_Some (physical_pointer m a) -> memory_ok m -> inu 32 v ->
  exists m', write_word a v m = Some m' /\ memory_ok m' /\ same_banks m m' /\ read_word m' a = Some v /\
    (forall b, 0 <= b -> b mod 4 = 0 -> b <> a -> read_word m' b = read_word m b) /\
    (forall p q, physical_pointer m a = Some p -> q.1 <> p.1 \/ q.2 < p.2 \/ p.2 + 4 <= q.2 -> load_u8 m' q = load_u8 m q).
Proof.
  intros Ha Hal [p Hp] Hm Hv. unfold write_word. rewrite Hp. cbn [mbind option_bind].
  pose proof (physical_pointer_bank _ _ _ Hp) as Hb. destruct (physical_pointer_spec _ _ _ Ha Hp) as [E R].
  pose proof (bank_aligned p.1) as [B1 B2].
  assert (Hn : p.2 + 4 <= bank_size p.1).
  { revert E R Hal B1 B2. clear. generalize (bank_base p.1), (bank_size p.1). intros. Z.to_euclidean_division_equations. lia. }
  destruct (store_bytes_ok (le_bytes 4 v) m p) as (m' & Hs & Hm' & Hb'); [done | lia | exact Hn | done |].
  exists m'. destruct (store_bytes_spec _ _ _ _ Hs) as [_ L].
  assert (U : forall q, q.1 <> p.1 \/ q.2 < p.2 \/ p.2 + 4 <= q.2 -> load_u8 m' q = load_u8 m q).
  { intros q Hq. rewrite L. unfold offset_in. rewrite length_le_bytes, decide_False; [done |].
    intros [E1 E2]. destruct Hq as [? | [? | ?]]; [done | lia | lia]. }
  split_and!; try done.
  - unfold read_word. rewrite (same_banks_pointer _ _ _ Hb'), Hp. cbn [mbind option_bind].
    pose proof (load_stored_bytes p (le_bytes 4 v) m m' (le_bytes_ok 4 v) Hs) as Hl.
    rewrite length_le_bytes in Hl. rewrite Hl. cbn [mbind option_bind].
    f_equal. apply (le_value_bytes 4). done.
  - intros b H0 Hbal Hne. unfold read_word. rewrite (same_banks_pointer _ _ _ Hb').
    destruct (physical_pointer m b) as [q |] eqn:Eq; [| done]. cbn [mbind option_bind].
    destruct (physical_pointer_spec _ _ _ H0 Eq) as [E' R'].
    rewrite (load_bytes_ext m m'); [done |]. intros i Hi. apply U. cbn [fst snd].
    destruct (decide (q.1 = p.1)) as [E1 |]; [right | by left]. rewrite E1 in E'. revert E E' Hal Hbal Hne.
    pose proof (bank_aligned p.1) as [A _]. revert A Hi. clear. generalize (bank_base p.1). intros. Z.to_euclidean_division_equations. lia.
  - intros p' q [= <-]. apply U.
Qed.

(** ** The page table as its documentation describes it *)

Lemma swap32_range x : inu 32 (swap32 x).
Proof. apply wrapu_range. lia. Qed.

Lemma swap32_swap32 x : inu 32 x -> swap32 (swap32 x) = x.
Proof.
  intros Hx. pose proof (le_bytes_ok 4 x) as Ho. pose proof (length_le_bytes 4 x) as Hl.
  rewrite <- (le_value_bytes 4 x) at 1 by done. rewrite (swap32_rev _ Hl Ho), swap32_rev.
  - rewrite rev_involutive. apply le_value_bytes. done.
  - rewrite length_rev. done.
  - apply Forall_rev. done.
Qed.

Lemma swap32_lor a b : swap32 (a .| b) = swap32 a .| swap32 b.
Proof. unfold swap32, swap16. bitwise. Qed.

(** An entry's word in the emulated memory's byte order. *)
Definition word (m : Memmap) (a : Z) : Z := swap32 (default 0 (read_word m a)).

Lemma testbit_1 i : Z.testbit 1 i = (i =? 0).
Proof.
  destruct (Z.leb_spec 0 i); [change 1 with (2 ^ 0) at 1; rewrite Z.pow2_bits_eqb, Z.eqb_sym by lia; done |].
  rewrite Z.testbit_neg_r by lia. destruct (Z.eqb_spec i 0); (done || lia).
Qed.

(** The first word of a page table entry. *)
Definition pte_matches (w vsid api h : Z) : bool :=
  (field 31 1 w =? 1) && (field 7 24 w =? vsid) && (field 6 1 w =? h) && (field 0 6 w =? api).

Lemma pte_matches_eq w vsid api h :
  inu 32 w -> inu 24 vsid -> inu 6 api -> inu 1 h ->
  pte_matches w vsid api h = true <-> (vsid .<< 7) .| api .| PTE1_V .| (h .<< 6) = w.
Proof.
  intros Hw Hv Ha Hh. unfold pte_matches, PTE1_V. rewrite !andb_true_iff, !Z.eqb_eq. split.
  - intros (((E1 & <-) & <-) & <-). apply Z.bits_inj'. intros i Hi.
    rewrite !Z.lor_spec, !testbit_shiftl', (testbit_field 0 6), testbit_1 by lia.
    destruct (Z.leb_spec 0 i); [| lia]. cbn [andb].
    assert (Z.testbit w 31 = true) as E31.
    { apply (f_equal (fun x => Z.testbit x 0)) in E1. rewrite testbit_field in E1 by lia. exact E1. }
    destruct (Z.ltb_spec i 6).
    { rewrite (Z.testbit_neg_r _ (i - 7)), (Z.testbit_neg_r _ (i - 6)) by lia. destruct (Z.eqb_spec (i - 31) 0); [lia |].
      rewrite Z.add_0_r. cbn [orb]. rewrite !orb_false_r. done. }
    destruct (Z.ltb_spec i 7).
    { replace i with 6 by lia. rewrite (testbit_field 6) by lia. cbn. rewrite ?orb_false_r. done. }
    destruct (Z.ltb_spec i 31).
    { rewrite !testbit_field by lia. destruct (Z.ltb_spec (i - 7) 24), (Z.ltb_spec (i - 6) 1), (Z.eqb_spec (i - 31) 0); try lia.
      cbn [andb orb]. rewrite !orb_false_r. f_equal. lia. }
    rewrite !testbit_field by lia. destruct (Z.ltb_spec (i - 7) 24), (Z.ltb_spec (i - 6) 1); try lia. cbn [andb orb].
    rewrite orb_false_r. destruct (Z.eqb_spec (i - 31) 0).
    + replace i with 31 by lia. done.
    + rewrite (testbit_inu_high 32 w) by (done || lia). done.
  - intros <-.
    assert (B : forall lo n i, 0 <= lo -> 0 <= n -> 0 <= i ->
      Z.testbit (field lo n ((vsid .<< 7) .| api .| (1 .<< 31) .| (h .<< 6))) i =
      (i <? n) && (Z.testbit vsid (i + lo - 7) || Z.testbit api (i + lo) || (i + lo =? 31) || Z.testbit h (i + lo - 6))).
    { intros lo n i Hlo Hn Hi. rewrite testbit_field by done. rewrite !Z.lor_spec, !testbit_shiftl'.
      rewrite testbit_1. destruct (Z.leb_spec 0 (i + lo)); [| lia]. cbn [andb].
      do 3 f_equal. destruct (Z.eqb_spec (i + lo - 31) 0), (Z.eqb_spec (i + lo) 31); (done || lia). }
    split_and!; apply Z.bits_inj'; intros i Hi; rewrite B by lia.
    + rewrite testbit_1. destruct (Z.ltb_spec i 1), (Z.eqb_spec i 0); lia.
    + destruct (Z.ltb_spec i 24); cbn [andb].
      * rewrite (testbit_inu_high 6 api), (testbit_inu_high 1 h) by (done || lia). destruct (Z.eqb_spec (i + 7) 31); [lia |].
        rewrite !orb_false_r. f_equal. lia.
      * symmetry. apply (testbit_inu_high 24); (done || lia).
    + destruct (Z.ltb_spec i 1); cbn [andb].
      * replace i with 0 by lia. rewrite (Z.testbit_neg_r vsid), (testbit_inu_high 6 api) by (done || lia). done.
      * symmetry. apply (testbit_inu_high 1); (done || lia).
    + destruct (Z.ltb_spec i 6); cbn [andb].
      * rewrite (Z.testbit_neg_r vsid), (Z.testbit_neg_r h) by lia. destruct (Z.eqb_spec (i + 0) 31); [lia |].
        rewrite !orb_false_r. cbn. f_equal. lia.
      * symmetry. apply (testbit_inu_high 6); (done || lia).
Qed.

Section Reference.
Context {D : Type}.
Implicit Types m : Mmu D.

(** The first entry of the group with a hash. *)
Definition group m (hash : Z) : Z := u32 ((hash .& pagetable_hashmask m) .<< 6) .| pagetable_base m.

Definition segment m (ea : Z) : Z := zget (sr (cpu m)) (EA_SR ea).

(** The sixteen entries that may translate a page, each with the hash function
    it belongs to. *)
Definition candidates m (ea : Z) : list (Z * Z) :=
  let hash := SR_VSID (segment m ea) .^ EA_PageIndex ea in
  ((fun i => (0, group m hash + 8 * i)) <$> upto 8) ++ ((fun i => (1, group m (u32 (.~ hash)) + 8 * i)) <$> upto 8).

Definition is_entry m (ea : Z) (c : Z * Z) : bool :=
  pte_matches (word (memory m) c.2) (SR_VSID (segment m ea)) (EA_API ea) c.1.

(** The address of a page's entry: the first candidate that matches. *)
Definition page_entry m (ea : Z) : option Z :=
  snd <$> head (filter (fun c => is_entry m ea c = true) (candidates m ea)).

(** The translation of an address by its segment and page. *)
Definition page_reference m (f : XCheckTLBFlag) (ea : Z) : TranslateAddressResult :=
  if flag (segment m ea) 0x80000000 then DIRECT_STORE_SEGMENT
  else if IsOpcodeFlag f && flag (segment m ea) 0x10000000 then PAGE_FAULT
  else match page_entry m ea with
       | Some a => PAGE_TABLE_TRANSLATED ((PTE2_RPN (word (memory m) (a + 4)) .<< 12) .| EA_Offset ea)
       | None => PAGE_FAULT
       end.

(** The translation of an address. *)
Definition reference m (f : XCheckTLBFlag) (ea : Z) : TranslateAddressResult :=
  match TranslateBatAddess (if IsOpcodeFlag f then ibat_table m else dbat_table m) ea with
  | Some a => BAT_TRANSLATED a
  | None => page_reference m f ea
  end.

(** The page table lies in memory. *)
Record table_ok m : Prop := {
  table_memory : memory_ok (memory m);
  table_base : inu 32 (pagetable_base m);
  table_aligned : pagetable_base m mod 64 = 0;
  table_mapped : forall hash i, 0 <= i < 8 ->
    is_Some (physical_pointer (memory m) (group m hash + 8 * i)) /\
    is_Some (physical_pointer (memory m) (group m hash + 8 * i + 4))
}.

Lemma group_range m hash : table_ok m -> 0 <= group m hash /\ group m hash + 64 <= 2 ^ 32 /\ group m hash mod 64 = 0.
Proof.
  intros Hm. unfold group. set (x := hash .& pagetable_hashmask m).
  assert (R : inu 32 (u32 (x .<< 6) .| pagetable_base m)).
  { apply inu_lor; [lia | range | apply (table_base m Hm)]. }
  assert (A : (u32 (x .<< 6) .| pagetable_base m) mod 64 = 0).
  { change 64 with (2 ^ 6). rewrite <- Z.land_ones by lia. apply Z.bits_inj'. intros i Hi.
    rewrite Z.land_spec, Z.lor_spec, testbit_wrapu, testbit_shiftl', Z.testbit_ones, Z.testbit_0_l by lia.
    destruct (Z.leb_spec 0 i); [| lia]. destruct (Z.ltb_spec i 6); cbn [andb]; [| apply andb_false_r].
    rewrite (Z.testbit_neg_r x) by lia. rewrite !andb_false_r. cbn [orb]. rewrite andb_true_r.
    pose proof (table_aligned m Hm) as Ha. change 64 with (2 ^ 6) in Ha. rewrite <- Z.land_ones in Ha by lia.
    apply (f_equal (fun y => Z.testbit y i)) in Ha. rewrite Z.land_spec, Z.testbit_ones, Z.testbit_0_l in Ha by lia.
    rewrite (proj2 (Z.leb_le 0 i)), (proj2 (Z.ltb_lt i 6)), andb_true_r in Ha by lia. done. }
  unfold inu in R. revert R A. generalize (u32 (x .<< 6) .| pagetable_base m). clear.
  intros. Z.to_euclidean_division_equations. lia.
Qed.

Lemma upto_cons n : upto (S n) = 0 :: (Z.succ <$> upto n).
Proof.
  unfold upto. change (seq 0 (S n)) with (0%nat :: seq 1 n). rewrite fmap_cons, <- (fmap_S_seq 0 n), <- !list_fmap_compose.
  f_equal. apply list_fmap_ext. intros i x _. cbn. lia.
Qed.

(** The loop finds the first entry. *)
Lemma search_group_spec mem p1 (P : Z -> bool) n a :
  memory_ok mem -> 0 <= a -> a mod 8 = 0 -> a + 8 * Z.of_nat n <= 2 ^ 32 ->
  (forall i, 0 <= i < Z.of_nat n -> is_Some (physical_pointer mem (a + 8 * i))) ->
  (forall b w, read_word mem b = Some w -> inu 32 w -> (p1 =? w) = P b) ->
  search_group mem p1 a n = Some (head (filter (fun b => P b = true) ((fun i => a + 8 * i) <$> upto n))).
Proof.
  intros Hm H0 Hal Hn Hp HP. revert a H0 Hal Hn Hp. induction n as [| n IH]; intros a H0 Hal Hn Hp; [done |].
  destruct (read_word_ok mem a) as (w & Ew & Rw); [done | revert Hal; clear; Z.to_euclidean_division_equations; lia | | done |].
  { rewrite <- (Z.add_0_r a). apply (Hp 0). lia. }
  cbn [search_group]. rewrite Ew. cbn [mbind option_bind]. rewrite (HP a w Ew Rw).
  rewrite upto_cons, fmap_cons, Z.mul_0_r, Z.add_0_r. destruct (P a) eqn:EP.
  - rewrite filter_cons_True by done. done.
  - rewrite filter_cons_False by congruence. destruct n as [| n]; [done |].
    assert (Ea : u32 (a + 8) = a + 8) by (apply wrapu_id; unfold inu; lia). rewrite Ea, IH.
    + rewrite <- list_fmap_compose. do 3 f_equal. apply list_fmap_ext. intros i x _. cbn. lia.
    + lia.
    + revert Hal. clear. Z.to_euclidean_division_equations. lia.
    + lia.
    + intros i Hi. replace (a + 8 + 8 * i) with (a + 8 * (i + 1)) by lia. apply Hp. lia.
Qed.

(** The comparison with a swapped first word is the match of the fields. *)
Lemma compare_words mem vsid api h :
  inu 24 vsid -> inu 6 api -> h = 0 \/ h = 1 ->
  forall b w, read_word mem b = Some w -> inu 32 w ->
  (swap32 ((vsid .<< 7) .| api .| PTE1_V .| (h .<< 6)) =? w) = pte_matches (word mem b) vsid api h.
Proof.
  intros Hv Ha Hh b w Ew Rw. unfold word. rewrite Ew. change (default 0 (Some w)) with w.
  assert (Hx : inu 32 ((vsid .<< 7) .| api .| PTE1_V .| (h .<< 6))).
  { apply inu_testbit; [lia |]. intros i Hi. unfold PTE1_V. rewrite !Z.lor_spec, !testbit_shiftl', testbit_1.
    rewrite (testbit_inu_high 24 vsid), (testbit_inu_high 6 api), (testbit_inu_high 1 h) by (done || lia || (unfold inu; lia)).
    destruct (Z.eqb_spec (i - 31) 0); [lia |]. rewrite !andb_false_r. done. }
  apply eq_true_iff_eq. rewrite Z.eqb_eq, pte_matches_eq by (done || apply swap32_range || (unfold inu; lia)). split.
  - intros <-. rewrite swap32_swap32 by done. done.
  - intros ->. apply swap32_swap32. done.
Qed.

(** ** The TLBs agree with the page table *)

Record entry_shape (e : TLBEntry) : Prop := {
  shape_tag : arr_ok 2 32 (tag e); shape_paddr : arr_ok 2 32 (paddr e); shape_pte : arr_ok 2 32 (pte e)
}.

(** A way that holds a page: the page has an entry, with the same physical
    page, in which its accesses are recorded. *)
Definition way_agrees m (opc : bool) (e : TLBEntry) (w : Z) : Prop :=
  zget (tag e) w <> INVALID_TAG ->
  let ea := zget (tag e) w .<< 12 in
  flag (segment m ea) 0x80000000 = false /\ (opc = true -> flag (segment m ea) 0x10000000 = false) /\
  exists a, page_entry m ea = Some a /\
    let w2 := word (memory m) (a + 4) in
    zget (paddr e) w = PTE2_RPN w2 .<< 12 /\ flag w2 PTE2_R = true /\
    (flag (zget (pte e) w) PTE2_C = true -> flag w2 PTE2_C = true).

(** All ways agree, but those of the sets in [P]. *)
Record tlb_ok_but (P : Z -> Prop) m : Prop := {
  tlb_table : table_ok m;
  tlb_shape : forall k, entry_shape (tlb_entry (tlb m) k);
  tlb_agrees : forall opc i w, w = 0 \/ w = 1 -> ~ P i -> way_agrees m opc (tlb_entry (tlb m) (opc, i)) w
}.
Definition tlb_ok : Mmu D -> Prop := tlb_ok_but (fun _ => False).

(** ** Addresses of a page *)

Lemma same_page ea ea' :
  ea .>> 12 = ea' .>> 12 -> EA_SR ea = EA_SR ea' /\ EA_PageIndex ea = EA_PageIndex ea' /\ EA_API ea = EA_API ea'.
Proof.
  intros E. unfold EA_SR, EA_PageIndex, EA_API. change 28 with (12 + 16). change 22 with (12 + 10).
  rewrite <- !Z.shiftr_shiftr, E by lia. done.
Qed.

Lemma page_start ea : ((ea .>> 12) .<< 12) .>> 12 = ea .>> 12.
Proof. rewrite Z.shiftr_shiftl_l by lia. apply Z.shiftl_0_r. Qed.

Lemma segment_page m ea ea' : ea .>> 12 = ea' .>> 12 -> segment m ea = segment m ea'.
Proof. intros E. unfold segment. destruct (same_page ea ea' E) as (-> & _). done. Qed.

Lemma candidates_page m ea ea' : ea .>> 12 = ea' .>> 12 -> candidates m ea = candidates m ea'.
Proof. intros E. unfold candidates. rewrite (segment_page m ea ea' E). destruct (same_page ea ea' E) as (_ & -> & _). done. Qed.

Lemma page_entry_page m ea ea' : ea .>> 12 = ea' .>> 12 -> page_entry m ea = page_entry m ea'.
Proof.
  intros E. unfold page_entry, is_entry. rewrite (segment_page m ea ea' E), (candidates_page m ea ea' E).
  destruct (same_page ea ea' E) as (_ & _ & ->). done.
Qed.

(** ** Steps that keep translations: access bits of entries may be set *)

(** The addresses of the entries. *)
Definition in_table m (a : Z) : Prop := exists hash i, 0 <= i < 8 /\ a = group m hash + 8 * i.

Record table_step m (mem' : Memmap) : Prop := {
  step_memory : memory_ok mem';
  step_banks : same_banks (memory m) mem';
  step_first : forall a, in_table m a -> read_word mem' a = read_word (memory m) a;
  step_second : forall a, in_table m a ->
    PTE2_RPN (word mem' (a + 4)) = PTE2_RPN (word (memory m) (a + 4)) /\
    (flag (word (memory m) (a + 4)) PTE2_R = true -> flag (word mem' (a + 4)) PTE2_R = true) /\
    (flag (word (memory m) (a + 4)) PTE2_C = true -> flag (word mem' (a + 4)) PTE2_C = true)
}.

(** The bytes that are not in the table. *)
Definition outside_table m (q : Bank * Z) : Prop :=
  forall a p, in_table m a -> physical_pointer (memory m) (a + 4) = Some p -> q.1 <> p.1 \/ q.2 < p.2 - 4 \/ p.2 + 4 <= q.2.

Record frame m m' : Prop := {
  frame_cpu : cpu m' = cpu m; frame_base : pagetable_base m' = pagetable_base m;
  frame_mask : pagetable_hashmask m' = pagetable_hashmask m;
  frame_ibat : ibat_table m' = ibat_table m; frame_dbat : dbat_table m' = dbat_table m;
  frame_iCache : iCache m' = iCache m; frame_devices : devices m' = devices m;
  frame_memory : table_step m (memory m')
}.

Lemma table_step_refl m : memory_ok (memory m) -> table_step m (memory m).
Proof. intros Hm. constructor; done. Qed.

Lemma in_table_aligned m a :
  table_ok m -> in_table m a ->
  0 <= a /\ a mod 8 = 0 /\ a + 8 <= 2 ^ 32 /\ is_Some (physical_pointer (memory m) a) /\ is_Some (physical_pointer (memory m) (a + 4)).
Proof.
  intros Hm (hash & i & Hi & ->). destruct (group_range m hash Hm) as (G1 & G2 & G3).
  destruct (table_mapped m Hm hash i Hi) as [G4 G5]. revert G1 G2 G3. clear - Hi G4 G5. intros.
  split_and!; try done; Z.to_euclidean_division_equations; lia.
Qed.

Lemma candidates_in_table m ea c : c ∈ candidates m ea -> in_table m c.2.
Proof.
  intros Hc. unfold candidates in Hc. apply elem_of_app in Hc.
  destruct Hc as [Hc | Hc]; apply list_elem_of_fmap in Hc as (i & -> & Hi); cbn [snd];
    unfold upto in Hi; apply list_elem_of_fmap in Hi as (n & -> & Hn); apply elem_of_seq in Hn;
    (eexists _, (Z.of_nat n); split; [lia | reflexivity]).
Qed.

Lemma filter_ext_in {A} (P Q : A -> Prop) `{!forall x, Decision (P x), !forall x, Decision (Q x)} (l : list A) :
  (forall x, x ∈ l -> P x <-> Q x) -> filter P l = filter Q l.
Proof.
  induction l as [| x l IH]; intros Hpq; [done |]. rewrite !filter_cons, IH by (intros; apply Hpq; by right).
  destruct (decide (P x)) as [p | p], (decide (Q x)) as [q | q]; try done; exfalso; pose proof (Hpq x ltac:(by left)); tauto.
Qed.

Lemma page_entry_in m ea a : page_entry m ea = Some a -> exists h, (h, a) ∈ candidates m ea /\ is_entry m ea (h, a) = true.
Proof.
  unfold page_entry. destruct (filter _ _) as [| c l] eqn:E; [done |]. intros [= <-]. exists c.1.
  assert (c ∈ filter (fun c => is_entry m ea c = true) (candidates m ea)) as H by (rewrite E; by left).
  apply list_elem_of_filter in H as [H1 H2]. destruct c. done.
Qed.

Lemma frame_segment m m' ea : frame m m' -> segment m' ea = segment m ea.
Proof. intros F. unfold segment. rewrite (frame_cpu _ _ F). done. Qed.

Lemma frame_entry m m' ea : table_ok m -> frame m m' -> page_entry m' ea = page_entry m ea.
Proof.
  intros Hm F. unfold page_entry. assert (E : candidates m' ea = candidates m ea).
  { unfold candidates, group. rewrite (frame_segment m m' ea F), (frame_base _ _ F), (frame_mask _ _ F). done. }
  rewrite E. do 2 f_equal. apply filter_ext_in. intros c Hc.
  unfold is_entry, word. rewrite (frame_segment m m' ea F), (step_first _ _ (frame_memory _ _ F) c.2 (candidates_in_table m ea c Hc)). done.
Qed.

(** The second word of a page's entry. *)
Lemma frame_second m m' ea a :
  table_ok m -> frame m m' -> page_entry m ea = Some a ->
  PTE2_RPN (word (memory m') (a + 4)) = PTE2_RPN (word (memory m) (a + 4)) /\
  (flag (word (memory m) (a + 4)) PTE2_R = true -> flag (word (memory m') (a + 4)) PTE2_R = true) /\
  (flag (word (memory m) (a + 4)) PTE2_C = true -> flag (word (memory m') (a + 4)) PTE2_C = true).
Proof.
  intros Hm F Ha. destruct (page_entry_in m ea a Ha) as (h & Hc & _).
  apply (step_second _ _ (frame_memory _ _ F)), (candidates_in_table m ea _ Hc).
Qed.

Lemma frame_reference m m' f ea : table_ok m -> frame m m' -> reference m' f ea = reference m f ea.
Proof.
  intros Hm F. unfold reference, page_reference. rewrite (frame_segment m m' ea F), (frame_entry m m' ea Hm F), (frame_ibat _ _ F), (frame_dbat _ _ F).
  destruct (page_entry m ea) as [a |] eqn:Ea; [| done]. destruct (frame_second m m' ea a Hm F Ea) as (-> & _). done.
Qed.

Lemma frame_table m m' : table_ok m -> frame m m' -> table_ok m'.
Proof.
  intros Hm F. constructor.
  - apply (step_memory _ _ (frame_memory _ _ F)).
  - rewrite (frame_base _ _ F). apply (table_base m Hm).
  - rewrite (frame_base _ _ F). apply (table_aligned m Hm).
  - intros hash i Hi. unfold group. rewrite (frame_base _ _ F), (frame_mask _ _ F), !(same_banks_pointer _ _ _ (step_banks _ _ (frame_memory _ _ F))).
    apply (table_mapped m Hm). done.
Qed.

(** Agreement survives a step in which a way only gains the changed bit that
    memory has. *)
Lemma frame_way m m' opc e e' w :
  table_ok m -> frame m m' -> zget (tag e') w = zget (tag e) w -> zget (paddr e') w = zget (paddr e) w ->
  (flag (zget (pte e') w) PTE2_C = true -> flag (zget (pte e) w) PTE2_C = true \/
     forall a, page_entry m (zget (tag e) w .<< 12) = Some a -> flag (word (memory m') (a + 4)) PTE2_C = true) ->
  way_agrees m opc e w -> way_agrees m' opc e' w.
Proof.
  intros Hm F Et Ep Ec H. unfold way_agrees. cbv zeta. rewrite Et, Ep. intros Hv. destruct (H Hv) as (H1 & H2 & a & Ha & Hp & HR & HC).
  rewrite (frame_segment m m' _ F), (frame_entry m m' _ Hm F). split_and!; [done | done |]. exists a.
  destruct (frame_second m m' _ a Hm F Ha) as (F1 & F2 & F3). rewrite F1. split_and!; [done | done | by apply F2 |].
  intros C. destruct (Ec C) as [C' | C']; [by apply F3, HC | by apply C'].
Qed.

(** ** The TLB's operations *)

Lemma tlb_entry_insert t k e k' : tlb_entry (<[k := e]> t) k' = if decide (k' = k) then e else tlb_entry t k'.
Proof.
  unfold tlb_entry. destruct (decide (k' = k)) as [-> | N]; [rewrite lookup_insert_eq | rewrite lookup_insert_ne by congruence]; done.
Qed.

(** What a lookup may do to an entry. *)
Record touched (e e' : TLBEntry) : Prop := {
  touched_tag : tag e' = tag e; touched_paddr : paddr e' = paddr e;
  touched_shape : entry_shape e -> entry_shape e'
}.

Lemma C_range : inu 32 PTE2_C.
Proof. split; [discriminate | reflexivity]. Qed.
Lemma R_range : inu 32 PTE2_R.
Proof. split; [discriminate | reflexivity]. Qed.
#[local] Hint Resolve C_range R_range : cint.

Lemma hit_way_spec f vpa i e :
  entry_shape e -> i = 0 \/ i = 1 ->
  let '(r, e') := hit_way f vpa i e in
  touched e e' /\
  match r with
  | Found a => a = zget (paddr e) i .| (vpa .& 0xfff) /\ pte e' = pte e /\ (f = Write -> flag (zget (pte e) i) PTE2_C = true)
  | UpdateC => f = Write /\ (forall w, w = 0 \/ w = 1 -> w <> i -> zget (pte e') w = zget (pte e) w)
  | NotFound => False
  end.
Proof.
  intros He Hi. unfold hit_way. destruct (bool_decide (f = Write)) eqn:Ef; cbn [andb].
  - apply bool_decide_eq_true in Ef as ->. destruct (flag (zget (pte e) i) PTE2_C) eqn:EC; cbn [negb].
    + split; [constructor | split_and!]; try done; destruct (IsNoExceptionFlag Write) eqn:E; try done; intros []; constructor; done.
    + split; [constructor |]; cbn [tag paddr pte]; try done.
      * intros []. constructor; try done. apply arr_ok_zset; [done |].
        apply inu_lor; [lia | apply (arr_ok_zget 2); [lia | done] | range].
      * split; [done |]. intros w Hw Hne. apply zget_zset_other; lia.
  - apply bool_decide_eq_false in Ef. split; [constructor | split_and!]; destruct (IsNoExceptionFlag f); try done; intros []; constructor; done.
Qed.

Lemma LookupTLBPageAddress_spec f vpa t :
  (forall k, entry_shape (tlb_entry t k)) ->
  let k := (IsOpcodeFlag f, (vpa .>> 12) .& 0x3f) in
  let '(r, t') := LookupTLBPageAddress f vpa t in
  (forall k', touched (tlb_entry t k') (tlb_entry t' k')) /\
  (forall k', k' <> k -> pte (tlb_entry t' k') = pte (tlb_entry t k')) /\
  match r with
  | Found a => exists w, (w = 0 \/ w = 1) /\ zget (tag (tlb_entry t k)) w = vpa .>> 12 /\
      a = zget (paddr (tlb_entry t k)) w .| (vpa .& 0xfff) /\ (f = Write -> flag (zget (pte (tlb_entry t k)) w) PTE2_C = true) /\
      pte (tlb_entry t' k) = pte (tlb_entry t k)
  | UpdateC => f = Write /\ exists w, (w = 0 \/ w = 1) /\ zget (tag (tlb_entry t k)) w = vpa .>> 12 /\
      forall w', w' = 0 \/ w' = 1 -> w' <> w -> zget (pte (tlb_entry t' k)) w' = zget (pte (tlb_entry t k)) w'
  | NotFound => t' = t
  end.
Proof.
  intros Ht. cbv zeta. unfold LookupTLBPageAddress, HW_PAGE_INDEX_SHIFT, HW_PAGE_INDEX_MASK. cbv zeta.
  set (k := (IsOpcodeFlag f, (vpa .>> 12) .& 63)).
  assert (R : forall i, i = 0 \/ i = 1 -> zget (tag (tlb_entry t k)) i = vpa .>> 12 ->
    let '(r, t') := (let '(r, e) := hit_way f vpa i (tlb_entry t k) in (r, <[k := e]> t)) in
    (forall k', touched (tlb_entry t k') (tlb_entry t' k')) /\
    (forall k', k' <> k -> pte (tlb_entry t' k') = pte (tlb_entry t k')) /\
    match r with
    | Found a => exists w, (w = 0 \/ w = 1) /\ zget (tag (tlb_entry t k)) w = vpa .>> 12 /\
        a = zget (paddr (tlb_entry t k)) w .| (vpa .& 0xfff) /\ (f = Write -> flag (zget (pte (tlb_entry t k)) w) PTE2_C = true) /\
        pte (tlb_entry t' k) = pte (tlb_entry t k)
    | UpdateC => f = Write /\ exists w, (w = 0 \/ w = 1) /\ zget (tag (tlb_entry t k)) w = vpa .>> 12 /\
        forall w', w' = 0 \/ w' = 1 -> w' <> w -> zget (pte (tlb_entry t' k)) w' = zget (pte (tlb_entry t k)) w'
    | NotFound => t' = t
    end).
  { intros i Hi Etag. pose proof (hit_way_spec f vpa i (tlb_entry t k) (Ht k) Hi) as S.
    destruct (hit_way f vpa i (tlb_entry t k)) as [r e]. destruct S as [S1 S2]. split_and!.
    - intros k'. rewrite tlb_entry_insert. destruct (decide (k' = k)) as [-> |]; [done | constructor; done].
    - intros k' N. rewrite tlb_entry_insert, decide_False by done. done.
    - rewrite tlb_entry_insert, decide_True by done. destruct r; [| done |].
      + exists i. destruct S2 as (-> & -> & S2). done.
      + destruct S2 as [-> S2]. split; [done |]. exists i. done. }
  destruct (Z.eqb_spec (zget (tag (tlb_entry t k)) 0) (vpa .>> 12)); [apply R; auto |].
  destruct (Z.eqb_spec (zget (tag (tlb_entry t k)) 1) (vpa .>> 12)); [apply R; auto |].
  split_and!; [constructor | |]; done.
Qed.

(** The entry that replaces another. *)
Lemma UpdateTLBEntry_spec f PTE2 ea t :
  inu 32 ea -> inu 32 PTE2 -> (forall k, entry_shape (tlb_entry t k)) ->
  let t' := UpdateTLBEntry f PTE2 ea t in
  (forall k, entry_shape (tlb_entry t' k)) /\
  forall k w, w = 0 \/ w = 1 ->
    (IsNoExceptionFlag f = false /\ k = (IsOpcodeFlag f, (ea .>> 12) .& 0x3f) /\ zget (tag (tlb_entry t' k)) w = ea .>> 12 /\
     zget (paddr (tlb_entry t' k)) w = PTE2_RPN PTE2 .<< 12 /\ zget (pte (tlb_entry t' k)) w = PTE2) \/
    (zget (tag (tlb_entry t' k)) w = zget (tag (tlb_entry t k)) w /\ zget (paddr (tlb_entry t' k)) w = zget (paddr (tlb_entry t k)) w /\
     zget (pte (tlb_entry t' k)) w = zget (pte (tlb_entry t k)) w).
Proof.
  intros Hea HP Ht. cbv zeta. unfold UpdateTLBEntry, HW_PAGE_INDEX_SHIFT, HW_PAGE_INDEX_MASK. cbv zeta.
  destruct (IsNoExceptionFlag f) eqn:Ef; [split; [done |]; intros; right; done |].
  set (k := (IsOpcodeFlag f, (ea .>> 12) .& 63)). set (i := b2z _).
  assert (Hi : i = 0 \/ i = 1) by (subst i; unfold b2z; destruct (_ && _); auto). clearbody i. destruct (Ht k) as [S1 S2 S3].
  assert (Rtag : inu 32 (ea .>> 12)).
  { unfold inu in *. rewrite Z.shiftr_div_pow2 by lia. Z.to_euclidean_division_equations. lia. }
  assert (Erpn : u32 (PTE2_RPN PTE2 .<< 12) = PTE2_RPN PTE2 .<< 12).
  { apply wrapu_id. pose proof (field_range 12 20 PTE2 ltac:(lia)) as R. unfold inu, PTE2_RPN in *. rewrite Z.shiftl_mul_pow2 by lia. lia. }
  rewrite Erpn. split.
  - intros k'. rewrite tlb_entry_insert. destruct (decide (k' = k)); [| done].
    constructor; cbn [tag paddr pte]; apply arr_ok_zset; try done. rewrite <- Erpn. range.
  - intros k' w Hw. rewrite tlb_entry_insert. destruct (decide (k' = k)) as [-> |]; [| right; done]. cbn [tag paddr pte].
    destruct (decide (w = i)) as [-> | N].
    + left. rewrite !(zget_zset_same 2 32) by (done || lia). done.
    + right. rewrite !zget_zset_other by lia. done.
Qed.

(** ** The use of an entry *)

Lemma access_bits_range f x : inu 32 x -> inu 32 (access_bits f x).
Proof. intros Hx. destruct f; cbn; try done; repeat apply inu_lor; (done || lia || range). Qed.

Lemma access_bits_rpn f x : PTE2_RPN (access_bits f x) = PTE2_RPN x.
Proof.
  assert (L : forall b, b = PTE2_R \/ b = PTE2_C -> forall y, PTE2_RPN (y .| b) = PTE2_RPN y).
  { intros b Hb y. unfold PTE2_RPN. apply Z.bits_inj'. intros i Hi. rewrite !testbit_field, Z.lor_spec by lia.
    replace (Z.testbit b (i + 12)) with false; [by rewrite orb_false_r |].
    symmetry. apply (testbit_inu_high 12); [lia | destruct Hb as [-> | ->]; split; (discriminate || reflexivity) | lia]. }
  destruct f; cbn; rewrite ?L by auto; done.
Qed.

Lemma access_bits_keep f x b : b = PTE2_R \/ b = PTE2_C -> flag x b = true -> flag (access_bits f x) b = true.
Proof.
  intros Hb H. assert (K : forall c, flag (x .| c) b = true).
  { intros c. destruct Hb as [-> | ->]; unfold PTE2_R, PTE2_C in *; rewrite ?Z.shiftl_1_l in *; rewrite flag_testbit, Z.lor_spec in * by lia;
      rewrite H; done. }
  destruct f; cbn; try done. rewrite <- Z.lor_assoc. apply K.
Qed.

Lemma access_bits_set f x :
  IsNoExceptionFlag f = false -> flag (access_bits f x) PTE2_R = true /\ (f = Write -> flag (access_bits f x) PTE2_C = true).
Proof.
  intros Hf. assert (K : forall y k, 0 <= k -> flag (y .| (1 .<< k)) (1 .<< k) = true).
  { intros y k Hk. rewrite Z.shiftl_1_l, flag_testbit, Z.lor_spec, Z.pow2_bits_true by done. apply orb_true_r. }
  destruct f; cbn; try done; (split; [| try done]); try (intros _).
  - apply K. lia.
  - rewrite <- Z.lor_assoc, (Z.lor_comm PTE2_R), Z.lor_assoc. apply K. lia.
  - apply K. lia.
  - apply K. lia.
Qed.

(** The entry of a page is used: its access is recorded and the TLB gets it. *)
Lemma use_entry_spec f res ea m a :
  table_ok m -> inu 32 ea -> page_entry m ea = Some a ->
  exists m', use_entry f res ea a m =
      Done (PAGE_TABLE_TRANSLATED ((PTE2_RPN (word (memory m) (a + 4)) .<< 12) .| EA_Offset ea)) m' /\
    frame m m' /\ (forall q, outside_table m q -> load_u8 (memory m') q = load_u8 (memory m) q) /\
    word (memory m') (a + 4) = access_bits f (word (memory m) (a + 4)) /\
    tlb m' = (match res with UpdateC => tlb m | _ => UpdateTLBEntry f (word (memory m') (a + 4)) ea (tlb m) end).
Proof.
  intros Hm Hea Ha. destruct (page_entry_in m ea a Ha) as (h & Hc & _).
  pose proof (candidates_in_table m ea _ Hc) as Hin. cbn [snd] in Hin.
  destruct (in_table_aligned m a Hm Hin) as (C1 & C2 & C3 & _ & C4).
  assert (Hal : (a + 4) mod 4 = 0) by (revert C2; clear; Z.to_euclidean_division_equations; lia).
  destruct (read_word_ok (memory m) (a + 4)) as (w & Ew & Rw); [lia | done | done | apply (table_memory m Hm) |].
  assert (Eu : u32 (a + 4) = a + 4) by (apply wrapu_id; unfold inu; lia).
  unfold use_entry. rewrite Eu. unfold mbind, M_bind, gets, host, mret, M_ret, modify. rewrite Ew.
  assert (Eword : word (memory m) (a + 4) = swap32 w) by (unfold word; rewrite Ew; done). rewrite Eword.
  set (x := access_bits f (swap32 w)). assert (Rx : inu 32 x) by (apply access_bits_range, swap32_range).
  destruct (IsNoExceptionFlag f) eqn:Ef.
  - assert (x = swap32 w) as Ex by (subst x; destruct f; done). rewrite Ex.
    exists (match res with UpdateC => m | _ => set_tlb (UpdateTLBEntry f (swap32 w) ea (tlb m)) m end).
    split; [destruct res; reflexivity |]. split; [constructor; destruct res; try done; exact (table_step_refl m (table_memory m Hm)) |].
    split; [destruct res; done |]. destruct res; cbn [memory tlb set_tlb]; rewrite Eword; done.
  - destruct (write_word_ok (memory m) (a + 4) (swap32 x)) as (mem' & Es & M1 & M2 & M3 & M4 & M5);
      [lia | done | done | apply (table_memory m Hm) | apply swap32_range |].
    assert (Eword' : word mem' (a + 4) = x) by (unfold word; rewrite M3; apply swap32_swap32; done).
    rewrite Es. cbn [memory set_memory]. subst x. rewrite access_bits_rpn.
    exists (match res with UpdateC => set_memory mem' m | _ => set_tlb (UpdateTLBEntry f (access_bits f (swap32 w)) ea (tlb m)) (set_memory mem' m) end).
    split; [destruct res; reflexivity |].
    assert (T : table_step m mem').
    { constructor; [done | done | |]; intros b Hb; destruct (in_table_aligned m b Hm Hb) as (B1 & B2 & _).
      - apply M4; [done | revert B2; clear; Z.to_euclidean_division_equations; lia |].
        revert B2 C2. clear. Z.to_euclidean_division_equations. lia.
      - destruct (decide (b = a)) as [-> | N].
        + rewrite Eword', Eword, access_bits_rpn. split_and!; [done | |]; apply access_bits_keep; auto.
        + unfold word. rewrite M4; [done | lia | revert B2; clear; Z.to_euclidean_division_equations; lia | lia]. }
    assert (U : forall q, outside_table m q -> load_u8 mem' q = load_u8 (memory m) q).
    { intros q Hq. destruct C4 as [p Hp]. apply (M5 p q Hp). destruct (Hq a p Hin Hp) as [? | [? | ?]]; [by left | right; left; lia | right; right; lia]. }
    split; [constructor; destruct res; done |]. split; [destruct res; exact U |].
    destruct res; cbn [memory tlb set_tlb set_memory]; rewrite Eword'; done.
Qed.

(** ** The walk *)

Lemma EA_ranges ea : inu 16 (EA_PageIndex ea) /\ inu 6 (EA_API ea).
Proof.
  unfold EA_PageIndex, EA_API. change 0xffff with (Z.ones 16). change 0x3f with (Z.ones 6).
  rewrite !Z.land_ones by lia. split; apply Z.mod_pos_bound; lia.
Qed.

Lemma VSID_range v : inu 24 (SR_VSID v).
Proof. unfold SR_VSID. change 0xffffff with (Z.ones 24). rewrite Z.land_ones by lia. apply Z.mod_pos_bound. lia. Qed.

(** Both loops find the page's entry. *)
Lemma walk_spec m ea :
  table_ok m ->
  let hash := SR_VSID (segment m ea) .^ EA_PageIndex ea in
  let pte1 := swap32 (u32 ((SR_VSID (segment m ea) .<< 7) .| EA_API ea .| PTE1_V)) in
  exists first second,
    search_group (memory m) pte1 (group m hash) 8 = Some first /\
    search_group (memory m) (pte1 .| (PTE1_H .<< 24)) (group m (u32 (.~ hash))) 8 = Some second /\
    page_entry m ea = match first with Some a => Some a | None => second end.
Proof.
  intros Hm. cbv zeta. set (vsid := SR_VSID (segment m ea)). set (api := EA_API ea). set (hash := vsid .^ EA_PageIndex ea).
  assert (Hv : inu 24 vsid) by apply VSID_range. destruct (EA_ranges ea) as [_ Hapi]. fold api in Hapi.
  assert (Hx : inu 32 ((vsid .<< 7) .| api .| PTE1_V)).
  { repeat apply inu_lor; try lia; unfold inu in *; try (rewrite Z.shiftl_mul_pow2 by lia); try lia. split; [discriminate | reflexivity]. }
  rewrite (wrapu_id 32) by done.
  assert (H0 : swap32 ((vsid .<< 7) .| api .| PTE1_V) = swap32 ((vsid .<< 7) .| api .| PTE1_V .| (0 .<< 6))) by (rewrite Z.lor_0_r; done).
  assert (H1 : swap32 ((vsid .<< 7) .| api .| PTE1_V) .| (PTE1_H .<< 24) = swap32 ((vsid .<< 7) .| api .| PTE1_V .| (1 .<< 6)))
    by (rewrite (swap32_lor _ (1 .<< 6)); reflexivity).
  assert (S : forall h g p1, h = 0 \/ h = 1 -> p1 = swap32 ((vsid .<< 7) .| api .| PTE1_V .| (h .<< 6)) ->
    search_group (memory m) p1 (group m g) 8 =
      Some (head (filter (fun b => pte_matches (word (memory m) b) vsid api h = true) ((fun i => group m g + 8 * i) <$> upto 8)))).
  { intros h g p1 Hh ->. destruct (group_range m g Hm) as (G1 & G2 & G3).
    apply search_group_spec; [apply (table_memory m Hm) | done | revert G3; clear; Z.to_euclidean_division_equations; lia | lia | |].
    - intros i Hi. apply (table_mapped m Hm). lia.
    - apply compare_words; done. }
  do 2 eexists. rewrite H1. split; [exact (S 0 hash _ ltac:(auto) H0) |]. split; [exact (S 1 _ _ ltac:(auto) eq_refl) |].
  unfold page_entry, candidates. cbv zeta. fold vsid hash. rewrite filter_app.
  assert (F : forall h g, filter (fun c => is_entry m ea c = true) ((fun i => (h, group m g + 8 * i)) <$> upto 8) =
    (fun b => (h, b)) <$> filter (fun b => pte_matches (word (memory m) b) vsid api h = true) ((fun i => group m g + 8 * i) <$> upto 8)).
  { intros h g. generalize (upto 8). intros l. induction l as [| i l IH]; [done |]. rewrite !fmap_cons.
    destruct (pte_matches (word (memory m) (group m g + 8 * i)) vsid api h) eqn:E.
    - rewrite !filter_cons_True, fmap_cons, IH by done. done.
    - rewrite !filter_cons_False, IH by (intros X; change (pte_matches (word (memory m) (group m g + 8 * i)) vsid api h = true) in X; congruence). done. }
  rewrite !F. destruct (filter _ _) as [| b l]; [| done]. destruct (filter _ _); done.
Qed.

(** ** Translation *)

(** The entry of the page that was accessed says so. *)
Definition recorded (f : XCheckTLBFlag) (ea : Z) m m' : Prop :=
  IsNoExceptionFlag f = false -> forall a, page_entry m ea = Some a ->
    flag (word (memory m') (a + 4)) PTE2_R = true /\ (f = Write -> flag (word (memory m') (a + 4)) PTE2_C = true).

Lemma frame_refl m t : table_ok m -> frame m (set_tlb t m).
Proof. intros Hm. constructor; try done. exact (table_step_refl m (table_memory m Hm)). Qed.

(** A way that holds the page of [ea]. *)
Lemma hit_agrees m opc e w ea :
  inu 32 ea -> way_agrees m opc e w -> zget (tag e) w = ea .>> 12 ->
  flag (segment m ea) 0x80000000 = false /\ (opc = true -> flag (segment m ea) 0x10000000 = false) /\
  exists a, page_entry m ea = Some a /\ zget (paddr e) w = PTE2_RPN (word (memory m) (a + 4)) .<< 12 /\
    flag (word (memory m) (a + 4)) PTE2_R = true /\
    (flag (zget (pte e) w) PTE2_C = true -> flag (word (memory m) (a + 4)) PTE2_C = true).
Proof.
  intros Hea H Et. unfold way_agrees in H. cbv zeta in H. rewrite Et in H.
  rewrite (segment_page m _ ea (page_start ea)), (page_entry_page m _ ea (page_start ea)) in H. apply H.
  unfold INVALID_TAG. intros E. unfold inu in Hea. rewrite Z.shiftr_div_pow2 in E by lia. Z.to_euclidean_division_equations. lia.
Qed.

(** The walk after a miss, or to set the changed bit of a page in the TLB. *)
Lemma used_entry_ok f res ea m m1 a m' t :
  tlb_ok m -> inu 32 ea -> page_entry m ea = Some a -> flag (segment m ea) 0x80000000 = false ->
  IsOpcodeFlag f && flag (segment m ea) 0x10000000 = false ->
  m1 = set_tlb t m -> (forall k, entry_shape (tlb_entry t k)) ->
  (match res with
   | UpdateC => f = Write /\ forall k w, w = 0 \/ w = 1 ->
       zget (tag (tlb_entry t k)) w = zget (tag (tlb_entry (tlb m) k)) w /\
       zget (paddr (tlb_entry t k)) w = zget (paddr (tlb_entry (tlb m) k)) w /\
       (zget (tag (tlb_entry (tlb m) k)) w = ea .>> 12 \/
        zget (pte (tlb_entry t k)) w = zget (pte (tlb_entry (tlb m) k)) w)
   | _ => t = tlb m
   end) ->
  frame m1 m' ->
  word (memory m') (a + 4) = access_bits f (word (memory m) (a + 4)) ->
  tlb m' = (match res with UpdateC => t | _ => UpdateTLBEntry f (word (memory m') (a + 4)) ea t end) ->
  frame m m' /\ tlb_ok m' /\ recorded f ea m m'.
Proof.
  intros Hok Hea Ha HT HN -> Ht Hres F Hw Htlb. pose proof (tlb_table _ _ Hok) as Hm.
  assert (F' : frame m m') by (destruct F as [? ? ? ? ? ? ? []]; constructor; try done; constructor; done).
  assert (Rec : recorded f ea m m').
  { intros Hf b Hb. assert (b = a) as -> by congruence. rewrite Hw. apply access_bits_set. done. }
  split; [done |]. split; [| done]. destruct res as [? | |].
  1, 2: (subst t; destruct (UpdateTLBEntry_spec f (word (memory m') (a + 4)) ea (tlb m) Hea) as [U1 U2];
    [rewrite Hw; apply access_bits_range, swap32_range | done |]; rewrite <- Htlb in U1, U2;
    constructor; [apply (frame_table m); done | done |]; intros opc i w Hi Hn;
    destruct (U2 (opc, i) w Hi) as [(V1 & V2 & V3 & V4 & V5) | (V1 & V2 & V3)];
    [| apply (frame_way m m' opc (tlb_entry (tlb m) (opc, i))); try done; [rewrite V3; auto | apply (tlb_agrees _ _ Hok); done]];
    injection V2 as -> ->; unfold way_agrees; cbv zeta; rewrite V3; intros _;
    rewrite (segment_page m' _ ea (page_start ea)), (page_entry_page m' _ ea (page_start ea)), (frame_segment m m' ea F'), (frame_entry m m' ea Hm F');
    split_and!; [done | intros E; rewrite E in HN; done |]; exists a; split_and!;
    [done | done | apply (Rec V1 a Ha) | rewrite V5; done]).
  destruct Hres as [-> Hres]. constructor; [apply (frame_table m); done | rewrite Htlb; done |].
  intros opc i w Hi Hn. rewrite Htlb. destruct (Hres (opc, i) w Hi) as (E1 & E2 & E3).
  apply (frame_way m m' opc (tlb_entry (tlb m) (opc, i))); try done; [| apply (tlb_agrees _ _ Hok); done].
  destruct E3 as [E3 | ->]; [| auto]. intros _. right. intros b. rewrite E3, (page_entry_page m _ ea (page_start ea)). intros Hb.
  apply (Rec eq_refl b Hb). done.
Qed.

Lemma TranslatePageAddress_spec f ea m :
  tlb_ok m -> inu 32 ea ->
  exists m', TranslatePageAddress ea f m = Done (page_reference m f ea) m' /\ frame m m' /\ tlb_ok m' /\
    (forall q, outside_table m q -> load_u8 (memory m') q = load_u8 (memory m) q) /\
    (Success (page_reference m f ea) <> None -> recorded f ea m m').
Proof.
  intros Hok Hea. pose proof (tlb_table _ _ Hok) as Hm. unfold TranslatePageAddress.
  pose proof (LookupTLBPageAddress_spec f ea (tlb m) (tlb_shape _ _ Hok)) as L. cbv zeta in L.
  unfold mbind, M_bind, gets, modify, host, mret, M_ret. destruct (LookupTLBPageAddress f ea (tlb m)) as [res t].
  destruct L as (L1 & L2 & L3). set (k := (IsOpcodeFlag f, (ea .>> 12) .& 0x3f)) in *.
  assert (Ht : forall k, entry_shape (tlb_entry t k)) by (intros k'; apply (touched_shape _ _ (L1 k')), (tlb_shape _ _ Hok)).
  pose proof (frame_refl m t Hm) as F1.
  assert (W : forall r, (match r with Some a => page_entry m ea = Some a | None => False end) ->
    flag (segment m ea) 0x80000000 = false -> IsOpcodeFlag f && flag (segment m ea) 0x10000000 = false ->
    (match res with
     | UpdateC => f = Write /\ forall k w, w = 0 \/ w = 1 ->
         zget (tag (tlb_entry t k)) w = zget (tag (tlb_entry (tlb m) k)) w /\
         zget (paddr (tlb_entry t k)) w = zget (paddr (tlb_entry (tlb m) k)) w /\
         (zget (tag (tlb_entry (tlb m) k)) w = ea .>> 12 \/ zget (pte (tlb_entry t k)) w = zget (pte (tlb_entry (tlb m) k)) w)
     | _ => t = tlb m
     end) ->
    exists m', (match r with Some a => use_entry f res ea a (set_tlb t m) | None => Fault end) = Done (page_reference m f ea) m' /\
      frame m m' /\ tlb_ok m' /\ (forall q, outside_table m q -> load_u8 (memory m') q = load_u8 (memory m) q) /\
      (Success (page_reference m f ea) <> None -> recorded f ea m m')).
  { intros [a |] Ha HT HN Hres; [| done].
    destruct (use_entry_spec f res ea (set_tlb t m) a) as (m' & U1 & U2 & U5 & U3 & U4); [apply (frame_table m); done | done | rewrite (frame_entry m _ ea Hm F1); exact Ha |].
    change (memory (set_tlb t m)) with (memory m) in U1, U3. change (tlb (set_tlb t m)) with t in U4.
    destruct (used_entry_ok f res ea m _ a m' t Hok Hea Ha HT HN eq_refl Ht Hres U2 U3 U4) as (V1 & V2 & V3).
    exists m'. rewrite U1. unfold page_reference. rewrite HT, HN, Ha. done. }
  assert (Walk : page_entry m ea = None \/ exists a, page_entry m ea = Some a) by (destruct (page_entry m ea); eauto).
  destruct res as [pa | |].
  - destruct L3 as (w & Hw & Htag & -> & HC & Hpte). unfold k in *.
    destruct (hit_agrees m _ _ w ea Hea (tlb_agrees _ _ Hok _ _ w Hw ltac:(tauto)) Htag) as (HT & HN & a & Ha & Hpa & HR & HC').
    exists (set_tlb t m). unfold page_reference. rewrite HT, Ha, Hpa.
    assert (IsOpcodeFlag f && flag (segment m ea) 0x10000000 = false) as -> by (destruct (IsOpcodeFlag f); [rewrite HN |]; done).
    split_and!; [done | done | | done | intros _ _ b Hb; assert (b = a) as -> by congruence; cbn [memory set_tlb]; auto].
    constructor; [apply (frame_table m); done | done |]. intros opc i w' Hi Hn. cbn [tlb set_tlb].
    apply (frame_way m _ opc (tlb_entry (tlb m) (opc, i))); try done;
      [by rewrite (touched_tag _ _ (L1 _)) | by rewrite (touched_paddr _ _ (L1 _)) | | apply (tlb_agrees _ _ Hok); done].
    intros C. left. revert C. destruct (decide ((opc, i) = (IsOpcodeFlag f, (ea .>> 12) .& 0x3f))) as [E | N].
    + rewrite E, Hpte. done.
    + rewrite (L2 _ N). done.
  - subst t. assert (Em : set_tlb (tlb m) m = m) by (destruct m; done). rewrite Em in *. cbn [id].
    change (zget (sr (cpu m)) (EA_SR ea)) with (segment m ea). fold (IsOpcodeFlag f).
    destruct (flag (segment m ea) 0x80000000) eqn:HT.
    { exists m. unfold page_reference. rewrite HT. done. }
    destruct (IsOpcodeFlag f && flag (segment m ea) 0x10000000) eqn:HN.
    { exists m. unfold page_reference. rewrite HT, HN. done. }
    destruct (walk_spec m ea Hm) as (first & second & S1 & S2 & S3). unfold group in S1, S2.
    rewrite S1. destruct first as [a |]; [destruct (W (Some a)) as (m' & W1 & W2); eauto |].
    rewrite S2. destruct second as [a |]; [destruct (W (Some a)) as (m' & W1 & W2); eauto |].
    exists m. unfold page_reference. rewrite HT, HN, S3. done.
  - destruct L3 as [-> (w & Hw & Htag & L3)]. unfold k in *.
    destruct (hit_agrees m _ _ w ea Hea (tlb_agrees _ _ Hok _ _ w Hw ltac:(tauto)) Htag) as (HT & _ & a & Ha & _).
    cbn [cpu set_tlb id]. change (zget (sr (cpu m)) (EA_SR ea)) with (segment m ea). rewrite HT. cbn [andb orb bool_decide].
    assert (HU : Write = Write /\ forall k w, w = 0 \/ w = 1 ->
         zget (tag (tlb_entry t k)) w = zget (tag (tlb_entry (tlb m) k)) w /\
         zget (paddr (tlb_entry t k)) w = zget (paddr (tlb_entry (tlb m) k)) w /\
         (zget (tag (tlb_entry (tlb m) k)) w = ea .>> 12 \/ zget (pte (tlb_entry t k)) w = zget (pte (tlb_entry (tlb m) k)) w)).
    { split; [done |]. intros k' w' Hw'. rewrite (touched_tag _ _ (L1 _)), (touched_paddr _ _ (L1 _)). split_and!; [done | done |].
      destruct (decide (k' = (false, (ea .>> 12) .& 0x3f))) as [-> | N]; [| right; rewrite L2; done].
      destruct (decide (w' = w)) as [-> |]; [by left | right; by apply L3]. }
    destruct (walk_spec m ea Hm) as (first & second & S1 & S2 & S3). unfold group in S1, S2. cbn [memory set_tlb pagetable_base pagetable_hashmask].
    rewrite S1. destruct first as [b |]; [destruct (W (Some b)) as (m' & W1 & W2); eauto |].
    rewrite S2. destruct second as [b |]; [destruct (W (Some b)) as (m' & W1 & W2); eauto |]. congruence.
Qed.

Lemma TranslateAddress_spec f ea m :
  tlb_ok m -> inu 32 ea ->
  exists m', TranslateAddress f ea m = Done (reference m f ea) m' /\ frame m m' /\ tlb_ok m' /\
    (forall q, outside_table m q -> load_u8 (memory m') q = load_u8 (memory m) q) /\
    ((exists pa, reference m f ea = PAGE_TABLE_TRANSLATED pa) -> recorded f ea m m').
Proof.
  intros Hok Hea. unfold TranslateAddress, reference, mbind, M_bind, gets, mret, M_ret. cbn [id].
  destruct (TranslateBatAddess _ _) as [a |].
  - exists m. split_and!; [done | | done | done | by intros [pa E]].
    replace m with (set_tlb (tlb m) m) at 2 by (destruct m; done). apply frame_refl, (tlb_table _ _ Hok).
  - destruct (TranslatePageAddress_spec f ea m Hok Hea) as (m' & -> & F & H & U & R).
    exists m'. split_and!; [done.. |]. intros [pa E]. apply R. rewrite E. done.
Qed.

(** C15: As long as the TLBs agree with the page table, the translation of any
    address by any kind of access returns what the BAT registers or else the
    segment and the page table say, with the first matching entry of the two
    groups of the page's hash; the TLBs agree with the page table again; no
    translation of any address has changed; an entry that was used says that
    its page was referenced, and changed if the access was a store (unless the
    access is the debugger's). *)
Theorem translation_is_page_walk f ea m :
  tlb_ok m -> inu 32 ea ->
  exists m', TranslateAddress f ea m = Done (reference m f ea) m' /\ tlb_ok m' /\ cpu m' = cpu m /\
    (forall f' ea', reference m' f' ea' = reference m f' ea') /\
    ((exists pa, reference m f ea = PAGE_TABLE_TRANSLATED pa) -> recorded f ea m m').
Proof.
  intros Hok Hea. destruct (TranslateAddress_spec f ea m Hok Hea) as (m' & E & F & H & _ & R). exists m'.
  split_and!; [done | done | apply (frame_cpu _ _ F) | | done].
  intros f' ea'. apply frame_reference; [apply (tlb_table _ _ Hok) | done].
Qed.

(** [InvalidateTLBEntry], the work of [tlbie], restores the agreement of
    the TLBs with the page table when only entries of the set of the given
    address disagree, as after a change of that page's entry in memory; it
    changes no translation and nothing but the TLBs. *)
Theorem tlbie_restores ea m :
  tlb_ok_but (fun i => i = (ea .>> 12) .& 0x3f) m ->
  let m' := InvalidateTLBEntry ea m in
  tlb_ok m' /\ cpu m' = cpu m /\ memory m' = memory m /\ (forall f' ea', reference m' f' ea' = reference m f' ea').
Proof.
  intros [Hm Hs Hg]. cbv zeta. unfold InvalidateTLBEntry, HW_PAGE_INDEX_SHIFT, HW_PAGE_INDEX_MASK. cbv zeta.
  set (i0 := (ea .>> 12) .& 63) in *. set (t' := <[(true, i0) := _]> _).
  pose proof (frame_refl m t' Hm) as F. split_and!; [| done | done | intros; apply frame_reference; done].
  assert (Hinv : inu 32 INVALID_TAG) by (split; [discriminate | reflexivity]).
  assert (E : forall opc i, tlb_entry t' (opc, i) = tlb_entry (tlb m) (opc, i) /\ i <> i0 \/
    entry_shape (tlb_entry t' (opc, i)) /\ forall w, w = 0 \/ w = 1 -> zget (tag (tlb_entry t' (opc, i))) w = INVALID_TAG).
  { intros opc i. destruct (decide (i = i0)) as [-> | N].
    - right. assert (K : forall e, entry_shape e ->
        entry_shape (mk_tlbe (zset (zset (tag e) 0 INVALID_TAG) 1 INVALID_TAG) (paddr e) (pte e) (recent e)) /\
        forall w, w = 0 \/ w = 1 -> zget (zset (zset (tag e) 0 INVALID_TAG) 1 INVALID_TAG) w = INVALID_TAG).
      { intros e []. assert (A : arr_ok 2 32 (zset (tag e) 0 INVALID_TAG)) by (apply arr_ok_zset; done).
        split; [constructor; try done; apply arr_ok_zset; done |]. intros w [-> | ->].
        - rewrite zget_zset_other, (zget_zset_same 2 32) by (done || lia). done.
        - rewrite (zget_zset_same 2 32) by (done || lia). done. }
      subst t'. destruct opc; rewrite !tlb_entry_insert.
      + rewrite !decide_True, decide_False by done. apply K, Hs.
      + rewrite decide_False, !decide_True by done. apply K, Hs.
    - left. subst t'. rewrite !tlb_entry_insert, !decide_False by congruence. done. }
  constructor; [apply (frame_table m); done | |].
  - intros [opc i]. cbn [tlb set_tlb]. destruct (E opc i) as [[-> _] | [S _]]; done.
  - intros opc i w Hw _. cbn [tlb set_tlb]. destruct (E opc i) as [[-> N] | [_ S]].
    + apply (frame_way m _ opc (tlb_entry (tlb m) (opc, i))); auto.
    + intros X. rewrite S in X by done. done.
Qed.
End Reference.

(** ** Example: a page table at 0x10000 that maps one page *)

(** A big-endian word put into memory. *)
Definition poke (a v : Z) (mem : Memmap) : Memmap := default mem (write_word a (swap32 v) mem).

Definition one_page : Mmu unit :=
  let mem := poke 0x14884 0x00345000 (poke 0x14880 0x80009181 (Memmap.Init false true)) in
  SDRUpdated (mk_mmu (put_spr SPR_SDR 0x00010000 (set_sr (0x123 :: replicate 15 0) ppcState)) mem ∅ 0 0 ∅ ∅ PpcCache.Init tt).

Lemma SDRUpdated_memory {D} (m : Mmu D) :
  memory (SDRUpdated m) = memory m /\ ibat_table (SDRUpdated m) = ibat_table m /\ dbat_table (SDRUpdated m) = dbat_table m.
Proof. unfold SDRUpdated. cbv zeta. repeat match goal with |- context [if ?b then _ else _] => destruct b end; done. Qed.

Lemma empty_tlb_ok {D} (m : Mmu D) : table_ok m -> tlb m = ∅ -> tlb_ok m.
Proof.
  intros Hm Ht. assert (E : forall k, tlb_entry (tlb m) k = empty_entry) by (intros k; rewrite Ht; unfold tlb_entry; rewrite lookup_empty; done).
  constructor; [done | |].
  - intros k. rewrite E. constructor; (split; [done |]); repeat constructor; (discriminate || reflexivity).
  - intros opc i w Hw _. rewrite E. intros X. destruct X. destruct Hw as [-> | ->]; reflexivity.
Qed.

Lemma fresh_memory_ok wii bMMU : memory_ok (Memmap.Init wii bMMU).
Proof. intros b x. destruct b, wii, bMMU; cbn; try done; intros [= <-] a v; rewrite lookup_empty; done. Qed.

Lemma ram_pointer mem a : 0 <= a < 0x2000000 -> physical_pointer mem a = Some (RAM, a).
Proof. intros Ha. unfold physical_pointer. change RAM_SIZE with 0x2000000. rewrite (proj2 (Z.ltb_lt _ _)) by lia. done. Qed.

Lemma poke_ok a v mem : 0 <= a < 0x2000000 -> a mod 4 = 0 -> memory_ok mem -> memory_ok (poke a v mem).
Proof.
  intros Ha Hal Hm. unfold poke.
  destruct (write_word_ok mem a (swap32 v)) as (m' & -> & M & _); [lia | done | rewrite ram_pointer by done; eauto | done | apply swap32_range | done].
Qed.

(** The page table of [one_page]: 1024 groups at 0x10000. *)
Lemma small_group {D} (m : Mmu D) hash :
  pagetable_base m = 0x10000 -> pagetable_hashmask m = 0x3ff -> 0x10000 <= group m hash /\ group m hash + 64 <= 0x20000.
Proof.
  intros Eb Em. unfold group. rewrite Eb, Em. change 0x10000 with (1 .<< 16) at 2 3. change 0x3ff with (Z.ones 10).
  rewrite Z.land_ones by lia. pose proof (Z.mod_pos_bound hash (2 ^ 10) ltac:(lia)) as B.
  rewrite wrapu_id by (unfold inu; rewrite Z.shiftl_mul_pow2 by lia; lia).
  rewrite Z.lor_comm, lor_shift_add by (rewrite ?Z.shiftl_mul_pow2; lia). rewrite Z.shiftl_mul_pow2 by lia. lia.
Qed.

Lemma small_table_ok {D} (m : Mmu D) :
  memory_ok (memory m) -> pagetable_base m = 0x10000 -> pagetable_hashmask m = 0x3ff -> table_ok m.
Proof.
  intros Hm Eb Em. constructor; [done | rewrite Eb; unfold inu; lia | rewrite Eb; reflexivity |].
  intros hash i Hi. destruct (small_group m hash Eb Em). rewrite !ram_pointer by lia. eauto.
Qed.

Lemma one_page_ok : tlb_ok one_page.
Proof.
  apply empty_tlb_ok; [| reflexivity]. apply small_table_ok; [| reflexivity | reflexivity].
  unfold one_page. rewrite (proj1 (SDRUpdated_memory _)). apply poke_ok; [lia | done |]. apply poke_ok; [lia | done |]. apply fresh_memory_ok.
Qed.

Lemma translation_is_page_walk_witness :
  tlb_ok one_page /\ reference one_page Write 0x00401ABC = PAGE_TABLE_TRANSLATED 0x00345ABC /\
  exists m', TranslateAddress Write 0x00401ABC one_page = Done (PAGE_TABLE_TRANSLATED 0x00345ABC) m' /\
    reference m' Write 0x00401ABC = PAGE_TABLE_TRANSLATED 0x00345ABC.
Proof.
  assert (E : reference one_page Write 0x00401ABC = PAGE_TABLE_TRANSLATED 0x00345ABC) by (vm_compute; reflexivity).
  split; [exact one_page_ok |]. split; [exact E |].
  destruct (translation_is_page_walk Write 0x00401ABC one_page one_page_ok) as (m' & T & _ & _ & R & _); [unfold inu; lia |].
  exists m'. split; [exact (eq_trans T (f_equal (fun r => Done r m') E)) | exact (eq_trans (R _ _) E)].
Defined.

(** The page is used, then moved in memory: the TLB still has the old one. *)
Definition stale : Mmu unit :=
  match TranslateAddress Read 0x00401ABC one_page with
  | Done _ m => set_memory (poke 0x14884 0x00777000 (memory m)) m
  | _ => one_page
  end.

Lemma stale_tlb :
  tlb stale = <[(false, 1) := mk_tlbe [0x401; INVALID_TAG] [0x345000; 0] [0x345100; 0] 0]> ∅.
Proof. vm_compute. reflexivity. Qed.

Lemma stale_ok : tlb_ok_but (fun i => i = (0x00401ABC .>> 12) .& 0x3f) stale.
Proof.
  assert (E : forall k, k <> (false, 1) -> tlb_entry (tlb stale) k = empty_entry).
  { intros k N. rewrite stale_tlb, tlb_entry_insert, decide_False by done. unfold tlb_entry. rewrite lookup_empty. done. }
  constructor.
  - unfold stale. destruct (TranslateAddress_spec Read 0x00401ABC one_page one_page_ok) as (m & -> & F & H & _); [unfold inu; lia |].
    pose proof (tlb_table _ _ H) as Hm. pose proof (step_banks _ _ (frame_memory _ _ F)) as B. unfold poke.
    destruct (write_word_ok (memory m) 0x14884 (swap32 0x00777000)) as (m2 & -> & M & B2 & _);
      [lia | done | rewrite (same_banks_pointer _ _ _ B); vm_compute; eauto | apply (table_memory m Hm) | apply swap32_range |].
    constructor; cbn [memory set_memory]; [done | apply (table_base m Hm) | apply (table_aligned m Hm) |].
    intros hash i Hi. rewrite !(same_banks_pointer _ _ _ B2). apply (table_mapped m Hm). done.
  - intros k. destruct (decide (k = (false, 1))) as [-> |].
    + rewrite stale_tlb, tlb_entry_insert, decide_True by done.
      constructor; (split; [done |]); repeat constructor; (discriminate || reflexivity).
    + rewrite E by done. constructor; (split; [done |]); repeat constructor; (discriminate || reflexivity).
  - intros opc i w Hw Hn. rewrite E by (intros [= _ ->]; apply Hn; reflexivity). intros X. destruct X. destruct Hw as [-> | ->]; reflexivity.
Qed.

Lemma tlbie_restores_witness :
  reference stale Read 0x00401ABC = PAGE_TABLE_TRANSLATED 0x00777ABC /\
  (match TranslateAddress Read 0x00401ABC stale with Done r _ => r | _ => PAGE_FAULT end = PAGE_TABLE_TRANSLATED 0x00345ABC) /\
  (match TranslateAddress Read 0x00401ABC (InvalidateTLBEntry 0x00401ABC stale) with Done r _ => r | _ => PAGE_FAULT end
    = PAGE_TABLE_TRANSLATED 0x00777ABC) /\
  tlb_ok (InvalidateTLBEntry 0x00401ABC stale).
Proof.
  split; [vm_compute; reflexivity |]. split; [vm_compute; reflexivity |]. split; [vm_compute; reflexivity |].
  exact (proj1 (tlbie_restores 0x00401ABC stale stale_ok)).
Defined.
