(* ===== verification/PpcMmu.v ===== *)
(** Loads and stores through the memory management unit
    ([Core/PowerPC/MMU.cpp]): translation, the pages an access may cross, the
    choice between memory, the frame buffer, the gather pipe and the device
    registers, exceptions, the debugger's memory checks, the cache
    instructions and the locked cache's DMA.

    The theorems say that a store is read back by a load of the same address
    and width whatever translates it, page crossings included; that an access
    changes nothing but what it names and, when translation is on, never
    touches the host's memory outside the console's; that a failed
    translation is an exception and nothing else; and that a load across the
    end of the address space does not return. *)

From S2P Require Import Prelude Memmap PpcCache PpcState PpcBat PpcTlb.
Open Scope Z_scope.

(** ** The rest of the machine, as an access sees it *)

Inductive EFBAccessType := PeekZ | PokeZ | PeekColor | PokeColor.

(** The video backend and the debugger act on their own state; the handlers
    of device registers and the gather pipe may act on the whole machine.
    [mem_check] is [Memcheck] up to its decision to pause. *)
Class MmuHost (D : Type) := {
  Video_AccessEFB : EFBAccessType -> Z -> Z -> Z -> D -> Z * D;
  mmio_Read : Z -> Z -> Mmu D -> Z * Mmu D;
  mmio_Write : Z -> Z -> Z -> Mmu D -> Mmu D;
  GPFifo_Write : Z -> Z -> Mmu D -> Mmu D;
  mem_check : Z -> Z -> bool -> Z -> Z -> D -> bool * D;
  bMMU : bool
}.

Definition SPR_DSISR : Z := 18.
Definition SPR_HID0 : Z := 1008.
Definition RAM_MASK : Z := RAM_SIZE - 1.
Definition FAKEVMEM_MASK : Z := FAKEVMEM_SIZE - 1.

Definition PPC_EXC_DSISR_PAGE : Z := 1 .<< 30.
Definition PPC_EXC_DSISR_STORE : Z := 1 .<< 25.

Section Access.
Context {D : Type} `{MmuHost D}.

(** [sizeof(T)] selects the overload. *)
Definition bswap (size val : Z) : Z :=
  match size with 1 => val | 2 => swap16 val | 4 => swap32 val | _ => swap64 val end.

Definition access_efb (t : EFBAccessType) (x y data : Z) : M D Z :=
  fun m => let '(v, d) := Video_AccessEFB t x y data (devices m) in Done v (set_devices d m).

Definition EFB_Read (addr : Z) : M D Z :=
  let x := (addr .& 0xfff) .>> 2 in
  let y := (addr .>> 12) .& 0x3ff in
  if flag addr 0x00800000 then mret 0
  else if flag addr 0x00400000 then access_efb PeekZ x y 0
  else access_efb PeekColor x y 0.

Definition EFB_Write (data addr : Z) : M D unit :=
  let x := (addr .& 0xfff) .>> 2 in
  let y := (addr .>> 12) .& 0x3ff in
  if flag addr 0x00800000 then mret tt
  else if flag addr 0x00400000 then _ ← access_efb PokeZ x y data; mret tt
  else _ ← access_efb PokeColor x y data; mret tt.

Definition GenerateDSIException (effective_address : Z) (write : bool) : M D unit :=
  when bMMU (modify (fun m =>
    let s := cpu m in
    let s := put_spr SPR_DSISR (if negb (effective_address =? 0) then PPC_EXC_DSISR_PAGE .| PPC_EXC_DSISR_STORE
                                else PPC_EXC_DSISR_PAGE) s in
    let s := put_spr SPR_DAR effective_address s in
    set_cpu (set_Exceptions (Exceptions s .| EXCEPTION_DSI) s) m)).

Definition GenerateISIException (effective_address : Z) : M D unit :=
  modify (fun m => let s := set_npc effective_address (cpu m) in
                   set_cpu (set_Exceptions (Exceptions s .| EXCEPTION_ISI) s) m).

(** The byte of memory behind a physical address: the tests that
    [ReadFromHardware] and [WriteToHardware] share. *)
Definition hardware_pointer (m : Memmap) (em_address : Z) : option (Bank * Z) :=
  if (em_address .& 0xF8000000) =? 0x00000000 then Some (RAM, em_address .& RAM_MASK)
  else if bool_decide (is_Some (m_pEXRAM m)) && (em_address .>> 28 =? 0x1) && ((em_address .& 0x0FFFFFFF) <? EXRAM_SIZE)
  then Some (EXRAM, em_address .& 0x0FFFFFFF)
  else if (em_address .>> 28 =? 0xE) && (em_address <? 0xE0000000 + L1_CACHE_SIZE)
  then Some (L1Cache, em_address .& 0x0FFFFFFF)
  else if bool_decide (is_Some (m_pFakeVMEM m)) && ((em_address .& 0xFE000000) =? 0x7E000000)
  then Some (FakeVMEM, em_address .& RAM_MASK)
  else None.

(** [ReadFromHardware<flag, T, true>] *)
Definition read_physical (f : XCheckTLBFlag) (size em_address : Z) : M D Z :=
  mem ← gets memory;
  match hardware_pointer mem em_address with
  | Some p => l ← host (load_bytes mem p (Z.to_nat size)); mret (bswap size (le_value l))
  | None =>
    if bool_decide (f = Read) && ((em_address .& 0xF8000000) =? 0x08000000) then
      if em_address <? 0x0c000000 then v ← EFB_Read em_address; mret (wrapu (8 * size) v)
      else fun m => let '(v, m') := mmio_Read size em_address m in Done (wrapu (8 * size) v) m'
    else mret 0
  end.

(** The loop over the bytes of an access that crosses a page. [addr] wraps at
    32 bits, its bound [em_address + sizeof(T)] does not. *)
Fixpoint read_crossing (fuel : nat) (f : XCheckTLBFlag) (size em_address next_page next_translated : Z)
  (addr addr_translated var : Z) : M D Z :=
  match fuel with
  | O => fun _ => Loops
  | S fuel' =>
    if addr <? em_address + size then
      let addr_translated := if addr =? next_page then next_translated else addr_translated in
      b ← read_physical f 1 addr_translated;
      read_crossing fuel' f size em_address next_page next_translated
        (u32 (addr + 1)) (u32 (addr_translated + 1)) (wrapu (8 * size) ((var .<< 8) .| b))
    else mret var
  end.

Definition next_page_of (em_address size : Z) : Z := u32 (u64 (em_address + size - 1) .& u64 (.~ (HW_PAGE_SIZE - 1))).

(** The fuel of the loop: one round per byte and one for the final test. *)
Definition ReadFromHardware (f : XCheckTLBFlag) (size em_address : Z) : M D Z :=
  s ← gets cpu;
  if Z.testbit (msr s) MSR_DR then
    translated_addr ← TranslateAddress f em_address;
    match Success translated_addr with
    | None => _ ← when (bool_decide (f = Read)) (GenerateDSIException em_address false); mret 0
    | Some address =>
      if HW_PAGE_SIZE - size <? em_address .& (HW_PAGE_SIZE - 1) then
        let em_address_next_page := next_page_of em_address size in
        addr_next_page ← TranslateAddress f em_address_next_page;
        match Success addr_next_page with
        | None => _ ← when (bool_decide (f = Read)) (GenerateDSIException em_address_next_page false); mret 0
        | Some next =>
          read_crossing (S (Z.to_nat size)) f size em_address em_address_next_page next em_address address 0
        end
      else read_physical f size address
    end
  else read_physical f size em_address.

(** [WriteToHardware<flag, T, true>] *)
Definition write_physical (f : XCheckTLBFlag) (size em_address data : Z) : M D unit :=
  mem ← gets memory;
  match hardware_pointer mem em_address with
  | Some p => mem' ← host (store_bytes p (le_bytes (Z.to_nat size) (bswap size data)) mem); modify (set_memory mem')
  | None =>
    if bool_decide (f = Write) && ((em_address .& 0xFFFFF000) =? 0x0C008000) then modify (GPFifo_Write size data)
    else if bool_decide (f = Write) && ((em_address .& 0xF8000000) =? 0x08000000) then
      if em_address <? 0x0c000000 then EFB_Write (u32 data) em_address
      else modify (mmio_Write size em_address data)
    else mret tt
  end.

(** The loop over the bytes from the [i]-th on; [n] are left. *)
Fixpoint write_crossing (n : nat) (f : XCheckTLBFlag) (val em_address next_page next_translated : Z)
  (i addr_translated : Z) : M D unit :=
  match n with
  | O => mret tt
  | S n' =>
    let addr_translated := if em_address + i =? next_page then next_translated else addr_translated in
    _ ← write_physical f 1 addr_translated (u8 (val .>> (i * 8)));
    write_crossing n' f val em_address next_page next_translated (i + 1) (u32 (addr_translated + 1))
  end.

Definition WriteToHardware (f : XCheckTLBFlag) (size em_address data : Z) : M D unit :=
  s ← gets cpu;
  if Z.testbit (msr s) MSR_DR then
    translated_addr ← TranslateAddress f em_address;
    match Success translated_addr with
    | None => when (bool_decide (f = Write)) (GenerateDSIException em_address true)
    | Some address =>
      if flag em_address (size - 1) && (HW_PAGE_SIZE - size <? em_address .& (HW_PAGE_SIZE - 1)) then
        let em_address_next_page := next_page_of em_address size in
        addr_next_page ← TranslateAddress f em_address_next_page;
        match Success addr_next_page with
        | None => when (bool_decide (f = Write)) (GenerateDSIException em_address_next_page true)
        | Some next => write_crossing (Z.to_nat size) f (bswap size data) em_address em_address_next_page next 0 address
        end
      else write_physical f size address data
    end
  else write_physical f size em_address data.

(** ** The interface of the interpreter and of the debugger *)

Definition Memcheck (address var : Z) (write : bool) (size : Z) : M D unit := fun m =>
  let '(pause, d) := mem_check address var write size (pc (cpu m)) (devices m) in
  let m := set_devices d m in
  Done tt (if pause
           then set_cpu (set_Exceptions (Exceptions (cpu m) .| (EXCEPTION_DSI .| EXCEPTION_FAKE_MEMCHECK_HIT)) (cpu m)) m
           else m).

Definition Read_U8 (address : Z) : M D Z :=
  var ← ReadFromHardware Read 1 address; _ ← Memcheck address var false 1; mret var.
Definition Read_U16 (address : Z) : M D Z :=
  var ← ReadFromHardware Read 2 address; _ ← Memcheck address var false 2; mret var.
Definition Read_U32 (address : Z) : M D Z :=
  var ← ReadFromHardware Read 4 address; _ ← Memcheck address var false 4; mret var.
Definition Read_U64 (address : Z) : M D Z :=
  var ← ReadFromHardware Read 8 address; _ ← Memcheck address (u32 var) false 8; mret var.
Definition Read_U8_ZX (address : Z) : M D Z := Read_U8 address.
Definition Read_U16_ZX (address : Z) : M D Z := Read_U16 address.

Definition Write_U8 (var address : Z) : M D unit :=
  _ ← Memcheck address var true 1; WriteToHardware Write 1 address var.
Definition Write_U16 (var address : Z) : M D unit :=
  _ ← Memcheck address var true 2; WriteToHardware Write 2 address var.
Definition Write_U32 (var address : Z) : M D unit :=
  _ ← Memcheck address var true 4; WriteToHardware Write 4 address var.
Definition Write_U64 (var address : Z) : M D unit :=
  _ ← Memcheck address (u32 var) true 8; WriteToHardware Write 8 address var.
Definition Write_U16_Swap (var address : Z) : M D unit :=
  _ ← Memcheck address var true 2; Write_U16 (swap16 var) address.
Definition Write_U32_Swap (var address : Z) : M D unit :=
  _ ← Memcheck address var true 4; Write_U32 (swap32 var) address.
Definition Write_U64_Swap (var address : Z) : M D unit :=
  _ ← Memcheck address (u32 var) true 8; Write_U64 (swap64 var) address.

Definition HostRead_U8 (address : Z) : M D Z := ReadFromHardware NoException 1 address.
Definition HostRead_U16 (address : Z) : M D Z := ReadFromHardware NoException 2 address.
Definition HostRead_U32 (address : Z) : M D Z := ReadFromHardware NoException 4 address.
Definition HostRead_U64 (address : Z) : M D Z := ReadFromHardware NoException 8 address.
Definition HostWrite_U8 (var address : Z) : M D unit := WriteToHardware NoException 1 address var.
Definition HostWrite_U16 (var address : Z) : M D unit := WriteToHardware NoException 2 address var.
Definition HostWrite_U32 (var address : Z) : M D unit := WriteToHardware NoException 4 address var.
Definition HostWrite_U64 (var address : Z) : M D unit := WriteToHardware NoException 8 address var.
Definition HostRead_Instruction (address : Z) : M D Z := HostRead_U32 address.

(** [IsRAMAddress] with the debugger's kinds of access. *)
Definition IsRAMAddress (f : XCheckTLBFlag) (address : Z) (translate : bool) : M D bool :=
  if translate then
    translate_address ← TranslateAddress f address;
    match Success translate_address with
    | None => mret false
    | Some address => gets (fun m => is_ram (memory m) address)
    end
  else gets (fun m => is_ram (memory m) address).

Definition HostIsRAMAddress (address : Z) : M D bool :=
  s ← gets cpu; IsRAMAddress NoException address (Z.testbit (msr s) MSR_DR).
Definition HostIsInstructionRAMAddress (address : Z) : M D bool :=
  if negb ((address .& 3) =? 0) then mret false
  else s ← gets cpu; IsRAMAddress OpcodeNoException address (Z.testbit (msr s) MSR_IR).

(** The loop of [HostGetString]; it is bounded by the length of the string
    when [size] is not zero. *)
Fixpoint HostGetString (fuel : nat) (address size : Z) (s : list Z) : M D (list Z) :=
  match fuel with
  | O => fun _ => Loops
  | S fuel' =>
    ram ← HostIsRAMAddress address;
    if negb ram then mret s
    else
      res ← HostRead_U8 address;
      if res =? 0 then mret s
      else
        let s := s ++ [res] in
        if (size =? 0) || (Z.of_nat (length s) <? size) then HostGetString fuel' (u32 (address + 1)) size s else mret s
  end.

(** ** Instructions *)

Record TryReadInstResult := mk_inst_result { valid : bool; from_bat : bool; hex : Z; physical_address : Z }.

Definition TryReadInstruction (address : Z) : M D TryReadInstResult :=
  let fetch (from_bat : bool) (address : Z) : M D TryReadInstResult :=
    m ← gets id;
    if bool_decide (is_Some (m_pFakeVMEM (memory m))) && ((address .& 0xFE000000) =? 0x7E000000) then
      l ← host (load_bytes (memory m) (FakeVMEM, address .& FAKEVMEM_MASK) 4);
      mret (mk_inst_result true from_bat (swap32 (le_value l)) address)
    else
      r ← host (ReadInstruction (rSPR (cpu m) SPR_HID0) (memory m) address (iCache m));
      _ ← modify (set_iCache r.2);
      mret (mk_inst_result true from_bat r.1 address) in
  s ← gets cpu;
  if Z.testbit (msr s) MSR_IR then
    tlb_addr ← TranslateAddress Opcode address;
    match tlb_addr with
    | BAT_TRANSLATED address => fetch true address
    | PAGE_TABLE_TRANSLATED address => fetch false address
    | _ => mret (mk_inst_result false false 0 0)
    end
  else fetch true address.

Definition Read_Opcode (address : Z) : M D Z :=
  result ← TryReadInstruction address;
  if negb (valid result) then _ ← GenerateISIException address; mret 0
  else mret (hex result).

Definition JitCache_TranslateAddress (address : Z) : M D (bool * bool * Z) :=
  s ← gets cpu;
  if negb (Z.testbit (msr s) MSR_IR) then mret (true, true, address)
  else
    tlb_addr ← TranslateAddress Opcode address;
    match tlb_addr with
    | BAT_TRANSLATED a => mret (true, true, a)
    | PAGE_TABLE_TRANSLATED a => mret (true, false, a)
    | _ => mret (false, false, 0)
    end.

(** ** Cache lines and the locked cache *)

Definition clear_line (address : Z) : M D unit :=
  _ ← write_physical Write 8 (u32 (address + 0)) 0;
  _ ← write_physical Write 8 (u32 (address + 8)) 0;
  _ ← write_physical Write 8 (u32 (address + 16)) 0;
  write_physical Write 8 (u32 (address + 24)) 0.

Definition ClearCacheLine (address : Z) : M D unit :=
  s ← gets cpu;
  if Z.testbit (msr s) MSR_DR then
    translated_address ← TranslateAddress Write address;
    match translated_address with
    | DIRECT_STORE_SEGMENT => mret tt
    | PAGE_FAULT => GenerateDSIException address true
    | BAT_TRANSLATED address | PAGE_TABLE_TRANSLATED address => clear_line address
    end
  else clear_line address.

(** The loops over the words from the [i]-th byte on; [n] words are left. *)
Fixpoint lc_to_device (n : nat) (write : Z -> Z -> M D unit) (cache_address mem_address i : Z) : M D unit :=
  match n with
  | O => mret tt
  | S n' =>
    mem ← gets memory;
    l ← host (load_bytes mem (L1Cache, u32 (cache_address + i) .& 0x3FFFF) 4);
    _ ← write (swap32 (le_value l)) (u32 (mem_address + i));
    lc_to_device n' write cache_address mem_address (i + 4)
  end.

Fixpoint device_to_lc (n : nat) (read : Z -> M D Z) (cache_address mem_address i : Z) : M D unit :=
  match n with
  | O => mret tt
  | S n' =>
    v ← read (u32 (mem_address + i));
    mem ← gets memory;
    mem' ← host (store_bytes (L1Cache, u32 (cache_address + i) .& 0x3FFFF) (le_bytes 4 (swap32 v)) mem);
    _ ← modify (set_memory mem');
    device_to_lc n' read cache_address mem_address (i + 4)
  end.

(** The number of words of [num_blocks] blocks of 32 bytes. *)
Definition block_words (num_blocks : Z) : nat := Z.to_nat ((u32 (32 * num_blocks) + 3) / 4).

Definition DMA_LCToMemory (mem_address cache_address num_blocks : Z) : M D unit :=
  if (mem_address .& 0x0F000000) =? 0x08000000 then
    lc_to_device (block_words num_blocks) EFB_Write cache_address mem_address 0
  else if (mem_address .& 0x0F000000) =? 0x0C000000 then
    lc_to_device (block_words num_blocks) (fun data a => modify (mmio_Write 4 a data)) cache_address mem_address 0
  else
    mem ← gets memory;
    match GetPointer mem mem_address with
    | None => mret tt
    | Some dst =>
      l ← host (load_bytes mem (L1Cache, cache_address .& 0x3FFFF) (Z.to_nat (u32 (32 * num_blocks))));
      mem' ← host (store_bytes dst l mem); modify (set_memory mem')
    end.

Definition DMA_MemoryToLC (cache_address mem_address num_blocks : Z) : M D unit :=
  mem ← gets memory;
  let src := GetPointer mem mem_address in
  if (mem_address .& 0x0F000000) =? 0x08000000 then
    device_to_lc (block_words num_blocks) EFB_Read cache_address mem_address 0
  else if (mem_address .& 0x0F000000) =? 0x0C000000 then
    device_to_lc (block_words num_blocks) (fun a m => let '(v, m') := mmio_Read 4 a m in Done (u32 v) m') cache_address mem_address 0
  else
    match src with
    | None => mret tt
    | Some src =>
      l ← host (load_bytes mem src (Z.to_nat (u32 (32 * num_blocks))));
      mem' ← host (store_bytes (L1Cache, cache_address .& 0x3FFFF) l mem); modify (set_memory mem')
    end.
End Access.

(** ** Physical addresses *)

Lemma hardware_pointer_eq m a :
  inu 32 a ->
  hardware_pointer m a =
    if a <? 0x08000000 then Some (RAM, a mod 0x2000000)
    else if bool_decide (is_Some (m_pEXRAM m)) && ((0x10000000 <=? a) && (a <? 0x14000000)) then Some (EXRAM, a - 0x10000000)
    else if (0xE0000000 <=? a) && (a <? 0xE0040000) then Some (L1Cache, a - 0xE0000000)
    else if bool_decide (is_Some (m_pFakeVMEM m)) && ((0x7E000000 <=? a) && (a <? 0x80000000)) then Some (FakeVMEM, a - 0x7E000000)
    else None.
Proof.
  intros Ha. unfold hardware_pointer. change 0xF8000000 with (Z.ones (32 - 27) .<< 27).
  change 0xFE000000 with (Z.ones (32 - 25) .<< 25). rewrite !(land_top 32) by (done || lia).
  change RAM_MASK with (Z.ones 25). change 0x0FFFFFFF with (Z.ones 28). rewrite !Z.land_ones, !Z.shiftr_div_pow2 by lia.
  unfold EXRAM_SIZE, L1_CACHE_SIZE, inu in *. change 0x2000000 with (2 ^ 25).
  destruct (Z.eqb_spec (a / 2 ^ 27 * 2 ^ 27) 0), (Z.ltb_spec a 0x08000000);
    [done | exfalso; Z.to_euclidean_division_equations; lia.. |].
  destruct (bool_decide (is_Some (m_pEXRAM m))); cbn [andb];
  [destruct (Z.eqb_spec (a / 2 ^ 28) 1), (Z.ltb_spec (a mod 2 ^ 28) 0x4000000), (Z.leb_spec 0x10000000 a), (Z.ltb_spec a 0x14000000); cbn [andb];
    try (f_equal; f_equal; Z.to_euclidean_division_equations; lia); try (exfalso; Z.to_euclidean_division_equations; lia) |].
  all: destruct (Z.eqb_spec (a / 2 ^ 28) 14), (Z.ltb_spec a (0xE0000000 + 0x40000)), (Z.leb_spec 0xE0000000 a), (Z.ltb_spec a 0xE0040000); cbn [andb];
    try (f_equal; f_equal; Z.to_euclidean_division_equations; lia); try (exfalso; Z.to_euclidean_division_equations; lia).
  all: destruct (bool_decide (is_Some (m_pFakeVMEM m))); cbn [andb]; try done.
  all: destruct (Z.eqb_spec (a / 2 ^ 25 * 2 ^ 25) 0x7E000000), (Z.leb_spec 0x7E000000 a), (Z.ltb_spec a 0x80000000); cbn [andb]; try done;
    try (f_equal; f_equal; Z.to_euclidean_division_equations; lia); try (exfalso; Z.to_euclidean_division_equations; lia).
Qed.

Lemma hardware_pointer_bank m a p :
  inu 32 a -> hardware_pointer m a = Some p -> is_Some (bank_bytes p.1 m) /\ 0 <= p.2 < bank_size p.1.
Proof.
  intros Ha. rewrite hardware_pointer_eq by done. unfold inu in Ha.
  destruct (Z.ltb_spec a 0x08000000).
  { intros [= <-]. split; [eauto |]. cbn [fst snd]. change (bank_size RAM) with 0x2000000. apply Z.mod_pos_bound. lia. }
  destruct (bool_decide (is_Some (m_pEXRAM m))) eqn:E1; cbn [andb].
  { apply bool_decide_eq_true in E1. destruct (Z.leb_spec 0x10000000 a), (Z.ltb_spec a 0x14000000); cbn [andb];
      try (intros [= <-]; split; [done |]; cbn [fst snd]; change (bank_size EXRAM) with 0x4000000; lia).
    all: destruct (Z.leb_spec 0xE0000000 a), (Z.ltb_spec a 0xE0040000); cbn [andb];
      try (intros [= <-]; split; [eauto |]; cbn [fst snd]; change (bank_size L1Cache) with 0x40000; lia).
    all: destruct (bool_decide (is_Some (m_pFakeVMEM m))) eqn:E2; cbn [andb]; [| done]; apply bool_decide_eq_true in E2;
      destruct (Z.leb_spec 0x7E000000 a), (Z.ltb_spec a 0x80000000); cbn [andb]; try done;
      intros [= <-]; split; [done |]; cbn [fst snd]; change (bank_size FakeVMEM) with 0x2000000; lia. }
  destruct (Z.leb_spec 0xE0000000 a), (Z.ltb_spec a 0xE0040000); cbn [andb];
    try (intros [= <-]; split; [eauto |]; cbn [fst snd]; change (bank_size L1Cache) with 0x40000; lia).
  all: destruct (bool_decide (is_Some (m_pFakeVMEM m))) eqn:E2; cbn [andb]; [| done]; apply bool_decide_eq_true in E2;
    destruct (Z.leb_spec 0x7E000000 a), (Z.ltb_spec a 0x80000000); cbn [andb]; try done;
    intros [= <-]; split; [done |]; cbn [fst snd]; change (bank_size FakeVMEM) with 0x2000000; lia.
Qed.

(** A page is memory as a whole, or not at all. *)
Lemma hardware_pointer_page m a b p :
  inu 32 a -> inu 32 b -> a / 4096 = b / 4096 -> hardware_pointer m a = Some p ->
  hardware_pointer m b = Some (p.1, p.2 + (b - a)) /\ p.2 mod 4096 = a mod 4096.
Proof.
  intros Ha Hb E. rewrite !hardware_pointer_eq by done. unfold inu in *.
  assert (C : forall k, k mod 4096 = 0 -> (a <? k) = (b <? k) /\ (k <=? a) = (k <=? b)).
  { intros k Hk. destruct (Z.ltb_spec a k), (Z.ltb_spec b k), (Z.leb_spec k a), (Z.leb_spec k b);
      try (split; reflexivity); exfalso; Z.to_euclidean_division_equations; lia. }
  destruct (C 0x08000000 eq_refl) as [<- _], (C 0x10000000 eq_refl) as [_ <-], (C 0x14000000 eq_refl) as [<- _],
    (C 0xE0000000 eq_refl) as [_ <-], (C 0xE0040000 eq_refl) as [<- _], (C 0x7E000000 eq_refl) as [_ <-], (C 0x80000000 eq_refl) as [<- _].
  destruct (a <? 0x08000000).
  { intros [= <-]. cbn [fst snd]. split; [do 2 f_equal |]; Z.to_euclidean_division_equations; lia. }
  repeat match goal with |- context [if ?c then _ else _] => destruct c end; try done;
    intros [= <-]; cbn [fst snd]; (split; [do 2 f_equal; lia | Z.to_euclidean_division_equations; lia]).
Qed.

(** ** Virtual addresses *)

Lemma TranslateBatAddess_page t ea ea' pa :
  bat_ok t -> inu 32 ea -> inu 32 ea' -> ea / 4096 = ea' / 4096 -> TranslateBatAddess t ea = Some pa ->
  TranslateBatAddess t ea' = Some (pa + (ea' - ea)) /\ inu 32 pa /\ pa mod 4096 = ea mod 4096.
Proof.
  intros Ht Ha Ha' E. unfold TranslateBatAddess. change (BAT_PAGE_SIZE - 1) with (Z.ones 17).
  rewrite !Z.land_ones by (unfold BAT_INDEX_SHIFT; lia). unfold BAT_INDEX_SHIFT.
  assert (ea .>> 17 = ea' .>> 17) as ->.
  { rewrite !Z.shiftr_div_pow2 by lia. Z.to_euclidean_division_equations. lia. }
  destruct (Ht (ea' .>> 17)) as (q & f & Hq & Hf & ->). unfold inu in *.
  assert (f = 0 \/ f = 2 \/ (f = 1 \/ f = 3)) as [-> | [-> | Hf']] by lia.
  - rewrite Z.lor_0_r. replace (q .<< 17 .& BAT_MAPPED_BIT) with 0; [done |].
    apply Z.bits_inj'. intros i Hi. rewrite Z.land_spec, testbit_shiftl', Z.testbit_0_l. unfold BAT_MAPPED_BIT. rewrite testbit_1.
    destruct (Z.eqb_spec i 0) as [-> |]; [rewrite (Z.testbit_neg_r q) by lia; done | rewrite andb_false_r; done].
  - replace ((q .<< 17 .| 2) .& BAT_MAPPED_BIT) with 0; [done |].
    apply Z.bits_inj'. intros i Hi. rewrite Z.land_spec, Z.lor_spec, testbit_shiftl', Z.testbit_0_l. unfold BAT_MAPPED_BIT. rewrite testbit_1.
    destruct (Z.eqb_spec i 0) as [-> |]; [rewrite (Z.testbit_neg_r q) by lia; done | rewrite andb_false_r; done].
  - destruct (entry_address q f Hf' Hq) as [H1 ->]. rewrite (proj2 (Z.eqb_neq _ _) H1). intros [= <-].
    rewrite !lor_shift_add by (apply Z.mod_pos_bound || lia; lia).
    split; [f_equal |]; Z.to_euclidean_division_equations; lia.
Qed.

Section Virtual.
Context {D : Type} `{MmuHost D}.
Implicit Types m : Mmu D.

(** The state of memory and of the translations that the program keeps. *)
Record mmu_ok m : Prop := {
  ok_tlb : tlb_ok m;
  ok_ibat : bat_ok (ibat_table m);
  ok_dbat : bat_ok (dbat_table m)
}.

(** The physical address of a byte. *)
Definition translate m (f : XCheckTLBFlag) (ea : Z) : option Z :=
  if Z.testbit (msr (cpu m)) MSR_DR then Success (reference m f ea) else Some ea.

(** The byte of memory that a virtual address names. *)
Definition byte_pointer m (f : XCheckTLBFlag) (ea : Z) : option (Bank * Z) :=
  pa ← translate m f ea; hardware_pointer (memory m) pa.

Lemma reference_page m f ea ea' pa :
  mmu_ok m -> inu 32 ea -> inu 32 ea' -> ea / 4096 = ea' / 4096 -> Success (reference m f ea) = Some pa ->
  Success (reference m f ea') = Some (pa + (ea' - ea)) /\ inu 32 pa /\ pa mod 4096 = ea mod 4096.
Proof.
  intros Hm Ha Ha' E. unfold reference. set (t := if IsOpcodeFlag f then _ else _).
  assert (Ht : bat_ok t) by (subst t; destruct (IsOpcodeFlag f); apply Hm).
  assert (Ep : ea .>> 12 = ea' .>> 12) by (rewrite !Z.shiftr_div_pow2 by lia; exact E).
  destruct (TranslateBatAddess t ea) as [b |] eqn:Eb.
  - cbn [Success]. intros [= ->]. destruct (TranslateBatAddess_page t ea ea' pa Ht Ha Ha' E Eb) as (-> & ? & ?). done.
  - assert (TranslateBatAddess t ea' = None) as ->.
    { destruct (TranslateBatAddess t ea') as [b |] eqn:Eb'; [| done].
      destruct (TranslateBatAddess_page t ea' ea b Ht Ha' Ha (eq_sym E) Eb') as (X & _). congruence. }
    unfold page_reference. rewrite <- (segment_page m ea ea' Ep), <- (page_entry_page m ea ea' Ep).
    destruct (flag _ _); [done |]. destruct (_ && _); [done |]. destruct (page_entry m ea) as [a |]; [| done].
    cbn [Success]. unfold EA_Offset. change 0xfff with (Z.ones 12). rewrite !Z.land_ones by lia.
    pose proof (field_range 12 20 (word (memory m) (a + 4)) ltac:(lia)) as R. unfold PTE2_RPN, inu in *.
    set (r := field 12 20 _) in *. clearbody r. intros [= <-].
    rewrite !lor_shift_add by (apply Z.mod_pos_bound || lia; lia).
    split; [f_equal |]; Z.to_euclidean_division_equations; lia.
Qed.

Lemma frame_translate m m' f ea : table_ok m -> frame m m' -> translate m' f ea = translate m f ea.
Proof. intros Hm F. unfold translate. rewrite (frame_cpu _ _ F), (frame_reference m m' f ea Hm F). done. Qed.

Lemma same_banks_hardware mem mem' a : same_banks mem mem' -> hardware_pointer mem' a = hardware_pointer mem a.
Proof.
  intros B. unfold hardware_pointer. rewrite (bool_decide_ext _ _ (B FakeVMEM)), (bool_decide_ext _ _ (B EXRAM)). done.
Qed.

Lemma frame_pointer m m' f ea : table_ok m -> frame m m' -> byte_pointer m' f ea = byte_pointer m f ea.
Proof.
  intros Hm F. unfold byte_pointer. rewrite (frame_translate m m' f ea Hm F). destruct (translate m f ea); [| done].
  cbn [mbind option_bind]. apply same_banks_hardware, (step_banks _ _ (frame_memory _ _ F)).
Qed.

Lemma frame_mmu_ok m m' : mmu_ok m -> frame m m' -> tlb_ok m' -> mmu_ok m'.
Proof. intros [] F Ht. constructor; [done | rewrite (frame_ibat _ _ F) | rewrite (frame_dbat _ _ F)]; done. Qed.

Lemma frame_trans m1 m2 m3 : table_ok m1 -> frame m1 m2 -> frame m2 m3 -> frame m1 m3.
Proof.
  intros Hm F G. pose proof (frame_memory _ _ F) as S. pose proof (frame_memory _ _ G) as T.
  assert (I : forall a, in_table m1 a -> in_table m2 a).
  { intros a (h & i & Hi & ->). exists h, i. split; [done |]. unfold group. rewrite (frame_base _ _ F), (frame_mask _ _ F). done. }
  constructor; try (etransitivity; [apply G | apply F]). constructor.
  - apply (step_memory _ _ T).
  - intros b. rewrite (step_banks _ _ T b). apply (step_banks _ _ S b).
  - intros a Ha. rewrite (step_first _ _ T a (I a Ha)). apply (step_first _ _ S a Ha).
  - intros a Ha. destruct (step_second _ _ T a (I a Ha)) as (-> & T2 & T3), (step_second _ _ S a Ha) as (-> & S2 & S3). auto.
Qed.

Lemma frame_outside m m' q : frame m m' -> outside_table m q -> outside_table m' q.
Proof.
  intros F Hq a p (h & i & Hi & ->) Hp. rewrite (same_banks_pointer _ _ _ (step_banks _ _ (frame_memory _ _ F))) in Hp.
  assert (E : group m' h = group m h) by (unfold group; rewrite (frame_base _ _ F), (frame_mask _ _ F); done).
  rewrite E in Hp. apply (Hq (group m h + 8 * i) p); [exists h, i; done | done].
Qed.

(** ** Integers of one to eight bytes *)

Definition width_ok (size : Z) : Prop := size = 1 \/ size = 2 \/ size = 4 \/ size = 8.

(** The value of big-endian bytes. *)
Definition be_value (l : list Z) : Z := le_value (rev l).

Lemma bswap_value size l :
  width_ok size -> Z.of_nat (length l) = size -> bytes_ok l -> bswap size (le_value l) = be_value l.
Proof.
  intros Hs Hl Ho. unfold be_value. destruct Hs as [-> | [-> | [-> | ->]]]; cbn [bswap].
  - destruct l as [| b [| ? ?]]; cbn in *; lia.
  - apply swap16_rev; [lia | done].
  - apply swap32_rev; [lia | done].
  - apply swap64_rev; [lia | done].
Qed.

Lemma be_value_snoc l b : be_value (l ++ [b]) = be_value l * 2 ^ 8 + b.
Proof. unfold be_value. rewrite rev_app_distr. cbn [rev app le_value]. lia. Qed.

Lemma be_value_range l : bytes_ok l -> inu (8 * Z.of_nat (length l)) (be_value l).
Proof.
  intros Ho. unfold be_value. assert (Hr : bytes_ok (rev l)) by (apply Forall_rev; done).
  pose proof (le_value_range (rev l) Hr) as R. rewrite length_rev in R. exact R.
Qed.

Lemma be_value_bytes n v : inu (8 * Z.of_nat n) v -> be_value (be_bytes n v) = v.
Proof. intros Hv. unfold be_value, be_bytes. rewrite rev_involutive. apply le_value_bytes. done. Qed.

(** The bytes that a store puts into memory. *)
Lemma le_bytes_bswap size v :
  width_ok size -> inu (8 * size) v -> le_bytes (Z.to_nat size) (bswap size v) = be_bytes (Z.to_nat size) v.
Proof.
  intros Hs Hv. unfold be_bytes. destruct Hs as [-> | [-> | [-> | ->]]]; cbn [bswap].
  - change (Z.to_nat 1) with 1%nat. cbn [le_bytes rev app]. done.
  - apply (swapped_bytes 2); [apply swap16_rev | done].
  - apply (swapped_bytes 4); [apply swap32_rev | done].
  - apply (swapped_bytes 8); [apply swap64_rev | done].
Qed.

(** ** Accesses within a page *)

Lemma load_bytes_lookup mem p n l i :
  load_bytes mem p n = Some l -> (i < n)%nat -> l !! i = load_u8 mem (p.1, p.2 + Z.of_nat i).
Proof.
  revert p l i. induction n as [| n IH]; intros p l i E Hi; [lia |]. cbn [load_bytes] in E.
  destruct (load_u8 mem p) as [v |] eqn:Ev; [| done]. cbn [mbind option_bind] in E.
  destruct (load_bytes mem (p.1, p.2 + 1) n) as [l' |] eqn:El; [| done]. injection E as <-. destruct i as [| i].
  - cbn. rewrite Z.add_0_r. destruct p. done.
  - change ((v :: l') !! S i) with (l' !! i). rewrite (IH _ _ _ El) by lia. cbn [fst snd]. do 2 f_equal. lia.
Qed.

Lemma read_physical_memory f size a m p :
  width_ok size -> memory_ok (memory m) -> inu 32 a -> hardware_pointer (memory m) a = Some p -> p.2 + size <= bank_size p.1 ->
  exists l, read_physical f size a m = Done (be_value l) m /\ Z.of_nat (length l) = size /\ bytes_ok l /\
    forall i, 0 <= i < size -> l !! Z.to_nat i = load_u8 (memory m) (p.1, p.2 + i).
Proof.
  intros Hs Hm Ha Hp Hb. destruct (hardware_pointer_bank _ _ _ Ha Hp) as [B R].
  assert (H0 : 0 < size) by (unfold width_ok in Hs; lia).
  destruct (load_bytes_ok (memory m) p (Z.to_nat size)) as (l & El & Hl & Ho); [done | lia | lia | done |].
  exists l. unfold read_physical, mbind, M_bind, gets, host, mret, M_ret. rewrite Hp, El.
  rewrite bswap_value by (done || lia). split_and!; [done | lia | done |]. intros i Hi.
  rewrite (load_bytes_lookup _ _ _ _ _ El) by lia. do 2 f_equal. lia.
Qed.

Lemma write_physical_memory f size a v m p :
  width_ok size -> memory_ok (memory m) -> inu 32 a -> inu (8 * size) v -> hardware_pointer (memory m) a = Some p -> p.2 + size <= bank_size p.1 ->
  exists mem', write_physical f size a v m = Done tt (set_memory mem' m) /\ memory_ok mem' /\ same_banks (memory m) mem' /\
    (forall i, 0 <= i < size -> load_u8 mem' (p.1, p.2 + i) = be_bytes (Z.to_nat size) v !! Z.to_nat i) /\
    (forall q, (forall i, 0 <= i < size -> q <> (p.1, p.2 + i)) -> load_u8 mem' q = load_u8 (memory m) q).
Proof.
  intros Hs Hm Ha Hv Hp Hb. destruct (hardware_pointer_bank _ _ _ Ha Hp) as [B R].
  assert (H0 : 0 < size) by (unfold width_ok in Hs; lia).
  destruct (store_bytes_ok (be_bytes (Z.to_nat size) v) (memory m) p) as (mem' & Es & M1 & M2);
    [done | lia | rewrite length_be_bytes; lia | done |].
  exists mem'. unfold write_physical, mbind, M_bind, gets, host, modify. rewrite Hp, le_bytes_bswap, Es by done.
  destruct (store_bytes_spec _ _ _ _ Es) as [_ L]. split_and!; try done.
  - intros i Hi. rewrite L. unfold offset_in. cbn [fst snd]. rewrite length_be_bytes, decide_True by (split; [done | lia]).
    replace (p.2 + i - p.2) with i by lia. rewrite lookup_be_bytes by lia. cbn. f_equal. apply wrapu_idem. lia.
  - intros q Hq. rewrite L. unfold offset_in. rewrite length_be_bytes, decide_False; [done |].
    intros [E1 E2]. apply (Hq (q.2 - p.2)); [lia |]. destruct q as [qb qo], p as [pb po]. cbn in *. subst. f_equal. lia.
Qed.

(** ** Accesses that cross a page *)

(** The physical address of the [i]-th byte: [k] bytes lie in the first page. *)
Definition phys (k pa nt i : Z) : Z := if i <? k then pa + i else nt + (i - k).

Lemma read_crossing_memory f size ea k pa nt m ps :
  width_ok size -> memory_ok (memory m) -> 0 <= ea -> ea + size < 2 ^ 32 ->
  (forall i, 0 <= i < size -> inu 32 (phys k pa nt i) /\ hardware_pointer (memory m) (phys k pa nt i) = Some (ps i)) ->
  forall n i a l, i + Z.of_nat n = size -> Z.of_nat (length l) = i -> bytes_ok l -> (i < size -> i <> k -> a = phys k pa nt i) ->
  exists l', read_crossing (S n) f size ea (ea + k) nt (ea + i) a (be_value l) m = Done (be_value (l ++ l')) m /\
    length l' = n /\ bytes_ok l' /\ forall j, (j < n)%nat -> l' !! j = load_u8 (memory m) (ps (i + Z.of_nat j)).
Proof.
  intros Hs Hm Hea Hend Hp. induction n as [| n IH]; intros i a l Hi Hl Ho Ha.
  { exists []. cbn [read_crossing]. destruct (Z.ltb_spec (ea + i) (ea + size)); [lia |].
    rewrite app_nil_r. split_and!; [done | done | constructor | lia]. }
  remember (S n) as n1 eqn:En1. cbn [read_crossing]. subst n1. destruct (Z.ltb_spec (ea + i) (ea + size)); [| lia].
  set (a' := if ea + i =? ea + k then nt else a).
  assert (Ea : a' = phys k pa nt i).
  { subst a'. destruct (Z.eqb_spec (ea + i) (ea + k)).
    - unfold phys. destruct (Z.ltb_spec i k); lia.
    - apply Ha; lia. }
  rewrite Ea. destruct (Hp i ltac:(lia)) as [R P].
  destruct (hardware_pointer_bank _ _ _ R P) as [_ B].
  destruct (read_physical_memory f 1 (phys k pa nt i) m (ps i)) as (lb & Eb & Lb & Ob & Vb); [by left | done | done | done | lia |].
  destruct lb as [| b [| ? ?]]; cbn [length] in Lb; try lia. unfold mbind at 1, M_bind at 1. rewrite Eb.
  assert (Hb : inu 8 b) by (inversion Ob; done).
  assert (Ev : wrapu (8 * size) ((be_value l .<< 8) .| be_value [b]) = be_value (l ++ [b])).
  { change (be_value [b]) with (b + 2 ^ 8 * 0). rewrite Z.mul_0_r, Z.add_0_r. rewrite lor_shift_add, be_value_snoc by (unfold inu in *; lia).
    apply wrapu_id. rewrite <- be_value_snoc. pose proof (be_value_range (l ++ [b])) as Rv. rewrite length_app in Rv. cbn [length] in Rv.
    assert (Ho2 : bytes_ok (l ++ [b])) by (apply Forall_app; done). specialize (Rv Ho2). unfold inu in *. split; [lia |].
    eapply Z.lt_le_trans; [apply Rv |]. apply Z.pow_le_mono_r; lia. }
  rewrite Ev. rewrite (wrapu_id 32 (ea + i + 1)) by (unfold inu; lia).
  replace (ea + i + 1) with (ea + (i + 1)) by lia.
  destruct (IH (i + 1) (u32 (phys k pa nt i + 1)) (l ++ [b])) as (l' & -> & L' & O' & V').
  - lia.
  - rewrite length_app. cbn [length]. lia.
  - apply Forall_app. done.
  - intros Hlt Hne. destruct (Hp (i + 1) ltac:(lia)) as [R' _]. unfold phys in *.
    destruct (Z.ltb_spec i k), (Z.ltb_spec (i + 1) k); try lia; rewrite wrapu_id; unfold inu in *; lia.
  - exists (b :: l'). split_and!.
    + rewrite <- app_assoc. done.
    + cbn. lia.
    + constructor; done.
    + intros [| j] Hj.
      * specialize (Vb 0 ltac:(lia)). change ([b] !! Z.to_nat 0) with (Some b) in Vb. change ((b :: l') !! 0%nat) with (Some b).
        rewrite Vb, !Z.add_0_r. destruct (ps i). done.
      * change ((b :: l') !! S j) with (l' !! j). rewrite V' by lia. do 2 f_equal. lia.
Qed.

(** The bytes of an access are memory. *)
Record accessible m (f : XCheckTLBFlag) (size ea : Z) (ps : Z -> Bank * Z) : Prop := {
  acc_width : width_ok size;
  acc_ea : inu 32 ea;
  acc_end : ea + size <= 2 ^ 32;
  acc_page : Z.testbit (msr (cpu m)) MSR_DR = true \/ ea mod 4096 + size <= 4096;
  acc_bytes : forall i, 0 <= i < size -> byte_pointer m f (ea + i) = Some (ps i)
}.

Lemma accessible_frame m m' f size ea ps : table_ok m -> frame m m' -> accessible m f size ea ps -> accessible m' f size ea ps.
Proof.
  intros Hm F []. constructor; try done; [rewrite (frame_cpu _ _ F); done |].
  intros i Hi. rewrite (frame_pointer m m' f _ Hm F). auto.
Qed.

Lemma width_pos size : width_ok size -> 0 < size <= 8.
Proof. unfold width_ok. lia. Qed.

(** The pointers of an access within a page are consecutive. *)
Lemma accessible_page m f size ea ps :
  mmu_ok m -> accessible m f size ea ps -> ea mod 4096 + size <= 4096 ->
  exists pa, translate m f ea = Some pa /\ inu 32 pa /\ hardware_pointer (memory m) pa = Some (ps 0) /\
    (ps 0).2 + size <= bank_size (ps 0).1 /\ forall i, 0 <= i < size -> ps i = ((ps 0).1, (ps 0).2 + i).
Proof.
  intros Hm [Hs Hea Hend Hpg Hb] Hp. pose proof (width_pos size Hs) as W. pose proof (Hb 0 ltac:(lia)) as H0. rewrite Z.add_0_r in H0.
  unfold byte_pointer in H0. destruct (translate m f ea) as [pa |] eqn:Et; [| done]. cbn [mbind option_bind] in H0.
  assert (K : forall i, 0 <= i < size -> inu 32 (ea + i) /\ ea / 4096 = (ea + i) / 4096).
  { intros i Hi. unfold inu in *. split; [lia |]. Z.to_euclidean_division_equations. lia. }
  assert (T : forall i, 0 <= i < size -> translate m f (ea + i) = Some (pa + i) /\ inu 32 (pa + i) /\ pa / 4096 = (pa + i) / 4096).
  { intros i Hi. destruct (K i Hi) as [K1 K2]. unfold translate in *. destruct (Z.testbit _ _).
    - destruct (reference_page m f ea (ea + i) pa Hm Hea K1 K2 Et) as (E & R & Emod).
      destruct (reference_page m f (ea + i) ea (pa + (ea + i - ea)) Hm K1 Hea (eq_sym K2) E) as (_ & R' & _).
      replace (pa + (ea + i - ea)) with (pa + i) in * by lia. split_and!; [done | done |].
      revert Emod Hp Hi. clear. intros. Z.to_euclidean_division_equations. lia.
    - injection Et as <-. split_and!; done. }
  exists pa. assert (R0 : inu 32 pa) by (destruct (T 0 ltac:(lia)) as (_ & R & _); rewrite Z.add_0_r in R; done).
  split_and!; [done | done | done | |].
  - destruct (T (size - 1) ltac:(lia)) as (_ & T2 & T3).
    destruct (hardware_pointer_page _ _ _ _ R0 T2 T3 H0) as [E _]. destruct (hardware_pointer_bank _ _ _ T2 E) as [_ B]. cbn in B. lia.
  - intros i Hi. destruct (T i Hi) as (T1 & T2 & T3). specialize (Hb i Hi). unfold byte_pointer in Hb. rewrite T1 in Hb. cbn [mbind option_bind] in Hb.
    destruct (hardware_pointer_page _ _ _ _ R0 T2 T3 H0) as [E _]. rewrite E in Hb. injection Hb as <-. f_equal. lia.
Qed.

Lemma page_offset ea : ea .& (HW_PAGE_SIZE - 1) = ea mod 4096.
Proof. change (HW_PAGE_SIZE - 1) with (Z.ones 12). apply Z.land_ones. lia. Qed.

Lemma next_page_eq ea size :
  inu 32 ea -> width_ok size -> 4096 < ea mod 4096 + size -> next_page_of ea size = u32 ((ea / 4096 + 1) * 4096).
Proof.
  intros Hea Hs Hc. pose proof (width_pos size Hs). unfold next_page_of, inu in *.
  rewrite (wrapu_id 64) by (unfold inu; lia). change (u64 (.~ (HW_PAGE_SIZE - 1))) with (Z.ones 52 .<< 12).
  f_equal. change (Z.ones 52) with (Z.ones (64 - 12)). rewrite (land_top 64) by (unfold inu; lia). Z.to_euclidean_division_equations. lia.
Qed.

(** An access that crosses a page: the physical pages of both. *)
Lemma accessible_cross m f size ea ps :
  mmu_ok m -> accessible m f size ea ps -> 4096 < ea mod 4096 + size ->
  let k := 4096 - ea mod 4096 in
  exists pa nt, 0 < k < size /\ next_page_of ea size = ea + k /\ inu 32 (ea + k) /\ ea + size < 2 ^ 32 /\
    Success (reference m f ea) = Some pa /\ Success (reference m f (ea + k)) = Some nt /\
    forall i, 0 <= i < size -> inu 32 (phys k pa nt i) /\ hardware_pointer (memory m) (phys k pa nt i) = Some (ps i).
Proof.
  intros Hm [Hs Hea Hend Hpg Hb] Hc k. pose proof (width_pos size Hs) as W.
  assert (Hk : 0 < k < size) by (subst k; pose proof (Z.mod_pos_bound ea 4096 ltac:(lia)); lia).
  assert (Hek : ea + k = (ea / 4096 + 1) * 4096) by (subst k; Z.to_euclidean_division_equations; lia).
  assert (Hkr : inu 32 (ea + k)) by (unfold inu in *; lia).
  assert (DR : Z.testbit (msr (cpu m)) MSR_DR = true) by (destruct Hpg; [done | lia]).
  unfold byte_pointer, translate in Hb. rewrite DR in Hb.
  pose proof (Hb 0 ltac:(lia)) as B0. rewrite Z.add_0_r in B0. pose proof (Hb k ltac:(lia)) as Bk.
  destruct (Success (reference m f ea)) as [pa |] eqn:E0; [| done]. destruct (Success (reference m f (ea + k))) as [nt |] eqn:Ek; [| done].
  exists pa, nt. split_and!; try done; try lia.
  - rewrite next_page_eq, <- Hek by done. apply wrapu_id. done.
  - intros i Hi. specialize (Hb i Hi). assert (Hir : inu 32 (ea + i)) by (unfold inu in *; lia). unfold phys. destruct (Z.ltb_spec i k).
    + assert (Ep : ea / 4096 = (ea + i) / 4096) by (subst k; Z.to_euclidean_division_equations; lia).
      destruct (reference_page m f ea (ea + i) pa Hm Hea Hir Ep E0) as (E & _). rewrite E in Hb.
      destruct (reference_page m f (ea + i) ea _ Hm Hir Hea (eq_sym Ep) E) as (_ & R & _).
      cbn [mbind option_bind] in Hb. replace (pa + (ea + i - ea)) with (pa + i) in * by lia. done.
    + assert (Ep : (ea + k) / 4096 = (ea + i) / 4096) by (rewrite Hek, Z.div_mul by lia; apply (Z.div_unique _ _ _ (i - k)); lia).
      destruct (reference_page m f (ea + k) (ea + i) nt Hm Hkr Hir Ep Ek) as (E & _). rewrite E in Hb.
      destruct (reference_page m f (ea + i) (ea + k) _ Hm Hir Hkr (eq_sym Ep) E) as (_ & R & _).
      cbn [mbind option_bind] in Hb. replace (nt + (ea + i - (ea + k))) with (nt + (i - k)) in * by lia. done.
Qed.

(** ** Loads and stores of memory *)

(** Translations may record accesses in the page table, and nothing else. *)
Record translated m m' : Prop := {
  tr_frame : frame m m';
  tr_ok : mmu_ok m';
  tr_memory : forall q, outside_table m q -> load_u8 (memory m') q = load_u8 (memory m) q
}.

Lemma translated_refl m : mmu_ok m -> translated m m.
Proof.
  intros Hm. constructor; [| done | done]. replace m with (set_tlb (tlb m) m) at 2 by (destruct m; done).
  apply frame_refl, (tlb_table _ _ (ok_tlb m Hm)).
Qed.

Lemma translated_trans m1 m2 m3 : mmu_ok m1 -> translated m1 m2 -> translated m2 m3 -> translated m1 m3.
Proof.
  intros Hm [F1 O1 U1] [F2 O2 U2]. constructor; [| done |].
  - eapply frame_trans; [apply (tlb_table _ _ (ok_tlb m1 Hm)) | done | done].
  - intros q Hq. rewrite U2 by (apply (frame_outside m1 m2 q F1 Hq)). auto.
Qed.

Lemma TranslateAddress_translated f ea m :
  mmu_ok m -> inu 32 ea -> exists m', TranslateAddress f ea m = Done (reference m f ea) m' /\ translated m m'.
Proof.
  intros Hm Hea. destruct (TranslateAddress_spec f ea m (ok_tlb m Hm) Hea) as (m' & E & F & T & U & _).
  exists m'. split; [done |]. constructor; [done | apply (frame_mmu_ok m m'); done | done].
Qed.

Lemma bytes_frame m m' : mmu_ok m -> translated m m' -> forall f ea, reference m' f ea = reference m f ea.
Proof. intros Hm [F _ _] f ea. apply frame_reference; [apply (tlb_table _ _ (ok_tlb m Hm)) | done]. Qed.

Lemma ReadFromHardware_memory m f size ea ps :
  mmu_ok m -> accessible m f size ea ps ->
  exists m' l, ReadFromHardware f size ea m = Done (be_value l) m' /\ translated m m' /\
    Z.of_nat (length l) = size /\ bytes_ok l /\
    forall i, 0 <= i < size -> l !! Z.to_nat i = load_u8 (memory m') (ps i).
Proof.
  intros Hm Ha. pose proof Ha as [Hs Hea Hend Hpg _]. pose proof (width_pos size Hs) as W.
  unfold ReadFromHardware. unfold mbind at 1, M_bind at 1, gets at 1.
  assert (Z.testbit (msr (cpu m)) MSR_DR = true /\ 4096 < ea mod 4096 + size \/ ea mod 4096 + size <= 4096) as [[DR Hc] | Hc]
    by (destruct (Z.leb_spec (ea mod 4096 + size) 4096); [by right | left; destruct Hpg; [done | lia]]).
  - rewrite DR. destruct (accessible_cross m f size ea ps Hm Ha Hc) as (pa & nt & Hk & En & Hkr & He & E0 & Ek & Hp).
    set (k := 4096 - ea mod 4096) in *.
    destruct (TranslateAddress_translated f ea m Hm Hea) as (m1 & T1 & X1). unfold mbind at 1, M_bind at 1. rewrite T1, E0.
    rewrite page_offset. destruct (Z.ltb_spec (HW_PAGE_SIZE - size) (ea mod 4096)); [| unfold HW_PAGE_SIZE in *; lia].
    rewrite En. destruct (TranslateAddress_translated f (ea + k) m1 (tr_ok _ _ X1) Hkr) as (m2 & T2 & X2).
    unfold mbind at 1, M_bind at 1. rewrite T2, (bytes_frame m m1 Hm X1), Ek.
    pose proof (translated_trans m m1 m2 Hm X1 X2) as X. pose proof (tlb_table _ _ (ok_tlb m2 (tr_ok _ _ X))) as Tm2.
    destruct (read_crossing_memory f size ea k pa nt m2 ps) with (n := Z.to_nat size) (i := 0) (a := pa) (l := @nil Z)
      as (l & El & Ll & Ol & Vl); try done; try lia.
    + apply (table_memory m2 Tm2).
    + unfold inu in Hea. lia.
    + intros i Hi. rewrite (same_banks_hardware (memory m)) by apply (step_banks _ _ (frame_memory _ _ (tr_frame _ _ X))). auto.
    + constructor.
    + intros _ _. unfold phys. destruct (Z.ltb_spec 0 k); lia.
    + rewrite Z.add_0_r in El. exists m2, l. split; [exact El |]. split_and!; [done | lia | done |].
      intros i Hi. rewrite Vl by lia. do 2 f_equal. lia.
  - destruct (accessible_page m f size ea ps Hm Ha Hc) as (pa & Ep & Rp & Pp & Bp & Kp). unfold translate in Ep.
    destruct (Z.testbit (msr (cpu m)) MSR_DR) eqn:DR.
    + destruct (TranslateAddress_translated f ea m Hm Hea) as (m1 & T1 & X1). unfold mbind at 1, M_bind at 1. rewrite T1, Ep.
      rewrite page_offset. destruct (Z.ltb_spec (HW_PAGE_SIZE - size) (ea mod 4096)); [unfold HW_PAGE_SIZE in *; lia |].
      destruct (read_physical_memory f size pa m1 (ps 0)) as (l & El & Ll & Ol & Vl); try done.
      * apply (table_memory m1 (tlb_table _ _ (ok_tlb m1 (tr_ok _ _ X1)))).
      * rewrite (same_banks_hardware (memory m)) by apply (step_banks _ _ (frame_memory _ _ (tr_frame _ _ X1))). done.
      * exists m1, l. split_and!; try done. intros i Hi. rewrite (Kp i Hi). auto.
    + injection Ep as <-. destruct (read_physical_memory f size ea m (ps 0)) as (l & El & Ll & Ol & Vl); try done.
      * apply (table_memory m (tlb_table _ _ (ok_tlb m Hm))).
      * exists m, l. split_and!; try done; [apply translated_refl; done |]. intros i Hi. rewrite (Kp i Hi). auto.
Qed.

(** What a store of big-endian bytes leaves in memory. *)
Record stored (mem mem' : Memmap) (size v : Z) (from : Z) (ps : Z -> Bank * Z) : Prop := {
  st_memory : memory_ok mem';
  st_banks : same_banks mem mem';
  st_bytes : forall i, from <= i < size -> load_u8 mem' (ps i) = be_bytes (Z.to_nat size) v !! Z.to_nat i;
  st_other : forall q, (forall i, from <= i < size -> q <> ps i) -> load_u8 mem' q = load_u8 mem q
}.

Lemma be_byte size v i :
  width_ok size -> inu (8 * size) v -> 0 <= i < size ->
  be_bytes (Z.to_nat size) v !! Z.to_nat i = Some (u8 (bswap size v .>> (i * 8))).
Proof.
  intros Hs Hv Hi. rewrite <- le_bytes_bswap by done. rewrite lookup_le_bytes by lia. do 3 f_equal. lia.
Qed.

Lemma write_crossing_memory f size ea k pa nt v ps :
  width_ok size -> inu (8 * size) v ->
  (forall i j, 0 <= i < size -> 0 <= j < size -> ps i = ps j -> i = j) ->
  forall n i a m, i + Z.of_nat n = size -> 0 <= i -> memory_ok (memory m) -> (i < size -> i <> k -> a = phys k pa nt i) ->
  (forall i, 0 <= i < size -> inu 32 (phys k pa nt i) /\ hardware_pointer (memory m) (phys k pa nt i) = Some (ps i)) ->
  exists mem', write_crossing n f (bswap size v) ea (ea + k) nt i a m = Done tt (set_memory mem' m) /\
    stored (memory m) mem' size v i ps.
Proof.
  intros Hs Hv Hinj. induction n as [| n IH]; intros i a m Hi H0 Hm Ha Hp.
  { exists (memory m). split; [by destruct m |]. constructor; try done. intros j Hj. lia. }
  cbn [write_crossing]. set (a' := if ea + i =? ea + k then nt else a).
  assert (Ea : a' = phys k pa nt i).
  { subst a'. destruct (Z.eqb_spec (ea + i) (ea + k)).
    - unfold phys. destruct (Z.ltb_spec i k); lia.
    - apply Ha; lia. }
  rewrite Ea. destruct (Hp i ltac:(lia)) as [R P]. destruct (hardware_pointer_bank _ _ _ R P) as [_ B].
  set (b := u8 (bswap size v .>> (i * 8))). assert (Hb : inu 8 b) by (subst b; range).
  destruct (write_physical_memory f 1 (phys k pa nt i) b m (ps i)) as (mem1 & E1 & M1 & B1 & L1 & U1);
    [by left | done | done | done | done | lia |].
  unfold mbind at 1, M_bind at 1. rewrite E1.
  assert (L1' : load_u8 mem1 (ps i) = Some b).
  { specialize (L1 0 ltac:(lia)). rewrite Z.add_0_r in L1. destruct (ps i) as [pb po]. cbn [fst snd] in L1. rewrite L1.
    change (be_bytes (Z.to_nat 1) b !! Z.to_nat 0) with (Some (u8 b)). f_equal. apply wrapu_id. done. }
  assert (U1' : forall q, q <> ps i -> load_u8 mem1 q = load_u8 (memory m) q).
  { intros q Hq. apply U1. intros j Hj. replace j with 0 by lia. rewrite Z.add_0_r. destruct (ps i). done. }
  destruct (IH (i + 1) (u32 (phys k pa nt i + 1)) (set_memory mem1 m)) as (mem' & E' & [M' B' L' U']).
  - lia.
  - lia.
  - done.
  - intros Hlt Hne. destruct (Hp (i + 1) ltac:(lia)) as [R' _]. unfold phys in *.
    destruct (Z.ltb_spec i k), (Z.ltb_spec (i + 1) k); try lia; rewrite wrapu_id; unfold inu in *; lia.
  - intros j Hj. cbn [memory set_memory]. rewrite (same_banks_hardware (memory m)) by done. auto.
  - exists mem'. split; [exact E' |]. cbn [memory set_memory] in *. constructor.
    + done.
    + intros c. rewrite (B' c). apply B1.
    + intros j Hj. destruct (decide (j = i)) as [-> | N]; [| apply L'; lia].
      rewrite U', L1', be_byte by (done || lia || (intros j Hj' E; apply Hinj in E; lia)). done.
    + intros q Hq. rewrite U' by (intros j Hj; apply Hq; lia). apply U1', Hq. lia.
Qed.

(** Different bytes of an access are different bytes of memory. *)
Lemma accessible_offset m f size ea ps i :
  mmu_ok m -> accessible m f size ea ps -> 0 <= i < size -> (ps i).2 mod 4096 = (ea + i) mod 4096.
Proof.
  intros Hm [Hs Hea Hend Hpg Hb] Hi. specialize (Hb i Hi). unfold byte_pointer, translate in Hb. pose proof (width_pos size Hs).
  assert (Hir : inu 32 (ea + i)) by (unfold inu in *; lia).
  destruct (Z.testbit _ _).
  - destruct (Success (reference m f (ea + i))) as [pa |] eqn:E; [| done]. cbn [mbind option_bind] in Hb.
    destruct (reference_page m f (ea + i) (ea + i) pa Hm Hir Hir eq_refl E) as (_ & R & <-).
    apply (hardware_pointer_page (memory m) pa pa (ps i) R R eq_refl Hb).
  - cbn [mbind option_bind] in Hb. apply (hardware_pointer_page (memory m) (ea + i) (ea + i) (ps i) Hir Hir eq_refl Hb).
Qed.

Lemma accessible_inj m f size ea ps :
  mmu_ok m -> accessible m f size ea ps -> forall i j, 0 <= i < size -> 0 <= j < size -> ps i = ps j -> i = j.
Proof.
  intros Hm Ha i j Hi Hj E. pose proof (accessible_offset m f size ea ps i Hm Ha Hi) as Oi.
  pose proof (accessible_offset m f size ea ps j Hm Ha Hj) as Oj. rewrite E, Oj in Oi.
  pose proof (width_pos size (acc_width _ _ _ _ _ Ha)). revert Oi. clear - Hi Hj H0. intros. Z.to_euclidean_division_equations. lia.
Qed.

Lemma cross_unaligned ea size : width_ok size -> 4096 < ea mod 4096 + size -> flag ea (size - 1) = true.
Proof.
  intros Hs Hc. unfold flag. apply negb_true_iff, Z.eqb_neq. intros E.
  assert (A : exists n, 0 <= n <= 3 /\ size = 2 ^ n).
  { destruct Hs as [-> | [-> | [-> | ->]]]; [exists 0 | exists 1 | exists 2 | exists 3]; split; (lia || reflexivity). }
  destruct A as (n & Hn & ->). replace (2 ^ n - 1) with (Z.ones n) in E by (rewrite Z.ones_equiv; lia). rewrite Z.land_ones in E by lia.
  assert (n = 0 \/ n = 1 \/ n = 2 \/ n = 3) as [-> | [-> | [-> | ->]]] by lia;
    revert Hc E; clear; [change (2 ^ 0) with 1 | change (2 ^ 1) with 2 | change (2 ^ 2) with 4 | change (2 ^ 3) with 8]; intros;
    Z.to_euclidean_division_equations; lia.
Qed.

Lemma WriteToHardware_memory m f size ea v ps :
  mmu_ok m -> accessible m f size ea ps -> inu (8 * size) v ->
  exists m1 mem', WriteToHardware f size ea v m = Done tt (set_memory mem' m1) /\ translated m m1 /\ stored (memory m1) mem' size v 0 ps.
Proof.
  intros Hm Ha Hv. pose proof Ha as [Hs Hea Hend Hpg _]. pose proof (width_pos size Hs) as W.
  unfold WriteToHardware. unfold mbind at 1, M_bind at 1, gets at 1.
  assert (One : forall m1 pa, translated m m1 -> inu 32 pa -> hardware_pointer (memory m) pa = Some (ps 0) -> (ps 0).2 + size <= bank_size (ps 0).1 ->
    (forall i, 0 <= i < size -> ps i = ((ps 0).1, (ps 0).2 + i)) ->
    exists mem', write_physical f size pa v m1 = Done tt (set_memory mem' m1) /\ stored (memory m1) mem' size v 0 ps).
  { intros m1 pa X Rp Pp Bp Kp.
    destruct (write_physical_memory f size pa v m1 (ps 0)) as (mem' & E & M & B & L & U); try done.
    - apply (table_memory m1 (tlb_table _ _ (ok_tlb m1 (tr_ok _ _ X)))).
    - rewrite (same_banks_hardware (memory m)) by apply (step_banks _ _ (frame_memory _ _ (tr_frame _ _ X))). done.
    - exists mem'. split; [done |]. constructor; [done | done | |].
      + intros i Hi. rewrite (Kp i Hi). auto.
      + intros q Hq. apply U. intros i Hi. rewrite <- (Kp i Hi). auto. }
  assert (Z.testbit (msr (cpu m)) MSR_DR = true /\ 4096 < ea mod 4096 + size \/ ea mod 4096 + size <= 4096) as [[DR Hc] | Hc]
    by (destruct (Z.leb_spec (ea mod 4096 + size) 4096); [by right | left; destruct Hpg; [done | lia]]).
  - rewrite DR. destruct (accessible_cross m f size ea ps Hm Ha Hc) as (pa & nt & Hk & En & Hkr & He & E0 & Ek & Hp).
    set (k := 4096 - ea mod 4096) in *.
    destruct (TranslateAddress_translated f ea m Hm Hea) as (m1 & T1 & X1). unfold mbind at 1, M_bind at 1. rewrite T1, E0.
    rewrite page_offset, (cross_unaligned ea size Hs Hc). cbn [andb].
    destruct (Z.ltb_spec (HW_PAGE_SIZE - size) (ea mod 4096)); [| unfold HW_PAGE_SIZE in *; lia].
    rewrite En. destruct (TranslateAddress_translated f (ea + k) m1 (tr_ok _ _ X1) Hkr) as (m2 & T2 & X2).
    unfold mbind at 1, M_bind at 1. rewrite T2, (bytes_frame m m1 Hm X1), Ek.
    pose proof (translated_trans m m1 m2 Hm X1 X2) as X.
    destruct (write_crossing_memory f size ea k pa nt v ps Hs Hv (accessible_inj m f size ea ps Hm Ha) (Z.to_nat size) 0 pa m2)
      as (mem' & E' & S'); [lia | lia | apply (table_memory m2 (tlb_table _ _ (ok_tlb m2 (tr_ok _ _ X)))) | | |].
    + intros _ _. unfold phys. destruct (Z.ltb_spec 0 k); lia.
    + intros i Hi. rewrite (same_banks_hardware (memory m)) by apply (step_banks _ _ (frame_memory _ _ (tr_frame _ _ X))). auto.
    + exists m2, mem'. done.
  - destruct (accessible_page m f size ea ps Hm Ha Hc) as (pa & Ep & Rp & Pp & Bp & Kp). unfold translate in Ep.
    destruct (Z.testbit (msr (cpu m)) MSR_DR) eqn:DR.
    + destruct (TranslateAddress_translated f ea m Hm Hea) as (m1 & T1 & X1). unfold mbind at 1, M_bind at 1. rewrite T1, Ep.
      rewrite page_offset. destruct (Z.ltb_spec (HW_PAGE_SIZE - size) (ea mod 4096)); [unfold HW_PAGE_SIZE in *; lia |].
      rewrite andb_false_r. destruct (One m1 pa X1 Rp Pp Bp Kp) as (mem' & E & S). exists m1, mem'. done.
    + injection Ep as <-. destruct (One m ea (translated_refl m Hm) Rp Pp Bp Kp) as (mem' & E & S).
      exists m, mem'. split_and!; [done | apply translated_refl; done | done].
Qed.

(** ** Stores outside the page table keep the translations *)

Lemma physical_pointer_next mem a p q :
  0 <= a -> a mod 8 = 0 -> physical_pointer mem a = Some p -> physical_pointer mem (a + 4) = Some q -> q = (p.1, p.2 + 4).
Proof.
  intros Ha Hal Hp Hq. destruct (physical_pointer_spec _ _ _ Ha Hp) as [E R].
  destruct (physical_pointer_spec _ _ _ (Z.add_nonneg_nonneg a 4 Ha ltac:(lia)) Hq) as [E' R'].
  destruct p as [pb po], q as [qb qo]. cbn [fst snd] in *.
  destruct pb, qb; cbn [bank_base] in E, E';
    repeat match goal with
    | R : context [bank_size RAM] |- _ => change (bank_size RAM) with 0x2000000 in R
    | R : context [bank_size EXRAM] |- _ => change (bank_size EXRAM) with 0x4000000 in R
    | R : context [bank_size L1Cache] |- _ => change (bank_size L1Cache) with 0x40000 in R
    | R : context [bank_size FakeVMEM] |- _ => change (bank_size FakeVMEM) with 0x2000000 in R
    end;
    first [f_equal; lia | exfalso; Z.to_euclidean_division_equations; lia].
Qed.

Lemma read_word_same m mem' a :
  table_ok m -> in_table m a -> same_banks (memory m) mem' ->
  (forall p i, physical_pointer (memory m) (a + 4) = Some p -> -4 <= i < 4 -> load_u8 mem' (p.1, p.2 + i) = load_u8 (memory m) (p.1, p.2 + i)) ->
  read_word mem' a = read_word (memory m) a /\ read_word mem' (a + 4) = read_word (memory m) (a + 4).
Proof.
  intros Hm Ha B L. destruct (in_table_aligned m a Hm Ha) as (A1 & A2 & _ & [p Hp] & [q Hq]).
  pose proof (physical_pointer_next _ _ _ _ A1 A2 Hp Hq) as ->. unfold read_word.
  rewrite !(same_banks_pointer _ _ _ B), Hp, Hq. cbn [mbind option_bind].
  rewrite (load_bytes_ext (memory m) mem' p), (load_bytes_ext (memory m) mem' (p.1, p.2 + 4)); [done | |].
  - intros i Hi. apply (L _ _ Hq). lia.
  - intros i Hi. pose proof (L _ (Z.of_nat i - 4) Hq ltac:(lia)) as X. cbn [fst snd] in X.
    replace (p.2 + 4 + (Z.of_nat i - 4)) with (p.2 + Z.of_nat i) in X by lia. exact X.
Qed.

Lemma stored_frame m mem' size v ps :
  table_ok m -> stored (memory m) mem' size v 0 ps -> (forall i, 0 <= i < size -> outside_table m (ps i)) ->
  frame m (set_memory mem' m).
Proof.
  intros Hm [M B L U] Hout.
  assert (W : forall a, in_table m a -> read_word mem' a = read_word (memory m) a /\ read_word mem' (a + 4) = read_word (memory m) (a + 4)).
  { intros a Ha. apply read_word_same; [done | done | done |]. intros p i Hp Hi. apply U. intros j Hj E.
    destruct (Hout j Hj a p Ha Hp) as [N | [N | N]]; rewrite <- E in N; cbn [fst snd] in N; [done | lia | lia]. }
  constructor; try done. constructor; cbn [memory set_memory]; try done.
  - intros a Ha. apply W, Ha.
  - intros a Ha. unfold word. destruct (W a Ha) as [_ ->]. done.
Qed.

Lemma frame_same_tlb m m' : tlb_ok m -> frame m m' -> tlb m' = tlb m -> tlb_ok m'.
Proof.
  intros Hok F E. pose proof (tlb_table _ _ Hok) as Hm. constructor.
  - apply (frame_table m); done.
  - rewrite E. apply (tlb_shape _ _ Hok).
  - intros opc i w Hw Hn. rewrite E. apply (frame_way m m' opc (tlb_entry (tlb m) (opc, i))); auto. apply (tlb_agrees _ _ Hok); done.
Qed.

Lemma Read_like_Write m ea : reference m Read ea = reference m Write ea.
Proof. done. Qed.

(** A store as a whole. *)
Lemma WriteToHardware_ok m size ea v ps :
  mmu_ok m -> accessible m Write size ea ps -> (forall i, 0 <= i < size -> outside_table m (ps i)) -> inu (8 * size) v ->
  exists m', WriteToHardware Write size ea v m = Done tt m' /\ frame m m' /\ mmu_ok m' /\
    (forall i, 0 <= i < size -> load_u8 (memory m') (ps i) = be_bytes (Z.to_nat size) v !! Z.to_nat i) /\
    (forall q, outside_table m q -> (forall i, 0 <= i < size -> q <> ps i) -> load_u8 (memory m') q = load_u8 (memory m) q).
Proof.
  intros Hm Ha Hout Hv. destruct (WriteToHardware_memory m Write size ea v ps Hm Ha Hv) as (m1 & mem' & E & X & S).
  pose proof (tlb_table _ _ (ok_tlb m Hm)) as Tm. pose proof (tlb_table _ _ (ok_tlb m1 (tr_ok _ _ X))) as Tm1.
  assert (F : frame m1 (set_memory mem' m1)).
  { apply (stored_frame m1 mem' size v ps Tm1 S). intros i Hi. apply (frame_outside m m1 _ (tr_frame _ _ X)). auto. }
  exists (set_memory mem' m1). split; [done |]. split; [eapply frame_trans; [done | apply X | done] |]. split.
  - apply (frame_mmu_ok m1); [apply X | done |]. apply (frame_same_tlb m1); [apply (ok_tlb m1 (tr_ok _ _ X)) | done | done].
  - destruct S as [_ _ L U]. cbn [memory set_memory]. split; [done |]. intros q Hq Hne. rewrite U by done. apply (tr_memory _ _ X). done.
Qed.

Lemma lookup_ext_Z (l1 l2 : list Z) n :
  Z.of_nat (length l1) = n -> Z.of_nat (length l2) = n -> (forall i, 0 <= i < n -> l1 !! Z.to_nat i = l2 !! Z.to_nat i) -> l1 = l2.
Proof.
  intros H1 H2 E. apply list_eq. intros i. destruct (decide (Z.of_nat i < n)).
  - specialize (E (Z.of_nat i) ltac:(lia)). rewrite Nat2Z.id in E. done.
  - rewrite !lookup_ge_None_2 by lia. done.
Qed.

(** A load of bytes that are known. *)
Lemma ReadFromHardware_value m f size ea v ps :
  mmu_ok m -> accessible m f size ea ps -> (forall i, 0 <= i < size -> outside_table m (ps i)) -> inu (8 * size) v ->
  (forall i, 0 <= i < size -> load_u8 (memory m) (ps i) = be_bytes (Z.to_nat size) v !! Z.to_nat i) ->
  exists m', ReadFromHardware f size ea m = Done v m' /\ translated m m'.
Proof.
  intros Hm Ha Hout Hv Hb. destruct (ReadFromHardware_memory m f size ea ps Hm Ha) as (m' & l & E & X & Ll & Ol & Vl).
  pose proof (width_pos size (acc_width _ _ _ _ _ Ha)).
  exists m'. split; [| done]. rewrite E. f_equal. rewrite <- (be_value_bytes (Z.to_nat size) v) by (rewrite Z2Nat.id by lia; done).
  f_equal. apply (lookup_ext_Z _ _ size); [done | rewrite length_be_bytes; lia |].
  intros i Hi. rewrite Vl, (tr_memory _ _ X) by auto. auto.
Qed.

(** C16: A store of one, two, four or eight bytes to a virtual address whose
    bytes are memory outside the page table, within a page or across two
    pages that may lie anywhere, with any mixture of translations, succeeds;
    it changes no translation and no register; a load of the same width at
    the same address then gives the stored value, and a load of any width at
    any other virtual address, whose bytes are memory outside the page table too
    and none of those stored, gives what it gave before. *)
Theorem virtual_memory m size ea v ps :
  mmu_ok m -> accessible m Write size ea ps -> (forall i, 0 <= i < size -> outside_table m (ps i)) -> inu (8 * size) v ->
  exists m', WriteToHardware Write size ea v m = Done tt m' /\ mmu_ok m' /\ cpu m' = cpu m /\
    (forall f a, reference m' f a = reference m f a) /\
    (exists m'', ReadFromHardware Read size ea m' = Done v m'') /\
    (forall size2 ea2 ps2 w m2, accessible m Read size2 ea2 ps2 -> (forall i, 0 <= i < size2 -> outside_table m (ps2 i)) ->
       (forall i j, 0 <= i < size2 -> 0 <= j < size -> ps2 i <> ps j) ->
       ReadFromHardware Read size2 ea2 m = Done w m2 -> exists m3, ReadFromHardware Read size2 ea2 m' = Done w m3).
Proof.
  intros Hm Ha Hout Hv. destruct (WriteToHardware_ok m size ea v ps Hm Ha Hout Hv) as (m' & E & F & Hm' & L & U).
  pose proof (tlb_table _ _ (ok_tlb m Hm)) as Tm. exists m'. split_and!; try done.
  - apply (frame_cpu _ _ F).
  - intros f a. apply frame_reference; done.
  - assert (Ha' : accessible m' Read size ea ps) by (apply (accessible_frame m m'); [done | done | destruct Ha; constructor; done]).
    destruct (ReadFromHardware_value m' Read size ea v ps Hm' Ha') as (m'' & R & _); [| done | done | eauto].
    intros i Hi. apply (frame_outside m m' _ F). auto.
  - intros size2 ea2 ps2 w m2 Ha2 Hout2 Hne R2.
    destruct (ReadFromHardware_memory m Read size2 ea2 ps2 Hm Ha2) as (m0 & l & R & X & Ll & Ol & Vl). rewrite R2 in R. injection R as -> ->.
    pose proof (accessible_frame m m' Read size2 ea2 ps2 Tm F Ha2) as Ha2'.
    destruct (ReadFromHardware_memory m' Read size2 ea2 ps2 Hm' Ha2') as (m3 & l' & R' & X' & Ll' & Ol' & Vl'). exists m3.
    rewrite R'. f_equal. f_equal. apply (lookup_ext_Z _ _ size2); [done | done |].
    intros i Hi. rewrite Vl, Vl' by done. rewrite (tr_memory _ _ X), (tr_memory _ _ X') by (auto; apply (frame_outside m m' _ F); auto).
    apply U; auto.
Qed.

(** ** Accesses that fail *)

(** The address that cannot be translated: the access's, or that of the
    second page. *)
Definition untranslated m (f : XCheckTLBFlag) (size ea : Z) : option Z :=
  match Success (reference m f ea) with
  | None => Some ea
  | Some _ =>
    if 4096 <? ea mod 4096 + size then
      match Success (reference m f (next_page_of ea size)) with None => Some (next_page_of ea size) | Some _ => None end
    else None
  end.

Lemma next_page_range ea size : inu 32 (next_page_of ea size).
Proof. apply wrapu_range. lia. Qed.

(** Both translations of an access that fails. *)
Lemma untranslated_steps m f size ea a :
  mmu_ok m -> inu 32 ea -> untranslated m f size ea = Some a ->
  exists m1, translated m m1 /\
    (TranslateAddress f ea m = Done (reference m f ea) m1 /\ Success (reference m f ea) = None /\ a = ea \/
     exists m0 pa r, TranslateAddress f ea m = Done (reference m f ea) m0 /\ Success (reference m f ea) = Some pa /\
       4096 < ea mod 4096 + size /\ a = next_page_of ea size /\ TranslateAddress f a m0 = Done r m1 /\ Success r = None).
Proof.
  intros Hm Hea. unfold untranslated. destruct (TranslateAddress_translated f ea m Hm Hea) as (m1 & T1 & X1).
  destruct (Success (reference m f ea)) as [pa |] eqn:E.
  - destruct (Z.ltb_spec 4096 (ea mod 4096 + size)); [| done].
    destruct (Success (reference m f (next_page_of ea size))) eqn:E2; [done |]. intros [= <-].
    destruct (TranslateAddress_translated f (next_page_of ea size) m1 (tr_ok _ _ X1) (next_page_range ea size)) as (m2 & T2 & X2).
    exists m2. split; [eapply translated_trans; done |]. right. exists m1, pa. eexists. split_and!; try done.
    rewrite (bytes_frame m m1 Hm X1). done.
  - intros [= <-]. exists m1. split; [done |]. left. done.
Qed.

(** The machine after the exception. *)
Lemma GenerateDSIException_spec a write m :
  exists s, GenerateDSIException a write m = Done tt (set_cpu s m) /\
    gpr s = gpr (cpu m) /\ pc s = pc (cpu m) /\ npc s = npc (cpu m) /\ msr s = msr (cpu m) /\
    (bMMU = false -> s = cpu m) /\
    (bMMU = true -> Exceptions s = Exceptions (cpu m) .| EXCEPTION_DSI /\ rSPR s SPR_DAR = u32 a /\
      rSPR s SPR_DSISR = if a =? 0 then PPC_EXC_DSISR_PAGE else PPC_EXC_DSISR_PAGE .| PPC_EXC_DSISR_STORE).
Proof.
  unfold GenerateDSIException, when, modify, mret, M_ret. destruct bMMU.
  - eexists. split; [reflexivity |]. split_and!; try done. intros _. unfold rSPR, put_spr. cbn [Exceptions spr set_Exceptions set_spr].
    split_and!; [done | apply mget_mset_same |]. rewrite mget_mset_other, mget_mset_same by done. destruct (a =? 0); done.
  - exists (cpu m). split; [by destruct m |]. split_and!; done.
Qed.

(** What such an access does: the translations, then the exception. *)
Lemma ReadFromHardware_fails m size ea a :
  mmu_ok m -> inu 32 ea -> width_ok size -> Z.testbit (msr (cpu m)) MSR_DR = true -> untranslated m Read size ea = Some a ->
  exists m1, translated m m1 /\ ReadFromHardware Read size ea m = (_ ← GenerateDSIException a false; mret 0) m1.
Proof.
  intros Hm Hea Hs DR Hu. pose proof (width_pos size Hs). unfold ReadFromHardware. unfold mbind at 1, M_bind at 1, gets at 1. rewrite DR.
  destruct (untranslated_steps m Read size ea a Hm Hea Hu) as (m1 & X & [(T & N & ->) | (m0 & pa & r & T & N & Hc & -> & T2 & N2)]);
    exists m1; (split; [done |]); unfold mbind at 1, M_bind at 1; rewrite T, N; [done |].
  rewrite page_offset. destruct (Z.ltb_spec (HW_PAGE_SIZE - size) (ea mod 4096)); [| unfold HW_PAGE_SIZE in *; lia].
  unfold mbind at 1, M_bind at 1. rewrite T2, N2. done.
Qed.

Lemma WriteToHardware_fails m size ea v a :
  mmu_ok m -> inu 32 ea -> width_ok size -> Z.testbit (msr (cpu m)) MSR_DR = true -> untranslated m Write size ea = Some a ->
  exists m1, translated m m1 /\ WriteToHardware Write size ea v m = GenerateDSIException a true m1.
Proof.
  intros Hm Hea Hs DR Hu. pose proof (width_pos size Hs). unfold WriteToHardware. unfold mbind at 1, M_bind at 1, gets at 1. rewrite DR.
  destruct (untranslated_steps m Write size ea a Hm Hea Hu) as (m1 & X & [(T & N & ->) | (m0 & pa & r & T & N & Hc & -> & T2 & N2)]);
    exists m1; (split; [done |]); unfold mbind at 1, M_bind at 1; rewrite T, N; [done |].
  rewrite page_offset, cross_unaligned by done. destruct (Z.ltb_spec (HW_PAGE_SIZE - size) (ea mod 4096)); [| unfold HW_PAGE_SIZE in *; lia].
  cbn [andb]. unfold mbind at 1, M_bind at 1. rewrite T2, N2. done.
Qed.

(** A load or store of which some page cannot be translated reads and
    writes nothing: the load gives 0, no register and no memory but the access
    bits of the page table changes, and with the MMU enabled the address that
    failed is in DAR and a DSI exception is pending. DSISR names a store
    whenever that address is not zero, for loads as well. *)
Theorem failed_access m size ea v a :
  mmu_ok m -> inu 32 ea -> width_ok size -> Z.testbit (msr (cpu m)) MSR_DR = true ->
  untranslated m Read size ea = Some a ->
  let fails (m' : Mmu D) := exists s m1, m' = set_cpu s m1 /\ translated m m1 /\ gpr s = gpr (cpu m) /\ pc s = pc (cpu m) /\
    npc s = npc (cpu m) /\ msr s = msr (cpu m) /\ (bMMU = false -> s = cpu m) /\
    (bMMU = true -> Exceptions s = Exceptions (cpu m) .| EXCEPTION_DSI /\ rSPR s SPR_DAR = u32 a /\
      rSPR s SPR_DSISR = if a =? 0 then PPC_EXC_DSISR_PAGE else PPC_EXC_DSISR_PAGE .| PPC_EXC_DSISR_STORE) in
  (exists m', ReadFromHardware Read size ea m = Done 0 m' /\ fails m') /\
  (exists m', WriteToHardware Write size ea v m = Done tt m' /\ fails m').
Proof.
  intros Hm Hea Hs DR Hu fails. pose proof (width_pos size Hs).
  assert (K : forall m1 w, translated m m1 -> exists m', GenerateDSIException a w m1 = Done tt m' /\ fails m').
  { intros m1 w X. destruct (GenerateDSIException_spec a w m1) as (s & E & S). exists (set_cpu s m1). split; [done |].
    exists s, m1. rewrite <- (frame_cpu _ _ (tr_frame _ _ X)). done. }
  split.
  - destruct (ReadFromHardware_fails m size ea a Hm Hea Hs DR Hu) as (m1 & X & ->).
    destruct (K m1 false X) as (m' & G & Hf). exists m'. split; [| exact Hf]. unfold mbind, M_bind. rewrite G. done.
  - destruct (WriteToHardware_fails m size ea v a Hm Hea Hs DR Hu) as (m1 & X & ->).
    destruct (K m1 true X) as (m' & G & Hf). exists m'. done.
Qed.
End Virtual.

(** ** Accesses of anything: memory, devices, nothing *)

(** What memory needs of the devices: they may write to it, not unmap it. *)
Definition keeps_memory {D} (g : Mmu D -> Mmu D) : Prop :=
  forall m, memory_ok (memory m) -> memory_ok (memory (g m)) /\ same_banks (memory m) (memory (g m)).

Class MmuHostLaws (D : Type) `{MmuHost D} : Prop := {
  mmio_Read_memory size a : keeps_memory (fun m => (mmio_Read size a m).2);
  mmio_Write_memory size a v : keeps_memory (mmio_Write size a v);
  GPFifo_Write_memory size v : keeps_memory (GPFifo_Write size v)
}.

Section Safety.
Context {D : Type} `{MmuHostLaws D}.
Implicit Types m : Mmu D.

Definition keeps m m' : Prop := memory_ok (memory m') /\ same_banks (memory m) (memory m').

Lemma keeps_trans m1 m2 m3 : keeps m1 m2 -> keeps m2 m3 -> keeps m1 m3.
Proof. intros [_ B1] [M2 B2]. split; [done |]. intros b. rewrite (B2 b). apply B1. Qed.

Lemma EFB_Read_total a m : memory_ok (memory m) -> exists v m', EFB_Read a m = Done v m' /\ keeps m m'.
Proof.
  intros Hm. unfold EFB_Read, access_efb, mret, M_ret. repeat match goal with |- context [if ?b then _ else _] => destruct b end;
    try destruct (Video_AccessEFB _ _ _ _ _); do 2 eexists; split; done.
Qed.


(** An access within a page of memory stays within its region. *)
Lemma page_in_bank mem a p size :
  inu 32 a -> width_ok size -> a mod 4096 + size <= 4096 -> hardware_pointer mem a = Some p -> p.2 + size <= bank_size p.1.
Proof.
  intros Ha Hs Hc Hp. pose proof (width_pos size Hs).
  assert (R : inu 32 (a + (size - 1))) by (unfold inu in *; Z.to_euclidean_division_equations; lia).
  destruct (hardware_pointer_page mem a (a + (size - 1)) p Ha R) as [E _]; [Z.to_euclidean_division_equations; lia | done |].
  destruct (hardware_pointer_bank _ _ _ R E) as [_ B]. cbn in B. lia.
Qed.

Lemma read_physical_total f size a m :
  width_ok size -> memory_ok (memory m) -> inu 32 a -> a mod 4096 + size <= 4096 ->
  exists v m', read_physical f size a m = Done v m' /\ keeps m m'.
Proof.
  intros Hs Hm Ha Hc. destruct (hardware_pointer (memory m) a) as [p |] eqn:Hp.
  - destruct (read_physical_memory f size a m p Hs Hm Ha Hp (page_in_bank _ _ _ _ Ha Hs Hc Hp)) as (l & E & _). eexists _, m. done.
  - unfold read_physical, mbind, M_bind, gets, mret, M_ret. rewrite Hp. destruct (_ && _); [| by eexists _, m].
    destruct (a <? 0x0c000000).
    + destruct (EFB_Read_total a m Hm) as (v & m' & -> & K). eauto.
    + pose proof (mmio_Read_memory size a m Hm) as K. cbn in K. destruct (mmio_Read size a m) as [v m']. eexists _, m'. done.
Qed.


Lemma byte_page a : a mod 4096 + 1 <= 4096.
Proof. pose proof (Z.mod_pos_bound a 4096). lia. Qed.

(** A round of the loop of a load that crosses a page. *)
Lemma read_crossing_round fuel f size ea np nt addr a var m :
  memory_ok (memory m) -> inu 32 a -> inu 32 nt -> addr < ea + size ->
  exists a' var' m', read_crossing (S fuel) f size ea np nt addr a var m = read_crossing fuel f size ea np nt (u32 (addr + 1)) a' var' m' /\
    memory_ok (memory m') /\ inu 32 a'.
Proof.
  intros Hm Ha Hnt Hlt. cbn [read_crossing]. destruct (Z.ltb_spec addr (ea + size)); [| lia]. set (a' := if addr =? np then nt else a).
  assert (Ha' : inu 32 a') by (subst a'; destruct (addr =? np); done).
  destruct (read_physical_total f 1 a' m ltac:(by left) Hm Ha' (byte_page a')) as (b & m' & E & [K _]).
  eexists (u32 (a' + 1)), _, m'. unfold mbind, M_bind. rewrite E. split; [reflexivity |]. split; [done | range].
Qed.


(** Past the end of the address space the bound is never reached. *)
Lemma read_crossing_loops f size ea np nt fuel addr a var m :
  memory_ok (memory m) -> inu 32 addr -> inu 32 a -> inu 32 nt -> 2 ^ 32 < ea + size ->
  read_crossing fuel f size ea np nt addr a var m = Loops.
Proof.
  revert addr a var m. induction fuel as [| fuel IH]; intros addr a var m Hm Had Ha Hnt Hend; [done |].
  destruct (read_crossing_round fuel f size ea np nt addr a var m Hm Ha Hnt) as (a' & var' & m' & -> & Hm' & Ha'); [unfold inu in *; lia |].
  apply IH; (done || range).
Qed.


Lemma translated_memory m m' : mmu_ok m -> translated m m' -> memory_ok (memory m').
Proof. intros Hm X. apply (table_memory m' (tlb_table _ _ (ok_tlb m' (tr_ok _ _ X)))). Qed.

Lemma Success_range m f ea pa : mmu_ok m -> inu 32 ea -> Success (reference m f ea) = Some pa -> inu 32 pa /\ pa mod 4096 = ea mod 4096.
Proof. intros Hm Hea E. apply (reference_page m f ea ea pa Hm Hea Hea eq_refl E). Qed.

Lemma exception_total (b : bool) a w m : exists m', when b (GenerateDSIException a w) m = Done tt m'.
Proof. destruct b; unfold when; [destruct (GenerateDSIException_spec a w m) as (s & -> & _); eauto | exists m; done]. Qed.

Lemma exception_value (b : bool) a w m : exists m', (_ ← when b (GenerateDSIException a w); mret 0) m = Done 0 m'.
Proof. destruct (exception_total b a w m) as (m' & E). exists m'. unfold mbind, M_bind. rewrite E. done. Qed.

(** Both translations of an access. *)
Lemma translations m f size ea :
  mmu_ok m -> inu 32 ea ->
  exists m1 m2, TranslateAddress f ea m = Done (reference m f ea) m1 /\
    TranslateAddress f (next_page_of ea size) m1 = Done (reference m f (next_page_of ea size)) m2 /\
    memory_ok (memory m1) /\ memory_ok (memory m2).
Proof.
  intros Hm Hea. destruct (TranslateAddress_translated f ea m Hm Hea) as (m1 & T1 & X1).
  destruct (TranslateAddress_translated f (next_page_of ea size) m1 (tr_ok _ _ X1) (next_page_range ea size)) as (m2 & T2 & X2).
  rewrite (bytes_frame m m1 Hm X1) in T2. exists m1, m2.
  split_and!; [done | done | apply (translated_memory m); done | apply (translated_memory m1); [apply X1 | done]].
Qed.



(** Past the end of the address space. *)
Lemma ReadFromHardware_end m f size ea :
  mmu_ok m -> width_ok size -> inu 32 ea -> Z.testbit (msr (cpu m)) MSR_DR = true -> 2 ^ 32 < ea + size ->
  match Success (reference m f ea), Success (reference m f (next_page_of ea size)) with
  | Some _, Some _ => ReadFromHardware f size ea m = Loops
  | _, _ => exists m', ReadFromHardware f size ea m = Done 0 m'
  end.
Proof.
  intros Hm Hs Hea DR Hend. pose proof (width_pos size Hs) as W.
  destruct (translations m f size ea Hm Hea) as (m1 & m2 & T1 & T2 & M1 & M2).
  assert (E : ReadFromHardware f size ea m =
    match Success (reference m f ea) with
    | None => (_ ← when (bool_decide (f = Read)) (GenerateDSIException ea false); mret 0) m1
    | Some pa =>
      match Success (reference m f (next_page_of ea size)) with
      | None => (_ ← when (bool_decide (f = Read)) (GenerateDSIException (next_page_of ea size) false); mret 0) m2
      | Some nt => read_crossing (S (Z.to_nat size)) f size ea (next_page_of ea size) nt ea pa 0 m2
      end
    end).
  { unfold ReadFromHardware. unfold mbind at 1, M_bind at 1, gets at 1. rewrite DR. unfold mbind at 1, M_bind at 1. rewrite T1.
    destruct (Success (reference m f ea)) as [pa |]; [| done]. rewrite page_offset.
    destruct (Z.ltb_spec (HW_PAGE_SIZE - size) (ea mod 4096)) as [Hc | Hc]; unfold HW_PAGE_SIZE in *;
      [| exfalso; unfold inu in *; revert W Hea Hend Hc; clear; intros; Z.to_euclidean_division_equations; lia].
    unfold mbind at 1, M_bind at 1. rewrite T2. destruct (Success (reference m f (next_page_of ea size))); done. }
  rewrite E. destruct (Success (reference m f ea)) as [pa |] eqn:E1; [| apply exception_value].
  destruct (Success (reference m f (next_page_of ea size))) as [nt |] eqn:E2; [| apply exception_value].
  destruct (Success_range m f ea pa Hm Hea E1) as [R1 _]. destruct (Success_range m f _ nt Hm (next_page_range ea size) E2) as [R2 _].
  apply read_crossing_loops; done.
Qed.


(** A load that crosses the end of the address space, when both its pages
    are mapped, does not return: the loop over its bytes runs out of any fuel,
    from any memory, because its 32-bit counter never reaches its bound. *)
Theorem load_across_end m f size ea pa nt :
  mmu_ok m -> width_ok size -> inu 32 ea -> 2 ^ 32 < ea + size -> Z.testbit (msr (cpu m)) MSR_DR = true ->
  Success (reference m f ea) = Some pa -> Success (reference m f (next_page_of ea size)) = Some nt ->
  ReadFromHardware f size ea m = Loops /\
  forall fuel m', memory_ok (memory m') -> read_crossing fuel f size ea (next_page_of ea size) nt ea pa 0 m' = Loops.
Proof.
  intros Hm Hs Hea Hend DR E1 E2.
  destruct (Success_range m f ea pa Hm Hea E1) as [R1 O1]. destruct (Success_range m f _ nt Hm (next_page_range ea size) E2) as [R2 _].
  split; [| intros; apply read_crossing_loops; done].
  pose proof (ReadFromHardware_end m f size ea Hm Hs Hea DR Hend) as E. rewrite E1, E2 in E. exact E.
Qed.
End Safety.

(** ** Example: two pages that are neighbours only in the virtual space, and
    BAT registers that map the two ends of the address space *)

Section Example.

#[local] Instance quiet_host : MmuHost unit := {|
  Video_AccessEFB t x y data d := (0, d);
  mmio_Read size a m := (0, m);
  mmio_Write size a v m := m;
  GPFifo_Write size v m := m;
  mem_check a v w size pc d := (false, d);
  bMMU := true
|}.

#[local] Instance quiet_host_laws : MmuHostLaws unit.
Proof. constructor; intros; intros m Hm; (split; [exact Hm | intros b; reflexivity]). Qed.

Definition two_pages : Mmu unit :=
  let mem := poke 0x14884 0x00345000 (poke 0x14880 0x80009181 (Memmap.Init false true)) in
  let mem := poke 0x14844 0x00777000 (poke 0x14840 0x80009181 mem) in
  let s := set_msr (1 .<< MSR_DR) (put_spr SPR_SDR 0x00010000 (set_sr (0x123 :: replicate 15 0) ppcState)) in
  let s := put_spr (SPR_DBAT0U + 1) 0x00000002 (put_spr SPR_DBAT0U 0xFFFE0003 s) in
  let s := put_spr (SPR_DBAT0U + 3) 0x00020002 (put_spr (SPR_DBAT0U + 2) 0x00000003 s) in
  SDRUpdated (mk_mmu s mem ∅ 0 0 ∅ (DBATUpdated (fun _ _ => false) false mem s) PpcCache.Init tt).

Lemma two_pages_ok : mmu_ok two_pages.
Proof.
  constructor.
  - apply empty_tlb_ok; [| reflexivity]. apply small_table_ok; [| reflexivity | reflexivity].
    unfold two_pages. rewrite (proj1 (SDRUpdated_memory _)). repeat (apply poke_ok; [lia | done |]). apply fresh_memory_ok.
  - unfold two_pages. rewrite (proj1 (proj2 (SDRUpdated_memory _))). apply bat_ok_empty.
  - unfold two_pages. rewrite (proj2 (proj2 (SDRUpdated_memory _))). cbn [dbat_table]. unfold DBATUpdated. apply bat_ok_BATUpdated.
Qed.

Definition crossing_bytes (i : Z) : Bank * Z := if i <? 2 then (RAM, 0x345FFE + i) else (RAM, 0x777000 + (i - 2)).

Lemma crossing_accessible : accessible two_pages Write 4 0x00401FFE crossing_bytes.
Proof.
  constructor; [unfold width_ok; lia | unfold inu; lia | lia | left; reflexivity |].
  intros i Hi. assert (i = 0 \/ i = 1 \/ i = 2 \/ i = 3) as [-> | [-> | [-> | ->]]] by lia; vm_compute; reflexivity.
Qed.

Lemma crossing_outside i : 0 <= i < 4 -> outside_table two_pages (crossing_bytes i).
Proof.
  intros Hi a p (h & j & Hj & ->). destruct (small_group two_pages h eq_refl eq_refl). rewrite ram_pointer by lia.
  intros [= <-]. unfold crossing_bytes. destruct (i <? 2); cbn [fst snd]; lia.
Qed.

Lemma virtual_memory_witness :
  exists m', WriteToHardware Write 4 0x00401FFE 0x11223344 two_pages = Done tt m' /\
    (exists m'', ReadFromHardware Read 4 0x00401FFE m' = Done 0x11223344 m'').
Proof.
  destruct (virtual_memory two_pages 4 0x00401FFE 0x11223344 crossing_bytes two_pages_ok crossing_accessible crossing_outside)
    as (m' & E & _ & _ & _ & R & _); [unfold inu; lia |].
  exists m'. split; [exact E | exact R].
Defined.

Lemma failed_access_witness :
  untranslated two_pages Read 4 0x00402FFE = Some 0x00403000 /\
  exists m', WriteToHardware Write 4 0x00402FFE 1 two_pages = Done tt m'.
Proof.
  assert (U : untranslated two_pages Read 4 0x00402FFE = Some 0x00403000) by (vm_compute; reflexivity).
  split; [exact U |].
  destruct (failed_access two_pages 4 0x00402FFE 1 0x00403000 two_pages_ok) as (_ & m' & E & _);
    [unfold inu; lia | unfold width_ok; lia | reflexivity | exact U |].
  exists m'. exact E.
Defined.


Lemma load_across_end_witness : ReadFromHardware Read 4 0xFFFFFFFE two_pages = Loops.
Proof.
  refine (proj1 (load_across_end two_pages Read 4 0xFFFFFFFE 0x1FFFE 0x20000 two_pages_ok _ _ _ _ _ _));
    [unfold width_ok; lia | unfold inu; lia | lia | reflexivity | vm_compute; reflexivity | vm_compute; reflexivity].
Defined.
End Example.
