(* ===== verification/PpcAccess.v ===== *)
(** What an access to memory keeps of the processor.

    An access may report an exception and may call the handler of a device's
    register; everything else it does, it does to memory, the TLB, the caches
    and the devices. A relation between the registers before and after that
    admits those two is kept by every access. *)

From S2P Require Import Prelude Memmap PpcCache PpcState PpcBat PpcTlb PpcMmu.
Open Scope Z_scope.

(** Bounds of constants. *)
Ltac widths := first [ unfold inu; cbn; lia | vm_compute; split; congruence ].

(** ** Relations *)

Class AdmitsFaults (R : PowerPCState -> PowerPCState -> Prop) : Prop := {
  admits_order :: PreOrder R;
  admits_spr i v s : R s (put_spr i v s);
  admits_exceptions k s : inu 32 k -> R s (set_Exceptions (Exceptions s .| k) s)
}.

(** What the handlers of device registers and the gather pipe do. *)
Class DevicesAdmit {D : Type} `{MmuHost D} (R : PowerPCState -> PowerPCState -> Prop) : Prop := {
  admits_mmio_Read size a (m : Mmu D) : R (cpu m) (cpu (mmio_Read size a m).2);
  admits_mmio_Write size a v (m : Mmu D) : R (cpu m) (cpu (mmio_Write size a v m));
  admits_GPFifo_Write size v (m : Mmu D) : R (cpu m) (cpu (GPFifo_Write size v m))
}.

(** ** Accesses to memory *)

Section Keeps.
Context {D : Type} (R : PowerPCState -> PowerPCState -> Prop) `{!PreOrder R}.

Definition keeps {A} (x : M D A) : Prop := forall m v m', x m = Done v m' -> R (cpu m) (cpu m').

Lemma keeps_ret A (a : A) : keeps (mret a).
Proof. intros m v m' [= _ <-]. reflexivity. Qed.

Lemma keeps_seq A B (x : M D A) (k : A -> M D B) : keeps x -> (forall a, keeps (k a)) -> keeps (x ≫= k).
Proof.
  intros Hx Hk m v m'. unfold mbind, M_bind. destruct (x m) as [a m1 | |] eqn:E; [| done | done]. intros E'.
  etransitivity; [apply (Hx _ _ _ E) | apply (Hk a _ _ _ E')].
Qed.

Lemma keeps_gets A (f : Mmu D -> A) : keeps (gets f).
Proof. intros m v m' [= _ <-]. reflexivity. Qed.

Lemma keeps_host A (o : option A) : keeps (host o).
Proof. intros m v m'. unfold host. destruct o; [intros [= _ <-]; reflexivity | done]. Qed.

Lemma keeps_stop A (o : outcome D A) : (forall v m, o <> Done v m) -> keeps (fun _ => o).
Proof. intros Ho m v m' E. destruct (Ho _ _ E). Qed.

Lemma keeps_modify (f : Mmu D -> Mmu D) : (forall m, R (cpu m) (cpu (f m))) -> keeps (modify f).
Proof. intros Hf m v m' [= _ <-]. apply Hf. Qed.

Lemma keeps_cond b x : keeps x -> keeps (when b x).
Proof. destruct b; [done |]. intros. apply keeps_ret. Qed.

(** The device is asked, and the processor is left alone. *)
Lemma keeps_device A (f : Mmu D -> A * Mmu D) : (forall m, R (cpu m) (cpu (f m).2)) -> keeps (fun m => let '(a, m) := f m in Done a m).
Proof. intros Hf m v m' E. specialize (Hf m). destruct (f m). injection E as _ <-. exact Hf. Qed.
End Keeps.

(** One step through a program: a lemma of [K], a command, or a case. *)
Ltac keep_access_step :=
  first
  [ assumption | match goal with K : forall _, _ |- _ => apply K end | apply keeps_ret; exact _ | apply keeps_gets; exact _ | apply keeps_host; exact _
  | apply keeps_cond; [exact _ |] | apply keeps_seq; [exact _ | | intros ?] | apply keeps_modify; intros ?
  | apply keeps_stop; discriminate | reflexivity
  | apply admits_spr
  | progress cbv beta zeta | lazymatch goal with |- forall _, _ => intros ? end
  | match goal with
    | |- keeps _ (match ?x with _ => _ end) => destruct x
    | |- ?R _ (if ?b then _ else _) => destruct b
    end ].

(** Extended where the handlers are. *)
Ltac keep_step := keep_access_step.
Ltac keep := repeat keep_step.

Lemma keeps_TranslateAddress {D} R `{!PreOrder R} f a : keeps R (TranslateAddress (D := D) f a).
Proof. unfold TranslateAddress, TranslatePageAddress, use_entry. keep. Qed.

Section Access.
Context {D : Type} `{MmuHost D} (R : PowerPCState -> PowerPCState -> Prop) `{!AdmitsFaults R} `{!DevicesAdmit R}.
Abbreviation keeps := (keeps R).

Lemma keeps_DSI a w : keeps (PpcMmu.GenerateDSIException (D := D) a w).
Proof.
  unfold PpcMmu.GenerateDSIException. keep. cbn [cpu set_cpu].
  etransitivity; [| apply admits_exceptions; widths]. etransitivity; [| apply admits_spr]. apply admits_spr.
Qed.

Lemma keeps_access_efb t x y d : keeps (access_efb t x y d).
Proof. intros m v m'. unfold access_efb. destruct (Video_AccessEFB _ _ _ _ _). intros [= _ <-]. reflexivity. Qed.

Lemma keeps_EFB_Read a : keeps (EFB_Read a).
Proof. pose proof keeps_access_efb. unfold EFB_Read. keep. Qed.

Lemma keeps_EFB_Write v a : keeps (EFB_Write v a).
Proof. pose proof keeps_access_efb. unfold EFB_Write. keep. Qed.

Lemma keeps_mmio_Read size a (f : Z -> Z) : keeps (fun m => let '(v, m') := mmio_Read size a m in Done (f v) m').
Proof.
  intros m v m' E. pose proof (admits_mmio_Read (R := R) size a m) as Hd. destruct (mmio_Read size a m). injection E as _ <-. exact Hd.
Qed.

Lemma keeps_read_physical f size a : keeps (read_physical f size a).
Proof. pose proof keeps_EFB_Read. pose proof keeps_mmio_Read as K. unfold read_physical. keep. Qed.

Lemma keeps_write_physical f size a v : keeps (write_physical f size a v).
Proof.
  pose proof keeps_EFB_Write. unfold write_physical. keep; [apply admits_GPFifo_Write | apply admits_mmio_Write].
Qed.

Lemma keeps_read_crossing fuel f size ea np nt ad tr var : keeps (read_crossing fuel f size ea np nt ad tr var).
Proof.
  pose proof keeps_read_physical. revert ad tr var. induction fuel as [| fuel IH]; intros; cbn [read_crossing]; keep.
Qed.

Lemma keeps_write_crossing n f val ea np nt i tr : keeps (write_crossing n f val ea np nt i tr).
Proof.
  pose proof keeps_write_physical. revert i tr. induction n as [| n IH]; intros; cbn [write_crossing]; keep.
Qed.

Lemma keeps_ReadFromHardware f size a : keeps (ReadFromHardware f size a).
Proof.
  pose proof (keeps_TranslateAddress (D := D) R). pose proof keeps_DSI. pose proof keeps_read_physical. pose proof keeps_read_crossing.
  unfold ReadFromHardware. keep.
Qed.

Lemma keeps_WriteToHardware f size a v : keeps (WriteToHardware f size a v).
Proof.
  pose proof (keeps_TranslateAddress (D := D) R). pose proof keeps_DSI. pose proof keeps_write_physical. pose proof keeps_write_crossing.
  unfold WriteToHardware. keep.
Qed.

Lemma keeps_Memcheck a v w size : keeps (Memcheck a v w size).
Proof.
  intros m u m'. unfold Memcheck. destruct (mem_check _ _ _ _ _ _) as [[] d]; intros [= _ <-]; [apply admits_exceptions; widths | reflexivity].
Qed.

Lemma keeps_reads a : keeps (Read_U8 a) /\ keeps (Read_U16 a) /\ keeps (Read_U32 a) /\ keeps (Read_U64 a) /\ keeps (HostRead_U32 a).
Proof.
  pose proof keeps_ReadFromHardware. pose proof keeps_Memcheck. unfold Read_U8, Read_U16, Read_U32, Read_U64, HostRead_U32. split_and!; keep.
Qed.

Lemma keeps_writes v a : keeps (Write_U8 v a) /\ keeps (Write_U16 v a) /\ keeps (Write_U32 v a) /\ keeps (Write_U64 v a).
Proof.
  pose proof keeps_WriteToHardware. pose proof keeps_Memcheck. unfold Write_U8, Write_U16, Write_U32, Write_U64. split_and!; keep.
Qed.

Lemma keeps_ClearCacheLine a : keeps (ClearCacheLine a).
Proof.
  pose proof (keeps_TranslateAddress (D := D) R). pose proof keeps_DSI. pose proof keeps_write_physical. unfold ClearCacheLine, clear_line. keep.
Qed.

Lemma keeps_lc_to_device n w ca ma i : (forall v a, keeps (w v a)) -> keeps (lc_to_device (D := D) n w ca ma i).
Proof. intros Hw. revert i. induction n as [| n IH]; intros; cbn [lc_to_device]; keep. Qed.

Lemma keeps_device_to_lc n r ca ma i : (forall a, keeps (r a)) -> keeps (device_to_lc (D := D) n r ca ma i).
Proof. intros Hr. revert i. induction n as [| n IH]; intros; cbn [device_to_lc]; keep. Qed.

Lemma keeps_DMA_LCToMemory ma ca n : keeps (DMA_LCToMemory ma ca n).
Proof.
  unfold DMA_LCToMemory. keep.
  - apply keeps_lc_to_device. apply keeps_EFB_Write.
  - apply keeps_lc_to_device. intros. apply keeps_modify. intros. apply admits_mmio_Write.
Qed.

Lemma keeps_DMA_MemoryToLC ca ma n : keeps (DMA_MemoryToLC ca ma n).
Proof.
  unfold DMA_MemoryToLC. keep.
  - apply keeps_device_to_lc. apply keeps_EFB_Read.
  - apply keeps_device_to_lc. intros. apply (keeps_mmio_Read 4 _ u32).
Qed.
End Access.
