(* ===== verification/PpcLoadStore.v ===== *)
(** The instructions that load, store and manage caches and the TLB
    ([Core/PowerPC/Interpreter/Interpreter_LoadStore.cpp]), over the memory
    management unit of [PpcMmu].

    The theorems say what a load gives after a store of the same width, for
    every pair of handlers and every form of address; that an instruction that
    fails changes no register it names; that [stmw] and [lmw] save and restore
    registers; what a reservation allows; and that every handler returns. *)

From S2P Require Import Prelude Memmap PpcCache PpcState PpcBat PpcTlb PpcMmu PpcAccess PpcFpu.
Open Scope Z_scope.

(** ** Fields and registers *)

Definition NB (inst : Z) : Z := field 11 5 inst.

Definition SPR_EAR : Z := 282.
Definition SPR_HID2 : Z := 920.
Definition HID0_NOOPTI : Z := 0.
Definition HID0_DCE : Z := 14.
Definition HID2_LCE : Z := 28.

(** ** Effective addresses *)

Definition Helper_Get_EA (inst : Z) (s : PowerPCState) : Z :=
  if negb (RA inst =? 0) then u32 (rGPR s (RA inst) + SIMM_16 inst) else u32 (SIMM_16 inst).
Definition Helper_Get_EA_U (inst : Z) (s : PowerPCState) : Z := u32 (rGPR s (RA inst) + SIMM_16 inst).
Definition Helper_Get_EA_X (inst : Z) (s : PowerPCState) : Z :=
  if negb (RA inst =? 0) then u32 (rGPR s (RA inst) + rGPR s (RB inst)) else rGPR s (RB inst).
Definition Helper_Get_EA_UX (inst : Z) (s : PowerPCState) : Z := u32 (rGPR s (RA inst) + rGPR s (RB inst)).

(** The address of the string instructions with an immediate count. *)
Definition string_EA (inst : Z) (s : PowerPCState) : Z := if RA inst =? 0 then 0 else rGPR s (RA inst).

(** The JIT's notification acts on the JIT; [PanicYesNo] asks the user. *)
Class LoadStoreHost (D : Type) := {
  JitInterface_InvalidateICache : Z -> Z -> bool -> D -> D;
  PanicYesNo : D -> bool * D;
  bLowDCBZHack : bool
}.

Section Handlers.
Context {D : Type} `{MmuHost D} `{LoadStoreHost D}.

Definition registers (f : PowerPCState -> PowerPCState) : M D unit := modify (fun m => set_cpu (f (cpu m)) m).
Definition DSI_pending (s : PowerPCState) : bool := flag (Exceptions s) EXCEPTION_DSI.
Definition unless_DSI (f : PowerPCState -> PowerPCState) : M D unit := registers (fun s => if negb (DSI_pending s) then f s else s).

Definition with_EA (ea : Z -> PowerPCState -> Z) (inst : Z) (k : Z -> M D unit) : M D unit := s ← gets cpu; k (ea inst s).

(** [if ((address & 0b11) != 0) { GenerateAlignmentException(address); return; }] *)
Definition aligned (address : Z) (x : M D unit) : M D unit :=
  if negb ((address .& 3) =? 0) then registers (GenerateAlignmentException address) else x.

(** [const u32 temp = ...; if (!(Exceptions & EXCEPTION_DSI)) ...] *)
Definition load (read : M D Z) (put : Z -> PowerPCState -> PowerPCState) : M D unit := temp ← read; unless_DSI (put temp).
Definition store (var : PowerPCState -> Z) (write : Z -> M D unit) : M D unit := s ← gets cpu; write (var s).

Definition put_update (inst address : Z) (s : PowerPCState) : PowerPCState := put_gpr (RA inst) address s.
(** [(u32)(s32)(s16)temp] *)
Definition put_s16 (inst temp : Z) : PowerPCState -> PowerPCState := put_gpr (RD inst) (u32 (s16 temp)).
Definition put_single (inst temp : Z) (s : PowerPCState) : PowerPCState :=
  let value := ConvertToDouble temp in put_ps1 (FD inst) value (put_ps0 (FD inst) value s).

(** ** Integer loads *)

Definition lbz (inst : Z) : M D unit := with_EA Helper_Get_EA inst (fun a => load (Read_U8 a) (put_gpr (RD inst))).
Definition lbzu (inst : Z) : M D unit :=
  with_EA Helper_Get_EA_U inst (fun a => load (Read_U8 a) (fun temp s => put_update inst a (put_gpr (RD inst) temp s))).
Definition lbzux (inst : Z) : M D unit :=
  with_EA Helper_Get_EA_UX inst (fun a => load (Read_U8 a) (fun temp s => put_update inst a (put_gpr (RD inst) temp s))).
Definition lbzx (inst : Z) : M D unit := with_EA Helper_Get_EA_X inst (fun a => load (Read_U8 a) (put_gpr (RD inst))).

Definition lhz (inst : Z) : M D unit := with_EA Helper_Get_EA inst (fun a => load (Read_U16 a) (put_gpr (RD inst))).
Definition lhzu (inst : Z) : M D unit :=
  with_EA Helper_Get_EA_U inst (fun a => load (Read_U16 a) (fun temp s => put_update inst a (put_gpr (RD inst) temp s))).
Definition lhzux (inst : Z) : M D unit :=
  with_EA Helper_Get_EA_UX inst (fun a => load (Read_U16 a) (fun temp s => put_update inst a (put_gpr (RD inst) temp s))).
Definition lhzx (inst : Z) : M D unit := with_EA Helper_Get_EA_X inst (fun a => load (Read_U16 a) (put_gpr (RD inst))).

Definition lha (inst : Z) : M D unit := with_EA Helper_Get_EA inst (fun a => load (Read_U16 a) (put_s16 inst)).
Definition lhau (inst : Z) : M D unit :=
  with_EA Helper_Get_EA_U inst (fun a => load (Read_U16 a) (fun temp s => put_update inst a (put_s16 inst temp s))).
Definition lhaux (inst : Z) : M D unit :=
  with_EA Helper_Get_EA_UX inst (fun a => load (Read_U16 a) (fun temp s => put_update inst a (put_s16 inst temp s))).
Definition lhax (inst : Z) : M D unit := with_EA Helper_Get_EA_X inst (fun a => load (Read_U16 a) (put_s16 inst)).

Definition lwz (inst : Z) : M D unit := with_EA Helper_Get_EA inst (fun a => load (Read_U32 a) (put_gpr (RD inst))).
Definition lwzu (inst : Z) : M D unit :=
  with_EA Helper_Get_EA_U inst (fun a => load (Read_U32 a) (fun temp s => put_update inst a (put_gpr (RD inst) temp s))).
Definition lwzux (inst : Z) : M D unit :=
  with_EA Helper_Get_EA_UX inst (fun a => load (Read_U32 a) (fun temp s => put_update inst a (put_gpr (RD inst) temp s))).
Definition lwzx (inst : Z) : M D unit := with_EA Helper_Get_EA_X inst (fun a => load (Read_U32 a) (put_gpr (RD inst))).

Definition lhbrx (inst : Z) : M D unit :=
  with_EA Helper_Get_EA_X inst (fun a => load (temp ← Read_U16 a; mret (swap16 temp)) (put_gpr (RD inst))).
Definition lwbrx (inst : Z) : M D unit :=
  with_EA Helper_Get_EA_X inst (fun a => load (temp ← Read_U32 a; mret (swap32 temp)) (put_gpr (RD inst))).

(** ** Floating-point loads *)

Definition lfd (inst : Z) : M D unit := with_EA Helper_Get_EA inst (fun a => aligned a (load (Read_U64 a) (put_ps0 (FD inst)))).
Definition lfdu (inst : Z) : M D unit :=
  with_EA Helper_Get_EA_U inst (fun a => aligned a (load (Read_U64 a) (fun temp s => put_update inst a (put_ps0 (FD inst) temp s)))).
Definition lfdux (inst : Z) : M D unit :=
  with_EA Helper_Get_EA_UX inst (fun a => aligned a (load (Read_U64 a) (fun temp s => put_update inst a (put_ps0 (FD inst) temp s)))).
Definition lfdx (inst : Z) : M D unit := with_EA Helper_Get_EA_X inst (fun a => aligned a (load (Read_U64 a) (put_ps0 (FD inst)))).

Definition lfs (inst : Z) : M D unit := with_EA Helper_Get_EA inst (fun a => aligned a (load (Read_U32 a) (put_single inst))).
Definition lfsu (inst : Z) : M D unit :=
  with_EA Helper_Get_EA_U inst (fun a => aligned a (load (Read_U32 a) (fun temp s => put_update inst a (put_single inst temp s)))).
Definition lfsux (inst : Z) : M D unit :=
  with_EA Helper_Get_EA_UX inst (fun a => aligned a (load (Read_U32 a) (fun temp s => put_update inst a (put_single inst temp s)))).
Definition lfsx (inst : Z) : M D unit := with_EA Helper_Get_EA_X inst (fun a => aligned a (load (Read_U32 a) (put_single inst))).

(** ** Stores *)

Definition byte_of_RS (inst : Z) (s : PowerPCState) : Z := u8 (rGPR s (RS inst)).
Definition half_of_RS (inst : Z) (s : PowerPCState) : Z := u16 (rGPR s (RS inst)).
Definition word_of_RS (inst : Z) (s : PowerPCState) : Z := rGPR s (RS inst).
Definition double_of_FS (inst : Z) (s : PowerPCState) : Z := riPS0 s (FS inst).
Definition single_of_FS (inst : Z) (s : PowerPCState) : Z := ConvertToSingle (riPS0 s (FS inst)).

Definition stb (inst : Z) : M D unit := with_EA Helper_Get_EA inst (fun a => store (byte_of_RS inst) (fun v => Write_U8 v a)).
Definition stbu (inst : Z) : M D unit :=
  with_EA Helper_Get_EA_U inst (fun a => store (byte_of_RS inst) (fun v => Write_U8 v a);; unless_DSI (put_update inst a)).
Definition stbux (inst : Z) : M D unit :=
  with_EA Helper_Get_EA_UX inst (fun a => store (byte_of_RS inst) (fun v => Write_U8 v a);; unless_DSI (put_update inst a)).
Definition stbx (inst : Z) : M D unit := with_EA Helper_Get_EA_X inst (fun a => store (byte_of_RS inst) (fun v => Write_U8 v a)).

Definition sth (inst : Z) : M D unit := with_EA Helper_Get_EA inst (fun a => store (half_of_RS inst) (fun v => Write_U16 v a)).
Definition sthu (inst : Z) : M D unit :=
  with_EA Helper_Get_EA_U inst (fun a => store (half_of_RS inst) (fun v => Write_U16 v a);; unless_DSI (put_update inst a)).
Definition sthux (inst : Z) : M D unit :=
  with_EA Helper_Get_EA_UX inst (fun a => store (half_of_RS inst) (fun v => Write_U16 v a);; unless_DSI (put_update inst a)).
Definition sthx (inst : Z) : M D unit := with_EA Helper_Get_EA_X inst (fun a => store (half_of_RS inst) (fun v => Write_U16 v a)).

Definition stw (inst : Z) : M D unit := with_EA Helper_Get_EA inst (fun a => store (word_of_RS inst) (fun v => Write_U32 v a)).
Definition stwu (inst : Z) : M D unit :=
  with_EA Helper_Get_EA_U inst (fun a => store (word_of_RS inst) (fun v => Write_U32 v a);; unless_DSI (put_update inst a)).
Definition stwux (inst : Z) : M D unit :=
  with_EA Helper_Get_EA_UX inst (fun a => store (word_of_RS inst) (fun v => Write_U32 v a);; unless_DSI (put_update inst a)).
Definition stwx (inst : Z) : M D unit := with_EA Helper_Get_EA_X inst (fun a => store (word_of_RS inst) (fun v => Write_U32 v a)).

Definition sthbrx (inst : Z) : M D unit :=
  with_EA Helper_Get_EA_X inst (fun a => store (fun s => swap16 (half_of_RS inst s)) (fun v => Write_U16 v a)).
Definition stwbrx (inst : Z) : M D unit :=
  with_EA Helper_Get_EA_X inst (fun a => store (fun s => swap32 (word_of_RS inst s)) (fun v => Write_U32 v a)).

Definition stfd (inst : Z) : M D unit := with_EA Helper_Get_EA inst (fun a => aligned a (store (double_of_FS inst) (fun v => Write_U64 v a))).
Definition stfdu (inst : Z) : M D unit :=
  with_EA Helper_Get_EA_U inst (fun a => aligned a (store (double_of_FS inst) (fun v => Write_U64 v a);; unless_DSI (put_update inst a))).
Definition stfdux (inst : Z) : M D unit :=
  with_EA Helper_Get_EA_UX inst (fun a => aligned a (store (double_of_FS inst) (fun v => Write_U64 v a);; unless_DSI (put_update inst a))).
Definition stfdx (inst : Z) : M D unit := with_EA Helper_Get_EA_X inst (fun a => aligned a (store (double_of_FS inst) (fun v => Write_U64 v a))).

Definition stfs (inst : Z) : M D unit := with_EA Helper_Get_EA inst (fun a => aligned a (store (single_of_FS inst) (fun v => Write_U32 v a))).
Definition stfsu (inst : Z) : M D unit :=
  with_EA Helper_Get_EA_U inst (fun a => aligned a (store (single_of_FS inst) (fun v => Write_U32 v a);; unless_DSI (put_update inst a))).
Definition stfsux (inst : Z) : M D unit :=
  with_EA Helper_Get_EA_UX inst (fun a => aligned a (store (single_of_FS inst) (fun v => Write_U32 v a);; unless_DSI (put_update inst a))).
Definition stfsx (inst : Z) : M D unit := with_EA Helper_Get_EA_X inst (fun a => aligned a (store (single_of_FS inst) (fun v => Write_U32 v a))).

Definition stfiwx (inst : Z) : M D unit :=
  with_EA Helper_Get_EA_X inst (fun a => aligned a (store (fun s => u32 (riPS0 s (FS inst))) (fun v => Write_U32 v a))).

(** ** Several registers *)

(** [if (MSR.LE) { GenerateAlignmentException(EA); return; }] *)
Definition big_endian (address : Z) (x : M D unit) : M D unit :=
  s ← gets cpu;
  if Z.testbit (msr s) MSR_LE then registers (GenerateAlignmentException address) else x.

(** [n] registers are left, from [i]. *)
Fixpoint lmw_loop (n : nat) (i address : Z) : M D unit :=
  match n with
  | O => mret tt
  | S n =>
    temp_reg ← Read_U32 address;
    s ← gets cpu;
    if DSI_pending s then mret tt
    else registers (put_gpr i temp_reg);; lmw_loop n (i + 1) (u32 (address + 4))
  end.

Definition lmw (inst : Z) : M D unit :=
  with_EA Helper_Get_EA inst (fun a => aligned a (big_endian a (lmw_loop (Z.to_nat (32 - RD inst)) (RD inst) a))).

Fixpoint stmw_loop (n : nat) (i address : Z) : M D unit :=
  match n with
  | O => mret tt
  | S n =>
    store (fun s => rGPR s i) (fun v => Write_U32 v address);;
    s ← gets cpu;
    if DSI_pending s then mret tt else stmw_loop n (i + 1) (u32 (address + 4))
  end.

Definition stmw (inst : Z) : M D unit :=
  with_EA Helper_Get_EA inst (fun a => aligned a (big_endian a (stmw_loop (Z.to_nat (32 - RS inst)) (RS inst) a))).

(** The count is read before every byte; it is at most 255. *)
Fixpoint lswx_loop (fuel : nat) (inst n EA : Z) : M D unit :=
  match fuel with
  | O => fun _ => Loops
  | S fuel =>
    s ← gets cpu;
    if n <? u8 (xer_stringctrl s) then
      let reg := (RD inst + (n .>> 2)) .& 0x1f in
      let offset := (n .& 3) .<< 3 in
      when ((n .& 3) =? 0) (registers (put_gpr reg 0));;
      v ← Read_U8 EA;
      let temp_value := u32 (v .<< (24 - offset)) in
      s ← gets cpu;
      if DSI_pending s then mret tt
      else registers (fun s => put_gpr reg (rGPR s reg .| temp_value) s);; lswx_loop fuel inst (n + 1) (u32 (EA + 1))
    else mret tt
  end.

Definition lswx (inst : Z) : M D unit := with_EA Helper_Get_EA_X inst (fun EA => big_endian EA (lswx_loop 256 inst 0 EA)).

Definition string_count (inst : Z) : Z := if NB inst =? 0 then 32 else NB inst.

(** [while (n > 0)]: [r] is the register of the last byte, [i] the shift of
    the next one. *)
Fixpoint lswi_loop (n : nat) (r i EA : Z) : M D unit :=
  match n with
  | O => mret tt
  | S n =>
    let r := if i =? 0 then (r + 1) .& 31 else r in
    when (i =? 0) (registers (put_gpr r 0));;
    v ← Read_U8 EA;
    let temp_value := u32 (v .<< (24 - i)) in
    s ← gets cpu;
    if DSI_pending s then mret tt
    else
      registers (fun s => put_gpr r (rGPR s r .| temp_value) s);;
      lswi_loop n r (if i + 8 =? 32 then 0 else i + 8) (u32 (EA + 1))
  end.

Definition lswi (inst : Z) : M D unit :=
  with_EA string_EA inst (fun EA => big_endian EA (lswi_loop (Z.to_nat (string_count inst)) (RD inst - 1) 0 EA)).

Fixpoint stswi_loop (n : nat) (r i EA : Z) : M D unit :=
  match n with
  | O => mret tt
  | S n =>
    let r := if i =? 0 then (r + 1) .& 31 else r in
    store (fun s => (rGPR s r .>> (24 - i)) .& 0xFF) (fun v => Write_U8 v EA);;
    s ← gets cpu;
    if DSI_pending s then mret tt
    else stswi_loop n r (if i + 8 =? 32 then 0 else i + 8) (u32 (EA + 1))
  end.

Definition stswi (inst : Z) : M D unit :=
  with_EA string_EA inst (fun EA => big_endian EA (stswi_loop (Z.to_nat (string_count inst)) (RS inst - 1) 0 EA)).

Fixpoint stswx_loop (n : nat) (r i EA : Z) : M D unit :=
  match n with
  | O => mret tt
  | S n =>
    store (fun s => (rGPR s r .>> (24 - i)) .& 0xFF) (fun v => Write_U8 v EA);;
    if i + 8 =? 32 then stswx_loop n ((r + 1) .& 0x1f) 0 (u32 (EA + 1)) else stswx_loop n r (i + 8) (u32 (EA + 1))
  end.

Definition stswx (inst : Z) : M D unit :=
  with_EA Helper_Get_EA_X inst (fun EA => big_endian EA (
    s ← gets cpu; stswx_loop (Z.to_nat (u8 (xer_stringctrl s))) (RS inst) 0 EA)).

(** ** Reservations *)

Definition lwarx (inst : Z) : M D unit :=
  with_EA Helper_Get_EA_X inst (fun a => aligned a (load (Read_U32 a) (fun temp s =>
    set_reserve_address a (set_reserve true (put_gpr (RD inst) temp s))))).

Definition stwcxd_fails : M D unit := registers (fun s => SetCRField 0 (GetXER_SO s) s).

Definition stwcxd (inst : Z) : M D unit :=
  with_EA Helper_Get_EA_X inst (fun a => aligned a (
    s ← gets cpu;
    if m_reserve s && (a =? m_reserve_address s) then
      store (word_of_RS inst) (fun v => Write_U32 v a);;
      s ← gets cpu;
      if negb (DSI_pending s) then registers (fun s => SetCRField 0 (2 .| GetXER_SO s) (set_reserve false s))
      else stwcxd_fails
    else stwcxd_fails)).

(** ** Caches and the TLB *)

Definition invalidate_jit (address : Z) : M D unit :=
  modify (fun m => set_devices (JitInterface_InvalidateICache (address .& u32 (.~ 0x1f)) 32 false (devices m)) m).

(** [ASSERT_MSG] of a condition that is false. *)
Definition assert_failed : M D unit := fun m =>
  let '(continue, d) := PanicYesNo (devices m) in
  if continue then Done tt (set_devices d m) else Fault.

Definition dcba (inst : Z) : M D unit := assert_failed.

Definition dcbf (inst : Z) : M D unit := with_EA Helper_Get_EA_X inst invalidate_jit.
Definition dcbi (inst : Z) : M D unit :=
  s ← gets cpu;
  if Z.testbit (msr s) MSR_PR then registers GenerateProgramException
  else with_EA Helper_Get_EA_X inst invalidate_jit.
Definition dcbst (inst : Z) : M D unit := with_EA Helper_Get_EA_X inst invalidate_jit.

Definition dcbt (inst : Z) : M D unit := s ← gets cpu; if Z.testbit (rSPR s SPR_HID0) HID0_NOOPTI then mret tt else mret tt.
Definition dcbtst (inst : Z) : M D unit := s ← gets cpu; if Z.testbit (rSPR s SPR_HID0) HID0_NOOPTI then mret tt else mret tt.

Definition line_of (address : Z) : Z := address .& u32 (.~ 31).

Definition dcbz (inst : Z) : M D unit :=
  with_EA Helper_Get_EA_X inst (fun dcbz_addr =>
    s ← gets cpu;
    if negb (Z.testbit (rSPR s SPR_HID0) HID0_DCE) then registers (GenerateAlignmentException dcbz_addr)
    else if bLowDCBZHack && (dcbz_addr <? 0x80008000) && (0x80000000 <=? dcbz_addr) then mret tt
    else ClearCacheLine (line_of dcbz_addr)).

Definition dcbz_l (inst : Z) : M D unit :=
  s ← gets cpu;
  if negb (Z.testbit (rSPR s SPR_HID2) HID2_LCE) then registers GenerateProgramException
  else with_EA Helper_Get_EA_X inst (fun address =>
    if negb (Z.testbit (rSPR s SPR_HID0) HID0_DCE) then registers (GenerateAlignmentException address)
    else ClearCacheLine (line_of address)).

(** [if (!(spr[SPR_EAR] & 0x80000000)) ...; if (EA & 3) ...] *)
Definition external_access (EA : Z) (x : M D unit) : M D unit :=
  s ← gets cpu;
  if negb (flag (rSPR s SPR_EAR) 0x80000000) then registers (PpcState.GenerateDSIException EA)
  else aligned EA x.

Definition eciwx (inst : Z) : M D unit :=
  with_EA Helper_Get_EA_X inst (fun EA => external_access EA (temp ← Read_U32 EA; registers (put_gpr (RD inst) temp))).
Definition ecowx (inst : Z) : M D unit :=
  with_EA Helper_Get_EA_X inst (fun EA => external_access EA (store (word_of_RS inst) (fun v => Write_U32 v EA))).

Definition eieio (inst : Z) : M D unit := mret tt.
Definition sync (inst : Z) : M D unit := mret tt.

Definition icbi (inst : Z) : M D unit :=
  with_EA Helper_Get_EA_X inst (fun address =>
    s ← gets cpu;
    modify (fun m => set_iCache (Invalidate (rSPR s SPR_HID0) address (iCache m)) m);;
    when (flag (rSPR s SPR_HID0) HID0_ICE) (invalidate_jit address)).

Definition tlbie (inst : Z) : M D unit :=
  s ← gets cpu;
  if Z.testbit (msr s) MSR_PR then registers GenerateProgramException
  else modify (InvalidateTLBEntry (rGPR s (RB inst))).
Definition tlbsync (inst : Z) : M D unit :=
  s ← gets cpu; when (Z.testbit (msr s) MSR_PR) (registers GenerateProgramException).
End Handlers.

(** ** The registers that translation does not read *)

Section Registers.
Context {D : Type}.
Implicit Types m : Mmu D.

Lemma set_cpu_segment s m ea : sr s = sr (cpu m) -> segment (set_cpu s m) ea = segment m ea.
Proof. intros E. unfold segment. cbn [cpu set_cpu]. by rewrite E. Qed.

Lemma set_cpu_page_entry s m ea : sr s = sr (cpu m) -> page_entry (set_cpu s m) ea = page_entry m ea.
Proof.
  intros E. unfold page_entry, is_entry, candidates, group. rewrite set_cpu_segment by done.
  cbn [memory pagetable_base pagetable_hashmask set_cpu]. reflexivity.
Qed.

Lemma set_cpu_reference s m f ea : sr s = sr (cpu m) -> reference (set_cpu s m) f ea = reference m f ea.
Proof.
  intros E. unfold reference, page_reference. rewrite set_cpu_segment, set_cpu_page_entry by done. reflexivity.
Qed.

Lemma set_cpu_outside s m q : outside_table (set_cpu s m) q <-> outside_table m q.
Proof. done. Qed.

Lemma set_cpu_mmu_ok s m : sr s = sr (cpu m) -> mmu_ok m -> mmu_ok (set_cpu s m).
Proof.
  intros E [T I Db]. constructor; [| done | done]. destruct T as [[] S A]. constructor; [constructor; done | done |].
  intros opc i w Hw Hn. generalize (A opc i w Hw Hn). unfold way_agrees. rewrite set_cpu_segment, set_cpu_page_entry by done.
  cbn [memory tlb set_cpu]. exact id.
Qed.

Lemma set_cpu_accessible s m f size ea ps :
  sr s = sr (cpu m) -> msr s = msr (cpu m) -> accessible m f size ea ps -> accessible (set_cpu s m) f size ea ps.
Proof.
  intros E1 E2 [A1 A2 A3 A4 A5]. constructor; try done.
  - cbn [cpu set_cpu]. rewrite E2. done.
  - intros i Hi. rewrite <- (A5 i Hi). unfold byte_pointer, translate. cbn [cpu memory set_cpu]. rewrite E2, set_cpu_reference by done. done.
Qed.

Lemma set_cpu_untranslated s m f size ea : sr s = sr (cpu m) -> untranslated (set_cpu s m) f size ea = untranslated m f size ea.
Proof. intros E. unfold untranslated. rewrite !set_cpu_reference by done. done. Qed.

Lemma set_cpu_id m : set_cpu (cpu m) m = m.
Proof. by destruct m. Qed.

Lemma set_devices_id m : set_devices (devices m) m = m.
Proof. by destruct m. Qed.
End Registers.

(** ** The tables of loads and stores *)

Section Tables.
Context {D : Type} `{MmuHost D} `{LoadStoreHost D}.
Implicit Types m : Mmu D.

(** How an instruction finds its address, and what it requires of it. *)
Record form := mk_form {
  f_ea : Z -> PowerPCState -> Z;
  f_size : Z;
  f_update : bool;
  f_aligned : bool
}.

(** The four instructions of a family. *)
Definition forms {B} (size : Z) (al : bool) (h hu hux hx : Z -> M D unit) (x : B) : list ((Z -> M D unit) * form * B) :=
  [(h, mk_form Helper_Get_EA size false al, x); (hu, mk_form Helper_Get_EA_U size true al, x);
   (hux, mk_form Helper_Get_EA_UX size true al, x); (hx, mk_form Helper_Get_EA_X size false al, x)].

Definition indexed {B} (size : Z) (al : bool) (hx : Z -> M D unit) (x : B) : list ((Z -> M D unit) * form * B) :=
  [(hx, mk_form Helper_Get_EA_X size false al, x)].

(** The loads, with what they do to the registers. *)
Definition loads : list ((Z -> M D unit) * form * (Z -> Z -> Z -> PowerPCState -> PowerPCState)) :=
  forms 1 false lbz lbzu lbzux lbzx (fun inst _ => put_gpr (RD inst)) ++
  forms 2 false lhz lhzu lhzux lhzx (fun inst _ => put_gpr (RD inst)) ++
  forms 2 false lha lhau lhaux lhax (fun inst _ v => put_gpr (RD inst) (u32 (s16 v))) ++
  forms 4 false lwz lwzu lwzux lwzx (fun inst _ => put_gpr (RD inst)) ++
  indexed 2 false lhbrx (fun inst _ v => put_gpr (RD inst) (swap16 v)) ++
  indexed 4 false lwbrx (fun inst _ v => put_gpr (RD inst) (swap32 v)) ++
  forms 8 true lfd lfdu lfdux lfdx (fun inst _ => put_ps0 (FD inst)) ++
  forms 4 true lfs lfsu lfsux lfsx (fun inst _ v s => put_ps1 (FD inst) (ConvertToDouble v) (put_ps0 (FD inst) (ConvertToDouble v) s)) ++
  indexed 4 true lwarx (fun inst a v s => set_reserve_address a (set_reserve true (put_gpr (RD inst) v s))).

(** The stores, with the value they store. *)
Definition stores : list ((Z -> M D unit) * form * (Z -> PowerPCState -> Z)) :=
  forms 1 false stb stbu stbux stbx (fun inst s => u8 (rGPR s (RS inst))) ++
  forms 2 false sth sthu sthux sthx (fun inst s => u16 (rGPR s (RS inst))) ++
  forms 4 false stw stwu stwux stwx (fun inst s => rGPR s (RS inst)) ++
  indexed 2 false sthbrx (fun inst s => swap16 (u16 (rGPR s (RS inst)))) ++
  indexed 4 false stwbrx (fun inst s => swap32 (rGPR s (RS inst))) ++
  forms 8 true stfd stfdu stfdux stfdx (fun inst s => riPS0 s (FS inst)) ++
  forms 4 true stfs stfsu stfsux stfsx (fun inst s => ConvertToSingle (riPS0 s (FS inst))) ++
  indexed 4 true stfiwx (fun inst s => u32 (riPS0 s (FS inst))).

Definition read_of (size : Z) : Z -> M D Z :=
  match size with 1 => Read_U8 | 2 => Read_U16 | 4 => Read_U32 | _ => Read_U64 end.
Definition write_of (size : Z) : Z -> Z -> M D unit :=
  match size with 1 => Write_U8 | 2 => Write_U16 | 4 => Write_U32 | _ => Write_U64 end.

Definition require_aligned (al : bool) (a : Z) (x : M D unit) : M D unit := if al then aligned a x else x.
Definition after (f : form) (inst a : Z) (s : PowerPCState) : PowerPCState := if f_update f then put_gpr (RA inst) a s else s.

(** Every load is an instance of one scheme, and every store of another. *)
Lemma load_scheme h f put inst m :
  In (h, f, put) loads ->
  let a := f_ea f inst (cpu m) in
  h inst m = require_aligned (f_aligned f) a (v ← read_of (f_size f) a;
    unless_DSI (fun s => after f inst a (put inst a v s))) m.
Proof.
  intros Hin. cbn [In app loads forms indexed] in Hin.
  destruct_or! Hin; try done; injection Hin as <- <- <-;
    lazymatch goal with
    | |- let a := _ in lhbrx _ _ = _ => idtac
    | |- let a := _ in lwbrx _ _ = _ => idtac
    | |- _ => reflexivity
    end.
  - unfold lhbrx, load, with_EA, gets, mbind, M_bind. cbn. destruct (Read_U16 _ m); done.
  - unfold lwbrx, load, with_EA, gets, mbind, M_bind. cbn. destruct (Read_U32 _ m); done.
Qed.

Lemma store_scheme h f val inst m :
  In (h, f, val) stores ->
  let a := f_ea f inst (cpu m) in
  let write := write_of (f_size f) (val inst (cpu m)) a in
  h inst m = require_aligned (f_aligned f) a (if f_update f then write;; unless_DSI (after f inst a) else write) m.
Proof.
  intros Hin. cbn [In app stores forms indexed] in Hin. destruct_or! Hin; try done; injection Hin as <- <- <-; try reflexivity.
  all: cbv zeta; cbn [f_ea f_size f_update f_aligned require_aligned];
    unfold stfd, stfdu, stfdux, stfdx, stfs, stfsu, stfsux, stfsx, stfiwx, with_EA, aligned, gets, mbind, M_bind; destruct (negb _); reflexivity.
Qed.

Lemma load_form h f put : In (h, f, put) loads -> width_ok (f_size f).
Proof. intros Hin. cbn [In app loads forms indexed] in Hin. destruct_or! Hin; try done; injection Hin as _ <- _; cbn; unfold width_ok; lia. Qed.

Lemma store_form h f val : In (h, f, val) stores -> width_ok (f_size f).
Proof. intros Hin. cbn [In app stores forms indexed] in Hin. destruct_or! Hin; try done; injection Hin as _ <- _; cbn; unfold width_ok; lia. Qed.

Lemma store_value h f val inst s : In (h, f, val) stores -> wf s -> inu (8 * f_size f) (val inst s).
Proof.
  intros Hin []. assert (G : forall i, inu 32 (rGPR s i)) by (intros; eapply arr_ok_zget; done || lia).
  assert (F : forall i, inu 64 (riPS0 s i)) by (intros; eapply arr_ok_zget; done || lia).
  cbn [In app stores forms indexed] in Hin. destruct_or! Hin; try done; injection Hin as _ <- <-; cbn [f_size].
  all: first [apply G | apply F | apply ConvertToSingle_range, F | apply swap32_range | apply wrapu_range; lia].

Qed.

(** No memory check is set: [Memcheck] then decides not to pause and changes
    nothing. *)
Definition no_memchecks : Prop := forall a v w size pc d, mem_check a v w size pc d = (false, d).

Lemma Memcheck_quiet a v w size m : no_memchecks -> Memcheck a v w size m = Done tt m.
Proof. intros N. unfold Memcheck. rewrite N, set_devices_id. done. Qed.

Lemma read_of_hardware size a m : no_memchecks -> width_ok size -> read_of size a m = ReadFromHardware Read size a m.
Proof.
  intros N W. unfold width_ok in W. destruct_or! W; subst; cbn [read_of]; unfold Read_U8, Read_U16, Read_U32, Read_U64, mbind, M_bind;
    destruct (ReadFromHardware _ _ _ _); try done; rewrite Memcheck_quiet; done.
Qed.

Lemma write_of_hardware size v a m : no_memchecks -> width_ok size -> write_of size v a m = WriteToHardware Write size a v m.
Proof.
  intros N W. unfold width_ok in W. destruct_or! W; subst; cbn [write_of]; unfold Write_U8, Write_U16, Write_U32, Write_U64, mbind, M_bind;
    rewrite Memcheck_quiet; done.
Qed.
Lemma Read_U32_hardware a m : no_memchecks -> Read_U32 a m = ReadFromHardware Read 4 a m.
Proof. intros N. apply (read_of_hardware 4 a m N). unfold width_ok. lia. Qed.

Lemma Write_U32_hardware v a m : no_memchecks -> Write_U32 v a m = WriteToHardware Write 4 a v m.
Proof. intros N. apply (write_of_hardware 4 v a m N). unfold width_ok. lia. Qed.

(** ** A store, then a load *)

Lemma unless_DSI_done g m : DSI_pending (cpu m) = false -> unless_DSI g m = Done tt (set_cpu (g (cpu m)) m).
Proof. intros E. unfold unless_DSI, registers, modify. rewrite E. done. Qed.

Lemma require_aligned_done al a x m : (al = true -> (a .& 3) = 0) -> require_aligned al a x m = x m.
Proof. intros E. unfold require_aligned, aligned. destruct al; [| done]. rewrite E by done. done. Qed.

Lemma after_segments f inst a s : sr (after f inst a s) = sr s /\ msr (after f inst a s) = msr s /\ Exceptions (after f inst a s) = Exceptions s.
Proof. unfold after. destruct (f_update f); done. Qed.

(** A store of memory. *)
Lemma store_memory h f val inst m ps :
  In (h, f, val) stores -> no_memchecks -> mmu_ok m -> wf (cpu m) -> DSI_pending (cpu m) = false ->
  let ea := f_ea f inst (cpu m) in
  accessible m Write (f_size f) ea ps -> (forall i, 0 <= i < f_size f -> outside_table m (ps i)) -> (f_aligned f = true -> (ea .& 3) = 0) ->
  exists m1, h inst m = Done tt (set_cpu (after f inst ea (cpu m)) m1) /\ frame m m1 /\ mmu_ok m1 /\
    (forall i, 0 <= i < f_size f -> load_u8 (memory m1) (ps i) = be_bytes (Z.to_nat (f_size f)) (val inst (cpu m)) !! Z.to_nat i) /\
    (forall q, outside_table m q -> (forall i, 0 <= i < f_size f -> q <> ps i) -> load_u8 (memory m1) q = load_u8 (memory m) q).
Proof.
  intros Hin N Hm Hs Hd ea Ha Hout Hal.
  destruct (WriteToHardware_ok m (f_size f) ea (val inst (cpu m)) ps Hm Ha Hout (store_value h f val inst _ Hin Hs)) as (m1 & E & F & Hm1 & L & U).
  exists m1. split_and!; try done. rewrite (store_scheme h f val inst m Hin). fold ea. cbv zeta. rewrite require_aligned_done by done.
  pose proof (frame_cpu _ _ F) as Ec. unfold after. destruct (f_update f) eqn:Eu.
  - unfold mbind, M_bind. rewrite write_of_hardware, E by (done || apply (acc_width _ _ _ _ _ Ha)).
    rewrite unless_DSI_done by (rewrite Ec; done). rewrite Ec. done.
  - rewrite write_of_hardware, E by (done || apply (acc_width _ _ _ _ _ Ha)). rewrite <- Ec, set_cpu_id. done.
Qed.

(** A load of bytes that are known. *)
Lemma load_value h f put inst m ps v :
  In (h, f, put) loads -> no_memchecks -> mmu_ok m -> DSI_pending (cpu m) = false ->
  let ea := f_ea f inst (cpu m) in
  accessible m Read (f_size f) ea ps -> (forall i, 0 <= i < f_size f -> outside_table m (ps i)) -> (f_aligned f = true -> (ea .& 3) = 0) ->
  inu (8 * f_size f) v -> (forall i, 0 <= i < f_size f -> load_u8 (memory m) (ps i) = be_bytes (Z.to_nat (f_size f)) v !! Z.to_nat i) ->
  exists m1, h inst m = Done tt (set_cpu (after f inst ea (put inst ea v (cpu m))) m1) /\ translated m m1.
Proof.
  intros Hin N Hm Hd ea Ha Hout Hal Hv Hb.
  destruct (ReadFromHardware_value m Read (f_size f) ea v ps Hm Ha Hout Hv Hb) as (m1 & E & X).
  exists m1. split; [| done]. rewrite (load_scheme h f put inst m Hin). fold ea. cbv zeta. rewrite require_aligned_done by done.
  pose proof (frame_cpu _ _ (tr_frame _ _ X)) as Ec.
  unfold mbind, M_bind. rewrite read_of_hardware, E by (done || apply (acc_width _ _ _ _ _ Ha)).
  rewrite unless_DSI_done by (rewrite Ec; done). rewrite Ec. done.
Qed.

(** C18: After any store of memory, by any of its handlers and forms of
    address, any load of the same width at the same address gives its register
    what the table says of the stored value: zero-extended, sign-extended,
    byte-reversed, a double, or the exact double of a float. The instructions
    with update leave the address in RA and no other register changes. Outside
    the page table, whose entries record that a page was read or written, no
    byte of memory changes that the store does not name; page crossings
    included. The bytes are ones the processor may access and lie outside the
    page table, no watchpoint is set and no exception for data pending, and the
    address is a multiple of four where an instruction asks for it. *)
Theorem load_after_store st f1 val ld f2 put inst1 inst2 m ps :
  In (st, f1, val) stores -> In (ld, f2, put) loads -> f_size f1 = f_size f2 ->
  no_memchecks -> mmu_ok m -> wf (cpu m) -> DSI_pending (cpu m) = false ->
  let ea := f_ea f1 inst1 (cpu m) in
  accessible m Write (f_size f1) ea ps -> (forall i, 0 <= i < f_size f1 -> outside_table m (ps i)) ->
  (f_aligned f1 || f_aligned f2 = true -> (ea .& 3) = 0) ->
  exists m', st inst1 m = Done tt m' /\ cpu m' = after f1 inst1 ea (cpu m) /\
    (forall q, outside_table m q -> (forall i, 0 <= i < f_size f1 -> q <> ps i) -> load_u8 (memory m') q = load_u8 (memory m) q) /\
    (f_ea f2 inst2 (cpu m') = ea ->
     exists m'', ld inst2 m' = Done tt m'' /\ cpu m'' = after f2 inst2 ea (put inst2 ea (val inst1 (cpu m)) (cpu m')) /\
       (forall q, outside_table m q -> load_u8 (memory m'') q = load_u8 (memory m') q)).
Proof.
  intros H1 H2 Hsz N Hm Hs Hd ea Ha Hout Hal.
  destruct (store_memory st f1 val inst1 m ps H1 N Hm Hs Hd Ha Hout) as (m1 & E & F & Hm1 & L & U); [fold ea; intros; apply Hal, orb_true_iff; auto |].
  fold ea in E. eexists. split; [exact E |]. split; [done |]. split; [exact U |]. cbn [cpu set_cpu]. intros Eea.
  pose proof (frame_cpu _ _ F) as Ec. destruct (after_segments f1 inst1 ea (cpu m)) as (E1 & E2 & E3).
  pose proof (tlb_table _ _ (ok_tlb m Hm)) as Tm. set (s := after f1 inst1 ea (cpu m)) in *.
  assert (E1' : sr s = sr (cpu m1)) by congruence. assert (E2' : msr s = msr (cpu m1)) by congruence.
  destruct (load_value ld f2 put inst2 (set_cpu s m1) ps (val inst1 (cpu m)) H2 N) as (m2 & E' & X).
  - apply set_cpu_mmu_ok; done.
  - cbn [cpu set_cpu]. unfold DSI_pending in *. rewrite E3. done.
  - cbn [cpu set_cpu]. rewrite Eea, <- Hsz. apply set_cpu_accessible; [done | done |].
    apply (accessible_frame m m1); [done | done |]. destruct Ha. constructor; done.
  - rewrite <- Hsz. intros i Hi. apply (frame_outside m m1 _ F). auto.
  - cbn [cpu set_cpu]. rewrite Eea. intros. apply Hal, orb_true_iff. auto.
  - rewrite <- Hsz. apply (store_value st f1 val inst1 _ H1 Hs).
  - rewrite <- Hsz. exact L.
  - cbn [cpu set_cpu] in E'. rewrite Eea in E'. eexists. split; [exact E' |]. split; [done |].
    intros q Hq. apply (tr_memory _ _ X). apply (frame_outside m m1 _ F). done.
Qed.
(** ** Loads and stores that fail *)

(** The registers after a DSI of the MMU. *)
Definition dsi_state (a : Z) (s : PowerPCState) : PowerPCState :=
  let s := put_spr SPR_DAR a (put_spr SPR_DSISR (if negb (a =? 0) then PPC_EXC_DSISR_PAGE .| PPC_EXC_DSISR_STORE else PPC_EXC_DSISR_PAGE) s) in
  set_Exceptions (Exceptions s .| EXCEPTION_DSI) s.

Lemma GenerateDSIException_state a w m :
  bMMU = true -> GenerateDSIException a w m = Done tt (set_cpu (dsi_state a (cpu m)) m).
Proof. intros E. unfold GenerateDSIException, when. rewrite E. done. Qed.

Lemma dsi_state_pending a s : DSI_pending (dsi_state a s) = true.
Proof.
  unfold DSI_pending, dsi_state, flag. cbn [Exceptions set_Exceptions]. apply negb_true_iff, Z.eqb_neq. intros E.
  apply (f_equal (fun z => Z.testbit z 3)) in E. rewrite Z.land_spec, Z.lor_spec, orb_true_r in E. done.
Qed.

Lemma unless_DSI_skip g m : DSI_pending (cpu m) = true -> unless_DSI g m = Done tt m.
Proof. intros E. unfold unless_DSI, registers, modify. rewrite E. cbn [negb]. rewrite set_cpu_id. done. Qed.

(** A load or store that fails leaves its registers alone. At an address
    that is not a multiple of four the instructions of the floating-point unit
    and [lwarx] report an alignment exception and do nothing else; an access
    of which some page cannot be translated reports a DSI with the address of
    that page, and neither the destination, nor the address of an update, nor
    the reservation is written. *)
Theorem access_fails h f inst m a :
  (exists put, In (h, f, put) loads) \/ (exists val, In (h, f, val) stores) ->
  let ea := f_ea f inst (cpu m) in
  (f_aligned f = true -> (ea .& 3) <> 0 -> h inst m = Done tt (set_cpu (GenerateAlignmentException ea (cpu m)) m)) /\
  ((f_aligned f = true -> (ea .& 3) = 0) -> bMMU = true -> no_memchecks -> mmu_ok m -> inu 32 ea ->
   Z.testbit (msr (cpu m)) MSR_DR = true -> untranslated m Read (f_size f) ea = Some a ->
   exists m1, translated m m1 /\ h inst m = Done tt (set_cpu (dsi_state a (cpu m)) m1)).
Proof.
  intros Hin ea.
  assert (Scheme : exists g, h inst m = require_aligned (f_aligned f) ea g m /\
    (bMMU = true -> no_memchecks -> mmu_ok m -> inu 32 ea -> Z.testbit (msr (cpu m)) MSR_DR = true -> untranslated m Read (f_size f) ea = Some a ->
     exists m1, translated m m1 /\ g m = Done tt (set_cpu (dsi_state a (cpu m)) m1))).
  { destruct Hin as [[put Hin] | [val Hin]]; eexists; (split; [first [apply (load_scheme h f put inst m Hin) | apply (store_scheme h f val inst m Hin)] |]);
      fold ea; intros B N Hm Hea DR Hu; cbv zeta.
    - pose proof (load_form h f put Hin) as W. destruct (ReadFromHardware_fails m (f_size f) ea a Hm Hea W DR Hu) as (m1 & X & E).
      exists m1. split; [done |]. unfold mbind at 1, M_bind at 1. rewrite read_of_hardware, E by done.
      unfold mbind, M_bind. rewrite GenerateDSIException_state by done. unfold mret, M_ret.
      rewrite unless_DSI_skip by apply dsi_state_pending. rewrite (frame_cpu _ _ (tr_frame _ _ X)). done.
    - pose proof (store_form h f val Hin) as W.
      destruct (WriteToHardware_fails m (f_size f) ea (val inst (cpu m)) a Hm Hea W DR Hu) as (m1 & X & E).
      exists m1. split; [done |]. pose proof (frame_cpu _ _ (tr_frame _ _ X)) as Ec. destruct (f_update f); [unfold mbind, M_bind |];
        rewrite write_of_hardware, E, GenerateDSIException_state by done;
        [rewrite unless_DSI_skip by apply dsi_state_pending |]; rewrite Ec; done. }
  destruct Scheme as (g & -> & K). split.
  - intros Al N. unfold require_aligned, aligned. rewrite Al, (proj2 (Z.eqb_neq _ _) N). done.
  - intros Al ? ? ? ? ? ?. rewrite require_aligned_done by done. auto.
Qed.
(** ** Several accesses *)

(** Translation and memory map are as before; registers may differ, but those
    that translation reads. *)
Record same_space m m' : Prop := {
  ss_ok : mmu_ok m';
  ss_access : forall f size ea ps, accessible m f size ea ps -> accessible m' f size ea ps;
  ss_outside : forall q, outside_table m q -> outside_table m' q
}.

Lemma same_space_refl m : mmu_ok m -> same_space m m.
Proof. intros. constructor; done. Qed.

Lemma same_space_frame m m' : mmu_ok m -> frame m m' -> mmu_ok m' -> same_space m m'.
Proof.
  intros Hm F Hm'. constructor; [done | |].
  - intros f size ea ps. apply (accessible_frame m m'); [apply (tlb_table _ _ (ok_tlb m Hm)) | done].
  - intros q. apply (frame_outside m m'). done.
Qed.

Lemma same_space_cpu m s : mmu_ok m -> sr s = sr (cpu m) -> msr s = msr (cpu m) -> same_space m (set_cpu s m).
Proof.
  intros Hm E1 E2. constructor; [apply set_cpu_mmu_ok; done | | done]. intros f size ea ps. apply set_cpu_accessible; done.
Qed.

Lemma same_space_trans m1 m2 m3 : same_space m1 m2 -> same_space m2 m3 -> same_space m1 m3.
Proof. intros [] []. constructor; auto. Qed.

(** The bytes of word [k] from an address are known. *)
Definition words_at m (ps : Z -> Z -> Bank * Z) (n : Z) (w : Z -> Z) : Prop :=
  forall k i, 0 <= k < n -> 0 <= i < 4 -> load_u8 (memory m) (ps k i) = be_bytes 4 (w k) !! Z.to_nat i.

(** [n] words from [a] are memory outside the page table. *)
Record words_accessible m (n a : Z) (ps : Z -> Z -> Bank * Z) : Prop := {
  wa_access : forall k, 0 <= k < n -> accessible m Write 4 (a + 4 * k) (ps k);
  wa_outside : forall k i, 0 <= k < n -> 0 <= i < 4 -> outside_table m (ps k i)
}.

Lemma words_accessible_space m m' n a ps : same_space m m' -> words_accessible m n a ps -> words_accessible m' n a ps.
Proof. intros [] []. constructor; auto. Qed.

Lemma words_accessible_next m n a ps : words_accessible m (n + 1) a ps -> words_accessible m n (a + 4) (fun k => ps (k + 1)).
Proof.
  intros [A O]. constructor.
  - intros k Hk. replace (a + 4 + 4 * k) with (a + 4 * (k + 1)) by lia. apply A. lia.
  - intros k i Hk Hi. apply O; lia.
Qed.

Lemma accessible_Read m size ea ps : accessible m Write size ea ps -> accessible m Read size ea ps.
Proof. intros []. constructor; done. Qed.

(** Registers [i], [i + 1], ... *)
Fixpoint put_words (n : nat) (i : Z) (w : Z -> Z) (s : PowerPCState) : PowerPCState :=
  match n with O => s | S n => put_words n (i + 1) (fun k => w (k + 1)) (put_gpr i (w 0) s) end.

Lemma put_words_other n i w s : sr (put_words n i w s) = sr s /\ msr (put_words n i w s) = msr s /\ Exceptions (put_words n i w s) = Exceptions s.
Proof. revert i w s. induction n as [| n IH]; intros i w s; cbn [put_words]; [done |]. apply (IH (i + 1) _ (put_gpr i (w 0) s)). Qed.

Lemma rGPR_put_gpr i j v s : arr_ok 32 32 (gpr s) -> 0 <= i < 32 -> 0 <= j < 32 ->
  rGPR (put_gpr i v s) j = if j =? i then u32 v else rGPR s j.
Proof.
  intros Hl Hi Hj. unfold rGPR, put_gpr. cbn [gpr set_gpr]. destruct (Z.eqb_spec j i) as [-> |].
  - apply (zget_zset_same 32 32); [done | lia].
  - apply zget_zset_other; lia.
Qed.

Lemma rGPR_put_words n i w s j :
  arr_ok 32 32 (gpr s) -> 0 <= i -> i + Z.of_nat n <= 32 -> 0 <= j < 32 ->
  rGPR (put_words n i w s) j = if (i <=? j) && (j <? i + Z.of_nat n) then u32 (w (j - i)) else rGPR s j.
Proof.
  revert i w s. induction n as [| n IH]; intros i w s Hl Hi Hn Hj; cbn [put_words].
  { destruct (Z.leb_spec i j), (Z.ltb_spec j (i + Z.of_nat 0)); try lia; done. }
  rewrite IH by (lia || (apply arr_ok_zset; [done | range])). rewrite rGPR_put_gpr by (done || lia).
  destruct (Z.leb_spec (i + 1) j), (Z.ltb_spec j (i + 1 + Z.of_nat n)), (Z.leb_spec i j), (Z.ltb_spec j (i + Z.of_nat (S n))), (Z.eqb_spec j i); cbn [andb]; try lia;
    try done; f_equal; f_equal; lia.
Qed.

Lemma stmw_loop_ok n i a m ps :
  no_memchecks -> mmu_ok m -> wf (cpu m) -> DSI_pending (cpu m) = false -> words_accessible m (Z.of_nat n) a ps ->
  (forall k l j j', 0 <= k < Z.of_nat n -> 0 <= l < Z.of_nat n -> k <> l -> 0 <= j < 4 -> 0 <= j' < 4 -> ps k j <> ps l j') ->
  exists m1, stmw_loop n i a m = Done tt m1 /\ frame m m1 /\ mmu_ok m1 /\ words_at m1 ps (Z.of_nat n) (fun k => rGPR (cpu m) (i + k)) /\
    (forall q, outside_table m q -> (forall k j, 0 <= k < Z.of_nat n -> 0 <= j < 4 -> q <> ps k j) -> load_u8 (memory m1) q = load_u8 (memory m) q).
Proof.
  revert i a m ps. induction n as [| n IH]; intros i a m ps N Hm Hs Hd W Hne; cbn [stmw_loop].
  { exists m. split_and!; [done | | done | intros ? ? ?; lia | done]. apply (tr_frame _ _ (translated_refl m Hm)). }
  pose proof (wa_access _ _ _ _ W 0 ltac:(lia)) as A0. rewrite Z.mul_0_r, Z.add_0_r in A0.
  assert (Hv : inu 32 (rGPR (cpu m) i)) by (destruct Hs; eapply arr_ok_zget; done || lia).
  destruct (WriteToHardware_ok m 4 a (rGPR (cpu m) i) (ps 0) Hm A0) as (m1 & E & F & Hm1 & L & U); [intros; apply (wa_outside _ _ _ _ W); lia | done |].
  pose proof (frame_cpu _ _ F) as Ec. pose proof (same_space_frame m m1 Hm F Hm1) as S1.
  unfold store. unfold mbind, M_bind, gets. rewrite Write_U32_hardware, E, Ec, Hd by done.
  destruct n as [| n'].
  { exists m1. split_and!; [done | done | done | |].
    - intros k j Hk Hj. replace k with 0 by lia. rewrite Z.add_0_r. apply L. lia.
    - intros q Hq Hk. apply U; [done |]. intros. apply Hk; lia. }
  set (n := S n') in *. assert (En : u32 (a + 4) = a + 4).
  { apply wrapu_id. pose proof (acc_end _ _ _ _ _ (wa_access _ _ _ _ W 1 ltac:(lia))). destruct A0. unfold inu in *. lia. }
  rewrite En. destruct (IH (i + 1) (a + 4) m1 (fun k => ps (k + 1)) N Hm1) as (m2 & E2 & F2 & Hm2 & L2 & U2).
  - rewrite Ec. done.
  - rewrite Ec. done.
  - apply words_accessible_next. replace (Z.of_nat n + 1) with (Z.of_nat (S n)) by lia. apply (words_accessible_space m); done.
  - intros k l j j' Hk Hl Hkl Hj Hj'. apply Hne; lia.
  - exists m2. split_and!; [done | | done | |].
    + eapply frame_trans; [apply (tlb_table _ _ (ok_tlb m Hm)) | done | done].
    + intros k j Hk Hj. destruct (decide (k = 0)) as [-> | Hk0].
      * rewrite U2, L, Z.add_0_r by first [lia | apply (frame_outside m m1 _ F), (wa_outside _ _ _ _ W); lia | intros; apply Hne; lia]. done.
      * specialize (L2 (k - 1) j ltac:(lia) Hj). cbn beta in L2. replace (k - 1 + 1) with k in L2 by lia. rewrite L2, Ec. do 3 f_equal. lia.
    + intros q Hq Hk. rewrite U2, U; [done | done | intros; apply Hk; lia | apply (frame_outside m m1 _ F); done | intros; apply Hk; lia].
Qed.

Lemma lmw_loop_ok n i a m ps w :
  no_memchecks -> mmu_ok m -> DSI_pending (cpu m) = false -> words_accessible m (Z.of_nat n) a ps ->
  words_at m ps (Z.of_nat n) w -> (forall k, 0 <= k < Z.of_nat n -> inu 32 (w k)) ->
  exists m1, lmw_loop n i a m = Done tt m1 /\ cpu m1 = put_words n i w (cpu m) /\ same_space m m1 /\
    (forall q, outside_table m q -> load_u8 (memory m1) q = load_u8 (memory m) q).
Proof.
  revert i a m ps w. induction n as [| n IH]; intros i a m ps w N Hm Hd W Hw Rw; cbn [lmw_loop put_words].
  { exists m. split_and!; [done | done | apply same_space_refl; done | done]. }
  pose proof (wa_access _ _ _ _ W 0 ltac:(lia)) as A0. rewrite Z.mul_0_r, Z.add_0_r in A0.
  destruct (ReadFromHardware_value m Read 4 a (w 0) (ps 0) Hm (accessible_Read _ _ _ _ A0)) as (m1 & E & X);
    [intros; apply (wa_outside _ _ _ _ W); lia | apply Rw; lia | intros; apply Hw; lia |].
  pose proof (frame_cpu _ _ (tr_frame _ _ X)) as Ec. pose proof (same_space_frame m m1 Hm (tr_frame _ _ X) (tr_ok _ _ X)) as S1.
  unfold mbind at 1, M_bind at 1. rewrite Read_U32_hardware, E by done.
  unfold mbind, M_bind, gets, registers, modify. cbv beta. rewrite Ec, Hd. cbv beta. rewrite ?Ec.
  set (s := put_gpr i (w 0) (cpu m)).
  assert (S2 : same_space m (set_cpu s m1)).
  { apply (same_space_trans m m1); [done |]. apply same_space_cpu; [apply X | |]; rewrite Ec; done. }
  destruct n as [| n'].
  { cbn [lmw_loop put_words]. exists (set_cpu s m1). split_and!; [done | done | done | apply (tr_memory _ _ X)]. }
  set (n := S n') in *. assert (En : u32 (a + 4) = a + 4).
  { apply wrapu_id. pose proof (acc_end _ _ _ _ _ (wa_access _ _ _ _ W 1 ltac:(lia))). destruct A0. unfold inu in *. lia. }
  rewrite En. destruct (IH (i + 1) (a + 4) (set_cpu s m1) (fun k => ps (k + 1)) (fun k => w (k + 1)) N) as (m2 & E2 & C2 & S3 & U2).
  - apply S2.
  - done.
  - apply words_accessible_next. replace (Z.of_nat n + 1) with (Z.of_nat (S n)) by lia. apply (words_accessible_space m); done.
  - intros k j Hk Hj. cbn [memory set_cpu]. rewrite (tr_memory _ _ X) by (apply (wa_outside _ _ _ _ W); lia). apply Hw; lia.
  - intros k Hk. apply Rw. lia.
  - exists m2. split_and!; [done | done | apply (same_space_trans m (set_cpu s m1)); done |].
    intros q Hq. rewrite U2 by (apply (ss_outside _ _ S2); done). apply (tr_memory _ _ X). done.
Qed.

(** C19: [stmw] saves the registers from RS to 31 in consecutive words, and
    [lmw] of the same words restores them, whatever the other registers hold
    by then and whatever pages the words lie on; the registers below RD keep
    their value, and [stmw] changes no byte outside the words and the page
    table. The machine is in big-endian mode without watchpoints or an exception
    for data pending, the address is a multiple of four and each word can be
    accessed, and the two instructions run with the same segment registers and
    the same machine state register. *)
Theorem multiple_words inst1 inst2 m ps s :
  no_memchecks -> mmu_ok m -> wf (cpu m) -> DSI_pending (cpu m) = false -> Z.testbit (msr (cpu m)) MSR_LE = false ->
  let r := RS inst1 in
  let ea := Helper_Get_EA inst1 (cpu m) in
  (ea .& 3) = 0 -> words_accessible m (32 - r) ea ps ->
  (forall k l j j', 0 <= k < 32 - r -> 0 <= l < 32 - r -> k <> l -> 0 <= j < 4 -> 0 <= j' < 4 -> ps k j <> ps l j') ->
  exists m', stmw inst1 m = Done tt m' /\ cpu m' = cpu m /\
    (forall q, outside_table m q -> (forall k j, 0 <= k < 32 - r -> 0 <= j < 4 -> q <> ps k j) -> load_u8 (memory m') q = load_u8 (memory m) q) /\
    (RD inst2 = r -> Helper_Get_EA inst2 s = ea -> wf s -> sr s = sr (cpu m) -> msr s = msr (cpu m) -> DSI_pending s = false ->
     exists m'', lmw inst2 (set_cpu s m') = Done tt m'' /\
       (forall i, r <= i < 32 -> rGPR (cpu m'') i = rGPR (cpu m) i) /\ (forall i, 0 <= i < r -> rGPR (cpu m'') i = rGPR s i)).
Proof.
  intros N Hm Hs Hd LE r ea Al W Hne.
  assert (Hr : 0 <= r < 32) by (unfold r, RS; rewrite field_mod by lia; apply Z.mod_pos_bound; lia).
  set (n := Z.to_nat (32 - r)). replace (32 - r) with (Z.of_nat n) in W, Hne by lia.
  destruct (stmw_loop_ok n r ea m ps N Hm Hs Hd W Hne) as (m1 & E & F & Hm1 & L & U).
  pose proof (frame_cpu _ _ F) as Ec. exists m1. split_and!; [| done | |].
  - unfold stmw, with_EA. unfold mbind at 1, M_bind at 1, gets at 1. fold ea. unfold aligned. rewrite Al. cbn [Z.eqb negb].
    unfold big_endian, mbind, M_bind, gets. rewrite LE. exact E.
  - intros q Hq Hk. apply U; [done |]. intros. apply Hk; lia.
  - intros Hrd Hea Hws Esr Emsr Hds.
    assert (S2 : same_space m (set_cpu s m1)).
    { apply (same_space_trans m m1); [apply same_space_frame; done |]. apply same_space_cpu; [done | |]; rewrite Ec; done. }
    destruct (lmw_loop_ok n r ea (set_cpu s m1) ps (fun k => rGPR (cpu m) (r + k)) N (ss_ok _ _ S2) Hds) as (m2 & E2 & C2 & _);
      [apply (words_accessible_space m); done | exact L | intros; destruct Hs; eapply arr_ok_zget; done || lia |].
    exists m2. cbn [cpu set_cpu] in C2. pose proof (wf_gpr _ Hws) as Hl. split_and!.
    + unfold lmw, with_EA. unfold mbind at 1, M_bind at 1, gets at 1. cbn [cpu set_cpu]. rewrite Hea, Hrd. unfold aligned. rewrite Al. cbn [Z.eqb negb].
      unfold big_endian, mbind, M_bind, gets. cbn [cpu set_cpu]. rewrite Emsr, LE. exact E2.
    + intros i Hi. rewrite C2, rGPR_put_words by (done || lia). destruct (Z.leb_spec r i), (Z.ltb_spec i (r + Z.of_nat n)); try lia. cbn [andb].
      replace (r + (i - r)) with i by lia. apply wrapu_id. destruct Hs. eapply arr_ok_zget; done || lia.
    + intros i Hi. rewrite C2, rGPR_put_words by (done || lia). destruct (Z.leb_spec r i); [lia |]. done.
Qed.
(** ** Reservations *)

Lemma CheckExceptions_reservation s :
  m_reserve (CheckExceptions s) = m_reserve s /\ m_reserve_address (CheckExceptions s) = m_reserve_address s.
Proof.
  unfold CheckExceptions, CheckExternalExceptions. cbv zeta.
  repeat match goal with |- context [if ?b then _ else _] => destruct b end; done.
Qed.

(** C20: The word [lwarx] reads is reserved: [stwcxd] of the same address then
    stores its register, sets EQ and ends the reservation. Without a reservation
    a [stwcxd] stores nothing: it clears EQ at any address that is a multiple of
    four, and at any other address it changes nothing but to report an
    alignment exception. Between the two the registers may change in any way
    that keeps the reservation, the segment registers and the machine state;
    the delivery of an exception by [CheckExceptions] does not end it (which the
    source's comment on [lwarx] expects it to). The word lies outside the page
    table where it can be written, and no watchpoint is set. *)
Theorem reservation inst1 m ps v :
  no_memchecks -> mmu_ok m -> DSI_pending (cpu m) = false ->
  let ea := Helper_Get_EA_X inst1 (cpu m) in
  (ea .& 3) = 0 -> accessible m Write 4 ea ps -> (forall i, 0 <= i < 4 -> outside_table m (ps i)) ->
  inu 32 v -> (forall i, 0 <= i < 4 -> load_u8 (memory m) (ps i) = be_bytes 4 v !! Z.to_nat i) ->
  exists m1, lwarx inst1 m = Done tt m1 /\
    cpu m1 = set_reserve_address ea (set_reserve true (put_gpr (RD inst1) v (cpu m))) /\
    (forall inst2 s, sr s = sr (cpu m) -> msr s = msr (cpu m) -> wf s -> DSI_pending s = false ->
       m_reserve s = true -> m_reserve_address s = ea -> Helper_Get_EA_X inst2 s = ea ->
       exists m2, stwcxd inst2 (set_cpu s m1) = Done tt m2 /\
         cpu m2 = SetCRField 0 (2 .| GetXER_SO s) (set_reserve false s) /\
         (forall i, 0 <= i < 4 -> load_u8 (memory m2) (ps i) = be_bytes 4 (rGPR s (RS inst2)) !! Z.to_nat i) /\
         (forall inst3 s', (Helper_Get_EA_X inst3 s' .& 3) = 0 -> m_reserve s' = false ->
            stwcxd inst3 (set_cpu s' m2) = Done tt (set_cpu (SetCRField 0 (GetXER_SO s') s') m2)) /\
         (forall inst3 s', let ea3 := Helper_Get_EA_X inst3 s' in (ea3 .& 3) <> 0 ->
            stwcxd inst3 (set_cpu s' m2) = Done tt (set_cpu (GenerateAlignmentException ea3 s') m2))) /\
    (forall s, m_reserve (CheckExceptions s) = m_reserve s /\ m_reserve_address (CheckExceptions s) = m_reserve_address s).
Proof.
  intros N Hm Hd ea Al Ha Hout Hv Hb.
  destruct (ReadFromHardware_value m Read 4 ea v ps Hm (accessible_Read _ _ _ _ Ha) Hout Hv Hb) as (m1 & E & X).
  pose proof (frame_cpu _ _ (tr_frame _ _ X)) as Ec.
  eexists. split; [| split; [| split; [| apply CheckExceptions_reservation]]].
  - unfold lwarx, with_EA. unfold mbind at 1, M_bind at 1, gets at 1. fold ea. unfold aligned. rewrite Al. cbn [Z.eqb negb].
    unfold load, mbind, M_bind. rewrite Read_U32_hardware, E by done. rewrite unless_DSI_done by (rewrite Ec; done). reflexivity.
  - cbn [cpu set_cpu]. rewrite Ec. done.
  - intros inst2 s Esr Emsr Hs Hds R1 R2 Hea. match goal with |- context [set_cpu s (set_cpu ?x m1)] => set (m1' := set_cpu s (set_cpu x m1)) end.
    assert (S1 : same_space m m1').
    { apply (same_space_trans m m1); [apply same_space_frame; [done | apply X | apply X] |].
      apply (same_space_cpu m1 s); [apply X | rewrite Ec; done | rewrite Ec; done]. }
    assert (Hw : inu 32 (rGPR s (RS inst2))) by (destruct Hs; eapply arr_ok_zget; done || lia).
    destruct (WriteToHardware_ok m1' 4 ea (rGPR s (RS inst2)) ps (ss_ok _ _ S1)) as (m2 & E2 & F2 & Hm2 & L2 & _);
      [apply S1; done | intros; apply (ss_outside _ _ S1); auto | done |].
    pose proof (frame_cpu _ _ F2) as Ec2. change (cpu m1') with s in Ec2.
    exists (set_cpu (SetCRField 0 (2 .| GetXER_SO s) (set_reserve false s)) m2). split; [| split; [| split; [exact L2 | split]]].
    + unfold stwcxd, with_EA. unfold mbind at 1, M_bind at 1, gets at 1. change (cpu m1') with s. rewrite Hea. unfold aligned. rewrite Al. cbn [Z.eqb negb].
      unfold mbind at 1, M_bind at 1, gets at 1. change (cpu m1') with s. rewrite R1, R2, Z.eqb_refl. cbn [andb].
      unfold store, mbind, M_bind, gets, word_of_RS. change (cpu m1') with s. rewrite Write_U32_hardware, E2, Ec2, Hds by done. cbn [negb]. unfold registers, modify. rewrite Ec2. reflexivity.
    + done.
    + intros inst3 s' Al' R'. unfold stwcxd, with_EA. unfold mbind at 1, M_bind at 1, gets at 1. cbn [cpu set_cpu]. unfold aligned. rewrite Al'. cbn [Z.eqb negb].
      unfold mbind, M_bind, gets. cbn [cpu set_cpu]. rewrite R'. reflexivity.
    + intros inst3 s' ea3 Al'. unfold stwcxd, with_EA. unfold mbind at 1, M_bind at 1, gets at 1. cbn [cpu set_cpu]. fold ea3.
      unfold aligned. rewrite (proj2 (Z.eqb_neq _ _) Al'). reflexivity.
Qed.

(** ** The string loads *)

(** No access changes the count of [lswx], unless the handler of a device's
    register does. *)
Definition same_count (s s' : PowerPCState) : Prop := xer_stringctrl s' = xer_stringctrl s.

#[local] Instance same_count_admits : AdmitsFaults same_count.
Proof. constructor; try done. constructor; unfold same_count; [done | intros ? ? ?; congruence]. Qed.

(** The register of byte [n], and the one before. *)
Lemma string_register r n :
  0 <= r < 32 -> 0 <= n ->
  (r + (n .>> 2)) .& 0x1f =
    let last := if n =? 0 then r - 1 else (r + ((n - 1) .>> 2)) .& 31 in
    if (n mod 4) * 8 =? 0 then (last + 1) .& 31 else last.
Proof.
  intros Hr Hn. change 0x1f with (Z.ones 5). change 31 with (Z.ones 5). rewrite !Z.shiftr_div_pow2 by lia. rewrite !Z.land_ones by lia. cbv zeta.
  destruct (Z.eqb_spec n 0), (Z.eqb_spec (n mod 4 * 8) 0); rewrite ?Z.land_ones by lia; Z.to_euclidean_division_equations; lia.
Qed.

Lemma land_3 n : n .& 3 = n mod 4.
Proof. change 3 with (Z.ones 2). apply Z.land_ones. lia. Qed.

Lemma lswx_loop_count inst c fuel n EA m :
  DevicesAdmit (D := D) same_count -> u8 (xer_stringctrl (cpu m)) = c -> 0 <= n <= c -> (Z.to_nat (c - n) < fuel)%nat ->
  lswx_loop fuel inst n EA m =
  lswi_loop (Z.to_nat (c - n)) (if n =? 0 then RD inst - 1 else (RD inst + ((n - 1) .>> 2)) .& 31) (n mod 4 * 8) EA m.
Proof.
  intros Hdev. revert n EA m. induction fuel as [| fuel IH]; intros n EA m Hc Hn Hf; [lia |].
  assert (Hr : 0 <= RD inst < 32) by (unfold RD; rewrite field_mod by lia; apply Z.mod_pos_bound; lia).
  cbn [lswx_loop]. unfold mbind at 1, M_bind at 1, gets at 1. rewrite Hc. destruct (Z.ltb_spec n c) as [Hlt | Hge].
  2: { replace (Z.to_nat (c - n)) with 0%nat by lia. done. }
  destruct (Z.to_nat (c - n)) as [| k] eqn:Ek; [lia |]. cbn [lswi_loop]. cbv zeta.
  rewrite land_3, Z.shiftl_mul_pow2, (string_register (RD inst) n) by lia. change (2 ^ 3) with 8. cbv zeta.
  set (i := n mod 4 * 8). set (last := if n =? 0 then _ else _). set (r := if i =? 0 then (last + 1) .& 31 else last).
  assert (Z0 : (n mod 4 =? 0) = (i =? 0)) by (subst i; destruct (Z.eqb_spec (n mod 4) 0), (Z.eqb_spec (n mod 4 * 8) 0); lia).
  rewrite Z0. unfold mbind, M_bind.
  assert (E0 : exists m0, when (i =? 0) (registers (put_gpr r 0)) m = Done tt m0 /\ xer_stringctrl (cpu m0) = xer_stringctrl (cpu m)).
  { destruct (i =? 0); eexists; split; done. }
  destruct E0 as (m0 & -> & C0). destruct (Read_U8 EA m0) as [v m1 | |] eqn:ER; [| done | done].
  pose proof (proj1 (keeps_reads same_count EA) _ _ _ ER) as C1. unfold gets. destruct (DSI_pending (cpu m1)); [done |].
  unfold registers, modify. rewrite IH; [| cbn [cpu set_cpu xer_stringctrl put_gpr set_gpr]; congruence | lia | lia].
  replace (Z.to_nat (c - (n + 1))) with k by lia. f_equal.
  - destruct (Z.eqb_spec (n + 1) 0); [lia |]. replace (n + 1 - 1) with n by lia. change 31 with 0x1f. apply string_register; lia.
  - subst i. destruct (Z.eqb_spec (n mod 4 * 8 + 8) 32); Z.to_euclidean_division_equations; lia.
Qed.

(** [lswx] loads exactly as [lswi] does when its count is the low byte of
    the string count of XER, byte by byte, whatever the accesses meet on the
    way (exceptions, devices); a count of zero does nothing, and the count is
    never so large that the loop would not end. *)
Theorem string_loads_agree inst m :
  DevicesAdmit (D := D) same_count ->
  lswx inst m = with_EA Helper_Get_EA_X inst (fun EA => big_endian EA (
    lswi_loop (Z.to_nat (u8 (xer_stringctrl (cpu m)))) (RD inst - 1) 0 EA)) m.
Proof.
  intros Hdev. unfold lswx, with_EA, big_endian, mbind, M_bind, gets. destruct (Z.testbit (msr (cpu m)) MSR_LE); [done |].
  assert (R : inu 8 (u8 (xer_stringctrl (cpu m)))) by (apply wrapu_range; lia). unfold inu in R.
  rewrite (lswx_loop_count inst (u8 (xer_stringctrl (cpu m)))) by (done || lia). rewrite Z.sub_0_r. done.
Qed.
End Tables.

(** ** Example: registers that address the two pages *)

Section Example.
#[local] Existing Instance quiet_host.

#[local] Instance quiet_cache : LoadStoreHost unit := {|
  JitInterface_InvalidateICache a n forced d := d;
  PanicYesNo d := (true, d);
  bLowDCBZHack := false
|}.

Lemma quiet_memchecks : no_memchecks (D := unit).
Proof. done. Qed.

Definition at_two_pages : Mmu unit := set_cpu (put_gpr 3 0x00401FF8 (put_gpr 4 0x80000001 (cpu two_pages))) two_pages.

Lemma SDRUpdated_cpu {D} (m : Mmu D) : cpu (SDRUpdated m) = cpu m.
Proof. unfold SDRUpdated. cbv zeta. repeat match goal with |- context [if ?b then _ else _] => destruct b end; done. Qed.

Lemma wf_reserve_at a s : inu 32 a -> wf s -> wf (set_reserve_address a (set_reserve true s)).
Proof. intros Ha []. constructor; done. Qed.

Lemma wf_set_msr v s : inu 32 v -> wf s -> wf (set_msr v s).
Proof. intros Hv []. constructor; done. Qed.

Lemma wf_set_sr l s : arr_ok 16 32 l -> wf s -> wf (set_sr l s).
Proof. intros Hl []. constructor; done. Qed.

Lemma wf_at_two_pages : wf (cpu at_two_pages).
Proof.
  unfold at_two_pages. cbn [cpu set_cpu]. do 2 apply wf_put_gpr. unfold two_pages. rewrite SDRUpdated_cpu. cbn [cpu].
  do 4 apply wf_put_spr. apply wf_set_msr; [done |]. apply wf_put_spr, wf_set_sr; [| apply wf_ppcState].
  split; [reflexivity |]. constructor; [done | apply Forall_replicate; done].
Qed.

Lemma at_two_pages_ok : mmu_ok at_two_pages.
Proof. unfold at_two_pages. apply set_cpu_mmu_ok; [vm_compute; reflexivity | apply two_pages_ok]. Qed.

Definition two_page_bytes (ea : Z) (i : Z) : Bank * Z := if ea + i <? 0x402000 then (RAM, ea + i - 0xBC000) else (RAM, ea + i + 0x375000).

Lemma two_page_outside ea i : 0x401000 <= ea + i < 0x403000 -> outside_table at_two_pages (two_page_bytes ea i).
Proof.
  intros Hi. apply set_cpu_outside. intros a p (h & j & Hj & ->). destruct (small_group two_pages h eq_refl eq_refl). rewrite ram_pointer by lia.
  intros [= <-]. unfold two_page_bytes. destruct (Z.ltb_spec (ea + i) 0x402000); cbn [fst snd]; lia.
Qed.

Lemma two_page_words ea :
  In ea [0x401FF8; 0x401FFC; 0x401FFE; 0x402000; 0x402004] -> accessible at_two_pages Write 4 ea (two_page_bytes ea).
Proof.
  intros Hin. constructor; [unfold width_ok; lia | | | left; reflexivity |]; cbn in Hin.
  1,2: unfold inu; lia.
  intros i Hi. assert (i = 0 \/ i = 1 \/ i = 2 \/ i = 3) as [-> | [-> | [-> | ->]]] by lia;
    destruct_or! Hin; try done; subst; vm_compute; reflexivity.
Qed.

(** [stwu r4, 6(r3)], across the pages, then [lwz r5, 0(r3)]. *)
Lemma load_after_store_witness :
  exists m' m'', stwu ((4 .<< 21) .| (3 .<< 16) .| 6) at_two_pages = Done tt m' /\ lwz ((5 .<< 21) .| (3 .<< 16)) m' = Done tt m'' /\
    rGPR (cpu m') 3 = 0x401FFE /\ rGPR (cpu m'') 5 = 0x80000001.
Proof.
  destruct (load_after_store stwu (mk_form Helper_Get_EA_U 4 true false) (fun inst s => rGPR s (RS inst))
    lwz (mk_form Helper_Get_EA 4 false false) (fun inst _ => put_gpr (RD inst))
    ((4 .<< 21) .| (3 .<< 16) .| 6) ((5 .<< 21) .| (3 .<< 16)) at_two_pages (two_page_bytes 0x401FFE)) as (m' & E & C & _ & R).
  - cbn. tauto.
  - cbn. tauto.
  - vm_compute; reflexivity.
  - apply quiet_memchecks.
  - apply at_two_pages_ok.
  - apply wf_at_two_pages.
  - vm_compute; reflexivity.
  - apply two_page_words. cbn. tauto.
  - intros i Hi. cbn in Hi. apply two_page_outside. lia.
  - discriminate.
  - destruct R as (m'' & E2 & C2 & _); [rewrite C; vm_compute; reflexivity |]. exists m', m''. split; [exact E |]. split; [exact E2 |]. rewrite C2, C.
    split; vm_compute; reflexivity.
Defined.

(** [lwz r5, 0x1006(r3)], of which the second page is not mapped. *)
Lemma access_fails_witness :
  exists m1, lwz ((5 .<< 21) .| (3 .<< 16) .| 0x1006) at_two_pages = Done tt (set_cpu (dsi_state 0x403000 (cpu at_two_pages)) m1).
Proof.
  destruct (access_fails lwz (mk_form Helper_Get_EA 4 false false) ((5 .<< 21) .| (3 .<< 16) .| 0x1006) at_two_pages 0x403000) as [_ F].
  - left. exists (fun inst _ => put_gpr (RD inst)). cbn. tauto.
  - destruct F as (m1 & _ & E); [discriminate | reflexivity | apply quiet_memchecks | apply at_two_pages_ok | vm_compute; split; discriminate + reflexivity
      | vm_compute; reflexivity | vm_compute; reflexivity |]. exists m1. exact E.
Defined.

(** [stmw r28, 0(r3)] and [lmw r28, 0(r3)]. *)
Lemma multiple_words_witness :
  exists m' m'', stmw ((28 .<< 21) .| (3 .<< 16)) at_two_pages = Done tt m' /\
    lmw ((28 .<< 21) .| (3 .<< 16)) (set_cpu (put_gpr 30 7 (cpu at_two_pages)) m') = Done tt m'' /\ rGPR (cpu m'') 30 = 0.
Proof.
  destruct (multiple_words ((28 .<< 21) .| (3 .<< 16)) ((28 .<< 21) .| (3 .<< 16)) at_two_pages (fun k => two_page_bytes (0x401FF8 + 4 * k))
    (put_gpr 30 7 (cpu at_two_pages)) quiet_memchecks at_two_pages_ok wf_at_two_pages) as (m' & E & C & _ & R).
  - vm_compute; reflexivity.
  - vm_compute; reflexivity.
  - vm_compute; reflexivity.
  - assert (R4 : 32 - RS ((28 .<< 21) .| (3 .<< 16)) = 4) by done. assert (R8 : Helper_Get_EA ((28 .<< 21) .| (3 .<< 16)) (cpu at_two_pages) = 0x401FF8) by (vm_compute; reflexivity). rewrite R4, R8. constructor; [| intros; apply two_page_outside; lia].
    intros k Hk. apply two_page_words. cbn. lia.
  - assert (R4 : 32 - RS ((28 .<< 21) .| (3 .<< 16)) = 4) by done. rewrite R4. intros k l j j' ? ? ? ? ?. unfold two_page_bytes.
    destruct (Z.ltb_spec (0x401FF8 + 4 * k + j) 0x402000), (Z.ltb_spec (0x401FF8 + 4 * l + j') 0x402000); intros [=]; lia.
  - destruct R as (m'' & E2 & G & _); [vm_compute; reflexivity | vm_compute; reflexivity | | vm_compute; reflexivity | vm_compute; reflexivity | vm_compute; reflexivity |].
    + apply wf_put_gpr, wf_at_two_pages.
    + exists m', m''. split; [exact E |]. split; [exact E2 |]. rewrite (G 30); [vm_compute; reflexivity | split; vm_compute; [discriminate | reflexivity]].
Defined.

(** [lwarx r5, 0, r3], then [stwcx. r4, 0, r3]. *)
Lemma reservation_witness :
  exists m1 m2, lwarx ((5 .<< 21) .| (3 .<< 11)) at_two_pages = Done tt m1 /\
    stwcxd ((4 .<< 21) .| (3 .<< 11)) (set_cpu (cpu m1) m1) = Done tt m2 /\ GetCRField 0 (cpu m2) = 2.
Proof.
  destruct (reservation ((5 .<< 21) .| (3 .<< 11)) at_two_pages (two_page_bytes 0x401FF8) 0 quiet_memchecks at_two_pages_ok) as (m1 & E & C & R & _).
  - vm_compute; reflexivity.
  - vm_compute; reflexivity.
  - apply two_page_words. cbn. tauto.
  - intros i Hi. apply two_page_outside. lia.
  - unfold inu. lia.
  - intros i Hi. assert (i = 0 \/ i = 1 \/ i = 2 \/ i = 3) as [-> | [-> | [-> | ->]]] by lia; vm_compute; reflexivity.
  - destruct (R ((4 .<< 21) .| (3 .<< 11)) (cpu m1)) as (m2 & E2 & C2 & _).
    1,2,4,5,6,7: rewrite C; vm_compute; reflexivity.
    + rewrite C. apply wf_reserve_at; [split; vm_compute; [discriminate | reflexivity] |]. apply wf_put_gpr, wf_at_two_pages.
    + exists m1, m2. split; [exact E |]. split; [exact E2 |]. rewrite C2, C. vm_compute. reflexivity.
Defined.

Lemma string_loads_agree_witness :
  lswx ((5 .<< 21) .| (3 .<< 11)) at_two_pages = lswi_loop 0 4 0 0x401FF8 at_two_pages.
Proof.
  etransitivity; [apply (string_loads_agree ((5 .<< 21) .| (3 .<< 11)) at_two_pages); constructor; reflexivity |].
  reflexivity.
Defined.
End Example.
