(* ===== verification/PpcPaired.v ===== *)
(** The quantised loads and stores of paired singles
    ([Core/PowerPC/Interpreter/Interpreter_LoadStorePaired.cpp]), over the
    memory of [PpcMmu] and the float arithmetic of [PpcFloat]. The
    theorems about them are in [PpcQuantize]. *)

From S2P Require Import Prelude Memmap PpcCache PpcState PpcBat PpcTlb PpcMmu PpcFpu PpcFloat PpcFpArith PpcConvert PpcLoadStore.
Open Scope Z_scope.

(** ** Fields and tables *)

Definition I (inst : Z) : Z := field 12 3 inst.
Definition W (inst : Z) : bool := Z.testbit inst 15.
Definition Ix (inst : Z) : Z := field 7 3 inst.
Definition Wx (inst : Z) : bool := Z.testbit inst 10.
Definition SIMM_12 (inst : Z) : Z := wraps 12 inst.

Definition SPR_GQR0 : Z := 912.
Definition HID2_LSQE : Z := 31.

Inductive EQuantizeType :=
  | QUANTIZE_FLOAT | QUANTIZE_INVALID1 | QUANTIZE_INVALID2 | QUANTIZE_INVALID3
  | QUANTIZE_U8 | QUANTIZE_U16 | QUANTIZE_S8 | QUANTIZE_S16.

Definition quantize_type (n : Z) : EQuantizeType :=
  match n with
  | 0 => QUANTIZE_FLOAT | 1 => QUANTIZE_INVALID1 | 2 => QUANTIZE_INVALID2 | 3 => QUANTIZE_INVALID3
  | 4 => QUANTIZE_U8 | 5 => QUANTIZE_U16 | 6 => QUANTIZE_S8 | _ => QUANTIZE_S16
  end.

(** The members of [UGQR]. *)
Definition st_type (gqr : Z) : EQuantizeType := quantize_type (field 0 3 gqr).
Definition st_scale (gqr : Z) : Z := field 8 6 gqr.
Definition ld_type (gqr : Z) : EQuantizeType := quantize_type (field 16 3 gqr).
Definition ld_scale (gqr : Z) : Z := field 24 6 gqr.

(** A power of two as a float. *)
Definition power (k : Z) : Z := (127 + k) .<< 23.

Definition m_dequantizeTable : list Z := Eval cbv in map power [
  0; -1; -2; -3; -4; -5; -6; -7; -8; -9; -10; -11; -12; -13; -14; -15;
  -16; -17; -18; -19; -20; -21; -22; -23; -24; -25; -26; -27; -28; -29; -30; -31;
  32; 31; 30; 29; 28; 27; 26; 25; 24; 23; 22; 21; 20; 19; 18; 17;
  16; 15; 14; 13; 12; 11; 10; 9; 8; 7; 6; 5; 4; 3; 2; 1].

Definition m_quantizeTable : list Z := Eval cbv in map power [
  0; 1; 2; 3; 4; 5; 6; 7; 8; 9; 10; 11; 12; 13; 14; 15;
  16; 17; 18; 19; 20; 21; 22; 23; 24; 25; 26; 27; 28; 29; 30; 31;
  -32; -31; -30; -29; -28; -27; -26; -25; -24; -23; -22; -21; -20; -19; -18; -17;
  -16; -15; -14; -13; -12; -11; -10; -9; -8; -7; -6; -5; -4; -3; -2; -1].

(** [1.0f] *)
Definition FLOAT_ONE : Z := 0x3F800000.

(** ** The integer types [T] of the templates *)

Record int_type := mk_int_type { bits : Z; is_signed : bool }.
Definition T_u8 : int_type := mk_int_type 8 false.
Definition T_u16 : int_type := mk_int_type 16 false.
Definition T_s8 : int_type := mk_int_type 8 true.
Definition T_s16 : int_type := mk_int_type 16 true.

(** [std::numeric_limits<T>::min()] and [max()], and [(T)value]. *)
Definition T_min (T : int_type) : Z := if is_signed T then - 2 ^ (bits T - 1) else 0.
Definition T_max (T : int_type) : Z := if is_signed T then 2 ^ (bits T - 1) - 1 else 2 ^ bits T - 1.
Definition T_cast (T : int_type) (value : Z) : Z := if is_signed T then wraps (bits T) value else wrapu (bits T) value.

Definition float_less (x y : Z) : bool := less (of_float x) (of_float y).

(** [MathUtil::Clamp], by way of [std::min] and [std::max]. *)
Definition Clamp (val min max : Z) : Z :=
  let m := if float_less val max then val else max in
  if float_less min m then m else min.

Definition ScaleAndClamp (T : int_type) (v : env) (ps stScale : Z) : Z :=
  let convPS := float_mul v (to_float v ps) (nth (Z.to_nat stScale) m_quantizeTable 0) in
  let min := float_of_int v (T_min T) in
  let max := float_of_int v (T_max T) in
  truncate (of_float (Clamp convPS min max)).

(** [(float)(T)(value) * m_dequantizeTable[ldScale]] *)
Definition dequantized (T : int_type) (v : env) (value ldScale : Z) : Z :=
  float_mul v (float_of_int v (T_cast T value)) (nth (Z.to_nat ldScale) m_dequantizeTable 0).

(** ** Memory *)

Section Paired.
Context {D : Type} `{FpuHost} `{MmuHost D} `{LoadStoreHost D}.

Definition ReadUnpaired (w : Z) (addr : Z) : M D Z :=
  match w with 8 => Read_U8 addr | 16 => Read_U16 addr | _ => Read_U32 addr end.

Definition ReadPair (w : Z) (addr : Z) : M D (Z * Z) :=
  val ← match w with 8 => Read_U16 addr | 16 => Read_U32 addr | _ => Read_U64 addr end;
  mret (wrapu w (val .>> w), wrapu w val).

Definition WriteUnpaired (w : Z) (val addr : Z) : M D unit :=
  match w with 8 => Write_U8 val addr | 16 => Write_U16 val addr | _ => Write_U32 val addr end.

Definition WritePair (w : Z) (val1 val2 addr : Z) : M D unit :=
  let val := (val1 .<< w) .| val2 in
  match w with 8 => Write_U16 val addr | 16 => Write_U32 val addr | _ => Write_U64 val addr end.

(** The mode of the host, which the register decides. *)
Definition current_env : M D env := gets (fun m => host_env (cpu m)).

Definition QuantizeAndStore (T : int_type) (ps0 ps1 addr : Z) (instW : bool) (stScale : Z) : M D unit :=
  v ← current_env;
  let convPS0 := wrapu (bits T) (ScaleAndClamp T v ps0 stScale) in
  if instW then WriteUnpaired (bits T) convPS0 addr
  else let convPS1 := wrapu (bits T) (ScaleAndClamp T v ps1 stScale) in WritePair (bits T) convPS0 convPS1 addr.

Definition Helper_Quantize (addr instI instRS : Z) (instW : bool) : M D unit :=
  s ← gets cpu;
  let gqr := rSPR s (SPR_GQR0 + instI) in
  let stScale := st_scale gqr in
  let ps0 := riPS0 s instRS in
  let ps1 := riPS1 s instRS in
  match st_type gqr with
  | QUANTIZE_FLOAT =>
    let conv_ps0 := ConvertToSingleFTZ ps0 in
    if instW then WriteUnpaired 32 conv_ps0 addr else WritePair 32 conv_ps0 (ConvertToSingleFTZ ps1) addr
  | QUANTIZE_U8 => QuantizeAndStore T_u8 ps0 ps1 addr instW stScale
  | QUANTIZE_U16 => QuantizeAndStore T_u16 ps0 ps1 addr instW stScale
  | QUANTIZE_S8 => QuantizeAndStore T_s8 ps0 ps1 addr instW stScale
  | QUANTIZE_S16 => QuantizeAndStore T_s16 ps0 ps1 addr instW stScale
  | QUANTIZE_INVALID1 | QUANTIZE_INVALID2 | QUANTIZE_INVALID3 => assert_failed
  end.

Definition LoadAndDequantize (T : int_type) (addr : Z) (instW : bool) (ldScale : Z) : M D (Z * Z) :=
  if instW then
    value ← ReadUnpaired (bits T) addr;
    v ← current_env;
    mret (dequantized T v value ldScale, FLOAT_ONE)
  else
    value ← ReadPair (bits T) addr;
    v ← current_env;
    mret (dequantized T v value.1 ldScale, dequantized T v value.2 ldScale).

(** The floats become doubles in the registers. *)
Definition put_floats (i : Z) (ps : Z * Z) : PowerPCState -> PowerPCState := put_ps i (of_float ps.1) (of_float ps.2).

Definition Helper_Dequantize (addr instI instRD : Z) (instW : bool) : M D unit :=
  s ← gets cpu;
  let gqr := rSPR s (SPR_GQR0 + instI) in
  let ldScale := ld_scale gqr in
  ps ← match ld_type gqr with
       | QUANTIZE_FLOAT =>
         if instW then value ← ReadUnpaired 32 addr; mret (value, FLOAT_ONE) else ReadPair 32 addr
       | QUANTIZE_U8 => LoadAndDequantize T_u8 addr instW ldScale
       | QUANTIZE_U16 => LoadAndDequantize T_u16 addr instW ldScale
       | QUANTIZE_S8 => LoadAndDequantize T_s8 addr instW ldScale
       | QUANTIZE_S16 => LoadAndDequantize T_s16 addr instW ldScale
       | QUANTIZE_INVALID1 | QUANTIZE_INVALID2 | QUANTIZE_INVALID3 => assert_failed;; mret (0, 0)
       end;
  unless_DSI (put_floats instRD ps).

(** ** The instructions *)

Definition psq_EA (inst : Z) (s : PowerPCState) : Z :=
  if negb (RA inst =? 0) then u32 (rGPR s (RA inst) + SIMM_12 inst) else u32 (SIMM_12 inst).
Definition psq_EA_U (inst : Z) (s : PowerPCState) : Z := u32 (rGPR s (RA inst) + SIMM_12 inst).

(** [if (HID2.LSQE == 0) { GenerateProgramException(); return; }] *)
Definition with_LSQE (x : M D unit) : M D unit :=
  s ← gets cpu; if negb (Z.testbit (rSPR s SPR_HID2) HID2_LSQE) then registers GenerateProgramException else x.

Definition psq_l (inst : Z) : M D unit := with_LSQE (with_EA psq_EA inst (fun EA => Helper_Dequantize EA (I inst) (RD inst) (W inst))).
Definition psq_lu (inst : Z) : M D unit :=
  with_LSQE (with_EA psq_EA_U inst (fun EA => Helper_Dequantize EA (I inst) (RD inst) (W inst);; unless_DSI (put_update inst EA))).
Definition psq_st (inst : Z) : M D unit := with_LSQE (with_EA psq_EA inst (fun EA => Helper_Quantize EA (I inst) (RS inst) (W inst))).
Definition psq_stu (inst : Z) : M D unit :=
  with_LSQE (with_EA psq_EA_U inst (fun EA => Helper_Quantize EA (I inst) (RS inst) (W inst);; unless_DSI (put_update inst EA))).
Definition psq_lx (inst : Z) : M D unit := with_EA Helper_Get_EA_X inst (fun EA => Helper_Dequantize EA (Ix inst) (RD inst) (Wx inst)).
Definition psq_stx (inst : Z) : M D unit := with_EA Helper_Get_EA_X inst (fun EA => Helper_Quantize EA (Ix inst) (RS inst) (Wx inst)).
Definition psq_lux (inst : Z) : M D unit :=
  with_EA Helper_Get_EA_UX inst (fun EA => Helper_Dequantize EA (Ix inst) (RD inst) (Wx inst);; unless_DSI (put_update inst EA)).
Definition psq_stux (inst : Z) : M D unit :=
  with_EA Helper_Get_EA_UX inst (fun EA => Helper_Quantize EA (Ix inst) (RS inst) (Wx inst);; unless_DSI (put_update inst EA)).
End Paired.
