(* ===== verification/PpcQuantize.v ===== *)
(** What the quantised loads and stores of [PpcPaired] calculate: the number
    that an integer in memory stands for, the integer that a store makes of any
    operand, and the copy of memory that a load and a store of the same format
    make. *)

From S2P Require Import Prelude Memmap PpcCache PpcState PpcBat PpcTlb PpcMmu PpcFpu PpcFloat PpcFpArith PpcConvert PpcLoadStore PpcPaired.
Open Scope Z_scope.

(** ** Rounding and scaling *)

(** The same number with other units. *)
Lemma round_magnitude_shift f md neg m e k :
  0 <= m -> 0 <= k -> round_magnitude f md neg (m * 2 ^ k) e = round_magnitude f md neg m (e + k).
Proof.
  intros Hm Hk. pose proof (pow2_pos k Hk) as Pk. unfold round_magnitude. destruct (Z.eqb_spec m 0) as [-> |]; [done |].
  destruct (Z.eqb_spec (m * 2 ^ k) 0); [nia |]. rewrite Z.log2_mul_pow2 by lia.
  replace (e + (k + Z.log2 m) + 1 - prec f) with (e + k + Z.log2 m + 1 - prec f) by lia. set (e' := Z.max _ _).
  assert (E : (if e' <=? e then (m * 2 ^ k * 2 ^ (e - e'), false)
      else let d := 2 ^ (e' - e) in (m * 2 ^ k / d, round_up md neg (m * 2 ^ k / d) (m * 2 ^ k mod d) d)) =
    (if e' <=? e + k then (m * 2 ^ (e + k - e'), false)
      else let d := 2 ^ (e' - (e + k)) in (m / d, round_up md neg (m / d) (m mod d) d))); [| cbv zeta in E |- *; rewrite E; done].
  destruct (Z.leb_spec e' e) as [L | L], (Z.leb_spec e' (e + k)) as [L' | L']; try lia.
  - f_equal. rewrite <- Z.mul_assoc, <- Z.pow_add_r by lia. do 2 f_equal. lia.
  - cbv zeta. pose proof (pow2_pos (e' - e) ltac:(lia)) as Pd. replace (m * 2 ^ k) with (m * 2 ^ (e + k - e') * 2 ^ (e' - e)) by (rewrite <- Z.mul_assoc, <- Z.pow_add_r by lia; do 2 f_equal; lia).
    rewrite Z.div_mul, Z.mod_mul by lia. f_equal. unfold round_up. rewrite Z.mul_0_r. destruct md; cbn [andb orb negb]; rewrite ?andb_false_r; try done.
    destruct (Z.ltb_spec (2 ^ (e' - e)) 0), (Z.eqb_spec (2 ^ (e' - e)) 0); lia || done.
  - cbv zeta. set (d := 2 ^ (e' - (e + k))). assert (Pd : 0 < d) by (apply pow2_pos; lia).
    replace (2 ^ (e' - e)) with (d * 2 ^ k) by (subst d; rewrite <- Z.pow_add_r by lia; f_equal; lia).
    rewrite Z.div_mul_cancel_r, Z.mul_mod_distr_r by lia. f_equal. unfold round_up. set (r := m mod d). clearbody r.
    destruct md; try done.
    + f_equal; [| f_equal]; apply eq_true_iff_eq; rewrite ?Z.ltb_lt, ?Z.eqb_eq; nia.
    + do 2 f_equal. apply eq_true_iff_eq. rewrite !Z.eqb_eq. nia.
    + do 2 f_equal. apply eq_true_iff_eq. rewrite !Z.eqb_eq. nia.
Qed.

Lemma round_magnitude_same f md neg m1 e1 m2 e2 a b :
  0 <= m1 -> 0 <= m2 -> 0 <= a -> 0 <= b -> m1 * 2 ^ a = m2 * 2 ^ b -> e1 - a = e2 - b ->
  round_magnitude f md neg m1 e1 = round_magnitude f md neg m2 e2.
Proof.
  intros H1 H2 Ha Hb E Ee. replace e1 with ((e1 - a) + a) by lia. rewrite <- (round_magnitude_shift f md neg m1 (e1 - a) a) by done.
  rewrite E, Ee, round_magnitude_shift by done. f_equal. lia.
Qed.

(** ** Floats *)

Definition finite_float (x : Z) : bool := negb (single_exp x =? 255).

(** The parts of a float, as [round] makes it. *)
Lemma single_with_sign neg r :
  0 <= r < infinity binary32 ->
  let x := with_sign binary32 neg r in
  inu 32 x /\ finite_float x = true /\ single_value x = signed neg (magnitude 24 r) /\ Z.testbit x 31 = neg.
Proof.
  intros Hr x. change (infinity binary32) with (255 * 2 ^ 23) in Hr. set (e := r / 2 ^ 23). set (f := r mod 2 ^ 23).
  assert (He : inu 8 e /\ e < 255 /\ inu 23 f /\ r = e * 2 ^ 23 + f) by (subst e f; unfold inu; Z.to_euclidean_division_equations; lia).
  destruct He as (He & He' & Hf & Er).
  assert (Ex : x = b2z neg * 2 ^ 31 + e * 2 ^ 23 + f) by (subst x; unfold with_sign; change (sign_bit binary32) with (2 ^ 31); destruct neg; cbn [b2z]; lia).
  destruct (single_parts (b2z neg) e f ltac:(destruct neg; cbn; lia) He Hf) as (P1 & P2 & P3). rewrite <- Ex in P1, P2, P3. split; [done |].
  split; [unfold finite_float; rewrite P2; destruct (Z.eqb_spec e 255); lia || done |]. split.
  - rewrite P3. unfold magnitude. change (24 - 1) with 23. fold e f. unfold inu, signed in *.
    destruct (Z.eqb_spec e 0), (Z.ltb_spec r (2 ^ 23)); try lia; destruct neg; cbn [b2z]; rewrite ?(Z.add_comm f); lia.
  - pose proof (testbit_top 32 x ltac:(lia) P1) as T. change (32 - 1) with 31 in T. rewrite T, Ex. unfold inu in *. destruct neg; cbn [b2z]; [apply Z.leb_le | apply Z.leb_gt]; lia.
Qed.

Lemma single_bits x : inu 32 x -> finite_float x = true -> exists neg r, 0 <= r < infinity binary32 /\ x = with_sign binary32 neg r.
Proof.
  intros Hx F. destruct (single_split x Hx) as (s & e & f & Hs & He & Hf & Ex). destruct (single_parts s e f Hs He Hf) as (_ & P & _). rewrite <- Ex in P.
  unfold finite_float in F. rewrite P in F. apply negb_true_iff, Z.eqb_neq in F.
  exists (s =? 1), (e * 2 ^ 23 + f). unfold inu in *. change (infinity binary32) with (255 * 2 ^ 23). split; [lia |].
  rewrite Ex. unfold with_sign. change (sign_bit binary32) with (2 ^ 31). destruct (Z.eqb_spec s 1); lia.
Qed.

(** The double of a finite float. *)
Lemma of_float_value x :
  inu 32 x -> finite_float x = true ->
  let a := of_float x in
  inu 64 a /\ finite a = true /\ double_value a = single_value x * 2 ^ 925 /\ negative a = Z.testbit x 31 /\
  significand a * 2 ^ (exponent a + 1074) = Z.abs (single_value x) * 2 ^ 925.
Proof.
  intros Hx F a. destruct (load_conversion x Hx) as (C1 & _ & C2). unfold finite_float in F. apply negb_true_iff, Z.eqb_neq in F.
  destruct (Z.eqb_spec (single_exp x) 255); [done |]. destruct C2 as [C2 C3].
  assert (Fa : finite (ConvertToDouble x) = true) by (unfold finite; destruct (Z.eqb_spec (double_exp (ConvertToDouble x)) 2047); done).
  assert (Ea : a = ConvertToDouble x) by (subst a; unfold of_float; rewrite (proj1 (finite_operand _ C1 Fa)); done).
  rewrite Ea. assert (N : negative (ConvertToDouble x) = Z.testbit x 31).
  { destruct (single_split x Hx) as (s & e & f & Hs & He & Hf & Ex). pose proof (testbit_top 32 x ltac:(lia) Hx) as T. change (32 - 1) with 31 in T.
    pose proof (testbit_top 64 _ ltac:(lia) C1) as T'. change (64 - 1) with 63 in T'. unfold negative. rewrite T, T'. rewrite Ex. unfold inu in *.
    destruct (Z.eqb_spec e 0) as [-> |], (Z.eqb_spec f 0) as [-> |].
    1, 3, 4: rewrite ConvertToDouble_wide by (unfold inu; lia); unfold wide_exp; repeat case_match; apply eq_true_iff_eq; rewrite !Z.leb_le; nia.
    destruct (ConvertToDouble_subnormal s f Hs ltac:(lia)) as (k & Hk & Rk & Eq). rewrite Z.mul_0_l, Z.add_0_r, Eq. apply eq_true_iff_eq. rewrite !Z.leb_le.
    clear - Hs Hf Hk Rk. generalize dependent (f * 2 ^ k). intros g Rg. lia. }
  split_and!; [done | done | done | done |]. rewrite <- (Z.abs_eq (2 ^ 925)), <- Z.abs_mul, <- C3 by (apply Z.pow_nonneg; lia).
  rewrite double_value_signed. pose proof (significand_range (ConvertToDouble x)). pose proof (exponent_range (ConvertToDouble x)).
  pose proof (pow2_pos (exponent (ConvertToDouble x) + 1074) ltac:(lia)). unfold signed. destruct (negative _); nia.
Qed.

(** ** Products with a power of two *)

(** The exponent of a scale. *)
Definition scale_exponent (s : Z) : Z := if s <? 32 then s else s - 64.

Definition power_ok (p j : Z) : bool :=
  let b := of_float p in negb (isnan b) && negb (isinf b) && negb (is_zero b) && negb (negative b) && (significand b =? 2 ^ 52) && (exponent b =? j - 52).

Lemma powers_ok : forallb (fun n => let j := scale_exponent (Z.of_nat n) in power_ok (nth n m_quantizeTable 0) j && power_ok (nth n m_dequantizeTable 0) (- j)) (seq 0 64) = true.
Proof. vm_compute. reflexivity. Qed.

Lemma power_tables s :
  0 <= s < 64 -> let j := scale_exponent s in
  -32 <= j <= 31 /\ power_ok (nth (Z.to_nat s) m_quantizeTable 0) j = true /\ power_ok (nth (Z.to_nat s) m_dequantizeTable 0) (- j) = true.
Proof.
  intros Hs j. split; [subst j; unfold scale_exponent; case_match; lia |].
  pose proof (proj1 (forallb_forall _ _) powers_ok (Z.to_nat s) ltac:(apply in_seq; lia)) as P. cbv beta zeta in P. rewrite Z2Nat.id in P by lia. apply andb_true_iff in P. exact P.
Qed.

(** A float is its sign and an integer of 24 bits times a power of two. *)
Lemma single_form x : inu 32 x -> finite_float x = true ->
  exists m k, 0 <= m < 2 ^ 24 /\ 0 <= k <= 253 /\ single_value x = signed (Z.testbit x 31) (m * 2 ^ k).
Proof.
  intros Hx F. destruct (single_split x Hx) as (s & e & f & Hs & He & Hf & Ex). destruct (single_parts s e f Hs He Hf) as (_ & P & V). rewrite <- Ex in P, V.
  unfold finite_float in F. rewrite P in F. apply negb_true_iff, Z.eqb_neq in F. pose proof (testbit_top 32 x ltac:(lia) Hx) as T. change (32 - 1) with 31 in T.
  assert (B : Z.testbit x 31 = (s =? 1)) by (rewrite T, Ex; unfold inu in *; destruct (Z.eqb_spec s 1); [apply Z.leb_le | apply Z.leb_gt]; lia).
  rewrite B, V. unfold inu in *. destruct (Z.eqb_spec e 0).
  - exists f, 0. split_and!; [lia .. |]. unfold signed. change (2 ^ 0) with 1. destruct (Z.eqb_spec s 1); [| assert (s = 0) as -> by lia]; nia.
  - exists (2 ^ 23 + f), (e - 1). split_and!; [lia .. |]. unfold signed. destruct (Z.eqb_spec s 1) as [-> |]; [| assert (s = 0) as -> by lia]; ring.
Qed.

Lemma float_mul_power v x p j m k :
  inu 32 x -> finite_float x = true -> power_ok p j = true -> -32 <= j <= 32 -> 0 <= m -> 0 <= k -> single_value x = signed (Z.testbit x 31) (m * 2 ^ k) ->
  float_mul v x p = round binary32 v (Z.testbit x 31) m (k - 149 + j).
Proof.
  intros Hx F P Hj Hm Hk Hv. destruct (of_float_value x Hx F) as (A1 & A2 & _ & A3 & A4).
  assert (AV : Z.abs (single_value x) = m * 2 ^ k) by (rewrite Hv; pose proof (pow2_pos k Hk); unfold signed; destruct (Z.testbit x 31); nia). rewrite AV in A4.
  unfold power_ok in P. rewrite !andb_true_iff in P. destruct P as [[[[[P0 P1] _] P2] P3] P4]. apply Z.eqb_eq in P3, P4. apply negb_true_iff in P0, P1, P2.
  destruct (finite_operand _ A1 A2) as [N1 I1]. unfold float_mul. rewrite A3, N1, I1, P0, P1, P2, xorb_false_r.
  cbn [orb]. unfold round. do 2 f_equal. rewrite P3, P4.
  apply (round_magnitude_same binary32 (mode v) _ _ _ m _ (exponent (of_float x) + 1074) (k + 52 + 925)).
  - pose proof (significand_range (of_float x)). lia.
  - done.
  - pose proof (exponent_range (of_float x)). lia.
  - lia.
  - replace (k + 52 + 925) with (k + 925 + 52) by lia. rewrite (Z.pow_add_r 2 (k + 925)), (Z.pow_add_r 2 k) by lia.
    replace (significand (of_float x) * 2 ^ 52 * 2 ^ (exponent (of_float x) + 1074)) with (significand (of_float x) * 2 ^ (exponent (of_float x) + 1074) * 2 ^ 52) by ring.
    rewrite A4. ring.
  - lia.
Qed.

(** How an integer of 24 bits times a power of two rounds: exactly, or to
    something small when it is small, or to something large when it is large.
    Units are [2 ^ -64] of the least float. *)
Inductive rounded (neg : bool) (x : Z) (r : Z) : Prop :=
  | rounded_exact : inu 32 r -> finite_float r = true -> single_value r * 2 ^ 64 = signed neg x -> rounded neg x r
  | rounded_small : inu 32 r -> finite_float r = true -> Z.abs (single_value r) <= 2 ^ 23 -> 0 <= x < 2 ^ 24 * 2 ^ 64 -> rounded neg x r
  | rounded_greatest : inu 32 r -> finite_float r = true -> single_value r = signed neg ((2 ^ 24 - 1) * 2 ^ 253) -> 2 ^ 277 * 2 ^ 64 <= x -> rounded neg x r
  | rounded_infinite : r = with_sign binary32 neg (infinity binary32) -> 2 ^ 277 * 2 ^ 64 <= x -> rounded neg x r.

Lemma magnitude_small b : 0 <= b <= 2 ^ 23 -> magnitude 24 b <= 2 ^ 23.
Proof. intros Hb. pose proof (magnitude_mono 24 eq_refl b (2 ^ 23) ltac:(lia) ltac:(lia)) as M. change (magnitude 24 (2 ^ 23)) with (2 ^ 23) in M. exact M. Qed.

(** What is known of the bits of the result gives its value. *)
Lemma finite_bits (neg : bool) b : 0 <= b < infinity binary32 -> inu 32 (with_sign binary32 neg b) /\ finite_float (with_sign binary32 neg b) = true /\ single_value (with_sign binary32 neg b) = signed neg (magnitude 24 b).
Proof. intros Hb. destruct (single_with_sign neg b Hb) as (H1 & H2 & H3 & _). done. Qed.

Lemma small_bits (neg : bool) b x : 0 <= b <= 2 ^ 23 -> 0 <= x < 2 ^ 24 * 2 ^ 64 -> rounded neg x (with_sign binary32 neg b).
Proof.
  intros Hb Hx. destruct (finite_bits neg b ltac:(change (infinity binary32) with (255 * 2 ^ 23); lia)) as (H1 & H2 & H3). apply rounded_small; [done | done | | done].
  rewrite H3. pose proof (magnitude_small b Hb). pose proof (magnitude_nonneg 24 eq_refl b ltac:(lia)). unfold signed. destruct neg; lia.
Qed.

Lemma large_bits md (neg : bool) x : 2 ^ 277 * 2 ^ 64 <= x ->
  rounded neg x (with_sign binary32 neg (match md with
    | Nearest => infinity binary32 | TowardsZero => infinity binary32 - 1
    | TowardsPositiveInfinity => if neg then infinity binary32 - 1 else infinity binary32
    | TowardsNegativeInfinity => if neg then infinity binary32 else infinity binary32 - 1 end)).
Proof.
  intros Hx. assert (G : rounded neg x (with_sign binary32 neg (infinity binary32 - 1))).
  { destruct (finite_bits neg (infinity binary32 - 1) ltac:(split; done)) as (H1 & H2 & H3). apply rounded_greatest; [done | done | exact H3 | done]. }
  assert (I : rounded neg x (with_sign binary32 neg (infinity binary32))) by (apply rounded_infinite; done).
  destruct md; [exact I | exact G | destruct neg; [exact G | exact I] | destruct neg; [exact I | exact G]].
Qed.

Lemma round_cases v neg m e :
  0 <= m < 2 ^ 24 -> -181 <= e -> rounded neg (m * 2 ^ (e + 213)) (round binary32 v neg m e).
Proof.
  intros Hm He. unfold round. pose proof (pow2_pos (e + 213) ltac:(lia)) as P213.
  destruct (Z.eq_dec m 0) as [-> | Nm].
  { change (round_magnitude binary32 (mode v) neg 0 e) with 0. replace (flushed binary32 v 0) with 0 by (unfold flushed; case_match; done). apply small_bits; lia. }
  unfold round_magnitude. destruct (Z.eqb_spec m 0); [done |]. destruct (kept_exponent binary32 m e eq_refl ltac:(lia)) as [K1 K2].
  change (prec binary32) with 24 in *. change (emin binary32) with (-149) in *. change (24 - 1) with 23 in *.
  assert (L : Z.log2 m < 24) by (apply Z.log2_lt_pow2; lia). pose proof (Z.log2_nonneg m) as L0. set (e' := Z.max _ _) in *.
  destruct (Z.leb_spec e' e) as [Le | Le].
  - destruct (K1 Le) as [Kq Kr]. set (q := m * 2 ^ (e - e')) in *. set (E := e' - -149). change (b2z false) with 0. rewrite Z.add_0_r.
    assert (Ex : m * 2 ^ (e + 213) = q * 2 ^ E * 2 ^ 64) by (subst q E; rewrite <- !Z.mul_assoc, <- !Z.pow_add_r by lia; do 2 f_equal; lia).
    assert (Eq : magnitude 24 (E * 2 ^ 23 + q) = q * 2 ^ E) by (apply (magnitude_encode 24 eq_refl); [lia | destruct Kq; [left; lia | right; done] | lia]).
    assert (Hb : 0 <= E * 2 ^ 23 + q) by lia. destruct (Z.leb_spec (infinity binary32) (E * 2 ^ 23 + q)) as [G | G].
    + unfold flushed. assert (X : 2 ^ 277 * 2 ^ 64 <= m * 2 ^ (e + 213)).
      { rewrite Ex. apply Z.mul_le_mono_nonneg_r; [done |]. change (infinity binary32) with (255 * 2 ^ 23) in G.
        assert (HE : 254 <= E) by lia. destruct Kq as [Kq | Kq]; [lia |]. replace (2 ^ 277) with (2 ^ 23 * 2 ^ 254) by (rewrite <- Z.pow_add_r by lia; done).
        apply Z.mul_le_mono_nonneg; [lia | done | lia | apply Z.pow_le_mono_r; lia]. }
      pose proof (large_bits (mode v) neg _ X) as R. set (b := match mode v with Nearest => _ | _ => _ end) in *.
      assert (Nb : (b <? 2 ^ (prec binary32 - 1)) = false) by (subst b; destruct (mode v), neg; done). rewrite Nb, andb_false_r. exact R.
    + unfold flushed. change (prec binary32 - 1) with 23. destruct (flush v && (E * 2 ^ 23 + q <? 2 ^ 23)) eqn:Fl.
      * apply andb_true_iff in Fl. destruct Fl as [_ Fl]. apply Z.ltb_lt in Fl. apply small_bits; [lia |]. rewrite Ex, <- Eq. pose proof (magnitude_small (E * 2 ^ 23 + q) ltac:(lia)). rewrite Eq in *. lia.
      * destruct (finite_bits neg (E * 2 ^ 23 + q) ltac:(lia)) as (H1 & H2 & H3). apply rounded_exact; [done | done |]. rewrite H3, Eq, Ex. unfold signed. destruct neg; lia.
  - assert (e' = -149) by lia. assert (Hq : 0 <= m / 2 ^ (e' - e) < 2 ^ 23).
    { pose proof (pow2_pos (e' - e) ltac:(lia)) as Pd. split; [apply Z.div_pos; lia |]. apply Z.div_lt_upper_bound; [done |]. assert (2 ^ 1 <= 2 ^ (e' - e)) by (apply Z.pow_le_mono_r; lia). lia. }
    cbv zeta. set (up := round_up _ _ _ _ _). set (q := m / 2 ^ (e' - e)) in *. replace (e' - -149) with 0 by lia.
    destruct (Z.leb_spec (infinity binary32) (0 * 2 ^ 23 + q + b2z up)) as [G |]; [change (infinity binary32) with (255 * 2 ^ 23) in G; destruct up; cbn [b2z] in G; lia |].
    assert (Hx : 0 <= m * 2 ^ (e + 213) < 2 ^ 24 * 2 ^ 64).
    { assert (2 ^ (e + 213) <= 2 ^ 64) by (apply Z.pow_le_mono_r; lia). nia. }
    unfold flushed. case_match; apply small_bits; try lia. destruct up; cbn [b2z]; lia.
Qed.

(** ** The clamp *)

Definition int_types : list int_type := [T_u8; T_u16; T_s8; T_s16].
Definition clamped (T : int_type) (y : Z) : Z := Z.max (T_min T) (Z.min (T_max T) y).

Lemma T_range T : In T int_types -> - 2 ^ 16 < T_min T <= 0 /\ 0 <= T_max T < 2 ^ 16.
Proof. cbn. intros HT. destruct_or! HT; subst; done. Qed.

Lemma float_of_int_value v n : Z.abs n < 2 ^ 24 -> inu 32 (float_of_int v n) /\ finite_float (float_of_int v n) = true /\ single_value (float_of_int v n) = n * 2 ^ 149.
Proof.
  intros Hn. destruct (Z.eq_dec n 0) as [-> | N0].
  { assert (E : float_of_int v 0 = 0) by (unfold float_of_int, round, flushed; cbn; destruct (flush v); done). rewrite E. split_and!; done. }
  pose proof (round_cases v (n <? 0) (Z.abs n) 0 ltac:(lia) ltac:(lia)) as R. change (0 + 213) with 213 in R. fold (float_of_int v n) in R.
  destruct R as [R1 R2 R3 | R1 R2 R3 R4 | R1 R2 R3 R4 | R1 R4]; try (change (2 ^ 213) with (2 ^ 24 * 2 ^ 64 * 2 ^ 125) in R4; lia);
    try (assert (Z.abs n * 2 ^ 213 < 2 ^ 24 * 2 ^ 213) by (apply Z.mul_lt_mono_pos_r; done); change (2 ^ 277 * 2 ^ 64) with (2 ^ 24 * 2 ^ 213 * 2 ^ 104) in R4; lia).
  split_and!; [done | done |]. apply (Z.mul_cancel_r _ _ (2 ^ 64)); [done |]. rewrite R3. change (2 ^ 213) with (2 ^ 149 * 2 ^ 64). unfold signed. destruct (Z.ltb_spec n 0); lia.
Qed.

Lemma quot_clamp a b x c : 0 < c -> a <= 0 -> 0 <= b -> Z.quot (Z.max (a * c) (Z.min (b * c) x)) c = Z.max a (Z.min b (Z.quot x c)).
Proof.
  intros Hc Ha Hb. destruct (Z.le_gt_cases (b * c) x) as [L | L].
  - rewrite (Z.min_l (b * c)) by lia. pose proof (Z.quot_le_mono (b * c) x c Hc L) as Q. rewrite Z.quot_mul in Q by lia. rewrite Z.max_r, Z.quot_mul by nia. lia.
  - pose proof (Z.quot_le_mono x (b * c) c Hc ltac:(lia)) as Q. rewrite Z.quot_mul in Q by lia. rewrite (Z.min_r (b * c)), (Z.min_r b) by lia. destruct (Z.le_gt_cases (a * c) x) as [L' | L'].
    + pose proof (Z.quot_le_mono (a * c) x c Hc L') as Q'. rewrite Z.quot_mul in Q' by lia. rewrite !Z.max_r by lia. done.
    + pose proof (Z.quot_le_mono x (a * c) c Hc ltac:(lia)) as Q'. rewrite Z.quot_mul in Q' by lia. rewrite !Z.max_l, Z.quot_mul by lia. done.
Qed.

Lemma truncate_Clamp T v r :
  In T int_types -> inu 64 (of_float r) -> isnan (of_float r) = false ->
  truncate (of_float (Clamp r (float_of_int v (T_min T)) (float_of_int v (T_max T)))) = clamped T (truncate (of_float r)).
Proof.
  intros HT Hr Nr. destruct (T_range T HT) as [R1 R2]. destruct (float_of_int_value v (T_min T) ltac:(lia)) as (A1 & A2 & A3). destruct (float_of_int_value v (T_max T) ltac:(lia)) as (B1 & B2 & B3).
  destruct (of_float_value _ A1 A2) as (A4 & A5 & A6 & _). destruct (of_float_value _ B1 B2) as (B4 & B5 & B6 & _). rewrite A3 in A6. rewrite B3 in B6.
  destruct (finite_operand _ A4 A5) as [A7 _]. destruct (finite_operand _ B4 B5) as [B7 _]. set (lo := float_of_int v (T_min T)) in *. set (hi := float_of_int v (T_max T)) in *.
  assert (E1 : forall n, n * 2 ^ 149 * 2 ^ 925 = n * ONE) by (intros; rewrite <- Z.mul_assoc; unfold ONE; rewrite <- Z.pow_add_r by lia; done). rewrite E1 in A6, B6.
  rewrite !truncate_quot. unfold clamped. rewrite <- quot_clamp by (apply ONE_pos || lia). f_equal. unfold Clamp, float_less. rewrite (less_value (of_float r) (of_float hi)), B6 by done. pose proof ONE_pos.
  destruct (Z.ltb_spec (double_value (of_float r)) (T_max T * ONE)); rewrite less_value, ?A6, ?B6 by done;
    match goal with |- context [if ?a <? ?b then _ else _] => destruct (Z.ltb_spec a b) end; rewrite ?A6, ?B6; nia.
Qed.

(** What the scaled float is, as an integer. *)
Definition scaled (f j : Z) : Z := Z.quot (single_value f * 2 ^ (64 + j)) (2 ^ 213).

Lemma truncate_of_float r : inu 32 r -> finite_float r = true -> truncate (of_float r) = Z.quot (single_value r) (2 ^ 149) /\ inu 64 (of_float r) /\ isnan (of_float r) = false.
Proof.
  intros Hr F. destruct (of_float_value r Hr F) as (A1 & A2 & A3 & _). destruct (finite_operand _ A1 A2) as [A4 _]. split_and!; [| done | done].
  rewrite truncate_quot, A3. unfold ONE. replace (2 ^ 1074) with (2 ^ 149 * 2 ^ 925) by (rewrite <- Z.pow_add_r by lia; done). apply Z.quot_mul_cancel_r; [done | apply Z.pow_nonzero; lia].
Qed.

Lemma of_float_infinite neg : isnan (of_float (with_sign binary32 neg (infinity binary32))) = false /\ inu 64 (of_float (with_sign binary32 neg (infinity binary32))) /\
  truncate (of_float (with_sign binary32 neg (infinity binary32))) = signed neg (2 ^ 1024).
Proof. destruct neg; split_and!; vm_compute; done. Qed.

Lemma clamped_large T neg a b : In T int_types -> 2 ^ 16 <= a -> 2 ^ 16 <= b -> clamped T (signed neg a) = clamped T (signed neg b).
Proof. intros HT Ha Hb. pose proof (T_range T HT). unfold clamped, signed. destruct neg; lia. Qed.

Lemma quot_of_signed neg x c : 0 <= x -> 0 < c -> Z.quot (signed neg x) c = signed neg (x / c).
Proof. intros. unfold signed. destruct neg; [rewrite Z.quot_opp_l by lia; f_equal |]; apply Z.quot_div_nonneg; lia. Qed.

Lemma quantized_finite T v f p j :
  In T int_types -> inu 32 f -> finite_float f = true -> power_ok p j = true -> -32 <= j <= 32 ->
  truncate (of_float (Clamp (float_mul v f p) (float_of_int v (T_min T)) (float_of_int v (T_max T)))) = clamped T (scaled f j).
Proof.
  intros HT Hf F P Hj. destruct (single_form f Hf F) as (m & k & Hm & Hk & Vf). rewrite (float_mul_power v f p j m k) by (done || lia).
  pose proof (round_cases v (Z.testbit f 31) m (k - 149 + j) Hm ltac:(lia)) as R. replace (k - 149 + j + 213) with (k + (64 + j)) in R by lia.
  set (neg := Z.testbit f 31) in *. set (r := round _ _ _ _ _) in *. unfold scaled. rewrite Vf.
  assert (E : signed neg (m * 2 ^ k) * 2 ^ (64 + j) = signed neg (m * 2 ^ (k + (64 + j)))) by (rewrite (Z.pow_add_r 2 k) by lia; unfold signed; destruct neg; ring).
  rewrite E. assert (Px : 0 <= m * 2 ^ (k + (64 + j))) by (pose proof (pow2_pos (k + (64 + j)) ltac:(lia)); nia). set (x := m * 2 ^ (k + (64 + j))) in *.
  destruct R as [R1 R2 R3 | R1 R2 R3 R4 | R1 R2 R3 R4 | R1 R4].
  - destruct (truncate_of_float r R1 R2) as (T1 & T2 & T3). rewrite truncate_Clamp, T1, <- R3 by done. change (2 ^ 213) with (2 ^ 149 * 2 ^ 64). rewrite Z.quot_mul_cancel_r by done. done.
  - destruct (truncate_of_float r R1 R2) as (T1 & T2 & T3). rewrite truncate_Clamp, T1, quot_of_signed by done. rewrite (Z.div_small x) by (change (2 ^ 213) with (2 ^ 24 * 2 ^ 64 * 2 ^ 125); lia).
    replace (Z.quot (single_value r) (2 ^ 149)) with 0; [unfold signed; destruct neg; done |]. symmetry. assert (2 ^ 23 < 2 ^ 149) by done. Z.quot_rem_to_equations. nia.
  - destruct (truncate_of_float r R1 R2) as (T1 & T2 & T3). rewrite truncate_Clamp, T1, R3, !quot_of_signed by done. apply clamped_large; [done | vm_compute; done |].
    apply Z.div_le_lower_bound; [done |]. eapply Z.le_trans; [| exact R4]. vm_compute. done.
  - rewrite R1. destruct (of_float_infinite neg) as (I1 & I2 & I3). rewrite truncate_Clamp, I3, quot_of_signed by done. apply clamped_large; [done | vm_compute; done |].
    apply Z.div_le_lower_bound; [done |]. eapply Z.le_trans; [| exact R4]. vm_compute. done.
Qed.

(** ** Operands that have no finite float *)

Lemma isnan_of_parts a : inu 64 a -> double_exp a = 2047 -> field 0 52 a <> 0 -> isnan a = true.
Proof.
  intros Ha He Hf. destruct (double_split a Ha) as (s & e & f & Hs & Hes & Hfs & Ea). destruct (double_parts s e f Hs Hes Hfs) as (_ & P1 & P2 & _).
  destruct (double_fields s e f Hs Hes Hfs) as (_ & D2 & _). destruct (operand_fields s e f Hs Hes Hfs) as (_ & _ & O3). rewrite <- Ea in P1, P2, D2, O3.
  unfold isnan. change DOUBLE_EXP with (0x7FF .<< 52). rewrite D2, O3, <- P1, He. rewrite P2 in Hf. destruct (Z.eqb_spec f 0); done.
Qed.

Lemma isnan_to_float v x : isnan x = true -> isnan (of_float (to_float v x)) = true.
Proof.
  intros N. unfold to_float. rewrite N. pose proof (field_range 0 52 x ltac:(lia)) as R. unfold inu in R. rewrite Z.shiftr_div_pow2 by lia.
  set (fr := field 0 52 x / 2 ^ 29). assert (Hfr : 0 <= fr < 2 ^ 23) by (subst fr; Z.to_euclidean_division_equations; lia). clearbody fr.
  set (g := 0x400000 .| fr). assert (Hg : 2 ^ 22 <= g < 2 ^ 23).
  { subst g. split.
    - pose proof (land_le_r (0x400000 .| fr) 0x400000 ltac:(lia)). assert (E : (0x400000 .| fr) .& 0x400000 = 0x400000).
      { apply Z.bits_inj'. intros i Hi. rewrite Z.land_spec, Z.lor_spec. destruct (Z.testbit 0x400000 i); [done | apply andb_false_r]. }
      assert (0 <= 0x400000 .| fr) by (apply Z.lor_nonneg; lia). pose proof (land_le_r 0x400000 (0x400000 .| fr) ltac:(lia)) as L. rewrite Z.land_comm, E in L. lia.
    - assert (I : inu 23 (0x400000 .| fr)) by (apply inu_lor; [lia | unfold inu; lia | done]). unfold inu in I. lia. }
  assert (Eg : infinity binary32 .| 0x400000 .| fr = 255 * 2 ^ 23 + g).
  { rewrite <- Z.lor_assoc. fold g. change (infinity binary32) with (255 .<< 23). apply lor_shift_add; lia. }
  rewrite Eg. set (s := b2z (negative x)). assert (Ey : with_sign binary32 (negative x) (255 * 2 ^ 23 + g) = s * 2 ^ 31 + 255 * 2 ^ 23 + g).
  { unfold with_sign. change (sign_bit binary32) with (2 ^ 31). subst s. destruct (negative x); cbn [b2z]; lia. }
  rewrite Ey. assert (Hs : 0 <= s <= 1) by (subst s; destruct (negative x); cbn; lia). destruct (single_parts s 255 g Hs ltac:(unfold inu; lia) ltac:(unfold inu; lia)) as (Y1 & Y2 & _).
  set (y := s * 2 ^ 31 + 255 * 2 ^ 23 + g) in *. destruct (load_conversion y Y1) as (C1 & _ & C2). rewrite Y2 in C2. change (255 =? 255) with true in C2. cbv iota in C2. destruct C2 as [C2 C3].
  assert (Fy : field 0 23 y = g) by (rewrite field_mod by lia; subst y; Z.to_euclidean_division_equations; lia). rewrite Fy in C3.
  assert (Nc : isnan (ConvertToDouble y) = true) by (apply isnan_of_parts; [done | done | rewrite C3; lia]).
  unfold of_float. rewrite Nc. apply isnan_MakeQuiet. done.
Qed.

Lemma Clamp_nan T v r : In T int_types -> isnan (of_float r) = true -> truncate (of_float (Clamp r (float_of_int v (T_min T)) (float_of_int v (T_max T)))) = T_max T.
Proof.
  intros HT N. destruct (T_range T HT) as [R1 R2]. destruct (float_of_int_value v (T_min T) ltac:(lia)) as (A1 & A2 & A3). destruct (float_of_int_value v (T_max T) ltac:(lia)) as (B1 & B2 & B3).
  destruct (of_float_value _ A1 A2) as (A4 & A5 & A6 & _). destruct (of_float_value _ B1 B2) as (B4 & B5 & B6 & _). rewrite A3 in A6. rewrite B3 in B6.
  destruct (finite_operand _ A4 A5) as [A7 _]. destruct (finite_operand _ B4 B5) as [B7 _]. destruct (truncate_of_float _ B1 B2) as [T1 _].
  unfold Clamp. assert (L1 : float_less r (float_of_int v (T_max T)) = false) by (unfold float_less, less; rewrite N; done).
  assert (L2 : float_less (float_of_int v (T_min T)) (float_of_int v (T_max T)) = true).
  { unfold float_less. rewrite less_value, A6, B6 by done. apply Z.ltb_lt. rewrite <- !Z.mul_assoc. apply Z.mul_lt_mono_pos_r; [vm_compute; done |].
    cbn in HT. destruct_or! HT; subst; done. }
  rewrite L1, L2, T1, B3. apply Z.quot_mul. done.
Qed.

(** ** The values *)

(** Four signs of a number's float: a NaN, an infinity, and the rest. *)
Lemma to_float_range v x : isnan x = false -> inu 64 x ->
  let f := to_float v x in (inu 32 f /\ finite_float f = true) \/ f = with_sign binary32 (negative x) (infinity binary32).
Proof.
  intros N Hx f. subst f. unfold to_float. rewrite N. destruct (isinf x); [by right |]. pose proof (significand_range x) as S. unfold round.
  pose proof (round_magnitude_range binary32 (mode v) (negative x) (significand x) (exponent x) eq_refl eq_refl ltac:(lia)) as R.
  set (b := round_magnitude _ _ _ _ _) in *. set (b' := flushed binary32 v b).
  assert (Hb : 0 <= b' <= infinity binary32) by (subst b'; unfold flushed; case_match; [split; done | done]).
  destruct (Z.eq_dec b' (infinity binary32)) as [E | E]; [right; rewrite E; done | left]. destruct (finite_bits (negative x) b' ltac:(lia)) as (H1 & H2 & _). done.
Qed.

Lemma float_of_int_sign v n : Z.abs n < 2 ^ 24 -> n * 2 ^ 149 = signed (Z.testbit (float_of_int v n) 31) (Z.abs n * 2 ^ 149).
Proof.
  intros Hn. destruct (float_of_int_value v n Hn) as (H1 & H2 & H3). destruct (single_form _ H1 H2) as (m & k & Hm & Hk & E). rewrite H3 in E.
  assert (P : 0 <= m * 2 ^ k) by (pose proof (pow2_pos k ltac:(lia)); nia). unfold signed in *. destruct (Z.testbit _ _); lia.
Qed.

(** A loaded integer, exactly. *)
Lemma dequantized_value T v value s :
  In T int_types -> 0 <= s < 64 -> let r := dequantized T v value s in
  inu 32 r /\ finite_float r = true /\ single_value r = T_cast T value * 2 ^ (149 - scale_exponent s).
Proof.
  intros HT Hs r. destruct (power_tables s Hs) as (Hj & _ & P). set (j := scale_exponent s) in *.
  assert (Hn : Z.abs (T_cast T value) < 2 ^ 24).
  { cbn in HT. destruct_or! HT; subst T; unfold T_cast; cbn [is_signed bits T_u8 T_u16 T_s8 T_s16]; pose proof (wrapu_range 8 value ltac:(lia)); pose proof (wrapu_range 16 value ltac:(lia));
      pose proof (wraps_range 8 value ltac:(lia)); pose proof (wraps_range 16 value ltac:(lia)); unfold inu, ins in *; lia. }
  subst r. unfold dequantized. set (n := T_cast T value) in *. clearbody n. destruct (float_of_int_value v n Hn) as (H1 & H2 & H3). pose proof (float_of_int_sign v n Hn) as Hsg. rewrite <- H3 in Hsg.
  rewrite (float_mul_power v _ _ (- j) (Z.abs n) 149) by (done || lia). set (neg := Z.testbit _ 31) in *. rewrite H3 in Hsg.
  destruct (Z.eq_dec n 0) as [-> | N0].
  { unfold round. change (round_magnitude binary32 (mode v) neg (Z.abs 0) (149 - 149 + - j)) with 0. replace (flushed binary32 v 0) with 0 by (unfold flushed; case_match; done).
    destruct (finite_bits neg 0 ltac:(split; done)) as (F1 & F2 & F3). split_and!; [done | done |]. rewrite F3. destruct neg; done. }
  pose proof (round_cases v neg (Z.abs n) (149 - 149 + - j) ltac:(lia) ltac:(lia)) as R. replace (149 - 149 + - j + 213) with (149 - j + 64) in R by lia.
  rewrite Z.pow_add_r in R by lia. set (u := 2 ^ (149 - j)) in *. assert (U : 2 ^ 118 <= u <= 2 ^ 181) by (split; apply Z.pow_le_mono_r; lia).
  destruct R as [R1 R2 R3 | R1 R2 R3 R4 | R1 R2 R3 R4 | R1 R4].
  - split_and!; [done | done |]. unfold signed in *. destruct neg; nia.
  - exfalso. assert (2 ^ 118 * 2 ^ 64 <= Z.abs n * (u * 2 ^ 64)) by nia. assert (2 ^ 24 * 2 ^ 64 < 2 ^ 118 * 2 ^ 64) by done. lia.
  - exfalso. assert (Z.abs n * (u * 2 ^ 64) <= 2 ^ 24 * (2 ^ 181 * 2 ^ 64)) by nia. assert (2 ^ 24 * (2 ^ 181 * 2 ^ 64) < 2 ^ 277 * 2 ^ 64) by done. lia.
  - exfalso. assert (Z.abs n * (u * 2 ^ 64) <= 2 ^ 24 * (2 ^ 181 * 2 ^ 64)) by nia. assert (2 ^ 24 * (2 ^ 181 * 2 ^ 64) < 2 ^ 277 * 2 ^ 64) by done. lia.
Qed.

(** C32: Quantised values. For the four integer types and the 64 scales, a load
    makes of an integer in memory the double that is exactly the integer times
    the scale's power of two. A store makes of any operand the integer part of
    the operand's float times the power, saturated to the type; the
    intermediate float product, its underflows and its rounding do not show. An
    infinity becomes the limit on its side, and a NaN the greatest integer. *)
Theorem quantised_values T v s :
  In T int_types -> 0 <= s < 64 ->
  let j := scale_exponent s in
  (forall value, finite (of_float (dequantized T v value s)) = true /\ double_value (of_float (dequantized T v value s)) = T_cast T value * 2 ^ (1074 - j)) /\
  (forall x, inu 64 x -> let f := to_float v x in
     ScaleAndClamp T v x s =
       if isnan x then T_max T
       else if finite_float f then clamped T (Z.quot (single_value f * 2 ^ (64 + j)) (2 ^ 213))
       else if negative x then T_min T else T_max T).
Proof.
  intros HT Hs j. destruct (power_tables s Hs) as (Hj & P & _). fold j in Hj, P. split.
  - intros value. destruct (dequantized_value T v value s HT Hs) as (H1 & H2 & H3). fold j in H3. destruct (of_float_value _ H1 H2) as (_ & A2 & A3 & _). split; [done |].
    rewrite A3, H3, <- Z.mul_assoc, <- Z.pow_add_r by lia. do 2 f_equal. lia.
  - intros x Hx f. unfold ScaleAndClamp. fold f. set (p := nth _ m_quantizeTable 0) in *. destruct (isnan x) eqn:N.
    + apply Clamp_nan; [done |]. unfold float_mul. rewrite (isnan_to_float v x N : isnan (of_float f) = true). cbn [orb].
      apply isnan_to_float, isnan_nan_operand. rewrite (isnan_to_float v x N : isnan (of_float f) = true). done.
    + destruct (to_float_range v x N Hx) as [[F1 F2] | F]; [fold f in F1, F2; rewrite F2; apply quantized_finite; done || lia |]. fold f in F.
      assert (NF : finite_float f = false) by (rewrite F; destruct (negative x); done). rewrite NF.
      assert (E : float_mul v f p = with_sign binary32 (negative x) (infinity binary32)).
      { unfold power_ok in P. rewrite !andb_true_iff, !negb_true_iff in P. destruct P as [[[[[P0 P1] P2] P3] _] _]. unfold float_mul. rewrite P0, P1, P2, P3, F.
        assert (G : isnan (of_float (with_sign binary32 (negative x) (infinity binary32))) = false /\ isinf (of_float (with_sign binary32 (negative x) (infinity binary32))) = true /\
          is_zero (of_float (with_sign binary32 (negative x) (infinity binary32))) = false /\ negative (of_float (with_sign binary32 (negative x) (infinity binary32))) = negative x)
          by (destruct (negative x); split_and!; vm_compute; done).
        destruct G as (-> & -> & -> & ->). cbn [orb]. rewrite xorb_false_r. done. }
      rewrite E. destruct (of_float_infinite (negative x)) as (I1 & I2 & I3). rewrite truncate_Clamp, I3 by done. destruct (T_range T HT) as [R1 R2].
      assert (2 ^ 16 <= 2 ^ 1024) by (apply Z.pow_le_mono_r; lia). unfold clamped, signed. destruct (negative x); lia.
Qed.

(** What a load has made of an integer, a store turns back. *)
Lemma requantized T v v' value s :
  In T int_types -> 0 <= s < 64 -> inu (bits T) value ->
  wrapu (bits T) (ScaleAndClamp T v' (of_float (dequantized T v value s)) s) = value.
Proof.
  intros HT Hs Hv. destruct (dequantized_value T v value s HT Hs) as (H1 & H2 & H3). destruct (power_tables s Hs) as (Hj & P & _). set (j := scale_exponent s) in *.
  set (r := dequantized T v value s) in *. destruct (of_float_value r H1 H2) as (A1 & A2 & A3 & A4 & A5). destruct (finite_operand _ A1 A2) as [N I].
  assert (Hn : T_min T <= T_cast T value <= T_max T /\ wrapu (bits T) (T_cast T value) = value).
  { cbn in HT. destruct_or! HT; subst T; unfold T_cast, T_min, T_max, inu in *; cbn [is_signed bits T_u8 T_u16 T_s8 T_s16] in *; unfold wraps, wrapu; Z.to_euclidean_division_equations; lia. }
  destruct Hn as [Hn Hw]. destruct (T_range T HT) as [R1 R2]. set (n := T_cast T value) in *.
  destruct (single_form r H1 H2) as (m & k & Hm & Hk & Vr). set (u := 2 ^ (149 - j)) in *. assert (U : 2 ^ 118 <= u <= 2 ^ 181) by (split; apply Z.pow_le_mono_r; lia).
  assert (G : let f := to_float v' (of_float r) in inu 32 f /\ finite_float f = true /\ single_value f = single_value r).
  { unfold to_float. rewrite N, I, A4. set (neg := Z.testbit r 31) in *.
    assert (E : round binary32 v' neg (significand (of_float r)) (exponent (of_float r)) = round binary32 v' neg m (k - 149)).
    { unfold round. do 2 f_equal. pose proof (significand_range (of_float r)). pose proof (exponent_range (of_float r)).
      apply (round_magnitude_same _ _ _ _ _ _ _ (exponent (of_float r) + 1074) (k + 925)); try lia. rewrite A5, Vr. rewrite Z.pow_add_r by lia.
      pose proof (pow2_pos k ltac:(lia)). unfold signed. destruct neg; rewrite ?Z.abs_opp, Z.abs_eq by nia; ring. }
    cbv zeta. rewrite E. destruct (Z.eq_dec m 0) as [-> | Nm].
    { unfold round. change (round_magnitude binary32 (mode v') neg 0 (k - 149)) with 0. replace (flushed binary32 v' 0) with 0 by (unfold flushed; case_match; done).
      destruct (finite_bits neg 0 ltac:(split; done)) as (F1 & F2 & F3). split_and!; [done | done |]. rewrite F3, Vr. destruct neg; done. }
    pose proof (round_cases v' neg m (k - 149) Hm ltac:(lia)) as R. replace (k - 149 + 213) with (k + 64) in R by lia. rewrite Z.pow_add_r in R by lia.
    assert (Ab : Z.abs n * u = m * 2 ^ k) by (pose proof (pow2_pos k ltac:(lia)); rewrite H3 in Vr; unfold signed in Vr; destruct neg; nia).
    assert (Nn : n <> 0) by (intros ->; pose proof (pow2_pos k ltac:(lia)); nia). rewrite Z.mul_assoc, <- Ab in R.
    destruct R as [Q1 Q2 Q3 | Q1 Q2 Q3 Q4 | Q1 Q2 Q3 Q4 | Q1 Q4].
    - split_and!; [done | done |]. rewrite Vr. apply (Z.mul_cancel_r _ _ (2 ^ 64)); [done |]. rewrite Q3, Ab. unfold signed. destruct neg; lia.
    - exfalso. assert (2 ^ 118 * 2 ^ 64 <= Z.abs n * u * 2 ^ 64) by nia. assert (2 ^ 24 * 2 ^ 64 < 2 ^ 118 * 2 ^ 64) by done. lia.
    - exfalso. assert (Z.abs n * u * 2 ^ 64 <= 2 ^ 24 * 2 ^ 181 * 2 ^ 64) by nia. assert (2 ^ 24 * 2 ^ 181 * 2 ^ 64 < 2 ^ 277 * 2 ^ 64) by done. lia.
    - exfalso. assert (Z.abs n * u * 2 ^ 64 <= 2 ^ 24 * 2 ^ 181 * 2 ^ 64) by nia. assert (2 ^ 24 * 2 ^ 181 * 2 ^ 64 < 2 ^ 277 * 2 ^ 64) by done. lia. }
  destruct G as (G1 & G2 & G3). unfold ScaleAndClamp. rewrite (quantized_finite T v' _ _ j) by (done || lia). unfold scaled. rewrite G3, H3.
  subst u. rewrite <- Z.mul_assoc, <- Z.pow_add_r by lia. replace (149 - j + (64 + j)) with 213 by lia. rewrite Z.quot_mul by done.
  replace (clamped T n) with n; [exact Hw |]. unfold clamped. lia.
Qed.

(** ** A load and a store *)

Section Copy.
Context {D : Type} `{FpuHost} `{MmuHost D} `{LoadStoreHost D}.
Implicit Types m : Mmu D.

(** How an instruction finds its address, its register of formats and its
    width, whether it updates RA and whether LSQE gates it. *)
Record psq_form := mk_psq_form { q_ea : Z -> PowerPCState -> Z; q_I : Z -> Z; q_W : Z -> bool; q_update : bool; q_gated : bool }.

Definition psq_forms (h hu hx hux : Z -> M D unit) : list ((Z -> M D unit) * psq_form) := [
  (h, mk_psq_form psq_EA I W false true); (hu, mk_psq_form psq_EA_U I W true true);
  (hx, mk_psq_form Helper_Get_EA_X Ix Wx false false); (hux, mk_psq_form Helper_Get_EA_UX Ix Wx true false)].
Definition psq_loads : list ((Z -> M D unit) * psq_form) := psq_forms psq_l psq_lu psq_lx psq_lux.
Definition psq_stores : list ((Z -> M D unit) * psq_form) := psq_forms psq_st psq_stu psq_stx psq_stux.

Definition enabled (f : psq_form) (s : PowerPCState) : Prop := q_gated f = true -> Z.testbit (rSPR s SPR_HID2) HID2_LSQE = true.
Definition psq_after (f : psq_form) (inst a : Z) (s : PowerPCState) : PowerPCState := if q_update f then put_gpr (RA inst) a s else s.

Lemma with_LSQE_done (x : M D unit) m : Z.testbit (rSPR (cpu m) SPR_HID2) HID2_LSQE = true -> with_LSQE x m = x m.
Proof. intros E. unfold with_LSQE, mbind, M_bind, gets. rewrite E. done. Qed.

Lemma no_update (x : M D unit) m : x m = (x;; unless_DSI (fun s => s)) m.
Proof. unfold mbind, M_bind. destruct (x m) as [[] m' | |]; try done. unfold unless_DSI, registers, modify. destruct (negb _); rewrite set_cpu_id; done. Qed.

Lemma psq_load_scheme h f inst m : In (h, f) psq_loads -> enabled f (cpu m) ->
  let a := q_ea f inst (cpu m) in
  h inst m = (Helper_Dequantize a (q_I f inst) (RD inst) (q_W f inst);; unless_DSI (psq_after f inst a)) m.
Proof.
  intros Hin En. unfold enabled in En. cbn [In psq_loads psq_forms] in Hin.
  destruct_or! Hin; try done; injection Hin as <- <-; cbn [q_ea q_I q_W q_update q_gated] in *; unfold psq_l, psq_lu; rewrite ?with_LSQE_done by auto;
    exact (no_update (Helper_Dequantize _ _ _ _) m) || reflexivity.
Qed.

Lemma psq_store_scheme h f inst m : In (h, f) psq_stores -> enabled f (cpu m) ->
  let a := q_ea f inst (cpu m) in
  h inst m = (Helper_Quantize a (q_I f inst) (RS inst) (q_W f inst);; unless_DSI (psq_after f inst a)) m.
Proof.
  intros Hin En. unfold enabled in En. cbn [In psq_stores psq_forms] in Hin.
  destruct_or! Hin; try done; injection Hin as <- <-; cbn [q_ea q_I q_W q_update q_gated] in *; unfold psq_st, psq_stu; rewrite ?with_LSQE_done by auto;
    exact (no_update (Helper_Quantize _ _ _ _) m) || reflexivity.
Qed.

(** The formats with an integer type. *)
Definition int_type_of (t : EQuantizeType) : option int_type :=
  match t with QUANTIZE_U8 => Some T_u8 | QUANTIZE_U16 => Some T_u16 | QUANTIZE_S8 => Some T_s8 | QUANTIZE_S16 => Some T_s16 | _ => None end.

Definition access_size (T : int_type) (w : bool) : Z := bits T / 8 * (if w then 1 else 2).

(** The pair of floats that a load makes of the bytes [x]. *)
Definition floats_of (T : int_type) (v : env) (w : bool) (s x : Z) : Z * Z :=
  if w then (dequantized T v x s, FLOAT_ONE) else (dequantized T v (wrapu (bits T) (x .>> bits T)) s, dequantized T v (wrapu (bits T) x) s).

Lemma field_scale gqr : 0 <= ld_scale gqr < 64 /\ 0 <= st_scale gqr < 64.
Proof. unfold ld_scale, st_scale. pose proof (field_range 24 6 gqr ltac:(lia)) as F. pose proof (field_range 8 6 gqr ltac:(lia)) as G. unfold inu in *. lia. Qed.

Lemma int_type_In t T : int_type_of t = Some T -> In T int_types.
Proof. destruct t; cbn; intros E; try done; injection E as <-; tauto. Qed.

Lemma access_width T w : In T int_types -> width_ok (access_size T w).
Proof. intros HT. cbn in HT. unfold width_ok. destruct_or! HT; subst T; destruct w; vm_compute; tauto. Qed.

Lemma dequantize_value T i rd w a x m ps :
  no_memchecks -> mmu_ok m -> DSI_pending (cpu m) = false -> int_type_of (ld_type (rSPR (cpu m) (SPR_GQR0 + i))) = Some T ->
  let size := access_size T w in
  accessible m Read size a ps -> (forall k, 0 <= k < size -> outside_table m (ps k)) -> inu (8 * size) x ->
  (forall k, 0 <= k < size -> load_u8 (memory m) (ps k) = be_bytes (Z.to_nat size) x !! Z.to_nat k) ->
  exists m1, Helper_Dequantize a i rd w m = Done tt (set_cpu (put_floats rd (floats_of T (host_env (cpu m)) w (ld_scale (rSPR (cpu m) (SPR_GQR0 + i))) x) (cpu m)) m1) /\ translated m m1.
Proof.
  intros N Hm Hd HT size Ha Hout Hx Hb. destruct (ReadFromHardware_value m Read size a x ps Hm Ha Hout Hx Hb) as (m1 & E & X).
  pose proof (frame_cpu _ _ (tr_frame _ _ X)) as Ec. exists m1. split; [| done].
  rewrite <- (read_of_hardware size a m N (acc_width _ _ _ _ _ Ha)) in E. set (gqr := rSPR (cpu m) (SPR_GQR0 + i)) in *.
  assert (F : forall y : Z * Z, unless_DSI (put_floats rd y) m1 = Done tt (set_cpu (put_floats rd y (cpu m)) m1)) by (intros y; rewrite unless_DSI_done by (rewrite Ec; done); rewrite Ec; done).
  assert (S : forall (x : M D (Z * Z)), (forall y, x m = Done y m1 -> (x ≫= fun ps => unless_DSI (put_floats rd ps)) m = Done tt (set_cpu (put_floats rd y (cpu m)) m1)))
    by (intros z y Ez; unfold mbind, M_bind; rewrite Ez; apply F).
  unfold Helper_Dequantize, mbind at 1, M_bind at 1, gets at 1. fold gqr. apply S.
  assert (L : LoadAndDequantize T a w (ld_scale gqr) m = Done (floats_of T (host_env (cpu m)) w (ld_scale gqr) x) m1).
  { pose proof (int_type_In _ _ HT) as Hin. unfold LoadAndDequantize, floats_of. subst size. cbn in Hin. destruct_or! Hin; subst T; destruct w;
      (match type of E with read_of ?s _ _ = _ => let n := eval vm_compute in s in change s with n in E end);
      cbn [bits T_u8 T_u16 T_s8 T_s16 read_of] in *; unfold ReadUnpaired, ReadPair, mbind, M_bind; rewrite E; cbv beta iota delta [current_env gets mret M_ret]; rewrite Ec; done. }
  destruct (ld_type gqr); cbn in HT; try done; injection HT as <-; exact L.
Qed.

Lemma pair_of_halves w x : 0 < w -> inu (w + w) x -> (wrapu w (x .>> w) .<< w) .| wrapu w x = x.
Proof.
  intros Hw Hx. unfold inu in Hx. rewrite Z.pow_add_r in Hx by lia. pose proof (pow2_pos w ltac:(lia)) as P. pose proof (Z.div_mod x (2 ^ w) ltac:(lia)) as Dm.
  pose proof (Z.mod_pos_bound x (2 ^ w) P) as Mb. assert (Hq : 0 <= x / 2 ^ w < 2 ^ w) by (split; [apply Z.div_pos; lia | apply Z.div_lt_upper_bound; lia]).
  rewrite Z.shiftr_div_pow2, (wrapu_id w (x / 2 ^ w)) by (unfold inu; lia). unfold wrapu. rewrite lor_shift_add by lia. lia.
Qed.

Lemma quantize_value T i rd w a x m v :
  int_type_of (st_type (rSPR (cpu m) (SPR_GQR0 + i))) = Some T ->
  let size := access_size T w in
  let s := st_scale (rSPR (cpu m) (SPR_GQR0 + i)) in
  inu (8 * size) x ->
  riPS0 (cpu m) rd = of_float (floats_of T v w s x).1 -> (w = false -> riPS1 (cpu m) rd = of_float (floats_of T v w s x).2) ->
  Helper_Quantize a i rd w m = write_of size x a m.
Proof.
  intros HT size s Hx R0 R1. pose proof (int_type_In _ _ HT) as Hin. set (gqr := rSPR (cpu m) (SPR_GQR0 + i)) in *.
  assert (Hs : 0 <= s < 64) by (apply (field_scale gqr)).
  assert (Q : QuantizeAndStore T (riPS0 (cpu m) rd) (riPS1 (cpu m) rd) a w s m = write_of size x a m).
  { unfold QuantizeAndStore, mbind, M_bind, current_env, gets. unfold floats_of in *. destruct w; cbn [fst snd] in *; rewrite R0.
    - rewrite (requantized T v _ x s Hin Hs) by (subst size; cbn in Hin; destruct_or! Hin; subst T; exact Hx). subst size. cbn in Hin. destruct_or! Hin; subst T; reflexivity.
    - rewrite R1 by done. assert (B : 0 < bits T /\ 8 * size = bits T + bits T) by (subst size; cbn in Hin; destruct_or! Hin; subst T; done). destruct B as [B Es].
      rewrite !(requantized T v) by (done || apply wrapu_range; lia). unfold WritePair. rewrite pair_of_halves by (try rewrite <- Es; done). subst size. cbn in Hin. destruct_or! Hin; subst T; reflexivity. }
  unfold Helper_Quantize, mbind, M_bind, gets. fold gqr. fold s. destruct (st_type gqr); cbn in HT; try done; injection HT as <-; exact Q.
Qed.

(** C33: A quantised load and a quantised store copy memory. When the load's
    format and the store's have the same integer type and scale and both
    instructions the same width, any of the four loads followed by any of the
    four stores of the same register writes at the second address the bytes
    that stood at the first, whatever the rounding mode of the host, and no
    other byte outside the page table. *)
Theorem quantised_copy ld f1 st f2 inst1 inst2 T m src dst x :
  In (ld, f1) psq_loads -> In (st, f2) psq_stores -> enabled f1 (cpu m) -> enabled f2 (cpu m) ->
  RD inst1 = RS inst2 -> q_W f1 inst1 = q_W f2 inst2 ->
  no_memchecks -> mmu_ok m -> wf (cpu m) -> DSI_pending (cpu m) = false ->
  let gqr1 := rSPR (cpu m) (SPR_GQR0 + q_I f1 inst1) in
  let gqr2 := rSPR (cpu m) (SPR_GQR0 + q_I f2 inst2) in
  int_type_of (ld_type gqr1) = Some T -> int_type_of (st_type gqr2) = Some T -> ld_scale gqr1 = st_scale gqr2 ->
  let size := access_size T (q_W f1 inst1) in
  let ea1 := q_ea f1 inst1 (cpu m) in
  let ea2 := q_ea f2 inst2 (psq_after f1 inst1 ea1 (cpu m)) in
  accessible m Read size ea1 src -> (forall i, 0 <= i < size -> outside_table m (src i)) ->
  accessible m Write size ea2 dst -> (forall i, 0 <= i < size -> outside_table m (dst i)) ->
  inu (8 * size) x -> (forall i, 0 <= i < size -> load_u8 (memory m) (src i) = be_bytes (Z.to_nat size) x !! Z.to_nat i) ->
  exists m1 m2, ld inst1 m = Done tt m1 /\ st inst2 m1 = Done tt m2 /\
    (forall i, 0 <= i < size -> load_u8 (memory m2) (dst i) = be_bytes (Z.to_nat size) x !! Z.to_nat i) /\
    (forall q, outside_table m q -> (forall i, 0 <= i < size -> q <> dst i) -> load_u8 (memory m2) q = load_u8 (memory m) q).
Proof.
  intros I1 I2 En1 En2 Er Ew N Hm Hs Hd gqr1 gqr2 T1 T2 Es size ea1 ea2 A1 O1 A2 O2 Hx Hb.
  destruct (dequantize_value T (q_I f1 inst1) (RD inst1) (q_W f1 inst1) ea1 x m src N Hm Hd T1 A1 O1 Hx Hb) as (m1 & E1 & X1). fold gqr1 in E1.
  set (y := floats_of _ _ _ _ _) in E1. pose proof (frame_cpu _ _ (tr_frame _ _ X1)) as Ec. pose proof (tlb_table _ _ (ok_tlb m Hm)) as Tm.
  set (s1 := psq_after f1 inst1 ea1 (put_floats (RD inst1) y (cpu m))). set (m1' := set_cpu s1 m1).
  assert (L : ld inst1 m = Done tt m1').
  { rewrite (psq_load_scheme ld f1 inst1 m I1 En1). fold ea1. unfold mbind, M_bind. rewrite E1, unless_DSI_done by exact Hd. done. }
  assert (C : cpu m1' = s1) by done.
  assert (Same : sr s1 = sr (cpu m) /\ msr s1 = msr (cpu m) /\ Exceptions s1 = Exceptions (cpu m) /\ spr s1 = spr (cpu m) /\ ps0 s1 = ps0 (put_floats (RD inst1) y (cpu m)) /\
    ps1 s1 = ps1 (put_floats (RD inst1) y (cpu m))) by (subst s1; unfold psq_after; destruct (q_update f1); done).
  destruct Same as (S1 & S2 & S3 & S4 & S5 & S6).
  assert (Ea2 : q_ea f2 inst2 s1 = ea2).
  { subst ea2 s1. unfold psq_after. cbn [In psq_stores psq_forms] in I2. destruct_or! I2; try done; injection I2 as <- <-; destruct (q_update f1); reflexivity. }
  assert (Hok : mmu_ok m1') by (apply set_cpu_mmu_ok; [congruence | apply X1]).
  assert (A2' : accessible m1' Write size ea2 dst) by (apply set_cpu_accessible; [congruence | congruence | apply (accessible_frame m m1); [done | apply X1 | done]]).
  assert (O2' : forall q, outside_table m q -> outside_table m1' q) by (intros q Hq; apply set_cpu_outside, (frame_outside m m1 _ (tr_frame _ _ X1)); done).
  destruct (WriteToHardware_ok m1' size ea2 x dst Hok A2' ltac:(auto) Hx) as (m2 & E2 & F2 & Hm2 & B2 & U2).
  exists m1', (set_cpu (psq_after f2 inst2 ea2 s1) m2). split; [exact L |]. split.
  - rewrite (psq_store_scheme st f2 inst2 m1' I2) by (unfold enabled in *; rewrite C; unfold rSPR in *; rewrite S4; done). rewrite C, Ea2. unfold mbind, M_bind.
    assert (R0 : riPS0 s1 (RS inst2) = of_float y.1 /\ riPS1 s1 (RS inst2) = of_float y.2).
    { rewrite <- Er. unfold riPS0, riPS1. rewrite S5, S6. unfold put_floats, put_ps, put_ps0, put_ps1. cbn [ps0 ps1 set_ps0 set_ps1].
      assert (Ry : inu 64 (of_float y.1) /\ inu 64 (of_float y.2)).
      { assert (G : forall val, inu 64 (of_float (dequantized T (host_env (cpu m)) val (ld_scale gqr1)))).
        { intros val. destruct (dequantized_value T (host_env (cpu m)) val (ld_scale gqr1) (int_type_In _ _ T1) (proj1 (field_scale gqr1))) as (G1 & G2 & _).
          apply (of_float_value _ G1 G2). }
        subst y. unfold floats_of. destruct (q_W f1 inst1); cbn [fst snd]; split; [apply G | unfold inu; split; vm_compute; done | apply G | apply G]. }
      rewrite !(zget_zset_same 32 64), !wrapu_id by (apply Ry || apply (wf_ps0 _ Hs) || apply (wf_ps1 _ Hs) || (unfold RD; pose proof (field_range 21 5 inst1 ltac:(lia)) as F; unfold inu in F; lia)). done. }
    assert (Eg : rSPR s1 (SPR_GQR0 + q_I f2 inst2) = gqr2) by (unfold rSPR; rewrite S4; done).
    rewrite (quantize_value T (q_I f2 inst2) (RS inst2) (q_W f2 inst2) ea2 x m1' (host_env (cpu m)));
      rewrite ?C, ?Eg, <- ?Ew, <- ?Es; [| done | done | apply R0 | intros _; apply R0].
    fold size. rewrite write_of_hardware, E2 by (done || apply (acc_width _ _ _ _ _ A2)). pose proof (frame_cpu _ _ F2) as Ec2.
    rewrite unless_DSI_done by (rewrite Ec2, C; unfold DSI_pending in *; rewrite S3; done). rewrite Ec2, C. done.
  - split; [exact B2 |]. intros q Hq Hne. rewrite <- (tr_memory _ _ X1 q Hq). apply (U2 q (O2' q Hq) Hne).
Qed.
End Copy.

(** ** Examples *)

Section Example.
#[local] Existing Instances quiet_host quiet_cache.
#[local] Instance no_flush : FpuHost := {| bFlushToZero := false |}.

(** -1 of [s16] in quarters, -2.5 in units of [u8], and 2.5 in halves. *)
Lemma quantised_values_witness :
  let v := mk_env TowardsPositiveInfinity true in
  double_value (of_float (dequantized T_s16 v 0xFFFF 2)) = - 2 ^ 1072 /\
  ScaleAndClamp T_u8 v 0xC004000000000000 0 = 0 /\ ScaleAndClamp T_s8 v 0x4004000000000000 1 = 5.
Proof.
  intros v. split; [| split].
  - refine (eq_trans (proj2 (proj1 (quantised_values T_s16 v 2 _ _) 0xFFFF)) _); [cbn; tauto | lia | vm_compute; reflexivity].
  - refine (eq_trans (proj2 (quantised_values T_u8 v 0 _ _) 0xC004000000000000 _) _); [cbn; tauto | lia | unfold inu; lia | vm_compute; reflexivity].
  - refine (eq_trans (proj2 (quantised_values T_s8 v 1 _ _) 0x4004000000000000 _) _); [cbn; tauto | lia | unfold inu; lia | vm_compute; reflexivity].
Defined.

(** The register 1 asks for [s16] in units of [2 ^ -5]; RB of the load is r5. *)
Definition paired_example : Mmu unit :=
  set_cpu (put_spr 913 0x05070507 (put_gpr 5 0x401FFE (cpu at_two_pages))) at_two_pages.

Lemma paired_example_ok : mmu_ok paired_example /\ wf (cpu paired_example).
Proof. split; [apply set_cpu_mmu_ok; [vm_compute; reflexivity | apply at_two_pages_ok] |]. apply wf_put_spr, wf_put_gpr, wf_at_two_pages. Qed.

Definition psq_lx_inst : Z := (2 .<< 21) .| (5 .<< 11) .| (1 .<< 7).
Definition psq_stx_inst : Z := (2 .<< 21) .| (3 .<< 11) .| (1 .<< 7).

(** A pair across two pages, copied to 0x401FF8. *)
Lemma quantised_copy_witness :
  exists x m1 m2, psq_lx psq_lx_inst paired_example = Done tt m1 /\ psq_stx psq_stx_inst m1 = Done tt m2 /\
    load_u8 (memory m2) (two_page_bytes 0x401FF8 3) = be_bytes 4 x !! 3%nat.
Proof.
  set (x := be_value (map (fun i => default 0 (load_u8 (memory paired_example) (two_page_bytes 0x401FFE i))) [0; 1; 2; 3])).
  assert (A : forall f ea, In ea [0x401FF8; 0x401FFE] -> f = Read \/ f = Write -> accessible paired_example f 4 ea (two_page_bytes ea)).
  { intros f ea Hea Hf. apply set_cpu_accessible; [vm_compute; reflexivity | vm_compute; reflexivity |]. pose proof (two_page_words ea ltac:(cbn in *; tauto)) as A.
    destruct Hf as [-> | ->]; [apply accessible_Read |]; exact A. }
  assert (O : forall ea i, In ea [0x401FF8; 0x401FFE] -> 0 <= i < 4 -> outside_table paired_example (two_page_bytes ea i)).
  { intros ea i Hea Hi. apply set_cpu_outside, two_page_outside. cbn in Hea. destruct_or! Hea; subst; done || lia. }
  destruct (quantised_copy psq_lx (mk_psq_form Helper_Get_EA_X Ix Wx false false) psq_stx (mk_psq_form Helper_Get_EA_X Ix Wx false false)
    psq_lx_inst psq_stx_inst T_s16 paired_example (two_page_bytes 0x401FFE) (two_page_bytes 0x401FF8) x) as (m1 & m2 & E1 & E2 & B & _).
  - cbn. tauto.
  - cbn. tauto.
  - discriminate.
  - discriminate.
  - reflexivity.
  - reflexivity.
  - apply quiet_memchecks.
  - apply paired_example_ok.
  - apply paired_example_ok.
  - vm_compute; reflexivity.
  - vm_compute; reflexivity.
  - vm_compute; reflexivity.
  - vm_compute; reflexivity.
  - apply (A Read 0x401FFE); cbn; tauto.
  - intros i Hi. apply O; [cbn; tauto | exact Hi].
  - apply (A Write 0x401FF8); cbn; tauto.
  - intros i Hi. apply O; [cbn; tauto | exact Hi].
  - vm_compute. split; [discriminate | reflexivity].
  - intros i Hi. change (access_size T_s16 _) with 4 in Hi. assert (i = 0 \/ i = 1 \/ i = 2 \/ i = 3) as [-> | [-> | [-> | ->]]] by lia; vm_compute; reflexivity.
  - exists x, m1, m2. split; [exact E1 | split; [exact E2 |]]. apply (B 3). change (access_size T_s16 _) with 4. lia.
Defined.
End Example.
