(* ===== verification/StdHeap.v ===== *)
(** The heap algorithms of the C++ standard library that the event scheduler
    uses ([std::push_heap], [std::pop_heap], [std::make_heap]).

    [HeapAlgorithms] states what the standard promises: the layout is that of
    [std::is_heap] and everything else about it is the implementation's choice.
    [binary_heap] is an implementation. *)

From S2P Require Import Prelude.
Open Scope nat_scope.

(** ** The interface *)

Definition parent (i : nat) : nat := (i - 1) / 2.

(** [std::is_heap] for the comparison that makes [leb x y] mean that [x] leaves
    the heap no later than [y]. *)
Definition is_heap {E} (leb : E -> E -> bool) (l : list E) : Prop :=
  forall i x y, (0 < i) -> l !! i = Some x -> l !! parent i = Some y -> leb y x = true.

Class TotalPreorder {E} (leb : E -> E -> bool) : Prop := {
  leb_total x y : leb x y = true \/ leb y x = true;
  leb_trans x y z : leb x y = true -> leb y z = true -> leb x z = true
}.

(** [push_heap] gets the new element at the end; [pop_heap] moves the front
    there. *)
Class HeapAlgorithms (E : Type) (leb : E -> E -> bool) := {
  push_heap : list E -> list E;
  pop_heap : list E -> list E;
  make_heap : list E -> list E;
  push_heap_spec l e :
    is_heap leb l -> push_heap (l ++ [e]) ≡ₚ l ++ [e] /\ is_heap leb (push_heap (l ++ [e]));
  pop_heap_spec x l :
    is_heap leb (x :: l) -> exists l', pop_heap (x :: l) = l' ++ [x] /\ l' ≡ₚ l /\ is_heap leb l';
  make_heap_spec l : make_heap l ≡ₚ l /\ is_heap leb (make_heap l)
}.

Lemma parent_lt i : (0 < i) -> (parent i < i).
Proof. intros. unfold parent. apply Nat.Div0.div_lt_upper_bound. lia. Qed.

Lemma is_heap_nil {E} (leb : E -> E -> bool) : is_heap leb [].
Proof. intros i x y _ H. rewrite lookup_nil in H. done. Qed.

(** The front is a least element. *)
Lemma heap_front {E} (leb : E -> E -> bool) `{!TotalPreorder leb} x l y :
  is_heap leb (x :: l) -> y ∈ x :: l -> leb x y = true.
Proof.
  intros H [i Hi]%list_elem_of_lookup_1. revert y Hi. induction (lt_wf i) as [i _ IH]. intros y Hi.
  destruct i as [| i]; [cbn in Hi; injection Hi as <-; by destruct (leb_total x x) |].
  pose proof (parent_lt (S i) ltac:(lia)) as Hp.
  destruct (lookup_lt_is_Some_2 (x :: l) (parent (S i))) as [z Hz].
  { pose proof (lookup_lt_Some _ _ _ Hi). lia. }
  apply (leb_trans _ z); [apply (IH _ Hp z Hz) | apply (H (S i) y z); [lia | done | done]].
Qed.

(** ** A binary heap *)

Section BinaryHeap.
Context {E : Type} (leb : E -> E -> bool) `{!TotalPreorder leb}.

Definition swap (i j : nat) (l : list E) : list E :=
  match l !! i, l !! j with
  | Some x, Some y => <[i := y]> (<[j := x]> l)
  | _, _ => l
  end.

(** Move the element at [i] up; [i] steps are enough. *)
Fixpoint sift_up (fuel i : nat) (l : list E) : list E :=
  match fuel with
  | O => l
  | S fuel' =>
    match l !! i, l !! parent i with
    | Some x, Some y =>
      if (i =? 0) || leb y x then l else sift_up fuel' (parent i) (swap i (parent i) l)
    | _, _ => l
    end
  end.

(** The child of [i] to compare with: the lesser of the two. *)
Definition least_child (i : nat) (l : list E) : option nat :=
  match l !! (2 * i + 1), l !! (2 * i + 2) with
  | Some x, Some y => Some (if leb x y then 2 * i + 1 else 2 * i + 2)
  | Some _, None => Some (2 * i + 1)
  | None, _ => None
  end.

(** Move the element at [i] down; [length l] steps are enough. *)
Fixpoint sift_down (fuel i : nat) (l : list E) : list E :=
  match fuel with
  | O => l
  | S fuel' =>
    match least_child i l with
    | None => l
    | Some c =>
      match l !! i, l !! c with
      | Some x, Some y => if leb x y then l else sift_down fuel' c (swap i c l)
      | _, _ => l
      end
    end
  end.

Definition binary_push (l : list E) : list E := sift_up (length l) (length l - 1) l.

Definition binary_pop (l : list E) : list E :=
  match l with
  | [] => []
  | x :: l' =>
    match last l' with
    | None => [x]
    | Some z => let l1 := z :: removelast l' in sift_down (length l1) 0 l1 ++ [x]
    end
  end.

(** From the last parent to the root. *)
Fixpoint heapify (k : nat) (l : list E) : list E :=
  match k with
  | O => l
  | S k' => heapify k' (sift_down (length l) k' l)
  end.
Definition binary_make (l : list E) : list E := heapify (length l / 2) l.

(** *** Swaps *)

Lemma insert_permutation (l : list E) i x y : l !! i = Some x -> x :: <[i := y]> l ≡ₚ y :: l.
Proof.
  intros H. pose proof (lookup_lt_Some _ _ _ H).
  rewrite insert_take_drop by done. rewrite <- (take_drop_middle l i x H) at 3. solve_Permutation.
Qed.

Lemma swap_permutation i j l : i <> j -> swap i j l ≡ₚ l.
Proof.
  intros N. unfold swap. destruct (l !! i) as [x |] eqn:Ei; [| done]. destruct (l !! j) as [y |] eqn:Ej; [| done].
  apply (Permutation_cons_inv (a := x)).
  rewrite insert_permutation by (rewrite list_lookup_insert_ne; done).
  rewrite insert_permutation; done.
Qed.

Lemma length_swap i j l : length (swap i j l) = length l.
Proof. unfold swap. destruct (l !! i), (l !! j); rewrite ?length_insert; done. Qed.

Lemma lookup_swap i j l x y k :
  l !! i = Some x -> l !! j = Some y -> i <> j ->
  swap i j l !! k = if decide (k = i) then Some y else if decide (k = j) then Some x else l !! k.
Proof.
  intros Hx Hy N. unfold swap. rewrite Hx, Hy.
  pose proof (lookup_lt_Some _ _ _ Hx). pose proof (lookup_lt_Some _ _ _ Hy).
  destruct (decide (k = i)) as [-> |]; [apply list_lookup_insert_eq; rewrite length_insert; done |].
  rewrite list_lookup_insert_ne by done. destruct (decide (k = j)) as [-> |]; [apply list_lookup_insert_eq; done |].
  rewrite list_lookup_insert_ne by done. done.
Qed.

Lemma leb_refl x : leb x x = true.
Proof. by destruct (leb_total x x). Qed.

Lemma leb_false x y : leb x y = false -> leb y x = true.
Proof. intros H. destruct (leb_total x y); congruence. Qed.

(** *** Up *)

(** A heap but for the element at [i] and its parent. *)
Definition heap_above (l : list E) (i : nat) : Prop :=
  (forall j x y, (0 < j) -> j <> i -> l !! j = Some x -> l !! parent j = Some y -> leb y x = true) /\
  (forall j x y, (0 < j) -> (0 < i) -> parent j = i -> l !! j = Some x -> l !! parent i = Some y -> leb y x = true).

Lemma sift_up_spec fuel i l :
  (i <= fuel) -> (i < length l) -> heap_above l i ->
  sift_up fuel i l ≡ₚ l /\ is_heap leb (sift_up fuel i l).
Proof.
  revert i l. induction fuel as [| fuel IH]; intros i l Hf Hi [H1 H2]; cbn [sift_up].
  - split; [done |]. intros j x y Hj. apply H1; lia.
  - destruct (lookup_lt_is_Some_2 l i Hi) as [x Hx]. rewrite Hx.
    destruct (lookup_lt_is_Some_2 l (parent i)) as [y Hy].
    { destruct (Nat.eq_dec i 0) as [-> |]; [done |]. pose proof (parent_lt i). lia. }
    rewrite Hy. destruct (Nat.eqb_spec i 0) as [-> | Ni]; cbn [orb].
    { split; [done |]. intros j a b Hj. apply H1; lia. }
    pose proof (parent_lt i ltac:(lia)) as Hp. destruct (leb y x) eqn:Eyx.
    { split; [done |]. intros j a b Hj Ha Hb. destruct (decide (j = i)) as [-> |]; [congruence |]. apply (H1 j); done. }
    apply leb_false in Eyx. pose proof (lookup_swap i (parent i) l x y) as L.
    destruct (IH (parent i) (swap i (parent i) l)) as [P Q]; [lia | rewrite length_swap; lia | |].
    2: { split; [| exact Q]. rewrite P. apply swap_permutation. lia. }
    split.
    + intros j a b Hj Nj. rewrite !L by (done || lia). intros Ha Hb. pose proof (parent_lt j Hj).
      destruct (decide (j = i)) as [-> | Nji].
      * rewrite decide_False in Hb by lia. rewrite decide_True in Hb by done. congruence.
      * rewrite decide_False in Ha by done. destruct (decide (parent j = i)) as [Epj | Npj].
        -- injection Hb as <-. apply (H2 j a y); (done || lia).
        -- destruct (decide (parent j = parent i)) as [Epp | Npp].
           ++ injection Hb as <-. apply (leb_trans _ y); [done |]. apply (H1 j a y); try done. congruence.
           ++ apply (H1 j a b); done.
    + intros j a b Hj Hp0 Epj. rewrite !L by (done || lia). intros Ha Hb.
      pose proof (parent_lt (parent i) Hp0). rewrite !decide_False in Hb by lia.
      assert (Hby : leb b y = true) by (apply (H1 (parent i) y b); (done || lia)).
      destruct (decide (j = i)); [congruence |]. pose proof (parent_lt j Hj). rewrite decide_False in Ha by lia.
      apply (leb_trans _ y); [done |]. apply (H1 j a y); try done. congruence.
Qed.

Lemma binary_push_spec l e :
  is_heap leb l -> binary_push (l ++ [e]) ≡ₚ l ++ [e] /\ is_heap leb (binary_push (l ++ [e])).
Proof.
  intros H. unfold binary_push. rewrite length_app. cbn [length]. replace (length l + 1 - 1) with (length l) by lia.
  apply sift_up_spec; [lia | rewrite length_app; cbn; lia |]. split.
  - intros j x y Hj Nj Hx Hy. pose proof (parent_lt j Hj). pose proof (lookup_lt_Some _ _ _ Hx) as Hl.
    rewrite length_app in Hl. cbn in Hl. rewrite lookup_app_l in Hx, Hy by lia. apply (H j); done.
  - intros j x y Hj _ Ej Hx. pose proof (parent_lt j Hj). pose proof (lookup_lt_Some _ _ _ Hx) as Hl.
    rewrite length_app in Hl. cbn in Hl. lia.
Qed.

(** *** Down *)

(** A heap among the positions from [k] on but for the element at [i] and its
    children. *)
Definition heap_below (k : nat) (l : list E) (i : nat) : Prop :=
  (forall j x y, 0 < j -> k <= parent j -> parent j <> i -> l !! j = Some x -> l !! parent j = Some y -> leb y x = true) /\
  (forall j x y, 0 < j -> 0 < i -> k <= parent i -> parent j = i -> l !! j = Some x -> l !! parent i = Some y -> leb y x = true).

Definition heap_from (k : nat) (l : list E) : Prop :=
  forall j x y, 0 < j -> k <= parent j -> l !! j = Some x -> l !! parent j = Some y -> leb y x = true.

Lemma children j i : 0 < j -> parent j = i -> j = 2 * i + 1 \/ j = 2 * i + 2.
Proof.
  unfold parent. intros Hj <-. pose proof (Nat.div_mod_eq (j - 1) 2).
  pose proof (Nat.mod_upper_bound (j - 1) 2 ltac:(lia)). lia.
Qed.

Lemma parent_child i : parent (2 * i + 1) = i /\ parent (2 * i + 2) = i.
Proof.
  unfold parent. split; symmetry.
  - apply (Nat.div_unique _ _ _ 0); lia.
  - apply (Nat.div_unique _ _ _ 1); lia.
Qed.

Lemma least_child_spec i l :
  match least_child i l with
  | None => forall j, 0 < j -> parent j = i -> l !! j = None
  | Some c => 0 < c /\ parent c = i /\
    exists y, l !! c = Some y /\ forall j z, 0 < j -> parent j = i -> l !! j = Some z -> leb y z = true
  end.
Proof.
  unfold least_child. destruct (parent_child i) as [P1 P2].
  destruct (l !! (2 * i + 1)) as [x |] eqn:E1.
  - destruct (l !! (2 * i + 2)) as [y |] eqn:E2.
    + destruct (leb x y) eqn:Exy.
      * split; [lia | split; [done |]]. exists x. split; [done |]. intros j z Hj Ej Hz.
        destruct (children j i Hj Ej) as [-> | ->]; [rewrite E1 in Hz; injection Hz as <-; apply leb_refl | congruence].
      * split; [lia | split; [done |]]. exists y. split; [done |]. intros j z Hj Ej Hz. apply leb_false in Exy.
        destruct (children j i Hj Ej) as [-> | ->]; [congruence | rewrite E2 in Hz; injection Hz as <-; apply leb_refl].
    + split; [lia | split; [done |]]. exists x. split; [done |]. intros j z Hj Ej Hz.
      destruct (children j i Hj Ej) as [-> | ->]; [rewrite E1 in Hz; injection Hz as <-; apply leb_refl | congruence].
  - intros j Hj Ej. destruct (children j i Hj Ej) as [-> | ->]; [done |].
    apply lookup_ge_None in E1. apply lookup_ge_None. lia.
Qed.

Lemma sift_down_spec fuel k i l :
  length l <= i + fuel -> i < length l -> k <= i -> heap_below k l i ->
  sift_down fuel i l ≡ₚ l /\ heap_from k (sift_down fuel i l).
Proof.
  revert i l. induction fuel as [| fuel IH]; intros i l Hf Hi Hk [H1 H2]; [lia |]. cbn [sift_down].
  pose proof (least_child_spec i l) as Hc. destruct (least_child i l) as [c |].
  - destruct Hc as (Hc0 & Pc & y & Hy & Hmin). rewrite Hy. pose proof (parent_lt c Hc0).
    pose proof (lookup_lt_Some _ _ _ Hy). destruct (lookup_lt_is_Some_2 l i Hi) as [x Hx]. rewrite Hx.
    destruct (leb x y) eqn:Exy.
    { split; [done |]. intros j a b Hj Hkj Ha Hb. destruct (decide (parent j = i)) as [Ep |]; [| apply (H1 j); done].
      rewrite Ep, Hx in Hb. injection Hb as <-. apply (leb_trans _ y); [done | apply (Hmin j a); done]. }
    apply leb_false in Exy. pose proof (lookup_swap i c l x y) as L.
    destruct (IH c (swap i c l)) as [P Q]; [rewrite length_swap; lia | rewrite length_swap; lia | lia | |].
    2: { split; [| exact Q]. rewrite P. apply swap_permutation. lia. }
    split.
    + intros j a b Hj Hkj Npj. rewrite !L by (done || lia). intros Ha Hb. pose proof (parent_lt j Hj).
      destruct (decide (parent j = i)) as [Epj | Npi].
      * injection Hb as <-. rewrite decide_False in Ha by lia.
        destruct (decide (j = c)); [congruence |]. apply (Hmin j a); done.
      * rewrite decide_False in Hb by done. destruct (decide (j = i)) as [-> | Nji].
        -- injection Ha as <-. apply (H2 c y b); (done || lia).
        -- rewrite decide_False in Ha by (intros ->; congruence). apply (H1 j); done.
    + intros j a b Hj _ Hkc Epj. pose proof (parent_lt j Hj). rewrite !L by (done || lia). intros Ha Hb.
      rewrite Pc, decide_True in Hb by done. injection Hb as <-.
      rewrite !decide_False in Ha by lia. apply (H1 j); (done || lia || congruence).
  - split; [done |]. intros j a b Hj Hkj Ha Hb. destruct (decide (parent j = i)) as [Ep |]; [| apply (H1 j); done].
    rewrite (Hc j Hj Ep) in Ha. done.
Qed.

Lemma heap_from_0 l : heap_from 0 l -> is_heap leb l.
Proof. intros H j x y Hj. apply H; lia. Qed.

Lemma binary_pop_spec x l :
  is_heap leb (x :: l) -> exists l', binary_pop (x :: l) = l' ++ [x] /\ l' ≡ₚ l /\ is_heap leb l'.
Proof.
  intros H. cbn [binary_pop]. destruct (last l) as [z |] eqn:Ez.
  - apply last_Some in Ez as [m ->]. rewrite removelast_last. cbv zeta. set (l1 := z :: m).
    destruct (sift_down_spec (length l1) 0 0 l1) as [P Q]; [lia | cbn; lia | lia | |].
    + split; [| lia]. intros j a b Hj _ Npj Ha Hb. pose proof (lookup_lt_Some _ _ _ Ha) as Hl. pose proof (parent_lt j Hj).
      destruct j as [| j]; [lia |]. destruct (parent (S j)) as [| p] eqn:Ep; [done |].
      cbn [l1 lookup list_lookup] in Ha, Hb. cbn in Hl. apply (H (S j) a b Hj).
      * change (((m ++ [z]) : list E) !! j = Some a). rewrite lookup_app_l by lia. exact Ha.
      * rewrite Ep. change (((m ++ [z]) : list E) !! p = Some b). rewrite lookup_app_l by lia. exact Hb.
    + eexists. split; [reflexivity |]. split; [| apply heap_from_0, Q]. rewrite P. subst l1. solve_Permutation.
  - apply last_None in Ez as ->. exists []. split; [done | split; [done | apply is_heap_nil]].
Qed.

Lemma heapify_spec k l : k <= length l -> heap_from k l -> heapify k l ≡ₚ l /\ is_heap leb (heapify k l).
Proof.
  revert l. induction k as [| k IH]; intros l Hk H; cbn [heapify].
  - split; [done | apply heap_from_0, H].
  - destruct (sift_down_spec (length l) k k l) as [P Q]; [lia | lia | lia | |].
    + split.
      * intros j x y Hj Hkj Npj. apply H; lia.
      * intros j x y Hj Hk0 Hkk. pose proof (parent_lt k Hk0). lia.
    + destruct (IH (sift_down (length l) k l)) as [P' Q']; [rewrite P; lia | done |].
      split; [rewrite P'; exact P | exact Q'].
Qed.

Lemma binary_make_spec l : binary_make l ≡ₚ l /\ is_heap leb (binary_make l).
Proof.
  apply heapify_spec; [apply Nat.Div0.div_le_upper_bound; lia |].
  intros j x y Hj Hk Hx. pose proof (lookup_lt_Some _ _ _ Hx).
  pose proof (children j (parent j) Hj eq_refl). pose proof (Nat.div_mod_eq (length l) 2).
  pose proof (Nat.mod_upper_bound (length l) 2 ltac:(lia)). lia.
Qed.

End BinaryHeap.

#[export] Instance binary_heap {E} (leb : E -> E -> bool) `{!TotalPreorder leb} : HeapAlgorithms E leb := {|
  push_heap := binary_push leb;
  pop_heap := binary_pop leb;
  make_heap := binary_make leb;
  push_heap_spec := binary_push_spec leb;
  pop_heap_spec := binary_pop_spec leb;
  make_heap_spec := binary_make_spec leb
|}.
