(* ===== verification/CoreTiming.v ===== *)
(** The event scheduler ([Core/CoreTiming.cpp]).

    Time is counted in processor cycles. The scheduler ends a slice in
    [Advance], runs the events that are due, and chooses the length of the next
    slice; in between the processor counts [downcount] down.

    A callback is a parameter: it gets its data, how late it is, the time and
    the rest of the machine, and returns the machine and the calls it makes to
    the scheduler. Overclocking is off ([m_OCEnable]), so that both factors are
    1.0f; the conversions still round as a float does. The theorems say that
    due events run once, in order of time and of scheduling, that [Advance]
    ends, and that no event is overslept. *)

From Stdlib Require Import Sorting.Sorted.
From S2P Require Import Prelude PpcState StdHeap.
Open Scope Z_scope.

(** ** Events *)

(** An event type is a pointer to its registration; the queue compares it only
    for identity. *)
Definition EventType : Type := Z.

Record Event := mk_event {
  time : Z;
  fifo_order : Z;
  userdata : Z;
  type : EventType
}.

(** The negation of [operator>]: by time, then by the order of scheduling. *)
Definition event_leb (left right : Event) : bool :=
  (time left <? time right) || ((time left =? time right) && (fifo_order left <=? fifo_order right)).

#[export] Instance event_order : TotalPreorder event_leb.
Proof.
  split; unfold event_leb; intros *.
  - destruct (Z.ltb_spec (time x) (time y)), (Z.ltb_spec (time y) (time x)), (Z.eqb_spec (time x) (time y)),
      (Z.eqb_spec (time y) (time x)), (Z.leb_spec (fifo_order x) (fifo_order y)), (Z.leb_spec (fifo_order y) (fifo_order x));
      cbn; auto; lia.
  - destruct (Z.ltb_spec (time x) (time y)), (Z.ltb_spec (time y) (time z)), (Z.ltb_spec (time x) (time z)),
      (Z.eqb_spec (time x) (time y)), (Z.eqb_spec (time y) (time z)), (Z.eqb_spec (time x) (time z)),
      (Z.leb_spec (fifo_order x) (fifo_order y)), (Z.leb_spec (fifo_order y) (fifo_order z)), (Z.leb_spec (fifo_order x) (fifo_order z));
      cbn; intros; congruence || lia || auto.
Qed.

(** ** Cycles and downcount *)

Definition MAX_SLICE_LENGTH : Z := 20000.

(** The float nearest to an [int], which has 24 significant bits. *)
Definition float_of_int (x : Z) : Z :=
  let a := Z.abs x in
  if a <=? 2 ^ 24 then x
  else
    let e := Z.log2 a - 23 in
    let q := a / 2 ^ e in
    let r := a mod 2 ^ e in
    let q := if (2 ^ (e - 1) <? r) || ((r =? 2 ^ (e - 1)) && Z.odd q) then q + 1 else q in
    Z.sgn x * (q * 2 ^ e).

(** [static_cast<int>(x * 1.0f)] *)
Definition DowncountToCycles (downcount : Z) : Z := s32 (float_of_int downcount).
Definition CyclesToDowncount (cycles : Z) : Z := s32 (float_of_int cycles).

Section CoreTiming.
(** The rest of the machine, and an implementation of the heap algorithms. *)
Context {W : Type} {heap : HeapAlgorithms Event event_leb}.

(** The calls of a callback to the scheduler. *)
Inductive Command :=
  | Schedule (cycles_into_future : Z) (event_type : EventType) (userdata : Z)
  | Remove (event_type : EventType).

(** [ev.type->callback(userdata, cyclesLate)] at a time. *)
Variable callback : EventType -> Z -> Z -> Z -> PowerPCState * W -> (PowerPCState * W) * list Command.

Record State := mk_state {
  ppc : PowerPCState;
  world : W;
  global_timer : Z;
  slice_length : Z;
  s_event_queue : list Event;
  s_event_fifo_id : Z;
  s_ts_queue : list Event;
  s_idled_cycles : Z;
  s_is_global_timer_sane : bool
}.

Definition set_machine (x : PowerPCState * W) (s : State) : State :=
  mk_state (fst x) (snd x) (global_timer s) (slice_length s) (s_event_queue s) (s_event_fifo_id s) (s_ts_queue s) (s_idled_cycles s) (s_is_global_timer_sane s).
Definition set_global_timer x (s : State) : State :=
  mk_state (ppc s) (world s) x (slice_length s) (s_event_queue s) (s_event_fifo_id s) (s_ts_queue s) (s_idled_cycles s) (s_is_global_timer_sane s).
Definition set_slice_length x (s : State) : State :=
  mk_state (ppc s) (world s) (global_timer s) x (s_event_queue s) (s_event_fifo_id s) (s_ts_queue s) (s_idled_cycles s) (s_is_global_timer_sane s).
Definition set_queue q id (s : State) : State :=
  mk_state (ppc s) (world s) (global_timer s) (slice_length s) q id (s_ts_queue s) (s_idled_cycles s) (s_is_global_timer_sane s).
Definition set_ts_queue x (s : State) : State :=
  mk_state (ppc s) (world s) (global_timer s) (slice_length s) (s_event_queue s) (s_event_fifo_id s) x (s_idled_cycles s) (s_is_global_timer_sane s).
Definition set_idled x (s : State) : State :=
  mk_state (ppc s) (world s) (global_timer s) (slice_length s) (s_event_queue s) (s_event_fifo_id s) (s_ts_queue s) x (s_is_global_timer_sane s).
Definition set_sane x (s : State) : State :=
  mk_state (ppc s) (world s) (global_timer s) (slice_length s) (s_event_queue s) (s_event_fifo_id s) (s_ts_queue s) (s_idled_cycles s) x.
Definition set_ppc x (s : State) : State := set_machine (x, world s) s.

(** ** Operations *)

(** Without the registration of the lost-event type. *)
Definition Init (s : State) : State :=
  let s := set_ppc (set_downcount (CyclesToDowncount MAX_SLICE_LENGTH) (ppc s)) s in
  let s := set_slice_length MAX_SLICE_LENGTH s in
  let s := set_global_timer 0 s in
  let s := set_idled 0 s in
  let s := set_sane true s in
  set_queue (s_event_queue s) 0 s.

Definition GetTicks (s : State) : Z :=
  let ticks := u64 (global_timer s) in
  if negb (s_is_global_timer_sane s)
  then u64 (ticks + s32 (slice_length s - DowncountToCycles (downcount (ppc s)))) else ticks.

Definition GetIdleTicks (s : State) : Z := u64 (s_idled_cycles s).

Definition ClearPendingEvents (s : State) : State := set_queue [] (s_event_fifo_id s) s.

Definition ForceExceptionCheck (cycles : Z) (s : State) : State :=
  let cycles := Z.max 0 cycles in
  if cycles <? DowncountToCycles (downcount (ppc s)) then
    let s := set_slice_length (s32 (slice_length s - s32 (DowncountToCycles (downcount (ppc s)) - s32 cycles))) s in
    set_ppc (set_downcount (CyclesToDowncount (s32 cycles)) (ppc s)) s
  else s.

(** [emplace_back] and [push_heap], with the next number. *)
Definition push_event (t ud : Z) (ty : EventType) (s : State) : State :=
  set_queue (push_heap (s_event_queue s ++ [mk_event t (s_event_fifo_id s) ud ty])) (u64 (s_event_fifo_id s + 1)) s.

(** The thread that calls decides between the two queues. *)
Definition ScheduleEvent (cycles_into_future : Z) (event_type : EventType) (ud : Z) (from_cpu_thread : bool) (s : State) : State :=
  if from_cpu_thread then
    let timeout := s64 (GetTicks s + cycles_into_future) in
    let s := if negb (s_is_global_timer_sane s) then ForceExceptionCheck cycles_into_future s else s in
    push_event timeout ud event_type s
  else
    set_ts_queue (s_ts_queue s ++ [mk_event (s64 (global_timer s + cycles_into_future)) 0 ud event_type]) s.

Definition RemoveEvent (event_type : EventType) (s : State) : State :=
  let q := filter (fun e => type e <> event_type) (s_event_queue s) in
  if (length q <? length (s_event_queue s))%nat
  then set_queue (make_heap q) (s_event_fifo_id s) s else s.

(** [Pop] until the queue between the threads is empty. *)
Definition MoveEvents (s : State) : State :=
  set_ts_queue [] (fold_left (fun s e => push_event (time e) (userdata e) (type e) s) (s_ts_queue s) s).

Definition RemoveAllEvents (event_type : EventType) (s : State) : State := RemoveEvent event_type (MoveEvents s).

Definition run_command (s : State) (c : Command) : State :=
  match c with
  | Schedule cycles ty ud => ScheduleEvent cycles ty ud true s
  | Remove ty => RemoveEvent ty s
  end.

(** The loop of [Advance]; the events that ran are returned beside the state,
    and [None] says that the fuel did not suffice. *)
Fixpoint advance_loop (fuel : nat) (s : State) : option (State * list Event) :=
  match fuel with
  | O => None
  | S fuel' =>
    match s_event_queue s with
    | evt :: _ =>
      if time evt <=? global_timer s then
        let s := set_queue (removelast (pop_heap (s_event_queue s))) (s_event_fifo_id s) s in
        let '(machine, commands) :=
          callback (type evt) (userdata evt) (s64 (global_timer s - time evt)) (global_timer s) (ppc s, world s) in
        let s := fold_left run_command commands (set_machine machine s) in
        r ← advance_loop fuel' s; Some (r.1, evt :: r.2)
      else Some (s, [])
    | [] => Some (s, [])
    end
  end.

(** What [Advance] does before and after its loop. *)
Definition begin_slice (s : State) : State :=
  let s := MoveEvents s in
  let cyclesExecuted := s32 (slice_length s - DowncountToCycles (downcount (ppc s))) in
  let s := set_global_timer (s64 (global_timer s + cyclesExecuted)) s in
  let s := set_slice_length MAX_SLICE_LENGTH s in
  set_sane true s.

Definition end_slice (s : State) : State :=
  let s := set_sane false s in
  let s :=
    match s_event_queue s with
    | evt :: _ => set_slice_length (s32 (Z.min (s64 (time evt - global_timer s)) MAX_SLICE_LENGTH)) s
    | [] => s
    end in
  let s := set_ppc (set_downcount (CyclesToDowncount (slice_length s)) (ppc s)) s in
  set_ppc (CheckExternalExceptions (ppc s)) s.

Definition Advance (fuel : nat) (s : State) : option (State * list Event) :=
  r ← advance_loop fuel (begin_slice s); Some (end_slice r.1, r.2).

(** The quotient is signed: [old_ppc_clock] is converted to [s64]. *)
Definition AdjustEventQueueTimes (new_ppc_clock old_ppc_clock : Z) (s : State) : State :=
  set_queue
    ((fun ev =>
        let ticks := s64 (Z.quot (s64 (s64 (time ev - global_timer s) * new_ppc_clock)) old_ppc_clock) in
        mk_event (s64 (global_timer s + ticks)) (fifo_order ev) (userdata ev) (type ev)) <$> s_event_queue s)
    (s_event_fifo_id s) s.

(** Without waiting for the graphics processor ([bSyncGPUOnSkipIdleHack]). *)
Definition Idle (s : State) : State :=
  let s := set_idled (s64 (s_idled_cycles s + DowncountToCycles (downcount (ppc s)))) s in
  set_ppc (set_downcount 0 (ppc s)) s.

(** ** Invariant *)

(** Times far from the limits of [s64]. *)
Definition TIME_LIMIT : Z := 2 ^ 62.
Definition CYCLES_LIMIT : Z := 2 ^ 61.

Record wf_queue (s : State) : Prop := {
  q_heap : is_heap event_leb (s_event_queue s);
  q_ids : NoDup (fifo_order <$> s_event_queue s);
  q_fresh : Forall (fun e => fifo_order e < s_event_fifo_id s) (s_event_queue s);
  q_times : Forall (fun e => - TIME_LIMIT <= time e < TIME_LIMIT + CYCLES_LIMIT) (s_event_queue s);
  q_now : 0 <= global_timer s < TIME_LIMIT;
  q_next_id : 0 <= s_event_fifo_id s
}.
End CoreTiming.

Arguments State W : clear implicits.

(** ** The queue *)

Section Queue.
Context {W : Type} {heap : HeapAlgorithms Event event_leb}.
Variable callback : EventType -> Z -> Z -> Z -> PowerPCState * W -> (PowerPCState * W) * list Command.
Implicit Types s : State W.

(** Everything but the queue, its counter and the machine. *)
Definition same_clock s s' : Prop :=
  global_timer s' = global_timer s /\ slice_length s' = slice_length s /\ s_ts_queue s' = s_ts_queue s /\
  s_is_global_timer_sane s' = s_is_global_timer_sane s.

Lemma same_clock_refl s : same_clock s s.
Proof. done. Qed.

Lemma same_clock_trans s1 s2 s3 : same_clock s1 s2 -> same_clock s2 s3 -> same_clock s1 s3.
Proof. unfold same_clock. intuition congruence. Qed.

Definition time_ok (t : Z) : Prop := - TIME_LIMIT <= t < TIME_LIMIT + CYCLES_LIMIT.

Lemma wf_permuted s q q' id :
  wf_queue s -> q ≡ₚ q' -> is_heap event_leb q -> NoDup (fifo_order <$> q') ->
  Forall (fun e => fifo_order e < id) q' -> Forall (fun e => time_ok (time e)) q' -> 0 <= id ->
  wf_queue (set_queue q id s).
Proof.
  intros [] P Hh Hn Hf Ht Hid. constructor; cbn; try done.
  - rewrite P. done.
  - rewrite P. done.
  - unfold time_ok in Ht. rewrite P. done.
Qed.

(** Scheduling adds one event. *)
Lemma push_event_spec t ud ty s :
  wf_queue s -> time_ok t -> s_event_fifo_id s + 1 < 2 ^ 64 ->
  let s' := push_event t ud ty s in
  wf_queue s' /\ s_event_queue s' ≡ₚ s_event_queue s ++ [mk_event t (s_event_fifo_id s) ud ty] /\
  s_event_fifo_id s' = s_event_fifo_id s + 1 /\ same_clock s s' /\ ppc s' = ppc s.
Proof.
  intros Hs Ht Hid. cbv zeta. unfold push_event. set (e := mk_event _ _ _ _).
  destruct (push_heap_spec (s_event_queue s) e (q_heap s Hs)) as [P Q]. pose proof (q_next_id s Hs).
  rewrite wrapu_id by (unfold inu; lia). split; [| done].
  pose proof (q_fresh s Hs) as Hf. apply (wf_permuted s _ (s_event_queue s ++ [e])); try done; [| | | lia].
  - rewrite fmap_app. apply NoDup_app. split; [apply (q_ids s Hs) |]. split; [| apply NoDup_singleton].
    intros x (a & -> & Ha)%list_elem_of_fmap Hx. apply list_elem_of_singleton in Hx. rewrite Forall_forall in Hf.
    specialize (Hf a Ha). cbn in Hx. lia.
  - apply Forall_app. split; [| apply Forall_singleton; cbn; lia]. eapply Forall_impl; [exact Hf |]. cbn. intros. lia.
  - apply Forall_app. split; [apply (q_times s Hs) | apply Forall_singleton; done].
Qed.

Lemma sublist_wf s q l :
  wf_queue s -> is_heap event_leb q -> s_event_queue s ≡ₚ l ++ q -> wf_queue (set_queue q (s_event_fifo_id s) s).
Proof.
  intros Hs Hh P. pose proof Hs as []. apply (wf_permuted s q q); try done.
  - rewrite P, fmap_app in q_ids0. apply NoDup_app in q_ids0 as (_ & _ & ?). done.
  - rewrite P in q_fresh0. apply Forall_app in q_fresh0 as [_ ?]. done.
  - rewrite P in q_times0. apply Forall_app in q_times0 as [_ ?]. done.
Qed.

(** Taking the front event leaves the others. *)
Lemma pop_event_spec s e q :
  wf_queue s -> s_event_queue s = e :: q ->
  let q' := removelast (pop_heap (s_event_queue s)) in
  q' ≡ₚ q /\ wf_queue (set_queue q' (s_event_fifo_id s) s) /\ forall x, x ∈ e :: q -> event_leb e x = true.
Proof.
  intros Hs Eq. cbv zeta. pose proof (q_heap s Hs) as Hh. rewrite Eq in Hh.
  destruct (pop_heap_spec e q Hh) as (q' & E & P & Q). rewrite Eq, E, removelast_last.
  split; [done | split; [| intros x Hx; apply (heap_front _ _ _ _ Hh Hx)]].
  apply (sublist_wf s q' [e]); [done | done |]. rewrite Eq, P. done.
Qed.

(** The processor and the devices, which callbacks act on. *)
Definition machine s : PowerPCState * W := (ppc s, world s).

(** The events that calls of [ScheduleEvent] at the time [t] put into the queue. *)
Fixpoint scheduled (t id : Z) (l : list Command) : list Event :=
  match l with
  | [] => []
  | Schedule cycles ty ud :: l => mk_event (t + cycles) id ud ty :: scheduled t (id + 1) l
  | Remove _ :: l => scheduled t id l
  end.

Lemma scheduled_app t id l l' :
  Forall (fun c => if c is Schedule _ _ _ then True else False) l ->
  scheduled t id (l ++ l') = scheduled t id l ++ scheduled t (id + Z.of_nat (length l)) l'.
Proof.
  intros H. revert id. induction H as [| c l Hc _ IH]; intros id; cbn [app scheduled length]; [rewrite Z.add_0_r; done |].
  destruct c; [| done]. cbn [app]. rewrite IH. do 3 f_equal. lia.
Qed.

(** Calls from a callback, while the timer is exact. *)
Definition future_call (c : Command) : Prop :=
  match c with Schedule cycles _ _ => 0 < cycles <= CYCLES_LIMIT | Remove _ => False end.

Lemma run_commands_spec l s :
  wf_queue s -> s_is_global_timer_sane s = true -> Forall future_call l ->
  s_event_fifo_id s + Z.of_nat (length l) < 2 ^ 64 ->
  let s' := fold_left run_command l s in
  wf_queue s' /\ s_event_fifo_id s' = s_event_fifo_id s + Z.of_nat (length l) /\ same_clock s s' /\
  machine s' = machine s /\ s_event_queue s' ≡ₚ s_event_queue s ++ scheduled (global_timer s) (s_event_fifo_id s) l.
Proof.
  intros Hs Hsane Hl. revert s Hs Hsane. induction Hl as [| c l Hc _ IH]; intros s Hs Hsane Hid; cbn [fold_left].
  - split; [done | split; [cbn; lia | split; [done | split; [done |]]]]. cbn [scheduled]. rewrite app_nil_r. done.
  - destruct c as [cycles ty ud |]; [| done]. cbn [future_call] in Hc. cbn [run_command].
    pose proof (q_now s Hs) as Hnow. unfold TIME_LIMIT, CYCLES_LIMIT in *. cbn [length] in Hid.
    assert (E : ScheduleEvent cycles ty ud true s = push_event (global_timer s + cycles) ud ty s).
    { unfold ScheduleEvent, GetTicks. rewrite Hsane. cbn [negb]. f_equal.
      rewrite (wrapu_id 64) by (unfold inu; lia). apply wraps_id; [lia | unfold ins; change (2 ^ (64 - 1)) with (2 ^ 63); lia]. }
    rewrite E. destruct (push_event_spec (global_timer s + cycles) ud ty s Hs) as (W1 & P1 & I1 & C1 & _).
    { unfold time_ok, TIME_LIMIT, CYCLES_LIMIT. lia. }
    { lia. }
    set (s1 := push_event _ _ _ s) in *. destruct C1 as (G1 & C1).
    destruct (IH s1 W1) as (W2 & I2 & C2 & M2 & P2); [destruct C1; intuition congruence | lia |].
    split; [done | split; [cbn; lia | split; [apply (same_clock_trans _ s1); done | split; [done |]]]].
    cbn [scheduled]. rewrite P2, P1, G1, I1, <- app_assoc. done.
Qed.

(** ** The loop *)

Definition due s (e : Event) : Prop := time e <= global_timer s.
#[export] Instance due_dec s e : Decision (due s e).
Proof. unfold due. apply _. Defined.

(** Callbacks that schedule at most [K] events each, all of them in the future. *)
Definition well_behaved (K : nat) : Prop :=
  forall ty ud late now m, Forall future_call (snd (callback ty ud late now m)) /\
                           (length (snd (callback ty ud late now m)) <= K)%nat.

(** What the callbacks of the events [ran], one after the other, make of the
    machine at the time [t], and their calls. *)
Fixpoint run_callbacks (t : Z) (ran : list Event) (m : PowerPCState * W) : (PowerPCState * W) * list Command :=
  match ran with
  | [] => (m, [])
  | e :: ran =>
    let '(m, cmds) := callback (type e) (userdata e) (t - time e) t m in
    let '(m, cmds') := run_callbacks t ran m in (m, cmds ++ cmds')
  end.

Lemma run_callbacks_future K t ran m : well_behaved K -> Forall future_call (snd (run_callbacks t ran m)).
Proof.
  intros Hk. revert m. induction ran as [| e ran IH]; intros m; cbn [run_callbacks]; [constructor |].
  pose proof (Hk (type e) (userdata e) (t - time e) t m) as [F _]. destruct (callback _ _ _ _ _) as [m1 cmds].
  specialize (IH m1). destruct (run_callbacks t ran m1) as [m2 cmds']. apply Forall_app. done.
Qed.

Lemma scheduled_later t id l : Forall future_call l -> Forall (fun e => t < time e) (scheduled t id l).
Proof.
  intros H. revert id. induction H as [| c l Hc _ IH]; intros id; cbn [scheduled]; [constructor |].
  destruct c; cbn [future_call] in Hc; [constructor; [cbn; lia | apply IH] | done].
Qed.

Lemma future_calls_schedule l : Forall future_call l -> Forall (fun c => if c is Schedule _ _ _ then True else False) l.
Proof. intros H. eapply Forall_impl; [exact H |]. intros []; done. Qed.

Definition in_order : list Event -> Prop := StronglySorted (fun a b => event_leb a b = true).

Lemma filter_none s l : Forall (fun e => global_timer s < time e) l -> filter (due s) l = [].
Proof.
  induction 1 as [| e l He _ IH]; [done |]. rewrite filter_cons_False by (unfold due; lia). exact IH.
Qed.

Lemma filter_due_later s l new :
  Forall (fun e => global_timer s < time e) new -> filter (due s) (l ++ new) = filter (due s) l.
Proof.
  intros F. rewrite filter_app. etransitivity; [apply (f_equal (app _) (filter_none s new F)) | apply app_nil_r].
Qed.

Lemma filter_later s l : Forall (fun e => global_timer s < time e) l -> filter (fun e => ~ due s e) l = l.
Proof.
  induction 1 as [| e l He _ IH]; [done |]. rewrite filter_cons_True by (unfold due; lia). by rewrite IH.
Qed.

Lemma advance_loop_spec K n s :
  wf_queue s -> s_is_global_timer_sane s = true -> well_behaved K ->
  s_event_fifo_id s + Z.of_nat n * Z.of_nat K < 2 ^ 64 -> (length (filter (due s) (s_event_queue s)) < n)%nat ->
  exists s' ran, advance_loop callback n s = Some (s', ran) /\ wf_queue s' /\ same_clock s s' /\
    in_order ran /\ ran ≡ₚ filter (due s) (s_event_queue s) /\
    let '(m, cmds) := run_callbacks (global_timer s) ran (machine s) in
    machine s' = m /\
    s_event_queue s' ≡ₚ filter (fun e => ~ due s e) (s_event_queue s) ++ scheduled (global_timer s) (s_event_fifo_id s) cmds.
Proof.
  intros Hs Hsane Hk. revert s Hs Hsane. induction n as [| n IH]; intros s Hs Hsane Hid Hn; [lia |].
  cbn [advance_loop]. destruct (s_event_queue s) as [| e q] eqn:Eq.
  - exists s, []. split; [done |]. split; [done |]. split; [done |]. split; [constructor |]. split; [done |]. split; [done |]. rewrite Eq. done.
  - destruct (pop_event_spec s e q Hs Eq) as (P & Wp & Hmin). rewrite Eq in P, Wp.
    destruct (Z.leb_spec (time e) (global_timer s)) as [Hdue | Hnot].
    + set (s0 := set_queue _ _ s) in *.
      assert (late : s64 (global_timer s - time e) = global_timer s - time e).
      { pose proof (q_now s Hs) as Hg. pose proof (q_times s Hs) as Ht. rewrite Eq in Ht. apply Forall_cons in Ht as [Ht _].
        unfold TIME_LIMIT, CYCLES_LIMIT in *. apply wraps_id; [lia |]. unfold ins. change (2 ^ (64 - 1)) with (2 ^ 63). lia. }
      change (global_timer s0) with (global_timer s). rewrite late. change (ppc s0, world s0) with (machine s).
      pose proof (Hk (type e) (userdata e) (global_timer s - time e) (global_timer s) (machine s)) as [Hf Hl].
      destruct (callback _ _ _ (global_timer s) (machine s)) as [m cmds] eqn:Ecb. cbn [snd] in Hf, Hl.
      assert (W0 : wf_queue (set_machine m s0)) by (destruct Wp; constructor; done).
      destruct (run_commands_spec cmds (set_machine m s0) W0 Hsane Hf) as (W1 & I1 & C1 & M1 & P1).
      { cbn. nia. }
      set (s1 := fold_left run_command cmds (set_machine m s0)) in *. set (new1 := scheduled _ _ cmds) in *.
      change (s_event_queue (set_machine m s0)) with (removelast (pop_heap (e :: q))) in P1. rewrite P in P1.
      assert (F1 : Forall (fun e => global_timer s < time e) new1) by (apply scheduled_later; done).
      assert (Em : machine s1 = m) by (rewrite M1; destruct m; done).
      assert (Eg : global_timer s1 = global_timer s) by (destruct C1 as [G _]; exact G).
      assert (Ed : forall l, filter (due s1) l = filter (due s) l)
        by (intros l; apply list_filter_iff; intros x; unfold due; rewrite Eg; done).
      assert (D1 : filter (due s1) (s_event_queue s1) ≡ₚ filter (due s) q).
      { rewrite Ed, P1. apply reflexive_eq. exact (filter_due_later s q new1 F1). }
      change (s_event_fifo_id (set_machine m s0)) with (s_event_fifo_id s) in I1.
      destruct (IH s1 W1) as (s' & ran & E & W' & C' & O & R & X).
      { destruct C1 as (_ & _ & _ & ->). exact Hsane. }
      { nia. }
      { rewrite D1. rewrite filter_cons_True in Hn by done. cbn in Hn. lia. }
      rewrite E. cbn [mbind option_bind fst snd]. exists s', (e :: ran). split; [done |]. split; [done |].
      split; [apply (same_clock_trans _ s1); [exact C1 | exact C'] |].
      rewrite filter_cons_True by done. rewrite (filter_cons_False (fun e => ~ due s e)) by (unfold due; lia).
      split; [constructor; [done |] |].
      * apply Forall_forall. intros x Hx. rewrite R, D1 in Hx. apply list_elem_of_filter in Hx as [_ Hx].
        apply Hmin. right. exact Hx.
      * split; [rewrite R, D1; done |]. cbn [run_callbacks]. rewrite Ecb. rewrite Eg, Em in X.
        destruct (run_callbacks (global_timer s) ran m) as [m' cmds']. destruct X as [M' P']. split; [done |].
        rewrite scheduled_app by (apply future_calls_schedule; done). rewrite P', I1.
        rewrite (list_filter_iff (fun e => ~ due s1 e) (fun e => ~ due s e))
          by (intros x; unfold due; rewrite Eg; done).
        rewrite P1, filter_app, <- app_assoc. f_equiv. f_equiv. apply reflexive_eq, filter_later. exact F1.
    + assert (Hall : Forall (fun x => global_timer s < time x) (e :: q)).
      { apply Forall_forall. intros x Hx. specialize (Hmin x Hx). unfold event_leb in Hmin.
        destruct (Z.ltb_spec (time e) (time x)), (Z.eqb_spec (time e) (time x)); cbn in Hmin; (lia || done). }
      exists s, []. rewrite (filter_none s _ Hall). split; [done |]. split; [done |]. split; [done |].
      split; [constructor |]. split; [done |]. split; [done |]. cbn [scheduled]. rewrite app_nil_r, Eq. apply reflexive_eq. symmetry. apply filter_later. exact Hall.
Qed.
(** ** The queue between the threads *)

(** The events other threads scheduled, numbered on arrival. *)
Fixpoint numbered (id : Z) (l : list Event) : list Event :=
  match l with
  | [] => []
  | e :: l => mk_event (time e) id (userdata e) (type e) :: numbered (id + 1) l
  end.

Lemma push_events_spec l s :
  wf_queue s -> Forall (fun e => time_ok (time e)) l -> s_event_fifo_id s + Z.of_nat (length l) < 2 ^ 64 ->
  let s' := fold_left (fun s e => push_event (time e) (userdata e) (type e) s) l s in
  wf_queue s' /\ s_event_queue s' ≡ₚ s_event_queue s ++ numbered (s_event_fifo_id s) l /\
  s_event_fifo_id s' = s_event_fifo_id s + Z.of_nat (length l) /\ same_clock s s' /\ machine s' = machine s.
Proof.
  intros Hs Hl. revert s Hs. induction Hl as [| e l He _ IH]; intros s Hs Hid; cbn [fold_left numbered length] in *.
  - rewrite app_nil_r. split; [done |]. split; [done |]. split; [lia | done].
  - destruct (push_event_spec (time e) (userdata e) (type e) s Hs He) as (W1 & P1 & I1 & C1 & E1); [lia |].
    destruct (IH _ W1) as (W2 & P2 & I2 & C2 & E2); [lia |]. split; [done |].
    split; [rewrite P2, P1, <- app_assoc, I1; reflexivity |]. split; [lia |].
    split; [apply (same_clock_trans _ _ _ C1 C2) | exact E2].
Qed.

(** ** A slice *)

Lemma float_exact x : - 2 ^ 24 <= x <= 2 ^ 24 -> DowncountToCycles x = x /\ CyclesToDowncount x = x.
Proof.
  intros Hx. unfold DowncountToCycles, CyclesToDowncount, float_of_int.
  destruct (Z.leb_spec (Z.abs x) (2 ^ 24)); [| lia]. rewrite wraps_id by (lia || (unfold ins; lia)). done.
Qed.

Lemma downcount_set_downcount x p : downcount (set_downcount x p) = x.
Proof. done. Qed.

Lemma CheckExternalExceptions_downcount p : downcount (CheckExternalExceptions p) = downcount p.
Proof. unfold CheckExternalExceptions, take_exception, put_spr. by repeat case_match. Qed.

(** The time, as the processor's countdown tells it. *)
Definition now s : Z := global_timer s + (slice_length s - downcount (ppc s)).

Definition slice_ok s : Prop :=
  0 <= slice_length s <= MAX_SLICE_LENGTH /\ - 2 ^ 24 <= downcount (ppc s) <= slice_length s /\ now s < TIME_LIMIT.

(** All that is scheduled. *)
Definition pending s : list Event := s_event_queue s ++ numbered (s_event_fifo_id s) (s_ts_queue s).
Definition is_due s (e : Event) : Prop := time e <= now s.
#[export] Instance is_due_dec s e : Decision (is_due s e).
Proof. unfold is_due. apply _. Defined.

(** What [n] rounds of the loop need. *)
Definition can_advance (K n : nat) s : Prop :=
  Forall (fun e => time_ok (time e)) (s_ts_queue s) /\
  s_event_fifo_id s + Z.of_nat (length (s_ts_queue s)) + Z.of_nat n * Z.of_nat K < 2 ^ 64 /\
  (length (filter (is_due s) (pending s)) < n)%nat.

Lemma begin_slice_spec K n s :
  wf_queue s -> slice_ok s -> can_advance K n s ->
  let s' := begin_slice s in
  wf_queue s' /\ global_timer s' = now s /\ slice_length s' = MAX_SLICE_LENGTH /\ s_is_global_timer_sane s' = true /\
  s_ts_queue s' = [] /\ s_event_queue s' ≡ₚ pending s /\ machine s' = machine s /\
  s_event_fifo_id s' = s_event_fifo_id s + Z.of_nat (length (s_ts_queue s)).
Proof.
  intros Hs (Hsl & Hd & Hnow) (Ht & Hid & _). cbv zeta. unfold begin_slice, MoveEvents.
  destruct (push_events_spec (s_ts_queue s) s Hs Ht) as (W1 & P1 & I1 & (G & L & _ & _) & E1); [lia |].
  pose proof (f_equal fst E1 : ppc _ = ppc s) as Ep. pose proof (f_equal snd E1 : world _ = world s) as Ewo.
  set (s1 := fold_left _ _ s) in *. pose proof (q_now s Hs) as Hg. unfold TIME_LIMIT, MAX_SLICE_LENGTH in *.
  assert (Em : s64 (global_timer s1 + s32 (slice_length s1 - DowncountToCycles (downcount (ppc s1)))) = now s).
  { rewrite G, L, Ep, (proj1 (float_exact (downcount (ppc s)) ltac:(lia))). unfold now in *.
    rewrite (wraps_id 32) by (lia || (unfold ins; change (2 ^ (32 - 1)) with (2 ^ 31); lia)).
    apply wraps_id; [lia | unfold ins; change (2 ^ (64 - 1)) with (2 ^ 63); lia]. }
  cbn. rewrite Em. split; [| done]. destruct W1. constructor; cbn; try done. unfold now in *. unfold TIME_LIMIT. lia.
Qed.

(** The next slice ends no later than the next event. *)
Lemma end_slice_spec s :
  wf_queue s -> slice_length s = MAX_SLICE_LENGTH -> Forall (fun e => global_timer s < time e) (s_event_queue s) ->
  let s' := end_slice s in
  wf_queue s' /\ global_timer s' = global_timer s /\ s_event_queue s' = s_event_queue s /\
  s_event_fifo_id s' = s_event_fifo_id s /\ s_ts_queue s' = s_ts_queue s /\ s_is_global_timer_sane s' = false /\
  0 < slice_length s' <= MAX_SLICE_LENGTH /\ downcount (ppc s') = slice_length s' /\
  machine s' = (CheckExternalExceptions (set_downcount (slice_length s') (ppc s)), world s) /\
  Forall (fun e => global_timer s + slice_length s' <= time e) (s_event_queue s).
Proof.
  intros Hs Hl Hf. cbv zeta. unfold end_slice. pose proof (q_now s Hs) as Hg.
  set (s1 := match _ with [] => _ | _ => _ end).
  assert (L : 0 < slice_length s1 <= MAX_SLICE_LENGTH /\
              Forall (fun e => global_timer s + slice_length s1 <= time e) (s_event_queue s)).
  { subst s1. change (s_event_queue (set_sane false s)) with (s_event_queue s). pose proof (q_heap s Hs) as Hh.
    pose proof (q_times s Hs) as Ht. destruct (s_event_queue s) as [| e q] eqn:Eq; [cbn; rewrite Hl; unfold MAX_SLICE_LENGTH; split; [lia | constructor] |].
    apply Forall_cons in Hf as [He _]. apply Forall_cons in Ht as [Ht _].
    cbn [slice_length set_slice_length global_timer set_sane]. unfold TIME_LIMIT, CYCLES_LIMIT, MAX_SLICE_LENGTH in *.
    rewrite (wraps_id 64) by (lia || (unfold ins; change (2 ^ (64 - 1)) with (2 ^ 63); lia)).
    rewrite (wraps_id 32) by (lia || (unfold ins; change (2 ^ (32 - 1)) with (2 ^ 31); lia)).
    split; [lia |]. apply Forall_forall. intros x Hx. pose proof (heap_front _ _ _ _ Hh Hx) as Hm. unfold event_leb in Hm.
    destruct (Z.ltb_spec (time e) (time x)), (Z.eqb_spec (time e) (time x)); cbn in Hm; (lia || done). }
  assert (C : s1 = set_slice_length (slice_length s1) (set_sane false s)) by (subst s1; case_match; done).
  destruct L as [L F]. clearbody s1. rewrite C in *. cbn [slice_length set_slice_length] in L, F.
  assert (D : CyclesToDowncount (slice_length s1) = slice_length s1)
    by (apply float_exact; unfold MAX_SLICE_LENGTH in L; lia).
  split; [destruct Hs; constructor; done |]. do 5 (split; [done |]). split; [exact L |]. split; [| split; [| exact F]].
  - cbn. rewrite CheckExternalExceptions_downcount. exact D.
  - unfold machine. cbn. rewrite D. done.
Qed.

(** The events due, the events left, and what the callbacks make of the machine
    and add to the queue. *)
Definition advanced s s' (ran : list Event) : Prop :=
  let '(m, cmds) := run_callbacks (now s) ran (machine s) in
  machine s' = (CheckExternalExceptions (set_downcount (slice_length s') m.1), m.2) /\
  s_event_queue s' ≡ₚ filter (fun e => ~ is_due s e) (pending s) ++
    scheduled (now s) (s_event_fifo_id s + Z.of_nat (length (s_ts_queue s))) cmds.

Lemma Advance_spec K n s :
  wf_queue s -> slice_ok s -> well_behaved K -> can_advance K n s ->
  exists s' ran, Advance callback n s = Some (s', ran) /\
    in_order ran /\ ran ≡ₚ filter (is_due s) (pending s) /\ advanced s s' ran /\
    wf_queue s' /\ global_timer s' = now s /\ s_ts_queue s' = [] /\ s_is_global_timer_sane s' = false /\
    0 < slice_length s' <= MAX_SLICE_LENGTH /\ downcount (ppc s') = slice_length s' /\
    Forall (fun e => global_timer s' + slice_length s' <= time e) (s_event_queue s').
Proof.
  intros Hs Hsl Hk Hc. destruct (begin_slice_spec K n s Hs Hsl Hc) as (W0 & G0 & L0 & S0 & T0 & P0 & M0 & I0).
  destruct Hc as (_ & Hid & Hn). unfold Advance. set (s0 := begin_slice s) in *.
  assert (Ed : forall l, filter (due s0) l = filter (is_due s) l)
    by (intros l; apply list_filter_iff; intros x; unfold due, is_due; rewrite G0; done).
  assert (En : forall l, filter (fun e => ~ due s0 e) l = filter (fun e => ~ is_due s e) l)
    by (intros l; apply list_filter_iff; intros x; unfold due, is_due; rewrite G0; done).
  destruct (advance_loop_spec K n s0 W0 S0 Hk) as (s1 & ran & E & W1 & (G1 & L1 & T1 & S1) & O & R & X).
  { rewrite I0. lia. }
  { rewrite P0, Ed. exact Hn. }
  pose proof (run_callbacks_future K (now s) ran (machine s) Hk) as Hf.
  rewrite G0, M0 in X. rewrite E. cbn [mbind option_bind fst snd]. unfold advanced.
  destruct (run_callbacks (now s) ran (machine s)) as [m cmds] eqn:Er. destruct X as [M1 P1]. rewrite En, I0, P0 in P1.
  destruct (end_slice_spec s1 W1) as (W2 & G2 & Q2 & I2 & T2 & S2 & L2 & D2 & M2 & F2); [congruence | |].
  { rewrite G1, G0, P1. apply Forall_app. split; [| apply scheduled_later; done]. apply Forall_forall. intros x [Hx _]%list_elem_of_filter.
    unfold is_due in Hx. lia. }
  exists (end_slice s1), ran. split_and!; try done; try congruence.
  - rewrite R, P0, Ed. done.
  - rewrite Er. split; [rewrite M2, <- M1; done | rewrite Q2; exact P1].
  - apply L2.
  - apply L2.
  - rewrite Q2, G2. exact F2.
Qed.

(** C6: [CoreTiming::Advance] ends, when each callback schedules at most [K]
    events and all of them in the future. It first takes over the events of
    other threads, in order of arrival, then runs exactly the events whose time
    has come, in order of time and, at the same time, of scheduling: the
    processor and the devices are what the callbacks of these events make of
    them one after the other, each told how late it is, with the new countdown
    and after a check for external exceptions; the queue holds every other
    event and exactly the ones that the callbacks scheduled, in the order of
    their calls. *)
Theorem events_in_order K n s :
  wf_queue s -> slice_ok s -> well_behaved K -> can_advance K n s ->
  exists s' ran, Advance callback n s = Some (s', ran) /\
    in_order ran /\ ran ≡ₚ filter (is_due s) (pending s) /\
    global_timer s' = now s /\ wf_queue s' /\ s_ts_queue s' = [] /\
    let '(m, cmds) := run_callbacks (now s) ran (machine s) in
    machine s' = (CheckExternalExceptions (set_downcount (slice_length s') m.1), m.2) /\
    s_event_queue s' ≡ₚ filter (fun e => ~ is_due s e) (pending s) ++
      scheduled (now s) (s_event_fifo_id s + Z.of_nat (length (s_ts_queue s))) cmds.
Proof.
  intros Hs Hsl Hk Hc. destruct (Advance_spec K n s Hs Hsl Hk Hc) as (s' & ran & H). exists s', ran.
  destruct H as (? & ? & ? & ? & ? & ? & ? & _). split_and!; done.
Qed.

(** ** Between two calls of [Advance] *)

(** What the processor, the devices it drives and other threads do. *)
Inductive cpu_step (K : nat) (s : State W) : State W -> Prop :=
  | step_execute m : s_is_global_timer_sane s = false -> - 2 ^ 24 <= downcount (fst m) <= downcount (ppc s) ->
      cpu_step K s (set_machine m s)
  | step_schedule cycles ty ud : 0 <= cycles <= CYCLES_LIMIT -> s_event_fifo_id s + 1 < 2 ^ 64 ->
      cpu_step K s (ScheduleEvent cycles ty ud true s)
  | step_schedule_off_thread cycles ty ud : 0 <= cycles <= CYCLES_LIMIT ->
      cpu_step K s (ScheduleEvent cycles ty ud false s)
  | step_remove ty : cpu_step K s (RemoveEvent ty s)
  | step_idle : s_is_global_timer_sane s = false -> cpu_step K s (Idle s)
  | step_force cycles : s_is_global_timer_sane s = false -> cycles < 2 ^ 63 -> cpu_step K s (ForceExceptionCheck cycles s)
  | step_advance n s' ran : can_advance K n s -> Advance callback n s = Some (s', ran) -> cpu_step K s s'.

(** Steps before the time is out of bounds. *)
Definition timely_step (K : nat) s s' : Prop := cpu_step K s s' /\ now s' < TIME_LIMIT.

(** No event is due before the slice ends. *)
Record on_schedule s : Prop := {
  os_wf : wf_queue s;
  os_slice : slice_ok s;
  os_off_thread : Forall (fun e => time_ok (time e)) (s_ts_queue s);
  os_sane : s_is_global_timer_sane s = true -> downcount (ppc s) = slice_length s;
  os_events : s_is_global_timer_sane s = false ->
              Forall (fun e => global_timer s + slice_length s <= time e) (s_event_queue s)
}.

Lemma wf_queue_ext s s' :
  s_event_queue s' = s_event_queue s -> s_event_fifo_id s' = s_event_fifo_id s -> global_timer s' = global_timer s ->
  wf_queue s -> wf_queue s'.
Proof. intros E1 E2 E3 []. constructor; rewrite ?E1, ?E2, ?E3; done. Qed.

Lemma GetTicks_now s :
  slice_ok s -> wf_queue s -> (s_is_global_timer_sane s = true -> downcount (ppc s) = slice_length s) ->
  GetTicks s = now s.
Proof.
  intros (Hsl & Hd & Hn) Hs Hsane. pose proof (q_now s Hs) as Hg. unfold GetTicks, now, TIME_LIMIT, MAX_SLICE_LENGTH in *.
  rewrite (wrapu_id 64 (global_timer s)) by (unfold inu; lia).
  destruct (s_is_global_timer_sane s); cbn [negb]; [rewrite Hsane by done; lia |].
  rewrite (proj1 (float_exact (downcount (ppc s)) ltac:(lia))).
  rewrite (wraps_id 32) by (lia || (unfold ins; change (2 ^ (32 - 1)) with (2 ^ 31); lia)).
  apply wrapu_id. unfold inu. lia.
Qed.

(** A shorter slice leaves the time as it was. *)
Lemma ForceExceptionCheck_spec c s :
  slice_ok s -> c < 2 ^ 63 ->
  exists d, ForceExceptionCheck c s = set_ppc (set_downcount d (ppc s)) (set_slice_length (slice_length s - (downcount (ppc s) - d)) s) /\
            d <= downcount (ppc s) /\ d <= Z.max 0 c /\ (d = downcount (ppc s) \/ 0 <= d).
Proof.
  intros (Hsl & Hd & Hn) Hc. unfold ForceExceptionCheck. unfold MAX_SLICE_LENGTH in *. cbv zeta.
  rewrite (proj1 (float_exact (downcount (ppc s)) ltac:(lia))).
  destruct (Z.ltb_spec (Z.max 0 c) (downcount (ppc s))).
  - exists (Z.max 0 c). assert (I : forall x, - 2 ^ 31 <= x < 2 ^ 31 -> s32 x = x) by (intros; apply wraps_id; [lia | done]).
    rewrite (I (Z.max 0 c)), (proj2 (float_exact (Z.max 0 c) ltac:(lia))) by lia.
    rewrite (I (downcount (ppc s) - _)), I by lia. split; [reflexivity | lia].
  - exists (downcount (ppc s)). split; [| lia]. rewrite Z.sub_diag, Z.sub_0_r. by destruct s as [[] ? ? ? ? ? ? ? ?].
Qed.

Lemma on_schedule_force c s : on_schedule s -> c < 2 ^ 63 -> s_is_global_timer_sane s = false -> on_schedule (ForceExceptionCheck c s).
Proof.
  intros [Hs Hsl Ht Hsane He] Hc S. destruct (ForceExceptionCheck_spec c s Hsl Hc) as (d & -> & Hd & _ & Hd').
  destruct Hsl as (Hsl & Hdc & Hn). unfold now, MAX_SLICE_LENGTH in *. constructor; cbn; try done.
  - apply (wf_queue_ext s); done.
  - split; cbn; unfold MAX_SLICE_LENGTH; [lia |]. split; [lia |]. unfold now. cbn. lia.
  - congruence.
  - intros _. eapply Forall_impl; [exact (He S) |]. cbn. intros. lia.
Qed.

Lemma on_schedule_push t ud ty s :
  on_schedule s -> time_ok t -> s_event_fifo_id s + 1 < 2 ^ 64 ->
  (s_is_global_timer_sane s = false -> global_timer s + slice_length s <= t) -> on_schedule (push_event t ud ty s).
Proof.
  intros [Hs Hsl Ht Hsane He] Htime Hid Hl.
  destruct (push_event_spec t ud ty s Hs Htime Hid) as (W1 & P1 & _ & (G & L & T & S) & E).
  constructor; rewrite ?T, ?S, ?L, ?E; try done.
  intros F. rewrite G, P1. apply Forall_app. split; [apply He; done | apply Forall_singleton; cbn; auto].
Qed.

Lemma on_schedule_ScheduleEvent c ty ud s :
  on_schedule s -> 0 <= c <= CYCLES_LIMIT -> s_event_fifo_id s + 1 < 2 ^ 64 -> on_schedule (ScheduleEvent c ty ud true s).
Proof.
  intros Hs Hc Hid. pose proof Hs as [Hw Hsl Ht Hsane He]. pose proof (q_now s Hw) as Hg.
  unfold ScheduleEvent. rewrite (GetTicks_now s Hsl Hw Hsane). pose proof Hsl as (H1 & H2 & Hn).
  assert (En : global_timer s <= now s) by (unfold now; lia).
  unfold TIME_LIMIT, CYCLES_LIMIT in *.
  rewrite wraps_id by (lia || (unfold ins; change (2 ^ (64 - 1)) with (2 ^ 63); lia)).
  assert (Hok : time_ok (now s + c)) by (unfold time_ok, TIME_LIMIT, CYCLES_LIMIT; lia).
  destruct (s_is_global_timer_sane s) eqn:S; cbn [negb].
  - apply on_schedule_push; [done | done | done | congruence].
  - destruct (ForceExceptionCheck_spec c s Hsl) as (d & E & Hd & Hdc & Hd'); [lia |].
    apply on_schedule_push; [apply on_schedule_force; [done | lia | done] | done | rewrite E; done |].
    intros _. rewrite E. cbn. unfold now. lia.
Qed.

Lemma on_schedule_RemoveEvent ty s : on_schedule s -> on_schedule (RemoveEvent ty s).
Proof.
  intros Hs. unfold RemoveEvent. set (q := filter _ _).
  destruct (length q <? length (s_event_queue s))%nat; [| done].
  destruct (make_heap_spec q) as [P Hh]. pose proof (filter_app_complement (fun e => type e <> ty) (s_event_queue s)) as C.
  destruct Hs as [Hw Hsl Ht Hsane He]. constructor; try done.
  - eapply (sublist_wf s _ (filter (fun e => ~ type e <> ty) (s_event_queue s))); [done | done |].
    rewrite P. rewrite (Permutation_app_comm _ q). symmetry. exact C.
  - intros S. cbn. rewrite P. specialize (He S). rewrite <- C in He. apply Forall_app in He as [He _]. exact He.
Qed.

Lemma timely_step_on_schedule K s s' : well_behaved K -> on_schedule s -> timely_step K s s' -> on_schedule s'.
Proof.
  intros Hk Hs [Hstep Hn]. pose proof Hs as [Hw Hsl Ht Hsane He]. pose proof (q_now s Hw) as Hg.
  pose proof Hsl as (H1 & H2 & H3). destruct Hstep as [m S Hm | c ty ud Hc Hid | c ty ud Hc | ty | S | c S Hc | n s' ran Hc E].
  - constructor; cbn; try done; [apply (wf_queue_ext s); done | | congruence].
    split; [done | split; [cbn; lia | done]].
  - apply on_schedule_ScheduleEvent; done.
  - constructor; cbn; try done; [apply (wf_queue_ext s); done |]. apply Forall_app. split; [done |].
    apply Forall_singleton. cbn. unfold time_ok, TIME_LIMIT, CYCLES_LIMIT in *.
    rewrite wraps_id by (lia || (unfold ins; change (2 ^ (64 - 1)) with (2 ^ 63); lia)). lia.
  - apply on_schedule_RemoveEvent; done.
  - constructor; cbn; try done; [apply (wf_queue_ext s); done | | congruence].
    split; [done | split; [cbn; lia | done]].
  - apply on_schedule_force; done.
  - destruct (Advance_spec K n s Hw Hsl Hk Hc) as (s1 & ran1 & E1 & _ & _ & _ & W1 & G & T & S & L & D & F).
    rewrite E in E1. injection E1 as <- <-. constructor; [done | | by rewrite T | congruence | done].
    split; [lia | split; [rewrite D; unfold MAX_SLICE_LENGTH in L; lia | done]].
Qed.

Lemma on_schedule_Init s : s_event_queue s = [] -> s_ts_queue s = [] -> on_schedule (Init s).
Proof.
  intros Eq Et. constructor; cbn; rewrite ?Eq, ?Et; try done.
  constructor; cbn; rewrite ?Eq; unfold TIME_LIMIT; (lia || (try constructor)). apply is_heap_nil.
Qed.

End Queue.

(** ** Examples *)

(** Events of type 1 come again after 100 cycles. *)
Definition periodic (ty ud late now : Z) (m : PowerPCState * unit) : (PowerPCState * unit) * list Command :=
  (m, if ty =? 1 then [Schedule 100 1 ud] else []).

Definition booted : State unit := mk_state ppcState tt 0 0 [] 0 [] 0 false.

Definition three_events : State unit :=
  ScheduleEvent 0 3 7 false (ScheduleEvent 0 2 5 true (ScheduleEvent 0 1 6 true (ScheduleEvent 30 2 4 true (Init booted)))).

Lemma periodic_well_behaved : well_behaved periodic 1.
Proof.
  intros ty ud late now m. cbn. destruct (ty =? 1); cbn; split; try lia; [| constructor].
  apply Forall_singleton. cbn. unfold CYCLES_LIMIT. lia.
Qed.

Lemma three_events_ready : wf_queue three_events /\ slice_ok three_events /\ can_advance 1 4 three_events.
Proof.
  assert (H : on_schedule three_events).
  { apply (timely_step_on_schedule periodic 1 (ScheduleEvent 0 2 5 true (ScheduleEvent 0 1 6 true (ScheduleEvent 30 2 4 true (Init booted)))));
      [apply periodic_well_behaved | | split; [constructor; unfold CYCLES_LIMIT; lia | vm_compute; reflexivity]].
    do 3 (apply on_schedule_ScheduleEvent; [| unfold CYCLES_LIMIT; lia | vm_compute; reflexivity]).
    apply on_schedule_Init; reflexivity. }
  split; [apply (os_wf _ H) | split; [apply (os_slice _ H) |]].
  split; [apply (os_off_thread _ H) | split; [vm_compute; reflexivity | apply Nat.ltb_lt; vm_compute; reflexivity]].
Qed.

Lemma events_in_order_witness :
  (option_map (fun r => (type <$> r.2, time <$> s_event_queue r.1, slice_length r.1)) (Advance periodic 4 three_events)
     = Some ([1; 2; 3], [30; 100], 30)) /\
  exists s' ran, Advance periodic 4 three_events = Some (s', ran) /\
    in_order ran /\ ran ≡ₚ filter (is_due three_events) (pending three_events) /\
    global_timer s' = now three_events /\ wf_queue s' /\ s_ts_queue s' = [] /\
    let '(m, cmds) := run_callbacks periodic (now three_events) ran (machine three_events) in
    machine s' = (CheckExternalExceptions (set_downcount (slice_length s') m.1), m.2) /\
    s_event_queue s' ≡ₚ filter (fun e => ~ is_due three_events e) (pending three_events) ++ scheduled (now three_events) 4 cmds.
Proof.
  split; [vm_compute; reflexivity |]. destruct three_events_ready as (H1 & H2 & H3).
  exact (events_in_order periodic 1 4 three_events H1 H2 periodic_well_behaved H3).
Defined.




(** Changing the clock can bring a later event onto the time of an earlier one
    that has the higher number, without moving it down the heap: the queue is
    then out of order. *)
Definition before_clock_change : State unit :=
  mk_state ppcState tt 0 0 [mk_event 2 1 0 1; mk_event 3 0 0 2] 2 [] 0 false.

Example clock_change_breaks_heap :
  is_heap event_leb (s_event_queue before_clock_change) /\
  ~ is_heap event_leb (s_event_queue (AdjustEventQueueTimes 1 2 before_clock_change)).
Proof.
  split.
  - intros [| [| i]] x y Hi Hx Hy; [lia | | cbn in Hx; destruct i; done]. injection Hx as <-. injection Hy as <-. reflexivity.
  - intros H. specialize (H 1%nat _ _ ltac:(lia) eq_refl eq_refl). vm_compute in H. congruence.
Qed.
