(* ===== verification/PpcSpr.v ===== *)
(** The special purpose registers of the PowerPC interpreter: [mfspr], [mtspr]
    and [mftb] of [Core/PowerPC/Interpreter/Interpreter_SystemRegisters.cpp],
    with what a write sets off: the timers, the caches, the translation tables
    and the DMA of the locked cache.

    The theorems say what a register reads as after it was written and which
    writes a user program may do, and that the tables of the block address
    translation are at all times those of the BAT registers. *)

From S2P Require Import Prelude Memmap PpcCache PpcState PpcBat PpcTlb PpcMmu PpcLoadStore.
Open Scope Z_scope.

(** ** Registers *)

Definition SPR (inst : Z) : Z := field 11 10 inst.
Definition SPRU (inst : Z) : Z := field 11 5 inst.
Definition SPRL (inst : Z) : Z := field 16 5 inst.
Definition TBR (inst : Z) : Z := field 11 10 inst.

Definition SPR_DEC : Z := 22.
Definition SPR_TL : Z := 268.
Definition SPR_TU : Z := 269.
Definition SPR_TL_W : Z := 284.
Definition SPR_TU_W : Z := 285.
Definition SPR_PVR : Z := 287.
Definition SPR_HID1 : Z := 1009.
Definition SPR_GQR0 : Z := 912.
Definition SPR_WPAR : Z := 921.
Definition SPR_DMAU : Z := 922.
Definition SPR_DMAL : Z := 923.
Definition SPR_L2CR : Z := 1017.

Definition HID0_ICFI : Z := 11.

Definition DMA_T (dmal : Z) : bool := Z.testbit dmal 1.
Definition DMA_LEN_L (dmal : Z) : Z := field 2 2 dmal.
Definition DMA_LD (dmal : Z) : bool := Z.testbit dmal 4.
Definition LC_ADDR (dmal : Z) : Z := field 5 27 dmal.
Definition DMA_LEN_U (dmau : Z) : Z := field 0 5 dmau.
Definition MEM_ADDR (dmau : Z) : Z := field 5 27 dmau.

(** [TL] is the low half of the value, [TU] the high one. *)
Definition ReadFullTimeBaseValue (s : PowerPCState) : Z := rSPR s SPR_TL .| (rSPR s SPR_TU .<< 32).
Definition WriteFullTimeBaseValue (value : Z) (s : PowerPCState) : PowerPCState :=
  put_spr SPR_TU (value .>> 32) (put_spr SPR_TL value s).

(** The timers of [HW/SystemTimers.cpp] act on the processor and the
    scheduler. *)
Class TimerHost (D : Type) := {
  GetFakeDecrementer : Mmu D -> Z;
  GetFakeTimeBase : Mmu D -> Z;
  DecrementerSet : Mmu D -> Mmu D;
  TimeBaseSet : Mmu D -> Mmu D
}.

(** The gather pipe acts on the devices, [JitInterface::ClearSafe] on the JIT. *)
Class SprHost (D : Type) := {
  ResetGatherPipe : D -> D;
  JitInterface_ClearSafe : D -> D;
  OverlapsMemcheck : Z -> Z -> bool;
  bWii : bool
}.

Section Spr.
Context {D : Type} `{MmuHost D} `{LoadStoreHost D} `{TimerHost D} `{SprHost D}.

(** ** Reads *)

Definition spr_index (inst : Z) : Z := ((SPR inst .& 0x1F) .<< 5) + ((SPR inst .>> 5) .& 0x1F).

Definition user_readable (index : Z) : bool :=
  (index =? SPR_XER) || (index =? SPR_LR) || (index =? SPR_CTR) || (index =? SPR_TL) || (index =? SPR_TU).

(** The [switch]. *)
Definition refresh_spr (index : Z) : M D unit :=
  m ← gets id;
  if index =? SPR_DEC then
    when (negb (flag (rSPR (cpu m) index) 0x80000000)) (registers (put_spr index (GetFakeDecrementer m)))
  else if (index =? SPR_TL) || (index =? SPR_TU) then registers (WriteFullTimeBaseValue (GetFakeTimeBase m))
  else if index =? SPR_WPAR then registers (fun s => put_spr index (rSPR s index .& u32 (.~ 1)) s)
  else if index =? SPR_XER then registers (fun s => put_spr index (GetXER s) s)
  else mret tt.

Definition mfspr (inst : Z) : M D unit :=
  let index := spr_index inst in
  s ← gets cpu;
  if Z.testbit (msr s) MSR_PR && negb (user_readable index) then registers GenerateProgramException
  else
    refresh_spr index;;
    registers (fun s => put_gpr (RD inst) (rSPR s index) s).

Definition mftb (inst : Z) : M D unit := mfspr inst.

(** ** Writes *)

Definition mtspr_index (inst : Z) : Z := (SPRU inst .<< 5) .| (SPRL inst .& 0x1F).

Definition user_writable (index : Z) : bool := (index =? SPR_XER) || (index =? SPR_LR) || (index =? SPR_CTR).

Definition update_dbats : M D unit :=
  modify (fun m => mk_mmu (cpu m) (memory m) (tlb m) (pagetable_base m) (pagetable_hashmask m) (ibat_table m)
    (DBATUpdated OverlapsMemcheck bWii (memory m) (cpu m)) (iCache m) (JitInterface_ClearSafe (devices m))).
Definition update_ibats : M D unit :=
  modify (fun m => mk_mmu (cpu m) (memory m) (tlb m) (pagetable_base m) (pagetable_hashmask m)
    (IBATUpdated OverlapsMemcheck bWii (memory m) (cpu m)) (dbat_table m) (iCache m) (JitInterface_ClearSafe (devices m))).

Definition is_dbat (index : Z) : bool := ((536 <=? index) && (index <=? 543)) || ((568 <=? index) && (index <=? 575)).
Definition is_ibat (index : Z) : bool := ((528 <=? index) && (index <=? 535)) || ((560 <=? index) && (index <=? 567)).

Definition write_hid0 : M D unit :=
  s ← gets cpu;
  when (Z.testbit (rSPR s SPR_HID0) HID0_ICFI) (
    registers (fun s => put_spr SPR_HID0 (rSPR s SPR_HID0 .& .~ (1 .<< HID0_ICFI)) s);;
    modify (fun m => set_devices (JitInterface_ClearSafe (devices m)) (set_iCache (Reset (iCache m)) m))).

(** [ASSERT_MSG(POWERPC, rGPR[inst.RD] == 0x0C008000, ...)] *)
Definition write_wpar (value : Z) : M D unit :=
  (if negb (value =? 0x0C008000) then assert_failed else mret tt);;
  modify (fun m => set_devices (ResetGatherPipe (devices m)) m).

Definition write_dmal : M D unit :=
  s ← gets cpu;
  let DMAL := rSPR s SPR_DMAL in
  let DMAU := rSPR s SPR_DMAU in
  when (DMA_T DMAL) (
    let mem_address := MEM_ADDR DMAU .<< 5 in
    let cache_address := LC_ADDR DMAL .<< 5 in
    let length := (DMA_LEN_U DMAU .<< 2) .| DMA_LEN_L DMAL in
    let length := if length =? 0 then 128 else length in
    if DMA_LD DMAL then DMA_MemoryToLC cache_address mem_address length
    else DMA_LCToMemory mem_address cache_address length);;
  registers (fun s => put_spr SPR_DMAL (rSPR s SPR_DMAL .& .~ (1 .<< 1)) s).

Definition write_dec (old_value value : Z) : M D unit :=
  when ((old_value .>> 31 =? 0) && negb (value .>> 31 =? 0)) (registers (fun s => set_Exceptions (Exceptions s .| EXCEPTION_DECREMENTER) s));;
  modify DecrementerSet.

(** The [switch]; [value] is [rGPR[inst.RD]]. *)
Definition spr_written (index old_value value : Z) : M D unit :=
  if (index =? SPR_TL) || (index =? SPR_TU) then mret tt
  else if index =? SPR_TL_W then registers (put_spr SPR_TL value);; modify TimeBaseSet
  else if index =? SPR_TU_W then registers (put_spr SPR_TU value);; modify TimeBaseSet
  else if index =? SPR_PVR then registers (put_spr index old_value)
  else if index =? SPR_HID0 then write_hid0
  else if index =? SPR_HID1 then registers (fun s => put_spr index (rSPR s index .& 0xF8000000) s)
  else if index =? SPR_HID2 then mret tt
  else if index =? SPR_HID4 then s ← gets cpu; when (negb (old_value =? rSPR s index)) (update_ibats;; update_dbats)
  else if index =? SPR_WPAR then write_wpar value
  else if (SPR_GQR0 <=? index) && (index <=? SPR_GQR0 + 7) then mret tt
  else if index =? SPR_DMAL then write_dmal
  else if index =? SPR_L2CR then mret tt
  else if index =? SPR_DEC then write_dec old_value value
  else if index =? SPR_SDR then modify SDRUpdated
  else if index =? SPR_XER then registers (fun s => SetXER (rSPR s index) s)
  else if is_dbat index then s ← gets cpu; when (negb (old_value =? rSPR s index)) update_dbats
  else if is_ibat index then s ← gets cpu; when (negb (old_value =? rSPR s index)) update_ibats
  else mret tt.

Definition mtspr (inst : Z) : M D unit :=
  let index := mtspr_index inst in
  s ← gets cpu;
  if Z.testbit (msr s) MSR_PR && negb (user_writable index) then registers GenerateProgramException
  else
    let old_value := rSPR s index in
    registers (put_spr index (rGPR s (RD inst)));;
    spr_written index old_value (rGPR s (RD inst)).
End Spr.

(** ** Reading a register back *)

Lemma spr_index_mtspr inst : spr_index inst = mtspr_index inst.
Proof.
  unfold spr_index, mtspr_index, SPR, SPRU, SPRL. change 0x1F with (Z.ones 5). rewrite !Z.land_ones, !Z.shiftl_mul_pow2, !Z.shiftr_div_pow2 by lia.
  assert (E : field 11 10 inst mod 2 ^ 5 = field 11 5 inst) by (rewrite !field_mod by lia; Z.to_euclidean_division_equations; lia).
  assert (F : field 11 10 inst / 2 ^ 5 mod 2 ^ 5 = field 16 5 inst mod 2 ^ 5) by (rewrite !field_mod by lia; Z.to_euclidean_division_equations; lia).
  rewrite E, F, <- Z.shiftl_mul_pow2, lor_shift_add by (try (apply Z.mod_pos_bound); lia). rewrite Z.shiftl_mul_pow2 by lia. done.
Qed.

Lemma field_sum a lo w b n : 0 <= lo -> 0 <= w <= n -> (b .<< n) + field lo w a = (b .<< n) .| field lo w a.
Proof.
  intros Hlo [Hw Hn]. pose proof (field_range lo w a Hw) as R. pose proof (Z.pow_le_mono_r 2 w n eq_refl Hn) as P. unfold inu in R.
  rewrite lor_shift_add, Z.shiftl_mul_pow2 by lia. done.
Qed.

Lemma GetXER_SetXER v s : inu 32 v -> GetXER (SetXER v s) = v .& 0xE000FF7F.
Proof.
  intros Hv. apply Z.bits_inj'. intros i Hi. unfold GetXER, SetXER. cbn [xer_stringctrl xer_ca xer_so_ov set_xer_stringctrl set_xer_ca set_xer_so_ov].
  rewrite (Z.add_comm (field 0 7 v)), !field_sum by lia.
  change 0xE000FF7F with ((Z.ones 3 .<< 29) .| (Z.ones 8 .<< 8) .| Z.ones 7).
  rewrite testbit_wrapu, !Z.land_spec, !Z.lor_spec, testbit_wrapu, !testbit_shiftl', !Z.lor_spec, !testbit_shiftl' by lia.
  destruct (Z.ltb_spec i 32) as [H32 |].
  2: { cbn [andb]. rewrite (testbit_inu_high 32 v) by (done || lia). done. }
  assert (T : forall lo w j, 0 <= lo -> 0 <= w -> Z.testbit (field lo w v) j = (0 <=? j) && ((j <? w) && Z.testbit v (j + lo))).
  { intros lo w j Hlo Hw. destruct (Z.leb_spec 0 j); [rewrite testbit_field by lia; done | rewrite Z.testbit_neg_r by lia; done]. }
  assert (O : forall w j, 0 <= w -> Z.testbit (Z.ones w) j = (0 <=? j) && (j <? w)).
  { intros w j Hw. apply Z.testbit_ones. lia. }
  rewrite !T, !O by lia.
  assert (C : i = 29 \/ i = 30 \/ i = 31 \/ 8 <= i < 16 \/ 0 <= i < 7 \/ i = 7 \/ 16 <= i < 29) by lia.
  destruct C as [-> | [-> | [-> | C]]]; [cbn; rewrite ?orb_false_r, ?andb_true_r; done.. |].
  repeat match goal with |- context [?a <=? ?b] => destruct (Z.leb_spec a b) end; repeat match goal with |- context [?a <? ?b] => destruct (Z.ltb_spec a b) end;
    try (exfalso; lia); cbn [andb orb]; rewrite ?andb_true_r, ?andb_false_r, ?orb_false_r, ?orb_true_r; try done; f_equal; lia.
Qed.

Section SprFacts.
Context {D : Type} `{MmuHost D} `{LoadStoreHost D} `{TimerHost D} `{SprHost D}.
Implicit Types m : Mmu D.

Lemma rSPR_put_spr i v s j : rSPR (put_spr i v s) j = if j =? i then u32 v else rSPR s j.
Proof.
  unfold rSPR, put_spr. cbn [spr set_spr]. destruct (Z.eqb_spec j i) as [-> |]; [apply mget_mset_same | apply mget_mset_other; done].
Qed.

(** What [mfspr] gives after [v] was written over [old_value]; [None] where the
    register belongs to a timer or a device. *)
Definition reads_back (index old_value v : Z) : option Z :=
  if (index =? SPR_DEC) || (index =? SPR_TL) || (index =? SPR_TU) || (index =? SPR_TL_W) || (index =? SPR_TU_W)
     || (index =? SPR_WPAR) || (index =? SPR_DMAL) then None
  else if index =? SPR_PVR then Some old_value
  else if index =? SPR_HID0 then Some (v .& .~ (1 .<< 11))
  else if index =? SPR_HID1 then Some (v .& 0xF8000000)
  else if index =? SPR_XER then Some (v .& 0xE000FF7F)
  else Some v.

(** The registers whose writes reach a timer or a device. *)
Definition reaches_device (index : Z) : bool :=
  (index =? SPR_DEC) || (index =? SPR_TL_W) || (index =? SPR_TU_W) || (index =? SPR_WPAR) || (index =? SPR_DMAL).

(** The registers after the others are written. *)
Definition written (index old_value : Z) (s : PowerPCState) : PowerPCState :=
  if index =? SPR_PVR then put_spr index old_value s
  else if index =? SPR_HID0 then
    (if Z.testbit (rSPR s SPR_HID0) HID0_ICFI then put_spr SPR_HID0 (rSPR s SPR_HID0 .& .~ (1 .<< HID0_ICFI)) s else s)
  else if index =? SPR_HID1 then put_spr index (rSPR s index .& 0xF8000000) s
  else if index =? SPR_XER then SetXER (rSPR s index) s
  else s.

Lemma SDRUpdated_frame (m : Mmu D) :
  cpu (SDRUpdated m) = cpu m /\ memory (SDRUpdated m) = memory m /\ dbat_table (SDRUpdated m) = dbat_table m /\ ibat_table (SDRUpdated m) = ibat_table m.
Proof. unfold SDRUpdated. cbv zeta. repeat match goal with |- context [if ?b then _ else _] => destruct b end; done. Qed.

(** Decides the comparisons of known indices. *)
Ltac eval_registers :=
  cbn [SPR_DEC SPR_TL SPR_TU SPR_TL_W SPR_TU_W SPR_PVR SPR_HID0 SPR_HID1 SPR_HID2 SPR_HID4 SPR_GQR0 SPR_WPAR SPR_DMAL SPR_L2CR SPR_SDR SPR_XER
       is_dbat is_ibat Z.eqb Pos.eqb Z.leb Z.compare Pos.compare Pos.compare_cont Z.add Pos.add andb orb negb] in *.

Lemma spr_written_quiet i old v m :
  reaches_device i = false ->
  let s := cpu m in
  exists m1, spr_written i old v m = Done tt m1 /\ memory m1 = memory m /\ cpu m1 = written i old s /\
    dbat_table m1 = (if ((i =? SPR_HID4) || is_dbat i) && negb (old =? rSPR s i) then DBATUpdated OverlapsMemcheck bWii (memory m) s else dbat_table m) /\
    ibat_table m1 = (if ((i =? SPR_HID4) || is_ibat i) && negb (old =? rSPR s i) then IBATUpdated OverlapsMemcheck bWii (memory m) s else ibat_table m).
Proof.
  intros Q s. subst s.
  assert (X : is_dbat i = true -> is_ibat i = false) by (unfold is_dbat, is_ibat; lia).
  unfold reaches_device in Q. unfold spr_written, written.
  unfold write_hid0, update_dbats, update_ibats, registers, modify, gets, when, mbind, M_bind, mret, M_ret.
  repeat match goal with |- context [i =? ?n] =>
    let E := fresh in destruct (Z.eqb_spec i n) as [E |];
      [subst i; eval_registers; first [discriminate | repeat (case_match; eval_registers)]; first [discriminate | eexists; split; [reflexivity |]; split_and!; reflexivity | idtac] |]; cbn [orb andb] in * end.
  - destruct (SDRUpdated_frame m) as (F1 & F2 & F3 & F4). eexists. split; [reflexivity |]. done.
  - destruct ((SPR_GQR0 <=? i) && (i <=? SPR_GQR0 + 7)) eqn:G.
    + assert (Nd : is_dbat i = false /\ is_ibat i = false) by (unfold SPR_GQR0, is_dbat, is_ibat in *; lia).
      destruct Nd as [-> ->]. eexists. split; [reflexivity |]. done.
    + destruct (is_dbat i) eqn:Ed; [rewrite X by done | destruct (is_ibat i)]; destruct (old =? _); cbn [andb negb];
        eexists; (split; [reflexivity |]); split_and!; reflexivity.
Qed.

Lemma put_spr_other j i v s : j <> i -> rSPR (put_spr i v s) j = rSPR s j.
Proof. intros N. rewrite rSPR_put_spr, (proj2 (Z.eqb_neq j i)) by done. done. Qed.

Lemma written_spec i old v s w :
  inu 32 v -> inu 32 old -> reads_back i old v = Some w ->
  let s' := written i old (put_spr i v s) in
  reaches_device i = false /\ i <> SPR_TL /\ i <> SPR_TU /\ msr s' = msr s /\ gpr s' = gpr s /\ (if i =? SPR_XER then GetXER s' else rSPR s' i) = w.
Proof.
  intros Hv Ho. unfold reads_back, reaches_device.
  assert (Bits : forall x k, inu 32 x -> inu 32 (x .& k)).
  { intros x k Hx. apply inu_testbit; [lia |]. intros j Hj. rewrite Z.land_spec, (testbit_inu_high 32 x) by (done || lia). done. }
  assert (Same : forall x, inu 32 x -> rSPR (put_spr i x s) i = x).
  { intros x Hx. rewrite rSPR_put_spr, Z.eqb_refl, wrapu_id by done. done. }
  destruct (i =? SPR_DEC) eqn:E1, (i =? SPR_TL) eqn:E2, (i =? SPR_TU) eqn:E3, (i =? SPR_TL_W) eqn:E4, (i =? SPR_TU_W) eqn:E5,
    (i =? SPR_WPAR) eqn:E6, (i =? SPR_DMAL) eqn:E7; try done. cbn [orb]. unfold written.
  intros R. split; [done |]. split; [lia |]. split; [lia |].
  destruct (Z.eqb_spec i SPR_PVR) as [-> |].
  { injection R as <-. split_and!; [done | done |]. rewrite rSPR_put_spr, wrapu_id by done. done. }
  destruct (Z.eqb_spec i SPR_HID0) as [-> |].
  { injection R as <-. rewrite Same by done. change (SPR_HID0 =? SPR_XER) with false. cbv iota.
    destruct (Z.testbit v HID0_ICFI) eqn:Eb; (split_and!; [done | done |]).
    - rewrite rSPR_put_spr, Z.eqb_refl, wrapu_id by auto. done.
    - rewrite Same by done. apply Z.bits_inj'. intros j Hj. rewrite Z.land_spec, testbit_lnot', testbit_bit by (unfold HID0_ICFI in *; lia).
      destruct (Z.leb_spec 0 j); [| lia]. destruct (Z.eqb_spec j 11) as [-> |]; cbn [negb andb]; [unfold HID0_ICFI in Eb; rewrite Eb; done | rewrite andb_true_r; done]. }
  destruct (Z.eqb_spec i SPR_HID1) as [-> |].
  { injection R as <-. rewrite Same by done. split_and!; [done | done |]. rewrite rSPR_put_spr, Z.eqb_refl, wrapu_id by auto. done. }
  destruct (Z.eqb_spec i SPR_XER) as [-> |].
  { injection R as <-. rewrite Same by done. split_and!; [done | done |]. apply GetXER_SetXER. done. }
  injection R as <-. split_and!; [done | done | apply Same; done].
Qed.

(** C23: What [mfspr] reads from a special purpose register is what [mtspr]
    wrote, for every register that is not a timer's or a device's, translation
    and cache control registers included: but for the read-only PVR, the
    reserved bits of HID1 and XER, and the bit of HID0 that flushes the cache
    and reads as zero. *)
Theorem spr_reads_back inst1 inst2 m w :
  wf (cpu m) -> Z.testbit (msr (cpu m)) MSR_PR = false ->
  let i := mtspr_index inst1 in
  spr_index inst2 = i -> reads_back i (rSPR (cpu m) i) (rGPR (cpu m) (RD inst1)) = Some w -> inu 32 w ->
  exists m1 m2, mtspr inst1 m = Done tt m1 /\ mfspr inst2 m1 = Done tt m2 /\ rGPR (cpu m2) (RD inst2) = w /\ memory m2 = memory m.
Proof.
  intros Hs PR i Ei R Hw. unfold mtspr, mfspr. fold i. rewrite Ei. unfold mbind at 1, M_bind at 1, gets at 1. rewrite PR. cbn [andb].
  unfold mbind at 1, M_bind at 1, registers at 1, modify at 1.
  set (old := rSPR (cpu m) i) in *. set (v := rGPR (cpu m) (RD inst1)) in *.
  assert (Hv : inu 32 v) by (destruct Hs; eapply arr_ok_zget; done || lia).
  assert (Ho : inu 32 old) by (destruct Hs; apply mem_ok_mget; done || lia).
  destruct (written_spec i old v (cpu m) w Hv Ho R) as (Q & N1 & N2 & W1 & W2 & W3).
  destruct (spr_written_quiet i old v (set_cpu (put_spr i v (cpu m)) m) Q) as (m1 & E & Em & Ec & _). cbn [cpu set_cpu] in Ec, E. rewrite E.
  exists m1. rewrite <- Ec in W1, W2, W3. unfold mbind, M_bind, gets. rewrite W1, PR. cbn [andb].
  assert (Hd : (RD inst2 < 32) /\ 0 <= RD inst2) by (pose proof (field_range 21 5 inst2 ltac:(lia)) as F; unfold inu, RD in *; lia).
  assert (Fin : forall s, gpr s = gpr (cpu m1) -> rSPR s i = w -> rGPR (put_gpr (RD inst2) (rSPR s i) s) (RD inst2) = w).
  { intros s Eg Es. rewrite rGPR_put_gpr by (lia || (rewrite Eg, W2; apply (wf_gpr _ Hs))). rewrite Z.eqb_refl, Es, wrapu_id by done. done. }
  unfold refresh_spr, mbind, M_bind, gets, when, registers, modify, mret, M_ret.
  unfold reaches_device in Q. destruct (i =? SPR_DEC); [done |]. destruct (Z.eqb_spec i SPR_TL); [done |]. destruct (Z.eqb_spec i SPR_TU); [done |]. cbn [orb] in *.
  destruct (i =? SPR_WPAR); [rewrite !orb_true_r in Q; done |].
  destruct (Z.eqb_spec i SPR_XER) as [Ex |]; eexists; (split; [done |]); (split; [reflexivity |]); (split; [| exact Em]); cbn [cpu set_cpu].
  - apply Fin; [done |]. rewrite rSPR_put_spr, Z.eqb_refl, W3, wrapu_id by done. done.
  - apply Fin; done.
Qed.
(** ** User programs *)

(** What a user program reads. *)
Definition user_value (index : Z) m : Z :=
  if index =? SPR_XER then GetXER (cpu m)
  else if index =? SPR_TL then u32 (GetFakeTimeBase m)
  else if index =? SPR_TU then u32 (GetFakeTimeBase m .>> 32)
  else rSPR (cpu m) index.

(** The special purpose registers after it: those that show XER or the time
    base are refreshed. *)
Definition refreshed (index j : Z) : bool :=
  ((index =? SPR_XER) && (j =? SPR_XER)) || (((index =? SPR_TL) || (index =? SPR_TU)) && ((j =? SPR_TL) || (j =? SPR_TU))).

(** C24: A user program writes no special purpose register but XER, LR and CTR,
    and reads no others but those and the time base: any other access reports a
    program exception and changes nothing else. A write that is allowed puts the
    source register into the named register and no other, XER with its carry,
    overflow and string fields; every other part of the processor and of the
    machine is as it was. A read that is allowed puts the value of XER, LR, CTR
    or the half of the time base into the target register, and changes nothing
    else but the stored copies of XER and the time base, which become current. *)
Theorem user_mode_registers inst m :
  Z.testbit (msr (cpu m)) MSR_PR = true ->
  (let i := mtspr_index inst in
   let v := u32 (rGPR (cpu m) (RD inst)) in
   if user_writable i
   then exists s, mtspr inst m = Done tt (set_cpu s m) /\ (forall j, rSPR s j = if j =? i then v else rSPR (cpu m) j) /\
     set_spr (spr (cpu m)) s = if i =? SPR_XER then SetXER v (cpu m) else cpu m
   else mtspr inst m = Done tt (set_cpu (GenerateProgramException (cpu m)) m)) /\
  (let i := spr_index inst in
   let v := user_value i m in
   if user_readable i
   then exists s, mfspr inst m = Done tt (set_cpu s m) /\ (forall j, rSPR s j = if refreshed i j then user_value j m else rSPR (cpu m) j) /\
     set_spr (spr (cpu m)) s = put_gpr (RD inst) v (cpu m)
   else mfspr inst m = Done tt (set_cpu (GenerateProgramException (cpu m)) m)).
Proof.
  intros PR. split; intros i v; subst v.
  - destruct (user_writable i) eqn:U; unfold mtspr; fold i; rewrite U; unfold mbind at 1, M_bind at 1, gets at 1; rewrite PR; [| reflexivity].
    cbn [negb andb]. unfold mbind at 1, M_bind at 1, registers at 1, modify at 1.
    assert (C : i = SPR_XER \/ i = SPR_LR \/ i = SPR_CTR).
    { unfold user_writable in U. destruct (Z.eqb_spec i SPR_XER), (Z.eqb_spec i SPR_LR), (Z.eqb_spec i SPR_CTR); auto; done. }
    set (v := rGPR _ _). clearbody i v.
    destruct C as [-> | [-> | ->]]; (eexists; split; [reflexivity |]; split; [intros j; exact (rSPR_put_spr _ v _ j) |]);
      [| destruct (cpu m); reflexivity..].
    cbn [cpu set_cpu]. rewrite rSPR_put_spr. destruct (cpu m); reflexivity.
  - destruct (user_readable i) eqn:U; unfold mfspr; fold i; rewrite U; unfold mbind at 1, M_bind at 1, gets at 1; rewrite PR; [| reflexivity].
    cbn [negb andb].
    assert (C : i = SPR_XER \/ i = SPR_LR \/ i = SPR_CTR \/ i = SPR_TL \/ i = SPR_TU).
    { unfold user_readable in U. destruct (Z.eqb_spec i SPR_XER), (Z.eqb_spec i SPR_LR), (Z.eqb_spec i SPR_CTR), (Z.eqb_spec i SPR_TL), (Z.eqb_spec i SPR_TU); tauto || done. }
    assert (X : u32 (GetXER (cpu m)) = GetXER (cpu m)) by (apply wrapu_id, wrapu_range; lia).
    assert (Time : forall k j, k = SPR_TL \/ k = SPR_TU ->
      rSPR (WriteFullTimeBaseValue (GetFakeTimeBase m) (cpu m)) j = if refreshed k j then user_value j m else rSPR (cpu m) j).
    { intros k j Hk. assert (R : refreshed k j = (j =? SPR_TL) || (j =? SPR_TU)) by (destruct Hk as [-> | ->]; reflexivity). rewrite R.
      unfold WriteFullTimeBaseValue. rewrite !rSPR_put_spr. destruct (Z.eqb_spec j SPR_TU) as [-> |]; [done |].
      destruct (Z.eqb_spec j SPR_TL) as [-> |]; done. }
    clearbody i. destruct C as [-> | [-> | [-> | [-> | ->]]]]; (eexists; split; [reflexivity |]); cbn [cpu set_cpu].
    + split; [| rewrite rSPR_put_spr, Z.eqb_refl, X; reflexivity]. intros j.
      change (refreshed SPR_XER j) with ((j =? SPR_XER) || false). rewrite orb_false_r. etransitivity; [exact (rSPR_put_spr SPR_XER (GetXER (cpu m)) (cpu m) j) |].
      destruct (Z.eqb_spec j SPR_XER) as [-> |]; [exact X | done].
    + split; [done | reflexivity].
    + split; [done | reflexivity].
    + split; [intros j; apply Time; auto |]. rewrite (Time SPR_TL) by auto. reflexivity.
    + split; [intros j; apply Time; auto |]. rewrite (Time SPR_TU) by auto. reflexivity.
Qed.

(** ** The tables of the block address translation *)

(** The tables are those of the registers. *)
Definition tables_current m : Prop :=
  dbat_table m = DBATUpdated OverlapsMemcheck bWii (memory m) (cpu m) /\ ibat_table m = IBATUpdated OverlapsMemcheck bWii (memory m) (cpu m).

Lemma UpdateBATs_ext mem s s' t base :
  (forall j, base <= j < base + 8 -> rSPR s j = rSPR s' j) -> UpdateBATs OverlapsMemcheck mem s t base = UpdateBATs OverlapsMemcheck mem s' t base.
Proof. intros E. unfold UpdateBATs. change (upto 4) with [0; 1; 2; 3]. cbn [fold_left]. rewrite !E by lia. done. Qed.

Lemma BATUpdated_ext base ext mem s s' :
  (forall j, base <= j < base + 8 \/ ext <= j < ext + 8 \/ j = SPR_HID4 -> rSPR s j = rSPR s' j) ->
  BATUpdated OverlapsMemcheck bWii base ext mem s = BATUpdated OverlapsMemcheck bWii base ext mem s'.
Proof.
  intros E. unfold BATUpdated. rewrite (E SPR_HID4) by auto. rewrite (UpdateBATs_ext mem s s' ∅ base) by auto.
  destruct (_ && _); [rewrite (UpdateBATs_ext mem s s' _ ext) by auto |]; done.
Qed.

Lemma DBATUpdated_ext mem s s' :
  (forall j, is_dbat j = true \/ j = SPR_HID4 -> rSPR s j = rSPR s' j) -> DBATUpdated OverlapsMemcheck bWii mem s = DBATUpdated OverlapsMemcheck bWii mem s'.
Proof. intros E. apply BATUpdated_ext. intros j Hj. apply E. unfold is_dbat, SPR_DBAT0U, SPR_DBAT4U in *. destruct Hj as [Hj | [Hj | ->]]; [left; lia | left; lia | auto]. Qed.

Lemma IBATUpdated_ext mem s s' :
  (forall j, is_ibat j = true \/ j = SPR_HID4 -> rSPR s j = rSPR s' j) -> IBATUpdated OverlapsMemcheck bWii mem s = IBATUpdated OverlapsMemcheck bWii mem s'.
Proof. intros E. apply BATUpdated_ext. intros j Hj. apply E. unfold is_ibat, SPR_IBAT0U, SPR_IBAT4U in *. destruct Hj as [Hj | [Hj | ->]]; [left; lia | left; lia | auto]. Qed.

(** The registers that the tables depend on, after a write. *)
Lemma written_bats i old v s j :
  is_dbat j = true \/ is_ibat j = true \/ j = SPR_HID4 -> rSPR (written i old (put_spr i v s)) j = rSPR (put_spr i v s) j.
Proof.
  intros Hj. assert (N : j <> SPR_PVR /\ j <> SPR_HID0 /\ j <> SPR_HID1 /\ j <> SPR_XER).
  { unfold is_dbat, is_ibat, SPR_HID4, SPR_PVR, SPR_HID0, SPR_HID1, SPR_XER in *. destruct Hj as [Hj | [Hj | ->]]; lia. }
  destruct N as (N1 & N2 & N3 & N4). unfold written.
  destruct (Z.eqb_spec i SPR_PVR) as [-> |]; [rewrite put_spr_other by done; done |].
  destruct (Z.eqb_spec i SPR_HID0) as [-> |]; [destruct (Z.testbit _ _); [apply put_spr_other |]; done |].
  destruct (Z.eqb_spec i SPR_HID1) as [-> |]; [rewrite put_spr_other by done; done |].
  destruct (Z.eqb_spec i SPR_XER) as [-> |]; done.
Qed.

(** *** What leaves the tables alone *)

Definition names_bat (j : Z) : bool := (j =? SPR_HID4) || is_dbat j || is_ibat j.

Record tables_kept m m' : Prop := {
  kept_dbat : dbat_table m' = dbat_table m;
  kept_ibat : ibat_table m' = ibat_table m;
  kept_banks : same_banks (memory m) (memory m');
  kept_bats j : names_bat j = true -> rSPR (cpu m') j = rSPR (cpu m) j
}.

#[export] Instance tables_kept_preorder : PreOrder tables_kept.
Proof.
  split.
  - intros m. constructor; done.
  - intros m1 m2 m3 [A1 B1 C1 D1] [A2 B2 C2 D2]. constructor; try congruence; [intros b; rewrite (C2 b); apply C1 |].
    intros j Hj. rewrite D2, D1 by done. done.
Qed.

Lemma BATUpdated_banks base ext mem mem' s :
  same_banks mem mem' -> BATUpdated OverlapsMemcheck bWii base ext mem' s = BATUpdated OverlapsMemcheck bWii base ext mem s.
Proof.
  intros B. pose proof (bool_decide_ext _ _ (B FakeVMEM)) as F. pose proof (bool_decide_ext _ _ (B EXRAM)) as X. cbn [bank_bytes] in F, X.
  assert (M : forall u l t j, map_block OverlapsMemcheck mem' u l t j = map_block OverlapsMemcheck mem u l t j)
    by (intros; unfold map_block, valid_bits; rewrite F, X; done).
  assert (U : forall t base, UpdateBATs OverlapsMemcheck mem' s t base = UpdateBATs OverlapsMemcheck mem s t base).
  { assert (L : forall u l js t, fold_left (map_block OverlapsMemcheck mem' u l) js t = fold_left (map_block OverlapsMemcheck mem u l) js t).
    { intros u l js. induction js as [| j js IH]; intros t; cbn [fold_left]; [done |]. rewrite M. apply IH. }
    intros. unfold UpdateBATs. change (upto 4) with [0; 1; 2; 3]. cbn [fold_left]. unfold UpdateBAT. rewrite !L. done. }
  unfold BATUpdated. rewrite F, !U. done.
Qed.

Lemma tables_kept_current m m' : tables_kept m m' -> tables_current m -> tables_current m'.
Proof.
  intros [Kd Ki Kb Ks] [Td Ti]. unfold tables_current, DBATUpdated, IBATUpdated in *. rewrite Kd, Ki, !(BATUpdated_banks _ _ _ _ _ Kb), Td, Ti.
  split; symmetry; [apply (DBATUpdated_ext (memory m)) | apply (IBATUpdated_ext (memory m))]; intros j Hj; apply Ks; unfold names_bat;
    destruct Hj as [-> | ->]; rewrite ?orb_true_r; done.
Qed.

(** The handlers of device registers and the timers write neither the tables
    nor the registers they are made from, and map no memory. *)
Class DevicesKeepTables : Prop := {
  kept_mmio_Read size a m : tables_kept m (mmio_Read size a m).2;
  kept_mmio_Write size a v m : tables_kept m (mmio_Write size a v m);
  kept_DecrementerSet m : tables_kept m (DecrementerSet m);
  kept_TimeBaseSet m : tables_kept m (TimeBaseSet m)
}.

Definition keeps_tables {A} (x : M D A) : Prop := forall m v m', x m = Done v m' -> tables_kept m m'.

Lemma keeps_tables_ret A (a : A) : keeps_tables (mret a).
Proof. intros m v m' [= _ <-]. reflexivity. Qed.

Lemma keeps_tables_seq A B (x : M D A) (k : A -> M D B) : keeps_tables x -> (forall a, keeps_tables (k a)) -> keeps_tables (x ≫= k).
Proof.
  intros Hx Hk m v m'. unfold mbind, M_bind. destruct (x m) as [a m1 | |] eqn:E; [| done | done]. intros E'.
  etransitivity; [apply (Hx _ _ _ E) | apply (Hk a _ _ _ E')].
Qed.

Lemma keeps_tables_gets A (f : Mmu D -> A) : keeps_tables (gets f).
Proof. intros m v m' [= _ <-]. reflexivity. Qed.

Lemma keeps_tables_host A (o : option A) : keeps_tables (host o).
Proof. intros m v m'. unfold host. destruct o; [intros [= _ <-]; reflexivity | done]. Qed.

Lemma keeps_tables_modify (f : Mmu D -> Mmu D) : (forall m, tables_kept m (f m)) -> keeps_tables (modify f).
Proof. intros Hf m v m' [= _ <-]. apply Hf. Qed.

Lemma keeps_tables_put i v : names_bat i = false -> keeps_tables (registers (D := D) (put_spr i v)).
Proof.
  intros N. apply keeps_tables_modify. intros m. constructor; try done. intros j Hj. apply put_spr_other. congruence.
Qed.

Lemma store_u8_banks p v mem mem' : store_u8 p v mem = Some mem' -> same_banks mem mem'.
Proof.
  unfold store_u8. destruct (bank_bytes p.1 mem) eqn:E; [| done]. cbn. destruct (_ && _); [| done]. intros [= <-] b.
  destruct p as [[] o], b; cbn in *; rewrite ?E; first [reflexivity | split; intros _; eexists; reflexivity].
Qed.

Lemma store_bytes_banks l p mem mem' : store_bytes p l mem = Some mem' -> same_banks mem mem'.
Proof.
  revert p mem. induction l as [| v l IH]; intros p mem; cbn [store_bytes]; [intros [= <-]; done |].
  destruct (store_u8 p v mem) as [mem1 |] eqn:E; [| done]. cbn. intros E' b. rewrite (IH _ _ E' b). apply (store_u8_banks _ _ _ _ E).
Qed.

(** The transfers of the locked cache. *)
Lemma keeps_tables_lc_to_device n w ca ma i : (forall v a, keeps_tables (w v a)) -> keeps_tables (lc_to_device (D := D) n w ca ma i).
Proof.
  intros Hw. revert i. induction n as [| n IH]; intros i; cbn [lc_to_device]; [apply keeps_tables_ret |].
  apply keeps_tables_seq; [apply keeps_tables_gets | intros mem]. apply keeps_tables_seq; [apply keeps_tables_host | intros l].
  apply keeps_tables_seq; [apply Hw | auto].
Qed.

Lemma keeps_tables_store A p (l : list Z) (k : M D A) :
  keeps_tables k -> keeps_tables (mem ← gets memory; mem' ← host (store_bytes p l mem); modify (set_memory mem');; k).
Proof.
  intros Hk m v m'. unfold mbind, M_bind, gets, host. destruct (store_bytes p l (memory m)) as [mem' |] eqn:E; [| done]. unfold modify. intros E'.
  etransitivity; [| apply (Hk _ _ _ E')]. constructor; try done. apply (store_bytes_banks _ _ _ _ E).
Qed.

Lemma keeps_tables_device_to_lc n r ca ma i : (forall a, keeps_tables (r a)) -> keeps_tables (device_to_lc (D := D) n r ca ma i).
Proof.
  intros Hr. revert i. induction n as [| n IH]; intros i; cbn [device_to_lc]; [apply keeps_tables_ret |].
  apply keeps_tables_seq; [apply Hr | intros v]. apply (keeps_tables_store _ _ _ _ (IH _)).
Qed.

Lemma keeps_tables_efb t x y d : keeps_tables (access_efb t x y d).
Proof. intros m v m'. unfold access_efb. destruct (Video_AccessEFB _ _ _ _ _). intros [= _ <-]. constructor; done. Qed.

Section Devices.
Context `{!DevicesKeepTables}.

Lemma keeps_tables_mmio_Read size a (f : Z -> Z) : keeps_tables (fun m => let '(v, m') := mmio_Read size a m in Done (f v) m').
Proof. intros m v m' E. pose proof (kept_mmio_Read size a m) as K. destruct (mmio_Read size a m). injection E as _ <-. exact K. Qed.

Lemma keeps_tables_DMA_LCToMemory ma ca n : keeps_tables (DMA_LCToMemory ma ca n).
Proof.
  unfold DMA_LCToMemory. destruct (_ =? _); [| destruct (_ =? _)].
  - apply keeps_tables_lc_to_device. intros v a. unfold EFB_Write.
    repeat case_match; repeat first [apply keeps_tables_ret | apply keeps_tables_efb | apply keeps_tables_seq; [| intros _]].
  - apply keeps_tables_lc_to_device. intros v a. apply keeps_tables_modify. intros m. apply kept_mmio_Write.
  - intros m v m'. unfold mbind, M_bind, gets. destruct (GetPointer (memory m) ma) as [dst |]; [| intros [= _ <-]; reflexivity].
    unfold host. destruct (load_bytes _ _ _) as [l |]; [| done]. destruct (store_bytes dst l (memory m)) as [mem' |] eqn:E; [| done].
    intros [= _ <-]. constructor; try done. apply (store_bytes_banks _ _ _ _ E).
Qed.

Lemma keeps_tables_DMA_MemoryToLC ca ma n : keeps_tables (DMA_MemoryToLC ca ma n).
Proof.
  intros m v m'. unfold DMA_MemoryToLC. unfold mbind at 1, M_bind at 1, gets at 1. destruct (_ =? _); [| destruct (_ =? _)].
  - apply keeps_tables_device_to_lc. intros a. unfold EFB_Read.
    repeat case_match; first [apply keeps_tables_ret | apply keeps_tables_efb].
  - apply keeps_tables_device_to_lc. intros a. apply (keeps_tables_mmio_Read 4 a u32).
  - destruct (GetPointer (memory m) ma) as [src |]; [| intros [= _ <-]; reflexivity]. unfold mbind, M_bind, host.
    destruct (load_bytes _ _ _) as [l |]; [| done]. destruct (store_bytes _ l (memory m)) as [mem' |] eqn:E; [| done].
    intros [= _ <-]. constructor; try done. apply (store_bytes_banks _ _ _ _ E).
Qed.

(** The writes that reach a timer or a device. *)
Lemma keeps_tables_device i old v : reaches_device i = true -> keeps_tables (spr_written i old v).
Proof.
  intros Q. assert (C : i = SPR_DEC \/ i = SPR_TL_W \/ i = SPR_TU_W \/ i = SPR_WPAR \/ i = SPR_DMAL).
  { unfold reaches_device in Q. destruct (Z.eqb_spec i SPR_DEC), (Z.eqb_spec i SPR_TL_W), (Z.eqb_spec i SPR_TU_W), (Z.eqb_spec i SPR_WPAR), (Z.eqb_spec i SPR_DMAL); tauto || done. }
  destruct C as [-> | [-> | [-> | [-> | ->]]]].
  - change (keeps_tables (write_dec old v)). unfold write_dec. apply keeps_tables_seq; [| intros _; apply keeps_tables_modify, kept_DecrementerSet].
    destruct (_ && _); [apply keeps_tables_modify; intros m; constructor; done | apply keeps_tables_ret].
  - apply (keeps_tables_seq _ _ (registers (put_spr SPR_TL v))); [apply keeps_tables_put; done | intros _; apply keeps_tables_modify, kept_TimeBaseSet].
  - apply (keeps_tables_seq _ _ (registers (put_spr SPR_TU v))); [apply keeps_tables_put; done | intros _; apply keeps_tables_modify, kept_TimeBaseSet].
  - change (keeps_tables (write_wpar v)). unfold write_wpar. apply keeps_tables_seq; [| intros _; apply keeps_tables_modify; intros m; constructor; done].
    destruct (negb _); [| apply keeps_tables_ret]. intros m u m'. unfold assert_failed. destruct (PanicYesNo _) as [[] d]; [| done].
    intros [= _ <-]. constructor; done.
  - change (keeps_tables write_dmal). unfold write_dmal. apply keeps_tables_seq; [apply keeps_tables_gets | intros s].
    apply keeps_tables_seq; [| intros _; apply keeps_tables_modify; intros m; constructor; try done; intros j Hj; apply put_spr_other; intros ->; done].
    destruct (DMA_T _); [| apply keeps_tables_ret]. cbn [when]. destruct (DMA_LD _); [apply keeps_tables_DMA_MemoryToLC | apply keeps_tables_DMA_LCToMemory].
Qed.

(** A write that reaches neither a timer nor a device. *)
Lemma quiet_write_current i old v m :
  tables_current m -> inu 32 v -> old = rSPR (cpu m) i -> reaches_device i = false ->
  exists m', spr_written i old v (set_cpu (put_spr i v (cpu m)) m) = Done tt m' /\ tables_current m' /\
    (names_bat i = false \/ old = v -> dbat_table m' = dbat_table m /\ ibat_table m' = ibat_table m).
Proof.
  intros [Td Ti] Hv Eo Q.
  destruct (spr_written_quiet i old v (set_cpu (put_spr i v (cpu m)) m) Q) as (m1 & -> & Em & Ec & Ed & Ei).
  cbn [cpu memory set_cpu dbat_table ibat_table] in Em, Ec, Ed, Ei. exists m1. split; [done |].
  assert (New : rSPR (put_spr i v (cpu m)) i = v) by (rewrite rSPR_put_spr, Z.eqb_refl, wrapu_id by done; done).
  rewrite New in Ed, Ei.
  assert (Keep : forall j, j <> i \/ old = v -> rSPR (put_spr i v (cpu m)) j = rSPR (cpu m) j).
  { intros j [N | E]; [apply put_spr_other; done |]. destruct (decide (j = i)) as [-> | N]; [congruence | apply put_spr_other; done]. }
  split; [unfold tables_current; rewrite Em, Ec; split |].
  - rewrite Ed. rewrite (DBATUpdated_ext (memory m) (written _ _ _) (put_spr i v (cpu m))) by (intros j [Hj | Hj]; apply written_bats; auto).
    destruct ((i =? SPR_HID4) || is_dbat i) eqn:B; cbn [andb]; [destruct (Z.eqb_spec old v) as [Eov |]; cbn [negb]; [| done] |]; rewrite Td;
      apply DBATUpdated_ext; intros j Hj; symmetry; apply Keep; [auto |].
    left. intros ->. apply orb_false_iff in B as [B1%Z.eqb_neq B2]. destruct Hj; congruence.
  - rewrite Ei. rewrite (IBATUpdated_ext (memory m) (written _ _ _) (put_spr i v (cpu m))) by (intros j [Hj | Hj]; apply written_bats; auto).
    destruct ((i =? SPR_HID4) || is_ibat i) eqn:B; cbn [andb]; [destruct (Z.eqb_spec old v) as [Eov |]; cbn [negb]; [| done] |]; rewrite Ti;
      apply IBATUpdated_ext; intros j Hj; symmetry; apply Keep; [auto |].
    left. intros ->. apply orb_false_iff in B as [B1%Z.eqb_neq B2]. destruct Hj; congruence.
  - intros Hn. assert (N : ((i =? SPR_HID4) || is_dbat i) && negb (old =? v) = false /\ ((i =? SPR_HID4) || is_ibat i) && negb (old =? v) = false).
    { destruct Hn as [Hn | ->]; [| rewrite Z.eqb_refl, !andb_false_r; done]. unfold names_bat in Hn.
      apply orb_false_iff in Hn as [[-> ->]%orb_false_iff ->]. done. }
    destruct N as [N1 N2]. rewrite Ed, Ei, N1, N2. done.
Qed.

(** C25: The tables that translate blocks are those of the BAT registers and
    HID4 after every [mtspr] that returns, by a user or a supervisor, to any
    register, if they were before: the writes to these registers that change
    the value compute the tables anew, and every other write leaves the tables
    as they were. Every [mtspr] returns that does not set off a timer, the
    gather pipe or a transfer of the locked cache (these may fault on the host
    or ask the user); the handlers of timers and devices are taken to leave the
    tables and these registers alone. *)
Theorem tables_stay_current inst m :
  tables_current m -> wf (cpu m) ->
  let i := mtspr_index inst in
  (forall m', mtspr inst m = Done tt m' -> tables_current m' /\
     (names_bat i = false \/ rSPR (cpu m) i = rGPR (cpu m) (RD inst) -> dbat_table m' = dbat_table m /\ ibat_table m' = ibat_table m)) /\
  (reaches_device i = false -> exists m', mtspr inst m = Done tt m').
Proof.
  intros T Hs i. assert (Hv : inu 32 (rGPR (cpu m) (RD inst))) by (destruct Hs; eapply arr_ok_zget; done || lia).
  unfold mtspr. fold i. unfold mbind, M_bind, gets, registers, modify.
  destruct (Z.testbit (msr (cpu m)) MSR_PR && negb (user_writable i)).
  { split; [| eauto]. intros m' [= <-]. split; [| done]. apply (tables_kept_current m); [constructor |]; done. }
  destruct (reaches_device i) eqn:Q.
  - split; [| done]. intros m' E. pose proof (keeps_tables_device i _ _ Q _ _ _ E) as K.
    assert (N : names_bat i = false) by (unfold reaches_device in Q; unfold names_bat, is_dbat, is_ibat, SPR_DEC, SPR_TL_W, SPR_TU_W, SPR_WPAR, SPR_DMAL, SPR_HID4 in *; lia).
    assert (K' : tables_kept m m').
    { etransitivity; [| exact K]. constructor; try done. intros j Hj. apply put_spr_other. congruence. }
    split; [apply (tables_kept_current m); done | intros _; destruct K'; done].
  - destruct (quiet_write_current i (rSPR (cpu m) i) (rGPR (cpu m) (RD inst)) m T Hv eq_refl Q) as (m1 & E & T1 & N1).
    split; [| eauto]. intros m' E'. rewrite E in E'. injection E' as <-. done.
Qed.
End Devices.
End SprFacts.

(** ** Witnesses *)

#[local] Existing Instance quiet_host.
#[local] Existing Instance quiet_cache.

(** No timers, no debugger. *)
#[local] Instance no_timers : TimerHost unit := {|
  GetFakeDecrementer m := 0;
  GetFakeTimeBase m := 0;
  DecrementerSet m := m;
  TimeBaseSet m := m
|}.
#[local] Instance no_pipe : SprHost unit := {|
  ResetGatherPipe d := d;
  JitInterface_ClearSafe d := d;
  OverlapsMemcheck _ _ := false;
  bWii := false
|}.

(** [mtspr] and [mfspr] of a register. *)
Definition spr_inst (rd index : Z) : Z := (rd .<< 21) .| ((index .& 31) .<< 16) .| ((index .>> 5) .<< 11).

Lemma spr_reads_back_witness :
  exists m1 m2, mtspr (spr_inst 4 SPR_HID1) at_two_pages = Done tt m1 /\ mfspr (spr_inst 5 SPR_HID1) m1 = Done tt m2 /\
    rGPR (cpu m2) 5 = 0x80000000 /\ memory m2 = memory at_two_pages.
Proof.
  refine (spr_reads_back (spr_inst 4 SPR_HID1) (spr_inst 5 SPR_HID1) at_two_pages 0x80000000 wf_at_two_pages _ _ _ _); vm_compute; try reflexivity.
  split; [discriminate | reflexivity].
Defined.

Definition user_two_pages : Mmu unit := set_cpu (set_msr (1 .<< MSR_PR) (cpu at_two_pages)) at_two_pages.

Lemma user_mode_registers_witness :
  mtspr (spr_inst 4 SPR_HID0) user_two_pages = Done tt (set_cpu (GenerateProgramException (cpu user_two_pages)) user_two_pages).
Proof. exact (proj1 (user_mode_registers (spr_inst 4 SPR_HID0) user_two_pages eq_refl)). Defined.

Definition with_tables (m : Mmu unit) : Mmu unit :=
  mk_mmu (cpu m) (memory m) (tlb m) (pagetable_base m) (pagetable_hashmask m) (IBATUpdated OverlapsMemcheck bWii (memory m) (cpu m))
    (DBATUpdated OverlapsMemcheck bWii (memory m) (cpu m)) (iCache m) tt.

Lemma tables_current_with m : tables_current (with_tables m).
Proof. split; reflexivity. Qed.
Lemma with_tables_cpu m : cpu (with_tables m) = cpu m.
Proof. reflexivity. Qed.
Lemma at_two_pages_supervisor : Z.testbit (msr (cpu (with_tables at_two_pages))) MSR_PR = false.
Proof. rewrite with_tables_cpu. vm_compute. reflexivity. Qed.
Lemma wf_with_tables : wf (cpu (with_tables at_two_pages)).
Proof. rewrite with_tables_cpu. apply wf_at_two_pages. Qed.

#[local] Instance quiet_tables : DevicesKeepTables (D := unit).
Proof. constructor; reflexivity. Qed.

(** A block register, and the gather pipe. *)
Lemma tables_stay_current_witness :
  (exists m', mtspr (spr_inst 4 SPR_DBAT0U) (with_tables at_two_pages) = Done tt m' /\ tables_current m') /\
  (forall m', mtspr (spr_inst 4 SPR_WPAR) (with_tables at_two_pages) = Done tt m' -> tables_current m').
Proof.
  split.
  - destruct (tables_stay_current (spr_inst 4 SPR_DBAT0U) (with_tables at_two_pages) (tables_current_with _) wf_with_tables) as [C R].
    destruct R as [m' E]; [vm_compute; reflexivity |]. exists m'. split; [exact E | exact (proj1 (C m' E))].
  - intros m' E.
    exact (proj1 (proj1 (tables_stay_current (spr_inst 4 SPR_WPAR) (with_tables at_two_pages) (tables_current_with _) wf_with_tables) m' E)).
Defined.
