(* ===== verification/PpcTimers.v ===== *)
(** The machine with its clock, and the two timers of the processor
    ([DecrementerSet], [GetFakeDecrementer], [TimeBaseSet] and
    [GetFakeTimeBase] of [Core/HW/SystemTimers.cpp]).

    Neither timer ticks. Each is a pair of a value and the time it was set at,
    and is computed when it is read; the decrementer's exception is an event of
    the scheduler. The theorems say that what is computed is what a register
    that ticks every twelve cycles would hold, and when the event comes. *)

From S2P Require Import Prelude Memmap PpcCache PpcState PpcBat PpcTlb PpcMmu PpcLoadStore StdHeap CoreTiming PpcSpr.
Open Scope Z_scope.

(** ** The machine with its clock *)

(** What [CoreTiming] keeps beside the processor's downcount, the start of the
    two timers, and the devices. *)
Record Clock (E : Type) := mk_clock {
  clk_global_timer : Z;
  clk_slice_length : Z;
  clk_event_queue : list Event;
  clk_event_fifo_id : Z;
  clk_ts_queue : list Event;
  clk_idled_cycles : Z;
  clk_is_global_timer_sane : bool;
  s_fake_dec_start_value : Z;
  s_fake_dec_start_ticks : Z;
  fake_TB_start_value : Z;
  fake_TB_start_ticks : Z;
  rest : E
}.
Arguments mk_clock {E}.
Arguments clk_global_timer {E}.
Arguments clk_slice_length {E}.
Arguments clk_event_queue {E}.
Arguments clk_event_fifo_id {E}.
Arguments clk_ts_queue {E}.
Arguments clk_idled_cycles {E}.
Arguments clk_is_global_timer_sane {E}.
Arguments s_fake_dec_start_value {E}.
Arguments s_fake_dec_start_ticks {E}.
Arguments fake_TB_start_value {E}.
Arguments fake_TB_start_ticks {E}.
Arguments rest {E}.

Section Machine.
Context {E : Type}.

(** The scheduler's view: the processor, and everything else as its world. *)
Definition to_sched (m : Mmu (Clock E)) : State (Mmu (Clock E)) :=
  let c := devices m in
  mk_state (cpu m) m (clk_global_timer c) (clk_slice_length c) (clk_event_queue c) (clk_event_fifo_id c) (clk_ts_queue c)
    (clk_idled_cycles c) (clk_is_global_timer_sane c).

Definition of_sched (s : State (Mmu (Clock E))) : Mmu (Clock E) :=
  let m := world s in
  let c := devices m in
  set_cpu (ppc s) (set_devices
    (mk_clock (global_timer s) (slice_length s) (s_event_queue s) (s_event_fifo_id s) (s_ts_queue s) (s_idled_cycles s)
       (s_is_global_timer_sane s) (s_fake_dec_start_value c) (s_fake_dec_start_ticks c) (fake_TB_start_value c) (fake_TB_start_ticks c) (rest c)) m).

Definition on_sched (f : State (Mmu (Clock E)) -> State (Mmu (Clock E))) (m : Mmu (Clock E)) : Mmu (Clock E) := of_sched (f (to_sched m)).

Definition SetFakeDec (value ticks : Z) (m : Mmu (Clock E)) : Mmu (Clock E) :=
  let c := devices m in
  set_devices (mk_clock (clk_global_timer c) (clk_slice_length c) (clk_event_queue c) (clk_event_fifo_id c) (clk_ts_queue c)
    (clk_idled_cycles c) (clk_is_global_timer_sane c) value ticks (fake_TB_start_value c) (fake_TB_start_ticks c) (rest c)) m.

Definition SetFakeTB (value ticks : Z) (m : Mmu (Clock E)) : Mmu (Clock E) :=
  let c := devices m in
  set_devices (mk_clock (clk_global_timer c) (clk_slice_length c) (clk_event_queue c) (clk_event_fifo_id c) (clk_ts_queue c)
    (clk_idled_cycles c) (clk_is_global_timer_sane c) (s_fake_dec_start_value c) (s_fake_dec_start_ticks c) value ticks (rest c)) m.
End Machine.

(** ** The timers *)

Definition TIMER_RATIO : Z := 12.

Section Timers.
Context {E : Type} {heap : HeapAlgorithms Event event_leb}.
(** The registration of the decrementer's event. *)
Variable et_Dec : EventType.
Implicit Types m : Mmu (Clock E).

Definition Ticks m : Z := GetTicks (to_sched m).

Definition DecrementerCallback m : Mmu (Clock E) :=
  set_cpu (set_Exceptions (Exceptions (cpu m) .| EXCEPTION_DECREMENTER) (put_spr SPR_DEC 0xFFFFFFFF (cpu m))) m.

(** [decValue * TIMER_RATIO] is a [u32]. *)
Definition SystemTimers_DecrementerSet m : Mmu (Clock E) :=
  let decValue := rSPR (cpu m) SPR_DEC in
  let m := on_sched (RemoveEvent et_Dec) m in
  if (decValue .& 0x80000000) =? 0 then
    let m := SetFakeDec decValue (Ticks m) m in
    on_sched (ScheduleEvent (u32 (decValue * TIMER_RATIO)) et_Dec 0 true) m
  else m.

Definition SystemTimers_GetFakeDecrementer m : Z :=
  let c := devices m in
  u32 (s_fake_dec_start_value c - u32 (u64 (Ticks m - s_fake_dec_start_ticks c) / TIMER_RATIO)).

Definition SystemTimers_TimeBaseSet m : Mmu (Clock E) := SetFakeTB (ReadFullTimeBaseValue (cpu m)) (Ticks m) m.

Definition SystemTimers_GetFakeTimeBase m : Z :=
  let c := devices m in
  u64 (fake_TB_start_value c + u64 (Ticks m - fake_TB_start_ticks c) / TIMER_RATIO).

#[export] Instance system_timers : TimerHost (Clock E) := {|
  GetFakeDecrementer := SystemTimers_GetFakeDecrementer;
  GetFakeTimeBase := SystemTimers_GetFakeTimeBase;
  DecrementerSet := SystemTimers_DecrementerSet;
  TimeBaseSet := SystemTimers_TimeBaseSet
|}.
End Timers.

(** ** The two views *)

Section Facts.
Context {E : Type} {heap : HeapAlgorithms Event event_leb}.
Variable et_Dec : EventType.
Implicit Types m : Mmu (Clock E).

Lemma of_to_sched m : of_sched (to_sched m) = m.
Proof. destruct m as [? ? ? ? ? ? ? ? []]. done. Qed.

(** What the timers keep. *)
Definition dec_of m : Z * Z := (s_fake_dec_start_value (devices m), s_fake_dec_start_ticks (devices m)).
Definition tb_of m : Z * Z := (fake_TB_start_value (devices m), fake_TB_start_ticks (devices m)).

(** An operation of the scheduler that leaves the machine to itself. *)
Definition own (f : State (Mmu (Clock E)) -> State (Mmu (Clock E))) : Prop :=
  forall s, world (f s) = world s /\ exists d, ppc (f s) = set_downcount d (ppc s).

Lemma set_downcount_same (s : PowerPCState) : set_downcount (downcount s) s = s.
Proof. by destruct s. Qed.

Lemma RemoveEvent_own ty : own (RemoveEvent ty).
Proof. intros s. unfold RemoveEvent. destruct (_ <? _)%nat; (split; [done |]); exists (downcount (ppc s)); rewrite set_downcount_same; done. Qed.

Lemma ScheduleEvent_own c ty ud : own (ScheduleEvent c ty ud true).
Proof.
  intros s. unfold ScheduleEvent, push_event, ForceExceptionCheck. destruct (negb _); [destruct (_ <? _) |]; (split; [done |]).
  - eexists. reflexivity.
  - exists (downcount (ppc s)). rewrite set_downcount_same. done.
  - exists (downcount (ppc s)). rewrite set_downcount_same. done.
Qed.

(** The scheduler cannot tell a stale world. *)
Lemma to_of_sched (s : State (Mmu (Clock E))) : to_sched (of_sched s) = set_machine (ppc s, of_sched s) s.
Proof. by destruct s. Qed.

Lemma GetTicks_set_world (s : State (Mmu (Clock E))) w : GetTicks (set_machine (ppc s, w) s) = GetTicks s.
Proof. done. Qed.

Lemma now_set_world (s : State (Mmu (Clock E))) w : now (set_machine (ppc s, w) s) = now s.
Proof. done. Qed.

Lemma on_sched_ticks f m : Ticks (on_sched f m) = GetTicks (f (to_sched m)).
Proof. unfold Ticks, on_sched. rewrite to_of_sched. apply GetTicks_set_world. Qed.

Lemma on_sched_keeps f m :
  own f -> dec_of (on_sched f m) = dec_of m /\ tb_of (on_sched f m) = tb_of m /\ rest (devices (on_sched f m)) = rest (devices m) /\
    memory (on_sched f m) = memory m /\ exists d, cpu (on_sched f m) = set_downcount d (cpu m).
Proof.
  intros Hf. destruct (Hf (to_sched m)) as [Ew [d Ed]]. unfold on_sched, of_sched, dec_of, tb_of. rewrite Ew, Ed. cbn. split_and!; try done. eauto.
Qed.

Definition Queue m : list Event := clk_event_queue (devices m).

Lemma on_schedule_set_world (s : State (Mmu (Clock E))) w : on_schedule s -> on_schedule (set_machine (ppc s, w) s).
Proof. intros [[] ? ? ? ?]. constructor; [constructor |..]; done. Qed.

(** The time does not depend on what is scheduled. *)
Lemma Ticks_now m : on_schedule (to_sched m) -> Ticks m = now (to_sched m).
Proof. intros []. apply GetTicks_now; done. Qed.

Lemma now_RemoveEvent ty (s : State (Mmu (Clock E))) : now (RemoveEvent ty s) = now s.
Proof. unfold RemoveEvent. destruct (_ <? _)%nat; done. Qed.

Lemma now_ScheduleEvent c ty ud (s : State (Mmu (Clock E))) : slice_ok s -> c < 2 ^ 63 -> now (ScheduleEvent c ty ud true s) = now s.
Proof.
  intros Hs Hc. unfold ScheduleEvent. destruct (negb _); [| done]. destruct (ForceExceptionCheck_spec c s Hs Hc) as (d & -> & _).
  unfold push_event, now. cbn. lia.
Qed.

(** Ending the fact about the queue. *)
Lemma RemoveEvent_queue ty (s : State (Mmu (Clock E))) : s_event_queue (RemoveEvent ty s) ≡ₚ filter (fun e => type e <> ty) (s_event_queue s).
Proof.
  unfold RemoveEvent. set (q := filter _ _). destruct (Nat.ltb_spec (length q) (length (s_event_queue s))) as [| Hl].
  - destruct (make_heap_spec q) as [P _]. exact P.
  - subst q. pose proof (filter_app_complement (fun e => type e <> ty) (s_event_queue s)) as C.
    pose proof (Permutation_length C) as L. rewrite length_app in L.
    destruct (filter (fun e => ~ type e <> ty) (s_event_queue s)) eqn:Ef; [| cbn in L; lia]. rewrite app_nil_r in C. symmetry. exact C.
Qed.

Lemma ScheduleEvent_queue c ty ud (s : State (Mmu (Clock E))) :
  on_schedule s -> 0 <= c <= CYCLES_LIMIT -> s_event_fifo_id s + 1 < 2 ^ 64 ->
  s_event_queue (ScheduleEvent c ty ud true s) ≡ₚ s_event_queue s ++ [mk_event (now s + c) (s_event_fifo_id s) ud ty].
Proof.
  intros Hs Hc Hid. pose proof Hs as [Hw Hsl Ht Hsane He]. pose proof (q_now s Hw) as Hg. pose proof Hsl as (H1 & H2 & Hn).
  assert (En : global_timer s <= now s) by (unfold now; lia).
  unfold ScheduleEvent. rewrite (GetTicks_now s Hsl Hw Hsane). unfold TIME_LIMIT, CYCLES_LIMIT in *.
  rewrite wraps_id by (lia || (unfold ins; change (2 ^ (64 - 1)) with (2 ^ 63); lia)).
  assert (Hok : time_ok (now s + c)) by (unfold time_ok, TIME_LIMIT, CYCLES_LIMIT; lia).
  destruct (negb (s_is_global_timer_sane s)).
  - destruct (ForceExceptionCheck_spec c s Hsl) as (d & -> & _); [lia |].
    apply (push_event_spec (now s + c) ud ty (set_ppc _ (set_slice_length _ s))); [apply (wf_queue_ext s); done | done | done].
  - apply (push_event_spec (now s + c) ud ty s); done.
Qed.

(** ** The decrementer *)

Lemma elapsed_ticks t n : inu 64 t -> 0 <= n < 2 ^ 64 -> u64 (u64 (t + n) - t) = n.
Proof.
  intros Ht Hn. unfold wrapu. rewrite Zminus_mod_idemp_l. replace (t + n - t) with n by lia. apply Z.mod_small. lia.
Qed.

Lemma DecrementerSet_unfold m :
  let m1 := on_sched (RemoveEvent et_Dec) m in
  SystemTimers_DecrementerSet et_Dec m =
    if rSPR (cpu m) SPR_DEC .& 0x80000000 =? 0 then
      on_sched (ScheduleEvent (u32 (rSPR (cpu m) SPR_DEC * TIMER_RATIO)) et_Dec 0 true) (SetFakeDec (rSPR (cpu m) SPR_DEC) (Ticks m1) m1)
    else m1.
Proof. reflexivity. Qed.

(** What setting the decrementer schedules, and what is computed from then on. *)
Lemma DecrementerSet_spec m :
  on_schedule (to_sched m) -> clk_event_fifo_id (devices m) + 1 < 2 ^ 64 ->
  let v := rSPR (cpu m) SPR_DEC in
  0 <= v < 2 ^ 32 ->
  let m1 := SystemTimers_DecrementerSet et_Dec m in
  let others := filter (fun e => type e <> et_Dec) (Queue m) in
  let due := Ticks m + u32 (12 * v) in
  on_schedule (to_sched m1) /\ Ticks m1 = Ticks m /\ rest (devices m1) = rest (devices m) /\ (exists d, cpu m1 = set_downcount d (cpu m)) /\
  (if v <? 2 ^ 31
   then Queue m1 ≡ₚ others ++ [mk_event due (clk_event_fifo_id (devices m)) 0 et_Dec] /\
     (forall m2 n, dec_of m2 = dec_of m1 -> 0 <= n < 2 ^ 64 -> Ticks m2 = u64 (Ticks m + n) -> SystemTimers_GetFakeDecrementer m2 = u32 (v - n / 12)) /\
     (forall m2, dec_of m2 = dec_of m1 -> Ticks m2 = due ->
        if v <=? 357913941 then SystemTimers_GetFakeDecrementer m2 = 0 else 0 < SystemTimers_GetFakeDecrementer m2 <= v)
   else Queue m1 ≡ₚ others /\ dec_of m1 = dec_of m).
Proof.
  intros Hs Hid v Hv m1 others due. subst m1. rewrite DecrementerSet_unfold. cbv zeta. fold v.
  set (m0 := on_sched (RemoveEvent et_Dec) m).
  assert (H0 : on_schedule (to_sched m0)).
  { subst m0. unfold on_sched. rewrite to_of_sched. apply on_schedule_set_world, on_schedule_RemoveEvent. done. }
  assert (T0 : Ticks m0 = Ticks m) by (rewrite !Ticks_now by done; subst m0; unfold on_sched; rewrite to_of_sched, now_set_world; apply now_RemoveEvent).
  assert (Q0 : Queue m0 ≡ₚ others) by (apply (RemoveEvent_queue et_Dec (to_sched m))).
  destruct (on_sched_keeps (RemoveEvent et_Dec) m (RemoveEvent_own et_Dec)) as (D0 & _ & R0 & _ & d0 & C0). fold m0 in D0, R0, C0.
  assert (I0 : clk_event_fifo_id (devices m0) = clk_event_fifo_id (devices m)).
  { subst m0. unfold on_sched, of_sched, RemoveEvent. destruct (_ <? _)%nat; done. }
  assert (Hb : (v .& 0x80000000 =? 0) = (v <? 2 ^ 31)).
  { change 0x80000000 with (2 ^ 31). pose proof (flag_testbit v 31 ltac:(lia)) as F. unfold flag in F. symmetry in F. apply negb_sym in F. rewrite F.
    rewrite Z.testbit_eqb by lia. assert (C : v / 2 ^ 31 = if v <? 2 ^ 31 then 0 else 1) by (destruct (Z.ltb_spec v (2 ^ 31)); Z.to_euclidean_division_equations; lia).
    rewrite C. destruct (v <? 2 ^ 31); done. }
  rewrite Hb. destruct (Z.ltb_spec v (2 ^ 31)) as [Hlt |]; [| split_and!; eauto].
  set (c := u32 (v * TIMER_RATIO)). assert (Hc : 0 <= c < 2 ^ 32) by (apply wrapu_range; lia).
  assert (Ec : c = u32 (12 * v)) by (subst c; unfold TIMER_RATIO; f_equal; lia).
  set (m1 := SetFakeDec v (Ticks m0) m0).
  assert (H1 : on_schedule (to_sched m1)) by exact (on_schedule_set_world (to_sched m0) m1 H0).
  assert (T1 : Ticks m1 = Ticks m) by exact T0.
  assert (I1 : s_event_fifo_id (to_sched m1) = clk_event_fifo_id (devices m)) by exact I0.
  set (m2 := on_sched (ScheduleEvent c et_Dec 0 true) m1).
  destruct (on_sched_keeps (ScheduleEvent c et_Dec 0 true) m1 (ScheduleEvent_own c et_Dec 0)) as (D2 & _ & R2 & _ & d2 & C2). fold m2 in D2, R2, C2.
  assert (S2 : on_schedule (ScheduleEvent c et_Dec 0 true (to_sched m1))).
  { apply on_schedule_ScheduleEvent; [done | unfold CYCLES_LIMIT; lia |]. rewrite I1. done. }
  assert (H2 : on_schedule (to_sched m2)) by (subst m2; unfold on_sched; rewrite to_of_sched; apply on_schedule_set_world; done).
  assert (T2 : Ticks m2 = Ticks m).
  { rewrite <- T1, !Ticks_now by done. subst m2. unfold on_sched. rewrite to_of_sched, now_set_world. destruct H1. apply now_ScheduleEvent; [done | lia]. }
  assert (Q2 : Queue m2 ≡ₚ others ++ [mk_event due (clk_event_fifo_id (devices m)) 0 et_Dec]).
  { change (Queue m2) with (s_event_queue (ScheduleEvent c et_Dec 0 true (to_sched m1))).
    rewrite ScheduleEvent_queue by (done || (unfold CYCLES_LIMIT; lia) || (rewrite I1; done)). rewrite <- Q0.
    rewrite <- (Ticks_now m1 H1), T1, Ec, I1. done. }
  assert (Read : forall m3 n, dec_of m3 = dec_of m2 -> 0 <= n < 2 ^ 64 -> Ticks m3 = u64 (Ticks m + n) -> SystemTimers_GetFakeDecrementer m3 = u32 (v - n / 12)).
  { intros m3 n Ed Hn Et. rewrite D2 in Ed. injection Ed as E1 E2. unfold SystemTimers_GetFakeDecrementer. rewrite E1, E2, Et, T0. unfold TIMER_RATIO.
    rewrite elapsed_ticks by (done || (unfold Ticks, GetTicks; destruct (negb _); apply wrapu_range; lia)).
    unfold wrapu. rewrite Zminus_mod_idemp_r. done. }
  split_and!; [done | done | etransitivity; [exact R2 | exact R0] | exists d2; rewrite C2; change (cpu m1) with (cpu m0); rewrite C0; done | done | done |].
  intros m3 Ed Et. pose proof (q_now _ (os_wf _ Hs)) as Hg. destruct (os_slice _ Hs) as (B1 & B2 & B3).
  assert (Hnow : 0 <= Ticks m < 2 ^ 62) by (rewrite Ticks_now by done; unfold now, TIME_LIMIT in *; lia).
  rewrite (Read m3 c Ed); [| lia | rewrite Et, wrapu_id by (unfold inu; lia); rewrite Ec; done]. clear - Hc Hlt Hv.
  destruct (Z.leb_spec v 357913941).
  - replace c with (v * 12) by (symmetry; apply wrapu_id; unfold inu; lia). rewrite Z.div_mul, Z.sub_diag by lia. done.
  - clearbody c. assert (0 <= c / 12 <= 357913941) by (Z.to_euclidean_division_equations; lia). rewrite wrapu_id by (unfold inu; lia). lia.
Qed.

(** The timers leave the tables of the block address translation alone, as
    [PpcSpr.DevicesKeepTables] asks. *)
Lemma tables_kept_on_sched f m : own f -> tables_kept m (on_sched f m).
Proof.
  intros Hf. destruct (Hf (to_sched m)) as [Ew [d Ed]]. unfold on_sched, of_sched. rewrite Ew, Ed. constructor; done.
Qed.

Lemma timers_keep_tables m : tables_kept m (SystemTimers_DecrementerSet et_Dec m) /\ tables_kept m (SystemTimers_TimeBaseSet m).
Proof.
  split; [| constructor; done]. rewrite DecrementerSet_unfold. cbv zeta.
  pose proof (tables_kept_on_sched _ m (RemoveEvent_own et_Dec)) as K. destruct (_ =? 0); [| exact K].
  etransitivity; [| apply tables_kept_on_sched, ScheduleEvent_own]. etransitivity; [exact K |]. constructor; done.
Qed.

(** ** Reading the timers *)

Section Reading.
Context `{!MmuHost (Clock E), !LoadStoreHost (Clock E), !SprHost (Clock E)}.
#[local] Instance clock_timers : TimerHost (Clock E) := system_timers et_Dec.

(** A supervisor's [mfspr] of the decrementer gives [x], to the target register
    and to the register itself. *)
Definition decrementer_reads m (x : Z) : Prop :=
  forall inst, spr_index inst = SPR_DEC -> wf (cpu m) -> Z.testbit (msr (cpu m)) MSR_PR = false ->
  exists m', mfspr inst m = Done tt m' /\ rGPR (cpu m') (RD inst) = x /\ rSPR (cpu m') SPR_DEC = x.

(** A register with bit 31 clear is computed, one with bit 31 set stands still. *)
Lemma mfspr_decrementer m :
  decrementer_reads m (if Z.testbit (rSPR (cpu m) SPR_DEC) 31 then rSPR (cpu m) SPR_DEC else SystemTimers_GetFakeDecrementer m).
Proof.
  intros inst Ei Hs PR. unfold mfspr. rewrite Ei. unfold mbind at 1, M_bind at 1, gets at 1. rewrite PR. cbn [andb].
  unfold refresh_spr, mbind, M_bind, gets, id. rewrite Z.eqb_refl. change 0x80000000 with (2 ^ 31). rewrite flag_testbit by lia.
  assert (Hd : 0 <= RD inst < 32) by (pose proof (field_range 21 5 inst ltac:(lia)) as F; unfold inu, RD in *; lia).
  destruct (Z.testbit (rSPR (cpu m) SPR_DEC) 31); cbn [negb when]; (eexists; split; [reflexivity |]); cbn [cpu set_cpu].
  - split; [| done]. rewrite rGPR_put_gpr by (done || apply (wf_gpr _ Hs)). rewrite Z.eqb_refl. apply wrapu_id.
    destruct Hs; apply mem_ok_mget; done || lia.
  - assert (W : u32 (SystemTimers_GetFakeDecrementer m) = SystemTimers_GetFakeDecrementer m) by (apply wrapu_id, wrapu_range; lia).
    rewrite rGPR_put_gpr by (done || apply (wf_gpr _ Hs)). change (rSPR (put_gpr ?d ?v ?s) ?i) with (rSPR s i).
    change (GetFakeDecrementer m) with (SystemTimers_GetFakeDecrementer m). rewrite !rSPR_put_spr, !Z.eqb_refl, !W. done.
Qed.

(** C26: The decrementer. Setting it to a value replaces whatever was scheduled
    for it by one event (none when bit 31 of the value is set), and neither
    changes the time nor lets any event be missed. From then on, whatever the
    machine does but set it again, a supervisor's [mfspr] reads the value less one for every
    twelve cycles, modulo 2^32, as long as bit 31 of the last value stored in
    the register is clear; the value read is stored. The event is due at the time
    12 * value modulo 2^32 later: when the register has just reached zero for a
    value up to 357913941, but before, with the register still positive, for
    every greater one. After the event the exception is pending and the register
    stands still at 0xFFFFFFFF, and a value with bit 31 set stands still too. *)
Theorem decrementer m :
  on_schedule (to_sched m) -> clk_event_fifo_id (devices m) + 1 < 2 ^ 64 ->
  let v := rSPR (cpu m) SPR_DEC in
  0 <= v < 2 ^ 32 ->
  let m1 := SystemTimers_DecrementerSet et_Dec m in
  let others := filter (fun e => type e <> et_Dec) (Queue m) in
  let due := Ticks m + u32 (12 * v) in
  on_schedule (to_sched m1) /\ Ticks m1 = Ticks m /\ rest (devices m1) = rest (devices m) /\ rSPR (cpu m1) SPR_DEC = v /\
  (if v <? 2 ^ 31
   then Queue m1 ≡ₚ others ++ [mk_event due (clk_event_fifo_id (devices m)) 0 et_Dec] /\
     (forall m2, dec_of m2 = dec_of m1 -> Z.testbit (rSPR (cpu m2) SPR_DEC) 31 = false ->
        (forall n, 0 <= n < 2 ^ 64 -> Ticks m2 = u64 (Ticks m + n) -> decrementer_reads m2 (u32 (v - n / 12))) /\
        (Ticks m2 = due -> exists x, decrementer_reads m2 x /\ if v <=? 357913941 then x = 0 else 0 < x <= v)) /\
     (forall m2, let m3 := DecrementerCallback m2 in
        flag (Exceptions (cpu m3)) EXCEPTION_DECREMENTER = true /\ decrementer_reads m3 0xFFFFFFFF)
   else Queue m1 ≡ₚ others /\ forall m2, rSPR (cpu m2) SPR_DEC = v -> decrementer_reads m2 v).
Proof.
  intros Hs Hid v Hv m1 others due. destruct (DecrementerSet_spec m Hs Hid Hv) as (S1 & T1 & R1 & (d & C1) & X).
  fold v m1 others due in S1, T1, R1, C1, X. split_and!; [done | done | done | rewrite C1; done |].
  destruct (Z.ltb_spec v (2 ^ 31)).
  - destruct X as (Q & Read & Due). split_and!; [done | |].
    + intros m2 Ed Hb. pose proof (mfspr_decrementer m2) as M. rewrite Hb in M. split.
      * intros n Hn Et. rewrite <- (Read m2 n Ed Hn Et). exact M.
      * intros Et. eexists. split; [exact M | exact (Due m2 Ed Et)].
    + intros m2 m3. assert (Hx : rSPR (cpu m3) SPR_DEC = 0xFFFFFFFF) by (etransitivity; [exact (rSPR_put_spr SPR_DEC 0xFFFFFFFF (cpu m2) SPR_DEC) | done]).
      split; [change (flag (Exceptions (cpu m2) .| 2 ^ 0) (2 ^ 0) = true); rewrite flag_testbit, Z.lor_spec by lia; apply orb_true_r |].
      pose proof (mfspr_decrementer m3) as M. rewrite Hx in M. exact M.
  - destruct X as [Q _]. split; [done |]. intros m2 Ev. pose proof (mfspr_decrementer m2) as M. rewrite Ev in M.
    assert (B : Z.testbit v 31 = true); [| rewrite B in M; exact M].
    rewrite Z.testbit_true by lia. assert (v / 2 ^ 31 = 1) as -> by (Z.to_euclidean_division_equations; lia). done.
Qed.

(** ** The time base *)

Lemma mtspr_time_base inst i m :
  Z.testbit (msr (cpu m)) MSR_PR = false -> (mtspr_index inst = SPR_TL_W /\ i = SPR_TL \/ mtspr_index inst = SPR_TU_W /\ i = SPR_TU) ->
  let v := rGPR (cpu m) (RD inst) in
  mtspr inst m = Done tt (SystemTimers_TimeBaseSet (set_cpu (put_spr i v (put_spr (mtspr_index inst) v (cpu m))) m)).
Proof.
  intros PR C v. unfold mtspr, mbind at 1, M_bind at 1, gets at 1. rewrite PR. destruct C as [[-> ->] | [-> ->]]; reflexivity.
Qed.

Lemma mftb_time_base inst m :
  spr_index inst = SPR_TL \/ spr_index inst = SPR_TU ->
  let s := WriteFullTimeBaseValue (SystemTimers_GetFakeTimeBase m) (cpu m) in
  mftb inst m = Done tt (set_cpu (put_gpr (RD inst) (rSPR s (spr_index inst)) s) m).
Proof.
  intros C s. unfold mftb, mfspr, mbind at 1, M_bind at 1, gets at 1.
  destruct C as [-> | ->]; cbn [user_readable]; rewrite andb_false_r; reflexivity.
Qed.

Lemma WriteFull_halves v s : inu 64 v -> let s' := WriteFullTimeBaseValue v s in rSPR s' SPR_TL = v mod 2 ^ 32 /\ rSPR s' SPR_TU = v / 2 ^ 32.
Proof.
  intros Hv. unfold WriteFullTimeBaseValue. cbv zeta. rewrite !rSPR_put_spr. cbn [SPR_TL SPR_TU Z.eqb Pos.eqb]. rewrite Z.shiftr_div_pow2 by lia.
  split; [done |]. apply wrapu_id. unfold inu in *. Z.to_euclidean_division_equations; lia.
Qed.

(** C27: The time base. After a program has written its two halves, whatever it
    does next, [mftb] and [mfspr] read the halves of the value written plus one
    for every twelve cycles that have passed, modulo 2^64. *)
Theorem time_base inst_lo inst_hi inst_lo' inst_hi' m m' n :
  wf (cpu m) -> wf (cpu m') -> Z.testbit (msr (cpu m)) MSR_PR = false ->
  mtspr_index inst_lo = SPR_TL_W -> mtspr_index inst_hi = SPR_TU_W -> spr_index inst_lo' = SPR_TL -> spr_index inst_hi' = SPR_TU ->
  let lo := rGPR (cpu m) (RD inst_lo) in
  let hi := rGPR (cpu m) (RD inst_hi) in
  0 <= n < 2 ^ 64 ->
  exists m1 m2, mtspr inst_lo m = Done tt m1 /\ mtspr inst_hi m1 = Done tt m2 /\ Ticks m2 = Ticks m /\
    (tb_of m' = tb_of m2 -> Ticks m' = u64 (Ticks m + n) ->
     let now_base := u64 (lo + 2 ^ 32 * hi + n / 12) in
     (exists m3, mftb inst_lo' m' = Done tt m3 /\ rGPR (cpu m3) (RD inst_lo') = now_base mod 2 ^ 32 /\ tb_of m3 = tb_of m') /\
     (exists m3, mftb inst_hi' m' = Done tt m3 /\ rGPR (cpu m3) (RD inst_hi') = now_base / 2 ^ 32 /\ tb_of m3 = tb_of m')).
Proof.
  intros Hs Hs' PR I1 I2 I3 I4 lo hi Hn.
  assert (Hlo : inu 32 lo) by (destruct Hs; eapply arr_ok_zget; done || lia).
  assert (Hhi : inu 32 hi) by (destruct Hs; eapply arr_ok_zget; done || lia).
  eexists _, _. split; [apply (mtspr_time_base inst_lo SPR_TL); [done | auto] |].
  set (m1 := SystemTimers_TimeBaseSet _). split; [apply (mtspr_time_base inst_hi SPR_TU); [done | auto] |].
  change (rGPR (cpu m1) (RD inst_hi)) with hi. set (m2 := SystemTimers_TimeBaseSet _). split; [done |].
  intros Etb Et now_base.
  assert (Eb : tb_of m2 = (lo + 2 ^ 32 * hi, Ticks m)).
  { unfold tb_of. subst m2. cbn [SystemTimers_TimeBaseSet SetFakeTB devices fake_TB_start_value fake_TB_start_ticks set_devices]. f_equal.
    unfold ReadFullTimeBaseValue. subst m1. cbn [cpu set_cpu SystemTimers_TimeBaseSet SetFakeTB set_devices]. rewrite I1, I2, !rSPR_put_spr.
    cbn [SPR_TL SPR_TU SPR_TL_W SPR_TU_W Z.eqb Pos.eqb]. rewrite !wrapu_id by done. rewrite Z.lor_comm, lor_shift_add by (done || lia). change (rGPR (put_spr _ _ _) (RD inst_hi)) with hi. change (rGPR (cpu m) (RD inst_lo)) with lo. lia. }
  assert (Base : SystemTimers_GetFakeTimeBase m' = now_base).
  { rewrite Eb in Etb. injection Etb as E1 E2. unfold SystemTimers_GetFakeTimeBase. rewrite E1, E2, Et. unfold TIMER_RATIO.
    rewrite elapsed_ticks by (done || (unfold Ticks, GetTicks; destruct (negb _); apply wrapu_range; lia)). done. }
  assert (Hb : inu 64 now_base) by (apply wrapu_range; lia).
  destruct (WriteFull_halves now_base (cpu m') Hb) as [W1 W2].
  assert (Rd : forall inst v, inu 32 v -> rGPR (put_gpr (RD inst) v (WriteFullTimeBaseValue now_base (cpu m'))) (RD inst) = v).
  { intros inst v Hv. assert (F : 0 <= RD inst < 32) by (pose proof (field_range 21 5 inst ltac:(lia)) as F; unfold inu, RD in *; lia).
    rewrite rGPR_put_gpr by (lia || apply (wf_gpr _ Hs')). rewrite Z.eqb_refl. apply wrapu_id. done. }
  split; eexists; (split; [apply mftb_time_base; auto |]); (split; [| done]); cbn [cpu set_cpu]; rewrite Base, ?I3, ?I4, ?W1, ?W2; apply Rd; unfold inu in *;
    Z.to_euclidean_division_equations; lia.
Qed.
End Reading.
End Facts.

(** ** Examples: forty cycles into a slice of a hundred *)

Definition clocked_cpu : PowerPCState := put_gpr 4 5 (put_gpr 3 7 (put_spr SPR_DEC 1000 (set_downcount 60 ppcState))).

Definition clocked : Mmu (Clock unit) :=
  mk_mmu clocked_cpu (Memmap.Init false false) ∅ 0 0 ∅ ∅ PpcCache.Init (mk_clock 0 100 [] 1 [] 0 false 0 0 0 0 tt).

Lemma clocked_on_schedule : on_schedule (to_sched clocked).
Proof.
  constructor.
  - constructor; cbn; unfold TIME_LIMIT; try lia; try constructor. apply is_heap_nil.
  - split; cbn; unfold MAX_SLICE_LENGTH; [lia |]. split; [lia |]. vm_compute. reflexivity.
  - constructor.
  - done.
  - intros _. constructor.
Qed.

Section Example.

#[local] Instance clock_mmu : MmuHost (Clock unit) := {|
  Video_AccessEFB t x y data d := (0, d);
  mmio_Read size a m := (0, m);
  mmio_Write size a v m := m;
  GPFifo_Write size v m := m;
  mem_check a v w size pc d := (false, d);
  bMMU := true
|}.
#[local] Instance clock_cache : LoadStoreHost (Clock unit) := {|
  JitInterface_InvalidateICache a n forced d := d;
  PanicYesNo d := (true, d);
  bLowDCBZHack := false
|}.
#[local] Instance clock_pipe : SprHost (Clock unit) := {|
  ResetGatherPipe d := d;
  JitInterface_ClearSafe d := d;
  OverlapsMemcheck _ _ := false;
  bWii := false
|}.
#[local] Instance clock_timers_9 : TimerHost (Clock unit) := system_timers 9.

Lemma wf_clocked : wf clocked_cpu.
Proof. unfold clocked_cpu. do 2 apply wf_put_gpr. apply wf_put_spr. pose proof wf_ppcState as []. constructor; done. Qed.

(** The decrementer at 1000: read 240 cycles later, and due after 12000. *)
Lemma decrementer_witness :
  Queue (SystemTimers_DecrementerSet 9 clocked) ≡ₚ [mk_event 12040 1 0 9] /\
  (forall m2 : Mmu (Clock unit), dec_of m2 = dec_of (SystemTimers_DecrementerSet 9 clocked) -> Z.testbit (rSPR (cpu m2) SPR_DEC) 31 = false ->
     (Ticks m2 = 280 -> decrementer_reads 9 m2 980) /\ (Ticks m2 = 12040 -> exists x, decrementer_reads 9 m2 x /\ x = 0)).
Proof.
  destruct (decrementer 9 clocked clocked_on_schedule ltac:(vm_compute; reflexivity) ltac:(vm_compute; split; [discriminate | reflexivity]))
    as (_ & _ & _ & _ & Q & R & _).
  split; [exact Q |]. intros m2 Ed Hb. destruct (R m2 Ed Hb) as [R1 R2]. split; [| exact R2].
  intros Et. apply (R1 240); [split; [discriminate | reflexivity] | exact Et].
Defined.

(** [mttbl r3], [mttbu r4], and 24 cycles later [mftbu r5]. *)
Lemma time_base_witness :
  let m' := on_sched (fun s => set_ppc (set_downcount 36 (ppc s)) s)
              (SystemTimers_TimeBaseSet (set_cpu (put_spr SPR_TU 5 (put_spr SPR_TL 7 clocked_cpu)) clocked)) in
  exists m3, mftb (spr_inst 5 SPR_TL) m' = Done tt m3 /\ rGPR (cpu m3) 5 = 9.
Proof.
  intros m'. destruct (time_base 9 (spr_inst 3 SPR_TL_W) (spr_inst 4 SPR_TU_W) (spr_inst 5 SPR_TL) (spr_inst 5 SPR_TU) clocked m' 24)
    as (m1 & m2 & E1 & E2 & _ & H).
  - apply wf_clocked.
  - subst m'. cbn [cpu on_sched of_sched set_cpu to_sched set_ppc set_machine ppc fst SystemTimers_TimeBaseSet SetFakeTB set_devices].
    pose proof (wf_put_spr SPR_TU 5 _ (wf_put_spr SPR_TL 7 _ wf_clocked)) as []. constructor; done.
  - reflexivity.
  - reflexivity.
  - reflexivity.
  - reflexivity.
  - reflexivity.
  - split; [discriminate | reflexivity].
  - assert (F : tb_of m2 = (5 * 2 ^ 32 + 7, 40)).
    { change (mtspr (spr_inst 3 SPR_TL_W) clocked) with (Done tt (SystemTimers_TimeBaseSet (set_cpu (put_spr SPR_TL 7 (put_spr SPR_TL_W 7 clocked_cpu)) clocked))) in E1.
      injection E1 as <-. revert E2. rewrite (mtspr_time_base 9 (spr_inst 4 SPR_TU_W) SPR_TU) by (vm_compute; auto). intros [= <-]. vm_compute. reflexivity. }
    destruct H as [(m3 & E3 & R3 & _) _]; [rewrite F; vm_compute; reflexivity | vm_compute; reflexivity |].
    exists m3. split; [exact E3 |]. change 5 with (RD (spr_inst 5 SPR_TL)). rewrite R3. vm_compute. reflexivity.
Defined.
End Example.
