(* ===== verification/PpcBranch.v ===== *)
(** Branches, system calls and exceptions of the PowerPC interpreter
    ([Core/PowerPC/Interpreter/Interpreter_Branch.cpp], with
    [PowerPC::CheckExceptions]).

    [bx] and [bcx] recognise idle loops and then skip time, so that they act on
    the scheduler's state, which holds the processor's. The theorems give the
    condition, the target and the link of every branch, the meaning of a
    comparison followed by a branch, which exception is delivered and how, and
    that [rfi] returns from it. *)

From S2P Require Import Prelude PpcState StdHeap CoreTiming PpcInteger PpcSystem.
Open Scope Z_scope.

(** ** Branches *)

Definition BO_DONT_DECREMENT_FLAG : Z := 4.

Definition SignExt16 (x : Z) : Z := s16 x.
Definition SignExt26 (x : Z) : Z := if flag x 0x2000000 then s32 (x .| 0xFC000000) else s32 x.

Definition bcctrx (inst : Z) (s : PowerPCState) : PowerPCState :=
  let condition := ((BO inst .>> 4) .| b2z (GetCRBit (BI inst) s =? (BO inst .>> 3) .& 1)) .& 1 in
  let s :=
    if negb (condition =? 0) then
      let s := set_npc (CTR s .& u32 (.~ 3)) s in
      if LK inst then put_spr SPR_LR (pc s + 4) s else s
    else s in
  set_end_block true s.

Definition bclrx (inst : Z) (s : PowerPCState) : PowerPCState :=
  let s := if (BO inst .& BO_DONT_DECREMENT_FLAG) =? 0 then put_spr SPR_CTR (CTR s - 1) s else s in
  let counter := ((BO inst .>> 2) .| (b2z (negb (CTR s =? 0)) .^ (BO inst .>> 1))) .& 1 in
  let condition := ((BO inst .>> 4) .| b2z (GetCRBit (BI inst) s =? (BO inst .>> 3) .& 1)) .& 1 in
  let s :=
    if negb (counter .& condition =? 0) then
      let s := set_npc (LR s .& u32 (.~ 3)) s in
      if LK inst then put_spr SPR_LR (pc s + 4) s else s
    else s in
  set_end_block true s.

Definition rfi (inst : Z) (s : PowerPCState) : PowerPCState :=
  if Z.testbit (msr s) MSR_PR then GenerateProgramException s
  else
    let mask := 0x87C0FFFF in
    let s := set_msr ((msr s .& u32 (.~ mask)) .| (SRR1 s .& mask)) s in
    let s := set_msr (msr s .& 0xFFFBFFFF) s in
    set_end_block true (set_npc (SRR0 s) s).

Definition sc (inst : Z) (s : PowerPCState) : PowerPCState :=
  let s := set_Exceptions (Exceptions s .| EXCEPTION_SYSCALL) s in
  set_end_block true (CheckExceptions s).

Section Branch.
(** The debugger's access to memory, [PowerPC::HostRead_U32], and the
    configuration's [bWii]. *)
Context {W : Type}.
Variable HostRead_U32 : State W -> Z -> Z.
Variable bWii : bool.

Definition bx (inst : Z) (s : State W) : State W :=
  let p := ppc s in
  let p := if LK inst then put_spr SPR_LR (pc p + 4) p else p in
  let p := if AA inst then set_npc (u32 (SignExt26 (LI inst .<< 2))) p
           else set_npc (u32 (pc p + SignExt26 (LI inst .<< 2))) p in
  let s := set_ppc (set_end_block true p) s in
  if npc (ppc s) =? pc (ppc s) then Idle s else s.

(** The part of [bcx] before the search for an idle loop. *)
Definition bcx_branch (inst : Z) (p : PowerPCState) : PowerPCState :=
  let p := if (BO inst .& BO_DONT_DECREMENT_FLAG) =? 0 then put_spr SPR_CTR (CTR p - 1) p else p in
  let true_false := negb ((BO inst .>> 3) .& 1 =? 0) in
  let only_counter_check := negb ((BO inst .>> 4) .& 1 =? 0) in
  let only_condition_check := negb ((BO inst .>> 2) .& 1 =? 0) in
  let ctr_check := (b2z (negb (CTR p =? 0)) .^ (BO inst .>> 1)) .& 1 in
  let counter := only_condition_check || negb (ctr_check =? 0) in
  let condition := only_counter_check || (GetCRBit (BI inst) p =? b2z true_false) in
  let p :=
    if counter && condition then
      let p := if LK inst then put_spr SPR_LR (pc p + 4) p else p in
      if AA inst then set_npc (u32 (SignExt16 (BD inst .<< 2))) p
      else set_npc (u32 (pc p + SignExt16 (BD inst .<< 2))) p
    else p in
  set_end_block true p.

Definition bcx (inst : Z) (s : State W) : State W :=
  let s := set_ppc (bcx_branch inst (ppc s)) s in
  let PC := pc (ppc s) in
  if (npc (ppc s) =? u32 (PC - 8)) && (inst =? 0x4182fff8) then
    if HostRead_U32 s (u32 (PC - 8)) .>> 16 =? 0x800D then
      let last_inst := HostRead_U32 s (u32 (PC - 4)) in
      if (last_inst =? 0x28000000) || ((last_inst =? 0x2C000000) && bWii) then Idle s else s
    else s
  else s.

(** ** The condition of a branch *)

(** The operand BO of the architecture's manual, whose bit 0 is the leftmost:
    bits 0 and 1 concern the condition, bits 2 and 3 the counter. *)
Definition taken (BO cr_bit ctr : Z) : bool :=
  (Z.testbit BO 2 || xorb (negb (ctr =? 0)) (Z.testbit BO 1)) &&
  (Z.testbit BO 4 || (cr_bit =? b2z (Z.testbit BO 3))).

(** The counter after the branch has decremented it. *)
Definition counted (BO ctr : Z) : Z := if Z.testbit BO 2 then ctr else u32 (ctr - 1).

Lemma GetCRBit_bool b s : 0 <= b -> exists x, GetCRBit b s = b2z x.
Proof. intros. rewrite GetCRBit_testbit by done. eauto. Qed.

Lemma GetCRBit_ext b s s' : cr_val s = cr_val s' -> GetCRBit b s = GetCRBit b s'.
Proof. intros E. unfold GetCRBit, GetCRField. rewrite E. done. Qed.

(** The bits of BO, as the sources test them. *)
Lemma bo_bit x i : 0 <= i -> (x .>> i) .& 1 = b2z (Z.testbit x i).
Proof.
  intros Hi. rewrite land_1_testbit, testbit_shiftr'. cbn [Z.leb Z.compare andb]. done.
Qed.

Lemma b2z_nonzero b : negb (b2z b =? 0) = b.
Proof. by destruct b. Qed.

Lemma b2z_eqb a b : (b2z a =? b2z b) = Bool.eqb a b.
Proof. by destruct a, b. Qed.

Lemma bo_decrement bo : (bo .& BO_DONT_DECREMENT_FLAG =? 0) = negb (Z.testbit bo 2).
Proof.
  unfold BO_DONT_DECREMENT_FLAG. rewrite <- (flag_testbit bo 2) by lia. unfold flag. rewrite negb_involutive. done.
Qed.

(** [(a | b) & 1] for truth values beside a shifted BO. *)
Lemma bo_or bo i b : 0 <= i -> ((bo .>> i) .| b2z b) .& 1 = b2z (Z.testbit bo i || b).
Proof.
  intros. rewrite land_1_testbit, Z.lor_spec, testbit_b2z, testbit_shiftr'. cbn. rewrite andb_true_r. done.
Qed.

Lemma bo_xor bo i b : 0 <= i -> (b2z b .^ (bo .>> i)) .& 1 = b2z (xorb b (Z.testbit bo i)).
Proof.
  intros. rewrite land_1_testbit, Z.lxor_spec, testbit_b2z, testbit_shiftr'. cbn. rewrite andb_true_r. done.
Qed.

Lemma bo_or_xor bo i j b :
  0 <= i -> 0 <= j -> ((bo .>> i) .| (b2z b .^ (bo .>> j))) .& 1 = b2z (Z.testbit bo i || xorb b (Z.testbit bo j)).
Proof.
  intros. rewrite land_1_testbit, Z.lor_spec, Z.lxor_spec, testbit_b2z, !testbit_shiftr'. cbn. rewrite andb_true_r. done.
Qed.

(** What a branch to [target] does when [cond] holds. *)
Record branched (cond : bool) (target ctr : Z) (link : bool) (p p' : PowerPCState) : Prop := {
  br_npc : npc p' = if cond then target else npc p;
  br_lr : LR p' = if cond && link then u32 (pc p + 4) else LR p;
  br_ctr : CTR p' = ctr;
  br_pc : pc p' = pc p;
  br_regs : gpr p' = gpr p /\ cr_val p' = cr_val p /\ msr p' = msr p /\ Exceptions p' = Exceptions p /\ sr p' = sr p /\
            xer_ca p' = xer_ca p /\ xer_so_ov p' = xer_so_ov p;
  br_end : m_end_block p' = true
}.

Lemma rSPR_put i j v p : rSPR (put_spr i v p) j = if decide (j = i) then u32 v else rSPR p j.
Proof.
  unfold rSPR, put_spr. cbn [spr set_spr]. destruct (decide (j = i)) as [-> |]; [apply mget_mset_same | apply mget_mset_other; done].
Qed.

Lemma branched_downcount cond target ctr link p p' d :
  branched cond target ctr link p p' -> branched cond target ctr link p (set_downcount d p').
Proof. intros []. constructor; done. Qed.

Lemma branched_intro cond target ctr inst p (decrement : bool) :
  ctr = (if decrement then u32 (CTR p - 1) else CTR p) ->
  branched cond target ctr (LK inst) p
    (set_end_block true
       (let p := if decrement then put_spr SPR_CTR (CTR p - 1) p else p in
        if cond then set_npc target (if LK inst then put_spr SPR_LR (pc p + 4) p else p) else p)).
Proof.
  intros ->. destruct decrement, cond, (LK inst); constructor; try done; cbn [andb];
    cbn; unfold rSPR, put_spr; cbn; unfold SPR_LR, SPR_CTR;
    repeat first [rewrite mget_mset_same | rewrite mget_mset_other by done]; done.
Qed.

Lemma SignExt16_shift v : 0 <= v < 2 ^ 14 -> SignExt16 (v .<< 2) = 4 * wraps 14 v.
Proof.
  intros Hv. unfold SignExt16. rewrite Z.shiftl_mul_pow2 by lia. rewrite !wraps_unsigned by (unfold inu; lia).
  change (2 ^ (16 - 1)) with (4 * 2 ^ (14 - 1)). destruct (Z.ltb_spec (v * 2 ^ 2) (4 * 2 ^ (14 - 1))), (Z.ltb_spec v (2 ^ (14 - 1))); lia.
Qed.

Lemma SignExt26_shift v : 0 <= v < 2 ^ 24 -> SignExt26 (v .<< 2) = 4 * wraps 24 v.
Proof.
  intros Hv. unfold SignExt26. rewrite (wraps_unsigned 24) by (unfold inu; lia).
  change 0x2000000 with (2 ^ 25). rewrite flag_testbit, testbit_shiftl' by lia. cbn [Z.leb Z.compare andb].
  change (25 - 2) with 23. change (2 ^ (24 - 1)) with (2 ^ 23). destruct (Z.ltb_spec v (2 ^ 23)) as [L | L].
  - rewrite (testbit_small v 23) by (unfold inu; lia). rewrite Z.shiftl_mul_pow2 by lia.
    rewrite wraps_id by (lia || (unfold ins; lia)). lia.
  - assert (Z.testbit v 23 = true) as -> by (apply Z.testbit_true; [lia |]; Z.to_euclidean_division_equations; lia).
    rewrite Z.lor_comm. change 0xFC000000 with (0x3F .<< 26). rewrite (Z.shiftl_mul_pow2 v) by lia.
    rewrite lor_shift_add by lia. rewrite wraps_unsigned by (lia || (unfold inu; lia)).
    change (2 ^ (32 - 1)) with (2 ^ 31). destruct (Z.ltb_spec (63 * 2 ^ 26 + v * 2 ^ 2) (2 ^ 31)); lia.
Qed.

Lemma bcx_branch_spec inst p :
  branched (taken (BO inst) (GetCRBit (BI inst) p) (counted (BO inst) (CTR p)))
    (u32 ((if AA inst then 0 else pc p) + 4 * wraps 14 (BD inst))) (counted (BO inst) (CTR p)) (LK inst) p (bcx_branch inst p).
Proof.
  unfold bcx_branch. rewrite bo_decrement, SignExt16_shift by apply (register_range 2 14 inst ltac:(lia)).
  rewrite !bo_bit, !b2z_nonzero by lia. rewrite bo_xor, b2z_nonzero by lia. cbv zeta.
  set (p0 := if negb (Z.testbit (BO inst) 2) then put_spr SPR_CTR (CTR p - 1) p else p).
  assert (Ec : CTR p0 = counted (BO inst) (CTR p)).
  { subst p0. unfold counted. destruct (Z.testbit (BO inst) 2); cbn [negb]; [done |]. rewrite rSPR_put, decide_True by done. done. }
  assert (Eb : GetCRBit (BI inst) p0 = GetCRBit (BI inst) p) by (apply GetCRBit_ext; subst p0; destruct (negb _); done).
  assert (Ep : pc p0 = pc p) by (subst p0; destruct (negb _); done).
  rewrite Ec, Eb, Ep. fold (taken (BO inst) (GetCRBit (BI inst) p) (counted (BO inst) (CTR p))).
  pose proof (branched_intro (taken (BO inst) (GetCRBit (BI inst) p) (counted (BO inst) (CTR p)))
    (u32 ((if AA inst then 0 else pc p) + 4 * wraps 14 (BD inst))) (counted (BO inst) (CTR p)) inst p (negb (Z.testbit (BO inst) 2))) as H.
  cbv zeta in H. fold p0 in H. rewrite Ep in H.
  destruct (taken _ _ _), (AA inst), (LK inst);
    try change (pc (put_spr SPR_LR (pc p + 4) p0)) with (pc p0); rewrite ?Ep; apply H; unfold counted; destruct (Z.testbit (BO inst) 2); reflexivity.
Qed.
Lemma bclrx_spec inst p :
  branched (taken (BO inst) (GetCRBit (BI inst) p) (counted (BO inst) (CTR p)))
    (LR p .& u32 (.~ 3)) (counted (BO inst) (CTR p)) (LK inst) p (bclrx inst p).
Proof.
  unfold bclrx. rewrite bo_decrement. cbv zeta.
  set (p0 := if negb (Z.testbit (BO inst) 2) then put_spr SPR_CTR (CTR p - 1) p else p).
  assert (Ec : CTR p0 = counted (BO inst) (CTR p)).
  { subst p0. unfold counted. destruct (Z.testbit (BO inst) 2); cbn [negb]; [done |]. rewrite rSPR_put, decide_True by done. done. }
  assert (El : LR p0 = LR p) by (subst p0; destruct (negb _); [| done]; rewrite rSPR_put, decide_False by done; done).
  assert (Eb : GetCRBit (BI inst) p0 = GetCRBit (BI inst) p) by (apply GetCRBit_ext; subst p0; destruct (negb _); done).
  assert (Ep : pc p0 = pc p) by (subst p0; destruct (negb _); done).
  rewrite Ec, Eb, El, (bo_bit _ 3), bo_or, bo_or_xor by lia.
  set (c := counted (BO inst) (CTR p)) in *. set (b := GetCRBit (BI inst) p) in *.
  assert (Et : negb (b2z (Z.testbit (BO inst) 2 || xorb (negb (c =? 0)) (Z.testbit (BO inst) 1)) .&
                     b2z (Z.testbit (BO inst) 4 || (b =? b2z (Z.testbit (BO inst) 3))) =? 0) = taken (BO inst) b c)
    by (unfold taken; destruct (_ || _), (_ || _); reflexivity).
  rewrite Et. clear Et.
  pose proof (branched_intro (taken (BO inst) b c) (LR p .& u32 (.~ 3)) c inst p (negb (Z.testbit (BO inst) 2))) as H.
  cbv zeta in H. fold p0 in H.
  destruct (taken _ _ _), (LK inst); apply H; subst c; unfold counted; destruct (Z.testbit (BO inst) 2); reflexivity.
Qed.

Lemma bcctrx_spec inst p :
  Z.testbit (BO inst) 2 = true ->
  branched (taken (BO inst) (GetCRBit (BI inst) p) (CTR p)) (CTR p .& u32 (.~ 3)) (CTR p) (LK inst) p (bcctrx inst p).
Proof.
  intros Hbo. unfold bcctrx. cbv zeta. rewrite (bo_bit _ 3), bo_or, b2z_nonzero by lia.
  unfold taken. rewrite Hbo. cbn [orb andb]. set (c := _ || _).
  pose proof (branched_intro c (CTR p .& u32 (.~ 3)) (CTR p) inst p false eq_refl) as H. cbv zeta in H.
  destruct c, (LK inst); exact H.
Qed.

(** The link register is written before the branch looks at its own address. *)
Lemma bx_spec inst s :
  let target := u32 ((if AA inst then 0 else pc (ppc s)) + 4 * wraps 24 (LI inst)) in
  branched true target (CTR (ppc s)) (LK inst) (ppc s) (ppc (bx inst s)) /\
  downcount (ppc (bx inst s)) = (if target =? pc (ppc s) then 0 else downcount (ppc s)).
Proof.
  cbv zeta. unfold bx. cbv zeta. rewrite SignExt26_shift by apply (register_range 2 24 inst ltac:(lia)).
  pose proof (branched_intro true (u32 ((if AA inst then 0 else pc (ppc s)) + 4 * wraps 24 (LI inst))) (CTR (ppc s)) inst (ppc s) false eq_refl) as H.
  cbv zeta in H.
  set (p1 := set_end_block true _) in H.
  match goal with |- branched _ _ _ _ _ (ppc (if npc (ppc (set_ppc ?q s)) =? _ then _ else _)) /\ _ => assert (E : q = p1) end.
  { subst p1. destruct (LK inst), (AA inst); reflexivity. }
  rewrite E. clearbody p1. cbn [ppc set_ppc set_machine fst].
  rewrite (br_npc _ _ _ _ _ _ H), (br_pc _ _ _ _ _ _ H). assert (Ed : downcount p1 = downcount (ppc s)).
  { rewrite <- E. destruct (LK inst), (AA inst); reflexivity. }
  destruct (_ =? pc (ppc s)); (split; [| done]); [apply branched_downcount |]; exact H.
Qed.

Lemma bcx_spec inst s :
  let p := ppc s in
  let ctr := counted (BO inst) (CTR p) in
  branched (taken (BO inst) (GetCRBit (BI inst) p) ctr)
    (u32 ((if AA inst then 0 else pc p) + 4 * wraps 14 (BD inst))) ctr (LK inst) p (ppc (bcx inst s)) /\
  (inst <> 0x4182fff8 -> ppc (bcx inst s) = bcx_branch inst p).
Proof.
  cbv zeta. pose proof (bcx_branch_spec inst (ppc s)) as H. unfold bcx. cbv zeta. split.
  - destruct (_ && _); [| exact H]. destruct (_ =? 0x800D); [| exact H]. destruct (_ || _); [| exact H].
    apply (branched_downcount _ _ _ _ _ _ 0 H).
  - intros N%Z.eqb_neq. rewrite N, andb_false_r. done.
Qed.

(** C36: the branches do what the architecture says: [bcx] and [bclrx]
    decrement CTR unless BO tells them not to; each conditional branch is taken
    exactly when BO's conditions on CTR and on a bit of the condition register
    hold; the target is the register without its two low bits, or the sign
    extended displacement times four, relative or absolute; LR gets the address
    after the branch when the link bit is set and the branch is taken. A branch
    to itself gives up the rest of the slice; [bcx] does so only for the one
    encoding of an idle loop. *)
Theorem branches inst s :
  let p := ppc s in
  let ctr := counted (BO inst) (CTR p) in
  let base := if AA inst then 0 else pc p in
  let cond c := taken (BO inst) (GetCRBit (BI inst) p) c in
  branched (cond ctr) (u32 (base + 4 * wraps 14 (BD inst))) ctr (LK inst) p (ppc (bcx inst s)) /\
  branched (cond ctr) (LR p .& u32 (.~ 3)) ctr (LK inst) p (bclrx inst p) /\
  (Z.testbit (BO inst) 2 = true -> branched (cond (CTR p)) (CTR p .& u32 (.~ 3)) (CTR p) (LK inst) p (bcctrx inst p)) /\
  branched true (u32 (base + 4 * wraps 24 (LI inst))) (CTR p) (LK inst) p (ppc (bx inst s)) /\
  downcount (ppc (bx inst s)) = (if u32 (base + 4 * wraps 24 (LI inst)) =? pc p then 0 else downcount p) /\
  (inst <> 0x4182fff8 -> downcount (ppc (bcx inst s)) = downcount p).
Proof.
  cbv zeta. destruct (bcx_spec inst s) as [Hbcx Hn]. destruct (bx_spec inst s) as [Hbx Hd].
  split; [exact Hbcx |]. split; [apply bclrx_spec |]. split; [apply bcctrx_spec |]. split; [exact Hbx |]. split; [exact Hd |].
  intros N. rewrite (Hn N). unfold bcx_branch. cbv zeta.
  repeat match goal with |- context [if ?b then _ else _] => destruct b end; reflexivity.
Qed.

(** ** A comparison and a branch *)

(** The comparisons with what they compare. *)
Definition comparisons : list ((Z -> PowerPCState -> PowerPCState) * (Z -> PowerPCState -> Z) * (Z -> PowerPCState -> Z)) :=
  [(cmp, fun i p => s32 (rGPR p (RA i)), fun i p => s32 (rGPR p (RB i)));
   (cmpl, fun i p => rGPR p (RA i), fun i p => rGPR p (RB i));
   (cmpi, fun i p => s32 (rGPR p (RA i)), fun i _ => s16 i);
   (cmpli, fun i p => rGPR p (RA i), fun i _ => u16 i)].

(** The four bits of a field: less, greater, equal, summary overflow. *)
Definition relation (k a b : Z) (so : bool) : bool :=
  match k with 0 => a <? b | 1 => b <? a | 2 => a =? b | _ => so end.

Lemma compare_bit a b inst p k :
  wf p -> 0 <= k < 4 ->
  GetCRBit (4 * CRFD inst + k) (compare a b inst p) = b2z (relation k a b (negb (GetXER_SO p =? 0))).
Proof.
  intros Hp Hk. assert (Hd : 0 <= CRFD inst < 8) by apply (register_range 23 3 inst ltac:(lia)).
  rewrite GetCRBit_testbit by lia. replace ((4 * CRFD inst + k) / 4) with (CRFD inst) by (Z.to_euclidean_division_equations; lia).
  replace ((4 * CRFD inst + k) mod 4) with k by (Z.to_euclidean_division_equations; lia).
  unfold compare. set (so := negb (GetXER_SO p =? 0)). cbv zeta. rewrite GetCRField_same; [| done | done |].
  - f_equal. assert (k = 0 \/ k = 1 \/ k = 2 \/ k = 3) as [-> | [-> | [-> | ->]]] by lia; cbn [relation];
      destruct (Z.ltb_spec a b), (Z.ltb_spec b a), (Z.eqb_spec a b), so; try lia; reflexivity.
  - destruct (a <? b), (b <? a), so; vm_compute; split; congruence.
Qed.

(** A comparison followed by a conditional branch: with BO = 12 the branch
    on bit [k] of the field the comparison wrote is taken exactly when the
    compared values, signed or unsigned as the comparison says, are in the
    relation of bit [k]; with BO = 4 exactly when they are not. *)
Theorem compare_then_branch op a b i1 i2 s k :
  In (op, a, b) comparisons -> wf (ppc s) -> 0 <= k < 4 -> BI i2 = 4 * CRFD i1 + k -> BO i2 = 12 \/ BO i2 = 4 ->
  let p := ppc s in
  let holds := relation k (a i1 p) (b i1 p) (negb (GetXER_SO p =? 0)) in
  npc (ppc (bcx i2 (set_ppc (op i1 p) s))) =
    if Bool.eqb holds (BO i2 =? 12) then u32 ((if AA i2 then 0 else pc p) + 4 * wraps 14 (BD i2)) else npc p.
Proof.
  intros Hin Hp Hk Hbi Hbo. cbv zeta.
  assert (H : op i1 (ppc s) = compare (a i1 (ppc s)) (b i1 (ppc s)) i1 (ppc s)).
  { unfold comparisons in Hin. repeat destruct Hin as [[= <- <- <-] | Hin]; [.. | done]; reflexivity. }
  destruct (bcx_spec i2 (set_ppc (op i1 (ppc s)) s)) as [B _]. cbn [ppc set_ppc set_machine fst] in B.
  rewrite (br_npc _ _ _ _ _ _ B), H, Hbi, compare_bit by done. unfold taken.
  set (holds := relation _ _ _ _). set (c := counted _ _). clearbody holds c.
  destruct Hbo as [-> | ->]; destruct holds; reflexivity.
Qed.
End Branch.

(** ** Exceptions *)

(** A row of [PowerPC::CheckExceptions]: the bit of [Exceptions], whether the
    next or the present address is saved, the bits added to SRR1, the address
    of the handler, and whether MSR[EE] masks it. *)
Record Vector := mk_vector { v_bit : Z; v_saves_npc : bool; v_srr1 : Z; v_address : Z; v_maskable : bool }.

(** In order of priority. *)
Definition vectors : list Vector :=
  [mk_vector 4 true 0x40000000 0x400 false; (* instruction storage *)
   mk_vector 7 false 0x20000 0x700 false; (* program *)
   mk_vector 1 true 0 0xC00 false; (* system call *)
   mk_vector 6 false 0 0x800 false; (* floating point unavailable *)
   mk_vector 3 false 0 0x300 false; (* data storage *)
   mk_vector 5 false 0 0x600 false; (* alignment *)
   mk_vector 2 true 0 0x500 true; (* external interrupt *)
   mk_vector 8 true 0 0xF00 true; (* performance monitor *)
   mk_vector 0 true 0 0x900 true]. (* decrementer *)

Definition enabled (s : PowerPCState) (v : Vector) : bool :=
  Z.testbit (Exceptions s) (v_bit v) && (negb (v_maskable v) || Z.testbit (msr s) MSR_EE).

(** The exception that is delivered. *)
Definition pending_vector (s : PowerPCState) : option Vector := find (enabled s) vectors.

(** A hit of the debugger's memory check cancels the data storage exception,
    unless one of the first four is pending. *)
Definition watchpoint (s : PowerPCState) : bool :=
  Z.testbit (Exceptions s) 9 && negb (existsb (enabled s) (take 4 vectors)).

Definition return_address (v : Vector) (s : PowerPCState) : Z := if v_saves_npc v then npc s else pc s.

Lemma CheckExceptions_cases s :
  CheckExceptions s =
    if watchpoint s then set_Exceptions (Exceptions s .& .~ EXCEPTION_DSI .& .~ EXCEPTION_FAKE_MEMCHECK_HIT) s
    else match pending_vector s with
         | Some v => take_exception (2 ^ v_bit v) (return_address v s) (v_srr1 v) (v_address v) s
         | None => s
         end.
Proof.
  assert (F : forall k, 0 <= k -> flag (Exceptions s) (2 ^ k) = Z.testbit (Exceptions s) k) by (intros; apply flag_testbit; done).
  unfold CheckExceptions, CheckExternalExceptions, watchpoint, pending_vector, enabled. cbn [find existsb vectors take firstn].
  cbn [v_bit v_maskable negb orb]. rewrite !andb_true_r, ?orb_false_r.
  change EXCEPTION_ISI with (2 ^ 4). change EXCEPTION_PROGRAM with (2 ^ 7). change EXCEPTION_SYSCALL with (2 ^ 1).
  change EXCEPTION_FPU_UNAVAILABLE with (2 ^ 6). change EXCEPTION_FAKE_MEMCHECK_HIT with (2 ^ 9).
  change EXCEPTION_DSI with (2 ^ 3). change EXCEPTION_ALIGNMENT with (2 ^ 5). change EXCEPTION_EXTERNAL_INT with (2 ^ 2).
  change EXCEPTION_PERFORMANCE_MONITOR with (2 ^ 8). change EXCEPTION_DECREMENTER with (2 ^ 0).
  rewrite !F by lia. destruct (Z.eqb_spec (Exceptions s) 0) as [E | _]; [rewrite E, !Z.testbit_0_l; reflexivity |].
  cbn [negb andb]. destruct (Z.testbit (Exceptions s) 4); [rewrite andb_false_r; reflexivity |].
  destruct (Z.testbit (Exceptions s) 7); [rewrite andb_false_r; reflexivity |].
  destruct (Z.testbit (Exceptions s) 1); [rewrite andb_false_r; reflexivity |].
  destruct (Z.testbit (Exceptions s) 6); [rewrite andb_false_r; reflexivity |].
  destruct (Z.testbit (Exceptions s) 9); [reflexivity |]. cbn [andb orb negb].
  destruct (Z.testbit (Exceptions s) 3); [reflexivity |]. destruct (Z.testbit (Exceptions s) 5); [reflexivity |].
  destruct (Z.testbit (msr s) MSR_EE).
  - rewrite !andb_true_r. destruct (Z.testbit (Exceptions s) 2), (Z.testbit (Exceptions s) 8), (Z.testbit (Exceptions s) 0); reflexivity.
  - rewrite !andb_false_r. reflexivity.
Qed.

Lemma testbit_copy_ile m i : 0 <= i -> Z.testbit (copy_ile m) i = Z.testbit m (if i =? 0 then 16 else i).
Proof.
  intros Hi. unfold copy_ile. rewrite Z.lor_spec, Z.land_spec, Z.lnot_spec, testbit_b2z by done.
  change (Z.testbit 1) with (Z.testbit (2 ^ 0)). rewrite Z.pow2_bits_eqb, Z.eqb_sym by lia.
  destruct (Z.eqb_spec i 0) as [-> |]; cbn [negb]; rewrite ?andb_true_r, ?andb_false_r, ?orb_false_r; done.
Qed.

(** The bits an exception clears in MSR. *)
Definition CLEARED_MSR : Z := 0x04EF36.
Definition SAVED_MSR : Z := 0x87C0FFFF.

(** [s'] is about to run the handler [v] of an exception that [s] met. *)
Record delivered (v : Vector) (s s' : PowerPCState) : Prop := {
  de_pc : pc s' = v_address v;
  de_npc : npc s' = v_address v;
  de_srr0 : SRR0 s' = return_address v s;
  de_srr1 : SRR1 s' = (msr s .& SAVED_MSR) .| v_srr1 v;
  de_msr : forall i, 0 <= i -> Z.testbit (msr s') i = negb (Z.testbit CLEARED_MSR i) && Z.testbit (msr s) (if i =? 0 then 16 else i);
  de_exceptions : forall i, 0 <= i -> Z.testbit (Exceptions s') i = negb (i =? v_bit v) && Z.testbit (Exceptions s) i;
  de_regs : gpr s' = gpr s /\ cr_val s' = cr_val s /\ LR s' = LR s /\ CTR s' = CTR s
}.

Lemma vectors_ok :
  forallb (fun v => (0 <=? v_bit v) && (v_srr1 v .& SAVED_MSR =? 0) && (0 <=? v_srr1 v) && (v_srr1 v <? 2 ^ 32)) vectors = true.
Proof. reflexivity. Qed.

Lemma vector_ok v : In v vectors -> 0 <= v_bit v /\ v_srr1 v .& SAVED_MSR = 0 /\ inu 32 (v_srr1 v).
Proof.
  intros H. pose proof vectors_ok as F. rewrite forallb_forall in F. specialize (F v H).
  rewrite !andb_true_iff, !Z.leb_le, Z.ltb_lt, Z.eqb_eq in F. unfold inu. tauto.
Qed.

Lemma inu_land w a b : 0 <= w -> inu w a -> inu w (a .& b).
Proof.
  intros Hw Ha. apply inu_testbit; [done |]. intros i Hi. rewrite Z.land_spec, (testbit_inu_high w a) by done. done.
Qed.

Lemma take_exception_spec v s :
  wf s -> In v vectors ->
  delivered v s (take_exception (2 ^ v_bit v) (return_address v s) (v_srr1 v) (v_address v) s).
Proof.
  intros Hs Hv. destruct (vector_ok v Hv) as (Hb & Hm & Hr). unfold take_exception. cbv zeta.
  constructor; try done.
  - transitivity (u32 (return_address v s)).
    + unfold rSPR, put_spr. cbn. unfold SPR_SRR0, SPR_SRR1. rewrite mget_mset_other, mget_mset_same by done. done.
    + apply wrapu_id. unfold return_address. destruct (v_saves_npc v); [apply (wf_npc s Hs) | apply (wf_pc s Hs)].
  - transitivity (u32 ((msr s .& SAVED_MSR) .| v_srr1 v)).
    + unfold rSPR, put_spr. cbn. unfold SPR_SRR1. rewrite mget_mset_same. done.
    + apply wrapu_id, inu_lor; [lia | apply inu_land; [lia | apply (wf_msr s Hs)] | done].
  - intros i Hi. cbn. rewrite Z.land_spec, Z.lnot_spec, testbit_copy_ile, andb_comm by done. done.
  - intros i Hi. cbn. rewrite Z.land_spec, Z.lnot_spec, Z.pow2_bits_eqb, (Z.eqb_sym (v_bit v)), andb_comm by done. done.
  - cbn. unfold rSPR, put_spr. cbn. unfold SPR_LR, SPR_CTR, SPR_SRR0, SPR_SRR1.
    rewrite !mget_mset_other by done. done.
Qed.

(** C8: [CheckExceptions] delivers the first enabled exception in the order of
    [vectors]: it saves the return address and MSR, clears MSR's bits, jumps to
    the handler, and acknowledges this exception and no other; without an
    enabled exception nothing changes. A hit of the debugger's watchpoint, when
    none of the first four is enabled, only takes back the data storage
    exception and itself. *)
Theorem exception_delivery s :
  wf s ->
  let s' := CheckExceptions s in
  if watchpoint s then s' = set_Exceptions (Exceptions s .& .~ EXCEPTION_DSI .& .~ EXCEPTION_FAKE_MEMCHECK_HIT) s
  else match pending_vector s with Some v => delivered v s s' | None => s' = s end.
Proof.
  intros Hs. cbv zeta. rewrite CheckExceptions_cases. destruct (watchpoint s); [done |].
  destruct (pending_vector s) as [v |] eqn:E; [| done]. apply take_exception_spec; [done |]. apply (find_some _ _ E).
Qed.

(** C9: [rfi] undoes an exception: when the handler has kept SRR0 and SRR1, is
    still in supervisor mode, and has not touched the bits of MSR that SRR1 does
    not hold, the interrupted program goes on at the return address with its
    MSR, except for the power management bit. *)
Theorem interrupt_and_return inst v s t :
  wf s -> watchpoint s = false -> pending_vector s = Some v ->
  wf t -> SRR0 t = SRR0 (CheckExceptions s) -> SRR1 t = SRR1 (CheckExceptions s) -> Z.testbit (msr t) MSR_PR = false ->
  (forall i, 0 <= i -> Z.testbit SAVED_MSR i = false -> Z.testbit (msr t) i = Z.testbit (msr (CheckExceptions s)) i) ->
  npc (rfi inst t) = return_address v s /\ msr (rfi inst t) = msr s .& .~ (1 .<< MSR_POW) /\
  gpr (rfi inst t) = gpr t /\ cr_val (rfi inst t) = cr_val t /\ Exceptions (rfi inst t) = Exceptions t.
Proof.
  intros Hs Hw Hv Ht H0 H1 Hpr Hkeep. rewrite CheckExceptions_cases, Hw, Hv in H0, H1, Hkeep.
  pose proof (find_some _ _ Hv) as [Hin _]. destruct (vector_ok v Hin) as (_ & Hm & _).
  pose proof (take_exception_spec v s Hs Hin) as D. set (s' := take_exception _ _ _ _ s) in *.
  unfold rfi. rewrite Hpr. cbv zeta. cbn [npc set_npc set_end_block msr set_msr gpr cr_val Exceptions].
  split; [etransitivity; [exact H0 | apply (de_srr0 _ _ _ D)] |]. split; [| done].
  apply Z.bits_inj'. intros i Hi. fold SAVED_MSR.
  rewrite !Z.land_spec, Z.lor_spec, !Z.land_spec, testbit_wrapu, !Z.lnot_spec by lia.
  destruct (Z.ltb_spec i 32) as [L | L].
  - pose proof (upto_by_cases (fun i => (Z.testbit SAVED_MSR i || (Bool.eqb (Z.testbit CLEARED_MSR i) (Z.testbit (1 .<< MSR_POW) i) && negb (i =? 0)))
       && Bool.eqb (Z.testbit 0xFFFBFFFF i) (negb (Z.testbit (1 .<< MSR_POW) i))) 32 ltac:(vm_compute; reflexivity) i ltac:(lia)) as T.
    cbv beta in T. apply andb_prop in T as [T1 T2]. apply Bool.eqb_prop in T2. rewrite T2.
    destruct (Z.testbit (1 .<< MSR_POW) i); cbn [negb] in *; rewrite ?andb_false_r, ?andb_true_r; [done |].
    destruct (Z.testbit SAVED_MSR i) eqn:Em; cbn [negb andb orb] in *.
    + rewrite andb_false_r, andb_true_r. cbn [orb]. rewrite H1, (de_srr1 _ _ _ D), Z.lor_spec, Z.land_spec, Em, andb_true_r.
      assert (Z.testbit (v_srr1 v) i = false) as ->; [| apply orb_false_r].
      rewrite <- (andb_true_r (Z.testbit _ i)), <- Em, <- Z.land_spec, Hm. apply Z.testbit_0_l.
    + apply andb_prop in T1 as [T1 N%negb_true_iff]. apply Bool.eqb_prop in T1.
      rewrite andb_true_r, andb_false_r, orb_false_r, Hkeep, (de_msr _ _ _ D) by done. rewrite N, T1. done.
  - rewrite (testbit_inu_high 32 (msr t)), (testbit_inu_high 32 (msr s)), (testbit_inu_high 32 SAVED_MSR);
      [| lia | vm_compute; split; congruence | done | lia | apply (wf_msr s Hs) | done | lia | apply (wf_msr t Ht) | done].
    rewrite !andb_false_r. done.
Qed.

(** ** Examples *)

Section Examples.
Abbreviation host := (fun (_ : State unit) (_ : Z) => 0).

(** r3 = 3, r4 = -1. *)
Definition compared : PowerPCState := put_gpr 4 (-1) (put_gpr 3 3 ppcState).
Definition at_100 : State unit := mk_state (set_pc 0x100 (set_npc 0x104 compared)) tt 0 0 [] 0 [] 0 false.

Lemma wf_compared : wf compared.
Proof. apply wf_put_gpr, wf_put_gpr, wf_ppcState. Qed.

(** [cmpw r3, r4; bgt +16] branches, [cmplw r3, r4; bgt +16] does not. *)
Lemma compare_then_branch_witness :
  let s := at_100 in
  npc (ppc (bcx host true 0x41810010 (set_ppc (cmp 0x7c032000 (ppc s)) s))) = 0x110 /\
  npc (ppc (bcx host true 0x41810010 (set_ppc (cmpl 0x7c032040 (ppc s)) s))) = 0x104.
Proof.
  assert (Hs : wf (ppc at_100)) by (pose proof wf_compared as []; constructor; try done; unfold inu; cbn; lia).
  cbv zeta. split.
  - exact (compare_then_branch host true cmp _ _ 0x7c032000 0x41810010 at_100 1 ltac:(cbn; tauto) Hs ltac:(lia) eq_refl (or_introl eq_refl)).
  - exact (compare_then_branch host true cmpl _ _ 0x7c032040 0x41810010 at_100 1 ltac:(cbn; tauto) Hs ltac:(lia) eq_refl (or_introl eq_refl)).
Defined.

(** [bdnzl -16] with CTR = 2. *)
Lemma branches_witness :
  let s := set_ppc (put_spr SPR_CTR 2 (ppc at_100)) at_100 in
  npc (ppc (bcx host true 0x4200fff1 s)) = 0xf0 /\ LR (ppc (bcx host true 0x4200fff1 s)) = 0x104 /\
  CTR (ppc (bcx host true 0x4200fff1 s)) = 1 /\ npc (bcctrx 0x4e800420 (ppc s)) = 0.
Proof.
  cbv zeta. destruct (branches host true 0x4200fff1 (set_ppc (put_spr SPR_CTR 2 (ppc at_100)) at_100)) as ([H1 H2 H3 _ _ _] & _).
  destruct (branches host true 0x4e800420 (set_ppc (put_spr SPR_CTR 2 (ppc at_100)) at_100)) as (_ & _ & H4 & _).
  split; [exact H1 | split; [exact H2 | split; [exact H3 | exact (br_npc _ _ _ _ _ _ (H4 eq_refl))]]].
Defined.

(** A decrementer interrupt and a system call are pending. *)
Definition interrupted : PowerPCState := set_msr 0x9032 (set_Exceptions 3 (set_pc 0x100 (set_npc 0x104 compared))).

Lemma wf_interrupted : wf interrupted.
Proof. pose proof wf_compared as []. constructor; try done; unfold inu; cbn; lia. Qed.

Lemma exception_delivery_witness :
  pc (CheckExceptions interrupted) = 0xC00 /\ delivered (mk_vector 1 true 0 0xC00 false) interrupted (CheckExceptions interrupted).
Proof. split; [reflexivity |]. exact (exception_delivery interrupted wf_interrupted). Defined.

Lemma interrupt_and_return_witness :
  npc (rfi 0 (CheckExceptions interrupted)) = 0x104 /\ msr (rfi 0 (CheckExceptions interrupted)) = 0x9032 /\
  Exceptions (rfi 0 (CheckExceptions interrupted)) = 1.
Proof.
  assert (W : wf (CheckExceptions interrupted)).
  { pose proof wf_interrupted as []. constructor; try done; try (unfold inu; cbn; lia).
    cbn. unfold put_spr. cbn. apply mem_ok_mset; [apply mem_ok_mset; [done | range] | range]. }
  destruct (interrupt_and_return 0 (mk_vector 1 true 0 0xC00 false) interrupted (CheckExceptions interrupted)
    wf_interrupted eq_refl eq_refl W eq_refl eq_refl eq_refl ltac:(done)) as (H1 & H2 & _ & _ & H3).
  split; [exact H1 | split; [exact H2 | exact H3]].
Defined.
End Examples.
