(* ===== verification/PpcKeeps.v ===== *)
(** What the instructions of the PowerPC interpreter keep.

    A relation between the registers before and after that admits the
    assignments every instruction may do is kept by every access to memory and
    by every handler. Two relations are of use: that the registers stay within
    their widths, which every handler keeps, and that the floating-point
    registers are the same, which the handlers keep that are not marked as
    instructions of the floating-point unit. *)

From S2P Require Import Prelude Memmap PpcCache PpcState PpcInteger PpcSystem PpcFpu PpcFloat PpcFpArith PpcBat PpcTlb PpcMmu PpcAccess PpcLoadStore.
From S2P Require Import PpcPaired StdHeap CoreTiming PpcSpr PpcTimers PpcBranch.
Open Scope Z_scope.

(** ** Widths *)

Create HintDb width.

Lemma inu_b2z w b : 0 < w -> inu w (b2z b).
Proof. intros Hw. assert (1 < 2 ^ w) by (apply Z.pow_gt_1; lia). unfold inu. destruct b; cbn; lia. Qed.

Lemma inu_le v w x : 0 <= v <= w -> inu v x -> inu w x.
Proof. intros Hv. pose proof (Z.pow_le_mono_r 2 v w eq_refl (proj2 Hv)). unfold inu. lia. Qed.

Lemma inu_shiftl w n x : 0 <= w -> 0 <= n -> inu w x -> inu (w + n) (x .<< n).
Proof. intros Hw Hn. rewrite Z.shiftl_mul_pow2 by lia. unfold inu. rewrite Z.pow_add_r by lia. nia. Qed.

Lemma inu_u32 x : inu 32 (u32 x).
Proof. apply wrapu_range. lia. Qed.

Lemma inu_land_32 a b : inu 32 a -> inu 32 (a .& b).
Proof. apply inu_land_l. lia. Qed.

Lemma inu_lor_32 a b : inu 32 a -> inu 32 b -> inu 32 (a .| b).
Proof. apply inu_lor. lia. Qed.

Lemma inu_put_flag mask b x : inu 32 mask -> inu 32 x -> inu 32 (put_flag mask b x).
Proof. intros Hm Hx. unfold put_flag. destruct b; [apply inu_lor | apply inu_land_l]; done || lia. Qed.

Lemma rGPR_width i s : wf s -> inu 32 (rGPR s i).
Proof. apply rGPR_range. Qed.

Lemma rSPR_width i s : wf s -> inu 32 (rSPR s i).
Proof. intros []. eapply mem_ok_mget; [| done]. lia. Qed.

#[export] Hint Resolve inu_land_32 inu_lor_32 inu_u32 inu_put_flag rGPR_width rSPR_width wf_pc wf_npc wf_msr wf_fpscr wf_exc : width.

(** ** Assignments *)

Section Assignments.
Implicit Types s : PowerPCState.

Lemma wf_set_exceptions x s : inu 32 x -> wf s -> wf (set_Exceptions x s).
Proof. intros ? []. constructor; done. Qed.
Lemma wf_or_exceptions k s : inu 32 k -> wf s -> wf (set_Exceptions (Exceptions s .| k) s).
Proof. intros Hk Hs. apply wf_set_exceptions; [apply inu_lor; [lia | apply wf_exc, Hs | done] | done]. Qed.
Lemma wf_set_pc x s : inu 32 x -> wf s -> wf (set_pc x s).
Proof. intros ? []. constructor; done. Qed.
Lemma wf_set_npc x s : inu 32 x -> wf s -> wf (set_npc x s).
Proof. intros ? []. constructor; done. Qed.
Lemma wf_set_fpscr x s : inu 32 x -> wf s -> wf (set_fpscr x s).
Proof. intros ? []. constructor; done. Qed.
Lemma wf_set_end_block b s : wf s -> wf (set_end_block b s).
Proof. intros []. constructor; done. Qed.
Lemma wf_set_downcount x s : wf s -> wf (set_downcount x s).
Proof. intros []. constructor; done. Qed.
Lemma wf_set_reserve b s : wf s -> wf (set_reserve b s).
Proof. intros []. constructor; done. Qed.
Lemma wf_set_reserve_address a s : inu 32 a -> wf s -> wf (set_reserve_address a s).
Proof. intros ? []. constructor; done. Qed.
Lemma wf_SetCarry b s : wf s -> wf (SetCarry (b2z b) s).
Proof. intros []. constructor; try done. destruct b; (split; [discriminate | reflexivity]). Qed.
Lemma wf_SetXER_SO v s : wf s -> wf (SetXER_SO v s).
Proof.
  intros []. constructor; try done. unfold SetXER_SO. cbn [xer_so_ov set_xer_so_ov].
  destruct (so_ov_cases _ wf_so_ov) as [-> | [-> | [-> | ->]]], v; vm_compute; done.
Qed.
Lemma wf_SetXER_OV v s : wf s -> wf (SetXER_OV v s).
Proof. intros Hs. apply (SetXER_OV_spec v s Hs). Qed.
Lemma wf_clear_xer s : wf s -> wf (set_xer_so_ov 0 (set_xer_ca 0 s)).
Proof. intros []. constructor; done. Qed.
Lemma wf_SetXER v s : wf s -> wf (SetXER v s).
Proof.
  intros []. constructor; try done; unfold SetXER; cbn [xer_ca xer_so_ov xer_stringctrl set_xer_ca set_xer_so_ov set_xer_stringctrl].
  - apply field_range. lia.
  - pose proof (field_range 31 1 v ltac:(lia)). pose proof (field_range 30 1 v ltac:(lia)). rewrite Z.shiftl_mul_pow2 by lia. unfold inu in *. lia.
  - apply wrapu_range. lia.
Qed.
Lemma wf_Helper_UpdateCR0 v s : wf s -> wf (Helper_UpdateCR0 v s).
Proof.
  intros []. constructor; try done. apply arr_ok_zset; [done |].
  apply inu_lor; [lia | apply inu_land_l; [lia |] |]; apply wrapu_range; lia.
Qed.
Lemma wf_compare a b inst s : wf s -> wf (compare a b inst s).
Proof.
  intros Hs. unfold compare. apply wf_SetCRField; [done |].
  destruct (negb _), (a <? b), (b <? a); vm_compute; split; congruence.
Qed.
Lemma wf_take_exception e srr0 x v s : inu 32 v -> wf s -> wf (take_exception e srr0 x v s).
Proof.
  intros Hv Hs. unfold take_exception. apply wf_set_exceptions; [apply inu_land_l; [lia | apply Hs] |].
  apply wf_set_pc, wf_set_npc; [done | done |]. apply wf_set_msr; [apply inu_land_l; [lia |] | do 2 apply wf_put_spr; done].
  unfold copy_ile. apply inu_lor; [lia | apply inu_land_l; [lia | apply Hs] | apply inu_b2z; lia].
Qed.
Lemma wf_CheckExternalExceptions s : wf s -> wf (CheckExternalExceptions s).
Proof. intros Hs. unfold CheckExternalExceptions. repeat case_match; try done; apply wf_take_exception; done || widths. Qed.
Lemma wf_CheckExceptions s : wf s -> wf (CheckExceptions s).
Proof.
  intros Hs. unfold CheckExceptions. pose proof (wf_CheckExternalExceptions s Hs).
  repeat case_match; try done; try (apply wf_take_exception; done || widths).
  apply wf_set_exceptions; [| done]. do 2 (apply inu_land_l; [lia |]). apply Hs.
Qed.
Lemma wf_GenerateProgramException s : wf s -> wf (GenerateProgramException s).
Proof. apply wf_or_exceptions. widths. Qed.
Lemma wf_GenerateAlignmentException a s : wf s -> wf (GenerateAlignmentException a s).
Proof. intros Hs. apply wf_put_spr, wf_or_exceptions; [widths | done]. Qed.
Lemma wf_GenerateDSIException a s : wf s -> wf (PpcState.GenerateDSIException a s).
Proof. intros Hs. apply wf_put_spr, wf_or_exceptions; [widths | done]. Qed.
Lemma wf_SetSR i v s : inu 32 v -> wf s -> wf (SetSR i v s).
Proof. intros Hv Hs. apply wf_set_sr; [apply arr_ok_zset; [apply Hs | done] | done]. Qed.
Lemma wf_trap s : wf s -> wf (trap s).
Proof. intros Hs. apply wf_set_end_block, wf_CheckExceptions, wf_or_exceptions; [widths | done]. Qed.
End Assignments.

Create HintDb wf_ppc.
#[export] Hint Resolve wf_put_gpr wf_put_spr wf_put_ps0 wf_put_ps1 wf_set_msr wf_set_exceptions wf_or_exceptions wf_set_pc wf_set_npc wf_set_fpscr
  wf_set_end_block wf_set_downcount wf_set_reserve wf_set_reserve_address wf_SetCarry wf_SetXER_OV wf_clear_xer wf_SetXER wf_Helper_UpdateCR0
  wf_compare wf_CheckExternalExceptions wf_CheckExceptions wf_GenerateProgramException wf_GenerateAlignmentException wf_GenerateDSIException
  wf_SetSR wf_trap wf_ExpandCR : wf_ppc.
(** Of constants. *)
#[export] Hint Extern 3 (inu _ ?c) => first [is_const c | lazymatch c with Z.pos _ => idtac | Z0 => idtac end]; solve [widths] : wf_ppc width.
#[export] Hint Extern 1 (wf (if ?b then _ else _)) => destruct b : wf_ppc.

(** ** The handlers of integers, branches and the system *)

Ltac wf_auto := intros; cbv zeta; auto 20 with wf_ppc width.

Section Registers.
Implicit Types s : PowerPCState.

Lemma wf_when_Rc inst v s : wf s -> wf (when_Rc inst v s).
Proof. unfold when_Rc. wf_auto. Qed.
Lemma wf_when_OE inst v s : wf s -> wf (when_OE inst v s).
Proof. unfold when_OE. wf_auto. Qed.
Lemma wf_shift_arithmetic a inst s : wf s -> wf (shift_arithmetic a inst s).
Proof. unfold shift_arithmetic. wf_auto. Qed.
Lemma wf_logic f inst s : wf s -> wf (logic f inst s).
Proof. intros. unfold logic. apply wf_when_Rc. wf_auto. Qed.
Lemma wf_cr_op f inst s : wf s -> wf (cr_op f inst s).
Proof. intros Hs. apply wf_SetCRBit; [done |]. apply (register_range 21 5). lia. Qed.
Lemma wf_supervisor f s : (wf s -> wf (f s)) -> wf s -> wf (supervisor f s).
Proof. intros Hf Hs. unfold supervisor. wf_auto. Qed.
Lemma wf_move_field f g s : wf s -> wf (SetCRField f (GetCRField g s) s).
Proof. intros Hs. apply wf_SetCRField; [done | apply GetCRField_range]. Qed.
Lemma wf_addic_rc inst s : wf s -> wf (addic_rc inst s).
Proof. intros Hs. unfold addic_rc, addic. wf_auto. Qed.
Lemma wf_srawx inst s : wf s -> wf (srawx inst s).
Proof.
  intros Hs. unfold srawx. cbv zeta. apply wf_when_Rc. repeat case_match; try (apply wf_shift_arithmetic, Hs);
    [apply (wf_SetCarry true) | apply (wf_SetCarry false)]; apply wf_put_gpr, Hs.
Qed.
Lemma wf_mcrxr inst s : wf s -> wf (mcrxr inst s).
Proof. intros Hs. apply wf_clear_xer, wf_SetCRField; [done |]. apply (GetXER_bits s Hs). Qed.
End Registers.

#[export] Hint Resolve wf_when_Rc wf_when_OE wf_shift_arithmetic wf_logic wf_cr_op wf_supervisor wf_move_field wf_addic_rc wf_srawx wf_mcrxr : wf_ppc.

(** ** The handlers of the floating-point unit *)

Section Fpu.
Context `{FpuHost}.
Implicit Types s : PowerPCState.

Lemma wf_SetFPException k s : inu 32 k -> wf s -> wf (SetFPException k s).
Proof.
  intros Hk Hs. unfold SetFPException. apply wf_set_fpscr; [| done]. apply inu_put_flag; [widths |].
  apply inu_lor; [lia | | done]. case_match; [apply inu_put_flag; [widths |] |]; apply Hs.
Qed.
Lemma wf_record_CR1 inst s : wf s -> wf (record_CR1 inst s).
Proof.
  intros Hs. unfold record_CR1, Helper_UpdateCR1. case_match; [| done]. apply wf_SetCRField; [done |].
  destruct (fp s FPSCR_FX), (fp s FPSCR_FEX), (fp s FPSCR_VX), (fp s FPSCR_OX); vm_compute; split; congruence.
Qed.
Lemma wf_UpdateFPSCR s : wf s -> wf (UpdateFPSCR s).
Proof. intros Hs. apply wf_set_fpscr; [| done]. do 2 (apply inu_put_flag; [widths |]). apply Hs. Qed.
Lemma wf_assign_FPSCR v s : wf s -> wf (assign_FPSCR v s).
Proof. intros Hs. apply wf_set_fpscr; [apply inu_land_l; [lia | apply inu_u32] | done]. Qed.
Lemma wf_or_FPSCR v s : wf s -> wf (or_FPSCR v s).
Proof. intros Hs. apply wf_set_fpscr; [| done]. apply inu_lor; [lia | apply Hs | apply inu_land_l; [lia | apply inu_u32]]. Qed.
Lemma wf_clear_fpscr m s : wf s -> wf (set_fpscr (fpscr s .& m) s).
Proof. wf_auto. Qed.
Lemma ClassifyDouble_width d : inu 5 (ClassifyDouble d).
Proof. unfold ClassifyDouble. cbv zeta. repeat case_match; widths. Qed.
Lemma wf_UpdateFPRF d s : wf s -> wf (UpdateFPRF d s).
Proof.
  intros Hs. apply wf_set_fpscr; [| done]. apply inu_lor; [lia | apply inu_land_l; [lia | apply Hs] |].
  apply (inu_le (5 + 12)); [lia |]. apply inu_shiftl; [lia | unfold FPRF_SHIFT; lia | apply ClassifyDouble_width].
Qed.
Lemma wf_put_FR b s : wf s -> wf (put_FR b s).
Proof. intros Hs. apply wf_set_fpscr; [apply inu_put_flag; [widths | apply Hs] | done]. Qed.
Lemma wf_put_FI b s : wf s -> wf (put_FI b s).
Proof. intros Hs. apply wf_set_fpscr; [apply inu_put_flag; [widths | apply Hs] | done]. Qed.
Lemma wf_SetFI b s : wf s -> wf (SetFI b s).
Proof. intros Hs. apply wf_put_FI. destruct b; [apply wf_SetFPException; [widths | done] | done]. Qed.
Lemma wf_ClearFIFR s : wf s -> wf (ClearFIFR s).
Proof. intros Hs. apply wf_put_FR, wf_put_FI, Hs. Qed.
Lemma wf_set_FPCC inst c s : wf s -> wf (set_FPCC inst c s).
Proof.
  intros Hs. apply wf_SetCRField; [| destruct c; cbn; lia]. apply wf_set_fpscr; [| done].
  apply inu_lor; [lia | apply inu_land_l; [lia | apply Hs] | destruct c; widths].
Qed.
Lemma wf_FloatCompareOrdered inst a b s : wf s -> wf (Helper_FloatCompareOrdered inst a b s).
Proof.
  intros Hs. unfold Helper_FloatCompareOrdered. cbv zeta. apply wf_set_FPCC. repeat case_match; try done;
    repeat (apply wf_SetFPException; [widths |]); done.
Qed.
Lemma wf_FloatCompareUnordered inst a b s : wf s -> wf (Helper_FloatCompareUnordered inst a b s).
Proof.
  intros Hs. unfold Helper_FloatCompareUnordered. cbv zeta. apply wf_set_FPCC. case_match; [apply wf_SetFPException; [widths | done] | done].
Qed.
Lemma wf_mcrfs inst s : wf s -> wf (mcrfs inst s).
Proof. intros Hs. apply wf_SetCRField; [apply wf_clear_fpscr, wf_UpdateFPSCR, Hs | apply nibble_range]. Qed.
Lemma wf_mtfsb1x inst s : wf s -> wf (mtfsb1x inst s).
Proof.
  intros Hs. unfold mtfsb1x. cbv zeta. apply wf_record_CR1. case_match; [apply wf_SetFPException; [| done] | apply wf_or_FPSCR, Hs].
  pose proof (register_range 21 5 inst ltac:(lia)) as Hr. unfold CRBD. rewrite Z.shiftr_div_pow2 by lia.
  pose proof (pow2_pos (field 21 5 inst) ltac:(lia)) as Hp. unfold inu. split; [apply Z.div_pos; lia |].
  apply Z.div_lt_upper_bound; [lia |]. nia.
Qed.
Lemma wf_put_ps i a b s : wf s -> wf (put_ps i a b s).
Proof. intros. apply wf_put_ps1, wf_put_ps0. done. Qed.
End Fpu.

#[export] Hint Resolve wf_SetFPException wf_record_CR1 wf_UpdateFPSCR wf_assign_FPSCR wf_or_FPSCR wf_clear_fpscr wf_UpdateFPRF wf_put_FR wf_put_FI wf_SetFI
  wf_ClearFIFR wf_set_FPCC wf_FloatCompareOrdered wf_FloatCompareUnordered wf_mcrfs wf_mtfsb1x wf_put_ps : wf_ppc.

Section Arithmetic.
Context `{FpuHost}.
Implicit Types s : PowerPCState.

(** An operation keeps the widths beside its result. *)
Definition op_ok {A} (op : PowerPCState -> A * PowerPCState) : Prop := forall s, wf s -> wf (op s).2.

Lemma wf_report_snan b : op_ok (report_snan b).
Proof. intros s Hs. unfold report_snan. destruct b; apply wf_ClearFIFR; wf_auto. Qed.
Lemma wf_invalid e : inu 32 e -> op_ok (invalid e).
Proof. intros He s Hs. apply wf_SetFPException; done. Qed.

Ltac wf_op :=
  repeat match goal with
  | |- context [report_snan ?b ?s] => let E := fresh in pose proof (wf_report_snan b s) as E; destruct (report_snan b s); cbn [snd] in E
  | |- context [if ?b then _ else _] => destruct b
  end; cbn [snd]; auto with wf_ppc; try (apply wf_invalid; [widths | auto]); wf_auto.

Lemma wf_NI_mul (a b : PowerPCState -> Z) : op_ok (fun s => NI_mul (a s) (b s) s).
Proof. intros s Hs. unfold NI_mul. cbv zeta. wf_op. Qed.
Lemma wf_NI_div (a b : PowerPCState -> Z) : op_ok (fun s => NI_div (a s) (b s) s).
Proof. intros s Hs. unfold NI_div. cbv zeta. wf_op. Qed.
Lemma wf_NI_sum r a b s : wf s -> wf (NI_sum r a b s).2.
Proof. intros Hs. unfold NI_sum. cbv zeta. wf_op. Qed.
Lemma wf_NI_add (a b : PowerPCState -> Z) : op_ok (fun s => NI_add (a s) (b s) s).
Proof. intros s. apply wf_NI_sum. Qed.
Lemma wf_NI_sub (a b : PowerPCState -> Z) : op_ok (fun s => NI_sub (a s) (b s) s).
Proof. intros s. apply wf_NI_sum. Qed.
Lemma wf_NI_fused op a c b s : wf s -> wf (NI_fused op a c b s).2.
Proof. intros Hs. unfold NI_fused. cbv zeta. wf_op. Qed.
Lemma wf_NI_madd (a c b : PowerPCState -> Z) : op_ok (fun s => NI_madd (a s) (c s) (b s) s).
Proof. intros s. apply wf_NI_fused. Qed.
Lemma wf_NI_msub (a c b : PowerPCState -> Z) : op_ok (fun s => NI_msub (a s) (c s) (b s) s).
Proof. intros s. apply wf_NI_fused. Qed.

Lemma wf_arith single neg flags op allowed inst s :
  op_ok op -> (forall v r s, wf s -> wf (flags v r s)) -> wf s -> wf (arith single neg flags op allowed inst s).
Proof.
  intros Hop Hf Hs. unfold arith. specialize (Hop s Hs). destruct (op s) as [r s1]. cbn [snd] in Hop. cbv zeta.
  apply wf_record_CR1. destruct (allowed r s1); [| done]. apply wf_UpdateFPRF, Hf. destruct single; auto with wf_ppc.
Qed.
Lemma wf_same_flags v r s : wf s -> wf (same_flags v r s).
Proof. done. Qed.
Lemma wf_exact_flags v r s : wf s -> wf (exact_flags v r s).
Proof. unfold exact_flags. wf_auto. Qed.
Lemma wf_madds_flags v r s : wf s -> wf (madds_flags v r s).
Proof. unfold madds_flags. wf_auto. Qed.

Lemma wf_single_of op : op_ok op -> op_ok (single_of op).
Proof. intros Hop s Hs. unfold single_of. specialize (Hop s Hs). destruct (op s). done. Qed.
Lemma wf_in_turn op0 op1 inst s : op_ok op0 -> op_ok op1 -> wf s -> wf (in_turn op0 op1 inst s).
Proof.
  intros H0 H1 Hs. unfold in_turn. pose proof (wf_single_of op0 H0 s Hs) as W. destruct (single_of op0 s) as [p0 s0]. cbn [snd] in W. cbv zeta.
  pose proof (wf_single_of op1 H1 _ (wf_put_ps0 (FD inst) p0 s0 W)) as W1. destruct (single_of op1 _) as [p1 s1]. cbn [snd] in W1. wf_auto.
Qed.
Lemma wf_at_once f op0 op1 inst s : op_ok op0 -> op_ok op1 -> wf s -> wf (at_once f op0 op1 inst s).
Proof.
  intros H0 H1 Hs. unfold at_once. pose proof (wf_single_of op0 H0 s Hs) as W. destruct (single_of op0 s) as [p0 s0]. cbn [snd] in W.
  pose proof (wf_single_of op1 H1 _ W) as W1. destruct (single_of op1 _) as [p1 s1]. cbn [snd] in W1. wf_auto.
Qed.
Lemma wf_ps_sum0 inst s : wf s -> wf (ps_sum0 inst s).
Proof.
  intros Hs. unfold ps_sum0. pose proof (wf_single_of _ (wf_NI_add (A inst) (B1 inst)) s Hs) as W. destruct (single_of _ s). cbn [snd] in W. wf_auto.
Qed.
Lemma wf_ps_sum1 inst s : wf s -> wf (ps_sum1 inst s).
Proof.
  intros Hs. unfold ps_sum1. cbv zeta. pose proof (wf_single_of _ (wf_NI_add (A inst) (B1 inst)) s Hs) as W. destruct (single_of _ s). cbn [snd] in W. wf_auto.
Qed.
Lemma wf_fres_result inst v s : wf s -> wf (fres_result inst v s).
Proof. unfold fres_result. wf_auto. Qed.
Lemma wf_frsqrte_result inst v s : wf s -> wf (frsqrte_result inst v s).
Proof. unfold frsqrte_result. wf_auto. Qed.
Lemma wf_estimate_exception e en f s : inu 32 e -> (forall s, wf s -> wf (f s)) -> wf s -> wf (estimate_exception e en f s).
Proof. intros He Hf Hs. unfold estimate_exception. wf_auto. Qed.
Lemma wf_except_if b e s : inu 32 e -> wf s -> wf (except_if b e s).
Proof. intros He Hs. unfold except_if. wf_auto. Qed.
Lemma wf_ConvertToInteger inst r s : wf s -> wf (ConvertToInteger inst r s).
Proof.
  intros Hs. unfold ConvertToInteger. cbv zeta.
  match goal with |- context [match ?x with (_, _) => _ end] => assert (W : wf x.2) end.
  { repeat match goal with |- context [if ?b then _ else _] => destruct b end; cbn [snd]; wf_auto. }
  match goal with |- context [match ?x with (_, _) => _ end] => destruct x as [[v b] s1] end. cbn [snd] in W. wf_auto.
Qed.
End Arithmetic.

#[export] Hint Resolve wf_NI_mul wf_NI_div wf_NI_add wf_NI_sub wf_NI_madd wf_NI_msub wf_arith wf_same_flags wf_exact_flags wf_madds_flags wf_in_turn
  wf_at_once wf_ps_sum0 wf_ps_sum1 wf_fres_result wf_frsqrte_result wf_estimate_exception wf_except_if wf_ConvertToInteger : wf_ppc.

(** ** Relations *)

(** What instructions outside the floating-point unit assign besides the
    program counter and the machine state. *)
Class Admits (R : PowerPCState -> PowerPCState -> Prop) : Prop := {
  admits_faults :: AdmitsFaults R;
  admits_gpr i v s : R s (put_gpr i v s);
  admits_cr0 k s : k = 0 \/ k = 2 -> R s (SetCRField 0 (k .| GetXER_SO s) s);
  admits_xer v s : R s (SetXER v s);
  admits_reserve b s : R s (set_reserve b s);
  admits_downcount x s : R s (set_downcount x s)
}.

Definition keeps_wf (s s' : PowerPCState) : Prop := wf s -> wf s'.

(** The registers of the floating-point unit. *)
Definition fp_registers (s : PowerPCState) : list Z * list Z * Z := (ps0 s, ps1 s, fpscr s).
Definition keeps_fp (s s' : PowerPCState) : Prop := fp_registers s' = fp_registers s.

#[export] Instance keeps_wf_admits : Admits keeps_wf.
Proof.
  constructor; try (unfold keeps_wf; wf_auto; fail).
  - constructor; try (unfold keeps_wf; wf_auto; fail). constructor; unfold keeps_wf; [intros s Hs; done | intros s1 s2 s3; auto].
  - intros k s Hk Hs. apply wf_SetCRField; [done |]. pose proof (wf_so_ov s Hs) as So. unfold GetXER_SO.
    destruct (so_ov_cases _ So) as [-> | [-> | [-> | ->]]], Hk as [-> | ->]; vm_compute; split; congruence.
Qed.

#[export] Instance keeps_fp_admits : Admits keeps_fp.
Proof.
  constructor; try done. constructor; try done. constructor; unfold keeps_fp; [done | intros ? ? ?; congruence].
Qed.

(** ** Steps of a handler *)

Lemma keeps_registers {D : Type} R f : (forall s, R s (f s)) -> keeps (D := D) R (registers f).
Proof. intros Hf. apply keeps_modify. intros m. apply Hf. Qed.

Ltac keep_step ::=
  first
  [ lazymatch goal with |- keeps _ (registers _) => apply keeps_registers; intros ? end | keep_access_step | apply admits_gpr | apply admits_reserve | apply admits_xer | apply admits_downcount ].

(** ** The loops of the loads and stores, and the special purpose registers *)

Class TimersAdmit {D : Type} `{TimerHost D} (R : PowerPCState -> PowerPCState -> Prop) : Prop := {
  admits_DecrementerSet (m : Mmu D) : R (cpu m) (cpu (DecrementerSet m));
  admits_TimeBaseSet (m : Mmu D) : R (cpu m) (cpu (TimeBaseSet m))
}.

Section Loops.
Context {D : Type} `{MmuHost D} `{LoadStoreHost D} (R : PowerPCState -> PowerPCState -> Prop) `{!Admits R} `{!DevicesAdmit R}.
Abbreviation keeps := (keeps R).

Lemma keeps_unless_DSI f : (forall s, R s (f s)) -> keeps (unless_DSI (D := D) f).
Proof. intros Hf. unfold unless_DSI. keep. Qed.

Lemma keeps_with_EA ea inst k : (forall a, keeps (k a)) -> keeps (with_EA (D := D) ea inst k).
Proof. intros Hk. unfold with_EA. keep. Qed.

Lemma keeps_GenerateAlignmentException a s : R s (GenerateAlignmentException a s).
Proof. unfold GenerateAlignmentException. etransitivity; [| apply admits_spr]. apply admits_exceptions. widths. Qed.

Lemma keeps_GenerateProgramException s : R s (GenerateProgramException s).
Proof. apply admits_exceptions. widths. Qed.

Lemma keeps_aligned a (x : M D unit) : keeps x -> keeps (aligned a x).
Proof. intros Hx. unfold aligned. keep. apply keeps_GenerateAlignmentException. Qed.

Lemma keeps_big_endian a (x : M D unit) : keeps x -> keeps (big_endian a x).
Proof. intros Hx. unfold big_endian. keep. apply keeps_GenerateAlignmentException. Qed.

Lemma keeps_load (rd : M D Z) put : keeps rd -> (forall v s, R s (put v s)) -> keeps (load rd put).
Proof. intros Hr Hp. pose proof keeps_unless_DSI. unfold load. keep. Qed.

Lemma keeps_store var (w : Z -> M D unit) : (forall v, keeps (w v)) -> keeps (store (D := D) var w).
Proof. intros Hw. unfold store. keep. Qed.

Lemma keeps_assert_failed : keeps assert_failed.
Proof. intros m v m'. unfold assert_failed. destruct (PanicYesNo _) as [[] d]; [intros [= _ <-]; reflexivity | done]. Qed.

Lemma keeps_invalidate_jit a : keeps (invalidate_jit a).
Proof. unfold invalidate_jit. keep. Qed.

Lemma keeps_lmw_loop n i a : keeps (lmw_loop n i a).
Proof. pose proof (fun a => keeps_reads R a) as K. revert i a. induction n as [| n IH]; intros; cbn [lmw_loop]; keep. Qed.

Lemma keeps_stmw_loop n i a : keeps (stmw_loop n i a).
Proof.
  pose proof (keeps_writes R) as K. pose proof keeps_store as S. revert i a.
  induction n as [| n IH]; intros; cbn [stmw_loop]; keep.
Qed.

Lemma keeps_lswi_loop n r i a : keeps (lswi_loop n r i a).
Proof. pose proof (fun a => keeps_reads R a) as K. revert r i a. induction n as [| n IH]; intros; cbn [lswi_loop]; keep. Qed.

Lemma keeps_lswx_loop fuel inst n a : keeps (lswx_loop fuel inst n a).
Proof. pose proof (fun a => keeps_reads R a) as K. revert n a. induction fuel as [| fuel IH]; intros; cbn [lswx_loop]; keep. Qed.

Lemma keeps_stswi_loop n r i a : keeps (stswi_loop n r i a).
Proof.
  pose proof (keeps_writes R) as K. pose proof keeps_store as S. revert r i a.
  induction n as [| n IH]; intros; cbn [stswi_loop]; keep.
Qed.

Lemma keeps_stswx_loop n r i a : keeps (stswx_loop n r i a).
Proof.
  pose proof (keeps_writes R) as K. pose proof keeps_store as S. revert r i a.
  induction n as [| n IH]; intros; cbn [stswx_loop]; keep.
Qed.
End Loops.

Section Spr.
Context {D : Type} `{MmuHost D} `{LoadStoreHost D} `{TimerHost D} `{SprHost D} (R : PowerPCState -> PowerPCState -> Prop)
  `{!Admits R} `{!DevicesAdmit R} `{!TimersAdmit R}.
Abbreviation keeps := (keeps R).

Lemma keeps_mfspr inst : keeps (mfspr inst).
Proof.
  unfold mfspr, refresh_spr. keep; try apply keeps_GenerateProgramException; try exact _.
  unfold WriteFullTimeBaseValue. etransitivity; apply admits_spr.
Qed.

Lemma keeps_write_dmal : keeps write_dmal.
Proof. pose proof (keeps_DMA_LCToMemory R). pose proof (keeps_DMA_MemoryToLC R). unfold write_dmal. keep. Qed.

Lemma keeps_spr_written index old_value value : keeps (spr_written index old_value value).
Proof.
  pose proof keeps_write_dmal. pose proof (keeps_assert_failed R) as A.
  unfold spr_written, write_hid0, write_wpar, write_dec, update_dbats, update_ibats. keep.
  all: try (apply admits_exceptions; widths). all: try (apply admits_TimeBaseSet || apply admits_DecrementerSet).
  rewrite SDRUpdated_cpu. reflexivity.
Qed.

Lemma keeps_mtspr inst : keeps (mtspr inst).
Proof.
  pose proof keeps_spr_written. unfold mtspr. keep. apply keeps_GenerateProgramException. exact _.
Qed.
End Spr.

(** The timers act on the scheduler. *)
Section Clock.
Context {E : Type} {heap : HeapAlgorithms Event event_leb} (R : PowerPCState -> PowerPCState -> Prop) `{!Admits R}.
Variable et_Dec : EventType.

Lemma admits_own f (m : Mmu (Clock E)) : own f -> R (cpu m) (cpu (on_sched f m)).
Proof. intros Hf. destruct (on_sched_keeps f m Hf) as (_ & _ & _ & _ & d & ->). apply admits_downcount. Qed.

Lemma timers_admit : TimersAdmit (D := Clock E) (H := system_timers et_Dec) R.
Proof.
  constructor; intros m; [| reflexivity]. cbn. unfold SystemTimers_DecrementerSet. cbv zeta. case_match.
  - etransitivity; [| apply admits_own, ScheduleEvent_own]. apply (admits_own (RemoveEvent et_Dec)), RemoveEvent_own.
  - apply admits_own, RemoveEvent_own.
Qed.
End Clock.

(** The steps through a handler. *)
Ltac keep_handler_step :=
  lazymatch goal with
  | |- keeps ?R ?x =>
    lazymatch x with
    | with_EA _ _ _ => apply (keeps_with_EA R); intros ?
    | aligned _ _ => apply (keeps_aligned R)
    | big_endian _ _ => apply (keeps_big_endian R)
    | load _ _ => apply (keeps_load R); [| intros ? ?]
    | store _ _ => apply (keeps_store R); intros ?
    | unless_DSI _ => apply (keeps_unless_DSI R); intros ?
    | Read_U8 _ => apply (keeps_reads R)
    | Read_U16 _ => apply (keeps_reads R)
    | Read_U32 _ => apply (keeps_reads R)
    | Read_U64 _ => apply (keeps_reads R)
    | HostRead_U32 _ => apply (keeps_reads R)
    | Write_U8 _ _ => apply (keeps_writes R)
    | Write_U16 _ _ => apply (keeps_writes R)
    | Write_U32 _ _ => apply (keeps_writes R)
    | Write_U64 _ _ => apply (keeps_writes R)
    | ClearCacheLine _ => apply (keeps_ClearCacheLine R)
    | invalidate_jit _ => apply (keeps_invalidate_jit R)
    | assert_failed => apply (keeps_assert_failed R)
    | lmw_loop _ _ _ => apply (keeps_lmw_loop R)
    | stmw_loop _ _ _ => apply (keeps_stmw_loop R)
    | lswi_loop _ _ _ _ => apply (keeps_lswi_loop R)
    | lswx_loop _ _ _ _ => apply (keeps_lswx_loop R)
    | stswi_loop _ _ _ _ => apply (keeps_stswi_loop R)
    | stswx_loop _ _ _ _ => apply (keeps_stswx_loop R)
    | _ => keep_step
    end
  | |- keeps_wf _ _ => unfold keeps_wf, put_update, put_s16, put_single, put_floats; solve [wf_auto]
  | |- _ =>
    first [ apply keeps_GenerateAlignmentException; exact _ | apply keeps_GenerateProgramException; exact _ | solve [apply (admits_cr0 0); auto] | solve [apply (admits_cr0 2); auto] | solve [apply admits_exceptions; widths] | keep_step
      | progress unfold put_update, put_s16, after | etransitivity; [| first [apply admits_gpr | apply admits_spr | apply admits_reserve]]
      | lazymatch goal with |- _ _ (SetCRField 0 (2 .| _) ?s) => etransitivity; [| exact (admits_cr0 2 s (or_intror eq_refl))] end ]
  end.
Ltac keep_handler := repeat keep_handler_step.
