(* ===== verification/PpcTables.v ===== *)
(** The opcode tables of the PowerPC interpreter
    ([Core/PowerPC/Interpreter/Interpreter_Tables.cpp], [Core/PowerPC/PPCTables.cpp]
    and [PPCTables.h]).

    The tables are filled from templates when the interpreter starts. A handler
    is a constructor of [Op.t]; [PpcRun] gives each its function. The
    theorems say that the handler and the information found for an instruction
    are those of the one template that matches it. *)

From stdpp Require Import strings.
From S2P Require Import Prelude PpcState.
Open Scope Z_scope.

(** ** Handlers *)

(** The handlers and the dispatchers of the subtables. *)
Module Op.
Inductive t :=
  | RunTable4 | RunTable19 | RunTable31 | RunTable59 | RunTable63 | bcx | bx | twi | sc | mulli | subfic
  | cmpli | cmpi | addic | addic_rc | addi | addis | rlwimix | rlwinmx | rlwnmx | ori | oris | xori | xoris
  | andi_rc | andis_rc | lwz | lwzu | lbz | lbzu | lhz | lhzu | lha | lhau | sth | sthu | stw | stwu | stb
  | stbu | lmw | stmw | lfs | lfsu | lfd | lfdu | stfs | stfsu | stfd | stfdu | psq_l | psq_lu | psq_st
  | psq_stu | ps_cmpu0 | ps_cmpo0 | ps_neg | ps_nabs | ps_abs | ps_cmpu1 | ps_mr | ps_cmpo1 | ps_merge00
  | ps_merge01 | ps_merge10 | ps_merge11 | dcbz_l | ps_sum0 | ps_sum1 | ps_muls0 | ps_muls1 | ps_madds0
  | ps_madds1 | ps_div | ps_sub | ps_add | ps_sel | ps_res | ps_mul | ps_rsqrte | ps_msub | ps_madd
  | ps_nmsub | ps_nmadd | psq_lx | psq_stx | psq_lux | psq_stux | bcctrx | bclrx | crand | crandc | creqv
  | crnand | crnor | cror | crorc | crxor | isync | mcrf | rfi | addx | addcx | addex | addmex | addzex
  | divwx | divwux | mulhwx | mulhwux | mullwx | negx | subfx | subfcx | subfex | subfmex | subfzex | andx
  | andcx | orx | norx | xorx | orcx | nandx | eqvx | cmp | cmpl | cntlzwx | extshx | extsbx | srwx | srawx
  | srawix | slwx | dcbst | dcbf | dcbtst | dcbt | dcbi | dcba | dcbz | lwzx | lwzux | lhzx | lhzux | lhax
  | lhaux | lbzx | lbzux | lwbrx | lhbrx | stwcxd | lwarx | lswx | lswi | stwx | stwux | sthx | sthux | stbx
  | stbux | stwbrx | sthbrx | stswx | stswi | lfsx | lfsux | lfdx | lfdux | stfsx | stfsux | stfdx | stfdux
  | stfiwx | mfcr | mfmsr | mtcrf | mtmsr | mtsr | mtsrin | mfspr | mtspr | mftb | mcrxr | mfsr | mfsrin | tw
  | sync | icbi | eciwx | ecowx | eieio | tlbie | tlbsync | fdivsx | fsubsx | faddsx | fresx | fmulsx
  | fmsubsx | fmaddsx | fnmsubsx | fnmaddsx | fabsx | fcmpo | fcmpu | fctiwx | fctiwzx | fmrx | fnabsx
  | fnegx | frspx | mcrfs | mffsx | mtfsb0x | mtfsb1x | mtfsfix | mtfsfx | fdivx | fsubx | faddx | fselx
  | fmulx | frsqrtex | fmsubx | fmaddx | fnmsubx | fnmaddx | unknown_instruction.

Definition all : list t := [
  RunTable4; RunTable19; RunTable31; RunTable59; RunTable63; bcx; bx; twi; sc; mulli; subfic; cmpli; cmpi;
  addic; addic_rc; addi; addis; rlwimix; rlwinmx; rlwnmx; ori; oris; xori; xoris; andi_rc; andis_rc; lwz;
  lwzu; lbz; lbzu; lhz; lhzu; lha; lhau; sth; sthu; stw; stwu; stb; stbu; lmw; stmw; lfs; lfsu; lfd; lfdu;
  stfs; stfsu; stfd; stfdu; psq_l; psq_lu; psq_st; psq_stu; ps_cmpu0; ps_cmpo0; ps_neg; ps_nabs; ps_abs;
  ps_cmpu1; ps_mr; ps_cmpo1; ps_merge00; ps_merge01; ps_merge10; ps_merge11; dcbz_l; ps_sum0; ps_sum1;
  ps_muls0; ps_muls1; ps_madds0; ps_madds1; ps_div; ps_sub; ps_add; ps_sel; ps_res; ps_mul; ps_rsqrte;
  ps_msub; ps_madd; ps_nmsub; ps_nmadd; psq_lx; psq_stx; psq_lux; psq_stux; bcctrx; bclrx; crand; crandc;
  creqv; crnand; crnor; cror; crorc; crxor; isync; mcrf; rfi; addx; addcx; addex; addmex; addzex; divwx;
  divwux; mulhwx; mulhwux; mullwx; negx; subfx; subfcx; subfex; subfmex; subfzex; andx; andcx; orx; norx;
  xorx; orcx; nandx; eqvx; cmp; cmpl; cntlzwx; extshx; extsbx; srwx; srawx; srawix; slwx; dcbst; dcbf;
  dcbtst; dcbt; dcbi; dcba; dcbz; lwzx; lwzux; lhzx; lhzux; lhax; lhaux; lbzx; lbzux; lwbrx; lhbrx; stwcxd;
  lwarx; lswx; lswi; stwx; stwux; sthx; sthux; stbx; stbux; stwbrx; sthbrx; stswx; stswi; lfsx; lfsux; lfdx;
  lfdux; stfsx; stfsux; stfdx; stfdux; stfiwx; mfcr; mfmsr; mtcrf; mtmsr; mtsr; mtsrin; mfspr; mtspr; mftb;
  mcrxr; mfsr; mfsrin; tw; sync; icbi; eciwx; ecowx; eieio; tlbie; tlbsync; fdivsx; fsubsx; faddsx; fresx;
  fmulsx; fmsubsx; fmaddsx; fnmsubsx; fnmaddsx; fabsx; fcmpo; fcmpu; fctiwx; fctiwzx; fmrx; fnabsx; fnegx;
  frspx; mcrfs; mffsx; mtfsb0x; mtfsb1x; mtfsfix; mtfsfx; fdivx; fsubx; faddx; fselx; fmulx; frsqrtex;
  fmsubx; fmaddx; fnmsubx; fnmaddx; unknown_instruction].

Definition index (x : t) : nat :=
  match x with
  | RunTable4 => 0 | RunTable19 => 1 | RunTable31 => 2 | RunTable59 => 3 | RunTable63 => 4 | bcx => 5
  | bx => 6 | twi => 7 | sc => 8 | mulli => 9 | subfic => 10 | cmpli => 11 | cmpi => 12 | addic => 13
  | addic_rc => 14 | addi => 15 | addis => 16 | rlwimix => 17 | rlwinmx => 18 | rlwnmx => 19 | ori => 20
  | oris => 21 | xori => 22 | xoris => 23 | andi_rc => 24 | andis_rc => 25 | lwz => 26 | lwzu => 27
  | lbz => 28 | lbzu => 29 | lhz => 30 | lhzu => 31 | lha => 32 | lhau => 33 | sth => 34 | sthu => 35
  | stw => 36 | stwu => 37 | stb => 38 | stbu => 39 | lmw => 40 | stmw => 41 | lfs => 42 | lfsu => 43
  | lfd => 44 | lfdu => 45 | stfs => 46 | stfsu => 47 | stfd => 48 | stfdu => 49 | psq_l => 50
  | psq_lu => 51 | psq_st => 52 | psq_stu => 53 | ps_cmpu0 => 54 | ps_cmpo0 => 55 | ps_neg => 56
  | ps_nabs => 57 | ps_abs => 58 | ps_cmpu1 => 59 | ps_mr => 60 | ps_cmpo1 => 61 | ps_merge00 => 62
  | ps_merge01 => 63 | ps_merge10 => 64 | ps_merge11 => 65 | dcbz_l => 66 | ps_sum0 => 67 | ps_sum1 => 68
  | ps_muls0 => 69 | ps_muls1 => 70 | ps_madds0 => 71 | ps_madds1 => 72 | ps_div => 73 | ps_sub => 74
  | ps_add => 75 | ps_sel => 76 | ps_res => 77 | ps_mul => 78 | ps_rsqrte => 79 | ps_msub => 80
  | ps_madd => 81 | ps_nmsub => 82 | ps_nmadd => 83 | psq_lx => 84 | psq_stx => 85 | psq_lux => 86
  | psq_stux => 87 | bcctrx => 88 | bclrx => 89 | crand => 90 | crandc => 91 | creqv => 92 | crnand => 93
  | crnor => 94 | cror => 95 | crorc => 96 | crxor => 97 | isync => 98 | mcrf => 99 | rfi => 100
  | addx => 101 | addcx => 102 | addex => 103 | addmex => 104 | addzex => 105 | divwx => 106 | divwux => 107
  | mulhwx => 108 | mulhwux => 109 | mullwx => 110 | negx => 111 | subfx => 112 | subfcx => 113
  | subfex => 114 | subfmex => 115 | subfzex => 116 | andx => 117 | andcx => 118 | orx => 119 | norx => 120
  | xorx => 121 | orcx => 122 | nandx => 123 | eqvx => 124 | cmp => 125 | cmpl => 126 | cntlzwx => 127
  | extshx => 128 | extsbx => 129 | srwx => 130 | srawx => 131 | srawix => 132 | slwx => 133 | dcbst => 134
  | dcbf => 135 | dcbtst => 136 | dcbt => 137 | dcbi => 138 | dcba => 139 | dcbz => 140 | lwzx => 141
  | lwzux => 142 | lhzx => 143 | lhzux => 144 | lhax => 145 | lhaux => 146 | lbzx => 147 | lbzux => 148
  | lwbrx => 149 | lhbrx => 150 | stwcxd => 151 | lwarx => 152 | lswx => 153 | lswi => 154 | stwx => 155
  | stwux => 156 | sthx => 157 | sthux => 158 | stbx => 159 | stbux => 160 | stwbrx => 161 | sthbrx => 162
  | stswx => 163 | stswi => 164 | lfsx => 165 | lfsux => 166 | lfdx => 167 | lfdux => 168 | stfsx => 169
  | stfsux => 170 | stfdx => 171 | stfdux => 172 | stfiwx => 173 | mfcr => 174 | mfmsr => 175 | mtcrf => 176
  | mtmsr => 177 | mtsr => 178 | mtsrin => 179 | mfspr => 180 | mtspr => 181 | mftb => 182 | mcrxr => 183
  | mfsr => 184 | mfsrin => 185 | tw => 186 | sync => 187 | icbi => 188 | eciwx => 189 | ecowx => 190
  | eieio => 191 | tlbie => 192 | tlbsync => 193 | fdivsx => 194 | fsubsx => 195 | faddsx => 196
  | fresx => 197 | fmulsx => 198 | fmsubsx => 199 | fmaddsx => 200 | fnmsubsx => 201 | fnmaddsx => 202
  | fabsx => 203 | fcmpo => 204 | fcmpu => 205 | fctiwx => 206 | fctiwzx => 207 | fmrx => 208 | fnabsx => 209
  | fnegx => 210 | frspx => 211 | mcrfs => 212 | mffsx => 213 | mtfsb0x => 214 | mtfsb1x => 215
  | mtfsfix => 216 | mtfsfx => 217 | fdivx => 218 | fsubx => 219 | faddx => 220 | fselx => 221 | fmulx => 222
  | frsqrtex => 223 | fmsubx => 224 | fmaddx => 225 | fnmsubx => 226 | fnmaddx => 227
  | unknown_instruction => 228
  end%nat.

Lemma all_index x : all !! index x = Some x.
Proof. destruct x; reflexivity. Qed.

#[global] Instance t_eq_dec : EqDecision t.
Proof.
  intros x y. destruct (decide (index x = index y)) as [E | N]; [left | right; congruence].
  apply (inj Some). rewrite <- !all_index, E. done.
Defined.
End Op.

(** ** Information *)

(** Flags. *)
Definition FL_SET_CR0 : Z := 1 .<< 0.
Definition FL_SET_CR1 : Z := 1 .<< 1.
Definition FL_SET_CRn : Z := 1 .<< 2.
Definition FL_SET_CRx : Z := FL_SET_CR0 .| FL_SET_CR1 .| FL_SET_CRn.
Definition FL_SET_CA : Z := 1 .<< 3.
Definition FL_READ_CA : Z := 1 .<< 4.
Definition FL_RC_BIT : Z := 1 .<< 5.
Definition FL_RC_BIT_F : Z := 1 .<< 6.
Definition FL_ENDBLOCK : Z := 1 .<< 7.
Definition FL_IN_A : Z := 1 .<< 8.
Definition FL_IN_A0 : Z := 1 .<< 9.
Definition FL_IN_B : Z := 1 .<< 10.
Definition FL_IN_C : Z := 1 .<< 11.
Definition FL_IN_S : Z := 1 .<< 12.
Definition FL_IN_AB : Z := FL_IN_A .| FL_IN_B.
Definition FL_IN_AC : Z := FL_IN_A .| FL_IN_C.
Definition FL_IN_ABC : Z := FL_IN_A .| FL_IN_B .| FL_IN_C.
Definition FL_IN_SB : Z := FL_IN_S .| FL_IN_B.
Definition FL_IN_A0B : Z := FL_IN_A0 .| FL_IN_B.
Definition FL_IN_A0BC : Z := FL_IN_A0 .| FL_IN_B .| FL_IN_C.
Definition FL_OUT_D : Z := 1 .<< 13.
Definition FL_OUT_A : Z := 1 .<< 14.
Definition FL_OUT_AD : Z := FL_OUT_A .| FL_OUT_D.
Definition FL_TIMER : Z := 1 .<< 15.
Definition FL_CHECKEXCEPTIONS : Z := 1 .<< 16.
Definition FL_EVIL : Z := 1 .<< 17.
Definition FL_USE_FPU : Z := 1 .<< 18.
Definition FL_LOADSTORE : Z := 1 .<< 19.
Definition FL_SET_FPRF : Z := 1 .<< 20.
Definition FL_READ_FPRF : Z := 1 .<< 21.
Definition FL_SET_OE : Z := 1 .<< 22.
Definition FL_IN_FLOAT_A : Z := 1 .<< 23.
Definition FL_IN_FLOAT_B : Z := 1 .<< 24.
Definition FL_IN_FLOAT_C : Z := 1 .<< 25.
Definition FL_IN_FLOAT_S : Z := 1 .<< 26.
Definition FL_IN_FLOAT_D : Z := 1 .<< 27.
Definition FL_IN_FLOAT_AB : Z := FL_IN_FLOAT_A .| FL_IN_FLOAT_B.
Definition FL_IN_FLOAT_AC : Z := FL_IN_FLOAT_A .| FL_IN_FLOAT_C.
Definition FL_IN_FLOAT_ABC : Z := FL_IN_FLOAT_A .| FL_IN_FLOAT_B .| FL_IN_FLOAT_C.
Definition FL_OUT_FLOAT_D : Z := 1 .<< 28.
Definition FL_INOUT_FLOAT_D : Z := FL_IN_FLOAT_D .| FL_OUT_FLOAT_D.

Module OpType.
Inductive t :=
  | Invalid | Subtable | Integer | CR | SPR | System | SystemFP | Load | Store | LoadFP | StoreFP | DoubleFP | SingleFP | LoadPS | StorePS | PS | DataCache | InstructionCache | Branch | Unknown.
#[global] Instance t_eq_dec : EqDecision t.
Proof. solve_decision. Defined.
End OpType.

(** Without the counters of the statistics ([runCount], [compileCount] and
    [lastUse]). *)
Record GekkoOPInfo := mk_opinfo {
  opname : string;
  type : OpType.t;
  flags : Z;
  numCycles : Z
}.

Record GekkoOPTemplate := mk_template {
  opcode : Z;
  Inst : Op.t;
  opinfo : GekkoOPInfo
}.

(** ** Templates *)

Definition unknownopinfo : GekkoOPInfo := mk_opinfo "unknown_instruction" OpType.Unknown FL_ENDBLOCK 0.

Definition primarytable : list GekkoOPTemplate := [
  mk_template 4 Op.RunTable4 (mk_opinfo "RunTable4" OpType.Subtable 0 0);
  mk_template 19 Op.RunTable19 (mk_opinfo "RunTable19" OpType.Subtable 0 0);
  mk_template 31 Op.RunTable31 (mk_opinfo "RunTable31" OpType.Subtable 0 0);
  mk_template 59 Op.RunTable59 (mk_opinfo "RunTable59" OpType.Subtable 0 0);
  mk_template 63 Op.RunTable63 (mk_opinfo "RunTable63" OpType.Subtable 0 0);
  mk_template 16 Op.bcx (mk_opinfo "bcx" OpType.System FL_ENDBLOCK 1);
  mk_template 18 Op.bx (mk_opinfo "bx" OpType.System FL_ENDBLOCK 1);
  mk_template 3 Op.twi (mk_opinfo "twi" OpType.System FL_ENDBLOCK 1);
  mk_template 17 Op.sc (mk_opinfo "sc" OpType.System FL_ENDBLOCK 2);
  mk_template 7 Op.mulli (mk_opinfo "mulli" OpType.Integer (FL_OUT_D .| FL_IN_A) 3);
  mk_template 8 Op.subfic (mk_opinfo "subfic" OpType.Integer (FL_OUT_D .| FL_IN_A .| FL_SET_CA) 1);
  mk_template 10 Op.cmpli (mk_opinfo "cmpli" OpType.Integer (FL_IN_A .| FL_SET_CRn) 1);
  mk_template 11 Op.cmpi (mk_opinfo "cmpi" OpType.Integer (FL_IN_A .| FL_SET_CRn) 1);
  mk_template 12 Op.addic (mk_opinfo "addic" OpType.Integer (FL_OUT_D .| FL_IN_A .| FL_SET_CA) 1);
  mk_template 13 Op.addic_rc (mk_opinfo "addic_rc" OpType.Integer (FL_OUT_D .| FL_IN_A .| FL_SET_CA .| FL_SET_CR0) 1);
  mk_template 14 Op.addi (mk_opinfo "addi" OpType.Integer (FL_OUT_D .| FL_IN_A0) 1);
  mk_template 15 Op.addis (mk_opinfo "addis" OpType.Integer (FL_OUT_D .| FL_IN_A0) 1);
  mk_template 20 Op.rlwimix (mk_opinfo "rlwimix" OpType.Integer (FL_OUT_A .| FL_IN_A .| FL_IN_S .| FL_RC_BIT) 1);
  mk_template 21 Op.rlwinmx (mk_opinfo "rlwinmx" OpType.Integer (FL_OUT_A .| FL_IN_S .| FL_RC_BIT) 1);
  mk_template 23 Op.rlwnmx (mk_opinfo "rlwnmx" OpType.Integer (FL_OUT_A .| FL_IN_SB .| FL_RC_BIT) 1);
  mk_template 24 Op.ori (mk_opinfo "ori" OpType.Integer (FL_OUT_A .| FL_IN_S) 1);
  mk_template 25 Op.oris (mk_opinfo "oris" OpType.Integer (FL_OUT_A .| FL_IN_S) 1);
  mk_template 26 Op.xori (mk_opinfo "xori" OpType.Integer (FL_OUT_A .| FL_IN_S) 1);
  mk_template 27 Op.xoris (mk_opinfo "xoris" OpType.Integer (FL_OUT_A .| FL_IN_S) 1);
  mk_template 28 Op.andi_rc (mk_opinfo "andi_rc" OpType.Integer (FL_OUT_A .| FL_IN_S .| FL_SET_CR0) 1);
  mk_template 29 Op.andis_rc (mk_opinfo "andis_rc" OpType.Integer (FL_OUT_A .| FL_IN_S .| FL_SET_CR0) 1);
  mk_template 32 Op.lwz (mk_opinfo "lwz" OpType.Load (FL_OUT_D .| FL_IN_A0 .| FL_LOADSTORE) 1);
  mk_template 33 Op.lwzu (mk_opinfo "lwzu" OpType.Load (FL_OUT_D .| FL_OUT_A .| FL_IN_A .| FL_LOADSTORE) 1);
  mk_template 34 Op.lbz (mk_opinfo "lbz" OpType.Load (FL_OUT_D .| FL_IN_A0 .| FL_LOADSTORE) 1);
  mk_template 35 Op.lbzu (mk_opinfo "lbzu" OpType.Load (FL_OUT_D .| FL_OUT_A .| FL_IN_A .| FL_LOADSTORE) 1);
  mk_template 40 Op.lhz (mk_opinfo "lhz" OpType.Load (FL_OUT_D .| FL_IN_A0 .| FL_LOADSTORE) 1);
  mk_template 41 Op.lhzu (mk_opinfo "lhzu" OpType.Load (FL_OUT_D .| FL_OUT_A .| FL_IN_A .| FL_LOADSTORE) 1);
  mk_template 42 Op.lha (mk_opinfo "lha" OpType.Load (FL_OUT_D .| FL_IN_A0 .| FL_LOADSTORE) 1);
  mk_template 43 Op.lhau (mk_opinfo "lhau" OpType.Load (FL_OUT_D .| FL_OUT_A .| FL_IN_A .| FL_LOADSTORE) 1);
  mk_template 44 Op.sth (mk_opinfo "sth" OpType.Store (FL_IN_A0 .| FL_IN_S .| FL_LOADSTORE) 1);
  mk_template 45 Op.sthu (mk_opinfo "sthu" OpType.Store (FL_OUT_A .| FL_IN_A .| FL_IN_S .| FL_LOADSTORE) 1);
  mk_template 36 Op.stw (mk_opinfo "stw" OpType.Store (FL_IN_A0 .| FL_IN_S .| FL_LOADSTORE) 1);
  mk_template 37 Op.stwu (mk_opinfo "stwu" OpType.Store (FL_OUT_A .| FL_IN_A .| FL_IN_S .| FL_LOADSTORE) 1);
  mk_template 38 Op.stb (mk_opinfo "stb" OpType.Store (FL_IN_A0 .| FL_IN_S .| FL_LOADSTORE) 1);
  mk_template 39 Op.stbu (mk_opinfo "stbu" OpType.Store (FL_OUT_A .| FL_IN_A .| FL_IN_S .| FL_LOADSTORE) 1);
  mk_template 46 Op.lmw (mk_opinfo "lmw" OpType.System (FL_EVIL .| FL_IN_A0 .| FL_LOADSTORE) 11);
  mk_template 47 Op.stmw (mk_opinfo "stmw" OpType.System (FL_EVIL .| FL_IN_A0 .| FL_LOADSTORE) 11);
  mk_template 48 Op.lfs (mk_opinfo "lfs" OpType.LoadFP (FL_OUT_FLOAT_D .| FL_IN_A .| FL_USE_FPU .| FL_LOADSTORE) 1);
  mk_template 49 Op.lfsu (mk_opinfo "lfsu" OpType.LoadFP (FL_OUT_FLOAT_D .| FL_OUT_A .| FL_IN_A .| FL_USE_FPU .| FL_LOADSTORE) 1);
  mk_template 50 Op.lfd (mk_opinfo "lfd" OpType.LoadFP (FL_INOUT_FLOAT_D .| FL_IN_A .| FL_USE_FPU .| FL_LOADSTORE) 1);
  mk_template 51 Op.lfdu (mk_opinfo "lfdu" OpType.LoadFP (FL_INOUT_FLOAT_D .| FL_OUT_A .| FL_IN_A .| FL_USE_FPU .| FL_LOADSTORE) 1);
  mk_template 52 Op.stfs (mk_opinfo "stfs" OpType.StoreFP (FL_IN_FLOAT_S .| FL_IN_A0 .| FL_USE_FPU .| FL_LOADSTORE) 1);
  mk_template 53 Op.stfsu (mk_opinfo "stfsu" OpType.StoreFP (FL_IN_FLOAT_S .| FL_OUT_A .| FL_IN_A .| FL_USE_FPU .| FL_LOADSTORE) 1);
  mk_template 54 Op.stfd (mk_opinfo "stfd" OpType.StoreFP (FL_IN_FLOAT_S .| FL_IN_A0 .| FL_USE_FPU .| FL_LOADSTORE) 1);
  mk_template 55 Op.stfdu (mk_opinfo "stfdu" OpType.StoreFP (FL_IN_FLOAT_S .| FL_OUT_A .| FL_IN_A .| FL_USE_FPU .| FL_LOADSTORE) 1);
  mk_template 56 Op.psq_l (mk_opinfo "psq_l" OpType.LoadPS (FL_OUT_FLOAT_D .| FL_IN_A0 .| FL_USE_FPU .| FL_LOADSTORE) 1);
  mk_template 57 Op.psq_lu (mk_opinfo "psq_lu" OpType.LoadPS (FL_OUT_FLOAT_D .| FL_OUT_A .| FL_IN_A .| FL_USE_FPU .| FL_LOADSTORE) 1);
  mk_template 60 Op.psq_st (mk_opinfo "psq_st" OpType.StorePS (FL_IN_FLOAT_S .| FL_IN_A0 .| FL_USE_FPU .| FL_LOADSTORE) 1);
  mk_template 61 Op.psq_stu (mk_opinfo "psq_stu" OpType.StorePS (FL_IN_FLOAT_S .| FL_OUT_A .| FL_IN_A .| FL_USE_FPU .| FL_LOADSTORE) 1)].

Definition table4 : list GekkoOPTemplate := [
  mk_template 0 Op.ps_cmpu0 (mk_opinfo "ps_cmpu0" OpType.PS (FL_IN_FLOAT_AB .| FL_SET_CRn .| FL_USE_FPU .| FL_READ_FPRF .| FL_SET_FPRF) 1);
  mk_template 32 Op.ps_cmpo0 (mk_opinfo "ps_cmpo0" OpType.PS (FL_IN_FLOAT_AB .| FL_SET_CRn .| FL_USE_FPU .| FL_READ_FPRF .| FL_SET_FPRF) 1);
  mk_template 40 Op.ps_neg (mk_opinfo "ps_neg" OpType.PS (FL_OUT_FLOAT_D .| FL_IN_FLOAT_B .| FL_RC_BIT_F .| FL_USE_FPU) 1);
  mk_template 136 Op.ps_nabs (mk_opinfo "ps_nabs" OpType.PS (FL_OUT_FLOAT_D .| FL_IN_FLOAT_B .| FL_RC_BIT_F .| FL_USE_FPU) 1);
  mk_template 264 Op.ps_abs (mk_opinfo "ps_abs" OpType.PS (FL_OUT_FLOAT_D .| FL_IN_FLOAT_B .| FL_RC_BIT_F .| FL_USE_FPU) 1);
  mk_template 64 Op.ps_cmpu1 (mk_opinfo "ps_cmpu1" OpType.PS (FL_IN_FLOAT_AB .| FL_SET_CRn .| FL_USE_FPU .| FL_READ_FPRF .| FL_SET_FPRF) 1);
  mk_template 72 Op.ps_mr (mk_opinfo "ps_mr" OpType.PS (FL_OUT_FLOAT_D .| FL_IN_FLOAT_B .| FL_RC_BIT_F .| FL_USE_FPU) 1);
  mk_template 96 Op.ps_cmpo1 (mk_opinfo "ps_cmpo1" OpType.PS (FL_IN_FLOAT_AB .| FL_SET_CRn .| FL_USE_FPU .| FL_READ_FPRF .| FL_SET_FPRF) 1);
  mk_template 528 Op.ps_merge00 (mk_opinfo "ps_merge00" OpType.PS (FL_OUT_FLOAT_D .| FL_IN_FLOAT_AB .| FL_RC_BIT_F .| FL_USE_FPU) 1);
  mk_template 560 Op.ps_merge01 (mk_opinfo "ps_merge01" OpType.PS (FL_OUT_FLOAT_D .| FL_IN_FLOAT_AB .| FL_RC_BIT_F .| FL_USE_FPU) 1);
  mk_template 592 Op.ps_merge10 (mk_opinfo "ps_merge10" OpType.PS (FL_OUT_FLOAT_D .| FL_IN_FLOAT_AB .| FL_RC_BIT_F .| FL_USE_FPU) 1);
  mk_template 624 Op.ps_merge11 (mk_opinfo "ps_merge11" OpType.PS (FL_OUT_FLOAT_D .| FL_IN_FLOAT_AB .| FL_RC_BIT_F .| FL_USE_FPU) 1);
  mk_template 1014 Op.dcbz_l (mk_opinfo "dcbz_l" OpType.System (FL_IN_A0B .| FL_LOADSTORE) 1)].

Definition table4_2 : list GekkoOPTemplate := [
  mk_template 10 Op.ps_sum0 (mk_opinfo "ps_sum0" OpType.PS (FL_OUT_FLOAT_D .| FL_IN_FLOAT_ABC .| FL_RC_BIT_F .| FL_USE_FPU .| FL_SET_FPRF) 1);
  mk_template 11 Op.ps_sum1 (mk_opinfo "ps_sum1" OpType.PS (FL_OUT_FLOAT_D .| FL_IN_FLOAT_ABC .| FL_RC_BIT_F .| FL_USE_FPU .| FL_SET_FPRF) 1);
  mk_template 12 Op.ps_muls0 (mk_opinfo "ps_muls0" OpType.PS (FL_OUT_FLOAT_D .| FL_IN_FLOAT_AC .| FL_RC_BIT_F .| FL_USE_FPU .| FL_SET_FPRF) 1);
  mk_template 13 Op.ps_muls1 (mk_opinfo "ps_muls1" OpType.PS (FL_OUT_FLOAT_D .| FL_IN_FLOAT_AC .| FL_RC_BIT_F .| FL_USE_FPU .| FL_SET_FPRF) 1);
  mk_template 14 Op.ps_madds0 (mk_opinfo "ps_madds0" OpType.PS (FL_OUT_FLOAT_D .| FL_IN_FLOAT_ABC .| FL_RC_BIT_F .| FL_USE_FPU .| FL_SET_FPRF) 1);
  mk_template 15 Op.ps_madds1 (mk_opinfo "ps_madds1" OpType.PS (FL_OUT_FLOAT_D .| FL_IN_FLOAT_ABC .| FL_RC_BIT_F .| FL_USE_FPU .| FL_SET_FPRF) 1);
  mk_template 18 Op.ps_div (mk_opinfo "ps_div" OpType.PS (FL_OUT_FLOAT_D .| FL_IN_FLOAT_AB .| FL_RC_BIT_F .| FL_USE_FPU .| FL_SET_FPRF) 17);
  mk_template 20 Op.ps_sub (mk_opinfo "ps_sub" OpType.PS (FL_OUT_FLOAT_D .| FL_IN_FLOAT_AB .| FL_RC_BIT_F .| FL_USE_FPU .| FL_SET_FPRF) 1);
  mk_template 21 Op.ps_add (mk_opinfo "ps_add" OpType.PS (FL_OUT_FLOAT_D .| FL_IN_FLOAT_AB .| FL_RC_BIT_F .| FL_USE_FPU .| FL_SET_FPRF) 1);
  mk_template 23 Op.ps_sel (mk_opinfo "ps_sel" OpType.PS (FL_OUT_FLOAT_D .| FL_IN_FLOAT_ABC .| FL_RC_BIT_F .| FL_USE_FPU) 1);
  mk_template 24 Op.ps_res (mk_opinfo "ps_res" OpType.PS (FL_OUT_FLOAT_D .| FL_IN_FLOAT_B .| FL_RC_BIT_F .| FL_USE_FPU .| FL_SET_FPRF) 1);
  mk_template 25 Op.ps_mul (mk_opinfo "ps_mul" OpType.PS (FL_OUT_FLOAT_D .| FL_IN_FLOAT_AC .| FL_RC_BIT_F .| FL_USE_FPU .| FL_SET_FPRF) 1);
  mk_template 26 Op.ps_rsqrte (mk_opinfo "ps_rsqrte" OpType.PS (FL_OUT_FLOAT_D .| FL_IN_FLOAT_B .| FL_RC_BIT_F .| FL_USE_FPU .| FL_SET_FPRF) 2);
  mk_template 28 Op.ps_msub (mk_opinfo "ps_msub" OpType.PS (FL_OUT_FLOAT_D .| FL_IN_FLOAT_ABC .| FL_RC_BIT_F .| FL_USE_FPU .| FL_SET_FPRF) 1);
  mk_template 29 Op.ps_madd (mk_opinfo "ps_madd" OpType.PS (FL_OUT_FLOAT_D .| FL_IN_FLOAT_ABC .| FL_RC_BIT_F .| FL_USE_FPU .| FL_SET_FPRF) 1);
  mk_template 30 Op.ps_nmsub (mk_opinfo "ps_nmsub" OpType.PS (FL_OUT_FLOAT_D .| FL_IN_FLOAT_ABC .| FL_RC_BIT_F .| FL_USE_FPU .| FL_SET_FPRF) 1);
  mk_template 31 Op.ps_nmadd (mk_opinfo "ps_nmadd" OpType.PS (FL_OUT_FLOAT_D .| FL_IN_FLOAT_ABC .| FL_RC_BIT_F .| FL_USE_FPU .| FL_SET_FPRF) 1)].

Definition table4_3 : list GekkoOPTemplate := [
  mk_template 6 Op.psq_lx (mk_opinfo "psq_lx" OpType.LoadPS (FL_OUT_FLOAT_D .| FL_IN_A0B .| FL_USE_FPU .| FL_LOADSTORE) 1);
  mk_template 7 Op.psq_stx (mk_opinfo "psq_stx" OpType.StorePS (FL_IN_FLOAT_S .| FL_IN_A0B .| FL_USE_FPU .| FL_LOADSTORE) 1);
  mk_template 38 Op.psq_lux (mk_opinfo "psq_lux" OpType.LoadPS (FL_OUT_FLOAT_D .| FL_OUT_A .| FL_IN_AB .| FL_USE_FPU .| FL_LOADSTORE) 1);
  mk_template 39 Op.psq_stux (mk_opinfo "psq_stux" OpType.StorePS (FL_IN_FLOAT_S .| FL_OUT_A .| FL_IN_AB .| FL_USE_FPU .| FL_LOADSTORE) 1)].

Definition table19 : list GekkoOPTemplate := [
  mk_template 528 Op.bcctrx (mk_opinfo "bcctrx" OpType.Branch FL_ENDBLOCK 1);
  mk_template 16 Op.bclrx (mk_opinfo "bclrx" OpType.Branch FL_ENDBLOCK 1);
  mk_template 257 Op.crand (mk_opinfo "crand" OpType.CR FL_EVIL 1);
  mk_template 129 Op.crandc (mk_opinfo "crandc" OpType.CR FL_EVIL 1);
  mk_template 289 Op.creqv (mk_opinfo "creqv" OpType.CR FL_EVIL 1);
  mk_template 225 Op.crnand (mk_opinfo "crnand" OpType.CR FL_EVIL 1);
  mk_template 33 Op.crnor (mk_opinfo "crnor" OpType.CR FL_EVIL 1);
  mk_template 449 Op.cror (mk_opinfo "cror" OpType.CR FL_EVIL 1);
  mk_template 417 Op.crorc (mk_opinfo "crorc" OpType.CR FL_EVIL 1);
  mk_template 193 Op.crxor (mk_opinfo "crxor" OpType.CR FL_EVIL 1);
  mk_template 150 Op.isync (mk_opinfo "isync" OpType.InstructionCache FL_EVIL 1);
  mk_template 0 Op.mcrf (mk_opinfo "mcrf" OpType.System (FL_EVIL .| FL_SET_CRn) 1);
  mk_template 50 Op.rfi (mk_opinfo "rfi" OpType.System (FL_ENDBLOCK .| FL_CHECKEXCEPTIONS) 2)].

Definition table31 : list GekkoOPTemplate := [
  mk_template 266 Op.addx (mk_opinfo "addx" OpType.Integer (FL_OUT_D .| FL_IN_AB .| FL_RC_BIT) 1);
  mk_template 778 Op.addx (mk_opinfo "addox" OpType.Integer (FL_OUT_D .| FL_IN_AB .| FL_RC_BIT .| FL_SET_OE) 1);
  mk_template 10 Op.addcx (mk_opinfo "addcx" OpType.Integer (FL_OUT_D .| FL_IN_AB .| FL_SET_CA .| FL_RC_BIT) 1);
  mk_template 522 Op.addcx (mk_opinfo "addcox" OpType.Integer (FL_OUT_D .| FL_IN_AB .| FL_SET_CA .| FL_RC_BIT .| FL_SET_OE) 1);
  mk_template 138 Op.addex (mk_opinfo "addex" OpType.Integer (FL_OUT_D .| FL_IN_AB .| FL_READ_CA .| FL_SET_CA .| FL_RC_BIT) 1);
  mk_template 650 Op.addex (mk_opinfo "addeox" OpType.Integer (FL_OUT_D .| FL_IN_AB .| FL_READ_CA .| FL_SET_CA .| FL_RC_BIT .| FL_SET_OE) 1);
  mk_template 234 Op.addmex (mk_opinfo "addmex" OpType.Integer (FL_OUT_D .| FL_IN_A .| FL_READ_CA .| FL_SET_CA .| FL_RC_BIT) 1);
  mk_template 746 Op.addmex (mk_opinfo "addmeox" OpType.Integer (FL_OUT_D .| FL_IN_A .| FL_READ_CA .| FL_SET_CA .| FL_RC_BIT .| FL_SET_OE) 1);
  mk_template 202 Op.addzex (mk_opinfo "addzex" OpType.Integer (FL_OUT_D .| FL_IN_A .| FL_READ_CA .| FL_SET_CA .| FL_RC_BIT) 1);
  mk_template 714 Op.addzex (mk_opinfo "addzeox" OpType.Integer (FL_OUT_D .| FL_IN_A .| FL_READ_CA .| FL_SET_CA .| FL_RC_BIT .| FL_SET_OE) 1);
  mk_template 491 Op.divwx (mk_opinfo "divwx" OpType.Integer (FL_OUT_D .| FL_IN_AB .| FL_RC_BIT) 40);
  mk_template 1003 Op.divwx (mk_opinfo "divwox" OpType.Integer (FL_OUT_D .| FL_IN_AB .| FL_RC_BIT .| FL_SET_OE) 40);
  mk_template 459 Op.divwux (mk_opinfo "divwux" OpType.Integer (FL_OUT_D .| FL_IN_AB .| FL_RC_BIT) 40);
  mk_template 971 Op.divwux (mk_opinfo "divwuox" OpType.Integer (FL_OUT_D .| FL_IN_AB .| FL_RC_BIT .| FL_SET_OE) 40);
  mk_template 75 Op.mulhwx (mk_opinfo "mulhwx" OpType.Integer (FL_OUT_D .| FL_IN_AB .| FL_RC_BIT) 5);
  mk_template 11 Op.mulhwux (mk_opinfo "mulhwux" OpType.Integer (FL_OUT_D .| FL_IN_AB .| FL_RC_BIT) 5);
  mk_template 235 Op.mullwx (mk_opinfo "mullwx" OpType.Integer (FL_OUT_D .| FL_IN_AB .| FL_RC_BIT) 5);
  mk_template 747 Op.mullwx (mk_opinfo "mullwox" OpType.Integer (FL_OUT_D .| FL_IN_AB .| FL_RC_BIT .| FL_SET_OE) 5);
  mk_template 104 Op.negx (mk_opinfo "negx" OpType.Integer (FL_OUT_D .| FL_IN_A .| FL_RC_BIT) 1);
  mk_template 616 Op.negx (mk_opinfo "negox" OpType.Integer (FL_OUT_D .| FL_IN_A .| FL_RC_BIT .| FL_SET_OE) 1);
  mk_template 40 Op.subfx (mk_opinfo "subfx" OpType.Integer (FL_OUT_D .| FL_IN_AB .| FL_RC_BIT) 1);
  mk_template 552 Op.subfx (mk_opinfo "subfox" OpType.Integer (FL_OUT_D .| FL_IN_AB .| FL_RC_BIT .| FL_SET_OE) 1);
  mk_template 8 Op.subfcx (mk_opinfo "subfcx" OpType.Integer (FL_OUT_D .| FL_IN_AB .| FL_SET_CA .| FL_RC_BIT) 1);
  mk_template 520 Op.subfcx (mk_opinfo "subfcox" OpType.Integer (FL_OUT_D .| FL_IN_AB .| FL_SET_CA .| FL_RC_BIT .| FL_SET_OE) 1);
  mk_template 136 Op.subfex (mk_opinfo "subfex" OpType.Integer (FL_OUT_D .| FL_IN_AB .| FL_READ_CA .| FL_SET_CA .| FL_RC_BIT) 1);
  mk_template 648 Op.subfex (mk_opinfo "subfeox" OpType.Integer (FL_OUT_D .| FL_IN_AB .| FL_READ_CA .| FL_SET_CA .| FL_RC_BIT .| FL_SET_OE) 1);
  mk_template 232 Op.subfmex (mk_opinfo "subfmex" OpType.Integer (FL_OUT_D .| FL_IN_A .| FL_READ_CA .| FL_SET_CA .| FL_RC_BIT) 1);
  mk_template 744 Op.subfmex (mk_opinfo "subfmeox" OpType.Integer (FL_OUT_D .| FL_IN_A .| FL_READ_CA .| FL_SET_CA .| FL_RC_BIT .| FL_SET_OE) 1);
  mk_template 200 Op.subfzex (mk_opinfo "subfzex" OpType.Integer (FL_OUT_D .| FL_IN_A .| FL_READ_CA .| FL_SET_CA .| FL_RC_BIT) 1);
  mk_template 712 Op.subfzex (mk_opinfo "subfzeox" OpType.Integer (FL_OUT_D .| FL_IN_A .| FL_READ_CA .| FL_SET_CA .| FL_RC_BIT .| FL_SET_OE) 1);
  mk_template 28 Op.andx (mk_opinfo "andx" OpType.Integer (FL_OUT_A .| FL_IN_SB .| FL_RC_BIT) 1);
  mk_template 60 Op.andcx (mk_opinfo "andcx" OpType.Integer (FL_OUT_A .| FL_IN_SB .| FL_RC_BIT) 1);
  mk_template 444 Op.orx (mk_opinfo "orx" OpType.Integer (FL_OUT_A .| FL_IN_SB .| FL_RC_BIT) 1);
  mk_template 124 Op.norx (mk_opinfo "norx" OpType.Integer (FL_OUT_A .| FL_IN_SB .| FL_RC_BIT) 1);
  mk_template 316 Op.xorx (mk_opinfo "xorx" OpType.Integer (FL_OUT_A .| FL_IN_SB .| FL_RC_BIT) 1);
  mk_template 412 Op.orcx (mk_opinfo "orcx" OpType.Integer (FL_OUT_A .| FL_IN_SB .| FL_RC_BIT) 1);
  mk_template 476 Op.nandx (mk_opinfo "nandx" OpType.Integer (FL_OUT_A .| FL_IN_SB .| FL_RC_BIT) 1);
  mk_template 284 Op.eqvx (mk_opinfo "eqvx" OpType.Integer (FL_OUT_A .| FL_IN_SB .| FL_RC_BIT) 1);
  mk_template 0 Op.cmp (mk_opinfo "cmp" OpType.Integer (FL_IN_AB .| FL_SET_CRn) 1);
  mk_template 32 Op.cmpl (mk_opinfo "cmpl" OpType.Integer (FL_IN_AB .| FL_SET_CRn) 1);
  mk_template 26 Op.cntlzwx (mk_opinfo "cntlzwx" OpType.Integer (FL_OUT_A .| FL_IN_S .| FL_RC_BIT) 1);
  mk_template 922 Op.extshx (mk_opinfo "extshx" OpType.Integer (FL_OUT_A .| FL_IN_S .| FL_RC_BIT) 1);
  mk_template 954 Op.extsbx (mk_opinfo "extsbx" OpType.Integer (FL_OUT_A .| FL_IN_S .| FL_RC_BIT) 1);
  mk_template 536 Op.srwx (mk_opinfo "srwx" OpType.Integer (FL_OUT_A .| FL_IN_SB .| FL_RC_BIT) 1);
  mk_template 792 Op.srawx (mk_opinfo "srawx" OpType.Integer (FL_OUT_A .| FL_IN_SB .| FL_SET_CA .| FL_RC_BIT) 1);
  mk_template 824 Op.srawix (mk_opinfo "srawix" OpType.Integer (FL_OUT_A .| FL_IN_S .| FL_SET_CA .| FL_RC_BIT) 1);
  mk_template 24 Op.slwx (mk_opinfo "slwx" OpType.Integer (FL_OUT_A .| FL_IN_SB .| FL_RC_BIT) 1);
  mk_template 54 Op.dcbst (mk_opinfo "dcbst" OpType.DataCache (FL_IN_A0B .| FL_LOADSTORE) 5);
  mk_template 86 Op.dcbf (mk_opinfo "dcbf" OpType.DataCache (FL_IN_A0B .| FL_LOADSTORE) 5);
  mk_template 246 Op.dcbtst (mk_opinfo "dcbtst" OpType.DataCache 0 2);
  mk_template 278 Op.dcbt (mk_opinfo "dcbt" OpType.DataCache 0 2);
  mk_template 470 Op.dcbi (mk_opinfo "dcbi" OpType.DataCache (FL_IN_A0B .| FL_LOADSTORE) 5);
  mk_template 758 Op.dcba (mk_opinfo "dcba" OpType.DataCache 0 5);
  mk_template 1014 Op.dcbz (mk_opinfo "dcbz" OpType.DataCache (FL_IN_A0B .| FL_LOADSTORE) 5);
  mk_template 23 Op.lwzx (mk_opinfo "lwzx" OpType.Load (FL_OUT_D .| FL_IN_A0B .| FL_LOADSTORE) 1);
  mk_template 55 Op.lwzux (mk_opinfo "lwzux" OpType.Load (FL_OUT_D .| FL_OUT_A .| FL_IN_AB .| FL_LOADSTORE) 1);
  mk_template 279 Op.lhzx (mk_opinfo "lhzx" OpType.Load (FL_OUT_D .| FL_IN_A0B .| FL_LOADSTORE) 1);
  mk_template 311 Op.lhzux (mk_opinfo "lhzux" OpType.Load (FL_OUT_D .| FL_OUT_A .| FL_IN_AB .| FL_LOADSTORE) 1);
  mk_template 343 Op.lhax (mk_opinfo "lhax" OpType.Load (FL_OUT_D .| FL_IN_A0B .| FL_LOADSTORE) 1);
  mk_template 375 Op.lhaux (mk_opinfo "lhaux" OpType.Load (FL_OUT_D .| FL_OUT_A .| FL_IN_AB .| FL_LOADSTORE) 1);
  mk_template 87 Op.lbzx (mk_opinfo "lbzx" OpType.Load (FL_OUT_D .| FL_IN_A0B .| FL_LOADSTORE) 1);
  mk_template 119 Op.lbzux (mk_opinfo "lbzux" OpType.Load (FL_OUT_D .| FL_OUT_A .| FL_IN_AB .| FL_LOADSTORE) 1);
  mk_template 534 Op.lwbrx (mk_opinfo "lwbrx" OpType.Load (FL_OUT_D .| FL_IN_A0B .| FL_LOADSTORE) 1);
  mk_template 790 Op.lhbrx (mk_opinfo "lhbrx" OpType.Load (FL_OUT_D .| FL_IN_A0B .| FL_LOADSTORE) 1);
  mk_template 150 Op.stwcxd (mk_opinfo "stwcxd" OpType.Store (FL_EVIL .| FL_IN_S .| FL_IN_A0B .| FL_SET_CR0 .| FL_LOADSTORE) 1);
  mk_template 20 Op.lwarx (mk_opinfo "lwarx" OpType.Load (FL_EVIL .| FL_OUT_D .| FL_IN_A0B .| FL_SET_CR0 .| FL_LOADSTORE) 1);
  mk_template 533 Op.lswx (mk_opinfo "lswx" OpType.Load (FL_EVIL .| FL_IN_A0B .| FL_OUT_D .| FL_LOADSTORE) 1);
  mk_template 597 Op.lswi (mk_opinfo "lswi" OpType.Load (FL_EVIL .| FL_IN_A0 .| FL_OUT_D .| FL_LOADSTORE) 1);
  mk_template 151 Op.stwx (mk_opinfo "stwx" OpType.Store (FL_IN_S .| FL_IN_A0B .| FL_LOADSTORE) 1);
  mk_template 183 Op.stwux (mk_opinfo "stwux" OpType.Store (FL_IN_S .| FL_OUT_A .| FL_IN_AB .| FL_LOADSTORE) 1);
  mk_template 407 Op.sthx (mk_opinfo "sthx" OpType.Store (FL_IN_S .| FL_IN_A0B .| FL_LOADSTORE) 1);
  mk_template 439 Op.sthux (mk_opinfo "sthux" OpType.Store (FL_IN_S .| FL_OUT_A .| FL_IN_AB .| FL_LOADSTORE) 1);
  mk_template 215 Op.stbx (mk_opinfo "stbx" OpType.Store (FL_IN_S .| FL_IN_A0B .| FL_LOADSTORE) 1);
  mk_template 247 Op.stbux (mk_opinfo "stbux" OpType.Store (FL_IN_S .| FL_OUT_A .| FL_IN_AB .| FL_LOADSTORE) 1);
  mk_template 662 Op.stwbrx (mk_opinfo "stwbrx" OpType.Store (FL_IN_S .| FL_IN_A0B .| FL_LOADSTORE) 1);
  mk_template 918 Op.sthbrx (mk_opinfo "sthbrx" OpType.Store (FL_IN_S .| FL_IN_A0B .| FL_LOADSTORE) 1);
  mk_template 661 Op.stswx (mk_opinfo "stswx" OpType.Store (FL_EVIL .| FL_IN_A0B .| FL_LOADSTORE) 1);
  mk_template 725 Op.stswi (mk_opinfo "stswi" OpType.Store (FL_EVIL .| FL_IN_A0 .| FL_LOADSTORE) 1);
  mk_template 535 Op.lfsx (mk_opinfo "lfsx" OpType.LoadFP (FL_OUT_FLOAT_D .| FL_IN_A0B .| FL_USE_FPU .| FL_LOADSTORE) 1);
  mk_template 567 Op.lfsux (mk_opinfo "lfsux" OpType.LoadFP (FL_OUT_FLOAT_D .| FL_IN_AB .| FL_OUT_A .| FL_USE_FPU .| FL_LOADSTORE) 1);
  mk_template 599 Op.lfdx (mk_opinfo "lfdx" OpType.LoadFP (FL_INOUT_FLOAT_D .| FL_IN_A0B .| FL_USE_FPU .| FL_LOADSTORE) 1);
  mk_template 631 Op.lfdux (mk_opinfo "lfdux" OpType.LoadFP (FL_INOUT_FLOAT_D .| FL_IN_AB .| FL_OUT_A .| FL_USE_FPU .| FL_LOADSTORE) 1);
  mk_template 663 Op.stfsx (mk_opinfo "stfsx" OpType.StoreFP (FL_IN_FLOAT_S .| FL_IN_A0B .| FL_USE_FPU .| FL_LOADSTORE) 1);
  mk_template 695 Op.stfsux (mk_opinfo "stfsux" OpType.StoreFP (FL_IN_FLOAT_S .| FL_IN_AB .| FL_OUT_A .| FL_USE_FPU .| FL_LOADSTORE) 1);
  mk_template 727 Op.stfdx (mk_opinfo "stfdx" OpType.StoreFP (FL_IN_FLOAT_S .| FL_IN_A0B .| FL_USE_FPU .| FL_LOADSTORE) 1);
  mk_template 759 Op.stfdux (mk_opinfo "stfdux" OpType.StoreFP (FL_IN_FLOAT_S .| FL_IN_AB .| FL_OUT_A .| FL_USE_FPU .| FL_LOADSTORE) 1);
  mk_template 983 Op.stfiwx (mk_opinfo "stfiwx" OpType.StoreFP (FL_IN_FLOAT_S .| FL_IN_A0B .| FL_USE_FPU .| FL_LOADSTORE) 1);
  mk_template 19 Op.mfcr (mk_opinfo "mfcr" OpType.System FL_OUT_D 1);
  mk_template 83 Op.mfmsr (mk_opinfo "mfmsr" OpType.System FL_OUT_D 1);
  mk_template 144 Op.mtcrf (mk_opinfo "mtcrf" OpType.System (FL_IN_S .| FL_SET_CRn) 1);
  mk_template 146 Op.mtmsr (mk_opinfo "mtmsr" OpType.System (FL_IN_S .| FL_ENDBLOCK) 1);
  mk_template 210 Op.mtsr (mk_opinfo "mtsr" OpType.System FL_IN_S 1);
  mk_template 242 Op.mtsrin (mk_opinfo "mtsrin" OpType.System FL_IN_SB 1);
  mk_template 339 Op.mfspr (mk_opinfo "mfspr" OpType.SPR FL_OUT_D 1);
  mk_template 467 Op.mtspr (mk_opinfo "mtspr" OpType.SPR FL_IN_S 2);
  mk_template 371 Op.mftb (mk_opinfo "mftb" OpType.System (FL_OUT_D .| FL_TIMER) 1);
  mk_template 512 Op.mcrxr (mk_opinfo "mcrxr" OpType.System (FL_SET_CRn .| FL_READ_CA .| FL_SET_CA) 1);
  mk_template 595 Op.mfsr (mk_opinfo "mfsr" OpType.System FL_OUT_D 3);
  mk_template 659 Op.mfsrin (mk_opinfo "mfsrin" OpType.System (FL_OUT_D .| FL_IN_B) 3);
  mk_template 4 Op.tw (mk_opinfo "tw" OpType.System (FL_IN_AB .| FL_ENDBLOCK) 2);
  mk_template 598 Op.sync (mk_opinfo "sync" OpType.System 0 3);
  mk_template 982 Op.icbi (mk_opinfo "icbi" OpType.System (FL_IN_A0B .| FL_ENDBLOCK .| FL_LOADSTORE) 4);
  mk_template 310 Op.eciwx (mk_opinfo "eciwx" OpType.System (FL_IN_A0B .| FL_OUT_D .| FL_LOADSTORE) 1);
  mk_template 438 Op.ecowx (mk_opinfo "ecowx" OpType.System (FL_IN_A0B .| FL_IN_S .| FL_LOADSTORE) 1);
  mk_template 854 Op.eieio (mk_opinfo "eieio" OpType.System 0 1);
  mk_template 306 Op.tlbie (mk_opinfo "tlbie" OpType.System FL_IN_B 1);
  mk_template 566 Op.tlbsync (mk_opinfo "tlbsync" OpType.System 0 1)].

Definition table59 : list GekkoOPTemplate := [
  mk_template 18 Op.fdivsx (mk_opinfo "fdivsx" OpType.SingleFP (FL_OUT_FLOAT_D .| FL_IN_FLOAT_AB .| FL_RC_BIT_F .| FL_USE_FPU .| FL_SET_FPRF) 17);
  mk_template 20 Op.fsubsx (mk_opinfo "fsubsx" OpType.SingleFP (FL_OUT_FLOAT_D .| FL_IN_FLOAT_AB .| FL_RC_BIT_F .| FL_USE_FPU .| FL_SET_FPRF) 1);
  mk_template 21 Op.faddsx (mk_opinfo "faddsx" OpType.SingleFP (FL_OUT_FLOAT_D .| FL_IN_FLOAT_AB .| FL_RC_BIT_F .| FL_USE_FPU .| FL_SET_FPRF) 1);
  mk_template 24 Op.fresx (mk_opinfo "fresx" OpType.SingleFP (FL_OUT_FLOAT_D .| FL_IN_FLOAT_B .| FL_RC_BIT_F .| FL_USE_FPU .| FL_SET_FPRF) 1);
  mk_template 25 Op.fmulsx (mk_opinfo "fmulsx" OpType.SingleFP (FL_OUT_FLOAT_D .| FL_IN_FLOAT_AC .| FL_RC_BIT_F .| FL_USE_FPU .| FL_SET_FPRF) 1);
  mk_template 28 Op.fmsubsx (mk_opinfo "fmsubsx" OpType.SingleFP (FL_OUT_FLOAT_D .| FL_IN_FLOAT_ABC .| FL_RC_BIT_F .| FL_USE_FPU .| FL_SET_FPRF) 1);
  mk_template 29 Op.fmaddsx (mk_opinfo "fmaddsx" OpType.SingleFP (FL_OUT_FLOAT_D .| FL_IN_FLOAT_ABC .| FL_RC_BIT_F .| FL_USE_FPU .| FL_SET_FPRF) 1);
  mk_template 30 Op.fnmsubsx (mk_opinfo "fnmsubsx" OpType.SingleFP (FL_OUT_FLOAT_D .| FL_IN_FLOAT_ABC .| FL_RC_BIT_F .| FL_USE_FPU .| FL_SET_FPRF) 1);
  mk_template 31 Op.fnmaddsx (mk_opinfo "fnmaddsx" OpType.SingleFP (FL_OUT_FLOAT_D .| FL_IN_FLOAT_ABC .| FL_RC_BIT_F .| FL_USE_FPU .| FL_SET_FPRF) 1)].

Definition table63 : list GekkoOPTemplate := [
  mk_template 264 Op.fabsx (mk_opinfo "fabsx" OpType.DoubleFP (FL_INOUT_FLOAT_D .| FL_IN_FLOAT_B .| FL_RC_BIT_F .| FL_USE_FPU) 1);
  mk_template 32 Op.fcmpo (mk_opinfo "fcmpo" OpType.DoubleFP (FL_IN_FLOAT_AB .| FL_SET_CRn .| FL_USE_FPU .| FL_READ_FPRF .| FL_SET_FPRF) 1);
  mk_template 0 Op.fcmpu (mk_opinfo "fcmpu" OpType.DoubleFP (FL_IN_FLOAT_AB .| FL_SET_CRn .| FL_USE_FPU .| FL_READ_FPRF .| FL_SET_FPRF) 1);
  mk_template 14 Op.fctiwx (mk_opinfo "fctiwx" OpType.DoubleFP (FL_INOUT_FLOAT_D .| FL_IN_FLOAT_B .| FL_RC_BIT_F .| FL_USE_FPU) 1);
  mk_template 15 Op.fctiwzx (mk_opinfo "fctiwzx" OpType.DoubleFP (FL_INOUT_FLOAT_D .| FL_IN_FLOAT_B .| FL_RC_BIT_F .| FL_USE_FPU) 1);
  mk_template 72 Op.fmrx (mk_opinfo "fmrx" OpType.DoubleFP (FL_INOUT_FLOAT_D .| FL_IN_FLOAT_B .| FL_RC_BIT_F .| FL_USE_FPU) 1);
  mk_template 136 Op.fnabsx (mk_opinfo "fnabsx" OpType.DoubleFP (FL_INOUT_FLOAT_D .| FL_IN_FLOAT_B .| FL_RC_BIT_F .| FL_USE_FPU) 1);
  mk_template 40 Op.fnegx (mk_opinfo "fnegx" OpType.DoubleFP (FL_INOUT_FLOAT_D .| FL_IN_FLOAT_B .| FL_RC_BIT_F .| FL_USE_FPU) 1);
  mk_template 12 Op.frspx (mk_opinfo "frspx" OpType.DoubleFP (FL_OUT_FLOAT_D .| FL_IN_FLOAT_B .| FL_RC_BIT_F .| FL_USE_FPU .| FL_SET_FPRF) 1);
  mk_template 64 Op.mcrfs (mk_opinfo "mcrfs" OpType.SystemFP (FL_SET_CRn .| FL_USE_FPU .| FL_READ_FPRF) 1);
  mk_template 583 Op.mffsx (mk_opinfo "mffsx" OpType.SystemFP (FL_RC_BIT_F .| FL_INOUT_FLOAT_D .| FL_USE_FPU .| FL_READ_FPRF) 1);
  mk_template 70 Op.mtfsb0x (mk_opinfo "mtfsb0x" OpType.SystemFP (FL_RC_BIT_F .| FL_USE_FPU .| FL_READ_FPRF .| FL_SET_FPRF) 3);
  mk_template 38 Op.mtfsb1x (mk_opinfo "mtfsb1x" OpType.SystemFP (FL_RC_BIT_F .| FL_USE_FPU .| FL_READ_FPRF .| FL_SET_FPRF) 3);
  mk_template 134 Op.mtfsfix (mk_opinfo "mtfsfix" OpType.SystemFP (FL_RC_BIT_F .| FL_USE_FPU .| FL_READ_FPRF .| FL_SET_FPRF) 3);
  mk_template 711 Op.mtfsfx (mk_opinfo "mtfsfx" OpType.SystemFP (FL_RC_BIT_F .| FL_IN_FLOAT_B .| FL_USE_FPU .| FL_READ_FPRF .| FL_SET_FPRF) 3)].

Definition table63_2 : list GekkoOPTemplate := [
  mk_template 18 Op.fdivx (mk_opinfo "fdivx" OpType.DoubleFP (FL_INOUT_FLOAT_D .| FL_IN_FLOAT_AB .| FL_RC_BIT_F .| FL_USE_FPU .| FL_SET_FPRF) 31);
  mk_template 20 Op.fsubx (mk_opinfo "fsubx" OpType.DoubleFP (FL_INOUT_FLOAT_D .| FL_IN_FLOAT_AB .| FL_RC_BIT_F .| FL_USE_FPU .| FL_SET_FPRF) 1);
  mk_template 21 Op.faddx (mk_opinfo "faddx" OpType.DoubleFP (FL_INOUT_FLOAT_D .| FL_IN_FLOAT_AB .| FL_RC_BIT_F .| FL_USE_FPU .| FL_SET_FPRF) 1);
  mk_template 23 Op.fselx (mk_opinfo "fselx" OpType.DoubleFP (FL_INOUT_FLOAT_D .| FL_IN_FLOAT_ABC .| FL_RC_BIT_F .| FL_USE_FPU) 1);
  mk_template 25 Op.fmulx (mk_opinfo "fmulx" OpType.DoubleFP (FL_INOUT_FLOAT_D .| FL_IN_FLOAT_AC .| FL_RC_BIT_F .| FL_USE_FPU .| FL_SET_FPRF) 1);
  mk_template 26 Op.frsqrtex (mk_opinfo "frsqrtex" OpType.DoubleFP (FL_INOUT_FLOAT_D .| FL_IN_FLOAT_B .| FL_RC_BIT_F .| FL_USE_FPU .| FL_SET_FPRF) 1);
  mk_template 28 Op.fmsubx (mk_opinfo "fmsubx" OpType.DoubleFP (FL_INOUT_FLOAT_D .| FL_IN_FLOAT_ABC .| FL_RC_BIT_F .| FL_USE_FPU .| FL_SET_FPRF) 1);
  mk_template 29 Op.fmaddx (mk_opinfo "fmaddx" OpType.DoubleFP (FL_INOUT_FLOAT_D .| FL_IN_FLOAT_ABC .| FL_RC_BIT_F .| FL_USE_FPU .| FL_SET_FPRF) 1);
  mk_template 30 Op.fnmsubx (mk_opinfo "fnmsubx" OpType.DoubleFP (FL_INOUT_FLOAT_D .| FL_IN_FLOAT_ABC .| FL_RC_BIT_F .| FL_USE_FPU .| FL_SET_FPRF) 1);
  mk_template 31 Op.fnmaddx (mk_opinfo "fnmaddx" OpType.DoubleFP (FL_INOUT_FLOAT_D .| FL_IN_FLOAT_ABC .| FL_RC_BIT_F .| FL_USE_FPU .| FL_SET_FPRF) 1)].

(** ** The tables *)

Record Tables := mk_tables {
  m_op_table : list Op.t;
  m_op_table4 : list Op.t;
  m_op_table19 : list Op.t;
  m_op_table31 : list Op.t;
  m_op_table59 : list Op.t;
  m_op_table63 : list Op.t;
  m_infoTable : list GekkoOPInfo;
  m_infoTable4 : list GekkoOPInfo;
  m_infoTable19 : list GekkoOPInfo;
  m_infoTable31 : list GekkoOPInfo;
  m_infoTable59 : list GekkoOPInfo;
  m_infoTable63 : list GekkoOPInfo
}.

(** A pair of tables, as the loops fill them. *)
Definition Pair : Type := list Op.t * list GekkoOPInfo.

Definition clear (n : nat) : Pair := (replicate n Op.unknown_instruction, replicate n unknownopinfo).

Definition enter (op : Z) (p : Pair) (tpl : GekkoOPTemplate) : Pair :=
  (<[Z.to_nat op := Inst tpl]> p.1, <[Z.to_nat op := opinfo tpl]> p.2).

(** [for (auto& tpl : ...)], and the same for [n] values of the high bits. *)
Definition fill_table (l : list GekkoOPTemplate) (p : Pair) : Pair := fold_left (fun p tpl => enter (opcode tpl) p tpl) l p.
Definition fill_repeated (n : nat) (shift : Z) (l : list GekkoOPTemplate) (p : Pair) : Pair :=
  fold_left (fun p i => let fill := i .<< shift in fold_left (fun p tpl => enter (fill + opcode tpl) p tpl) l p) (upto n) p.

Definition InitializeInstructionTables : Tables :=
  let main := fill_table primarytable (clear 64) in
  let sub4 := fill_table table4 (fill_repeated 16 6 table4_3 (fill_repeated 32 5 table4_2 (clear 1024))) in
  let sub31 := fill_table table31 (clear 1024) in
  let sub19 := fill_table table19 (clear 1024) in
  let sub59 := fill_table table59 (clear 32) in
  let sub63 := fill_repeated 32 5 table63_2 (fill_table table63 (clear 1024)) in
  mk_tables main.1 sub4.1 sub19.1 sub31.1 sub59.1 sub63.1 main.2 sub4.2 sub19.2 sub31.2 sub59.2 sub63.2.

(** [m_allInstructions] *)
Definition m_allInstructions : list GekkoOPInfo :=
  opinfo <$> primarytable ++ table4_2 ++ table4_3 ++ table4 ++ table31 ++ table19 ++ table59 ++ table63 ++ table63_2.
Definition m_numInstructions : nat := length m_allInstructions.

(** ** Lookups *)

Definition OPCD (inst : Z) : Z := field 26 6 inst.
Definition SUBOP10 (inst : Z) : Z := field 1 10 inst.
Definition SUBOP5 (inst : Z) : Z := field 1 5 inst.

Definition op_at (l : list Op.t) (i : Z) : Op.t := nth (Z.to_nat i) l Op.unknown_instruction.
Definition info_at (l : list GekkoOPInfo) (i : Z) : GekkoOPInfo := nth (Z.to_nat i) l unknownopinfo.

(** [nullptr] is [None]. *)
Definition GetOpInfo (t : Tables) (inst : Z) : option GekkoOPInfo :=
  let info := info_at (m_infoTable t) (OPCD inst) in
  if bool_decide (type info = OpType.Subtable) then
    match OPCD inst with
    | 4 => Some (info_at (m_infoTable4 t) (SUBOP10 inst))
    | 19 => Some (info_at (m_infoTable19 t) (SUBOP10 inst))
    | 31 => Some (info_at (m_infoTable31 t) (SUBOP10 inst))
    | 59 => Some (info_at (m_infoTable59 t) (SUBOP5 inst))
    | 63 => Some (info_at (m_infoTable63 t) (SUBOP10 inst))
    | _ => None
    end
  else if bool_decide (type info = OpType.Invalid) then None
  else Some (info_at (m_infoTable t) (OPCD inst)).

Definition GetInterpreterOp (t : Tables) (inst : Z) : option Op.t :=
  let info := info_at (m_infoTable t) (OPCD inst) in
  if bool_decide (type info = OpType.Subtable) then
    match OPCD inst with
    | 4 => Some (op_at (m_op_table4 t) (SUBOP10 inst))
    | 19 => Some (op_at (m_op_table19 t) (SUBOP10 inst))
    | 31 => Some (op_at (m_op_table31 t) (SUBOP10 inst))
    | 59 => Some (op_at (m_op_table59 t) (SUBOP5 inst))
    | 63 => Some (op_at (m_op_table63 t) (SUBOP10 inst))
    | _ => None
    end
  else if bool_decide (type info = OpType.Invalid) then None
  else Some (op_at (m_op_table t) (OPCD inst)).

Definition has_flag (info : GekkoOPInfo) (fl : Z) : bool := flag (flags info) fl.

(** [None] would be the dereference of a null pointer. *)
Definition UsesFPU (t : Tables) (inst : Z) : option bool := info ← GetOpInfo t inst; Some (has_flag info FL_USE_FPU).

Definition GetInstructionName (t : Tables) (inst : Z) : option string := opname <$> GetOpInfo t inst.
Definition IsValidInstruction (t : Tables) (inst : Z) : bool :=
  match GetOpInfo t inst with Some info => negb (bool_decide (type info = OpType.Unknown)) | None => false end.

(** [m_op_table[inst.OPCD](inst)], with the dispatchers [RunTable4] and so on. *)
Definition RunTable (t : Tables) (inst : Z) : Op.t :=
  match op_at (m_op_table t) (OPCD inst) with
  | Op.RunTable4 => op_at (m_op_table4 t) (SUBOP10 inst)
  | Op.RunTable19 => op_at (m_op_table19 t) (SUBOP10 inst)
  | Op.RunTable31 => op_at (m_op_table31 t) (SUBOP10 inst)
  | Op.RunTable59 => op_at (m_op_table59 t) (SUBOP5 inst)
  | Op.RunTable63 => op_at (m_op_table63 t) (SUBOP10 inst)
  | op => op
  end.

(** ** The meaning of the templates *)

(** A template with the instructions it stands for: the primary opcode, and how
    many low bits of the secondary one it fixes, as a modulus. *)
Definition patterns : list (option (Z * Z) * list GekkoOPTemplate) := [
  (None, primarytable); (Some (4, 1024), table4); (Some (4, 32), table4_2); (Some (4, 64), table4_3); (Some (19, 1024), table19);
  (Some (31, 1024), table31); (Some (59, 32), table59); (Some (63, 1024), table63); (Some (63, 32), table63_2)].

Definition matches (opcd subop : Z) (p : option (Z * Z) * GekkoOPTemplate) : bool :=
  match p.1 with
  | None => if opcd =? opcode p.2 then negb (bool_decide (type (opinfo p.2) = OpType.Subtable)) else false
  | Some (main, modulus) => if opcd =? main then subop mod modulus =? opcode p.2 else false
  end.

Definition templates : list (option (Z * Z) * GekkoOPTemplate) := mbind (fun g => pair g.1 <$> g.2) patterns.

(** The templates of an instruction. *)
Definition templates_of (inst : Z) : list (option (Z * Z) * GekkoOPTemplate) :=
  let opcd := OPCD inst in let subop := SUBOP10 inst in filter (fun p => Is_true (matches opcd subop p)) templates.

(** The tables are read-only once they are filled. *)
Definition the_tables : Tables := Eval vm_compute in InitializeInstructionTables.

Lemma the_tables_initialized : InitializeInstructionTables = the_tables.
Proof. vm_compute. reflexivity. Qed.

(** ** What the lookups find *)

#[export] Instance opinfo_eq_dec : EqDecision GekkoOPInfo.
Proof. solve_decision. Defined.

(** An instruction is unknown or has one template. *)
Definition template_of (inst : Z) : option (Op.t * GekkoOPInfo) :=
  match templates_of inst with
  | [p] => Some (Inst p.2, opinfo p.2)
  | [] => Some (Op.unknown_instruction, unknownopinfo)
  | _ => None
  end.

(** The instruction with the given opcodes and no operands. *)
Definition bare (opcd subop : Z) : Z := opcd * 2 ^ 26 + subop * 2.

Definition lookups_agree (inst : Z) : bool :=
  match template_of inst with
  | Some (op, info) =>
    bool_decide (RunTable the_tables inst = op) && bool_decide (GetInterpreterOp the_tables inst = Some op) &&
    bool_decide (GetOpInfo the_tables inst = Some info)
  | None => false
  end.

(** Enough for the five opcodes with a subtable; the others do not look at the
    secondary opcode. *)
Lemma lookups_checked : forallb (fun opcd => forallb (fun subop => lookups_agree (bare opcd subop)) (upto 1024)) [4; 19; 31; 59; 63] = true.
Proof. vm_cast_no_check (@eq_refl bool true). Qed.

Lemma bare_fields opcd subop :
  0 <= opcd < 64 -> 0 <= subop < 1024 ->
  OPCD (bare opcd subop) = opcd /\ SUBOP10 (bare opcd subop) = subop /\ SUBOP5 (bare opcd subop) = subop mod 32.
Proof.
  intros Ho Hs. unfold OPCD, SUBOP10, SUBOP5, bare. rewrite !field_mod by lia.
  split_and!; Z.to_euclidean_division_equations; lia.
Qed.

Lemma opcode_fields inst : 0 <= OPCD inst < 64 /\ 0 <= SUBOP10 inst < 1024 /\ SUBOP5 inst = SUBOP10 inst mod 32.
Proof.
  pose proof (field_range 26 6 inst ltac:(lia)). pose proof (field_range 1 10 inst ltac:(lia)). unfold inu, OPCD, SUBOP10, SUBOP5 in *.
  rewrite !field_mod by lia. split_and!; Z.to_euclidean_division_equations; lia.
Qed.

(** The lookups depend on the opcodes only. *)
Lemma lookups_ext i j :
  OPCD i = OPCD j -> SUBOP10 i = SUBOP10 j -> SUBOP5 i = SUBOP5 j -> lookups_agree i = lookups_agree j /\ template_of i = template_of j.
Proof.
  intros E1 E2 E3. unfold lookups_agree, template_of, templates_of, RunTable, GetInterpreterOp, GetOpInfo. rewrite E1, E2, E3. done.
Qed.

Lemma in_upto x n : 0 <= x < Z.of_nat n -> In x (upto n).
Proof. intros Hx. apply in_map_iff. exists (Z.to_nat x). split; [lia | apply in_seq; lia]. Qed.

Lemma lookups_primary inst : In (OPCD inst) (upto 64) -> ~ In (OPCD inst) [4; 19; 31; 59; 63] -> lookups_agree inst = true.
Proof.
  unfold lookups_agree, template_of, templates_of, RunTable, GetInterpreterOp, GetOpInfo. generalize (SUBOP10 inst), (SUBOP5 inst), (OPCD inst).
  intros subop subop5 opcd Hin Hn. change (upto 64) with (Z.of_nat <$> seq 0 64) in Hin. cbn in Hin.
  destruct_or! Hin; subst opcd; first [exfalso; apply Hn; cbn; tauto | vm_compute; reflexivity | done].
Qed.

(** The lookups find the template of every instruction. *)
Lemma lookups_hold inst : lookups_agree inst = true.
Proof.
  destruct (opcode_fields inst) as (H1 & H2 & H3).
  destruct (in_dec Z.eq_dec (OPCD inst) [4; 19; 31; 59; 63]) as [Hin | Hn]; [| apply lookups_primary; [apply in_upto; done | done]].
  pose proof lookups_checked as C. rewrite forallb_forall in C. specialize (C _ Hin). rewrite forallb_forall in C.
  specialize (C (SUBOP10 inst) (in_upto (SUBOP10 inst) 1024 H2)). destruct (bare_fields _ _ H1 H2) as (E1 & E2 & E3).
  destruct (lookups_ext (bare (OPCD inst) (SUBOP10 inst)) inst E1 E2) as [<- _]; [congruence | done].
Qed.

(** C22: Decoding. For every instruction the handler that runs, the handler the
    recompilers ask for and the information about cycles and flags are those of
    the same template, the only one whose opcodes match, or the unknown
    instruction's when none does: no entry of a table overwrites another, and
    no lookup gives a null pointer. *)
Theorem decoding inst :
  exists op info, template_of inst = Some (op, info) /\
    RunTable InitializeInstructionTables inst = op /\ GetInterpreterOp InitializeInstructionTables inst = Some op /\
    GetOpInfo InitializeInstructionTables inst = Some info.
Proof.
  rewrite the_tables_initialized.
  pose proof (lookups_hold inst) as C.
  unfold lookups_agree in C. destruct (template_of inst) as [[op info] |]; [| done].
  apply andb_true_iff in C as [[C1%bool_decide_eq_true C2%bool_decide_eq_true]%andb_true_iff C3%bool_decide_eq_true]. eauto 10.
Qed.
