(* ===== verification/PpcRun.v ===== *)
(** The interpreter of PowerPC instructions as a whole
    ([Core/PowerPC/Interpreter/Interpreter.cpp]): the handler of each opcode,
    one step, a block of instructions up to a branch, a slice of blocks, and
    the loop of slices between which the scheduler runs its events.

    The machine is the memory management unit of [PpcMmu] whose devices are the
    clock of [PpcTimers]. The emulation of library functions, the state of the
    CPU thread and the breakpoints are the environment's ([RunHost]). *)

From S2P Require Import Prelude Memmap PpcCache PpcState PpcInteger PpcSystem PpcFpu PpcFloat PpcFpArith PpcBat PpcTlb PpcMmu PpcLoadStore.
From S2P Require Import PpcPaired StdHeap CoreTiming PpcSpr PpcTimers PpcBranch PpcTables.
Open Scope Z_scope.

(** [HLE::ReplaceFunctionIfPossible] with what the replacement did,
    [CPU::GetState() == CPU::State::Running], the breakpoints, and
    [CPU::Break] with the removal of a temporary breakpoint. *)
Class RunHost (E : Type) := {
  ReplaceFunctionIfPossible : Z -> Mmu (Clock E) -> bool * Mmu (Clock E);
  is_running : Mmu (Clock E) -> bool;
  IsAddressBreakPoint : Z -> Mmu (Clock E) -> bool;
  Break : Z -> Mmu (Clock E) -> Mmu (Clock E);
  bEnableDebugging : bool
}.

(** [m_prev_inst] and [last_pc]. *)
Record Loop := mk_loop { m_prev_inst : Z; last_pc : Z }.

Section Run.
Context {E : Type} {heap : HeapAlgorithms Event event_leb}.
Context `{FpuHost} `{MmuHost (Clock E)} `{LoadStoreHost (Clock E)} `{SprHost (Clock E)} `{RunHost E}.
(** The registration of the decrementer's event, and the callbacks. *)
Variable et_Dec : EventType.
Variable callback : EventType -> Z -> Z -> Z -> PowerPCState * Mmu (Clock E) -> (PowerPCState * Mmu (Clock E)) * list Command.

#[local] Instance run_timers : TimerHost (Clock E) := system_timers et_Dec.

Abbreviation M := (M (Clock E)).

(** ** The handlers *)

Definition exec_bx (inst : Z) : M unit := modify (on_sched (bx inst)).

(** [bcx] reads the instructions before it through the debugger's access. *)
Definition exec_bcx (inst : Z) : M unit :=
  registers (bcx_branch inst);;
  s ← gets cpu;
  let PC := pc s in
  if (npc s =? u32 (PC - 8)) && (inst =? 0x4182fff8) then
    load ← HostRead_U32 (u32 (PC - 8));
    if load .>> 16 =? 0x800D then
      last_inst ← HostRead_U32 (u32 (PC - 4));
      if (last_inst =? 0x28000000) || ((last_inst =? 0x2C000000) && bWii) then modify (on_sched Idle) else mret tt
    else mret tt
  else mret tt.

(** Without the message. *)
Definition unknown_instruction (last_pc : Z) : M unit := opcode ← HostRead_U32 last_pc; assert_failed.

(** The handler of each entry of the tables. A dispatcher in a second table
    would call itself. *)
Definition interpret (last_pc : Z) (op : Op.t) (inst : Z) : M unit :=
  match op with
  | Op.RunTable4 | Op.RunTable19 | Op.RunTable31 | Op.RunTable59 | Op.RunTable63 => fun _ => Loops
  | Op.bx => exec_bx inst
  | Op.bcx => exec_bcx inst
  | Op.isync => mret tt
  | Op.unknown_instruction => unknown_instruction last_pc
  | Op.twi => registers (PpcInteger.twi inst)  | Op.sc => registers (PpcBranch.sc inst)
  | Op.mulli => registers (PpcInteger.mulli inst)  | Op.subfic => registers (PpcInteger.subfic inst)
  | Op.cmpli => registers (PpcInteger.cmpli inst)  | Op.cmpi => registers (PpcInteger.cmpi inst)
  | Op.addic => registers (PpcInteger.addic inst)  | Op.addic_rc => registers (PpcInteger.addic_rc inst)
  | Op.addi => registers (PpcInteger.addi inst)  | Op.addis => registers (PpcInteger.addis inst)
  | Op.rlwimix => registers (PpcInteger.rlwimix inst)  | Op.rlwinmx => registers (PpcInteger.rlwinmx inst)
  | Op.rlwnmx => registers (PpcInteger.rlwnmx inst)  | Op.ori => registers (PpcInteger.ori inst)
  | Op.oris => registers (PpcInteger.oris inst)  | Op.xori => registers (PpcInteger.xori inst)
  | Op.xoris => registers (PpcInteger.xoris inst)  | Op.andi_rc => registers (PpcInteger.andi_rc inst)
  | Op.andis_rc => registers (PpcInteger.andis_rc inst)  | Op.lwz => PpcLoadStore.lwz inst
  | Op.lwzu => PpcLoadStore.lwzu inst  | Op.lbz => PpcLoadStore.lbz inst  | Op.lbzu => PpcLoadStore.lbzu inst
  | Op.lhz => PpcLoadStore.lhz inst  | Op.lhzu => PpcLoadStore.lhzu inst  | Op.lha => PpcLoadStore.lha inst
  | Op.lhau => PpcLoadStore.lhau inst  | Op.sth => PpcLoadStore.sth inst  | Op.sthu => PpcLoadStore.sthu inst
  | Op.stw => PpcLoadStore.stw inst  | Op.stwu => PpcLoadStore.stwu inst  | Op.stb => PpcLoadStore.stb inst
  | Op.stbu => PpcLoadStore.stbu inst  | Op.lmw => PpcLoadStore.lmw inst  | Op.stmw => PpcLoadStore.stmw inst
  | Op.lfs => PpcLoadStore.lfs inst  | Op.lfsu => PpcLoadStore.lfsu inst  | Op.lfd => PpcLoadStore.lfd inst
  | Op.lfdu => PpcLoadStore.lfdu inst  | Op.stfs => PpcLoadStore.stfs inst  | Op.stfsu => PpcLoadStore.stfsu inst
  | Op.stfd => PpcLoadStore.stfd inst  | Op.stfdu => PpcLoadStore.stfdu inst  | Op.psq_l => PpcPaired.psq_l inst
  | Op.psq_lu => PpcPaired.psq_lu inst  | Op.psq_st => PpcPaired.psq_st inst  | Op.psq_stu => PpcPaired.psq_stu inst
  | Op.ps_cmpu0 => registers (PpcFpu.ps_cmpu0 inst)  | Op.ps_cmpo0 => registers (PpcFpu.ps_cmpo0 inst)
  | Op.ps_neg => registers (PpcFpu.ps_neg inst)  | Op.ps_nabs => registers (PpcFpu.ps_nabs inst)
  | Op.ps_abs => registers (PpcFpu.ps_abs inst)  | Op.ps_cmpu1 => registers (PpcFpu.ps_cmpu1 inst)
  | Op.ps_mr => registers (PpcFpu.ps_mr inst)  | Op.ps_cmpo1 => registers (PpcFpu.ps_cmpo1 inst)
  | Op.ps_merge00 => registers (PpcFpu.ps_merge00 inst)  | Op.ps_merge01 => registers (PpcFpu.ps_merge01 inst)
  | Op.ps_merge10 => registers (PpcFpu.ps_merge10 inst)  | Op.ps_merge11 => registers (PpcFpu.ps_merge11 inst)
  | Op.dcbz_l => PpcLoadStore.dcbz_l inst  | Op.ps_sum0 => registers (PpcFpArith.ps_sum0 inst)
  | Op.ps_sum1 => registers (PpcFpArith.ps_sum1 inst)  | Op.ps_muls0 => registers (PpcFpArith.ps_muls0 inst)
  | Op.ps_muls1 => registers (PpcFpArith.ps_muls1 inst)  | Op.ps_madds0 => registers (PpcFpArith.ps_madds0 inst)
  | Op.ps_madds1 => registers (PpcFpArith.ps_madds1 inst)  | Op.ps_div => registers (PpcFpArith.ps_div inst)
  | Op.ps_sub => registers (PpcFpArith.ps_sub inst)  | Op.ps_add => registers (PpcFpArith.ps_add inst)
  | Op.ps_sel => registers (PpcFpu.ps_sel inst)  | Op.ps_res => registers (PpcFpArith.ps_res inst)
  | Op.ps_mul => registers (PpcFpArith.ps_mul inst)  | Op.ps_rsqrte => registers (PpcFpArith.ps_rsqrte inst)
  | Op.ps_msub => registers (PpcFpArith.ps_msub inst)  | Op.ps_madd => registers (PpcFpArith.ps_madd inst)
  | Op.ps_nmsub => registers (PpcFpArith.ps_nmsub inst)  | Op.ps_nmadd => registers (PpcFpArith.ps_nmadd inst)
  | Op.psq_lx => PpcPaired.psq_lx inst  | Op.psq_stx => PpcPaired.psq_stx inst  | Op.psq_lux => PpcPaired.psq_lux inst
  | Op.psq_stux => PpcPaired.psq_stux inst  | Op.bcctrx => registers (PpcBranch.bcctrx inst)
  | Op.bclrx => registers (PpcBranch.bclrx inst)  | Op.crand => registers (PpcSystem.crand inst)
  | Op.crandc => registers (PpcSystem.crandc inst)  | Op.creqv => registers (PpcSystem.creqv inst)
  | Op.crnand => registers (PpcSystem.crnand inst)  | Op.crnor => registers (PpcSystem.crnor inst)
  | Op.cror => registers (PpcSystem.cror inst)  | Op.crorc => registers (PpcSystem.crorc inst)
  | Op.crxor => registers (PpcSystem.crxor inst)  | Op.mcrf => registers (PpcSystem.mcrf inst)
  | Op.rfi => registers (PpcBranch.rfi inst)  | Op.addx => registers (PpcInteger.addx inst)
  | Op.addcx => registers (PpcInteger.addcx inst)  | Op.addex => registers (PpcInteger.addex inst)
  | Op.addmex => registers (PpcInteger.addmex inst)  | Op.addzex => registers (PpcInteger.addzex inst)
  | Op.divwx => registers (PpcInteger.divwx inst)  | Op.divwux => registers (PpcInteger.divwux inst)
  | Op.mulhwx => registers (PpcInteger.mulhwx inst)  | Op.mulhwux => registers (PpcInteger.mulhwux inst)
  | Op.mullwx => registers (PpcInteger.mullwx inst)  | Op.negx => registers (PpcInteger.negx inst)
  | Op.subfx => registers (PpcInteger.subfx inst)  | Op.subfcx => registers (PpcInteger.subfcx inst)
  | Op.subfex => registers (PpcInteger.subfex inst)  | Op.subfmex => registers (PpcInteger.subfmex inst)
  | Op.subfzex => registers (PpcInteger.subfzex inst)  | Op.andx => registers (PpcInteger.andx inst)
  | Op.andcx => registers (PpcInteger.andcx inst)  | Op.orx => registers (PpcInteger.orx inst)
  | Op.norx => registers (PpcInteger.norx inst)  | Op.xorx => registers (PpcInteger.xorx inst)
  | Op.orcx => registers (PpcInteger.orcx inst)  | Op.nandx => registers (PpcInteger.nandx inst)
  | Op.eqvx => registers (PpcInteger.eqvx inst)  | Op.cmp => registers (PpcInteger.cmp inst)
  | Op.cmpl => registers (PpcInteger.cmpl inst)  | Op.cntlzwx => registers (PpcInteger.cntlzwx inst)
  | Op.extshx => registers (PpcInteger.extshx inst)  | Op.extsbx => registers (PpcInteger.extsbx inst)
  | Op.srwx => registers (PpcInteger.srwx inst)  | Op.srawx => registers (PpcInteger.srawx inst)
  | Op.srawix => registers (PpcInteger.srawix inst)  | Op.slwx => registers (PpcInteger.slwx inst)
  | Op.dcbst => PpcLoadStore.dcbst inst  | Op.dcbf => PpcLoadStore.dcbf inst  | Op.dcbtst => PpcLoadStore.dcbtst inst
  | Op.dcbt => PpcLoadStore.dcbt inst  | Op.dcbi => PpcLoadStore.dcbi inst  | Op.dcba => PpcLoadStore.dcba inst
  | Op.dcbz => PpcLoadStore.dcbz inst  | Op.lwzx => PpcLoadStore.lwzx inst  | Op.lwzux => PpcLoadStore.lwzux inst
  | Op.lhzx => PpcLoadStore.lhzx inst  | Op.lhzux => PpcLoadStore.lhzux inst  | Op.lhax => PpcLoadStore.lhax inst
  | Op.lhaux => PpcLoadStore.lhaux inst  | Op.lbzx => PpcLoadStore.lbzx inst  | Op.lbzux => PpcLoadStore.lbzux inst
  | Op.lwbrx => PpcLoadStore.lwbrx inst  | Op.lhbrx => PpcLoadStore.lhbrx inst
  | Op.stwcxd => PpcLoadStore.stwcxd inst  | Op.lwarx => PpcLoadStore.lwarx inst  | Op.lswx => PpcLoadStore.lswx inst
  | Op.lswi => PpcLoadStore.lswi inst  | Op.stwx => PpcLoadStore.stwx inst  | Op.stwux => PpcLoadStore.stwux inst
  | Op.sthx => PpcLoadStore.sthx inst  | Op.sthux => PpcLoadStore.sthux inst  | Op.stbx => PpcLoadStore.stbx inst
  | Op.stbux => PpcLoadStore.stbux inst  | Op.stwbrx => PpcLoadStore.stwbrx inst
  | Op.sthbrx => PpcLoadStore.sthbrx inst  | Op.stswx => PpcLoadStore.stswx inst
  | Op.stswi => PpcLoadStore.stswi inst  | Op.lfsx => PpcLoadStore.lfsx inst  | Op.lfsux => PpcLoadStore.lfsux inst
  | Op.lfdx => PpcLoadStore.lfdx inst  | Op.lfdux => PpcLoadStore.lfdux inst  | Op.stfsx => PpcLoadStore.stfsx inst
  | Op.stfsux => PpcLoadStore.stfsux inst  | Op.stfdx => PpcLoadStore.stfdx inst
  | Op.stfdux => PpcLoadStore.stfdux inst  | Op.stfiwx => PpcLoadStore.stfiwx inst
  | Op.mfcr => registers (PpcSystem.mfcr inst)  | Op.mfmsr => registers (PpcSystem.mfmsr inst)
  | Op.mtcrf => registers (PpcSystem.mtcrf inst)  | Op.mtmsr => registers (PpcSystem.mtmsr inst)
  | Op.mtsr => registers (PpcSystem.mtsr inst)  | Op.mtsrin => registers (PpcSystem.mtsrin inst)
  | Op.mfspr => PpcSpr.mfspr inst  | Op.mtspr => PpcSpr.mtspr inst  | Op.mftb => PpcSpr.mftb inst
  | Op.mcrxr => registers (PpcSystem.mcrxr inst)  | Op.mfsr => registers (PpcSystem.mfsr inst)
  | Op.mfsrin => registers (PpcSystem.mfsrin inst)  | Op.tw => registers (PpcInteger.tw inst)
  | Op.sync => PpcLoadStore.sync inst  | Op.icbi => PpcLoadStore.icbi inst  | Op.eciwx => PpcLoadStore.eciwx inst
  | Op.ecowx => PpcLoadStore.ecowx inst  | Op.eieio => PpcLoadStore.eieio inst  | Op.tlbie => PpcLoadStore.tlbie inst
  | Op.tlbsync => PpcLoadStore.tlbsync inst  | Op.fdivsx => registers (PpcFpArith.fdivsx inst)
  | Op.fsubsx => registers (PpcFpArith.fsubsx inst)  | Op.faddsx => registers (PpcFpArith.faddsx inst)
  | Op.fresx => registers (PpcFpArith.fresx inst)  | Op.fmulsx => registers (PpcFpArith.fmulsx inst)
  | Op.fmsubsx => registers (PpcFpArith.fmsubsx inst)  | Op.fmaddsx => registers (PpcFpArith.fmaddsx inst)
  | Op.fnmsubsx => registers (PpcFpArith.fnmsubsx inst)  | Op.fnmaddsx => registers (PpcFpArith.fnmaddsx inst)
  | Op.fabsx => registers (PpcFpu.fabsx inst)  | Op.fcmpo => registers (PpcFpu.fcmpo inst)
  | Op.fcmpu => registers (PpcFpu.fcmpu inst)  | Op.fctiwx => registers (PpcFpArith.fctiwx inst)
  | Op.fctiwzx => registers (PpcFpArith.fctiwzx inst)  | Op.fmrx => registers (PpcFpu.fmrx inst)
  | Op.fnabsx => registers (PpcFpu.fnabsx inst)  | Op.fnegx => registers (PpcFpu.fnegx inst)
  | Op.frspx => registers (PpcFpArith.frspx inst)  | Op.mcrfs => registers (PpcFpu.mcrfs inst)
  | Op.mffsx => registers (PpcFpu.mffsx inst)  | Op.mtfsb0x => registers (PpcFpu.mtfsb0x inst)
  | Op.mtfsb1x => registers (PpcFpu.mtfsb1x inst)  | Op.mtfsfix => registers (PpcFpu.mtfsfix inst)
  | Op.mtfsfx => registers (PpcFpu.mtfsfx inst)  | Op.fdivx => registers (PpcFpArith.fdivx inst)
  | Op.fsubx => registers (PpcFpArith.fsubx inst)  | Op.faddx => registers (PpcFpArith.faddx inst)
  | Op.fselx => registers (PpcFpu.fselx inst)  | Op.fmulx => registers (PpcFpArith.fmulx inst)
  | Op.frsqrtex => registers (PpcFpArith.frsqrtex inst)  | Op.fmsubx => registers (PpcFpArith.fmsubx inst)
  | Op.fmaddx => registers (PpcFpArith.fmaddx inst)  | Op.fnmsubx => registers (PpcFpArith.fnmsubx inst)
  | Op.fnmaddx => registers (PpcFpArith.fnmaddx inst)
  end.

Definition execute (last_pc inst : Z) : M unit := interpret last_pc (RunTable the_tables inst) inst.

(** ** A step *)

(** [if (Exceptions & EXCEPTION_DSI) { CheckExceptions(); m_end_block = true; }] *)
Definition after_DSI (s : PowerPCState) : PowerPCState := if DSI_pending s then set_end_block true (CheckExceptions s) else s.

Definition run_instruction (last_pc hex : Z) : M unit :=
  s ← gets cpu;
  uses_fpu ← host (if Z.testbit (msr s) MSR_FP then Some false else UsesFPU the_tables hex);
  if uses_fpu : bool then
    registers (fun s => set_end_block true (CheckExceptions (set_Exceptions (Exceptions s .| EXCEPTION_FPU_UNAVAILABLE) s)))
  else execute last_pc hex;; registers after_DSI.

Definition HandleFunctionHooking (address : Z) : M bool := fun m => let '(r, m) := ReplaceFunctionIfPossible address m in Done r m.

Definition SingleStepInner (l : Loop) : M (Loop * Z) :=
  s ← gets cpu;
  hooked ← HandleFunctionHooking (pc s);
  l ← (if hooked : bool then mret l
       else
         registers (fun s => set_npc (u32 (pc s + 4)) s);;
         s ← gets cpu;
         hex ← Read_Opcode (pc s);
         (if negb (hex =? 0) then run_instruction (last_pc l) hex else registers (fun s => set_end_block true (CheckExceptions s)));;
         mret (mk_loop hex (last_pc l)));
  s ← gets cpu;
  registers (fun s => set_pc (npc s) s);;
  opinfo ← host (GetOpInfo the_tables (m_prev_inst l));
  mret (mk_loop (m_prev_inst l) (pc s), numCycles opinfo).

(** [CoreTiming::Advance], with fuel for its events. *)
Definition advance (fuel : nat) : M unit := fun m =>
  match Advance callback fuel (to_sched m) with Some (s, _) => Done tt (of_sched s) | None => Loops end.

Definition set_slice_of_one (m : Mmu (Clock E)) : Mmu (Clock E) :=
  on_sched (fun s => set_ppc (set_downcount 0 (ppc s)) (set_slice_length 1 s)) m.

Definition SingleStep (fuel : nat) (l : Loop) : M Loop :=
  advance fuel;;
  r ← SingleStepInner l;
  modify set_slice_of_one;;
  s ← gets cpu;
  when (negb (Exceptions s =? 0)) (registers (fun s => let s := CheckExceptions s in set_pc (npc s) s));;
  mret r.1.

(** ** Blocks and slices *)

(** [while (!m_end_block) cycles += SingleStepInner();] *)
Fixpoint run_block (fuel : nat) (l : Loop) (cycles : Z) : M (Loop * Z) :=
  match fuel with
  | O => fun _ => Loops
  | S fuel' =>
    s ← gets cpu;
    if m_end_block s then mret (l, cycles)
    else r ← SingleStepInner l; run_block fuel' r.1 (s32 (cycles + r.2))
  end.

(** The block of the debugger's loop: every instruction counts as one cycle,
    and [None] says that it hit a breakpoint. *)
Fixpoint run_block_debugging (fuel : nat) (l : Loop) (i : Z) : M (Loop * option Z) :=
  match fuel with
  | O => fun _ => Loops
  | S fuel' =>
    s ← gets cpu;
    if m_end_block s then mret (l, Some i)
    else
      b ← gets (IsAddressBreakPoint (pc s));
      if b : bool then modify (Break (pc s));; mret (l, None)
      else r ← SingleStepInner l; run_block_debugging fuel' r.1 (s32 (i + 1))
  end.

Definition spend (cycles : Z) : M unit := registers (fun s => set_downcount (s32 (downcount s - cycles)) s).

(** The slice: [while (downcount > 0)]; [fuel] bounds the blocks and the
    instructions of each. [false] says that [Run] returns. *)
Fixpoint run_slice (blocks fuel : nat) (l : Loop) : M (Loop * bool) :=
  match blocks with
  | O => fun _ => Loops
  | S blocks' =>
    s ← gets cpu;
    if 0 <? downcount s then
      registers (set_end_block false);;
      if bEnableDebugging then
        r ← run_block_debugging fuel l 0;
        match r.2 with
        | None => mret (r.1, false)
        | Some i => spend i;; run_slice blocks' fuel r.1
        end
      else r ← run_block fuel l 0; spend r.2;; run_slice blocks' fuel r.1
    else mret (l, true)
  end.

Fixpoint run_loop (slices fuel : nat) (l : Loop) : M Loop :=
  match slices with
  | O => fun _ => Loops
  | S slices' =>
    running ← gets is_running;
    if running : bool then
      advance fuel;;
      r ← run_slice fuel fuel l;
      if r.2 : bool then run_loop slices' fuel r.1 else mret r.1
    else mret l
  end.

(** [Interpreter::Init], after the tables. *)
Definition Init (m : Mmu (Clock E)) : Mmu (Clock E) := set_cpu (set_end_block false (set_reserve false (cpu m))) m.
End Run.
