(* ===== verification/PpcSteps.v ===== *)
(** What every step of the PowerPC interpreter keeps, and how a step ends. *)

From S2P Require Import Prelude Memmap PpcCache PpcState PpcInteger PpcSystem PpcFpu PpcFloat PpcFpArith PpcBat PpcTlb PpcMmu PpcAccess PpcLoadStore.
From S2P Require Import PpcPaired StdHeap CoreTiming PpcSpr PpcTimers PpcBranch PpcTables PpcKeeps PpcRun.
Open Scope Z_scope.

Ltac head t := lazymatch t with ?f _ => head f | _ => t end.
Ltac unfold_head t := let h := head t in unfold h.

Section Steps.
Context {E : Type} {heap : HeapAlgorithms Event event_leb}.
Context `{FpuHost} `{MmuHost (Clock E)} `{LoadStoreHost (Clock E)} `{SprHost (Clock E)} `{RunHost E}.
Variable et_Dec : EventType.
Variable callback : EventType -> Z -> Z -> Z -> PowerPCState * Mmu (Clock E) -> (PowerPCState * Mmu (Clock E)) * list Command.
#[local] Instance step_timers : TimerHost (Clock E) := run_timers et_Dec.
#[local] Instance step_timers_admit R `{!Admits R} : TimersAdmit R := timers_admit R et_Dec.

Section Memory.
Context (R : PowerPCState -> PowerPCState -> Prop) `{!Admits R} `{!DevicesAdmit R}.

(** The handlers that act on memory and the devices but not on the
    floating-point registers. *)
Lemma keeps_transfers h :
  In h [lbz; lbzu; lbzux; lbzx; lhz; lhzu; lhzux; lhzx; lha; lhau; lhaux; lhax; lwz; lwzu; lwzux; lwzx; lhbrx; lwbrx;
    stb; stbu; stbux; stbx; sth; sthu; sthux; sthx; stw; stwu; stwux; stwx; sthbrx; stwbrx;
    stfd; stfdu; stfdux; stfdx; stfs; stfsu; stfsux; stfsx; stfiwx; lmw; stmw; lswx; lswi; stswi; stswx; stwcxd;
    dcba; dcbf; dcbi; dcbst; dcbt; dcbtst; dcbz; dcbz_l; eciwx; ecowx; eieio; sync; icbi; tlbie; tlbsync] ->
  forall inst, keeps R (h inst).
Proof.
  intros Hin inst. cbn in Hin.
  destruct_or! Hin; try done; subst h; match goal with |- keeps _ ?t => unfold_head t end; keep_handler.
Qed.

End Memory.

(** ** Widths *)

Section Widths.
Context `{!DevicesAdmit keeps_wf}.

Lemma wf_bx inst (s : State (Mmu (Clock E))) : wf (ppc s) -> wf (ppc (bx inst s)).
Proof.
  intros Hs. unfold bx. cbv zeta. match goal with |- context [if ?b then Idle ?x else _] => set (s1 := x) end.
  assert (W : wf (ppc s1)) by (subst s1; cbn [ppc set_ppc set_machine fst]; wf_auto).
  case_match; [apply wf_set_downcount, W | exact W].
Qed.

Lemma wf_bcx_branch inst s : wf s -> wf (bcx_branch inst s).
Proof. intros Hs. unfold bcx_branch. wf_auto. Qed.

Lemma keeps_wf_loads h :
  In h [lfd; lfdu; lfdux; lfdx; lfs; lfsu; lfsux; lfsx] -> forall inst, keeps keeps_wf (h inst).
Proof.
  intros Hin inst. cbn in Hin.
  destruct_or! Hin; try done; subst h; match goal with |- keeps _ ?t => unfold_head t end; keep_handler.
Qed.

(** The quantised loads and stores. *)
Lemma keeps_wf_ReadUnpaired w a : keeps keeps_wf (ReadUnpaired w a).
Proof. unfold ReadUnpaired. repeat case_match; apply keeps_reads; exact _. Qed.
Lemma keeps_wf_ReadPair w a : keeps keeps_wf (ReadPair w a).
Proof.
  unfold ReadPair. apply keeps_seq; [exact _ | | intros; apply keeps_ret; exact _]. repeat case_match; apply keeps_reads; exact _.
Qed.
Lemma keeps_wf_WriteUnpaired w v a : keeps keeps_wf (WriteUnpaired w v a).
Proof. unfold WriteUnpaired. repeat case_match; apply keeps_writes; exact _. Qed.
Lemma keeps_wf_WritePair w v1 v2 a : keeps keeps_wf (WritePair w v1 v2 a).
Proof. unfold WritePair. cbv zeta. repeat case_match; apply keeps_writes; exact _. Qed.
Lemma keeps_wf_QuantizeAndStore T p0 p1 a w sc : keeps keeps_wf (QuantizeAndStore T p0 p1 a w sc).
Proof.
  unfold QuantizeAndStore, current_env. apply keeps_seq; [exact _ | apply keeps_gets; exact _ | intros v]. cbv zeta.
  destruct w; [apply keeps_wf_WriteUnpaired | apply keeps_wf_WritePair].
Qed.
Lemma keeps_wf_LoadAndDequantize T a w sc : keeps keeps_wf (LoadAndDequantize T a w sc).
Proof.
  unfold LoadAndDequantize, current_env.
  destruct w; (apply keeps_seq; [exact _ | apply keeps_wf_ReadUnpaired || apply keeps_wf_ReadPair | intros value]);
    (apply keeps_seq; [exact _ | apply keeps_gets; exact _ | intros; apply keeps_ret; exact _]).
Qed.
Lemma keeps_wf_Quantize a i rs w : keeps keeps_wf (Helper_Quantize a i rs w).
Proof.
  unfold Helper_Quantize. apply keeps_seq; [exact _ | apply keeps_gets; exact _ | intros s]. cbv zeta.
  destruct (st_type _); try apply keeps_wf_QuantizeAndStore; try (apply keeps_assert_failed; exact _).
  destruct w; [apply keeps_wf_WriteUnpaired | apply keeps_wf_WritePair].
Qed.
Lemma keeps_wf_Dequantize a i rd w : keeps keeps_wf (Helper_Dequantize a i rd w).
Proof.
  unfold Helper_Dequantize. apply keeps_seq; [exact _ | apply keeps_gets; exact _ | intros s]. cbv zeta. apply keeps_seq; [exact _ | |].
  - destruct (ld_type _); try apply keeps_wf_LoadAndDequantize.
    2-4: apply keeps_seq; [exact _ | apply keeps_assert_failed; exact _ | intros; apply keeps_ret; exact _].
    destruct w; [| apply keeps_wf_ReadPair]. apply keeps_seq; [exact _ | apply keeps_wf_ReadUnpaired | intros; apply keeps_ret; exact _].
  - intros ps. keep_handler.
Qed.

Lemma keeps_wf_psq h :
  In h [psq_l; psq_lu; psq_st; psq_stu; psq_lx; psq_stx; psq_lux; psq_stux] -> forall inst, keeps keeps_wf (h inst).
Proof.
  pose proof keeps_wf_Quantize as K1. pose proof keeps_wf_Dequantize as K2.
  intros Hin inst. cbn in Hin.
  destruct_or! Hin; try done; subst h; match goal with |- keeps _ ?t => unfold_head t end; unfold with_LSQE; keep_handler.
Qed.

(** The address of the reservation comes from the registers. *)
Lemma keeps_wf_lwarx inst : keeps keeps_wf (lwarx inst).
Proof.
  assert (K : forall a, inu 32 a -> keeps keeps_wf (aligned a (load (Read_U32 a) (fun temp s =>
    set_reserve_address a (set_reserve true (put_gpr (RD inst) temp s)))))) by (intros a Ha; keep_handler).
  intros m v m' X Hw. refine (K (Helper_Get_EA_X inst (cpu m)) _ m v m' X Hw).
  unfold Helper_Get_EA_X. case_match; [apply inu_u32 | apply rGPR_width, Hw].
Qed.

Lemma keeps_wf_bx inst : keeps keeps_wf (exec_bx (E := E) inst).
Proof. apply keeps_modify. intros m Hw. apply (wf_bx inst (to_sched m)), Hw. Qed.

Lemma own_Idle : own (E := E) Idle.
Proof. intros s. split; [done |]. exists 0. done. Qed.

Lemma keeps_wf_bcx inst : keeps keeps_wf (exec_bcx (E := E) inst).
Proof.
  unfold exec_bcx. apply keeps_seq; [exact _ | apply keeps_registers; intros s Hs; apply wf_bcx_branch, Hs | intros _].
  keep_handler.
  all: try exact (admits_own keeps_wf Idle _ own_Idle).
Qed.

Lemma interpret_wf last_pc op inst : keeps keeps_wf (interpret et_Dec last_pc op inst).
Proof.
  destruct op; cbn [interpret].
  all: try (apply keeps_registers; intros s Hs; solve [auto with wf_ppc | match goal with |- wf ?t => unfold_head t end; wf_auto]).
  all: try (apply keeps_transfers; [exact _ | exact _ | cbn; repeat first [left; reflexivity | right]; fail]).
  all: try (apply keeps_wf_loads; cbn; tauto). all: try (apply keeps_wf_psq; cbn; tauto).
  all: try (apply keeps_mfspr || apply keeps_mtspr; exact _).
  all: try (apply keeps_stop; discriminate).
  - apply keeps_wf_bcx.
  - apply keeps_wf_bx.
  - apply keeps_ret. exact _.
  - apply keeps_wf_lwarx.
  - unfold unknown_instruction. keep_handler.
Qed.

(** *** Steps *)

Lemma keeps_wf_cpu A (k : PowerPCState -> M (Clock E) A) : (forall s, wf s -> keeps keeps_wf (k s)) -> keeps (D := Clock E) keeps_wf (s ← gets cpu; k s).
Proof. intros Hk m v m' X Hw. apply (Hk (cpu m) Hw m v m' X Hw). Qed.

Lemma keeps_TryReadInstruction R `{!PreOrder R} a : keeps R (TryReadInstruction (D := Clock E) a).
Proof. pose proof (keeps_TranslateAddress (D := Clock E) R). unfold TryReadInstruction. keep. Qed.

Lemma keeps_wf_Read_Opcode a : inu 32 a -> keeps (D := Clock E) keeps_wf (Read_Opcode a).
Proof.
  intros Ha. unfold Read_Opcode. apply keeps_seq; [exact _ | apply keeps_TryReadInstruction; exact _ | intros r]. case_match; [| apply keeps_ret; exact _].
  apply keeps_seq; [exact _ | | intros; apply keeps_ret; exact _]. apply keeps_modify. intros m Hw. cbn [cpu set_cpu].
  change (Exceptions (cpu m)) with (Exceptions (set_npc a (cpu m))). apply wf_or_exceptions, wf_set_npc; [widths | done | done].
Qed.

Lemma keeps_wf_run_instruction last_pc hex : keeps keeps_wf (run_instruction et_Dec last_pc hex).
Proof.
  unfold run_instruction. apply keeps_seq; [exact _ | apply keeps_gets; exact _ | intros s]. apply keeps_seq; [exact _ | apply keeps_host; exact _ | intros b].
  destruct b; [apply keeps_registers; intros s1 Hs; wf_auto |]. apply keeps_seq; [exact _ | apply interpret_wf | intros _].
  apply keeps_registers. intros s1 Hs. unfold after_DSI. wf_auto.
Qed.

(** Replaced functions, breakpoints and events keep the widths as well. *)
Class RunAdmits (R : PowerPCState -> PowerPCState -> Prop) : Prop := {
  admits_hook a (m : Mmu (Clock E)) : R (cpu m) (cpu (ReplaceFunctionIfPossible a m).2);
  admits_Break a (m : Mmu (Clock E)) : R (cpu m) (cpu (Break a m));
  admits_callback ty ud late now s m : R s (callback ty ud late now (s, m)).1.1
}.
Context `{!RunAdmits keeps_wf}.

Lemma keeps_wf_SingleStepInner l : keeps keeps_wf (SingleStepInner et_Dec l).
Proof.
  unfold SingleStepInner. apply keeps_seq; [exact _ | apply keeps_gets; exact _ | intros s]. apply keeps_seq; [exact _ | | intros hooked].
  { apply keeps_device. intros. apply admits_hook. }
  apply keeps_seq; [exact _ | | intros l1].
  - destruct hooked; [apply keeps_ret; exact _ |]. apply keeps_seq; [exact _ | apply keeps_registers; intros s1 Hs; wf_auto | intros _].
    apply keeps_wf_cpu. intros s1 Hs. apply keeps_seq; [exact _ | apply keeps_wf_Read_Opcode, Hs | intros hex].
    apply keeps_seq; [exact _ | | intros; apply keeps_ret; exact _].
    destruct (negb _); [apply keeps_wf_run_instruction | apply keeps_registers; intros s2 Hs2; wf_auto].
  - apply keeps_seq; [exact _ | apply keeps_gets; exact _ | intros s1]. apply keeps_seq; [exact _ | apply keeps_registers; intros s2 Hs; wf_auto | intros _].
    apply keeps_seq; [exact _ | apply keeps_host; exact _ | intros; apply keeps_ret; exact _].
Qed.

(** The scheduler. *)
Lemma wf_push_event t ud ty (s : State (Mmu (Clock E))) : wf (ppc s) -> wf (ppc (push_event t ud ty s)).
Proof. done. Qed.

Lemma wf_run_command c (s : State (Mmu (Clock E))) : wf (ppc s) -> wf (ppc (run_command s c)).
Proof.
  intros Hs. destruct c as [c ty ud | ty]; cbn [run_command].
  - destruct (ScheduleEvent_own c ty ud s) as [_ [d ->]]. apply wf_set_downcount, Hs.
  - destruct (RemoveEvent_own ty s) as [_ [d ->]]. apply wf_set_downcount, Hs.
Qed.

Lemma wf_run_commands l (s : State (Mmu (Clock E))) : wf (ppc s) -> wf (ppc (fold_left run_command l s)).
Proof. revert s. induction l as [| c l IH]; intros s Hs; cbn [fold_left]; [done |]. apply IH, wf_run_command, Hs. Qed.

Lemma wf_MoveEvents (s : State (Mmu (Clock E))) : wf (ppc s) -> wf (ppc (MoveEvents s)).
Proof.
  intros Hs. unfold MoveEvents. cbn [ppc set_ts_queue]. generalize (s_ts_queue s). intros l. revert s Hs.
  induction l as [| e l IH]; intros s Hs; cbn [fold_left]; [done |]. apply IH, wf_push_event, Hs.
Qed.

Lemma wf_advance_loop fuel (s : State (Mmu (Clock E))) r : wf (ppc s) -> advance_loop callback fuel s = Some r -> wf (ppc r.1).
Proof.
  revert s r. induction fuel as [| fuel IH]; intros s r Hs; cbn [advance_loop]; [done |].
  destruct (s_event_queue s) as [| evt q]; [intros [= <-]; done |]. case_match; [| intros [= <-]; done]. cbn [ppc world set_queue].
  pose proof (admits_callback (R := keeps_wf) (CoreTiming.type evt) (userdata evt) (s64 (global_timer s - time evt)) (global_timer s) (ppc s) (world s) Hs) as Hc.
  cbn [global_timer set_queue]. destruct (callback _ _ _ _ _) as [[p w] commands]. cbn [fst] in Hc.
  match goal with |- context [fold_left run_command ?l ?x] => pose proof (wf_run_commands l x Hc) as W; set (s1 := fold_left run_command l x) in * end.
  destruct (advance_loop callback fuel s1) as [r1 |] eqn:A; [| done]. intros [= <-]. apply (IH s1 r1 W A).
Qed.

Lemma keeps_wf_advance fuel : keeps keeps_wf (advance callback fuel).
Proof.
  intros m v m'. unfold advance, Advance. destruct (advance_loop _ _ _) as [r |] eqn:A; [| done]. cbn. intros [= _ <-] Hw.
  pose proof (wf_advance_loop fuel (begin_slice (to_sched m)) r (wf_MoveEvents (to_sched m) Hw) A) as W.
  unfold end_slice. cbv zeta. cbn [ppc set_ppc set_machine fst cpu of_sched set_cpu set_sane].
  destruct (s_event_queue (set_sane false r.1)); cbn; apply wf_CheckExternalExceptions, wf_set_downcount, W.
Qed.

(** *** Blocks and slices *)

Ltac keep_run := repeat first
  [ match goal with K : forall _, _ |- _ => apply K end | apply keeps_ret; exact _ | apply keeps_gets; exact _ | apply keeps_stop; discriminate
  | match goal with |- keeps _ (match ?x with _ => _ end) => destruct x end
  | apply keeps_seq; [exact _ | | intros ?] | apply keeps_registers; intros ? ?; solve [wf_auto]
  | apply keeps_modify; intros ?; first [apply admits_Break | intros ?; wf_auto] ].

Lemma keeps_wf_run_block fuel l c : keeps keeps_wf (run_block et_Dec fuel l c).
Proof.
  revert l c. induction fuel as [| fuel IH]; intros; cbn [run_block]; [apply keeps_stop; discriminate |].
  apply keeps_seq; [exact _ | apply keeps_gets; exact _ | intros s]. case_match; [apply keeps_ret; exact _ |].
  apply keeps_seq; [exact _ | apply keeps_wf_SingleStepInner | intros; apply IH].
Qed.

Lemma keeps_wf_run_block_debugging fuel l i : keeps keeps_wf (run_block_debugging et_Dec fuel l i).
Proof.
  revert l i. induction fuel as [| fuel IH]; intros; cbn [run_block_debugging]; [apply keeps_stop; discriminate |].
  pose proof keeps_wf_SingleStepInner. keep_run.
Qed.

Lemma keeps_wf_run_slice blocks fuel l : keeps keeps_wf (run_slice et_Dec blocks fuel l).
Proof.
  revert l. induction blocks as [| blocks IH]; intros; cbn [run_slice]; [apply keeps_stop; discriminate |].
  pose proof keeps_wf_run_block as K1. pose proof keeps_wf_run_block_debugging as K2. unfold spend. keep_run.
Qed.

Lemma keeps_wf_run_loop slices fuel l : keeps keeps_wf (run_loop et_Dec callback slices fuel l).
Proof.
  revert l. induction slices as [| slices IH]; intros; cbn [run_loop]; [apply keeps_stop; discriminate |].
  pose proof keeps_wf_advance. pose proof keeps_wf_run_slice. keep_run.
Qed.

(** The registers stay within their widths. Whatever instruction a step
    runs, whatever exception it takes and whatever events the scheduler runs
    between the slices, the general registers, the program counter, the
    condition register's fields, XER, MSR, FPSCR, the floating-point registers,
    the segment registers, the special purpose registers and the pending
    exceptions are numbers of their width after it, as long as the devices,
    the events and the emulated library functions keep them so. *)
Lemma registers_in_range slices fuel l m :
  wf (cpu m) ->
  (forall r m', SingleStepInner et_Dec l m = Done r m' -> wf (cpu m')) /\
  (forall m', advance callback fuel m = Done tt m' -> wf (cpu m')) /\
  (forall r m', run_loop et_Dec callback slices fuel l m = Done r m' -> wf (cpu m')).
Proof.
  intros Hw. split_and!; intros *; intros X; revert Hw.
  - apply (keeps_wf_SingleStepInner l _ _ _ X).
  - apply (keeps_wf_advance fuel _ _ _ X).
  - apply (keeps_wf_run_loop slices fuel l _ _ _ X).
Qed.
End Widths.

(** ** The floating-point unit *)

Section Disabled.
Context `{!DevicesAdmit keeps_fp}.

(** The handlers whose templates are marked. *)
Definition fpu_op (op : Op.t) : bool := existsb (fun p => bool_decide (Inst p.2 = op) && has_flag (opinfo p.2) FL_USE_FPU) templates.

Lemma fpu_op_marks : forallb (fun p => Bool.eqb (has_flag (opinfo p.2) FL_USE_FPU) (fpu_op (Inst p.2))) templates = true.
Proof. vm_cast_no_check (@eq_refl bool true). Qed.

Lemma UsesFPU_marks inst : UsesFPU the_tables inst = Some (fpu_op (RunTable the_tables inst)).
Proof.
  pose proof (lookups_hold inst) as C. unfold lookups_agree in C. destruct (template_of inst) as [[op info] |] eqn:T; [| done].
  apply andb_true_iff in C as [[C1%bool_decide_eq_true _]%andb_true_iff C3%bool_decide_eq_true].
  unfold UsesFPU. rewrite C1, C3. cbn. f_equal. unfold template_of in T.
  destruct (templates_of inst) as [| p [|]] eqn:P; [injection T as <- <-; vm_compute; done | | done]. injection T as <- <-.
  pose proof fpu_op_marks as Mk. rewrite forallb_forall in Mk. apply Bool.eqb_prop, Mk.
  apply list_elem_of_In. assert (I : p ∈ templates_of inst) by (rewrite P; left). unfold templates_of in I. apply list_elem_of_filter in I. apply I.
Qed.

Lemma fp_CheckExceptions s : fp_registers (CheckExceptions s) = fp_registers s.
Proof. unfold CheckExceptions, CheckExternalExceptions. repeat case_match; reflexivity. Qed.

Lemma fp_ExpandCR cr s : fp_registers (ExpandCR cr s) = fp_registers s.
Proof. unfold ExpandCR. rewrite upto_8. reflexivity. Qed.

Lemma fp_when_Rc inst v s : fp_registers (when_Rc inst v s) = fp_registers s.
Proof. unfold when_Rc. case_match; reflexivity. Qed.

Lemma fp_when_OE inst v s : fp_registers (when_OE inst v s) = fp_registers s.
Proof. unfold when_OE. case_match; reflexivity. Qed.

Lemma fp_cr_op f inst s : fp_registers (cr_op f inst s) = fp_registers s.
Proof. unfold cr_op, SetCRBit. cbv zeta. case_match; reflexivity. Qed.

Lemma fp_supervisor f s : fp_registers (f s) = fp_registers s -> fp_registers (supervisor f s) = fp_registers s.
Proof. intros Hf. unfold supervisor. case_match; [reflexivity | exact Hf]. Qed.

Lemma fp_trap s : fp_registers (trap s) = fp_registers s.
Proof. exact (fp_CheckExceptions (set_Exceptions (Exceptions s .| EXCEPTION_PROGRAM) s)). Qed.

Lemma fp_end_block b s : fp_registers (set_end_block b s) = fp_registers s.
Proof. done. Qed.

Ltac fp_auto :=
  cbv zeta; first [apply fp_supervisor | idtac]; unfold logic, SetCR, sc, mtmsr; cbv zeta;
  rewrite ?fp_end_block, ?fp_when_Rc, ?fp_when_OE, ?fp_cr_op, ?fp_ExpandCR, ?fp_CheckExceptions;
  repeat case_match; rewrite ?fp_trap, ?fp_when_Rc, ?fp_when_OE, ?fp_ExpandCR; first [reflexivity | apply fp_cr_op | apply fp_CheckExceptions | apply fp_ExpandCR].

Lemma fp_bx inst (s : State (Mmu (Clock E))) : fp_registers (ppc (bx inst s)) = fp_registers (ppc s).
Proof.
  unfold bx. cbv zeta. repeat case_match; reflexivity.
Qed.

Lemma keeps_fp_bcx inst : keeps keeps_fp (exec_bcx (E := E) inst).
Proof.
  unfold exec_bcx. apply keeps_seq; [exact _ | apply keeps_registers; intros s; unfold keeps_fp, bcx_branch; cbv zeta; repeat case_match; reflexivity |].
  intros _. keep_handler. all: try exact (admits_own keeps_fp Idle _ own_Idle).
Qed.

Lemma keeps_fp_lwarx inst : keeps keeps_fp (lwarx inst).
Proof. unfold lwarx. keep_handler. Qed.

Lemma interpret_fp last_pc op inst : fpu_op op = false -> keeps keeps_fp (interpret et_Dec last_pc op inst).
Proof.
  intros F. destruct op; try (exfalso; revert F; vm_compute; discriminate); clear F; cbn [interpret].
  all: try (apply keeps_transfers; [exact _ | exact _ | cbn; repeat first [left; reflexivity | right]; fail]).
  all: try (apply keeps_mfspr || apply keeps_mtspr; exact _).
  all: try (apply keeps_stop; discriminate).
  all: try (apply keeps_registers; intros s; unfold keeps_fp; match goal with |- fp_registers ?t = _ => unfold_head t end; fp_auto).
  - apply keeps_fp_bcx.
  - apply keeps_modify. intros m. apply fp_bx.
  - apply keeps_ret. exact _.
  - apply keeps_fp_lwarx.
  - unfold unknown_instruction. keep_handler.
Qed.
End Disabled.

(** ** One step *)

Lemma GetOpInfo_some hex : exists info, GetOpInfo the_tables hex = Some info.
Proof.
  pose proof (lookups_hold hex) as C. unfold lookups_agree in C. destruct (template_of hex) as [[op info] |]; [| done].
  apply andb_true_iff in C as [_ C3%bool_decide_eq_true]. eauto.
Qed.

(** No library function is replaced. *)
Definition no_hooks : Prop := forall a (m : Mmu (Clock E)), ReplaceFunctionIfPossible a m = (false, m).

Definition about_to_fetch (m : Mmu (Clock E)) : Mmu (Clock E) := set_cpu (set_npc (u32 (pc (cpu m) + 4)) (cpu m)) m.

Lemma step_runs l m hex m1 m2 :
  no_hooks -> Read_Opcode (pc (cpu m)) (about_to_fetch m) = Done hex m1 -> hex <> 0 ->
  run_instruction et_Dec (last_pc l) hex m1 = Done tt m2 ->
  exists r, SingleStepInner et_Dec l m = Done r (set_cpu (set_pc (npc (cpu m2)) (cpu m2)) m2).
Proof.
  intros Nh Hf Hz Hr. destruct (GetOpInfo_some hex) as [info Hi]. eexists.
  unfold SingleStepInner, HandleFunctionHooking. unfold mbind, M_bind, gets at 1. rewrite Nh. unfold registers at 1, modify at 1, gets at 1.
  fold (about_to_fetch m). change (pc (cpu (about_to_fetch m))) with (pc (cpu m)). rewrite Hf, (proj2 (Z.eqb_neq hex 0)) by done. cbn [negb].
  rewrite Hr. unfold gets, registers, modify, mret, M_ret, host. cbn [m_prev_inst]. rewrite Hi. reflexivity.
Qed.

Lemma run_unmarked lp hex m1 m2 :
  Z.testbit (msr (cpu m1)) MSR_FP = true \/ fpu_op (RunTable the_tables hex) = false ->
  execute et_Dec lp hex m1 = Done tt m2 ->
  run_instruction et_Dec lp hex m1 = Done tt (set_cpu (after_DSI (cpu m2)) m2).
Proof.
  intros Hfp He. unfold run_instruction. unfold mbind, M_bind, gets at 1, host.
  assert (U : (if Z.testbit (msr (cpu m1)) MSR_FP then Some false else UsesFPU the_tables hex) = Some false).
  { destruct (Z.testbit _ _) eqn:F; [done |]. rewrite UsesFPU_marks. destruct Hfp as [? | ->]; [congruence | done]. }
  rewrite U, He. done.
Qed.

Lemma run_marked lp hex m1 :
  Z.testbit (msr (cpu m1)) MSR_FP = false -> fpu_op (RunTable the_tables hex) = true ->
  run_instruction et_Dec lp hex m1 =
    Done tt (set_cpu (set_end_block true (CheckExceptions (set_Exceptions (Exceptions (cpu m1) .| EXCEPTION_FPU_UNAVAILABLE) (cpu m1)))) m1).
Proof.
  intros Hfp Ho. unfold run_instruction. unfold mbind, M_bind, gets at 1, host. rewrite Hfp, UsesFPU_marks, Ho. done.
Qed.

(** A fetch that succeeds leaves the processor alone; one that fails reports
    the address. *)
Lemma fetch_cpu a (m : Mmu (Clock E)) hex m1 :
  Read_Opcode a m = Done hex m1 ->
  cpu m1 = cpu m \/ hex = 0 /\ cpu m1 = set_Exceptions (Exceptions (cpu m) .| EXCEPTION_ISI) (set_npc a (cpu m)).
Proof.
  unfold Read_Opcode, mbind at 1, M_bind at 1. destruct (TryReadInstruction a m) as [r m0 | |] eqn:T; [| done | done].
  pose proof (keeps_TryReadInstruction eq a m r m0 T) as Ec. rewrite Ec.
  destruct (negb (valid r)); intros [= <- <-]; [right | left]; done.
Qed.

(** C11: Without the floating-point unit a program cannot touch its registers.
    While MSR.FP is clear no step changes a floating-point register or FPSCR,
    whatever it fetches; and an instruction that the tables mark as one of the
    unit does nothing but report the unit as unavailable: no memory is
    accessed, SRR0 is the instruction's own address, and the handler at 0x800
    runs next. No function of the game is replaced, the handlers of devices leave
    these registers alone, and for the second part nothing else is pending. *)
Theorem fpu_disabled l m `{!DevicesAdmit keeps_fp} :
  no_hooks -> Z.testbit (msr (cpu m)) MSR_FP = false ->
  (forall r m', SingleStepInner et_Dec l m = Done r m' -> fp_registers (cpu m') = fp_registers (cpu m)) /\
  (forall hex m1, Read_Opcode (pc (cpu m)) (about_to_fetch m) = Done hex m1 -> hex <> 0 -> fpu_op (RunTable the_tables hex) = true ->
    Exceptions (cpu m) = 0 -> wf (cpu m) ->
    exists r m', SingleStepInner et_Dec l m = Done r m' /\ memory m' = memory m1 /\ gpr (cpu m') = gpr (cpu m) /\
      pc (cpu m') = 0x800 /\ SRR0 (cpu m') = pc (cpu m) /\ Exceptions (cpu m') = 0).
Proof.
  intros Nh Hfp. split.
  - intros r m'. unfold SingleStepInner, HandleFunctionHooking. unfold mbind, M_bind, gets at 1. rewrite Nh.
    unfold registers at 1, modify at 1, gets at 1. fold (about_to_fetch m). change (pc (cpu (about_to_fetch m))) with (pc (cpu m)).
    destruct (Read_Opcode (pc (cpu m)) (about_to_fetch m)) as [hex m1 | |] eqn:F; [| done | done].
    assert (K : fp_registers (cpu m1) = fp_registers (cpu m) /\ Z.testbit (msr (cpu m1)) MSR_FP = false).
    { destruct (fetch_cpu _ _ _ _ F) as [-> | [_ ->]]; done. }
    destruct K as [<- Hfp1]. destruct (negb (hex =? 0)).
    + destruct (fpu_op (RunTable the_tables hex)) eqn:O.
      * rewrite run_marked by done. destruct (GetOpInfo_some hex) as [info Hi]. unfold gets, registers, modify, mret, M_ret, host. cbn [m_prev_inst].
        rewrite Hi. intros [= _ <-].
        exact (fp_CheckExceptions (set_Exceptions (Exceptions (cpu m1) .| EXCEPTION_FPU_UNAVAILABLE) (cpu m1))).
      * destruct (execute et_Dec (last_pc l) hex m1) as [[] m2 | |] eqn:X;
          [| unfold run_instruction, mbind, M_bind, gets at 1, host at 1; rewrite Hfp1, UsesFPU_marks, O, X; done..].
        rewrite (run_unmarked (last_pc l) hex m1 m2) by auto. destruct (GetOpInfo_some hex) as [info Hi].
        unfold gets, registers, modify, mret, M_ret, host. cbn [m_prev_inst]. rewrite Hi. intros [= _ <-]. cbn [cpu set_cpu].
        transitivity (fp_registers (cpu m2)); [unfold after_DSI; destruct (DSI_pending _); [exact (fp_CheckExceptions (cpu m2)) | done] |].
        apply (interpret_fp (last_pc l) _ hex O m1 tt m2 X).
    + unfold registers at 1, modify at 1, gets, mret, M_ret, host. destruct (GetOpInfo _ _); [| done]. intros [= _ <-]. exact (fp_CheckExceptions (cpu m1)).
  - intros hex m1 F Hz O He Hw. assert (Ec : cpu m1 = cpu (about_to_fetch m)) by (destruct (fetch_cpu _ _ _ _ F) as [? | [? _]]; done).
    destruct (step_runs l m hex m1 _ Nh F Hz (run_marked (last_pc l) hex m1 ltac:(rewrite Ec; exact Hfp) O)) as [r E1].
    eexists r, _. split; [exact E1 |]. cbn [cpu memory set_cpu]. rewrite Ec. cbn [cpu about_to_fetch set_cpu Exceptions set_npc]. rewrite He.
    split_and!; try done. change (rSPR (put_spr SPR_SRR1 (msr (cpu m) .& 0x87C0FFFF .| 0) (put_spr SPR_SRR0 (pc (cpu m)) (cpu m))) SPR_SRR0 = pc (cpu m)).
    rewrite !rSPR_put_spr. cbn. apply wrapu_id, Hw.
Qed.

(** *** Faults *)

Lemma set_iCache_page_entry c (m : Mmu (Clock E)) ea : page_entry (set_iCache c m) ea = page_entry m ea.
Proof. unfold page_entry, is_entry, candidates, group. cbn [memory pagetable_base pagetable_hashmask set_iCache]. reflexivity. Qed.

Lemma set_iCache_reference c (m : Mmu (Clock E)) f ea : reference (set_iCache c m) f ea = reference m f ea.
Proof. unfold reference, page_reference. rewrite set_iCache_page_entry. reflexivity. Qed.

Lemma set_iCache_ok c (m : Mmu (Clock E)) : mmu_ok m -> mmu_ok (set_iCache c m).
Proof.
  intros [T I Db]. constructor; [| done | done]. destruct T as [[] S A]. constructor; [constructor; done | done |].
  intros opc i w Hw Hn. generalize (A opc i w Hw Hn). unfold way_agrees. rewrite set_iCache_page_entry. cbn [memory tlb set_iCache]. exact id.
Qed.

(** What a fetch may do: it may record an access in the page table, and fill
    the cache. *)
Record fetched (m m1 : Mmu (Clock E)) : Prop := {
  ft_cpu : cpu m1 = cpu m;
  ft_ok : mmu_ok m1;
  ft_reference f ea : reference m1 f ea = reference m f ea;
  ft_outside q : outside_table m q -> outside_table m1 q;
  ft_memory q : outside_table m q -> load_u8 (memory m1) q = load_u8 (memory m) q
}.

Lemma fetched_translated m m0 c : mmu_ok m -> translated m m0 -> fetched m (set_iCache c m0).
Proof.
  intros Hm X. constructor.
  - apply (frame_cpu _ _ (tr_frame _ _ X)).
  - apply set_iCache_ok, X.
  - intros f ea. rewrite set_iCache_reference. apply (bytes_frame m m0 Hm X f ea).
  - intros q Hq. apply (frame_outside m m0 q (tr_frame _ _ X) Hq).
  - intros q Hq. apply (tr_memory _ _ X q Hq).
Qed.

Lemma set_iCache_id (m : Mmu (Clock E)) : set_iCache (iCache m) m = m.
Proof. by destruct m. Qed.

(** The end of [TryReadInstruction]. *)
Definition fetch_at (b : bool) (p : Z) : M (Clock E) TryReadInstResult :=
  m ← gets id;
  if bool_decide (is_Some (m_pFakeVMEM (memory m))) && ((p .& 0xFE000000) =? 0x7E000000) then
    l ← host (load_bytes (memory m) (FakeVMEM, p .& FAKEVMEM_MASK) 4); mret (mk_inst_result true b (swap32 (le_value l)) p)
  else
    r ← host (ReadInstruction (rSPR (cpu m) SPR_HID0) (memory m) p (iCache m));
    _ ← modify (set_iCache r.2); mret (mk_inst_result true b r.1 p).

Lemma TryReadInstruction_eq a : TryReadInstruction a = (
  s ← gets cpu;
  if Z.testbit (msr s) MSR_IR then
    x ← TranslateAddress Opcode a;
    match x with
    | BAT_TRANSLATED p => fetch_at true p
    | PAGE_TABLE_TRANSLATED p => fetch_at false p
    | _ => mret (mk_inst_result false false 0 0)
    end
  else fetch_at true a).
Proof. reflexivity. Qed.

(** Without translation and without the cache. *)
Lemma fetch_uncached a (m : Mmu (Clock E)) hex :
  Z.testbit (msr (cpu m)) MSR_IR = false -> ((a .& 0xFE000000) =? 0x7E000000) = false ->
  ReadInstruction (rSPR (cpu m) SPR_HID0) (memory m) a (iCache m) = Some (hex, iCache m) -> Read_Opcode a m = Done hex m.
Proof.
  intros Ir Hv Rd. unfold Read_Opcode. rewrite TryReadInstruction_eq. unfold mbind, M_bind, gets at 1. rewrite Ir.
  unfold fetch_at, mbind, M_bind, gets, id. rewrite Hv, andb_false_r. unfold host. rewrite Rd.
  cbn [fst snd valid negb PpcMmu.hex mret M_ret modify]. rewrite set_iCache_id. reflexivity.
Qed.

Lemma fetch_at_ok (m m0 : Mmu (Clock E)) b p r m1 : mmu_ok m -> translated m m0 -> fetch_at b p m0 = Done r m1 -> fetched m m1.
Proof.
  intros Hm X. unfold fetch_at, mbind, M_bind, gets, host, modify, mret, M_ret, id. destruct (_ && _).
  - destruct (load_bytes _ _ _); [| done]. intros [= _ <-]. rewrite <- (set_iCache_id m0). apply fetched_translated; done.
  - destruct (ReadInstruction _ _ _ _); [| done]. intros [= _ <-]. apply fetched_translated; done.
Qed.

Lemma fetch_ok a (m : Mmu (Clock E)) hex m1 :
  mmu_ok m -> inu 32 a -> Read_Opcode a m = Done hex m1 -> hex <> 0 -> fetched m m1.
Proof.
  intros Hm Ha. unfold Read_Opcode. unfold mbind at 1, M_bind at 1.
  destruct (TryReadInstruction a m) as [r m2 | |] eqn:T; [| done | done].
  destruct (valid r) eqn:V; [| intros [= <- _]; done]. intros [= _ <-] _. revert T. rewrite TryReadInstruction_eq.
  unfold mbind at 1, M_bind at 1, gets at 1. destruct (Z.testbit (msr (cpu m)) MSR_IR).
  - destruct (TranslateAddress_translated Opcode a m Hm Ha) as (m0 & T & X). unfold mbind at 1, M_bind at 1. rewrite T.
    destruct (reference m Opcode a); try (apply fetch_at_ok; done); intros [= <- _]; done.
  - apply fetch_at_ok; [done | apply translated_refl, Hm].
Qed.

(** The address of an access depends on the general registers. *)
Lemma form_address h f inst x s :
  (exists put, In (h, f, put) (loads (D := Clock E))) \/ (exists val, In (h, f, val) (stores (D := Clock E))) ->
  f_ea f inst (set_npc x s) = f_ea f inst s /\ (wf s -> inu 32 (f_ea f inst s)).
Proof.
  assert (Ea : inu 32 (Helper_Get_EA inst s) /\ inu 32 (Helper_Get_EA_U inst s) /\ inu 32 (Helper_Get_EA_UX inst s)).
  { unfold Helper_Get_EA, Helper_Get_EA_U, Helper_Get_EA_UX. split_and!; try case_match; apply inu_u32. }
  assert (Ex : wf s -> inu 32 (Helper_Get_EA_X inst s)).
  { intros Hs. unfold Helper_Get_EA_X. case_match; [apply inu_u32 | apply rGPR_width, Hs]. }
  intros [[put Hin] | [val Hin]]; cbn [In app loads stores forms indexed] in Hin; destruct_or! Hin; try done; injection Hin as _ <- _;
    (split; [reflexivity | intros; cbn [f_ea]; first [apply Ex; done | apply Ea]]).
Qed.

(** What the handler of a load or store leaves of the registers when it fails. *)
Lemma delivered_DSI a s :
  wf s -> Exceptions s = 0 ->
  let s' := after_DSI (dsi_state a s) in
  pc s' = 0x300 /\ npc s' = 0x300 /\ SRR0 s' = pc s /\ SRR1 s' = msr s .& 0x87C0FFFF /\ rSPR s' SPR_DAR = u32 a /\
  gpr s' = gpr s /\ fp_registers s' = fp_registers s /\ Exceptions s' = 0 /\ m_end_block s' = true.
Proof.
  intros Hs He. unfold after_DSI. rewrite dsi_state_pending. cbv zeta.
  assert (Ee : Exceptions (dsi_state a s) = EXCEPTION_DSI) by (unfold dsi_state; cbn [Exceptions set_Exceptions put_spr set_spr]; rewrite He; done).
  unfold CheckExceptions. rewrite Ee.
  change (flag EXCEPTION_DSI EXCEPTION_DSI) with true. change (flag EXCEPTION_DSI EXCEPTION_ISI) with false.
  change (flag EXCEPTION_DSI EXCEPTION_PROGRAM) with false. change (flag EXCEPTION_DSI EXCEPTION_SYSCALL) with false.
  change (flag EXCEPTION_DSI EXCEPTION_FPU_UNAVAILABLE) with false. change (flag EXCEPTION_DSI EXCEPTION_FAKE_MEMCHECK_HIT) with false. cbv iota.
  assert (Ex : Exceptions (take_exception EXCEPTION_DSI (pc (dsi_state a s)) 0 0x300 (dsi_state a s)) = 0).
  { unfold take_exception. cbn [Exceptions set_Exceptions set_pc set_npc set_msr put_spr set_spr]. rewrite Ee. done. }
  set (s1 := dsi_state a s) in *.
  assert (Sp : forall i, rSPR (set_end_block true (take_exception EXCEPTION_DSI (pc s1) 0 0x300 s1)) i =
    if i =? SPR_SRR1 then u32 ((msr s .& 0x87C0FFFF) .| 0) else if i =? SPR_SRR0 then u32 (pc s) else rSPR s1 i).
  { intros i. transitivity (rSPR (put_spr SPR_SRR1 ((msr s .& 0x87C0FFFF) .| 0) (put_spr SPR_SRR0 (pc s) s1)) i); [done |]. rewrite !rSPR_put_spr. done. }
  split_and!; try done.
  - rewrite Sp. apply wrapu_id, Hs.
  - rewrite Sp. cbn [Z.eqb SPR_SRR1 Pos.eqb]. rewrite Z.lor_0_r. apply wrapu_id, inu_land_32, Hs.
  - rewrite Sp. transitivity (rSPR (put_spr SPR_DAR a (put_spr SPR_DSISR (if negb (a =? 0) then PPC_EXC_DSISR_PAGE .| PPC_EXC_DSISR_STORE else PPC_EXC_DSISR_PAGE) s)) SPR_DAR); [done |].
    rewrite rSPR_put_spr. done.
Qed.

(** A check that finds nothing but an alignment exception. *)
Lemma alignment_delivered s :
  Exceptions s = EXCEPTION_ALIGNMENT -> CheckExceptions s = take_exception EXCEPTION_ALIGNMENT (pc s) 0 0x600 s.
Proof. intros He. unfold CheckExceptions. rewrite He. reflexivity. Qed.

Lemma take_exception_SRR0 exc srr0 extra vector s : SRR0 (take_exception exc srr0 extra vector s) = u32 srr0.
Proof.
  change (rSPR (put_spr SPR_SRR1 ((msr s .& 0x87C0FFFF) .| extra) (put_spr SPR_SRR0 srr0 s)) SPR_SRR0 = u32 srr0).
  rewrite !rSPR_put_spr. done.
Qed.

(** C10: A load or store that cannot be done, from its fetch to the first
    instruction of the exception's handler, for a machine with the memory
    management unit enabled in the configuration ([bMMU]), without watchpoints
    and replaced functions, with the floating-point unit enabled if the
    instruction needs it, and without an exception pending before. If data
    translation is on and a page of the access cannot be translated, the step
    leaves the processor at 0x300 with the instruction's own address in SRR0,
    the machine state in SRR1 and the address of the page in DAR; no general or
    floating-point register and no byte of memory outside the page table has
    changed, and nothing is pending. If the instruction requires a multiple of
    four and the address is not one, the step goes on to the next instruction:
    no general register has changed, DAR has the address and the alignment
    exception stays pending; a check for exceptions made there jumps to 0x600
    with the address of that next instruction in SRR0. *)
Theorem faulting_access h f hex l m m1 a :
  (exists put, In (h, f, put) loads) \/ (exists val, In (h, f, val) stores) ->
  execute et_Dec (last_pc l) hex = h hex ->
  Z.testbit (msr (cpu m)) MSR_FP = true \/ fpu_op (RunTable the_tables hex) = false ->
  no_hooks -> no_memchecks (D := Clock E) -> bMMU = true ->
  mmu_ok m -> wf (cpu m) -> Exceptions (cpu m) = 0 ->
  Read_Opcode (pc (cpu m)) (about_to_fetch m) = Done hex m1 -> hex <> 0 ->
  let ea := f_ea f hex (cpu m) in
  ((f_aligned f = true -> (ea .& 3) = 0) -> Z.testbit (msr (cpu m)) MSR_DR = true -> untranslated m Read (f_size f) ea = Some a ->
   exists r m', SingleStepInner et_Dec l m = Done r m' /\
     pc (cpu m') = 0x300 /\ SRR0 (cpu m') = pc (cpu m) /\ SRR1 (cpu m') = msr (cpu m) .& 0x87C0FFFF /\ rSPR (cpu m') SPR_DAR = u32 a /\
     gpr (cpu m') = gpr (cpu m) /\ fp_registers (cpu m') = fp_registers (cpu m) /\ Exceptions (cpu m') = 0 /\ m_end_block (cpu m') = true /\
     forall q, outside_table m q -> load_u8 (memory m') q = load_u8 (memory m) q) /\
  (f_aligned f = true -> (ea .& 3) <> 0 ->
   exists r m', SingleStepInner et_Dec l m = Done r m' /\
     pc (cpu m') = u32 (pc (cpu m) + 4) /\ Exceptions (cpu m') = EXCEPTION_ALIGNMENT /\ rSPR (cpu m') SPR_DAR = ea /\
     gpr (cpu m') = gpr (cpu m) /\ SRR0 (cpu m') = SRR0 (cpu m) /\
     pc (CheckExceptions (cpu m')) = 0x600 /\ SRR0 (CheckExceptions (cpu m')) = u32 (pc (cpu m) + 4)).
Proof.
  intros Hin Hex Hfp Nh Nm B Hm Hw He Hf Hz ea.
  assert (Hm0 : mmu_ok (about_to_fetch m)) by (apply set_cpu_mmu_ok; done).
  pose proof (fetch_ok _ _ _ _ Hm0 (wf_pc _ Hw) Hf Hz) as [Ec Hm1 Rf Ro Mo].
  assert (Ew : wf (cpu m1)) by (rewrite Ec; apply wf_set_npc; [apply inu_u32 | done]).
  destruct (form_address h f hex (u32 (pc (cpu m) + 4)) (cpu m) Hin) as [Ea Hea]. specialize (Hea Hw). fold ea in Ea, Hea.
  assert (Ea1 : f_ea f hex (cpu m1) = ea) by (rewrite Ec; exact Ea).
  assert (Hfp1 : Z.testbit (msr (cpu m1)) MSR_FP = true \/ fpu_op (RunTable the_tables hex) = false) by (rewrite Ec; exact Hfp).
  destruct (access_fails h f hex m1 a Hin) as [Fa Fd]. rewrite Ea1, <- Hex in Fa, Fd. split.
  - intros Al DR Hu. destruct Fd as (m2 & X & E2); [done | done | done | done | done | rewrite Ec; exact DR | |].
    { rewrite <- Hu. unfold untranslated. rewrite !Rf. unfold about_to_fetch. rewrite !set_cpu_reference by done. done. }
    destruct (step_runs l m hex m1 _ Nh Hf Hz (run_unmarked _ _ _ _ Hfp1 E2)) as [r E3]. eexists r, _. split; [exact E3 |].
    cbn [cpu set_cpu memory]. rewrite Ec. destruct (delivered_DSI a (set_npc (u32 (pc (cpu m) + 4)) (cpu m))) as (D1 & D2 & D3 & D4 & D5 & D6 & D7 & D8 & D9);
      [exact (eq_ind _ wf Ew _ Ec) | exact He |].
    split_and!; try done. intros q Hq. rewrite (tr_memory _ _ X) by (apply Ro; done). apply Mo. done.
  - intros Al Hn. specialize (Fa Al Hn).
    destruct (step_runs l m hex m1 _ Nh Hf Hz (run_unmarked _ _ _ _ Hfp1 Fa)) as [r E3]. eexists r, _. split; [exact E3 |].
    cbn [cpu set_cpu]. rewrite Ec. unfold after_DSI, DSI_pending, GenerateAlignmentException. cbn [Exceptions put_spr set_spr set_Exceptions cpu about_to_fetch set_cpu set_npc].
    rewrite He. change (flag (0 .| EXCEPTION_ALIGNMENT) EXCEPTION_DSI) with false. cbv iota. split_and!; try done.
    + change (rSPR (put_spr SPR_DAR ea (cpu m)) SPR_DAR = ea). rewrite rSPR_put_spr. cbn. apply wrapu_id, Hea.
    + change (rSPR (put_spr SPR_DAR ea (cpu m)) SPR_SRR0 = rSPR (cpu m) SPR_SRR0). rewrite rSPR_put_spr. done.
    + rewrite alignment_delivered by done. rewrite take_exception_SRR0. apply wrapu_id, wrapu_range. lia.
Qed.

(** ** A loop that waits *)

Lemma bx_information hex : OPCD hex = 18 -> RunTable the_tables hex = Op.bx /\ fpu_op Op.bx = false /\ exists info, GetOpInfo the_tables hex = Some info /\ numCycles info = 1.
Proof.
  intros Ho. unfold RunTable, GetOpInfo. rewrite Ho. split; [vm_compute; reflexivity |]. split; [vm_compute; reflexivity |].
  eexists. split; vm_compute; reflexivity.
Qed.

(** The machine after a branch to itself. *)
Definition idled (hex : Z) (m : Mmu (Clock E)) : Mmu (Clock E) := on_sched (bx hex) m.

Lemma bx_to_itself hex (s : State (Mmu (Clock E))) :
  (if AA hex then u32 (SignExt26 (LI hex .<< 2)) else u32 (pc (ppc s) + SignExt26 (LI hex .<< 2))) = pc (ppc s) ->
  let s' := bx hex s in
  world s' = world s /\ s_idled_cycles s' = s64 (s_idled_cycles s + DowncountToCycles (downcount (ppc s))) /\
  downcount (ppc s') = 0 /\ npc (ppc s') = pc (ppc s) /\ pc (ppc s') = pc (ppc s) /\ m_end_block (ppc s') = true /\ Exceptions (ppc s') = Exceptions (ppc s).
Proof.
  intros Et. unfold bx. cbv zeta. destruct (LK hex), (AA hex); cbn [ppc set_ppc set_machine fst set_end_block set_npc put_spr set_spr npc pc]; rewrite Et, Z.eqb_refl;
    split_and!; try done; exact Et.
Qed.

(** C12: A program that waits gives way. When the next instruction is a branch
    to itself, however much of the slice is left, the slice ends after that one
    instruction: the rest of it is counted as idle, the program counter stays
    at the branch, and control returns to the loop that lets the scheduler run
    the next event. *)
Theorem idle_loop_yields blocks fuel l m m1 hex :
  no_hooks -> bEnableDebugging = false -> 0 < downcount (cpu m) < 2 ^ 31 -> Exceptions (cpu m) = 0 ->
  Read_Opcode (pc (cpu m)) (about_to_fetch (set_cpu (set_end_block false (cpu m)) m)) = Done hex m1 -> hex <> 0 ->
  OPCD hex = 18 ->
  (if AA hex then u32 (SignExt26 (LI hex .<< 2)) else u32 (pc (cpu m) + SignExt26 (LI hex .<< 2))) = pc (cpu m) ->
  exists l' m', run_slice et_Dec (S (S blocks)) (S (S fuel)) l m = Done (l', true) m' /\
    downcount (cpu m') = -1 /\ pc (cpu m') = pc (cpu m) /\ Exceptions (cpu m') = 0 /\ memory m' = memory m1 /\
    clk_idled_cycles (devices m') = s64 (clk_idled_cycles (devices m1) + DowncountToCycles (downcount (cpu m))).
Proof.
  intros Nh Nd Hd He Hf Hz Ho Ht. destruct (bx_information hex Ho) as (Hr & Hm & info & Hi & Hc).
  set (m0 := set_cpu (set_end_block false (cpu m)) m) in *.
  assert (Ec : cpu m1 = cpu (about_to_fetch m0)) by (destruct (fetch_cpu _ _ _ _ Hf) as [? | [? _]]; done).
  assert (Ht1 : (if AA hex then u32 (SignExt26 (LI hex .<< 2)) else u32 (pc (cpu m1) + SignExt26 (LI hex .<< 2))) = pc (cpu m1)) by (rewrite Ec; exact Ht).
  destruct (bx_to_itself hex (to_sched m1) Ht1) as (B1 & B2 & B3 & B4 & B5 & B6 & B7). cbn [ppc to_sched] in *.
  assert (Hx : execute et_Dec (last_pc l) hex m1 = Done tt (idled hex m1)) by (unfold execute; rewrite Hr; done).
  assert (Ci : cpu (idled hex m1) = ppc (bx hex (to_sched m1))) by done.
  pose proof (run_unmarked (last_pc l) hex m1 _ (or_intror (eq_trans (f_equal fpu_op Hr) Hm)) Hx) as Hrun.
  assert (Ea : after_DSI (cpu (idled hex m1)) = cpu (idled hex m1)).
  { unfold after_DSI, DSI_pending. rewrite Ci, B7, Ec. change (Exceptions (cpu (about_to_fetch m0))) with (Exceptions (cpu m)). rewrite He. done. }
  rewrite Ea, set_cpu_id in Hrun.
  assert (Step : SingleStepInner et_Dec l m0 = Done (mk_loop hex (pc (cpu (idled hex m1))), 1) (set_cpu (set_pc (npc (cpu (idled hex m1))) (cpu (idled hex m1))) (idled hex m1))).
  { unfold SingleStepInner, HandleFunctionHooking. unfold mbind, M_bind, gets at 1. rewrite Nh. unfold registers at 1, modify at 1, gets at 1.
    fold (about_to_fetch m0). change (pc (cpu (about_to_fetch m0))) with (pc (cpu m)). rewrite Hf, (proj2 (Z.eqb_neq hex 0)) by done. cbn [negb].
    rewrite Hrun. unfold gets, registers, modify, mret, M_ret, host. cbn [m_prev_inst]. rewrite Hi, Hc. reflexivity. }
  eexists _, _. split.
  - cbn [run_slice]. unfold mbind at 1, M_bind at 1, gets at 1. destruct (Z.ltb_spec 0 (downcount (cpu m))); [| lia].
    unfold mbind at 1, M_bind at 1, registers at 1, modify at 1. fold m0. rewrite Nd. unfold mbind at 1, M_bind at 1.
    cbn [run_block]. unfold mbind at 1, M_bind at 1, gets at 1. change (m_end_block (cpu m0)) with false. cbv iota.
    unfold mbind at 1, M_bind at 1. rewrite Step. unfold mbind at 1, M_bind at 1, gets at 1. cbn [cpu set_cpu m_end_block set_pc fst snd]. rewrite Ci, B6.
    unfold mret at 1, M_ret at 1. unfold mbind at 1, M_bind at 1, spend, registers at 1, modify at 1. cbn [cpu set_cpu fst snd].
    unfold mbind at 1, M_bind at 1, gets at 1. cbn [cpu set_cpu downcount set_downcount set_pc]. rewrite B3. change (0 <? s32 (0 - s32 (0 + 1))) with false.
    cbv iota. unfold mret, M_ret. reflexivity.
  - cbn [cpu set_cpu downcount set_downcount set_pc pc Exceptions memory devices]. rewrite B4, B7, Ec. split_and!; try done.
    + unfold idled, on_sched, of_sched. cbn [memory set_cpu set_devices]. rewrite B1. done.
    + unfold idled, on_sched, of_sched. cbn [devices set_cpu set_devices clk_idled_cycles]. rewrite B2. cbn [s_idled_cycles to_sched]. rewrite Ec. done.
Qed.
End Steps.

(** ** Examples *)

Section Example.
#[local] Instance quiet_mmu : MmuHost (Clock unit) := {|
  Video_AccessEFB t x y data d := (0, d);
  mmio_Read size a m := (0, m);
  mmio_Write size a v m := m;
  GPFifo_Write size v m := m;
  mem_check a v w size pc d := (false, d);
  bMMU := true
|}.
#[local] Instance quiet_caches : LoadStoreHost (Clock unit) := {|
  JitInterface_InvalidateICache a n forced d := d;
  PanicYesNo d := (true, d);
  bLowDCBZHack := false
|}.
#[local] Instance quiet_pipe : SprHost (Clock unit) := {|
  ResetGatherPipe d := d;
  JitInterface_ClearSafe d := d;
  OverlapsMemcheck _ _ := false;
  bWii := false
|}.
#[local] Instance quiet_run : RunHost unit := {|
  ReplaceFunctionIfPossible a m := (false, m);
  is_running m := false;
  IsAddressBreakPoint a m := false;
  Break a m := m;
  bEnableDebugging := false
|}.
#[local] Instance quiet_fpu : FpuHost := {| bFlushToZero := false |}.

Lemma quiet_devices_admit R `{!PreOrder R} : DevicesAdmit (D := Clock unit) R.
Proof. constructor; intros; reflexivity. Qed.

(** No event does anything. *)
Definition no_callback (ty : EventType) (ud late now : Z) (x : PowerPCState * Mmu (Clock unit)) : (PowerPCState * Mmu (Clock unit)) * list Command := (x, []).

Lemma quiet_run_admits R `{!PreOrder R} : RunAdmits no_callback R.
Proof. constructor; intros; reflexivity. Qed.

(** A machine with other devices and registers, and no data blocks. *)
Definition install {D D'} (s : PowerPCState) (d : D') (m : Mmu D) : Mmu D' :=
  mk_mmu s (memory m) (tlb m) (pagetable_base m) (pagetable_hashmask m) (ibat_table m) ∅ (iCache m) d.

Lemma install_page_entry {D D'} s (d : D') (m : Mmu D) ea : sr s = sr (cpu m) -> page_entry (install s d m) ea = page_entry m ea.
Proof.
  intros Es. unfold page_entry, is_entry, candidates, group, segment. cbn [cpu memory pagetable_base pagetable_hashmask install]. rewrite Es. reflexivity.
Qed.

Lemma install_ok {D D'} s (d : D') (m : Mmu D) : sr s = sr (cpu m) -> mmu_ok m -> mmu_ok (install s d m).
Proof.
  intros Es [T I Db]. constructor; [| done | apply bat_ok_empty]. destruct T as [[] S A]. constructor; [constructor; done | done |].
  intros opc i w Hw Hn. generalize (A opc i w Hw Hn). unfold way_agrees, segment. rewrite install_page_entry by done.
  cbn [cpu memory tlb install]. rewrite Es. exact id.
Qed.

(** The machine of the two pages about to execute the word at 0x14840, an
    entry of the page table: [lwz r0, 0x9181(0)]. *)
Definition at_entry : Mmu (Clock unit) :=
  install (set_pc 0x14840 (cpu at_two_pages)) (mk_clock 0 100 [] 1 [] 0 false 0 0 0 0 tt) at_two_pages.

Lemma wf_at_entry : wf (cpu at_entry).
Proof. apply wf_set_pc; [widths | apply wf_at_two_pages]. Qed.

Lemma at_entry_ok : mmu_ok at_entry.
Proof.
  assert (K : forall v s, sr (set_pc v s) = sr s) by done. unfold at_entry. apply install_ok; [apply K | apply at_two_pages_ok].
Qed.

Lemma at_entry_fetch : Read_Opcode 0x14840 (about_to_fetch at_entry) = Done 0x80009181 (about_to_fetch at_entry).
Proof. apply fetch_uncached; vm_compute; reflexivity. Qed.

(** It steps with registers of their widths. *)
Lemma registers_in_range_example :
  wf (cpu at_entry) /\ forall r m', run_loop 9 no_callback 5 100 (mk_loop 0 0) at_entry = Done r m' -> wf (cpu m').
Proof.
  split; [apply wf_at_entry |]. pose proof (quiet_devices_admit keeps_wf). pose proof (quiet_run_admits keeps_wf).
  apply (registers_in_range 9 no_callback 5 100 (mk_loop 0 0) at_entry wf_at_entry).
Defined.

(** The load's page is not mapped. *)
Lemma faulting_access_witness :
  exists r m', SingleStepInner 9 (mk_loop 0 0) at_entry = Done r m' /\ pc (cpu m') = 0x300 /\ SRR0 (cpu m') = 0x14840 /\
    rSPR (cpu m') SPR_DAR = 0xFFFF9181.
Proof.
  destruct (faulting_access 9 lwz (mk_form Helper_Get_EA 4 false false) 0x80009181 (mk_loop 0 0) at_entry (about_to_fetch at_entry) 0xFFFF9181) as [F _].
  - left. exists (fun inst _ => put_gpr (RD inst)). cbn. tauto.
  - unfold execute. replace (RunTable the_tables 0x80009181) with Op.lwz by (vm_compute; reflexivity). reflexivity.
  - right. vm_compute. reflexivity.
  - intros a m. reflexivity.
  - intros a v w size pc d. reflexivity.
  - reflexivity.
  - apply at_entry_ok.
  - apply wf_at_entry.
  - vm_compute. reflexivity.
  - exact at_entry_fetch.
  - discriminate.
  - destruct F as (r & m' & E & P1 & P2 & _ & P3 & _); [discriminate | vm_compute; reflexivity | vm_compute; reflexivity |].
    exists r, m'. split_and!; [exact E | exact P1 | rewrite P2; vm_compute; reflexivity | rewrite P3; vm_compute; reflexivity].
Defined.

(** The same machine with [fadd f0, f1, f2] there. *)
Definition at_fadd : Mmu (Clock unit) := set_memory (poke 0x14840 0xFC01102A (memory at_entry)) at_entry.

Lemma at_fadd_fetch : Read_Opcode 0x14840 (about_to_fetch at_fadd) = Done 0xFC01102A (about_to_fetch at_fadd).
Proof. apply fetch_uncached; vm_compute; reflexivity. Qed.

Lemma fpu_disabled_witness :
  exists r m', SingleStepInner 9 (mk_loop 0 0) at_fadd = Done r m' /\ pc (cpu m') = 0x800 /\ SRR0 (cpu m') = 0x14840.
Proof.
  destruct (fpu_disabled 9 (mk_loop 0 0) at_fadd (DevicesAdmit0 := quiet_devices_admit keeps_fp)) as [_ F].
  - intros a m. reflexivity.
  - vm_compute. reflexivity.
  - destruct (F 0xFC01102A (about_to_fetch at_fadd) at_fadd_fetch) as (r & m' & E & _ & _ & P1 & P2 & _).
    + discriminate.
    + vm_compute. reflexivity.
    + vm_compute. reflexivity.
    + apply wf_at_entry.
    + exists r, m'. split_and!; [exact E | exact P1 | rewrite P2; vm_compute; reflexivity].
Defined.

(** The same machine with [b .] there, and forty cycles into a slice. *)
Definition at_branch : Mmu (Clock unit) :=
  set_cpu (set_downcount 60 (cpu at_entry)) (set_memory (poke 0x14840 0x48000000 (memory at_entry)) at_entry).

Lemma at_branch_fetch :
  Read_Opcode 0x14840 (about_to_fetch (set_cpu (set_end_block false (cpu at_branch)) at_branch)) =
    Done 0x48000000 (about_to_fetch (set_cpu (set_end_block false (cpu at_branch)) at_branch)).
Proof. apply fetch_uncached; vm_compute; reflexivity. Qed.

Lemma idle_loop_yields_witness :
  exists l' m', run_slice 9 2 2 (mk_loop 0 0) at_branch = Done (l', true) m' /\ downcount (cpu m') = -1 /\ pc (cpu m') = 0x14840.
Proof.
  destruct (idle_loop_yields 9 0 0 (mk_loop 0 0) at_branch
    (about_to_fetch (set_cpu (set_end_block false (cpu at_branch)) at_branch)) 0x48000000) as (l' & m' & R & P1 & P2 & _).
  - intros a m. reflexivity.
  - reflexivity.
  - vm_compute. split; reflexivity.
  - vm_compute. reflexivity.
  - exact at_branch_fetch.
  - discriminate.
  - vm_compute. reflexivity.
  - vm_compute. reflexivity.
  - exists l', m'. split_and!; [exact R | exact P1 | exact P2].
Defined.
End Example.
